(* ===== verification/_CoqProject ===== *)
-Q . S2P
Prelude.v
JsString.v
JsNum.v
JsDate.v
Geo.v
Redis.v
I18n.v
DeliveryModel.v
Deliveries.v
DeliveriesBatch.v
DeliveriesFacts.v
DeliveriesProps.v
DeliveriesBatchProps.v
BillingModel.v
MobileMoney.v
Billing.v
BillingGuards.v
ManualBilling.v
BillingProps.v
BillingAccessProps.v
UrlValidator.v
Webhooks.v
WebhooksProps.v
AuthModel.v
Auth.v
AuthExample.v
AuthProps.v
AuthSessionProps.v
AccessGuards.v
AccessProps.v
SessionsRelay.v
RelayProps.v
Invitations.v
InvitationProps.v
OfflineQueue.v
OfflineQueueProps.v
PrismaMiddleware.v
PrismaMiddlewareProps.v
Gps.v
GpsProps.v
GpsQuality.v
TrackingModel.v
Tracking.v
TrackingProps.v
BridgeLink.v
BridgeLinkProps.v
Bridge.v
BridgeProps.v
Gateway.v
GatewayProps.v
ClientSession.v
ClientSessionProps.v
ClientSocket.v
DriverSend.v
DriverSendProps.v
Fleet.v
FleetProps.v
Users.v
UsersProps.v
FuelPrices.v
FuelPricesProps.v
FuelLogs.v
FuelScanProps.v
FuelLogsProps.v
Notifications.v
NotificationsProps.v
Maintenance.v
MaintenanceProps.v
Companies.v
CompaniesProps.v
PlatformAdmin.v
PlatformAdminProps.v
VehicleMap.v
VehicleMapProps.v
DailyReports.v
DailyReportsProps.v
Trips.v
SilenceMonitor.v
TrackingRelay.v
FuelSummary.v
