(* ===== verification/Prelude.v ===== *)
(** * DeliveryTrack: a verification development

    The program (src/backend, a NestJS service over PostgreSQL through Prisma,
    and src/frontend, a React and Capacitor application) runs the deliveries of
    many transport companies: accounts and sessions, deliveries and their
    status, the GPS positions of vehicles, billing, webhooks, invitations.
    This library models the parts that decide something and proves what each
    promises.  Paths below are under src/backend/src unless said otherwise.

    ** How the code is modelled

    - An async method is a function of the effect monad [M S A] of this file:
      from the store it works on to the store it leaves and its outcome, [Ok]
      or [Throw] with the exception the code raises.  Each awaited database call
      commits by itself; [transaction] is Prisma's $transaction.  A method that
      cannot throw is a plain function on the store.
    - A Prisma table is a [gmap] from the primary key to the row, or a list where
      the code depends on the order of insertion; findFirst, findMany, updateMany
      and deleteMany are [find_first], [find_many], [update_many] and
      [delete_many].  The order of an unordered query is that of the map, and no
      theorem depends on it.
    - Redis is a map of entries with an expiry (Redis.v), reached or not
      ([RedisLink]).  Clocks and identifiers drawn by the code are arguments.
    - Dates are milliseconds in [Z]; numbers of the GPS code are binary64 values
      ([num], JsNum.v), strings are byte strings (JsString.v).
    - What a service sends (notification, mail, webhook, socket event) is
      appended to its store's list of effects, in order.
    - Concurrency: a method that yields between its reads and its writes is split
      at that point (updateStatusFrom, updateFrom, bulkOne, acquireCheck and
      crossCheckLocked, dequeuePositions, the transactions of OfflineQueueProps),
      so that steps of other requests may be put in between; theorems that speak
      of runs quantify over all such sequences ([rtc] of a step relation).

    ** Files

    Foundations
    - Prelude.v: this file; [M], tables, footprints and triples with their
      tactics, stable sorting.
    - JsString.v, JsNum.v, JsDate.v: JavaScript strings, numbers and their texts,
      calendar.
    - Redis.v: commands and the cron lock of common/scheduling/cron-lock.ts.
    - I18n.v: the translated texts the services send, common/i18n.

    Deliveries (modules/deliveries)
    - DeliveryModel.v: rows, TRANSITION_MATRIX, stores, effects.
    - Deliveries.v: DeliveriesService: create, findOne, status changes with the
      optimistic lock, proof of location, patches, removal.
    - DeliveriesBatch.v: bulk actions, tour optimisation, import of a
      spreadsheet's rows with parseAmount.
    - DeliveriesFacts.v: what each operation may write; [exec] runs a request.
    - DeliveriesProps.v, DeliveriesBatchProps.v: C1, C2, C3, C5.  Statuses follow
      the matrix under any interleaving, companies are isolated, the loser of a
      race is refused, imports account for every line; also exact effects of a
      status change, tours that number every stop once, exact location flags.

    Billing (modules/billing, modules/manual-billing, common/guards)
    - BillingModel.v, Billing.v, MobileMoney.v: plans, subscriptions, invoices,
      Stripe and mobile money, the nightly tasks.
    - BillingGuards.v: usage.guard.ts and subscription.guard.ts.
    - ManualBilling.v: payment proofs and activation codes.
    - BillingProps.v, BillingAccessProps.v: C6 to C9.  Events and confirmations
      count once, the guards let through exactly what is paid for, proofs are
      final; also activation codes, spent once, and the calls of the public API.

    Webhooks (modules/webhooks, queue/webhook-retry.processor.ts)
    - UrlValidator.v: which addresses a webhook may reach, and the CIDR
      arithmetic against plain ranges.
    - Webhooks.v, WebhooksProps.v: dispatch and retries; an event reaches its
      subscribers, the posts of a delivery are bounded and end in a final state.

    Accounts (modules/auth, modules/sessions, modules/invitations, common/auth,
    modules/users, modules/companies, modules/platform-admin)
    - AuthModel.v, Auth.v, AuthExample.v: AuthService, and a concrete instance
      of the libraries it calls, on which the witnesses run.
    - AccessGuards.v: the request guards; SessionsRelay.v: sessions.service.ts
      and oauth-relay.service.ts; Invitations.v: invitations.service.ts.
    - AuthProps.v, AuthSessionProps.v, AccessProps.v, RelayProps.v,
      InvitationProps.v: C10, C12, C14, C15.  Lockout, who may open a session,
      agreement of the four token checks, life of an invitation; also refresh,
      password reset, the codes of the OAuth relay.
    - Users.v, UsersProps.v: UsersService with the drivers and vehicles of Fleet.v.
      C21, the drivers, their vehicles and the history of assignments agree
      whatever requests interleave; also a company keeps its administrator.
    - Companies.v, CompaniesProps.v: settings, deletion and the purge.  C22, what
      the purge erases and when it does not go through.
    - PlatformAdmin.v, PlatformAdminProps.v: the operators of the platform.  C13, a
      logout ends every impersonation of the operator; also lockouts, refresh.

    Notifications (modules/notifications, modules/alerts, modules/digest,
    modules/vehicle-maintenance)
    - Notifications.v, NotificationsProps.v: C25, no notification is reported
      twice by e-mail; also who may read and change one.
    - Maintenance.v, MaintenanceProps.v: C23, exactly one notification for each
      maintenance rule that is due.

    Database middlewares (common/prisma, common/encryption)
    - PrismaMiddleware.v, PrismaMiddlewareProps.v: C18 to C20.  Identifier
      clean-up, confinement of queries to the company, encryption round trip.

    Fleet (modules/drivers, modules/vehicles, common/vehicle-assignment)
    - Fleet.v, FleetProps.v: drivers, vehicles and their trackers, and the history of
      who drove what, which driver.vehicleId and any sequence of requests follow.

    Positions (common/geo, modules/tracking)
    - Geo.v: haversineDistance.  Gps.v: geo.utils.ts, teleportation.utils.ts,
      stationary-anchor.ts, live-map-match.ts, route-distance.ts.
      GpsQuality.v: gps-quality.ts, tracker-telemetry.ts.
    - TrackingModel.v: rows, geofence.service.ts,
      delivery-proximity.service.ts, generateAlerts.  Tracking.v: savePosition,
      saveBatch, validateAndSaveBatch, rate limits; the recent fixes of a vehicle and
      the position displayed.
    - TrackingProps.v: C26 to C28.  What ingestion may write, no position of a
      replay is lost, geofence crossings alternate; also the batch budget.
    - BridgeLink.v: TraccarBridgeService, the election of the instance that talks
      to Traccar and the life of its socket, several instances and one Redis.
      BridgeLinkProps.v: C29 and C30.  One leader while answers are timely, with
      the runs that have two when they are not; no socket is left open and a
      leader always comes back to the server.
    - Bridge.v: TraccarBridgeService, the positions of the physical trackers: what
      is stored, displayed and queued, the backfill, the alerts on silent trackers.
      BridgeProps.v: C31 and C32.  What a backfill adds, one alert per silence; also
      what is broadcast, the replay of the queue and the cases where it is lost.
    - Trips.v: the reports on a delivery's trip, on a vehicle's day and
      on the reliability of tracking: the gaps are exactly those of the trace.
    - SilenceMonitor.v: checkSilentVehicles.  C33, a silent
      vehicle with work to do is reported, and no more often than its threshold.
    - TrackingRelay.v: positions relayed by SMS and who they are
      attributed to, the positions of the map, the archive and what it keeps.
    - Gateway.v, GatewayProps.v: tracking.gateway.ts, its sockets, rooms and
      broadcasts.  C4, a socket receives the broadcasts of its company only; also an
      answer to every position message.
    - GpsProps.v and the end of GpsQuality.v: C34 and C35.  Stops against their
      declarative rule, the route distance ends and covers each segment once, no
      tracker stays in quarantine; also resolved speeds, and noise that adds no
      distance.

    Fuel (modules/fuel-consumption, queue/fuel-analysis.processor.ts)
    - FuelPrices.v, FuelPricesProps.v: C40.  The price history: one price at an
      instant, refusals without effect, a past that new prices do not change.
    - FuelLogs.v: fuel logs, the paged scan of a trace, the GPS check of the
      declared kilometres, the analysis of the consumption.
    - FuelScanProps.v: C38, the pages against one pass over the trace.
    - FuelLogsProps.v: C39, what the check concludes and writes; the two
      detectors commute.
    - DailyReports.v, DailyReportsProps.v: the daily reports, the recomputation after
      a delivery, and modules/driver-score.  C36, the nightly run counts each
      position once; also exact scores, and the runs that count otherwise.
    - FuelSummary.v: the summary by period, the list of reports, the diagnostics of a
      day.  C37, every record of the window is in exactly one bucket; also what
      happens beyond four hundred periods, and diagnostics that account for
      every position.

    The applications (src/frontend/src)
    - OfflineQueue.v, OfflineQueueProps.v: services/offlineQueue.ts.  C16, the flush
      refines the draining of a first-in first-out list; also the quota.
    - DriverSend.v, DriverSendProps.v: sendPosition of hooks/useDriverTracking.ts
      against Gateway.v.  C17, a position acquired is queued, on its way or stored.
    - ClientSession.v, ClientSessionProps.v: services/auth/refreshToken.ts and
      services/api/client.ts, in several tabs, against Auth.v.  C11.
      ClientSocket.v: services/socket/socket.ts.
    - VehicleMap.v, VehicleMapProps.v: features/map, the vehicles of the live map.
      C24, the newest fix is shown whatever the order of arrival; also the badge
      that degrades with time, and a marker that is never frozen.

    How they interact: Gateway.v stores through Tracking.v; Bridge.v through the
    rows of TrackingModel.v; Users.v, Companies.v and Fleet.v work on the accounts
    of AuthModel.v; ClientSession.v, ClientSocket.v and DriverSend.v run against the
    server's own definitions; AccessGuards.v and Gateway.v check the tokens of
    Auth.v.

    ** Parameters

    Code that is not under src is an argument, with its documented behaviour as
    named hypotheses where a theorem needs it: bcrypt, JWT, TOTP and the hash
    functions ([AuthLib] and its laws), AES-GCM (decryption inverts encryption),
    the Stripe SDK's signature check, fetch and DNS, the WHATWG URL parser,
    class-validator ([validate], isUUID), the answers of OSRM, Nominatim and Traccar,
    whether Prisma hands its middlewares the caller's own arguments or a copy
    (Fleet.v), and the functions of Math whose last bits ECMAScript leaves open ([JsMath]).

    ** Fuel

    Loops whose end is not structural carry fuel, and a theorem says that the
    amount given is enough: flushLoop runs with one more than the rows queued
    (C16: each turn removes a row or stops), routeLoop with the length of the
    trace (C35: each turn advances by at least one point), scanLoop with one more than
    the rows of the table (C38: each page holds a row).  periodsFrom has the 400 turns
    of the code itself, which C37 assumes to reach the end of the window.

    ** Not modelled

    - Reads that only list, page or aggregate (reports, dashboard, metrics,
      audit logs), and rendering to PDF: they change nothing.
    - Failures of the database other than the constraints the code tests for.
    - tracking.service.ts: the public token of a delivery, the link of a vehicle to a
      Traccar device, the nearest vehicle, the distance computed by PostGIS.
    - traccar-bridge.service.ts: its configuration report and the HTTP of its login;
      the work on one device is one step (withDeviceLock).
    - The e-mails' texts and their sending, geocoding and routing clients,
      controllers, modules, logging and configuration: wiring.
    - The frontend apart from the above: React views, the geolocation plugins, the
      back-office client, the drawing of the map. *)

From coqutil Require Export Datatypes.RecordSettersUsingExistingGetters.
From stdpp Require Export base gmap strings list sorting pretty.
From Stdlib Require Export ZArith Lia Ascii.

#[local] Open Scope string_scope.
#[local] Open Scope list_scope.

Arguments RecordSettersUsingExistingGetters.const {_} _ _ /.

(** ** Failures *)

(** The exceptions a service raises: NestJS HTTP exceptions with their message,
    the two Prisma error codes the code tests for, and any other error. *)
Inductive exn :=
  | NotFoundException (msg : string)
  | BadRequestException (msg : string)
  | ConflictException (msg : string)
  | UnauthorizedException (msg : string)
  | ForbiddenException (msg : string)
  | ManualPaymentRequiredException
  | HttpException (status : Z) (msg : string)
  | PrismaP2025
  | PrismaP2002
  | OtherError (msg : string).

#[export] Instance exn_eq_dec : EqDecision exn.
Proof. solve_decision. Defined.

Inductive result (A : Type) :=
  | Ok (a : A)
  | Throw (e : exn).
Arguments Ok {A} a.
Arguments Throw {A} e.

Definition is_ok {A} (r : result A) : bool :=
  match r with Ok _ => true | Throw _ => false end.

(** ** The effect monad

    An [async] method of a service is a function from the store it works on to
    the store it leaves and its outcome.  A [throw] keeps what was written
    before it: each awaited Prisma call commits on its own.  Only
    [transaction] (Prisma's [$transaction]) discards the writes of a body that
    throws. *)

Definition M (S A : Type) : Type := S → S * result A.

#[export] Instance M_ret S : MRet (M S) := λ A a s, (s, Ok a).

#[export] Instance M_bind S : MBind (M S) := λ A B f m s,
  match m s with
  | (s', Ok a) => f a s'
  | (s', Throw e) => (s', Throw e)
  end.

Definition throw {S A} (e : exn) : M S A := λ s, (s, Throw e).
Definition gets {S A} (f : S → A) : M S A := λ s, (s, Ok (f s)).
Definition modify {S} (f : S → S) : M S unit := λ s, (f s, Ok tt).

Definition try_catch {S A} (m : M S A) (h : exn → M S A) : M S A := λ s,
  match m s with
  | (s', Ok a) => (s', Ok a)
  | (s', Throw e) => h e s'
  end.

Definition transaction {S A} (m : M S A) : M S A := λ s,
  match m s with
  | (s', Ok a) => (s', Ok a)
  | (_, Throw e) => (s, Throw e)
  end.

(** [for (const x of xs) await f(x)]: stops at the first throw. *)
Fixpoint for_each {S A} (f : A → M S unit) (xs : list A) : M S unit :=
  match xs with
  | [] => mret tt
  | x :: xs' => f x ;; for_each f xs'
  end.

(** [if (!c) throw e]. *)
Definition ensure {S} (c : bool) (e : exn) : M S unit :=
  if c then mret tt else throw e.

(** The outcome of a call that does not touch the store. *)
Definition of_result {S A} (r : result A) : M S A := λ s, (s, r).

Definition run_state {S A} (m : M S A) (s : S) : S := (m s).1.
Definition run_result {S A} (m : M S A) (s : S) : result A := (m s).2.

(** A sub-store seen through a getter and a setter. *)
Definition zoom {S T A} (get : S → T) (put : T → S → S) (m : M T A) : M S A := λ s,
  match m (get s) with (t, r) => (put t s, r) end.

(** ** Tables

    A Prisma model is a finite map from its primary key to its row. *)

Section Tables.
Context {A : Type}.
Implicit Types (t : gmap string A) (P : string → A → bool).

(** [findMany({ where })], without an [orderBy]. *)
Definition find_many P t : list (string * A) :=
  filter (λ kv, P kv.1 kv.2 = true) (map_to_list t).

(** [findFirst({ where })]: one of the matching rows. *)
Definition find_first P t : option (string * A) := head (find_many P t).

(** [count({ where })]. *)
Definition count_where P t : Z := Z.of_nat (length (find_many P t)).

(** [updateMany({ where, data })]. *)
Definition update_many P (f : A → A) t : gmap string A :=
  map_imap (λ k a, Some (if P k a then f a else a)) t.

(** [deleteMany({ where })]. *)
Definition delete_many P t : gmap string A :=
  map_imap (λ k a, if P k a then None else Some a) t.

Lemma elem_of_find_many P t k a :
  (k, a) ∈ find_many P t ↔ t !! k = Some a ∧ P k a = true.
Proof.
  unfold find_many. rewrite list_elem_of_filter, elem_of_map_to_list. tauto.
Qed.

Lemma find_many_NoDup P t : NoDup (find_many P t).*1.
Proof.
  unfold find_many. apply (sublist_NoDup _ (map_to_list t).*1);
    [apply NoDup_fst_map_to_list|apply fmap_sublist, sublist_filter].
Qed.

Lemma find_first_Some P t k a :
  find_first P t = Some (k, a) → t !! k = Some a ∧ P k a = true.
Proof.
  unfold find_first. intros H.
  apply elem_of_find_many. destruct (find_many P t); [done|].
  simpl in H. simplify_eq. left.
Qed.

Lemma find_first_None P t k a :
  find_first P t = None → t !! k = Some a → P k a = false.
Proof.
  unfold find_first. intros H Hk.
  destruct (find_many P t) as [|x l] eqn:E; [|done].
  destruct (P k a) eqn:HP; [|done].
  assert (Hin : (k, a) ∈ find_many P t) by (apply elem_of_find_many; done).
  rewrite E in Hin. by apply not_elem_of_nil in Hin.
Qed.

Lemma find_first_is_Some P t k a :
  t !! k = Some a → P k a = true → ∃ k' a', find_first P t = Some (k', a').
Proof.
  intros Hk HP. destruct (find_first P t) as [[k' a']|] eqn:E; [eauto|].
  by rewrite (find_first_None _ _ _ _ E Hk) in HP.
Qed.

Lemma lookup_update_many P f t k :
  update_many P f t !! k = (λ a, if P k a then f a else a) <$> t !! k.
Proof. unfold update_many. rewrite map_lookup_imap. by destruct (t !! k). Qed.

Lemma lookup_delete_many P t k :
  delete_many P t !! k = t !! k ≫= (λ a, if P k a then None else Some a).
Proof. unfold delete_many. by rewrite map_lookup_imap. Qed.

Lemma lookup_delete_many_Some P t k a :
  delete_many P t !! k = Some a ↔ t !! k = Some a ∧ P k a = false.
Proof.
  rewrite lookup_delete_many.
  destruct (t !! k) as [b|]; simpl; [|split; intros; destruct_and?; done].
  destruct (P k b) eqn:E; split; intros; destruct_and?; simplify_eq; auto; congruence.
Qed.
End Tables.

(** ** Filters that keep everything or nothing *)

Section Filters.
Context {A : Type} (P : A → Prop) `{∀ x, Decision (P x)}.

Lemma filter_all l : Forall P l → filter P l = l.
Proof.
  induction 1 as [|x l Hx _ IH]; [done|].
  rewrite filter_cons, decide_True by done. by rewrite IH.
Qed.

Lemma filter_none l : Forall (λ x, ¬ P x) l → filter P l = [].
Proof.
  induction 1 as [|x l Hx _ IH]; [done|].
  rewrite filter_cons, decide_False by done. done.
Qed.
End Filters.

(** ** Sorting

    [xs.sort((a, b) => key(a) - key(b))], JavaScript's stable sort. *)

Section Sorting.
Context {A : Type} (key : A → Z).

Fixpoint insert_by (x : A) (sorted : list A) : list A :=
  match sorted with
  | [] => [x]
  | y :: sorted' => if (key x <? key y)%Z then x :: sorted else y :: insert_by x sorted'
  end.
Definition sort_by (xs : list A) : list A := foldl (λ sorted x, insert_by x sorted) [] xs.

Definition key_le (x y : A) : Prop := (key x ≤ key y)%Z.

Lemma insert_by_perm x l : insert_by x l ≡ₚ x :: l.
Proof.
  induction l as [|y l IH]; [done|]. simpl. destruct (_ <? _)%Z; [done|]. rewrite IH. apply perm_swap.
Qed.

Lemma sort_by_perm l : sort_by l ≡ₚ l.
Proof.
  unfold sort_by.
  assert (H : ∀ acc, foldl (λ sorted x, insert_by x sorted) acc l ≡ₚ l ++ acc).
  { induction l as [|x l IH]; intros acc; [done|]. simpl. rewrite IH, insert_by_perm.
    symmetry. apply Permutation_middle. }
  by rewrite H, app_nil_r.
Qed.

Lemma insert_by_sorted x l : StronglySorted key_le l → StronglySorted key_le (insert_by x l).
Proof.
  induction 1 as [|y l Hs IH Hy]; simpl; [by repeat constructor|].
  destruct (Z.ltb_spec (key x) (key y)).
  - constructor; [by constructor|]. constructor; [unfold key_le; lia|].
    eapply Forall_impl; [exact Hy|]. unfold key_le. lia.
  - constructor; [done|]. rewrite insert_by_perm. constructor; [unfold key_le; lia|done].
Qed.

Lemma sort_by_sorted l : StronglySorted key_le (sort_by l).
Proof.
  unfold sort_by. assert (H : StronglySorted key_le []) by constructor.
  revert H. generalize (@nil A). induction l as [|x l IH]; intros acc H; [done|].
  simpl. by apply IH, insert_by_sorted.
Qed.

Lemma sorted_latest l x r : StronglySorted key_le l → rev l = x :: r → Forall (λ y, key_le y x) l.
Proof.
  intros Hs Hr. assert (El : l = rev r ++ [x]).
  { rewrite <- (rev_involutive l), Hr. done. }
  subst l. clear Hr. induction (rev r) as [|y l IH]; simpl in *.
  - constructor; [unfold key_le; lia|constructor].
  - inversion Hs as [|?? Hs' Hy]; subst. constructor; [|by apply IH].
    rewrite Forall_app, Forall_singleton in Hy. tauto.
Qed.

(** The last of a sorted list is one of its greatest. *)
Lemma sorted_last l x : StronglySorted key_le l → last l = Some x →
  x ∈ l ∧ ∀ y, y ∈ l → (key y ≤ key x)%Z.
Proof.
  intros Hs Hl. destruct (rev l) as [|z r] eqn:E.
  { apply (f_equal (@rev A)) in E. rewrite rev_involutive in E. by subst. }
  assert (El : l = rev r ++ [z]) by (by rewrite <- (rev_involutive l), E).
  rewrite El, last_snoc in Hl. injection Hl as ->. split; [rewrite El; set_solver|].
  pose proof (sorted_latest l x r Hs E) as H. by rewrite Forall_forall in H.
Qed.
End Sorting.

Lemma StronglySorted_filter {A} (R : relation A) (P : A → Prop) `{∀ x, Decision (P x)} l :
  StronglySorted R l → StronglySorted R (filter P l).
Proof.
  induction 1 as [|x l Hl IH Hx]; [constructor|]. rewrite filter_cons. destruct (decide (P x)); [|done].
  constructor; [done|]. rewrite Forall_forall in *. intros y Hy%list_elem_of_filter. by apply Hx, Hy.
Qed.


(** ** Footprints

    [footprint R m]: from every store, [m] (whether it returns or throws)
    leaves a store related to it by [R].  For a preorder [R] this composes
    along the control flow, so that the footprint of a handler is that of the
    writes it makes. *)

Definition footprint {S A} (R : relation S) (m : M S A) : Prop :=
  ∀ s, R s (m s).1.

Section Footprint.
Context {S : Type} (R : relation S) `{!PreOrder R}.

Lemma footprint_ret {A} (a : A) : footprint R (mret a : M S A).
Proof. intros s. simpl. reflexivity. Qed.
Lemma footprint_throw {A} e : footprint R (throw e : M S A).
Proof. intros s. simpl. reflexivity. Qed.
Lemma footprint_gets {A} (f : S → A) : footprint R (gets f).
Proof. intros s. simpl. reflexivity. Qed.
Lemma footprint_of_result {A} (r : result A) : footprint R (of_result r).
Proof. intros s. simpl. reflexivity. Qed.
Lemma footprint_modify f : (∀ s, R s (f s)) → footprint R (modify f).
Proof. intros H s. apply H. Qed.
Lemma footprint_bind {A B} (m : M S A) (f : A → M S B) :
  footprint R m → (∀ a, footprint R (f a)) → footprint R (m ≫= f).
Proof.
  intros Hm Hf s. unfold mbind, M_bind. specialize (Hm s).
  destruct (m s) as [s' [a|e]]; simpl in *; [|done].
  etransitivity; [exact Hm|apply Hf].
Qed.
Lemma footprint_try {A} (m : M S A) h :
  footprint R m → (∀ e, footprint R (h e)) → footprint R (try_catch m h).
Proof.
  intros Hm Hh s. unfold try_catch. specialize (Hm s).
  destruct (m s) as [s' [a|e]]; simpl in *; [done|].
  etransitivity; [exact Hm|apply Hh].
Qed.
Lemma footprint_transaction {A} (m : M S A) :
  footprint R m → footprint R (transaction m).
Proof.
  intros Hm s. unfold transaction. specialize (Hm s).
  destruct (m s) as [s' [a|e]]; simpl in *; [done|reflexivity].
Qed.
Lemma footprint_for_each {A} (f : A → M S unit) xs :
  (∀ x, x ∈ xs → footprint R (f x)) → footprint R (for_each f xs).
Proof.
  induction xs as [|x xs IH]; intros H; simpl; [apply footprint_ret|].
  apply footprint_bind; [apply H; left|intros _; apply IH].
  intros y Hy. apply H. by right.
Qed.
Lemma footprint_ensure c e : footprint R (ensure c e).
Proof. destruct c; [apply footprint_ret|apply footprint_throw]. Qed.
Lemma footprint_if {A} (c : bool) (m1 m2 : M S A) :
  footprint R m1 → footprint R m2 → footprint R (if c then m1 else m2).
Proof. by destruct c. Qed.
End Footprint.

Create HintDb footprint.
#[export] Hint Resolve footprint_ret footprint_throw footprint_gets
  footprint_ensure footprint_of_result : footprint.

(** Walks through the control flow of a handler and leaves the goals about its
    own writes. *)
Ltac footprint_step :=
  match goal with
  | |- footprint _ (_ ≫= _) => apply footprint_bind; [exact _| |intros ?]
  | |- footprint _ (try_catch _ _) => apply footprint_try; [exact _| |intros ?]
  | |- footprint _ (transaction _) => apply footprint_transaction; [exact _|]
  | |- footprint _ (for_each _ _) => apply footprint_for_each; [exact _|intros ? ?]
  | |- footprint _ (match ?x with _ => _ end) => destruct x eqn:?
  | |- footprint _ (modify _) => apply footprint_modify; intros ?
  | |- footprint _ _ => solve [auto with footprint typeclass_instances]
  end.
Ltac footprint_auto := repeat footprint_step.

(** ** Triples

    [spec P R m Q]: from a store where [P] holds, [m] leaves a store related
    to it by [R] however it ends, and when it returns [a], [Q a] holds there.
    [P] is what the handler knows (the row it has just read), [R] what it
    guarantees to the rest of the system. *)

Definition spec {S A} (P : S → Prop) (R : relation S) (m : M S A)
    (Q : A → S → Prop) : Prop :=
  ∀ s, P s → R s (m s).1 ∧ ∀ a s', m s = (s', Ok a) → Q a s'.

Section Spec.
Context {S : Type} (R : relation S) `{!PreOrder R}.

Lemma spec_bind {A B} P (m : M S A) Q (f : A → M S B) Q' :
  spec P R m Q → (∀ a, spec (Q a) R (f a) Q') → spec P R (m ≫= f) Q'.
Proof.
  intros Hm Hf s HP. destruct (Hm s HP) as [H1 H2].
  unfold mbind, M_bind. destruct (m s) as [s1 [a|e]]; simpl in *.
  - specialize (H2 a s1 eq_refl). destruct (Hf a s1 H2) as [H3 H4].
    split; [by etransitivity|done].
  - split; [done|by intros].
Qed.
Lemma spec_ret {A} (P : S → Prop) (a : A) (Q : A → S → Prop) :
  (∀ s, P s → Q a s) → spec P R (mret a) Q.
Proof. intros H s HP. split; [simpl; reflexivity|]. intros a' s' E. unfold mret, M_ret in E.
  simplify_eq. auto.
Qed.
Lemma spec_throw {A} (P : S → Prop) e (Q : A → S → Prop) : spec P R (throw e) Q.
Proof. intros s HP. split; [simpl; reflexivity|]. by intros. Qed.
Lemma spec_gets {A} (P : S → Prop) (f : S → A) (Q : A → S → Prop) :
  (∀ s, P s → Q (f s) s) → spec P R (gets f) Q.
Proof. intros H s HP. split; [simpl; reflexivity|]. intros a s' E. unfold gets in E.
  simplify_eq. auto.
Qed.
Lemma spec_ensure (P : S → Prop) c e (Q : unit → S → Prop) :
  (∀ s, c = true → P s → Q tt s) → spec P R (ensure c e) Q.
Proof. destruct c; intros H; [apply spec_ret; auto|apply spec_throw]. Qed.
Lemma spec_pre {A} (P P' : S → Prop) (m : M S A) Q :
  (∀ s, P s → P' s) → spec P' R m Q → spec P R m Q.
Proof. intros H Hm s HP. auto. Qed.
Lemma spec_post {A} P (m : M S A) (Q Q' : A → S → Prop) :
  (∀ a s, Q a s → Q' a s) → spec P R m Q → spec P R m Q'.
Proof. intros H Hm s HP. destruct (Hm s HP) as [H1 H2]. split; eauto. Qed.
Lemma spec_try {A} P (m : M S A) h Q :
  spec P R m Q → (∀ s s', P s → R s s' → P s') → (∀ e, spec P R (h e) Q) →
  spec P R (try_catch m h) Q.
Proof.
  intros Hm HP Hh s Hs. destruct (Hm s Hs) as [H1 H2].
  unfold try_catch. destruct (m s) as [s1 [a|e]]; simpl in *.
  - split; [done|]. intros ?? E. simplify_eq. auto.
  - destruct (Hh e s1 (HP _ _ Hs H1)) as [H3 H4]. split; [by etransitivity|done].
Qed.
(** A precondition that the guarantee keeps is a frame. *)
Lemma spec_frame {A} (P : S → Prop) (m : M S A) :
  footprint R m → (∀ s s', P s → R s s' → P s') → spec P R m (λ _, P).
Proof.
  intros Hm HP s Hs. split; [apply Hm|]. intros a s' E.
  eapply HP; [exact Hs|]. specialize (Hm s). by rewrite E in Hm.
Qed.
Lemma footprint_of_spec {A} (m : M S A) Q : spec (λ _, True) R m Q → footprint R m.
Proof. intros H s. by destruct (H s I). Qed.
Lemma spec_of_footprint {A} P (m : M S A) : footprint R m → spec P R m (λ _ _, True).
Proof. intros H s _. split; [apply H|done]. Qed.
Lemma spec_for_each {A} (P : S → Prop) (f : A → M S unit) xs :
  (∀ x, x ∈ xs → spec P R (f x) (λ _, P)) → spec P R (for_each f xs) (λ _, P).
Proof.
  induction xs as [|x xs IH]; intros H; simpl; [by apply spec_ret|].
  eapply spec_bind; [apply H; left|intros ?; apply IH].
  intros y Hy. apply H. by right.
Qed.
Lemma spec_transaction {A} P (m : M S A) Q :
  spec P R m Q → spec P R (transaction m) Q.
Proof.
  intros Hm s Hs. destruct (Hm s Hs) as [H1 H2]. unfold transaction.
  destruct (m s) as [s1 [a|e]]; simpl in *.
  - split; [done|]. intros ?? E. simplify_eq. auto.
  - split; [reflexivity|done].
Qed.
End Spec.

(** ** Running a handler symbolically *)

Lemma bind_run {S A B} (m : M S A) (f : A → M S B) s :
  (m ≫= f) s = match m s with
               | (s', Ok a) => f a s'
               | (s', Throw e) => (s', Throw e)
               end.
Proof. done. Qed.

Lemma bind_step {S A B} (m : M S A) (f : A → M S B) s s' a :
  m s = (s', Ok a) → (m ≫= f) s = f a s'.
Proof. intros H. rewrite bind_run. by rewrite H. Qed.

Lemma gets_bind {S A B} (f : S → A) (k : A → M S B) s : (gets f ≫= k) s = k (f s) s.
Proof. done. Qed.
Lemma ret_bind {S A B} (a : A) (k : A → M S B) s : ((mret a : M S A) ≫= k) s = k a s.
Proof. done. Qed.
Lemma modify_bind {S B} (f : S → S) (k : unit → M S B) s : (modify f ≫= k) s = k tt (f s).
Proof. done. Qed.
Lemma ensure_bind {S B} c e (k : unit → M S B) s :
  (ensure c e ≫= k) s = if c then k tt s else (s, Throw e).
Proof. by destruct c. Qed.

Lemma bind_Ok {S A B} (m : M S A) (f : A → M S B) s s' b :
  (m ≫= f) s = (s', Ok b) ↔ ∃ s1 a, m s = (s1, Ok a) ∧ f a s1 = (s', Ok b).
Proof.
  rewrite bind_run. destruct (m s) as [s1 [a|e]]; split.
  - intros H. by exists s1, a.
  - intros (s2 & a2 & E & H). by simplify_eq.
  - done.
  - intros (s2 & a2 & E & H). done.
Qed.

Lemma transaction_Ok {S A} (m : M S A) s s' a :
  transaction m s = (s', Ok a) → m s = (s', Ok a).
Proof. unfold transaction. by destruct (m s) as [s1 [b|x]]. Qed.
Lemma transaction_Throw {S A} (m : M S A) s s' e : transaction m s = (s', Throw e) → s' = s.
Proof. unfold transaction. destruct (m s) as [s1 [b|x]]; [done|]. by intros [= <- _]. Qed.

Lemma ensure_Ok {S} c e (s s' : S) u :
  ensure c e s = (s', Ok u) ↔ c = true ∧ s' = s ∧ u = tt.
Proof.
  destruct c, u; unfold ensure, throw, mret, M_ret; split; intros;
    destruct_and?; simplify_eq; auto.
Qed.

(** [ensure_Ok] and [bind_Ok] turned into a tactic on a hypothesis that a
    handler returned. *)
Ltac run_ok H :=
  lazymatch type of H with
  | (_ ≫= _) _ = (_, Ok _) =>
      let s1 := fresh "s" in let a := fresh "a" in let H1 := fresh H in
      apply bind_Ok in H as (s1 & a & H1 & H); run_ok H1; try run_ok H
  | ensure _ _ _ = (_, Ok _) =>
      let Hc := fresh "Hc" in apply ensure_Ok in H as (Hc & -> & ->)
  | gets _ _ = (_, Ok _) => unfold gets in H; simplify_eq
  | modify _ _ = (_, Ok _) => unfold modify in H; simplify_eq
  | mret _ _ = (_, Ok _) => unfold mret, M_ret in H; simplify_eq
  | throw _ _ = (_, Ok _) => unfold throw in H; simplify_eq
  | (match ?x with _ => _ end) _ = (_, Ok _) =>
      destruct x eqn:?; try run_ok H
  | _ => idtac
  end.

(** Splits on the innermost scrutinee of the goal or of a hypothesis. *)
Ltac split_match :=
  match goal with
  | |- context [match ?x with _ => _ end] =>
      lazymatch x with context [match _ with _ => _ end] => fail | _ => destruct x eqn:? end
  end.
Ltac split_match_in H :=
  match type of H with
  | context [match ?x with _ => _ end] =>
      lazymatch x with context [match _ with _ => _ end] => fail | _ => destruct x eqn:? end
  end.

(** ** JavaScript values *)

(** [if (s)] on an optional string: neither undefined/null nor empty. *)
Definition truthy (o : option string) : bool :=
  match o with Some s => negb (bool_decide (s = EmptyString)) | None => false end.

(** [s.replace(a, b)] with one-character strings: the first occurrence only. *)
Fixpoint replace_char (a b : Ascii.ascii) (s : string) : string :=
  match s with
  | EmptyString => EmptyString
  | String c s' => if bool_decide (c = a) then String b s' else String c (replace_char a b s')
  end.

(** [s.padStart(n, '0')]. *)
Definition pad_zeros (n : nat) (s : string) : string :=
  String.append (Nat.iter (n - String.length s) (String "0"%char) EmptyString) s.

(** A text between double quotes. *)
Definition quoted (s : string) : string :=
  String "034"%char (String.append s (String "034"%char EmptyString)).

(** [String(n)] for an integer. *)
Definition string_of_Z (z : Z) : string := pretty z.

Lemma bool_decide_in {A} `{EqDecision A} (x : A) (l : list A) :
  bool_decide (x ∈ l) = true ↔ x ∈ l.
Proof. by rewrite bool_decide_eq_true. Qed.

Lemma append_nil_r s : String.append s EmptyString = s.
Proof. induction s as [|c s IH]; [done|]. exact (f_equal (String c) IH). Qed.

(** ** Lists *)

Definition sum_Z (l : list Z) : Z := foldr Z.add 0%Z l.

Lemma sum_Z_app l1 l2 : sum_Z (l1 ++ l2) = (sum_Z l1 + sum_Z l2)%Z.
Proof. induction l1; simpl; lia. Qed.
