(* ===== verification/JsString.v ===== *)
(** * JavaScript strings

    The String methods the source uses, on ASCII characters, and the reading
    of decimal digits. *)

From S2P Require Import Prelude.

#[local] Open Scope string_scope.
#[local] Open Scope list_scope.
#[local] Open Scope Z_scope.

(** ** Characters *)

Definition isDigit (c : ascii) : bool :=
  let n := nat_of_ascii c in (48 <=? n)%nat && (n <=? 57)%nat.
Definition isSpace (c : ascii) : bool :=
  let n := nat_of_ascii c in (n =? 32)%nat || ((9 <=? n)%nat && (n <=? 13)%nat).

Definition filterString (f : ascii → bool) (s : string) : string :=
  String.string_of_list_ascii (List.filter f (String.list_ascii_of_string s)).

Definition digitsValue (s : string) : Z :=
  foldl (λ acc c, 10 * acc + (Z.of_nat (nat_of_ascii c) - 48)) 0 (String.list_ascii_of_string s).

(** [s.toUpperCase()] and [s.toLowerCase()] on ASCII letters. *)
Definition upperChar (c : ascii) : ascii :=
  let n := nat_of_ascii c in
  if (97 <=? n)%nat && (n <=? 122)%nat then ascii_of_nat (n - 32) else c.
Definition lowerChar (c : ascii) : ascii :=
  let n := nat_of_ascii c in
  if (65 <=? n)%nat && (n <=? 90)%nat then ascii_of_nat (n + 32) else c.

Fixpoint mapString (f : ascii → ascii) (s : string) : string :=
  match s with EmptyString => EmptyString | String c s' => String (f c) (mapString f s') end.
Definition toUpperCase : string → string := mapString upperChar.
Definition toLowerCase : string → string := mapString lowerChar.

Fixpoint trimStart (s : string) : string :=
  match s with
  | String c s' => if isSpace c then trimStart s' else s
  | EmptyString => EmptyString
  end.
Fixpoint trimEnd (s : string) : string :=
  match s with
  | EmptyString => EmptyString
  | String c s' =>
      match trimEnd s' with
      | EmptyString => if isSpace c then EmptyString else String c EmptyString
      | t => String c t
      end
  end.
(** [s.trim()] *)
Definition trim (s : string) : string := trimEnd (trimStart s).

(** [s.startsWith(p)] and [s.includes(p)]. *)
Definition startsWith (p s : string) : bool := String.prefix p s.
Fixpoint includes (p s : string) : bool :=
  startsWith p s || match s with EmptyString => false | String _ s' => includes p s' end.

(** [s.slice(n)] *)
Fixpoint sliceFrom (n : nat) (s : string) : string :=
  match n, s with
  | O, _ => s
  | S n', String _ s' => sliceFrom n' s'
  | _, EmptyString => EmptyString
  end.
(** [s.slice(0, n)] *)
Definition sliceTo (n : nat) (s : string) : string := String.substring 0 n s.

(** [s.split(sep)] on one character. *)
Fixpoint split_on (sep : ascii) (s : string) : list string :=
  match s with
  | EmptyString => [EmptyString]
  | String c s' =>
      if bool_decide (c = sep) then EmptyString :: split_on sep s'
      else match split_on sep s' with
           | [] => [String c EmptyString]
           | w :: ws => String c w :: ws
           end
  end.

(** ** Lemmas *)

Definition digitsFrom (acc : Z) (s : string) : Z :=
  foldl (λ acc c, 10 * acc + (Z.of_nat (nat_of_ascii c) - 48)) acc (String.list_ascii_of_string s).

Lemma pretty_N_char_digit n :
  (n < 10)%N → isDigit (pretty_N_char n) = true ∧ isSpace (pretty_N_char n) = false ∧
    Z.of_nat (nat_of_ascii (pretty_N_char n)) - 48 = Z.of_N n.
Proof.
  intros Hn. assert (∃ k, (k < 10)%nat ∧ n = N.of_nat k) as (k & Hk & ->)
    by (exists (N.to_nat n); lia).
  do 10 (destruct k as [|k]; [split_and!; reflexivity|]). lia.
Qed.

Lemma digits_pretty_go x : ∀ s, (0 < x)%N →
  digitsFrom 0 (pretty_N_go x s) = digitsFrom (Z.of_N x) s.
Proof.
  induction x as [x IH] using (well_founded_induction N.lt_wf_0); intros s Hx.
  rewrite pretty_N_go_step by done.
  assert (Hm : (x mod 10 < 10)%N) by (apply N.mod_lt; lia).
  destruct (pretty_N_char_digit _ Hm) as (_ & _ & Hv).
  pose proof (N.div_mod x 10 ltac:(lia)) as Hdm.
  assert (Hs : ∀ a, digitsFrom a (String (pretty_N_char (x mod 10)) s)
               = digitsFrom (10 * a + Z.of_N (x mod 10)) s)
    by (intros a; unfold digitsFrom; simpl; by rewrite Hv).
  destruct (decide (x `div` 10 = 0)%N) as [E|E].
  - rewrite E, pretty_N_go_0, Hs. f_equal. lia.
  - rewrite IH by (try apply N.div_lt; lia). rewrite Hs. f_equal. lia.
Qed.

Definition allChars (f : ascii → bool) (s : string) : Prop :=
  Forall (λ c, f c = true) (String.list_ascii_of_string s).

Lemma filterString_all f s : allChars f s → filterString f s = s.
Proof.
  intros H. unfold filterString. transitivity (String.string_of_list_ascii (String.list_ascii_of_string s));
    [|apply String.string_of_list_ascii_of_string]. f_equal.
  unfold allChars in H. induction H as [|c l Hc _ IH]; simpl; [done|]. by rewrite Hc, IH.
Qed.

Lemma allChars_cons f c s : allChars f (String c s) ↔ f c = true ∧ allChars f s.
Proof.
  unfold allChars. simpl. split; [by inversion 1|intros [? ?]; by constructor].
Qed.

Lemma pretty_go_chars f x : ∀ s, (∀ n, (n < 10)%N → f (pretty_N_char n) = true) →
  allChars f s → allChars f (pretty_N_go x s).
Proof.
  induction x as [x IH] using (well_founded_induction N.lt_wf_0); intros s Hf Hs.
  destruct (decide (x = 0)%N) as [->|Hx]; [by rewrite pretty_N_go_0|].
  rewrite pretty_N_go_step by lia. apply IH; [apply N.div_lt; lia|done|].
  apply allChars_cons. split; [|done]. apply Hf, N.mod_lt. lia.
Qed.

Lemma pretty_chars f (n : N) :
  (∀ k, (k < 10)%N → f (pretty_N_char k) = true) → allChars f (pretty n).
Proof.
  intros Hf. unfold pretty, pretty_N. destruct (decide (n = 0)%N).
  - apply allChars_cons. split; [exact (Hf 0%N ltac:(lia))|constructor].
  - apply pretty_go_chars; [done|constructor].
Qed.

Lemma digits_pretty (n : N) : digitsValue (pretty n) = Z.of_N n.
Proof.
  unfold pretty, pretty_N. destruct (decide (n = 0)%N) as [->|Hn]; [done|].
  change (digitsFrom 0 (pretty_N_go n EmptyString) = Z.of_N n).
  by rewrite digits_pretty_go by lia.
Qed.

Lemma filterString_app f a b :
  filterString f (String.append a b) = String.append (filterString f a) (filterString f b).
Proof.
  unfold filterString. induction a as [|c a IH]; simpl; [done|].
  destruct (f c); simpl; by rewrite IH.
Qed.

Lemma filterString_filter f g s :
  (∀ c, f c = true → g c = true) → filterString f (filterString g s) = filterString f s.
Proof.
  intros H. unfold filterString. f_equal. rewrite String.list_ascii_of_string_of_list_ascii.
  induction (String.list_ascii_of_string s) as [|c l IH]; simpl; [done|].
  destruct (g c) eqn:Eg; simpl; [by rewrite IH|].
  destruct (f c) eqn:Ef; [|done]. apply H in Ef. congruence.
Qed.

Lemma substring_split s : ∀ k, (k ≤ String.length s)%nat →
  String.append (String.substring 0 k s) (String.substring k (String.length s - k) s) = s.
Proof.
  assert (H0 : ∀ x, String.substring 0 (String.length x) x = x)
    by (induction x as [|c x IH]; cbn; [done|by rewrite IH]).
  induction s as [|c s IH]; intros k Hk; destruct k as [|k]; cbn -[Nat.sub] in *; try done; try lia.
  - exact (H0 (String c s)).
  - change (String c (String.append (String.substring 0 k s)
      (String.substring k (String.length s - k) s)) = String c s).
    rewrite IH by lia. done.
Qed.

Lemma isDigit_not_space c : isDigit c = true → negb (isSpace c) = true.
Proof.
  unfold isDigit, isSpace. generalize (nat_of_ascii c). intros n [H1%Nat.leb_le H2%Nat.leb_le]%andb_true_iff.
  destruct (n =? 32)%nat eqn:E1; [apply Nat.eqb_eq in E1; lia|].
  destruct (9 <=? n)%nat eqn:E2; [|done]. destruct (n <=? 13)%nat eqn:E3; [|done].
  apply Nat.leb_le in E3. lia.
Qed.

Lemma pretty_not_empty (n : N) : (pretty n : string) ≠ EmptyString.
Proof.
  intros E. destruct (decide (n = 0)%N) as [->|Hn]; [done|].
  assert (H : digitsValue (pretty n) = Z.of_N n) by apply digits_pretty.
  rewrite E in H. unfold digitsValue in H. simpl in H. lia.
Qed.

