(* ===== verification/JsNum.v ===== *)
(** * JavaScript numbers

    A [number] is an IEEE 754 binary64 value, here a [spec_float] of the
    Standard Library: comparisons, the field operations and [Math.sqrt] are
    computed bit for bit.  The trigonometric functions and [**], which
    ECMAScript leaves to the implementation, are the fields of [JsMath]. *)

From Stdlib Require Import SpecFloat.
From S2P Require Import Prelude.

#[local] Open Scope string_scope.
#[local] Open Scope Z_scope.

Definition num : Type := spec_float.

Definition num_of_Z (z : Z) : num := binary_normalize 53 1024 z 0 false.
Definition num_add : num → num → num := SFadd 53 1024.
Definition num_sub : num → num → num := SFsub 53 1024.
Definition num_mul : num → num → num := SFmul 53 1024.
Definition num_div : num → num → num := SFdiv 53 1024.
Definition num_ltb : num → num → bool := SFltb.
Definition num_leb : num → num → bool := SFleb.
(** [===]. *)
Definition num_eqb (x y : num) : bool := SFeqb x y.
Definition Math_sqrt : num → num := SFsqrt 53 1024.

(** A decimal literal [n / d] of the source: correctly rounded. *)
Definition num_lit (n d : Z) : num := num_div (num_of_Z n) (num_of_Z d).

Definition Math_PI : num := S754_finite false 7074237752028440 (-51).

(** [Number.isFinite]. *)
Definition isFinite (x : num) : bool :=
  match x with S754_zero _ | S754_finite _ _ _ => true | _ => false end.

Definition isNaN (x : num) : bool := match x with S754_nan => true | _ => false end.

(** [Math.max] and [Math.min]: NaN absorbs, and -0 is below +0. *)
Definition Math_max (x y : num) : num :=
  if isNaN x || isNaN y then S754_nan
  else match x, y with
       | S754_zero a, S754_zero b => S754_zero (a && b)
       | _, _ => if num_leb x y then y else x
       end.
Definition Math_min (x y : num) : num :=
  if isNaN x || isNaN y then S754_nan
  else match x, y with
       | S754_zero a, S754_zero b => S754_zero (a || b)
       | _, _ => if num_leb x y then x else y
       end.

Definition Math_abs (x : num) : num :=
  match x with
  | S754_zero _ => S754_zero false
  | S754_infinity _ => S754_infinity false
  | S754_nan => S754_nan
  | S754_finite _ m e => S754_finite false m e
  end.

(** [Math.round]: the nearest integer, ties towards +Infinity; the sign of a
    zero result is that of the argument. *)
Definition Math_round (x : num) : num :=
  match x with
  | S754_finite s m e =>
      if 0 <=? e then x
      else
        let v := if s then Z.neg m else Z.pos m in
        let r := Z.div (2 * v + Z.pow 2 (- e)) (Z.pow 2 (1 - e)) in
        if r =? 0 then S754_zero s else num_of_Z r
  | _ => x
  end.

#[export] Instance num_eq_dec : EqDecision num.
Proof. intros x y. unfold Decision. decide equality; solve [apply Pos.eq_dec | apply Z.eq_dec | apply Bool.bool_dec]. Defined.

(** The implementation-approximated functions of [Math]. *)
Record JsMath := mkJsMath {
  Math_sin : num → num;
  Math_cos : num → num;
  Math_atan2 : num → num → num;
  num_pow : num → num → num;  (** [x ** y] *)
  Math_hypot : num → num → num
}.

(** A concrete instance for evaluations: series truncated at the first order
    for [sin]/[atan2], constant [cos], squares by multiplication. *)
Definition coarseMath : JsMath :=
  {| Math_sin := λ x, x;
     Math_cos := λ _, num_of_Z 1;
     Math_atan2 := λ y x, num_div y x;
     num_pow := λ x _, num_mul x x;
     Math_hypot := λ x y, num_add x y |}.

(** ** Comparisons *)

(** Comparisons with NaN are false; otherwise exactly one of [<] and [>=]
    holds. *)
Lemma num_ltb_not_leb x y : num_ltb x y = true → num_leb y x = false.
Proof.
  unfold num_ltb, num_leb, SFltb, SFleb. intros H.
  assert (Hs : SFcompare y x = option_map CompOpp (SFcompare x y)).
  { destruct x as [[]|[]| |[] m e], y as [[]|[]| |[] m' e']; simpl; try done;
      change (Pos.compare_cont Eq m' m) with (Pos.compare m' m);
      change (Pos.compare_cont Eq m m') with (Pos.compare m m');
      rewrite (Z.compare_antisym e' e), (Pos.compare_antisym m' m);
      by destruct (Z.compare e' e), (Pos.compare m' m). }
  rewrite Hs. destruct (SFcompare x y) as [[]|]; done.
Qed.

Lemma num_ltb_irrefl x : num_ltb x x = false.
Proof.
  destruct (num_ltb x x) eqn:E; [|done].
  pose proof (num_ltb_not_leb _ _ E) as H.
  unfold num_ltb, num_leb, SFltb, SFleb in *.
  destruct (SFcompare x x) as [[]|]; done.
Qed.

(** Away from NaN the order is total. *)
Lemma num_not_ltb x y : isNaN x = false → isNaN y = false → num_ltb x y = false → num_leb y x = true.
Proof.
  unfold num_ltb, num_leb, SFltb, SFleb.
  assert (Hs : SFcompare y x = option_map CompOpp (SFcompare x y)).
  { destruct x as [[]|[]| |[] m e], y as [[]|[]| |[] m' e']; simpl; try done;
      change (Pos.compare_cont Eq m' m) with (Pos.compare m' m);
      change (Pos.compare_cont Eq m m') with (Pos.compare m m');
      rewrite (Z.compare_antisym e' e), (Pos.compare_antisym m' m);
      by destruct (Z.compare e' e), (Pos.compare m' m). }
  intros Hx Hy. rewrite Hs. destruct (SFcompare x y) as [[]|] eqn:E; try done.
  destruct x as [[]|[]| |[] m e], y as [[]|[]| |[] m' e']; simpl in *; done.
Qed.

Lemma num_leb_not_NaN x y : num_leb x y = true → isNaN x = false ∧ isNaN y = false.
Proof.
  unfold num_leb, SFleb. by destruct x as [[]|[]| |[] m e], y as [[]|[]| |[] m' e'].
Qed.
Lemma num_ltb_not_NaN x y : num_ltb x y = true → isNaN x = false ∧ isNaN y = false.
Proof.
  unfold num_ltb, SFltb. by destruct x as [[]|[]| |[] m e], y as [[]|[]| |[] m' e'].
Qed.

Lemma num_leb_not_ltb x y : num_leb x y = true → num_ltb y x = false.
Proof.
  intros H. destruct (num_ltb y x) eqn:E; [|done]. by rewrite (num_ltb_not_leb _ _ E) in H.
Qed.

Lemma num_ltb_leb x y : num_ltb x y = true → num_leb x y = true.
Proof. unfold num_ltb, num_leb, SFltb, SFleb. by destruct (SFcompare x y) as [[]|]. Qed.

Lemma num_leb_trans x y z : num_leb x y = true → num_leb y z = true → num_leb x z = true.
Proof.
  unfold num_leb, SFleb.
  destruct x as [[]|[]| |[] m e], y as [[]|[]| |[] m' e'], z as [[]|[]| |[] m'' e'']; simpl; try done;
    change (Pos.compare_cont Eq m m') with (Pos.compare m m');
    change (Pos.compare_cont Eq m' m'') with (Pos.compare m' m'');
    change (Pos.compare_cont Eq m m'') with (Pos.compare m m'');
    destruct (Z.compare_spec e e'), (Z.compare_spec e' e''), (Z.compare_spec e e''); try done; try lia;
    destruct (Pos.compare_spec m m'), (Pos.compare_spec m' m''), (Pos.compare_spec m m''); try done; lia.
Qed.

Lemma num_leb_ltb_trans x y z : num_leb x y = true → num_ltb y z = true → num_ltb x z = true.
Proof.
  intros H1 H2. destruct (num_leb_not_NaN _ _ H1) as [Hx _]. destruct (num_ltb_not_NaN _ _ H2) as [_ Hz].
  destruct (num_ltb x z) eqn:E; [done|].
  pose proof (num_leb_trans _ _ _ (num_not_ltb _ _ Hx Hz E) H1) as H.
  by rewrite (num_ltb_not_leb _ _ H2) in H.
Qed.

Lemma num_ltb_leb_trans x y z : num_ltb x y = true → num_leb y z = true → num_ltb x z = true.
Proof.
  intros H1 H2. destruct (num_ltb_not_NaN _ _ H1) as [Hx _]. destruct (num_leb_not_NaN _ _ H2) as [_ Hz].
  destruct (num_ltb x z) eqn:E; [done|].
  pose proof (num_leb_trans _ _ _ H2 (num_not_ltb _ _ Hx Hz E)) as H.
  by rewrite (num_ltb_not_leb _ _ H1) in H.
Qed.

(** Number constants stay folded under [simpl]. *)
Arguments num_of_Z : simpl never.
Arguments num_lit : simpl never.

(** ** [String(x)] (ECMAScript, Number::toString)

    The shortest decimal [s * 10^(n-k)] of [k] digits that rounds to the
    number, the closest one among those, then the layout of the language. *)

(** [a * 2^e < b * 10^d], on integers. *)
Definition scaled (a e b d : Z) (cmp : Z → Z → bool) : bool :=
  cmp (a * 2 ^ Z.max e 0 * 10 ^ Z.max (- d) 0) (b * 10 ^ Z.max d 0 * 2 ^ Z.max (- e) 0).

(** Whether [s * 10^d] rounds to [m * 2^e] (to nearest, ties to even). *)
Definition roundsTo (m e s d : Z) : bool :=
  let lowest := (m =? 2 ^ 52) && (-1074 <? e) in
  let cmp := if Z.even m then Z.leb else Z.ltb in
  (if lowest then scaled (4 * m - 1) (e - 2) s d cmp else scaled (2 * m - 1) (e - 1) s d cmp)
  && scaled (2 * m + 1) (e - 1) s d (λ x y, cmp y x).

(** [n] with [10^(n-1) <= m * 2^e < 10^n]. *)
Fixpoint exponentFrom (fuel : nat) (m e n : Z) : Z :=
  match fuel with
  | O => n
  | S fuel' => if scaled m e 1 n Z.ltb then n else exponentFrom fuel' m e (n + 1)
  end.
Definition decimalExponent (m e : Z) : Z :=
  let guess := (Z.log2 m + e) * 30103 / 100000 in exponentFrom 4 m e guess.

(** [round(m * 2^e / 10^d)]. *)
Definition nearest (m e d : Z) : Z :=
  let p := m * 2 ^ Z.max e 0 * 10 ^ Z.max (- d) 0 in
  let q := 10 ^ Z.max d 0 * 2 ^ Z.max (- e) 0 in
  (2 * p + q) / (2 * q).

(** The digits [s], their number [k] and the exponent [n]. *)
Fixpoint shortest (fuel : nat) (m e n k : Z) : Z * Z :=
  let s := nearest m e (n - k) in
  match fuel with
  | O => (s, k)
  | S fuel' => if roundsTo m e s (n - k) then (s, k) else shortest fuel' m e n (k + 1)
  end.

Definition zeros (n : Z) : string := pad_zeros (Z.to_nat n) "".
Definition takeDigits (n : Z) (s : string) : string := String.substring 0 (Z.to_nat n) s.
Definition dropDigits (n : Z) (s : string) : string := String.substring (Z.to_nat n) (String.length s) s.

Definition layout (s k n : Z) : string :=
  let digits := string_of_Z s in
  if (k <=? n) && (n <=? 21) then digits +:+ zeros (n - k)
  else if (0 <? n) && (n <=? 21) then takeDigits n digits +:+ "." +:+ dropDigits n digits
  else if (-6 <? n) && (n <=? 0) then "0." +:+ zeros (- n) +:+ digits
  else
    let ex := (if 0 <? n - 1 then "e+" else "e-") +:+ string_of_Z (Z.abs (n - 1)) in
    if k =? 1 then digits +:+ ex else takeDigits 1 digits +:+ "." +:+ dropDigits 1 digits +:+ ex.

Definition positiveText (m e : Z) : string :=
  let n := decimalExponent m e in
  let '(s, k) := shortest 17 m e n 1 in
  (* a rounding up to the next power of ten *)
  if s =? 10 ^ k then layout 1 1 (n + 1) else layout s k n.

(** [String(x)], also what a template literal writes. *)
Definition num_toString (x : num) : string :=
  match x with
  | S754_nan => "NaN"
  | S754_infinity s => (if s then "-" else "") +:+ "Infinity"
  | S754_zero _ => "0"
  | S754_finite s m e => (if s then "-" else "") +:+ positiveText (Zpos m) e
  end.

Example num_toString_examples :
  map num_toString [num_of_Z 5000; num_lit 1234 10; num_lit (-1) 10; num_lit 1 3; num_of_Z (10 ^ 21);
    num_lit 123 100000000; num_lit 1 1000; num_add (num_lit 1 10) (num_lit 2 10); num_of_Z (2 ^ 53)]
  = ["5000"; "123.4"; "-0.1"; "0.3333333333333333"; "1e+21"; "0.00000123"; "0.001";
     "0.30000000000000004"; "9007199254740992"].
Proof. by vm_compute. Qed.

(** ** [x.toFixed(f)]

    The integer nearest to [x * 10^f], the larger of two, with [f] digits after
    the point. *)

Definition fixedDigits (f : Z) (n : Z) : string :=
  let digits := string_of_Z n in
  let padded := zeros (f + 1 - Z.of_nat (String.length digits)) +:+ digits in
  if f =? 0 then digits
  else let k := Z.of_nat (String.length padded) - f in takeDigits k padded +:+ "." +:+ dropDigits k padded.

Definition num_toFixed (f : Z) (x : num) : string :=
  match x with
  | S754_zero _ => fixedDigits f 0
  | S754_finite s m e =>
      if scaled (Zpos m) e 1 21 Z.ltb then (if s then "-" else "") +:+ fixedDigits f (nearest (Zpos m) e (- f))
      else num_toString x
  | _ => num_toString x
  end.

Example num_toFixed_examples :
  map (num_toFixed 1) [num_lit 36 1; num_lit 1 3; num_lit 25 100; num_lit (-5) 100; num_of_Z 0; num_lit 1234567 100]
  = ["36.0"; "0.3"; "0.3"; "-0.1"; "0.0"; "12345.7"].
Proof. by vm_compute. Qed.
