(* ===== verification/JsDate.v ===== *)
(** * JavaScript dates

    A [Date] is its time value, a number of milliseconds since the epoch.  The
    calendar functions are those of ECMAScript (Day, DayFromYear, MonthFromTime,
    MakeDay, ...), read with a server clock in UTC: no TZ is set by the images
    and compose files of the repository. *)

From S2P Require Import Prelude.

#[local] Open Scope Z_scope.

Definition msPerDay : Z := 86400000.

Definition Day (t : Z) : Z := t / msPerDay.
Definition TimeWithinDay (t : Z) : Z := t mod msPerDay.

Definition DayFromYear (y : Z) : Z :=
  365 * (y - 1970) + (y - 1969) / 4 - (y - 1901) / 100 + (y - 1601) / 400.

Definition isLeapYear (y : Z) : bool :=
  (y mod 4 =? 0) && (negb (y mod 100 =? 0) || (y mod 400 =? 0)).

(** [Math.round(ms / 60000)]. *)
Definition roundMinutes (ms : Z) : Z := (2 * ms + 60000) / 120000.

(** The largest year that starts on or before day [d]. *)
Definition YearFromDay (d : Z) : Z :=
  let y0 := 1970 + d * 400 / 146097 in
  if d <? DayFromYear y0 then y0 - 1
  else if DayFromYear (y0 + 1) <=? d then y0 + 1
  else y0.

(** The day of the year on which month [m] (0 to 11) starts. *)
Definition monthStart (leap : bool) (m : Z) : Z :=
  let l := if leap then 1 else 0 in
  match m with
  | 0 => 0 | 1 => 31 | 2 => 59 + l | 3 => 90 + l | 4 => 120 + l | 5 => 151 + l
  | 6 => 181 + l | 7 => 212 + l | 8 => 243 + l | 9 => 273 + l | 10 => 304 + l
  | 11 => 334 + l | _ => 365 + l
  end.

(** The month of the day [d] of the year. *)
Definition monthOf (leap : bool) (d : Z) : Z :=
  if d <? monthStart leap 1 then 0
  else if d <? monthStart leap 2 then 1
  else if d <? monthStart leap 3 then 2
  else if d <? monthStart leap 4 then 3
  else if d <? monthStart leap 5 then 4
  else if d <? monthStart leap 6 then 5
  else if d <? monthStart leap 7 then 6
  else if d <? monthStart leap 8 then 7
  else if d <? monthStart leap 9 then 8
  else if d <? monthStart leap 10 then 9
  else if d <? monthStart leap 11 then 10
  else 11.

Definition YearFromTime (t : Z) : Z := YearFromDay (Day t).
Definition DayWithinYear (t : Z) : Z := Day t - DayFromYear (YearFromTime t).
Definition MonthFromTime (t : Z) : Z :=
  monthOf (isLeapYear (YearFromTime t)) (DayWithinYear t).
Definition DateFromTime (t : Z) : Z :=
  DayWithinYear t - monthStart (isLeapYear (YearFromTime t)) (MonthFromTime t) + 1.

Definition MakeDay (y m dt : Z) : Z :=
  let ym := y + m / 12 in
  DayFromYear ym + monthStart (isLeapYear ym) (m mod 12) + dt - 1.

Definition MakeDate (day time : Z) : Z := day * msPerDay + time.

(** [d.setMonth(m)] *)
Definition setMonth (t m : Z) : Z :=
  MakeDate (MakeDay (YearFromTime t) m (DateFromTime t)) (TimeWithinDay t).

(** [d.setMonth(d.getMonth() + k)] *)
Definition addMonths (t k : Z) : Z := setMonth t (MonthFromTime t + k).

(** [toISOString], from year 0 to 9999. *)
Definition toISOString (t : Z) : string :=
  let two n := pad_zeros 2 (string_of_Z n) in
  let ms := TimeWithinDay t in
  (pad_zeros 4 (string_of_Z (YearFromTime t)) +:+ "-" +:+ two (MonthFromTime t + 1) +:+ "-"
   +:+ two (DateFromTime t) +:+ "T" +:+ two (ms / 3600000) +:+ ":" +:+ two (ms / 60000 mod 60)
   +:+ ":" +:+ two (ms / 1000 mod 60) +:+ "." +:+ pad_zeros 3 (string_of_Z (ms mod 1000)) +:+ "Z")%string.


(** [new Date(d.getFullYear(), d.getMonth(), 1)] *)
Definition startOfMonth (t : Z) : Z :=
  MakeDate (MakeDay (YearFromTime t) (MonthFromTime t) 1) 0.

(** ** Years *)

Lemma DayFromYear_succ y :
  DayFromYear (y + 1) = DayFromYear y + 365 + (if isLeapYear y then 1 else 0).
Proof.
  unfold DayFromYear, isLeapYear.
  destruct (Z.eqb_spec (y mod 4) 0), (Z.eqb_spec (y mod 100) 0),
    (Z.eqb_spec (y mod 400) 0); simpl; Z.to_euclidean_division_equations; lia.
Qed.

Lemma YearFromDay_spec d :
  DayFromYear (YearFromDay d) ≤ d < DayFromYear (YearFromDay d + 1).
Proof.
  unfold YearFromDay.
  assert (H : DayFromYear (1970 + d * 400 / 146097 - 1) ≤ d
              < DayFromYear (1970 + d * 400 / 146097 + 1 + 1)).
  { unfold DayFromYear. Z.to_euclidean_division_equations; lia. }
  destruct (Z.ltb_spec d (DayFromYear (1970 + d * 400 / 146097))).
  - replace (1970 + d * 400 / 146097 - 1 + 1) with (1970 + d * 400 / 146097) by lia. lia.
  - destruct (Z.leb_spec (DayFromYear (1970 + d * 400 / 146097 + 1)) d); lia.
Qed.

Lemma DayWithinYear_range t :
  0 ≤ DayWithinYear t < 365 + (if isLeapYear (YearFromTime t) then 1 else 0).
Proof.
  unfold DayWithinYear, YearFromTime.
  pose proof (YearFromDay_spec (Day t)) as H. rewrite DayFromYear_succ in H. lia.
Qed.

Lemma time_split t : t = Day t * msPerDay + TimeWithinDay t.
Proof. unfold Day, TimeWithinDay. rewrite Z.mul_comm. by apply Z.div_mod. Qed.

(** ** Months *)

(** [monthOf] is a month, and its day [d] lies in it. *)
Lemma monthOf_spec leap d :
  0 ≤ d < monthStart leap 12 →
  0 ≤ monthOf leap d ≤ 11 ∧ monthStart leap (monthOf leap d) ≤ d
  ∧ d < monthStart leap (monthOf leap d + 1).
Proof.
  intros Hd. unfold monthOf.
  repeat match goal with |- context [if ?a <? ?b then _ else _] =>
    destruct (Z.ltb_spec a b) end;
  destruct leap; cbv [monthStart Z.add Pos.add Pos.succ] in *; lia.
Qed.

Lemma monthOf_range leap d : 0 ≤ monthOf leap d ≤ 11.
Proof.
  unfold monthOf.
  repeat match goal with |- context [if ?c then _ else _] => destruct c end; lia.
Qed.

Lemma month_cases m : 0 ≤ m ≤ 11 →
  m ∈ [0; 1; 2; 3; 4; 5; 6; 7; 8; 9; 10; 11].
Proof. intros H. rewrite !elem_of_cons. lia. Qed.

Ltac month_case H :=
  apply month_cases in H; rewrite !elem_of_cons in H;
  repeat (destruct H as [->|H]; [|try (by apply elem_of_nil in H)]).

Definition daysInMonth (leap : bool) (m : Z) : Z :=
  monthStart leap (m + 1) - monthStart leap m.

Lemma daysInMonth_range leap m : 0 ≤ m ≤ 11 → 28 ≤ daysInMonth leap m ≤ 31.
Proof. intros H. month_case H; destruct leap; vm_compute; split; discriminate. Qed.

(** One month later is the same day number of the next month: the length of the
    current month, 28 to 31 days. *)
Lemma addMonths_1 t :
  addMonths t 1 = t + msPerDay * daysInMonth (isLeapYear (YearFromTime t)) (MonthFromTime t).
Proof.
  unfold addMonths, setMonth, MakeDate, MakeDay, DateFromTime, daysInMonth.
  pose proof (monthOf_range (isLeapYear (YearFromTime t)) (DayWithinYear t)) as Hm.
  change (monthOf _ _) with (MonthFromTime t) in Hm.
  pose proof (time_split t) as Ht.
  assert (Hd : Day t = DayFromYear (YearFromTime t) + DayWithinYear t)
    by (unfold DayWithinYear; lia).
  transitivity (Day t * msPerDay + TimeWithinDay t
    + msPerDay * (monthStart (isLeapYear (YearFromTime t)) (MonthFromTime t + 1)
                  - monthStart (isLeapYear (YearFromTime t)) (MonthFromTime t)));
    [clear Ht; rewrite Hd|by rewrite <- Ht].
  destruct (decide (MonthFromTime t = 11)) as [->|Hne].
  - change ((11 + 1) / 12) with 1. change ((11 + 1) mod 12) with 0. change (11 + 1) with 12.
    rewrite DayFromYear_succ. simpl monthStart. unfold msPerDay.
    destruct (isLeapYear (YearFromTime t)), (isLeapYear (YearFromTime t + 1)); simpl; lia.
  - rewrite Z.div_small, Z.mod_small by lia.
    rewrite Z.add_0_r. unfold msPerDay. lia.
Qed.

(** Twelve months later is 365 or 366 days later. *)
Lemma addMonths_12 t : t + 365 * msPerDay ≤ addMonths t 12 ≤ t + 366 * msPerDay.
Proof.
  unfold addMonths, setMonth, MakeDate, MakeDay, DateFromTime.
  pose proof (monthOf_range (isLeapYear (YearFromTime t)) (DayWithinYear t)) as Hm.
  change (monthOf _ _) with (MonthFromTime t) in Hm.
  pose proof (time_split t) as Ht.
  assert (Hd : Day t = DayFromYear (YearFromTime t) + DayWithinYear t)
    by (unfold DayWithinYear; lia).
  replace ((MonthFromTime t + 12) / 12) with 1 by (Z.to_euclidean_division_equations; lia).
  replace ((MonthFromTime t + 12) mod 12) with (MonthFromTime t)
    by (Z.to_euclidean_division_equations; lia).
  rewrite DayFromYear_succ.
  assert (Hl : isLeapYear (YearFromTime t) = false ∨ isLeapYear (YearFromTime t + 1) = false).
  { unfold isLeapYear.
    destruct (Z.eqb_spec (YearFromTime t mod 4) 0); [right|by left].
    destruct (Z.eqb_spec ((YearFromTime t + 1) mod 4) 0); [|done].
    Z.to_euclidean_division_equations; lia. }
  unfold msPerDay in *.
  month_case Hm; (destruct Hl as [->| ->];
    [destruct (isLeapYear (YearFromTime t + 1))|destruct (isLeapYear (YearFromTime t))];
    simpl; lia).
Qed.

Lemma addMonths_1_range t :
  t + 28 * msPerDay ≤ addMonths t 1 ≤ t + 31 * msPerDay.
Proof.
  rewrite addMonths_1.
  pose proof (daysInMonth_range (isLeapYear (YearFromTime t)) (MonthFromTime t)) as H.
  pose proof (monthOf_range (isLeapYear (YearFromTime t)) (DayWithinYear t)) as Hm.
  specialize (H Hm). unfold msPerDay. lia.
Qed.

(** The current instant is inside the month that [startOfMonth] opens. *)
Lemma startOfMonth_le t : startOfMonth t ≤ t.
Proof.
  unfold startOfMonth, MakeDate, MakeDay.
  pose proof (monthOf_range (isLeapYear (YearFromTime t)) (DayWithinYear t)) as Hm.
  pose proof (DayWithinYear_range t) as Hy.
  assert (Hs : monthStart (isLeapYear (YearFromTime t)) (MonthFromTime t) ≤ DayWithinYear t).
  { apply monthOf_spec. unfold monthStart. lia. }
  change (monthOf _ _) with (MonthFromTime t) in Hm.
  rewrite Z.div_small, Z.mod_small by lia.
  pose proof (time_split t) as Ht.
  assert (0 ≤ TimeWithinDay t) by (apply Z.mod_pos_bound; unfold msPerDay; lia).
  assert (Hd : Day t = DayFromYear (YearFromTime t) + DayWithinYear t)
    by (unfold DayWithinYear; lia).
  rewrite !Z.add_0_r. unfold msPerDay in *. lia.
Qed.

(** 31 January 2026 plus one month is 3 March: the day overflows. *)
Example end_of_january :
  addMonths (MakeDate (MakeDay 2026 0 31) 0) 1 = MakeDate (MakeDay 2026 2 3) 0.
Proof. vm_compute. reflexivity. Qed.

Example new_year :
  (YearFromTime 1767225600000, MonthFromTime 1767225600000, DateFromTime 1767225600000)
  = (2026, 0, 1).
Proof. vm_compute. reflexivity. Qed.
