(* ===== verification/Geo.v ===== *)
(** * common/geo: distances

    [haversineDistance] of geo.utils.ts over binary64 numbers. *)

From S2P Require Import Prelude JsNum.

#[local] Open Scope Z_scope.

Section Haversine.
Context (jm : JsMath).

Definition toRad (deg : num) : num := num_div (num_mul deg Math_PI) (num_of_Z 180).

Definition haversineDistance (lat1 lon1 lat2 lon2 : num) : num :=
  let R := num_of_Z 6371000 in
  let dLat := toRad (num_sub lat2 lat1) in
  let dLon := toRad (num_sub lon2 lon1) in
  let two := num_of_Z 2 in
  let a :=
    num_add
      (num_pow jm (Math_sin jm (num_div dLat two)) two)
      (num_mul
        (num_mul (Math_cos jm (toRad lat1)) (Math_cos jm (toRad lat2)))
        (num_pow jm (Math_sin jm (num_div dLon two)) two)) in
  num_mul (num_mul R two)
    (Math_atan2 jm (Math_sqrt a) (Math_sqrt (num_sub (num_of_Z 1) a))).

Definition roundedDistance (lat1 lon1 lat2 lon2 : num) : num :=
  Math_round (haversineDistance lat1 lon1 lat2 lon2).
End Haversine.

Example round_half_up :
  map Math_round [num_lit 25 10; num_lit (-25) 10; num_lit 249 100; num_lit 7 1]
  = [num_of_Z 3; num_of_Z (-2); num_of_Z 2; num_of_Z 7].
Proof. vm_compute. reflexivity. Qed.

Example distance_same_point :
  haversineDistance coarseMath (num_lit (-189) 10) (num_lit 475 10) (num_lit (-189) 10) (num_lit 475 10)
  = num_of_Z 0.
Proof. vm_compute. reflexivity. Qed.
