(* ===== verification/Redis.v ===== *)
(** * Redis and the cron lock

    The commands the backend sends to Redis, on a key space whose entries
    expire, and the distributed lock of common/scheduling/cron-lock.ts. *)

From S2P Require Import Prelude JsString.

#[local] Open Scope string_scope.
#[local] Open Scope list_scope.
#[local] Open Scope Z_scope.

Record Entry := mkEntry {
  e_value : string;
  e_expires : option Z  (** milliseconds; [None]: never *)
}.
Notation RedisDb := (gmap string Entry).

Definition live (now : Z) (e : Entry) : bool :=
  match e_expires e with Some t => now <? t | None => true end.

(** [GET k] *)
Definition redis_get (now : Z) (k : string) (db : RedisDb) : option string :=
  match db !! k with
  | Some e => if live now e then Some (e_value e) else None
  | None => None
  end.
(** [EXISTS k] *)
Definition redis_exists (now : Z) (k : string) (db : RedisDb) : bool :=
  bool_decide (is_Some (redis_get now k db)).
(** [SET k v EX ttl] (and [SETEX]). *)
Definition redis_set (now : Z) (k v : string) (ttlSeconds : Z) (db : RedisDb) : RedisDb :=
  <[k := mkEntry v (Some (now + ttlSeconds * 1000))]> db.
(** [SET k v EX ttl NX]: whether the key was set. *)
Definition redis_setnx (now : Z) (k v : string) (ttlSeconds : Z) (db : RedisDb) : RedisDb * bool :=
  if redis_exists now k db then (db, false) else (redis_set now k v ttlSeconds db, true).
(** [DEL k] *)
Definition redis_del (k : string) (db : RedisDb) : RedisDb := delete k db.

Definition counterValue (o : option string) : Z :=
  match o with Some v => digitsValue v | None => 0 end.
(** [INCR k]: an absent counter starts at 0; the expiry is kept. *)
Definition redis_incr (now : Z) (k : string) (db : RedisDb) : RedisDb * Z :=
  let n := counterValue (redis_get now k db) + 1 in
  let ex := match db !! k with
            | Some e => if live now e then e_expires e else None
            | None => None
            end in
  (<[k := mkEntry (pretty (Z.to_N n)) ex]> db, n).
(** [EXPIRE k ttl] *)
Definition redis_expire (now : Z) (k : string) (ttlSeconds : Z) (db : RedisDb) : RedisDb :=
  match db !! k with
  | Some e => if live now e then <[k := mkEntry (e_value e) (Some (now + ttlSeconds * 1000))]> db
              else db
  | None => db
  end.
(** [TTL k] in seconds: -2 without the key, -1 without expiry. *)
Definition redis_ttl (now : Z) (k : string) (db : RedisDb) : Z :=
  match db !! k with
  | Some e => if live now e
              then match e_expires e with Some t => (t - now + 500) / 1000 | None => -1 end
              else -2
  | None => -2
  end.

(** ** Lemmas *)

Lemma redis_get_set now now' k v ttl db :
  redis_get now' k (redis_set now k v ttl db) =
  if now' <? now + ttl * 1000 then Some v else None.
Proof. unfold redis_get, redis_set. by rewrite lookup_insert_eq. Qed.

Lemma redis_get_set_ne now now' k k' v ttl db :
  k ≠ k' → redis_get now' k (redis_set now k' v ttl db) = redis_get now' k db.
Proof. intros. unfold redis_get, redis_set. by rewrite lookup_insert_ne. Qed.

Lemma redis_get_del now k db : redis_get now k (redis_del k db) = None.
Proof. unfold redis_get, redis_del. by rewrite lookup_delete_eq. Qed.

Lemma redis_get_del_ne now k k' db :
  k ≠ k' → redis_get now k (redis_del k' db) = redis_get now k db.
Proof. intros. unfold redis_get, redis_del. by rewrite lookup_delete_ne. Qed.

Lemma redis_get_mono now now' k db v :
  now ≤ now' → redis_get now' k db = Some v → redis_get now k db = Some v.
Proof.
  intros Ht. unfold redis_get. destruct (db !! k) as [[w ex]|]; [|done].
  unfold live. simpl. destruct ex as [t|]; [|done].
  destruct (now' <? t) eqn:E; [|done]. apply Z.ltb_lt in E.
  rewrite (proj2 (Z.ltb_lt now t)) by lia. done.
Qed.

Lemma redis_exists_get now k db : redis_exists now k db = true ↔ is_Some (redis_get now k db).
Proof. apply bool_decide_eq_true. Qed.

Lemma counter_pretty n : 0 ≤ n → digitsValue (pretty (Z.to_N n)) = n.
Proof. intros H. rewrite digits_pretty. lia. Qed.

Lemma redis_incr_value now k db :
  0 ≤ counterValue (redis_get now k db) →
  redis_get now k (redis_incr now k db).1 = Some (pretty (Z.to_N (redis_incr now k db).2)) ∧
  (redis_incr now k db).2 = counterValue (redis_get now k db) + 1.
Proof.
  intros H. split; [|done]. unfold redis_incr. cbn [fst snd]. unfold redis_get.
  rewrite lookup_insert_eq. unfold live. cbn [e_expires e_value].
  destruct (db !! k) as [e|] eqn:E; [|done].
  destruct (match e_expires e with Some t => now <? t | None => true end) eqn:El; [|done].
  unfold live. rewrite El. destruct (e_expires e); by rewrite ?El.
Qed.

(** ** acquireCronLock (common/scheduling/cron-lock.ts) *)

(** How Redis is reached: not configured, failing, or answering. *)
Inductive RedisLink := RedisAbsent | RedisDown | RedisUp.

Definition cronLockKey (name : string) : string := "cron:lock:" +:+ name.

Definition acquireCronLock (link : RedisLink) (instanceId name : string) (ttlSeconds now : Z)
    (db : RedisDb) : RedisDb * bool :=
  match link with
  | RedisAbsent => (db, true)
  | RedisDown => (db, true)
  | RedisUp => redis_setnx now (cronLockKey name) instanceId ttlSeconds db
  end.

(** Two instances that reach the same Redis never both run a scheduled
    task within the life of its lock, and the lock is free again once it has
    expired; an instance without Redis always runs the task. *)
Theorem cron_lock_exclusive name ttl i1 i2 t1 t2 db db1 db2 :
  acquireCronLock RedisUp i1 name ttl t1 db = (db1, true) →
  db2 !! cronLockKey name = db1 !! cronLockKey name →
  (acquireCronLock RedisUp i2 name ttl t2 db2).2 = negb (t2 <? t1 + ttl * 1000) ∧
  (acquireCronLock RedisAbsent i2 name ttl t2 db2).2 = true.
Proof.
  unfold acquireCronLock, redis_setnx. intros H Hk. split; [|done].
  destruct (redis_exists t1 _ db) eqn:E; [done|]. simplify_eq.
  assert (HG : redis_get t2 (cronLockKey name) db2 = if t2 <? t1 + ttl * 1000 then Some i1 else None).
  { rewrite <- (redis_get_set t1 t2 (cronLockKey name) i1 ttl db). unfold redis_get. by rewrite Hk. }
  unfold redis_exists. rewrite HG. by destruct (t2 <? _).
Qed.

Lemma cron_lock_exclusive_witness :
  (acquireCronLock RedisUp "b" "billing.expiredSubscriptions" 3600 2000
     (acquireCronLock RedisUp "a" "billing.expiredSubscriptions" 3600 1000 ∅).1).2 = false ∧
  (acquireCronLock RedisAbsent "b" "billing.expiredSubscriptions" 3600 2000
     (acquireCronLock RedisUp "a" "billing.expiredSubscriptions" 3600 1000 ∅).1).2 = true.
Proof.
  apply (cron_lock_exclusive "billing.expiredSubscriptions" 3600 "a" "b" 1000 2000 ∅
    (redis_set 1000 (cronLockKey "billing.expiredSubscriptions") "a" 3600 ∅)); reflexivity.
Defined.
