(* ===== verification/I18n.v ===== *)
(** * common/i18n: languages and localised texts

    A text is kept as its key and arguments, as the call to [t] names them. *)

From S2P Require Import Prelude JsNum.

#[local] Open Scope string_scope.

Inductive Language := fr | en.

(** Localised texts: the key and arguments of [t], or a literal. *)
Inductive TextArg :=
  | ArgText (s : string)
  | ArgNum (x : num)
  | ArgFixed1 (x : num)  (** [x.toFixed(1)] *).
Inductive Text :=
  | Lit (s : string)
  | Tr (key : string) (lang : Language) (args : list (string * TextArg)).
