(* ===== verification/DeliveryModel.v ===== *)
(** * modules/deliveries: data

    The rows, DTOs, store and outgoing calls of DeliveriesService, and the
    transition matrix of a delivery. *)

From S2P Require Import Prelude JsNum.
From S2P Require Export I18n.

#[local] Open Scope string_scope.
#[local] Open Scope list_scope.
#[local] Open Scope Z_scope.

Inductive DeliveryStatus :=
  | pending | assigned | in_progress | delivered | failed | cancelled.

#[export] Instance DeliveryStatus_eq_dec : EqDecision DeliveryStatus.
Proof. solve_decision. Defined.

Definition status_string (s : DeliveryStatus) : string :=
  match s with
  | pending => "pending"
  | assigned => "assigned"
  | in_progress => "in_progress"
  | delivered => "delivered"
  | failed => "failed"
  | cancelled => "cancelled"
  end.

Definition TRANSITION_MATRIX (from : DeliveryStatus) : list DeliveryStatus :=
  match from with
  | pending => [assigned; cancelled]
  | assigned => [in_progress; cancelled]
  | in_progress => [delivered; failed; cancelled]
  | delivered => []
  | failed => []
  | cancelled => []
  end.

Definition isValidTransition (from to : DeliveryStatus) : bool :=
  bool_decide (to ∈ TRANSITION_MATRIX from).

(** [TRANSITION_MATRIX] as a step relation, and its closure. *)
Definition transition (from to : DeliveryStatus) : Prop := to ∈ TRANSITION_MATRIX from.
Definition status_reaches : relation DeliveryStatus := rtc transition.

Definition terminal (s : DeliveryStatus) : bool :=
  match s with delivered | failed | cancelled => true | _ => false end.

(** ** Rows *)

Record Delivery := mkDelivery {
  title : string;
  description : option string;
  pickupAddress : string;
  pickupLat : option num;
  pickupLng : option num;
  pickupLocationLabel : option string;
  deliveryAddress : string;
  deliveryLat : option num;
  deliveryLng : option num;
  deliveryLocationLabel : option string;
  status : DeliveryStatus;
  scheduledDate : option Z;
  completedAt : option Z;
  deliveryProofLat : option num;
  deliveryProofLng : option num;
  deliveryProofDistance : option num;
  deliveryProofAccuracy : option num;
  locationMismatch : bool;
  mismatchResolved : bool;
  notes : option string;
  clientPhone : option string;
  amount : option Z;
  articlePrice : option Z;
  productDescription : option string;
  externalOrderRef : option string;
  tourSequence : option Z;
  deletedAt : option Z;
  companyId : string;
  vehicleId : option string;
  driverId : option string;
  assignedDriverId : option string;
  clientId : option string
}.

Record VehicleRow := mkVehicleRow {
  vehicle_companyId : string;
  vehicle_deletedAt : option Z
}.

Record DriverRow := mkDriverRow {
  driver_companyId : string;
  driver_deletedAt : option Z;
  driver_firstName : string;
  driver_lastName : string;
  driver_userId : option string
}.

Record GpsRow := mkGpsRow {
  gps_deliveryId : option string;
  gps_latitude : num;
  gps_longitude : num;
  gps_suspect : bool;
  gps_timestamp : Z
}.

(** ** DTOs: an absent field is [None]; a date has been parsed. *)

Record DeliveryDto := mkDeliveryDto {
  dto_title : option string;
  dto_description : option string;
  dto_status : option DeliveryStatus;
  dto_pickupAddress : option string;
  dto_pickupLat : option num;
  dto_pickupLng : option num;
  dto_pickupLocationLabel : option string;
  dto_deliveryAddress : option string;
  dto_deliveryLat : option num;
  dto_deliveryLng : option num;
  dto_deliveryLocationLabel : option string;
  dto_scheduledDate : option Z;
  dto_notes : option string;
  dto_vehicleId : option string;
  dto_driverId : option string
}.

Definition emptyDto : DeliveryDto :=
  mkDeliveryDto None None None None None None None None None None None None None None None.

Record UpdateDeliveryStatusDto := mkStatusDto {
  sdto_status : DeliveryStatus;
  sdto_latitude : option num;
  sdto_longitude : option num;
  sdto_accuracy : option num
}.

(** ** Outgoing calls *)

Inductive NotificationType := delivery_status | location_mismatch.
Inductive NotificationPriority := low | medium | high.

Record NotificationInput := mkNotification {
  n_type : NotificationType;
  n_priority : NotificationPriority;
  n_title : Text;
  n_message : Text;
  n_link : string;
  n_userId : option string;
  n_deliveryId : string
}.

Inductive JsVal := JStr (s : string) | JTime (t : Z) | JNull.
Definition payload : Type := list (string * JsVal).

(** The calls the service makes to NotificationsService.create,
    WebhooksService.dispatch, DataUpdateBus.emitUpdate and the fuel-analysis
    queue. *)
Inductive Effect :=
  | ENotification (companyId : string) (n : NotificationInput)
  | EWebhook (event companyId : string) (p : payload)
  | EDataUpdate (companyId entity action : string) (p : payload)
  | EFuelJob (companyId driverId : string) (date : Z) (status : option DeliveryStatus).

Record Store := mkStore {
  deliveries : gmap string Delivery;
  vehicles : gmap string VehicleRow;
  drivers : gmap string DriverRow;
  gpsPositions : list GpsRow;
  outbox : list Effect  (** oldest first *)
}.

(** What the handlers read from outside the store. *)
Record Env := mkEnv {
  now : Z;
  jsMath : JsMath;
  (** GeocodingService.search: the coordinates found, or a failure. *)
  geocode : string → option (list (num * num));
  (** LOCATION_MISMATCH_THRESHOLD_M, when configured. *)
  mismatchThresholdConfig : option num;
  (** [Number(GPS_PROOF_WINDOW_MIN)], [None] for NaN. *)
  gpsProofWindow : option Z;
  (** Whether the read of gps_positions succeeds. *)
  gpsReadable : bool;
  (** The error NotificationsService.create raises, if any. *)
  notificationFailure : option exn;
  (** Whether the fuel-analysis queue is configured and accepts the job. *)
  fuelQueue : bool
}.

(** ** Access to the store *)

Definition emit (e : Effect) : M Store unit :=
  modify (λ s, s <| outbox ::= λ l, l ++ [e] |>).

(** [prisma.delivery.update({ where: { id }, data })] *)
Definition updateDelivery (id : string) (f : Delivery → Delivery) : M Store Delivery := λ s,
  match deliveries s !! id with
  | Some d => (s <| deliveries ::= <[id := f d]> |>, Ok (f d))
  | None => (s, Throw PrismaP2025)
  end.

(** [prisma.delivery.update({ where: { id, status }, data })] *)
Definition updateDeliveryWhereStatus (id : string) (expected : DeliveryStatus)
    (f : Delivery → Delivery) : M Store Delivery := λ s,
  match deliveries s !! id with
  | Some d =>
      if bool_decide (status d = expected)
      then (s <| deliveries ::= <[id := f d]> |>, Ok (f d))
      else (s, Throw PrismaP2025)
  | None => (s, Throw PrismaP2025)
  end.

(** The unique index (company_id, external_order_ref); NULLs do not collide,
    soft-deleted rows do. *)
Definition orderRefTaken (cid ref : string) (t : gmap string Delivery) : bool :=
  bool_decide (find_many (λ _ d, bool_decide (companyId d = cid ∧ externalOrderRef d = Some ref)) t ≠ []).

(** [prisma.delivery.create({ data })], the row getting the id [id]. *)
Definition createDelivery (id : string) (d : Delivery) : M Store unit := λ s,
  if match externalOrderRef d with
     | Some ref => orderRefTaken (companyId d) ref (deliveries s)
     | None => false
     end
  then (s, Throw PrismaP2002)
  else match deliveries s !! id with
       | Some _ => (s, Throw PrismaP2002)
       | None => (s <| deliveries ::= <[id := d]> |>, Ok tt)
       end.

(** A row with the defaults of the schema. *)
Definition newDelivery (cid ttl pickup address : string) (st : DeliveryStatus) : Delivery :=
  {| title := ttl; description := None; pickupAddress := pickup; pickupLat := None;
     pickupLng := None; pickupLocationLabel := None; deliveryAddress := address;
     deliveryLat := None; deliveryLng := None; deliveryLocationLabel := None; status := st;
     scheduledDate := None; completedAt := None; deliveryProofLat := None;
     deliveryProofLng := None; deliveryProofDistance := None; deliveryProofAccuracy := None;
     locationMismatch := false; mismatchResolved := false; notes := None; clientPhone := None;
     amount := None; articlePrice := None; productDescription := None; externalOrderRef := None;
     tourSequence := None; deletedAt := None; companyId := cid; vehicleId := None;
     driverId := None; assignedDriverId := None; clientId := None |}.

(** [x ?? keep] for a patch field of an optional column. *)
Definition patch {A} (o : option A) (old : option A) : option A :=
  match o with Some v => Some v | None => old end.
Definition patch_req {A} (o : option A) (old : A) : A :=
  match o with Some v => v | None => old end.

(** ** Facts about the matrix *)

Lemma isValidTransition_spec from to : isValidTransition from to = true ↔ transition from to.
Proof. unfold isValidTransition, transition. by rewrite bool_decide_eq_true. Qed.

Lemma transition_terminal from to : transition from to → terminal from = false.
Proof. unfold transition. destruct from; simpl; try done; intros H; by apply elem_of_nil in H. Qed.

Lemma reaches_terminal from to : status_reaches from to → terminal from = true → to = from.
Proof.
  intros H Ht. destruct H as [|x y z Hxy]; [done|].
  apply transition_terminal in Hxy. congruence.
Qed.

(** A rank that every transition increases: a delivery has at most three
    transitions in its life. *)
Definition rank (s : DeliveryStatus) : Z :=
  match s with pending => 0 | assigned => 1 | in_progress => 2 | _ => 3 end.

Lemma transition_rank from to : transition from to → rank from < rank to.
Proof.
  unfold transition. destruct from; simpl; rewrite ?elem_of_cons, ?elem_of_nil;
    intros H; destruct_or?; subst; simpl; lia || done.
Qed.
