(* ===== verification/Deliveries.v ===== *)
(** * modules/deliveries: DeliveriesService

    The handlers of deliveries.service.ts over the store of [DeliveryModel]:
    lookup, creation, status changes with the proof of location and the
    optimistic lock, PATCH, bulk actions, tours and removal. *)

From S2P Require Import Prelude JsNum Geo DeliveryModel.

#[local] Open Scope string_scope.
#[local] Open Scope list_scope.
#[local] Open Scope Z_scope.

Definition isFuelReportTriggerStatus (s : DeliveryStatus) : bool :=
  match s with delivered | failed => true | _ => false end.

(** Position check of a completion, carried by the single notification. *)
Inductive MismatchReason := reason_distance | reason_no_coords.
Record DeliveryMismatchInfo := mkMismatch {
  mismatched : bool;
  mm_reason : option MismatchReason;
  mm_distanceMeters : num
}.
Definition noMismatch : DeliveryMismatchInfo := mkMismatch false None (num_of_Z 0).

(** The columns a proof writes; [None] leaves the column alone. *)
Record ProofData := mkProof {
  pf_lat : option num;
  pf_lng : option num;
  pf_distance : option num;
  pf_accuracy : option num;
  pf_mismatch : option bool;
  pf_resolved : option bool
}.
Definition emptyProof : ProofData := mkProof None None None None None None.

Definition applyProof (p : ProofData) (d : Delivery) : Delivery :=
  d <| deliveryProofLat ::= patch (pf_lat p) |>
    <| deliveryProofLng ::= patch (pf_lng p) |>
    <| deliveryProofDistance ::= patch (pf_distance p) |>
    <| deliveryProofAccuracy ::= patch (pf_accuracy p) |>
    <| locationMismatch ::= patch_req (pf_mismatch p) |>
    <| mismatchResolved ::= patch_req (pf_resolved p) |>.

Definition msg_lock : string :=
  "Ce statut a déjà été modifié entretemps, actualisez la page".

Definition statusLabel (s : DeliveryStatus) : string :=
  replace_char "_"%char " "%char (status_string s).

Definition statusPriority (s : DeliveryStatus) : NotificationPriority :=
  match s with delivered => low | failed => high | _ => medium end.

(** Rendering of [Allowed: a, b] lists. *)
Definition joinStatuses (l : list DeliveryStatus) : string :=
  match map status_string l with
  | [] => "none"
  | x :: xs => foldl (λ acc y, acc +:+ ", " +:+ y) x xs
  end.

Definition buildDeliveryStatusNotification (deliveryId deliveryTitle : string)
    (s : DeliveryStatus) (mm : DeliveryMismatchInfo) (lang : Language)
    (userId : option string) : NotificationInput :=
  let label := statusLabel s in
  let link := "/deliveries/" +:+ deliveryId in
  if mismatched mm then
    {| n_type := location_mismatch;
       n_priority := high;
       n_title := Tr "delivery.notification.mismatchTitle" lang [];
       n_message :=
         match mm_reason mm with
         | Some reason_no_coords =>
             Tr "delivery.notification.combinedNoCoords" lang
               [("title", ArgText deliveryTitle); ("status", ArgText label)]
         | _ =>
             Tr "delivery.notification.combinedMismatch" lang
               [("title", ArgText deliveryTitle); ("status", ArgText label);
                ("distance", ArgFixed1 (num_div (mm_distanceMeters mm) (num_of_Z 1000)));
                ("meters", ArgNum (mm_distanceMeters mm))]
         end;
       n_link := link; n_userId := userId; n_deliveryId := deliveryId |}
  else
    {| n_type := delivery_status;
       n_priority := statusPriority s;
       n_title := Tr "delivery.notification.title" lang [("status", ArgText label)];
       n_message := Tr "delivery.notification.message" lang
         [("title", ArgText deliveryTitle); ("status", ArgText label)];
       n_link := link; n_userId := userId; n_deliveryId := deliveryId |}.

(** [findFirst] on gps_positions: the latest non-suspect fix of the delivery
    since [since]. *)
Definition later (a b : GpsRow) : GpsRow :=
  if gps_timestamp a <? gps_timestamp b then b else a.
Definition lastGpsFix (deliveryId : string) (since : Z) (rows : list GpsRow) : option GpsRow :=
  match filter (λ g, gps_deliveryId g = Some deliveryId ∧ gps_suspect g = false
                     ∧ since ≤ gps_timestamp g) rows with
  | [] => None
  | g :: gs => Some (foldl later g gs)
  end.

Section Service.
Context (env : Env).

Definition haversine : num → num → num → num → num := haversineDistance (jsMath env).

Definition notifications_create (cid : string) (n : NotificationInput) : M Store unit :=
  match notificationFailure env with
  | Some e => throw e
  | None => emit (ENotification cid n)
  end.

Definition webhooks_dispatch (event cid : string) (p : payload) : M Store unit :=
  emit (EWebhook event cid p).

Definition emitUpdate (cid entity action : string) (p : payload) : M Store unit :=
  emit (EDataUpdate cid entity action p).

(** Fire-and-forget: a missing or failing queue is ignored. *)
Definition dispatchDailyFuelReportRecompute (cid : string) (driver : option string)
    (s : option DeliveryStatus) : M Store unit :=
  match driver with
  | Some d =>
      if truthy driver && fuelQueue env then emit (EFuelJob cid d (now env) s) else mret tt
  | None => mret tt
  end.

(** The best-effort geocoding of an address: failures and empty answers
    leave the coordinates as they are. *)
Definition geocodeFirst (address : string) : option (num * num) :=
  match geocode env address with
  | Some ((lat, lng) :: _) => Some (lat, lng)
  | _ => None
  end.

(** ** Lookups *)

Definition findVehicle (cid id : string) : M Store (option VehicleRow) :=
  gets (λ s, match vehicles s !! id with
             | Some v => if bool_decide (vehicle_companyId v = cid ∧ vehicle_deletedAt v = None)
                         then Some v else None
             | None => None
             end).

Definition findDriver (cid id : string) : M Store (option DriverRow) :=
  gets (λ s, match drivers s !! id with
             | Some d => if bool_decide (driver_companyId d = cid ∧ driver_deletedAt d = None)
                         then Some d else None
             | None => None
             end).

(** [role]/[userId]: a [client] only sees its own orders and a [driver] the
    deliveries assigned to it; an undefined [userId] adds no filter. *)
Definition visibleTo (role userId : option string) (d : Delivery) : bool :=
  match userId with
  | None => true
  | Some u =>
      (if bool_decide (role = Some "client") then bool_decide (clientId d = Some u) else true)
      && (if bool_decide (role = Some "driver") then bool_decide (assignedDriverId d = Some u)
          else true)
  end.

Definition findOneAs (cid id : string) (role userId : option string) : M Store Delivery := λ s,
  match deliveries s !! id with
  | Some d =>
      if bool_decide (companyId d = cid ∧ deletedAt d = None) && visibleTo role userId d
      then (s, Ok d)
      else (s, Throw (NotFoundException "Delivery not found"))
  | None => (s, Throw (NotFoundException "Delivery not found"))
  end.

Definition findOne (cid id : string) : M Store Delivery := findOneAs cid id None None.

(** The vehicle named by a DTO must be a live vehicle of the company. *)
Definition checkVehicle (cid : string) (vid : option string) : M Store unit :=
  match vid with
  | Some v =>
      if truthy vid then
        found ← findVehicle cid v;
        match found with
        | Some _ => mret tt
        | None => throw (NotFoundException "Vehicle not found in your company")
        end
      else mret tt
  | None => mret tt
  end.

(** Same for the driver; returns the driver row when one was named. *)
Definition checkDriver (cid : string) (did : option string) : M Store (option DriverRow) :=
  match did with
  | Some d =>
      if truthy did then
        found ← findDriver cid d;
        match found with
        | Some r => mret (Some r)
        | None => throw (NotFoundException "Driver not found in your company")
        end
      else mret None
  | None => mret None
  end.

(** ** create *)

(** The coordinates of a DTO, geocoded when both are absent. *)
Definition resolveCoordinates (lat lng : option num) (address : option string)
    : option num * option num :=
  match lat, lng, address with
  | None, None, Some a =>
      if truthy address then
        match geocodeFirst a with
        | Some (la, ln) => (Some la, Some ln)
        | None => (None, None)
        end
      else (None, None)
  | _, _, _ => (lat, lng)
  end.

Definition create (newId cid : string) (dto : DeliveryDto) : M Store Delivery :=
  checkVehicle cid (dto_vehicleId dto) ;;
  driver ← checkDriver cid (dto_driverId dto);
  let assignee :=
    match driver with
    | Some r => if truthy (driver_userId r) then driver_userId r else None
    | None => None
    end in
  let '(lat, lng) :=
    resolveCoordinates (dto_deliveryLat dto) (dto_deliveryLng dto) (dto_deliveryAddress dto) in
  ensure (match dto_status dto with Some s => negb (terminal s) | None => true end)
    (BadRequestException
      ("Cannot create a delivery with terminal status " +:+
       quoted match dto_status dto with Some s => status_string s | None => "undefined" end)) ;;
  let row :=
    (newDelivery cid (patch_req (dto_title dto) EmptyString)
      (patch_req (dto_pickupAddress dto) EmptyString)
      (patch_req (dto_deliveryAddress dto) EmptyString) in_progress)
      <| description := dto_description dto |>
      <| pickupLat := dto_pickupLat dto |>
      <| pickupLng := dto_pickupLng dto |>
      <| pickupLocationLabel := dto_pickupLocationLabel dto |>
      <| deliveryLat := lat |>
      <| deliveryLng := lng |>
      <| deliveryLocationLabel := dto_deliveryLocationLabel dto |>
      <| notes := dto_notes dto |>
      <| vehicleId := dto_vehicleId dto |>
      <| driverId := dto_driverId dto |>
      <| assignedDriverId := assignee |>
      <| scheduledDate := dto_scheduledDate dto |> in
  createDelivery newId row ;;
  webhooks_dispatch "delivery.status_changed" cid
    [("deliveryId", JStr newId); ("companyId", JStr cid); ("title", JStr (title row));
     ("status", JStr (status_string (status row)))] ;;
  emitUpdate cid "delivery" (status_string (status row)) [("id", JStr newId)] ;;
  mret row.

(** ** Status changes *)

Definition updateWithOptimisticLock (id : string) (expectedStatus : DeliveryStatus)
    (f : Delivery → Delivery) : M Store Delivery :=
  try_catch (updateDeliveryWhereStatus id expectedStatus f)
    (λ e, match e with
          | PrismaP2025 => throw (BadRequestException msg_lock)
          | _ => throw e
          end).

(** The destination of the delivery, geocoded and stored when it has no
    coordinates. *)
Definition proofDestination (id : string) (d : Delivery) : M Store (option num * option num) :=
  match deliveryLat d, deliveryLng d with
  | None, None =>
      if negb (bool_decide (deliveryAddress d = EmptyString)) then
        match geocodeFirst (deliveryAddress d) with
        | Some (lat, lng) =>
            try_catch
              (updateDelivery id (λ r, r <| deliveryLat := Some lat |>
                                         <| deliveryLng := Some lng |>) ;; mret tt)
              (λ _, mret tt) ;;
            mret (Some lat, Some lng)
        | None => mret (None, None)
        end
      else mret (None, None)
  | lat, lng => mret (lat, lng)
  end.

Definition mismatchThreshold : num :=
  match mismatchThresholdConfig env with Some t => t | None => num_of_Z 200 end.

Definition proofWindowMin : Z :=
  match gpsProofWindow env with Some 0 | None => 30 | Some w => w end.

(** Distance from the proof to the last GPS fix, when it exceeds the
    threshold. *)
Definition gpsCrossCheck (id : string) (lat lng : num) : M Store (option num) :=
  if gpsReadable env then
    fix_ ← gets (λ s, lastGpsFix id (now env - proofWindowMin * 60 * 1000) (gpsPositions s));
    match fix_ with
    | Some g =>
        let gpsDistance :=
          Math_round (haversine lat lng (gps_latitude g) (gps_longitude g)) in
        mret (if num_ltb mismatchThreshold gpsDistance then Some gpsDistance else None)
    | None => mret None
    end
  else mret None.

Definition verifyDeliveryLocation (id : string) (d : Delivery) (dto : UpdateDeliveryStatusDto)
    : M Store (ProofData * DeliveryMismatchInfo) :=
  if negb (isFuelReportTriggerStatus (sdto_status dto)) then mret (emptyProof, noMismatch)
  else match sdto_latitude dto, sdto_longitude dto with
  | Some lat, Some lng =>
      let proof := emptyProof <| pf_lat := Some lat |> <| pf_lng := Some lng |>
                              <| pf_accuracy := sdto_accuracy dto |> in
      dest ← proofDestination id d;
      let distance :=
        match dest with
        | (Some dlat, Some dlng) => Math_round (haversine lat lng dlat dlng)
        | _ => num_of_Z 0
        end in
      let proof := proof <| pf_distance := Some distance |> in
      gps ← gpsCrossCheck id lat lng;
      let mismatch :=
        match gps with Some _ => true | None => num_ltb mismatchThreshold distance end in
      let mismatchDistance := match gps with Some g => g | None => distance end in
      if mismatch then
        mret (proof <| pf_mismatch := Some true |> <| pf_resolved := Some false |>,
              mkMismatch true (Some reason_distance) mismatchDistance)
      else
        mret (proof <| pf_mismatch := Some false |> <| pf_resolved := Some false |>, noMismatch)
  | _, _ =>
      mret (emptyProof <| pf_mismatch := Some true |> <| pf_resolved := Some false |>,
            mkMismatch true (Some reason_no_coords) (num_of_Z 0))
  end.

(** [{ ...proofData, status }], with [completedAt] for a delivered one. *)
Definition statusUpdate (p : ProofData) (s : DeliveryStatus) (d : Delivery) : Delivery :=
  let d := (applyProof p d) <| status := s |> in
  if bool_decide (s = delivered) then d <| completedAt := Some (now env) |> else d.

Definition driverName (s : Store) (d : Delivery) : JsVal :=
  match driverId d with
  | Some did =>
      match drivers s !! did with
      | Some r => JStr (driver_firstName r +:+ " " +:+ driver_lastName r)
      | None => JNull
      end
  | None => JNull
  end.

Definition dispatchWebhook (cid id : string) (d : Delivery) (s : DeliveryStatus) : M Store unit :=
  name ← gets (λ st, driverName st d);
  webhooks_dispatch "delivery.status_changed" cid
    [("deliveryId", JStr id); ("companyId", JStr cid); ("title", JStr (title d));
     ("status", JStr (status_string s)); ("pickupAddress", JStr (pickupAddress d));
     ("deliveryAddress", JStr (deliveryAddress d)); ("driverName", name)] ;;
  if bool_decide (s = delivered) then
    webhooks_dispatch "delivery.delivered" cid
      [("deliveryId", JStr id); ("companyId", JStr cid); ("title", JStr (title d));
       ("completedAt", JTime (now env)); ("deliveryAddress", JStr (deliveryAddress d))]
  else mret tt.

(** What follows the reads of a status change: the proof, the locked write,
    then the fuel job, the notification, the webhooks and the broadcast.
    [notified] picks the addressee of the notification. *)
Definition commitStatus (cid id : string) (d : Delivery) (dto : UpdateDeliveryStatusDto)
    (lang : Language) (notified : Delivery → option string) : M Store Delivery :=
  pm ← verifyDeliveryLocation id d dto;
  updated ← updateWithOptimisticLock id (status d) (statusUpdate pm.1 (sdto_status dto));
  (if isFuelReportTriggerStatus (sdto_status dto)
   then dispatchDailyFuelReportRecompute cid (driverId d) (Some (sdto_status dto))
   else mret tt) ;;
  notifications_create cid
    (buildDeliveryStatusNotification id (title updated) (sdto_status dto) pm.2 lang
      (notified updated)) ;;
  dispatchWebhook cid id updated (sdto_status dto) ;;
  emitUpdate cid "delivery" (status_string (sdto_status dto)) [("id", JStr id)] ;;
  mret updated.

Definition badTransition (who : string) (from to : DeliveryStatus)
    (allowed : list DeliveryStatus) : exn :=
  BadRequestException (who +:+ " transition from " +:+ status_string from +:+ " to " +:+
    status_string to +:+ ". Allowed: " +:+ joinStatuses allowed).

Definition updateStatusFrom (cid id : string) (d : Delivery) (dto : UpdateDeliveryStatusDto)
    (lang : Language) : M Store Delivery :=
  let allowedTransitions := TRANSITION_MATRIX (status d) in
  ensure (bool_decide (sdto_status dto ∈ allowedTransitions))
    (badTransition "Cannot" (status d) (sdto_status dto) allowedTransitions) ;;
  commitStatus cid id d dto lang assignedDriverId.

Definition updateStatus (cid id : string) (dto : UpdateDeliveryStatusDto) (lang : Language)
    : M Store Delivery :=
  d ← findOne cid id;
  updateStatusFrom cid id d dto lang.

Definition driverAllowed (s : DeliveryStatus) : list DeliveryStatus :=
  filter (λ s', s' = in_progress ∨ s' = delivered ∨ s' = failed) (TRANSITION_MATRIX s).

Definition updateDriverStatusFrom (cid id userId : string) (d : Delivery)
    (dto : UpdateDeliveryStatusDto) (lang : Language) : M Store Delivery :=
  ensure (bool_decide (assignedDriverId d = Some userId))
    (BadRequestException "This delivery is not assigned to you") ;;
  ensure (bool_decide (sdto_status dto ∈ driverAllowed (status d)))
    (badTransition "Driver cannot" (status d) (sdto_status dto) (driverAllowed (status d))) ;;
  commitStatus cid id d dto lang (λ _, None).

Definition updateDriverStatus (cid id userId : string) (dto : UpdateDeliveryStatusDto)
    (lang : Language) : M Store Delivery :=
  d ← findOne cid id;
  updateDriverStatusFrom cid id userId d dto lang.

(** ** PATCH, mismatch resolution and removal *)

(** [{ ...dto }] on a row. *)
Definition applyDto (dto : DeliveryDto) (d : Delivery) : Delivery :=
  d <| title ::= patch_req (dto_title dto) |>
    <| description ::= patch (dto_description dto) |>
    <| status ::= patch_req (dto_status dto) |>
    <| pickupAddress ::= patch_req (dto_pickupAddress dto) |>
    <| pickupLat ::= patch (dto_pickupLat dto) |>
    <| pickupLng ::= patch (dto_pickupLng dto) |>
    <| pickupLocationLabel ::= patch (dto_pickupLocationLabel dto) |>
    <| deliveryAddress ::= patch_req (dto_deliveryAddress dto) |>
    <| deliveryLat ::= patch (dto_deliveryLat dto) |>
    <| deliveryLng ::= patch (dto_deliveryLng dto) |>
    <| deliveryLocationLabel ::= patch (dto_deliveryLocationLabel dto) |>
    <| scheduledDate ::= patch (dto_scheduledDate dto) |>
    <| notes ::= patch (dto_notes dto) |>
    <| vehicleId ::= patch (dto_vehicleId dto) |>
    <| driverId ::= patch (dto_driverId dto) |>.

(** The coordinates of a changed address given without coordinates. *)
Definition patchCoordinates (dto : DeliveryDto) (d : Delivery) : option (num * num) :=
  match dto_deliveryLat dto, dto_deliveryLng dto, dto_deliveryAddress dto with
  | None, None, Some a =>
      if truthy (dto_deliveryAddress dto) && negb (bool_decide (a = deliveryAddress d))
      then geocodeFirst a else None
  | _, _, _ => None
  end.

(** [data] of the PATCH: the DTO, the geocoded coordinates, the account of
    the new driver (cleared when it has none) and the completion time. *)
Definition updateData (dto : DeliveryDto) (coords : option (num * num))
    (driver : option DriverRow) (complete : bool) (d : Delivery) : Delivery :=
  let d := applyDto dto d in
  let d := match coords with
           | Some (lat, lng) => d <| deliveryLat := Some lat |> <| deliveryLng := Some lng |>
           | None => d
           end in
  let d := match driver with
           | Some r => d <| assignedDriverId := driver_userId r |>
           | None => d
           end in
  if complete then d <| completedAt := Some (now env) |> else d.

(** The status a PATCH asks for, when it is not the current one. *)
Definition requestedChange (dto : DeliveryDto) (d : Delivery) : option DeliveryStatus :=
  match dto_status dto with
  | Some s => if bool_decide (s = status d) then None else Some s
  | None => None
  end.

Definition driverChanged (dto : DeliveryDto) (d : Delivery) : bool :=
  match dto_driverId dto with
  | Some x => negb (bool_decide (driverId d = Some x))
  | None => false
  end.

Definition patchNotification (id : string) (updated : Delivery) (s : DeliveryStatus)
    : NotificationInput :=
  {| n_type := delivery_status;
     n_priority := statusPriority s;
     n_title := Lit ("Livraison " +:+ statusLabel s);
     n_message := Lit (title updated +:+ " est maintenant " +:+ statusLabel s);
     n_link := "/deliveries/" +:+ id;
     n_userId := assignedDriverId updated;
     n_deliveryId := id |}.

(** The matrix check of a PATCH that changes the status. *)
Definition checkRequestedChange (cid : string) (d : Delivery) (dto : DeliveryDto)
    : M Store unit :=
  match requestedChange dto d with
  | Some s =>
      ensure (bool_decide (s ∈ TRANSITION_MATRIX (status d)))
        (BadRequestException ("Cannot transition from " +:+ status_string (status d) +:+
          " to " +:+ status_string s)) ;;
      (if isFuelReportTriggerStatus s
       then dispatchDailyFuelReportRecompute cid (patch (dto_driverId dto) (driverId d)) (Some s)
       else mret tt)
  | None => mret tt
  end.

(** What a PATCH announces once [updated] is written. *)
Definition announcePatch (cid id : string) (d : Delivery) (dto : DeliveryDto)
    (updated : Delivery) : M Store unit :=
  match requestedChange dto d with
  | Some s =>
      notifications_create cid (patchNotification id updated s) ;;
      dispatchWebhook cid id updated s ;;
      emitUpdate cid "delivery" (status_string s) [("id", JStr id)]
  | None => mret tt
  end ;;
  match dto_driverId dto with
  | Some did =>
      if driverChanged dto d && truthy (dto_driverId dto) then
        webhooks_dispatch "delivery.driver_assigned" cid
          [("deliveryId", JStr id); ("companyId", JStr cid); ("title", JStr (title updated));
           ("driverId", JStr did)] ;;
        emitUpdate cid "delivery" "assigned" [("id", JStr id); ("driverId", JStr did)]
      else mret tt
  | None => mret tt
  end.

(** The PATCH once the row [d] has been read. *)
Definition updateFrom (cid id : string) (d : Delivery) (dto : DeliveryDto) : M Store Delivery :=
  checkVehicle cid (dto_vehicleId dto) ;;
  driver ← checkDriver cid (dto_driverId dto);
  checkRequestedChange cid d dto ;;
  updated ← updateDelivery id
    (updateData dto (patchCoordinates dto d) driver
      (bool_decide (requestedChange dto d = Some delivered)));
  announcePatch cid id d dto updated ;;
  mret updated.

Definition update (cid id : string) (dto : DeliveryDto) : M Store Delivery :=
  d ← findOne cid id;
  updateFrom cid id d dto.

Definition resolveMismatch (cid id : string) : M Store Delivery :=
  d ← findOne cid id;
  ensure (locationMismatch d)
    (BadRequestException "This delivery has no location mismatch") ;;
  updateDelivery id (λ r, r <| mismatchResolved := true |>).

Definition remove (cid id : string) : M Store Delivery :=
  d ← findOne cid id;
  ensure (negb (bool_decide (status d = in_progress)))
    (BadRequestException "Cannot delete a delivery that is in progress") ;;
  updateDelivery id (λ r, r <| deletedAt := Some (now env) |>).
End Service.
