(* ===== verification/DeliveriesBatch.v ===== *)
(** * modules/deliveries: batches

    bulkAction, optimizeTour and importDeliveriesFile of deliveries.service.ts,
    with parseAmount (common/utils) and the ordering of OSRM waypoints
    (routing.service.ts). *)

From S2P Require Import Prelude JsString JsNum DeliveryModel Deliveries.

#[local] Open Scope string_scope.
#[local] Open Scope list_scope.
#[local] Open Scope Z_scope.

(** [err.message] *)
Definition exn_message (e : exn) : string :=
  match e with
  | NotFoundException m | BadRequestException m | ConflictException m
  | UnauthorizedException m | ForbiddenException m | HttpException _ m | OtherError m => m
  | ManualPaymentRequiredException => "MANUAL_PAYMENT_REQUIRED"
  | PrismaP2025 => "An operation failed because it depends on one or more records that were required but not found."
  | PrismaP2002 => "Unique constraint failed"
  end.

Definition by_position (a b : nat * Z) : Prop := a.2 ≤ b.2.
#[export] Instance by_position_dec : RelDecision by_position.
Proof. intros a b. unfold by_position. apply _. Defined.
#[export] Instance by_position_total : Total by_position.
Proof. intros a b. unfold by_position. lia. Qed.
#[export] Instance by_position_trans : Transitive by_position.
Proof. intros a b c. unfold by_position. lia. Qed.

Section Batch.
Context (env : Env).

(** ** bulkAction *)

Record BulkActionDto := mkBulk {
  ids : list string;
  action : string;
  bulk_status : option DeliveryStatus;
  bulk_driverId : option string
}.

Record BulkResult := mkBulkResult {
  succeeded : list string;
  bulk_failed : list (string * string)
}.

Definition bulkDelete (id : string) (d : Delivery) : M Store (option string) :=
  if bool_decide (status d = in_progress)
  then mret (Some "Cannot delete a delivery in progress")
  else updateDelivery id (λ r, r <| deletedAt := Some (now env) |>) ;; mret None.

(** No optimistic lock, no proof of location and no notification here. *)
Definition bulkStatus (cid id : string) (d : Delivery) (target : DeliveryStatus)
    : M Store (option string) :=
  if negb (bool_decide (target ∈ TRANSITION_MATRIX (status d))) then
    mret (Some ("Transition " +:+ status_string (status d) +:+ " → " +:+
                status_string target +:+ " not allowed"))
  else
    (if isFuelReportTriggerStatus target
     then dispatchDailyFuelReportRecompute env cid (driverId d) (Some target)
     else mret tt) ;;
    updateDelivery id (λ r,
      let r := r <| status := target |> in
      if bool_decide (target = delivered) then r <| completedAt := Some (now env) |> else r) ;;
    webhooks_dispatch "delivery.status_changed" cid
      [("deliveryId", JStr id); ("companyId", JStr cid); ("title", JStr (title d));
       ("status", JStr (status_string target))] ;;
    emitUpdate cid "delivery" (status_string target) [("id", JStr id)] ;;
    mret None.

Definition bulkAssign (cid id : string) (d : Delivery) (did : option string)
    : M Store (option string) :=
  match did with
  | Some driver =>
      if truthy did then
        found ← findDriver cid driver;
        match found with
        | None => mret (Some "Driver not found in your company")
        | Some r =>
            updateDelivery id (λ x, x <| driverId := did |>
                                     <| assignedDriverId := driver_userId r |>) ;;
            webhooks_dispatch "delivery.driver_assigned" cid
              [("deliveryId", JStr id); ("companyId", JStr cid); ("title", JStr (title d));
               ("driverId", JStr driver)] ;;
            emitUpdate cid "delivery" "assigned" [("id", JStr id); ("driverId", JStr driver)] ;;
            mret None
        end
      else mret (Some "No driver provided")
  | None => mret (Some "No driver provided")
  end.

(** One turn of the loop on the row [d] of the snapshot taken before it:
    [None] for a success, the reason of a failure otherwise. *)
Definition bulkOne (cid : string) (dto : BulkActionDto) (id : string) (d : option Delivery)
    : M Store (option string) :=
  try_catch
    match d with
    | None => mret (Some "Delivery not found")
    | Some d =>
        if bool_decide (action dto = "delete") then bulkDelete id d
        else match bool_decide (action dto = "updateStatus"), bulk_status dto with
        | true, Some target => bulkStatus cid id d target
        | _, _ =>
            if bool_decide (action dto = "assignDriver")
            then bulkAssign cid id d (bulk_driverId dto)
            else mret (Some ("Unknown action: " +:+ action dto))
        end
    end
    (λ e, mret (Some (if bool_decide (exn_message e = EmptyString) then "Internal error"
                      else exn_message e))).

Fixpoint bulkLoop (cid : string) (dto : BulkActionDto) (deliveryMap : gmap string Delivery)
    (todo : list string) (acc : BulkResult) : M Store BulkResult :=
  match todo with
  | [] => mret acc
  | id :: rest =>
      r ← bulkOne cid dto id (deliveryMap !! id);
      bulkLoop cid dto deliveryMap rest
        (match r with
         | None => acc <| succeeded ::= λ l, l ++ [id] |>
         | Some reason => acc <| bulk_failed ::= λ l, l ++ [(id, reason)] |>
         end)
  end.

Definition bulkSnapshot (cid : string) (l : list string) (t : gmap string Delivery)
    : gmap string Delivery :=
  filter (λ kv, kv.1 ∈ l ∧ companyId kv.2 = cid ∧ deletedAt kv.2 = None) t.

Definition bulkAction (cid : string) (dto : BulkActionDto) : M Store BulkResult :=
  if bool_decide (ids dto = []) then mret (mkBulkResult [] [])
  else
    deliveryMap ← gets (λ s, bulkSnapshot cid (ids dto) (deliveries s));
    bulkLoop cid dto deliveryMap (ids dto) (mkBulkResult [] []).

(** ** optimizeTour *)

(** RoutingService.optimizeTrip on the answer of OSRM: input indices sorted
    (stably) by their waypoint_index. *)
Definition waypointOrder (waypointIndex : list Z) : list nat :=
  map fst (merge_sort by_position (zip (seq 0 (length waypointIndex)) waypointIndex)).

Record OsrmTrip := mkTrip {
  waypoints : list Z;
  trip_distance : num;
  trip_duration : num
}.

(** The service's answer for a list of coordinates: a trip, or the error
    optimizeTrip raises. *)
Context (osrmTrip : list (num * num) → result OsrmTrip).

Record TourResult := mkTour {
  tour_order : list (string * Z);
  tour_distance : num;
  tour_duration : num;
  tour_skipped : list (string * string)
}.

Definition tourPoint (d : option Delivery) : string + (num * num) :=
  match d with
  | None => inl "Delivery not found"
  | Some d =>
      match deliveryLat d, deliveryLng d with
      | Some lat, Some lng => inr (lat, lng)
      | _, _ => inl "No delivery coordinates"
      end
  end.

Fixpoint tourPoints (m : gmap string Delivery) (l : list string)
    : list (string * string) * list (string * (num * num)) :=
  match l with
  | [] => ([], [])
  | id :: rest =>
      let '(skipped, valid) := tourPoints m rest in
      match tourPoint (m !! id) with
      | inl reason => ((id, reason) :: skipped, valid)
      | inr p => (skipped, (id, p) :: valid)
      end
  end.

(** [valid[i].id] for each index: a TypeError when one is out of range. *)
Definition pickIds (valid : list (string * (num * num))) (order : list nat)
    : M Store (list string) :=
  match mapM (λ i, fst <$> valid !! i) order with
  | Some l => mret l
  | None => throw (OtherError "Cannot read properties of undefined (reading 'id')")
  end.

Definition numbered (l : list string) : list (string * Z) :=
  imap (λ i id, (id, Z.of_nat i + 1)) l.

Definition optimizeTour (cid : string) (l : list string) : M Store TourResult :=
  ensure (bool_decide (2 ≤ length l)%nat)
    (BadRequestException "Au moins 2 livraisons sont nécessaires pour optimiser une tournée") ;;
  deliveryMap ← gets (λ s, bulkSnapshot cid l (deliveries s));
  let '(skipped, valid) := tourPoints deliveryMap l in
  ensure (bool_decide (2 ≤ length valid)%nat)
    (BadRequestException "Au moins 2 livraisons avec des coordonnées valides sont nécessaires pour optimiser une tournée") ;;
  match osrmTrip (map snd valid) with
  | Throw e => throw e
  | Ok trip =>
      orderedIds ← pickIds valid (waypointOrder (waypoints trip));
      transaction
        (for_each (λ p, updateDelivery p.1 (λ r, r <| tourSequence := Some p.2 |>) ;; mret tt)
          (numbered orderedIds)) ;;
      mret (mkTour (numbered orderedIds) (trip_distance trip) (trip_duration trip) skipped)
  end.

(** ** importDeliveriesFile *)

Record RawImportRow := mkRaw {
  row : Z;
  orderRef : option string;
  lieu : option string;
  adresse : option string;
  telephone : option string;
  montant : option string;
  prix : option string;
  produits : option string;
  observation : option string;
  raw_notes : option string
}.

(** [s.replace(/Ar$/i, '')] *)
Definition stripAr (s : string) : string :=
  let n := String.length s in
  let tail := String.substring (n - 2) 2 s in
  if (2 <=? n)%nat && bool_decide (tail ∈ ["Ar"; "ar"; "AR"; "aR"])
  then String.substring 0 (n - 2) s else s.

(** The narrow no-break space U+202F is removed with the other non-digits. *)
Definition parseAmount (value : option string) : option Z :=
  match value with
  | None => None
  | Some v =>
      if bool_decide (v = EmptyString) then None
      else
        let str := filterString isDigit (stripAr (filterString (λ c, negb (isSpace c)) v)) in
        if bool_decide (str = EmptyString) then None else Some (digitsValue str)
  end.

Inductive ImportMode := create_only | upsert.

Record ImportResult := mkImport {
  created : Z;
  updated : Z;
  skipped : list (Z * string * string);
  errors : list (Z * string)
}.

Definition newline : string := String "010"%char EmptyString.

(** [[notes, observation ? ... : null].filter(Boolean).join('\n') || undefined] *)
Definition importNotes (raw : RawImportRow) : option string :=
  match truthy (raw_notes raw), truthy (observation raw), raw_notes raw, observation raw with
  | true, true, Some n, Some o => Some (n +:+ newline +:+ "Observation: " +:+ o)
  | true, false, Some n, _ => Some n
  | false, true, _, Some o => Some ("Observation: " +:+ o)
  | _, _, _, _ => None
  end.

Definition orUndefined (o : option string) : option string := if truthy o then o else None.

(** The fields an imported line writes, on an existing row. *)
Definition importFields (raw : RawImportRow) (l defaultPickup : string) (d : Delivery) : Delivery :=
  d <| deliveryAddress := l |>
    <| deliveryLocationLabel ::= patch (adresse raw) |>
    <| clientPhone ::= patch (telephone raw) |>
    <| amount ::= patch (parseAmount (montant raw)) |>
    <| articlePrice ::= patch (parseAmount (prix raw)) |>
    <| productDescription ::= patch (produits raw) |>
    <| description ::= patch (orUndefined (produits raw)) |>
    <| notes ::= patch (importNotes raw) |>
    <| pickupAddress := defaultPickup |>.

Definition notStarted (s : DeliveryStatus) : bool :=
  match s with pending | assigned => true | _ => false end.

Definition importUpdate (raw : RawImportRow) (l defaultPickup : string) (existing d : Delivery)
    : Delivery :=
  let d := importFields raw l defaultPickup d in
  if notStarted (status existing) then d <| status := in_progress |> else d.

Definition importCreate (cid ref : string) (raw : RawImportRow) (l defaultPickup : string) : Delivery :=
  (importFields raw l defaultPickup (newDelivery cid ref defaultPickup l in_progress))
    <| externalOrderRef := Some ref |>.

Definition findByRef (cid ref : string) (t : gmap string Delivery) : option (string * Delivery) :=
  find_first (λ _ d, bool_decide (companyId d = cid ∧ externalOrderRef d = Some ref
                                  ∧ deletedAt d = None)) t.

(** One line of the file; [newId] is the id a created row gets. *)
Definition importRow (cid defaultPickup : string) (mode : ImportMode) (newId : string)
    (raw : RawImportRow) (acc : ImportResult) : M Store ImportResult :=
  match orderRef raw, lieu raw with
  | Some ref, Some l =>
      if negb (truthy (orderRef raw)) then
        mret (acc <| errors ::= λ x, x ++ [(row raw, "N° Commande manquant")] |>)
      else if negb (truthy (lieu raw)) then
        mret (acc <| errors ::= λ x, x ++ [(row raw, "Lieu (adresse de livraison) manquant")] |>)
      else
        existing ← gets (λ s, findByRef cid ref (deliveries s));
        match existing, mode with
        | Some _, create_only =>
            mret (acc <| skipped ::= λ x, x ++ [(row raw, ref, "duplicate")] |>)
        | Some (id, e), upsert =>
            updateDelivery id (importUpdate raw l defaultPickup e) ;;
            mret (acc <| updated ::= Z.succ |>)
        | None, _ =>
            try_catch
              (createDelivery newId (importCreate cid ref raw l defaultPickup) ;;
               mret (acc <| created ::= Z.succ |>))
              (λ e, match e with
                    | PrismaP2002 =>
                        mret (acc <| skipped ::= λ x, x ++ [(row raw, ref, "duplicate")] |>)
                    | _ => mret (acc <| errors ::= λ x, x ++ [(row raw, exn_message e)] |>)
                    end)
        end
  | None, _ => mret (acc <| errors ::= λ x, x ++ [(row raw, "N° Commande manquant")] |>)
  | Some _, None =>
      mret (acc <| errors ::= λ x, x ++
        [(row raw, if truthy (orderRef raw) then "Lieu (adresse de livraison) manquant"
                   else "N° Commande manquant")] |>)
  end.

(** [newIds n] is the id the n-th line's row would get. *)
Fixpoint importLoop (cid defaultPickup : string) (mode : ImportMode) (newIds : nat → string)
    (n : nat) (rows : list RawImportRow) (acc : ImportResult) : M Store ImportResult :=
  match rows with
  | [] => mret acc
  | raw :: rest =>
      acc' ← importRow cid defaultPickup mode (newIds n) raw acc;
      importLoop cid defaultPickup mode newIds (S n) rest acc'
  end.

(** [parsed] is what the parser returns on the file, [None] when it throws. *)
Definition importDeliveriesFile (cid : string) (isPdf : bool)
    (parsed : option (list RawImportRow)) (defaultPickup : string) (mode : ImportMode)
    (newIds : nat → string) : M Store ImportResult :=
  match parsed with
  | None =>
      throw (BadRequestException
        (if isPdf then "Impossible de lire le PDF (fichier corrompu ou format inattendu)"
         else "Impossible de lire le fichier Excel (fichier corrompu ou format inattendu)"))
  | Some [] =>
      throw (BadRequestException
        (if isPdf then "Aucune livraison détectée dans le PDF" else "Le fichier Excel est vide"))
  | Some rows => importLoop cid defaultPickup mode newIds 0 rows (mkImport 0 0 [] [])
  end.
End Batch.
