(* ===== verification/DeliveriesFacts.v ===== *)
(** * modules/deliveries: what the handlers guarantee

    [evolves] is the guarantee each handler gives about the rows of the store;
    [step] interleaves requests, including a status change that commits after
    having read its row in an earlier store.  The theorems state the
    life-cycle of a delivery, tenant isolation, the optimistic lock, the proof
    of location and the accounting of the batch operations. *)

From S2P Require Import Prelude JsNum Geo DeliveryModel Deliveries DeliveriesBatch.

#[local] Open Scope string_scope.
#[local] Open Scope list_scope.
#[local] Open Scope Z_scope.

Definition completed_dated (d : Delivery) : Prop :=
  status d = delivered → is_Some (completedAt d).

(** What may happen to a row during a request of company [cid]. *)
Record evolves (cid : string) (d d' : Delivery) : Prop := {
  ev_company : companyId d' = companyId d;
  ev_status : status_reaches (status d) (status d');
  ev_dated : completed_dated d → completed_dated d';
  ev_foreign : companyId d ≠ cid → d' = d
}.

Definition effect_company (e : Effect) : string :=
  match e with
  | ENotification c _ | EWebhook _ c _ | EDataUpdate c _ _ _ | EFuelJob c _ _ _ => c
  end.

(** The guarantee of a request of company [cid]: rows evolve and are never
    deleted, new rows are born in the company and in progress, outgoing calls
    are appended and carry the company, the other tables are only read. *)
Record request_rel (cid : string) (s s' : Store) : Prop := {
  rr_old : ∀ id d, deliveries s !! id = Some d →
    ∃ d', deliveries s' !! id = Some d' ∧ evolves cid d d';
  rr_new : ∀ id d', deliveries s !! id = None → deliveries s' !! id = Some d' →
    companyId d' = cid ∧ status_reaches in_progress (status d') ∧ completed_dated d';
  rr_outbox : ∃ l, outbox s' = outbox s ++ l ∧ Forall (λ e, effect_company e = cid) l;
  rr_tables : vehicles s' = vehicles s ∧ drivers s' = drivers s ∧
    gpsPositions s' = gpsPositions s
}.

#[export] Instance evolves_preorder cid : PreOrder (evolves cid).
Proof.
  split.
  - intros d. split; auto. apply rtc_refl.
  - intros d1 d2 d3 [A1 B1 C1 D1] [A2 B2 C2 D2]. split.
    + congruence.
    + by etransitivity.
    + auto.
    + intros H. specialize (D1 H). subst. auto.
Qed.

#[export] Instance request_rel_preorder cid : PreOrder (request_rel cid).
Proof.
  split.
  - intros s. split; [|intros; congruence| |done].
    + intros id d H. exists d. split; [done|reflexivity].
    + exists []. rewrite app_nil_r. auto.
  - intros s1 s2 s3 [O1 N1 X1 T1] [O2 N2 X2 T2]. split.
    + intros id d H. destruct (O1 _ _ H) as (d2 & H2 & E2).
      destruct (O2 _ _ H2) as (d3 & H3 & E3). exists d3. split; [done|by etransitivity].
    + intros id d3 H H3. destruct (deliveries s2 !! id) as [d2|] eqn:H2.
      * destruct (N1 _ _ H H2) as (C & S' & D). destruct (O2 _ _ H2) as (d3' & H3' & [A B C' _]).
        simplify_eq. split_and!; [done|by etransitivity|auto].
      * eauto.
    + destruct X1 as (l1 & E1 & F1), X2 as (l2 & E2 & F2).
      exists (l1 ++ l2). rewrite E2, E1, app_assoc. split; [done|]. by apply Forall_app.
    + destruct T1 as (? & ? & ?), T2 as (? & ? & ?). split_and!; congruence.
Qed.

(** ** Writes *)

Lemma emit_footprint cid e : effect_company e = cid → footprint (request_rel cid) (emit e).
Proof.
  intros H s. split; simpl; [|intros; congruence| |done].
  - intros id d Hd. exists d. split; [done|reflexivity].
  - exists [e]. auto.
Qed.
#[export] Hint Extern 1 (footprint _ (emit _)) =>
  (apply emit_footprint; reflexivity) : footprint.

Lemma notifications_create_footprint env cid n :
  footprint (request_rel cid) (notifications_create env cid n).
Proof. unfold notifications_create. footprint_auto. Qed.
Lemma webhooks_dispatch_footprint ev cid p :
  footprint (request_rel cid) (webhooks_dispatch ev cid p).
Proof. by apply emit_footprint. Qed.
Lemma emitUpdate_footprint cid e a p : footprint (request_rel cid) (emitUpdate cid e a p).
Proof. by apply emit_footprint. Qed.
Lemma dispatchFuel_footprint env cid d st :
  footprint (request_rel cid) (dispatchDailyFuelReportRecompute env cid d st).
Proof. unfold dispatchDailyFuelReportRecompute. footprint_auto. Qed.
#[export] Hint Resolve notifications_create_footprint webhooks_dispatch_footprint
  emitUpdate_footprint dispatchFuel_footprint : footprint.

Lemma dispatchWebhook_footprint env cid id d st :
  footprint (request_rel cid) (dispatchWebhook env cid id d st).
Proof. unfold dispatchWebhook. footprint_auto. Qed.
Lemma findVehicle_footprint cid v : footprint (request_rel cid) (findVehicle cid v).
Proof. apply footprint_gets, _. Qed.
Lemma findDriver_footprint cid v : footprint (request_rel cid) (findDriver cid v).
Proof. apply footprint_gets, _. Qed.
#[export] Hint Resolve dispatchWebhook_footprint findVehicle_footprint
  findDriver_footprint : footprint.
Lemma checkVehicle_footprint cid v : footprint (request_rel cid) (checkVehicle cid v).
Proof. unfold checkVehicle. footprint_auto. Qed.
Lemma checkDriver_footprint cid v : footprint (request_rel cid) (checkDriver cid v).
Proof. unfold checkDriver. footprint_auto. Qed.
Lemma gpsCrossCheck_footprint env cid id lat lng :
  footprint (request_rel cid) (gpsCrossCheck env id lat lng).
Proof. unfold gpsCrossCheck. footprint_auto. Qed.
#[export] Hint Resolve checkVehicle_footprint checkDriver_footprint
  gpsCrossCheck_footprint : footprint.

(** The row [id] belongs to the company: stable under every request. *)
Definition owned (cid id : string) (s : Store) : Prop :=
  ∃ d, deliveries s !! id = Some d ∧ companyId d = cid.

Lemma owned_stable cid cid' id s s' : owned cid id s → request_rel cid' s s' → owned cid id s'.
Proof.
  intros (d & Hd & Hc) [O _ _ _]. destruct (O _ _ Hd) as (d' & Hd' & [E _ _ _]).
  exists d'. split; congruence.
Qed.

(** A write of one row. *)
Lemma insert_request_rel cid s id d d' :
  deliveries s !! id = Some d → evolves cid d d' →
  request_rel cid s (s <| deliveries ::= <[id := d']> |>).
Proof.
  intros Hd He. split; simpl; [| | |done].
  - intros id' x Hx. destruct (decide (id' = id)) as [->|Hne].
    + rewrite lookup_insert_eq. simplify_eq. eauto.
    + rewrite lookup_insert_ne by done. exists x. split; [done|reflexivity].
  - intros id' x Hn Hx. destruct (decide (id' = id)) as [->|Hne]; [congruence|].
    rewrite lookup_insert_ne in Hx by done. congruence.
  - exists []. rewrite app_nil_r. auto.
Qed.

(** A write that only touches columns the life-cycle does not depend on. *)
Definition benign (f : Delivery → Delivery) : Prop :=
  ∀ d, companyId (f d) = companyId d ∧ status (f d) = status d ∧ completedAt (f d) = completedAt d.

Lemma benign_evolves cid f d : benign f → companyId d = cid → evolves cid d (f d).
Proof.
  intros H Hc. destruct (H d) as (A & B & C). split; [done| | |done].
  - rewrite B. apply rtc_refl.
  - unfold completed_dated. by rewrite B, C.
Qed.

Lemma updateDelivery_spec cid id f (P : Store → Prop) :
  (∀ s d, P s → deliveries s !! id = Some d → companyId d = cid ∧ evolves cid d (f d)) →
  spec P (request_rel cid) (updateDelivery id f) (λ r _, companyId r = cid).
Proof.
  intros H s HP. unfold updateDelivery. destruct (deliveries s !! id) as [d|] eqn:E; simpl.
  - destruct (H _ _ HP E) as [Hc He]. split; [by eapply insert_request_rel|].
    intros a s' Ha. simplify_eq. by rewrite (ev_company _ _ _ He).
  - split; [reflexivity|by intros].
Qed.

Lemma updateDelivery_benign cid id f :
  benign f →
  spec (owned cid id) (request_rel cid) (updateDelivery id f) (λ r _, companyId r = cid).
Proof.
  intros Hf. apply updateDelivery_spec. intros s d (d' & Hd' & Hc) Hd. simplify_eq.
  split; [done|]. by apply benign_evolves.
Qed.

Lemma findOneAs_spec cid id role u :
  spec (λ _, True) (request_rel cid) (findOneAs cid id role u)
    (λ d s, deliveries s !! id = Some d ∧ companyId d = cid ∧ deletedAt d = None
            ∧ visibleTo role u d = true).
Proof.
  intros s _. unfold findOneAs. destruct (deliveries s !! id) as [d|] eqn:E; simpl;
    [|split; [reflexivity|by intros]].
  destruct (bool_decide _ && _) eqn:B; simpl; (split; [reflexivity|]); intros a s' Ha;
    simplify_eq.
  apply andb_true_iff in B as [B1 B2]. apply bool_decide_eq_true in B1. tauto.
Qed.

(** ** Handlers *)

(** Sequencing a part of a handler that the footprint database covers. *)
Lemma spec_seq {A B} cid id (m : M Store A) (f : A → M Store B) Q :
  footprint (request_rel cid) m →
  (∀ a, spec (owned cid id) (request_rel cid) (f a) Q) →
  spec (owned cid id) (request_rel cid) (m ≫= f) Q.
Proof.
  intros Hm Hf. eapply spec_bind; [exact _| |exact Hf].
  apply spec_frame; [done|]. intros s s'. apply owned_stable.
Qed.
Ltac spec_seq := apply spec_seq; [solve [footprint_auto]|intros ?].

Lemma owned_ret {A} cid id (a : A) :
  spec (owned cid id) (request_rel cid) (mret a) (λ _ _, True).
Proof. by apply spec_ret; [exact _|]. Qed.

Lemma spec_top {A} cid P (m : M Store A) Q :
  spec P (request_rel cid) m Q → spec P (request_rel cid) m (λ _ _, True).
Proof. by apply spec_post. Qed.

Lemma spec_owned {A} cid id (m : M Store A) Q :
  spec (owned cid id) (request_rel cid) m Q →
  spec (owned cid id) (request_rel cid) m (λ _, owned cid id).
Proof.
  intros H s Hs. destruct (H s Hs) as [H1 _]. split; [done|].
  intros a s' E. rewrite E in H1. by eapply owned_stable.
Qed.

Lemma proofDestination_spec env cid id d :
  spec (owned cid id) (request_rel cid) (proofDestination env id d) (λ _, owned cid id).
Proof.
  unfold proofDestination.
  repeat match goal with
         | |- spec _ _ (match ?x with _ => _ end) _ => destruct x
         end; try (eapply spec_owned, owned_ret).
  eapply spec_bind; [exact _| |intros ?; eapply spec_owned, owned_ret].
  eapply spec_owned, spec_try; [exact _| |apply owned_stable|intros ?; apply owned_ret].
  eapply spec_bind; [exact _| |intros ?; by apply spec_ret; [exact _|]].
  apply (updateDelivery_benign cid). by intros r.
Qed.

Lemma verifyDeliveryLocation_spec env cid id d dto :
  spec (owned cid id) (request_rel cid) (verifyDeliveryLocation env id d dto)
    (λ _, owned cid id).
Proof.
  unfold verifyDeliveryLocation.
  destruct (negb _); [eapply spec_owned, owned_ret|].
  destruct (sdto_latitude dto); [|eapply spec_owned, owned_ret].
  destruct (sdto_longitude dto); [|eapply spec_owned, owned_ret].
  eapply spec_bind; [exact _|apply proofDestination_spec|intros dest].
  apply spec_seq; [apply gpsCrossCheck_footprint|intros gps].
  cbv zeta. match goal with |- spec _ _ (if ?b then _ else _) _ => destruct b end;
    eapply spec_owned, owned_ret.
Qed.

Lemma statusUpdate_evolves env cid p s d :
  companyId d = cid → transition (status d) s → evolves cid d (statusUpdate env p s d).
Proof.
  intros Hc Ht. unfold statusUpdate, applyProof.
  case_bool_decide as Hd; split; simpl; try done; try (by apply rtc_once);
    unfold completed_dated; simpl; [by eauto|by intros].
Qed.

Lemma updateWithOptimisticLock_spec cid id st f :
  (∀ d, companyId d = cid → status d = st → evolves cid d (f d)) →
  spec (owned cid id) (request_rel cid) (updateWithOptimisticLock id st f) (λ _ _, True).
Proof.
  intros H. unfold updateWithOptimisticLock. apply spec_try; [exact _| |apply owned_stable|].
  - intros s (d & Hd & Hc). unfold updateDeliveryWhereStatus. rewrite Hd.
    case_bool_decide as Hs; simpl; (split; [|by intros]).
    + eapply insert_request_rel; eauto.
    + reflexivity.
  - intros e. destruct e; by apply spec_throw; exact _.
Qed.

Lemma spec_ensure_owned {A} cid id c e (f : unit → M Store A) Q :
  (c = true → spec (owned cid id) (request_rel cid) (f tt) Q) →
  spec (owned cid id) (request_rel cid) (ensure c e ≫= f) Q.
Proof.
  destruct c; intros H; [exact (H eq_refl)|].
  intros s Hs. split; [simpl; reflexivity|by intros].
Qed.

Lemma commitStatus_spec env cid id d dto lang notified :
  transition (status d) (sdto_status dto) →
  spec (owned cid id) (request_rel cid) (commitStatus env cid id d dto lang notified)
    (λ _ _, True).
Proof.
  intros Ht. unfold commitStatus.
  eapply spec_bind; [exact _|apply verifyDeliveryLocation_spec|intros pm].
  eapply spec_bind; [exact _| |intros updated].
  - eapply spec_owned, updateWithOptimisticLock_spec. intros d' Hc Hs.
    apply statusUpdate_evolves; [done|by rewrite Hs].
  - repeat (spec_seq). apply owned_ret.
Qed.

Lemma updateStatusFrom_spec env cid id d dto lang :
  spec (owned cid id) (request_rel cid) (updateStatusFrom env cid id d dto lang) (λ _ _, True).
Proof.
  unfold updateStatusFrom. apply spec_ensure_owned. intros Ht%bool_decide_eq_true.
  by apply commitStatus_spec.
Qed.

Lemma updateDriverStatusFrom_spec env cid id u d dto lang :
  spec (owned cid id) (request_rel cid) (updateDriverStatusFrom env cid id u d dto lang)
    (λ _ _, True).
Proof.
  unfold updateDriverStatusFrom.
  apply spec_ensure_owned. intros _. apply spec_ensure_owned.
  intros Ht%bool_decide_eq_true. apply list_elem_of_filter in Ht as [_ Ht].
  by apply commitStatus_spec.
Qed.

(** A handler that starts by reading its row. *)
Lemma findOne_footprint {A} cid id (f : Delivery → M Store A) Q :
  (∀ d, companyId d = cid →
    spec (λ s, deliveries s !! id = Some d) (request_rel cid) (f d) Q) →
  footprint (request_rel cid) (findOne cid id ≫= f).
Proof.
  intros H. eapply (footprint_of_spec _ _ Q), spec_bind; [exact _|apply findOneAs_spec|].
  intros d s (Hd & Hc & _). by apply H.
Qed.
Lemma read_owned cid id d s : companyId d = cid → deliveries s !! id = Some d → owned cid id s.
Proof. intros. by exists d. Qed.

Lemma updateStatus_footprint env cid id dto lang :
  footprint (request_rel cid) (updateStatus env cid id dto lang).
Proof.
  eapply findOne_footprint. intros d Hc.
  eapply spec_pre; [intros s; by apply read_owned|]. apply updateStatusFrom_spec.
Qed.
Lemma updateDriverStatus_footprint env cid id u dto lang :
  footprint (request_rel cid) (updateDriverStatus env cid id u dto lang).
Proof.
  eapply findOne_footprint. intros d Hc.
  eapply spec_pre; [intros s; by apply read_owned|]. apply updateDriverStatusFrom_spec.
Qed.
Lemma resolveMismatch_footprint cid id :
  footprint (request_rel cid) (resolveMismatch cid id).
Proof.
  eapply findOne_footprint. intros d Hc.
  eapply spec_pre; [intros s; by apply read_owned|]. spec_seq.
  eapply spec_top, updateDelivery_benign. by intros r.
Qed.
Lemma remove_footprint env cid id : footprint (request_rel cid) (remove env cid id).
Proof.
  eapply findOne_footprint. intros d Hc.
  eapply spec_pre; [intros s; by apply read_owned|]. spec_seq.
  eapply spec_top, updateDelivery_benign. by intros r.
Qed.

(** PATCH: the row written is the one read, since nothing writes between. *)
Definition keeps_rows (s s' : Store) : Prop := deliveries s' = deliveries s.
#[export] Instance keeps_rows_preorder : PreOrder keeps_rows.
Proof. split; [by intros s|]. intros s1 s2 s3 H1 H2. unfold keeps_rows in *. congruence. Qed.

Lemma emit_keeps e : footprint keeps_rows (emit e).
Proof. by intros s. Qed.
#[export] Hint Resolve emit_keeps : footprint.
Lemma checkVehicle_keeps cid v : footprint keeps_rows (checkVehicle cid v).
Proof. unfold checkVehicle, findVehicle. footprint_auto. Qed.
Lemma checkDriver_keeps cid v : footprint keeps_rows (checkDriver cid v).
Proof. unfold checkDriver, findDriver. footprint_auto. Qed.
Lemma dispatchFuel_keeps env cid d st :
  footprint keeps_rows (dispatchDailyFuelReportRecompute env cid d st).
Proof. unfold dispatchDailyFuelReportRecompute. footprint_auto. Qed.
#[export] Hint Resolve checkVehicle_keeps checkDriver_keeps dispatchFuel_keeps : footprint.

Lemma spec_keep {A B} cid id d (m : M Store A) (f : A → M Store B) Q :
  footprint (request_rel cid) m → footprint keeps_rows m →
  (∀ a, spec (λ s, deliveries s !! id = Some d) (request_rel cid) (f a) Q) →
  spec (λ s, deliveries s !! id = Some d) (request_rel cid) (m ≫= f) Q.
Proof.
  intros H1 H2 Hf. eapply spec_bind; [exact _| |exact Hf].
  intros s Hs. split; [apply H1|]. intros a s' E. specialize (H2 s).
  rewrite E in H2. unfold keeps_rows in H2. simpl in H2. by rewrite H2.
Qed.

(** The status a PATCH leaves. *)
Lemma updateData_status env dto coords driver c d :
  status (updateData env dto coords driver c d) =
  match requestedChange dto d with Some s => s | None => status d end.
Proof.
  assert (H : status (updateData env dto coords driver c d) = patch_req (dto_status dto) (status d))
    by (unfold updateData; by destruct c, coords as [[]|], driver).
  rewrite H. unfold requestedChange. destruct (dto_status dto); simpl; [|done].
  by case_bool_decide.
Qed.

Lemma updateData_completed env dto coords driver c d :
  completedAt (updateData env dto coords driver c d) =
  if c then Some (now env) else completedAt d.
Proof. unfold updateData. by destruct c, coords as [[]|], driver. Qed.

Lemma updateData_evolves env cid dto coords driver d :
  companyId d = cid → (∀ s, requestedChange dto d = Some s → transition (status d) s) →
  evolves cid d (updateData env dto coords driver
    (bool_decide (requestedChange dto d = Some delivered)) d).
Proof.
  intros Hc Ht. split; [unfold updateData; by destruct (bool_decide _), coords as [[]|], driver| | |done].
  - rewrite updateData_status. destruct (requestedChange dto d) eqn:E; [|apply rtc_refl].
    by apply rtc_once, Ht.
  - unfold completed_dated. rewrite updateData_status, updateData_completed.
    intros Hd. destruct (requestedChange dto d) eqn:E.
    + intros ->. rewrite bool_decide_eq_true_2 by done. eauto.
    + rewrite bool_decide_eq_false_2 by done. done.
Qed.

Lemma checkRequestedChange_footprint env cid d dto :
  footprint (request_rel cid) (checkRequestedChange env cid d dto).
Proof. unfold checkRequestedChange. footprint_auto. Qed.
Lemma checkRequestedChange_keeps env cid d dto :
  footprint keeps_rows (checkRequestedChange env cid d dto).
Proof. unfold checkRequestedChange. footprint_auto. Qed.
Lemma announcePatch_footprint env cid id d dto u :
  footprint (request_rel cid) (announcePatch env cid id d dto u).
Proof. unfold announcePatch. footprint_auto. Qed.
#[export] Hint Resolve checkRequestedChange_footprint checkRequestedChange_keeps
  announcePatch_footprint : footprint.

Lemma checkRequestedChange_Ok env cid d dto s s' :
  checkRequestedChange env cid d dto s = (s', Ok tt) →
  ∀ x, requestedChange dto d = Some x → transition (status d) x.
Proof.
  unfold checkRequestedChange. intros H x Hx. rewrite Hx in H.
  apply bind_Ok in H as (s1 & [] & H & _). apply ensure_Ok in H as (H & _).
  by apply bool_decide_eq_true in H.
Qed.

Lemma updateFrom_spec env cid id d dto :
  companyId d = cid →
  spec (λ s, deliveries s !! id = Some d) (request_rel cid) (updateFrom env cid id d dto)
    (λ _ _, True).
Proof.
  intros Hc. unfold updateFrom.
  apply spec_keep; [footprint_auto..|intros _].
  apply spec_keep; [footprint_auto..|intros driver].
  eapply (spec_bind _ _ _ (λ _ s, deliveries s !! id = Some d ∧
    ∀ x, requestedChange dto d = Some x → transition (status d) x)); [|intros _].
  - intros s Hs. split; [apply checkRequestedChange_footprint|].
    intros [] s' E. split; [|by eapply checkRequestedChange_Ok].
    pose proof (checkRequestedChange_keeps env cid d dto s) as K. rewrite E in K.
    unfold keeps_rows in K. simpl in K. by rewrite K.
  - eapply spec_bind; [exact _|eapply updateDelivery_spec|intros u].
    + intros s d' [Hs Ht] Hd'. simplify_eq. split; [done|]. by apply updateData_evolves.
    + apply spec_of_footprint. footprint_auto.
Qed.

Lemma update_footprint env cid id dto : footprint (request_rel cid) (update env cid id dto).
Proof. eapply findOne_footprint. intros d Hc. by apply updateFrom_spec. Qed.

(** *** create *)

Lemma createDelivery_spec cid id d :
  companyId d = cid → status_reaches in_progress (status d) → completed_dated d →
  footprint (request_rel cid) (createDelivery id d).
Proof.
  intros Hc Hs Hd s. unfold createDelivery.
  match goal with |- context [if ?b then _ else _] => destruct b end;
    [simpl; reflexivity|].
  destruct (deliveries s !! id) eqn:E; simpl; [reflexivity|].
  split; simpl; [| | |done].
  - intros id' x Hx. exists x. rewrite lookup_insert_ne by congruence. split; [done|reflexivity].
  - intros id' x Hn Hx. destruct (decide (id' = id)) as [->|Hne].
    + rewrite lookup_insert_eq in Hx. by simplify_eq.
    + rewrite lookup_insert_ne in Hx by done. congruence.
  - exists []. rewrite app_nil_r. auto.
Qed.

Lemma create_footprint env newId cid dto : footprint (request_rel cid) (create env newId cid dto).
Proof.
  unfold create. footprint_auto; apply createDelivery_spec; try done; apply rtc_refl.
Qed.

(** *** Batches *)

(** The rows of a bulk snapshot while the loop runs: still of the company, and
    with their status of the snapshot or the one the action asks for. *)
Definition bulk_inv (cid : string) (dto : BulkActionDto) (m : gmap string Delivery)
    (s : Store) : Prop :=
  ∀ id d, m !! id = Some d → ∃ d', deliveries s !! id = Some d' ∧ companyId d' = cid ∧
    (status d' = status d ∨ bulk_status dto = Some (status d')).

Lemma bulk_inv_keeps cid dto m s s' :
  keeps_rows s s' → bulk_inv cid dto m s → bulk_inv cid dto m s'.
Proof. unfold keeps_rows. intros E H id d Hd. rewrite E. by apply H. Qed.

Definition bulk_rel (cid : string) (dto : BulkActionDto) (m : gmap string Delivery)
    (s s' : Store) : Prop :=
  request_rel cid s s' ∧ (bulk_inv cid dto m s → bulk_inv cid dto m s').

#[export] Instance bulk_rel_preorder cid dto m : PreOrder (bulk_rel cid dto m).
Proof.
  split; [intros s; split; [reflexivity|done]|].
  intros s1 s2 s3 [A1 B1] [A2 B2]. split; [by etransitivity|auto].
Qed.

Lemma bulk_rel_of cid dto m {A} (f : M Store A) :
  footprint (request_rel cid) f → footprint keeps_rows f → footprint (bulk_rel cid dto m) f.
Proof.
  intros H1 H2 s. split; [apply H1|]. apply bulk_inv_keeps, H2.
Qed.

Lemma dispatchWebhook_keeps env cid id d st : footprint keeps_rows (dispatchWebhook env cid id d st).
Proof. unfold dispatchWebhook, webhooks_dispatch. footprint_auto. Qed.
Lemma webhooks_dispatch_keeps ev cid p : footprint keeps_rows (webhooks_dispatch ev cid p).
Proof. by intros s. Qed.
Lemma emitUpdate_keeps cid e a p : footprint keeps_rows (emitUpdate cid e a p).
Proof. by intros s. Qed.
Lemma findDriver_keeps cid v : footprint keeps_rows (findDriver cid v).
Proof. by intros s. Qed.
#[export] Hint Resolve dispatchWebhook_keeps webhooks_dispatch_keeps emitUpdate_keeps
  findDriver_keeps : footprint.

(** One write of the loop. *)
Lemma bulk_update_spec cid dto m id d f :
  m !! id = Some d →
  (∀ r, companyId (f r) = companyId r) →
  (∀ r, companyId r = cid → status r = status d ∨ bulk_status dto = Some (status r) →
    evolves cid r (f r) ∧ (status (f r) = status d ∨ bulk_status dto = Some (status (f r)))) →
  spec (bulk_inv cid dto m) (bulk_rel cid dto m) (updateDelivery id f) (λ _ _, True).
Proof.
  intros Hm Hcf Hf s HI. split; [|done]. unfold updateDelivery.
  destruct (HI _ _ Hm) as (r & Hr & Hc & Hst). rewrite Hr. simpl.
  destruct (Hf _ Hc Hst) as [He Hst'].
  split; [by eapply insert_request_rel|]. intros _ id' d' Hd'. simpl.
  destruct (decide (id' = id)) as [->|Hne].
  - rewrite lookup_insert_eq. simplify_eq. exists (f r). split_and!; [done|by rewrite Hcf|done].
  - rewrite lookup_insert_ne by done. by apply HI.
Qed.

Lemma spec_bulk_seq {A B} cid dto m (f : M Store A) (k : A → M Store B) P :
  spec P (bulk_rel cid dto m) f (λ _ _, True) →
  (∀ s, P s → bulk_inv cid dto m s) →
  (∀ a, spec (bulk_inv cid dto m) (bulk_rel cid dto m) (k a) (λ _ _, True)) →
  spec P (bulk_rel cid dto m) (f ≫= k) (λ _ _, True).
Proof.
  intros Hf HP Hk. eapply (spec_bind _ _ _ (λ _, bulk_inv cid dto m)); [|exact Hk].
  intros s Hs. destruct (Hf s Hs) as [H1 H2]. split; [done|].
  intros a s' E. rewrite E in H1. apply H1; auto.
Qed.
Lemma spec_bulk_frame {A} cid dto m (f : M Store A) P :
  footprint (request_rel cid) f → footprint keeps_rows f →
  spec P (bulk_rel cid dto m) f (λ _ _, True).
Proof. intros H1 H2. by apply spec_of_footprint, bulk_rel_of. Qed.

Ltac bulk_frame := apply spec_bulk_frame; footprint_auto.
Ltac bulk_seq := eapply spec_bulk_seq; [| |intros ?]; [|done|].

Lemma bulkOne_spec env cid dto m id :
  spec (bulk_inv cid dto m) (bulk_rel cid dto m) (bulkOne env cid dto id (m !! id))
    (λ _ _, True).
Proof.
  apply spec_try; [exact _| |intros s s' H1 H2; by apply H2|intros; bulk_frame].
  destruct (m !! id) as [d|] eqn:Hm; [|bulk_frame].
  case_bool_decide.
  { unfold bulkDelete. case_bool_decide; [bulk_frame|]. bulk_seq; [|bulk_frame].
    eapply bulk_update_spec; [done|done|]. intros r Hc Hst. split; [|done].
    apply benign_evolves; [by intros x|done]. }
  assert (HA : spec (bulk_inv cid dto m) (bulk_rel cid dto m)
    (if bool_decide (action dto = "assignDriver")
     then bulkAssign cid id d (bulk_driverId dto)
     else mret (Some ("Unknown action: " +:+ action dto))) (λ _ _, True)).
  { case_bool_decide; [|bulk_frame]. unfold bulkAssign.
    destruct (bulk_driverId dto); [|bulk_frame]. destruct (truthy _); [|bulk_frame].
    bulk_seq; [bulk_frame|]. destruct a; [|bulk_frame]. bulk_seq; [|bulk_frame].
    eapply bulk_update_spec; [done|done|]. intros r Hc Hst. split; [|done].
    split; try done. }
  destruct (bool_decide (action dto = "updateStatus")); [|done].
  destruct (bulk_status dto) as [t|] eqn:Et; [|done].
  clear HA. unfold bulkStatus. case_bool_decide as Ht; simpl; [|bulk_frame].
  bulk_seq; [bulk_frame|]. bulk_seq; [|bulk_frame].
  eapply bulk_update_spec; [done| |].
  { intros r. by case_bool_decide. }
  intros r Hc Hst. rewrite Et. split; [|right; by case_bool_decide].
  assert (Hr : status_reaches (status r) t).
  { destruct Hst as [->|Hst]; [by apply rtc_once|]. rewrite Et in Hst. simplify_eq. apply rtc_refl. }
  case_bool_decide; split; simpl; try done; unfold completed_dated; simpl; [by eauto|by intros].
Qed.

Lemma bulkLoop_spec env cid dto m todo : ∀ acc,
  spec (bulk_inv cid dto m) (bulk_rel cid dto m) (bulkLoop env cid dto m todo acc) (λ _ _, True).
Proof.
  induction todo as [|id rest IH]; intros acc; simpl; [by apply spec_ret; [exact _|]|].
  bulk_seq; [apply bulkOne_spec|apply IH].
Qed.

Lemma bulkSnapshot_lookup cid l t id d :
  bulkSnapshot cid l t !! id = Some d ↔
  t !! id = Some d ∧ id ∈ l ∧ companyId d = cid ∧ deletedAt d = None.
Proof. unfold bulkSnapshot. by rewrite map_lookup_filter_Some. Qed.

Lemma bulkAction_footprint env cid dto :
  footprint (request_rel cid) (bulkAction env cid dto).
Proof.
  intros s. unfold bulkAction. case_bool_decide; [simpl; reflexivity|].
  rewrite bind_run. unfold gets.
  apply (bulkLoop_spec env cid dto _ (ids dto)). intros id d Hd.
  apply bulkSnapshot_lookup in Hd as (Hd & _ & Hc & _). eauto.
Qed.

Lemma tourPoints_valid m l id p : (id, p) ∈ (tourPoints m l).2 → is_Some (m !! id) ∧ id ∈ l.
Proof.
  induction l as [|x l IH]; simpl; [by intros ?%elem_of_nil|].
  destruct (tourPoints m l) as [skipped valid] eqn:E. simpl in *.
  destruct (m !! x) as [d|] eqn:Hx; simpl.
  - unfold tourPoint. destruct (deliveryLat d), (deliveryLng d); simpl;
      rewrite ?elem_of_cons; intros H; destruct_or?; simplify_eq; eauto;
      destruct (IH H); split; auto; by right.
  - intros H. destruct (IH H). split; auto. by right.
Qed.

Lemma pickIds_Ok valid order s s' l :
  pickIds valid order s = (s', Ok l) →
  s' = s ∧ Forall2 (λ i id, fst <$> valid !! i = Some id) order l.
Proof.
  unfold pickIds. destruct (mapM _ order) as [l'|] eqn:E; [|done].
  intros H. unfold mret, M_ret in H. simplify_eq. split; [done|]. by apply mapM_Some.
Qed.

Lemma optimizeTour_footprint osrm cid l :
  footprint (request_rel cid) (optimizeTour osrm cid l).
Proof.
  unfold optimizeTour.
  eapply (footprint_of_spec _ _ (λ _ _, True)), (spec_bind _ _ _ (λ _ _, True));
    [by apply spec_ensure; [exact _|]|intros _].
  eapply (spec_bind _ _ _ (λ m s, m = bulkSnapshot cid l (deliveries s)));
    [by apply spec_gets; [exact _|]|intros m].
  destruct (tourPoints m l) as [skipped valid] eqn:Et.
  eapply (spec_bind _ _ _ (λ _ s, m = bulkSnapshot cid l (deliveries s)));
    [by apply spec_ensure; [exact _|]|intros _].
  destruct (osrm (map snd valid)) as [trip|]; [|by apply spec_throw; exact _].
  set (P := λ s, ∀ id, id ∈ valid.*1 → owned cid id s).
  assert (HP : ∀ s s', P s → request_rel cid s s' → P s')
    by (intros s s' H1 H2 id Hid; eapply owned_stable; eauto).
  apply (spec_pre _ _ P).
  { intros s -> id ([i p] & -> & Hin)%list_elem_of_fmap.
    replace valid with ((tourPoints (bulkSnapshot cid l (deliveries s)) l).2) in Hin by (by rewrite Et).
    apply tourPoints_valid in Hin as [[d Hd] _]. apply bulkSnapshot_lookup in Hd as (?&?&?&?).
    by exists d. }
  eapply (spec_bind _ _ _ (λ ord s, P s ∧ ord ⊆ valid.*1)); [|intros ord].
  { intros s Hs. split; [unfold pickIds; destruct (mapM _ _); simpl; reflexivity|].
    intros ord s' E. apply pickIds_Ok in E as [-> HF]. split; [done|].
    intros id Hid. apply list_elem_of_lookup in Hid as [k Hk].
    destruct (Forall2_lookup_r _ _ _ _ _ HF Hk) as (i & _ & Hi).
    apply fmap_Some in Hi as ([id' p] & Hv & ->). apply list_elem_of_lookup.
    exists i. by rewrite list_lookup_fmap, Hv. }
  eapply (spec_bind _ _ _ (λ _ _, True)); [|intros _; by apply spec_ret; [exact _|]].
  apply spec_transaction; [exact _|]. eapply spec_post; [|apply (spec_for_each _ (λ s, P s ∧ ord ⊆ valid.*1))]; [done|].
  intros [id n] Hin. eapply (spec_bind _ _ _ (λ _ s, P s ∧ ord ⊆ valid.*1));
    [|intros ?; by apply spec_ret; [exact _|]].
  assert (Hid : id ∈ ord).
  { unfold numbered in Hin. apply elem_of_lookup_imap in Hin as (i & x & [= -> _] & Hx).
    by eapply list_elem_of_lookup_2. }
  intros s [Hs Hsub].
  destruct (updateDelivery_benign cid id (λ r, r <| tourSequence := Some n |>)) with s as [H1 H2];
    [by intros r|by apply Hs, Hsub|].
  split; [done|]. intros a s' E. split; [|done]. eapply HP; [done|]. simpl in *. by rewrite E in H1.
Qed.

Lemma importUpdate_evolves cid raw l p d :
  companyId d = cid → evolves cid d (importUpdate raw l p d d).
Proof.
  intros Hc. unfold importUpdate, importFields, notStarted.
  destruct (status d) eqn:Es; simpl; split; simpl; try done; rewrite ?Es;
    try apply rtc_refl; unfold completed_dated; simpl; rewrite ?Es; try done.
  - apply (rtc_l _ _ assigned); [|apply rtc_once]; apply isValidTransition_spec; done.
  - apply rtc_once. by apply isValidTransition_spec.
Qed.

Lemma importRow_footprint cid p mode newId raw acc :
  footprint (request_rel cid) (importRow cid p mode newId raw acc).
Proof.
  unfold importRow. destruct (orderRef raw) as [ref|], (lieu raw) as [l|];
    [|footprint_auto..]. destruct (negb _); [footprint_auto|].
  destruct (negb _); [footprint_auto|].
  eapply (footprint_of_spec _ _ (λ _ _, True)),
    (spec_bind _ _ _ (λ e s, e = findByRef cid ref (deliveries s)));
    [by apply spec_gets; [exact _|]|intros e].
  destruct e as [[id e]|], mode;
    [apply spec_of_footprint; footprint_auto|
    |apply spec_of_footprint; footprint_auto; apply createDelivery_spec; done || apply rtc_refl..].
  apply (spec_bind (request_rel cid) _ _ (λ r _, companyId r = cid));
    [|intros ?; by apply spec_ret; [exact _|]].
  apply updateDelivery_spec. intros s d He Hd.
  symmetry in He. apply find_first_Some in He as [Hl Hc]. simplify_eq.
  apply bool_decide_eq_true in Hc as (Hc & _). split; [done|]. by apply importUpdate_evolves.
Qed.

Lemma importLoop_footprint cid p mode newIds rows : ∀ n acc,
  footprint (request_rel cid) (importLoop cid p mode newIds n rows acc).
Proof.
  induction rows as [|raw rows IH]; intros n acc; simpl; [footprint_auto|].
  footprint_step; [apply importRow_footprint|apply IH].
Qed.

(** ** Requests and their interleaving *)

Inductive request :=
  | RCreate (newId : string) (dto : DeliveryDto)
  | RUpdate (id : string) (dto : DeliveryDto)
  | RUpdateStatus (id : string) (dto : UpdateDeliveryStatusDto) (lang : Language)
  | RUpdateDriverStatus (id userId : string) (dto : UpdateDeliveryStatusDto) (lang : Language)
  | RResolveMismatch (id : string)
  | RRemove (id : string)
  | RBulkAction (dto : BulkActionDto)
  | ROptimizeTour (osrm : list (num * num) → result OsrmTrip) (l : list string)
  | RImport (isPdf : bool) (parsed : option (list RawImportRow)) (pickup : string)
      (mode : ImportMode) (newIds : nat → string).

Definition exec (env : Env) (cid : string) (r : request) (s : Store) : Store :=
  match r with
  | RCreate newId dto => (create env newId cid dto s).1
  | RUpdate id dto => (update env cid id dto s).1
  | RUpdateStatus id dto lang => (updateStatus env cid id dto lang s).1
  | RUpdateDriverStatus id u dto lang => (updateDriverStatus env cid id u dto lang s).1
  | RResolveMismatch id => (resolveMismatch cid id s).1
  | RRemove id => (remove env cid id s).1
  | RBulkAction dto => (bulkAction env cid dto s).1
  | ROptimizeTour osrm l => (optimizeTour osrm cid l s).1
  | RImport pdf parsed p mode ids => (importDeliveriesFile cid pdf parsed p mode ids s).1
  end.

(** A request of company [cid] runs alone, or a status change commits long
    after it has read its row ([d] is any row, however old). *)
Inductive step (cid : string) (s : Store) : Store → Prop :=
  | step_request env r : step cid s (exec env cid r s)
  | step_commit env id d dto lang :
      owned cid id s → step cid s (updateStatusFrom env cid id d dto lang s).1
  | step_driver_commit env id u d dto lang :
      owned cid id s → step cid s (updateDriverStatusFrom env cid id u d dto lang s).1.

Definition any_step (s s' : Store) : Prop := ∃ cid, step cid s s'.

Lemma exec_rel env cid r s : request_rel cid s (exec env cid r s).
Proof.
  destruct r; simpl.
  - apply create_footprint.
  - apply update_footprint.
  - apply updateStatus_footprint.
  - apply updateDriverStatus_footprint.
  - apply resolveMismatch_footprint.
  - apply remove_footprint.
  - apply bulkAction_footprint.
  - apply optimizeTour_footprint.
  - unfold importDeliveriesFile. destruct parsed as [[|]|];
      [by simpl|apply importLoop_footprint|by simpl].
Qed.

Lemma step_rel cid s s' : step cid s s' → request_rel cid s s'.
Proof.
  destruct 1; [apply exec_rel|by apply updateStatusFrom_spec|by apply updateDriverStatusFrom_spec].
Qed.
