(* ===== verification/DeliveriesProps.v ===== *)
(** * modules/deliveries: the properties of the life-cycle

    Safety of the status machine over any interleaving of requests, tenant
    isolation, the optimistic lock, the exact effects of a status change, the
    driver's rights and the proof of location. *)

From S2P Require Import Prelude JsNum Geo DeliveryModel Deliveries DeliveriesBatch DeliveriesFacts.

#[local] Open Scope string_scope.
#[local] Open Scope list_scope.
#[local] Open Scope Z_scope.

(** ** A concrete store for the witnesses *)

Definition demoDelivery : Delivery :=
  (newDelivery "c1" "Colis" "Depot" "Analakely" in_progress)
    <| driverId := Some "dr1" |> <| assignedDriverId := Some "u1" |>.
Definition demoStore : Store :=
  {| deliveries := {[ "d1" := demoDelivery;
                      "d2" := newDelivery "c2" "Autre" "Depot" "Ivato" assigned ]};
     vehicles := ∅;
     drivers := {[ "dr1" := mkDriverRow "c1" None "Rina" "Rakoto" (Some "u1") ]};
     gpsPositions := []; outbox := [] |}.
Definition demoEnv : Env :=
  {| now := 1000; jsMath := coarseMath; geocode := λ _, None;
     mismatchThresholdConfig := None; gpsProofWindow := None; gpsReadable := true;
     notificationFailure := None; fuelQueue := true |}.
Definition sdto (s : DeliveryStatus) : UpdateDeliveryStatusDto := mkStatusDto s None None None.

(** ** Life-cycle *)

Lemma steps_evolve s s' :
  rtc any_step s s' → ∀ id d, deliveries s !! id = Some d →
  ∃ d', deliveries s' !! id = Some d' ∧ companyId d' = companyId d ∧
    status_reaches (status d) (status d').
Proof.
  induction 1 as [s|s1 s2 s3 [cid H12] _ IH]; intros id d Hd.
  { exists d. split_and!; [done|done|apply rtc_refl]. }
  destruct (rr_old _ _ _ (step_rel _ _ _ H12) _ _ Hd) as (d2 & Hd2 & [A B _ _]).
  destruct (IH _ _ Hd2) as (d3 & Hd3 & C & D). exists d3.
  split_and!; [done|congruence|by etransitivity].
Qed.



(** In every store reached from one where it holds, a delivered delivery
    carries its completion time. *)
Theorem delivered_is_dated s s' :
  (∀ id d, deliveries s !! id = Some d → completed_dated d) →
  rtc any_step s s' →
  ∀ id d, deliveries s' !! id = Some d → status d = delivered → is_Some (completedAt d).
Proof.
  intros H0 H. induction H as [s|s1 s2 s3 [cid H12] _ IH]; [exact H0|]. apply IH.
  intros id d Hd. destruct (step_rel _ _ _ H12) as [O N _ _].
  destruct (deliveries s1 !! id) as [d1|] eqn:E.
  - destruct (O _ _ E) as (d' & Hd' & [_ _ C _]). simplify_eq. eauto.
  - by destruct (N _ _ E Hd) as (_ & _ & C).
Qed.

Lemma delivered_is_dated_witness :
  is_Some (completedAt (demoDelivery <| status := delivered |> <| completedAt := Some 1000 |>
             <| locationMismatch := true |>)).
Proof.
  apply (delivered_is_dated demoStore
    (exec demoEnv "c1" (RUpdateStatus "d1" (sdto delivered) fr) demoStore)) with "d1".
  - intros id d Hd Hs. exfalso. unfold demoStore in Hd. simpl in Hd.
    apply lookup_insert_Some in Hd as [[<- <-]|[_ Hd]]; [by vm_compute in Hs|].
    apply lookup_singleton_Some in Hd as [_ <-]. by vm_compute in Hs.
  - apply rtc_once. exists "c1". apply step_request.
  - vm_compute. reflexivity.
  - reflexivity.
Defined.

(** C2: a request of one company leaves the deliveries of every other company
    as they are, creates rows in its own company only, and every notification,
    webhook, broadcast and fuel job it sends names that company. *)
Theorem tenant_isolation cid s s' :
  step cid s s' →
  (∀ id d, deliveries s !! id = Some d → companyId d ≠ cid → deliveries s' !! id = Some d) ∧
  (∀ id d, deliveries s !! id = None → deliveries s' !! id = Some d → companyId d = cid) ∧
  (∃ l, outbox s' = outbox s ++ l ∧ Forall (λ e, effect_company e = cid) l).
Proof.
  intros H%step_rel. destruct H as [O N X _]. split_and!; [|by intros; edestruct N|done].
  intros id d Hd Hc. destruct (O _ _ Hd) as (d' & Hd' & [_ _ _ E]). by rewrite <- (E Hc).
Qed.

Lemma tenant_isolation_witness :
  deliveries (exec demoEnv "c1" (RUpdateStatus "d1" (sdto delivered) fr) demoStore) !! "d2"
  = Some (newDelivery "c2" "Autre" "Depot" "Ivato" assigned).
Proof.
  apply (tenant_isolation "c1" demoStore); [apply step_request|reflexivity|done].
Defined.

(** ** The optimistic lock *)

(** What the verification of a location may write: coordinates only. *)
Definition quiet (s s' : Store) : Prop :=
  outbox s' = outbox s ∧ drivers s' = drivers s ∧
  ∀ id, status <$> deliveries s' !! id = status <$> deliveries s !! id.
#[export] Instance quiet_preorder : PreOrder quiet.
Proof.
  split; [by intros s|]. intros s1 s2 s3 (A1 & B1 & C1) (A2 & B2 & C2).
  split_and!; [congruence..|]. intros id. by rewrite C2.
Qed.

Lemma verify_Ok env id d dto s :
  ∃ s' r, verifyDeliveryLocation env id d dto s = (s', Ok r) ∧ quiet s s'.
Proof.
  assert (HD : ∃ s' r, proofDestination env id d s = (s', Ok r) ∧ quiet s s').
  { unfold proofDestination.
    repeat match goal with
           | |- ∃ _ _, (match ?x with _ => _ end) _ = _ ∧ _ => destruct x
           end; try (by eexists _, _; split; [reflexivity|]).
    rewrite bind_run. unfold try_catch, updateDelivery.
    rewrite bind_run. destruct (deliveries s !! id) as [r|] eqn:E; simpl;
      (eexists _, _; split; [reflexivity|]); [|done].
    split_and!; [done..|]. intros id'. simpl.
    destruct (decide (id' = id)) as [->|Hne];
      [by rewrite lookup_insert_eq, E|by rewrite lookup_insert_ne]. }
  unfold verifyDeliveryLocation.
  destruct (negb _); [by eexists _, _; split; [reflexivity|]|].
  destruct (sdto_latitude dto); [|by eexists _, _; split; [reflexivity|]].
  destruct (sdto_longitude dto); [|by eexists _, _; split; [reflexivity|]].
  destruct HD as (s' & dest & E & Q). cbv zeta. rewrite bind_run, E. rewrite bind_run.
  unfold gpsCrossCheck. destruct (gpsReadable env); cbn [mret M_ret];
    [rewrite bind_run; unfold gets; destruct (lastGpsFix _ _ _); cbn [mret M_ret]|];
    unfold mret, M_ret;
    match goal with |- context [if ?b then _ else _] => destruct b end;
    eexists _, _; split; try reflexivity; exact Q.
Qed.

Lemma locked_update_stale id st f s :
  status <$> deliveries s !! id ≠ Some st →
  updateWithOptimisticLock id st f s = (s, Throw (BadRequestException msg_lock)).
Proof.
  intros H. unfold updateWithOptimisticLock, try_catch, updateDeliveryWhereStatus.
  destruct (deliveries s !! id) as [r|]; [|done].
  rewrite bool_decide_eq_false_2; [done|]. intros E. apply H. simpl. by rewrite E.
Qed.

Lemma commit_stale env cid id d dto lang notified s :
  status <$> deliveries s !! id ≠ Some (status d) →
  ∃ s', commitStatus env cid id d dto lang notified s
        = (s', Throw (BadRequestException msg_lock)) ∧ quiet s s'.
Proof.
  intros H. unfold commitStatus. rewrite bind_run.
  destruct (verify_Ok env id d dto s) as (s' & pm & -> & Q).
  exists s'. split; [|done]. rewrite bind_run, locked_update_stale; [done|].
  destruct Q as (_ & _ & Q). by rewrite Q.
Qed.

(** A commit that returns has moved the row from the status it read. *)
Lemma commit_moves env cid id d dto lang notified s s' u :
  commitStatus env cid id d dto lang notified s = (s', Ok u) →
  ∃ r, deliveries s' !! id = Some r ∧ status r = sdto_status dto.
Proof.
  intros H. unfold commitStatus in H.
  apply bind_Ok in H as (s1 & pm & _ & H). apply bind_Ok in H as (s2 & up & H2 & H).
  set (rest := _ ≫= _) in H.
  assert (K : footprint keeps_rows rest).
  { subst rest. unfold notifications_create. footprint_auto. }
  specialize (K s2). fold rest in H. rewrite H in K. unfold keeps_rows in K. simpl in K.
  rewrite K. unfold updateWithOptimisticLock, try_catch, updateDeliveryWhereStatus in H2.
  destruct (deliveries s1 !! id) as [r|]; [|done]. case_bool_decide; [|done].
  simplify_eq. simpl. rewrite lookup_insert_eq. eexists. split; [done|].
  unfold statusUpdate. by case_bool_decide.
Qed.

Lemma status_moved_on d d1 d2 :
  transition (status d) (status d1) → status_reaches (status d1) (status d2) →
  status d2 ≠ status d.
Proof.
  intros H1 H2. apply transition_rank in H1.
  assert (rank (status d1) ≤ rank (status d2)).
  { revert H2. generalize (status d1) (status d2). induction 1; [lia|].
    apply transition_rank in H. lia. }
  intros E. rewrite E in *. lia.
Qed.

(** C3: the optimistic lock.  Once a status change that read the row [d] has
    succeeded, any other status change that read the same [d], however it
    interleaves with later requests, is refused, changes no status and sends
    nothing. *)
Theorem lost_race_is_refused env env' cid id d dto dto' lang lang' s s1 u s2 :
  updateStatusFrom env cid id d dto lang s = (s1, Ok u) →
  rtc any_step s1 s2 →
  ∃ s3 msg, updateStatusFrom env' cid id d dto' lang' s2 = (s3, Throw (BadRequestException msg)) ∧
    outbox s3 = outbox s2 ∧
    ∀ id', status <$> deliveries s3 !! id' = status <$> deliveries s2 !! id'.
Proof.
  intros H Hst. unfold updateStatusFrom in H.
  apply bind_Ok in H as (s0 & [] & Hc & H). apply ensure_Ok in Hc as (Hc & -> & _).
  apply bool_decide_eq_true in Hc.
  apply commit_moves in H as (r1 & Hr1 & Es).
  destruct (steps_evolve _ _ Hst _ _ Hr1) as (r2 & Hr2 & _ & Hreach).
  assert (Hne : status <$> deliveries s2 !! id ≠ Some (status d)).
  { rewrite Hr2. simpl. intros [= E]. eapply status_moved_on; [|exact Hreach|exact E].
    by rewrite Es. }
  unfold updateStatusFrom, ensure. case_bool_decide.
  - rewrite bind_run. destruct (commit_stale env' cid id d dto' lang' assignedDriverId s2 Hne)
      as (s3 & E & Qo & _ & Qs).
    eexists _, _. unfold mret, M_ret. rewrite E. split_and!; [reflexivity|done|done].
  - eexists _, _. split_and!; [reflexivity|done|done].
Qed.

Lemma lost_race_is_refused_witness :
  ∃ s1, (∃ u, updateStatusFrom demoEnv "c1" "d1" demoDelivery (sdto delivered) fr demoStore
              = (s1, Ok u)) ∧
  ∃ s3 msg, updateStatusFrom demoEnv "c1" "d1" demoDelivery (sdto cancelled) fr s1
            = (s3, Throw (BadRequestException msg)) ∧ outbox s3 = outbox s1 ∧
    ∀ id', status <$> deliveries s3 !! id' = status <$> deliveries s1 !! id'.
Proof.
  eexists. split; [eexists; vm_compute; reflexivity|].
  eapply (lost_race_is_refused demoEnv demoEnv "c1" "d1" demoDelivery (sdto delivered)
    (sdto cancelled) fr fr demoStore); [vm_compute; reflexivity|apply rtc_refl].
Defined.

(** PATCH writes with the status of a row read before it, without the lock: a
    PATCH that overlaps a completion takes a delivered delivery back to
    cancelled. *)
Lemma patch_has_no_lock :
  let s1 := (updateStatus demoEnv "c1" "d1" (sdto delivered) fr demoStore).1 in
  let s2 := (updateFrom demoEnv "c1" "d1" demoDelivery
               (emptyDto <| dto_status := Some cancelled |>) s1).1 in
  status <$> deliveries s1 !! "d1" = Some delivered ∧
  status <$> deliveries s2 !! "d1" = Some cancelled.
Proof. split; vm_compute; reflexivity. Qed.

(** ** The effects of a status change *)

Definition fuelEffect (env : Env) (cid : string) (d : Delivery) (s : DeliveryStatus) : list Effect :=
  match driverId d with
  | Some dr =>
      if isFuelReportTriggerStatus s && (truthy (driverId d) && fuelQueue env)
      then [EFuelJob cid dr (now env) (Some s)] else []
  | None => []
  end.

Definition statusEffects (env : Env) (cid id : string) (st : Store) (d u : Delivery)
    (s : DeliveryStatus) (mm : DeliveryMismatchInfo) (lang : Language) (to : option string)
    : list Effect :=
  fuelEffect env cid d s ++
  [ENotification cid (buildDeliveryStatusNotification id (title u) s mm lang to);
   EWebhook "delivery.status_changed" cid
     [("deliveryId", JStr id); ("companyId", JStr cid); ("title", JStr (title u));
      ("status", JStr (status_string s)); ("pickupAddress", JStr (pickupAddress u));
      ("deliveryAddress", JStr (deliveryAddress u)); ("driverName", driverName st u)]] ++
  (if bool_decide (s = delivered) then
     [EWebhook "delivery.delivered" cid
       [("deliveryId", JStr id); ("companyId", JStr cid); ("title", JStr (title u));
        ("completedAt", JTime (now env)); ("deliveryAddress", JStr (deliveryAddress u))]]
   else []) ++
  [EDataUpdate cid "delivery" (status_string s) [("id", JStr id)]].

Lemma outbox_nil s : s <| outbox ::= λ l, l ++ [] |> = s.
Proof. destruct s. unfold set. simpl. by rewrite app_nil_r. Qed.

Lemma fuel_run env cid d t st :
  (if isFuelReportTriggerStatus t
   then dispatchDailyFuelReportRecompute env cid (driverId d) (Some t) else mret tt) st =
  (st <| outbox ::= λ l, l ++ fuelEffect env cid d t |>, Ok tt).
Proof.
  unfold fuelEffect, dispatchDailyFuelReportRecompute, mret, M_ret, emit, modify.
  destruct (isFuelReportTriggerStatus t), (driverId d); simpl; rewrite ?outbox_nil; try done.
  match goal with |- context [if ?b then _ else _] => destruct b end; by rewrite ?outbox_nil.
Qed.

Lemma commitStatus_run env cid id d dto lang notified s sv pf mm r :
  verifyDeliveryLocation env id d dto s = (sv, Ok (pf, mm)) →
  deliveries sv !! id = Some r → status r = status d → notificationFailure env = None →
  let u := statusUpdate env pf (sdto_status dto) r in
  commitStatus env cid id d dto lang notified s =
    (sv <| deliveries ::= <[id := u]> |>
        <| outbox ::= λ l, l ++ statusEffects env cid id sv d u (sdto_status dto) mm lang (notified u) |>,
     Ok u).
Proof.
  intros Hv Hr Hs Hn u. unfold commitStatus. rewrite bind_run, Hv. rewrite bind_run.
  unfold updateWithOptimisticLock, try_catch, updateDeliveryWhereStatus.
  rewrite Hr, bool_decide_eq_true_2 by done. simpl fst.
  rewrite bind_run, fuel_run. unfold notifications_create. rewrite Hn.
  rewrite bind_run. unfold emit at 1, modify at 1. rewrite bind_run.
  unfold dispatchWebhook, statusEffects. subst u. set (u := statusUpdate _ _ _ _).
  destruct sv as [dl ve dr gp ob]. simpl.
  unfold webhooks_dispatch, emitUpdate, emit, modify, gets, mret, M_ret. simpl.
  case_bool_decide; simpl; unfold set, mbind, M_bind; simpl; rewrite <- ?app_assoc; reflexivity.
Qed.

(** A dispatcher's status change along the matrix succeeds, writes the
    status (with the completion time of a delivered one) and the proof on the
    row and on no other, and sends exactly one notification, one
    status_changed webhook, one delivered webhook when delivered, one
    broadcast, and one fuel job when the driver has been on the road. *)
Theorem updateStatus_effects env cid id dto lang s d :
  deliveries s !! id = Some d → companyId d = cid → deletedAt d = None →
  transition (status d) (sdto_status dto) → notificationFailure env = None →
  ∃ sv pf mm r, verifyDeliveryLocation env id d dto s = (sv, Ok (pf, mm)) ∧
    deliveries sv !! id = Some r ∧ status r = status d ∧ outbox sv = outbox s ∧
    let u := statusUpdate env pf (sdto_status dto) r in
    updateStatus env cid id dto lang s =
      (sv <| deliveries ::= <[id := u]> |>
          <| outbox ::= λ l, l ++ statusEffects env cid id sv d u (sdto_status dto) mm lang
                                    (assignedDriverId u) |>,
       Ok u).
Proof.
  intros Hd Hc Hdel Ht Hn.
  destruct (verify_Ok env id d dto s) as (sv & [pf mm] & Hv & Qo & _ & Qs).
  specialize (Qs id). rewrite Hd in Qs. simpl in Qs.
  apply fmap_Some in Qs as (r & Hr & Hs). exists sv, pf, mm, r. split_and!; try done.
  unfold updateStatus, findOne, findOneAs. rewrite bind_run, Hd.
  rewrite bool_decide_eq_true_2 by done. simpl.
  unfold updateStatusFrom, ensure. rewrite bool_decide_eq_true_2 by exact Ht.
  by apply commitStatus_run.
Qed.

Lemma updateStatus_effects_witness :
  ∃ sv pf mm r, verifyDeliveryLocation demoEnv "d1" demoDelivery (sdto failed) demoStore
                = (sv, Ok (pf, mm)) ∧
    deliveries sv !! "d1" = Some r ∧ status r = in_progress ∧ outbox sv = [] ∧
    let u := statusUpdate demoEnv pf failed r in
    updateStatus demoEnv "c1" "d1" (sdto failed) fr demoStore =
      (sv <| deliveries ::= <["d1" := u]> |>
          <| outbox ::= λ l, l ++ statusEffects demoEnv "c1" "d1" sv demoDelivery u failed mm fr
                                    (assignedDriverId u) |>,
       Ok u).
Proof.
  apply (updateStatus_effects demoEnv "c1" "d1" (sdto failed) fr demoStore demoDelivery);
    try reflexivity.
  apply isValidTransition_spec. reflexivity.
Defined.

(** A driver changes the status of a delivery only when it is assigned to
    them and only to in_progress, delivered or failed along the matrix: every
    other call is refused and leaves the store as it was. *)
Theorem updateDriverStatus_authorised env cid id userId dto lang s :
  (∃ d, deliveries s !! id = Some d ∧ companyId d = cid ∧ deletedAt d = None ∧
     assignedDriverId d = Some userId ∧ transition (status d) (sdto_status dto) ∧
     sdto_status dto ∈ [in_progress; delivered; failed]) ∨
  ∃ e, updateDriverStatus env cid id userId dto lang s = (s, Throw e).
Proof.
  unfold updateDriverStatus, findOne, findOneAs. rewrite bind_run.
  destruct (deliveries s !! id) as [d|]; [|eauto].
  case_bool_decide as Hd; simpl; [|eauto]. destruct Hd as [Hc Hdel].
  unfold updateDriverStatusFrom, ensure.
  destruct (bool_decide (assignedDriverId d = Some userId)) eqn:Ha;
    [apply bool_decide_eq_true in Ha|right; eexists; reflexivity].
  case_bool_decide as Ht; [|right; eexists; reflexivity]. left. exists d. apply list_elem_of_filter in Ht as [Hs Ht]. split_and!; auto.
  rewrite !elem_of_cons. tauto.
Qed.

(** ** The proof of location *)

(** The coordinates a proof is compared with. *)
Definition destination (env : Env) (d : Delivery) : option (num * num) :=
  match deliveryLat d, deliveryLng d with
  | Some lat, Some lng => Some (lat, lng)
  | None, None =>
      if bool_decide (deliveryAddress d = EmptyString) then None
      else geocodeFirst env (deliveryAddress d)
  | _, _ => None
  end.

(** A distance, in metres, beyond the threshold. *)
Definition exceeds (env : Env) (lat lng : num) (p : option (num * num)) : bool :=
  match p with
  | Some (plat, plng) =>
      num_ltb (mismatchThreshold env) (Math_round (haversine env lat lng plat plng))
  | None => false
  end.

Definition lastFix (env : Env) (id : string) (s : Store) : option (num * num) :=
  if gpsReadable env then
    (λ g, (gps_latitude g, gps_longitude g)) <$>
      lastGpsFix id (now env - proofWindowMin env * 60 * 1000) (gpsPositions s)
  else None.

Lemma proofDestination_run env id d s :
  ∃ s' dest, proofDestination env id d s = (s', Ok dest) ∧ gpsPositions s' = gpsPositions s ∧
    destination env d = match dest with (Some a, Some b) => Some (a, b) | _ => None end.
Proof.
  unfold proofDestination, destination.
  destruct (deliveryLat d), (deliveryLng d); try (by eexists _, _; split_and!; [reflexivity|..]).
  case_bool_decide; simpl; [by eexists _, _; split_and!; [reflexivity|..]|].
  destruct (geocodeFirst env (deliveryAddress d)) as [[lat lng]|];
    [|by eexists _, _; split_and!; [reflexivity|..]].
  rewrite bind_run. unfold try_catch, updateDelivery. rewrite bind_run.
  destruct (deliveries s !! id); by eexists _, _; split_and!; [reflexivity|..].
Qed.

(** The anti-fraud check.  A completion (delivered or failed) is flagged
    exactly when it carries no coordinates, or lies farther than the threshold
    from the destination, or from the last reliable GPS fix of the delivery
    within the window; the flag reopens the review, and other status changes
    carry no proof.  The verification itself never fails. *)
Theorem verifyDeliveryLocation_flags env id d dto s
    (flagged := match sdto_latitude dto, sdto_longitude dto with
                | Some lat, Some lng =>
                    exceeds env lat lng (destination env d) || exceeds env lat lng (lastFix env id s)
                | _, _ => true
                end) :
  num_ltb (mismatchThreshold env) (num_of_Z 0) = false →
  ∃ s' pf mm, verifyDeliveryLocation env id d dto s = (s', Ok (pf, mm)) ∧
    if isFuelReportTriggerStatus (sdto_status dto)
    then mismatched mm = flagged ∧ pf_mismatch pf = Some flagged ∧ pf_resolved pf = Some false
    else mismatched mm = false ∧ pf = emptyProof.
Proof.
  intros Hz. unfold verifyDeliveryLocation.
  destruct (isFuelReportTriggerStatus (sdto_status dto)); simpl;
    [|by eexists _, _, _; split_and!; [reflexivity|..]].
  subst flagged. destruct (sdto_latitude dto) as [lat|];
    [|by eexists _, _, _; split_and!; [reflexivity|..]].
  destruct (sdto_longitude dto) as [lng|]; [|by eexists _, _, _; split_and!; [reflexivity|..]].
  destruct (proofDestination_run env id d s) as (s' & dest & E & Hg & Hdest).
  rewrite bind_run, E, bind_run.
  assert (Hx : num_ltb (mismatchThreshold env)
      (match dest with
       | (Some dlat, Some dlng) => Math_round (haversine env lat lng dlat dlng)
       | _ => num_of_Z 0
       end) = exceeds env lat lng (destination env d))
    by (rewrite Hdest; by destruct dest as [[?|] [?|]]).
  assert (HG : ∃ g, gpsCrossCheck env id lat lng s' = (s', Ok g) ∧
      exceeds env lat lng (lastFix env id s) = bool_decide (is_Some g)).
  { unfold gpsCrossCheck, lastFix. destruct (gpsReadable env);
      [|by eexists; split; [reflexivity|]].
    rewrite bind_run. unfold gets. rewrite Hg.
    destruct (lastGpsFix _ _ _) as [g|]; simpl; [|by eexists; split; [reflexivity|]].
    match goal with |- context [num_ltb ?a ?b] => destruct (num_ltb a b) end;
      by eexists; split; [reflexivity|]. }
  destruct HG as (g & -> & HG). destruct g as [gd|]; cbv beta iota.
  - rewrite HG, orb_true_r. by eexists _, _, _; split_and!; [reflexivity|..].
  - rewrite Hx, HG, orb_false_r. destruct (exceeds env lat lng (destination env d));
      by eexists _, _, _; split_and!; [reflexivity|..].
Qed.

Lemma verifyDeliveryLocation_flags_witness :
  ∃ s' pf mm, verifyDeliveryLocation demoEnv "d1" demoDelivery (sdto delivered) demoStore
              = (s', Ok (pf, mm)) ∧
    mismatched mm = true ∧ pf_mismatch pf = Some true ∧ pf_resolved pf = Some false.
Proof.
  apply (verifyDeliveryLocation_flags demoEnv "d1" demoDelivery (sdto delivered) demoStore).
  vm_compute. reflexivity.
Defined.
