(* ===== verification/DeliveriesBatchProps.v ===== *)
(** * modules/deliveries: the properties of the batches

    Accounting of bulk actions and imports, what an import may change, the
    atomicity and numbering of an optimised tour, and the amounts read from a
    file. *)

From S2P Require Import Prelude JsString JsNum DeliveryModel Deliveries DeliveriesBatch.
From S2P Require Import DeliveriesFacts DeliveriesProps.

#[local] Open Scope string_scope.
#[local] Open Scope list_scope.
#[local] Open Scope Z_scope.

(** ** bulkAction *)

Lemma bulkOne_Ok env cid dto id d s : ∃ s' r, bulkOne env cid dto id d s = (s', Ok r).
Proof.
  unfold bulkOne, try_catch. match goal with |- context [match ?m s with _ => _ end] =>
    destruct (m s) as [s' [r|e]] end; [eauto|]. eexists _, _. reflexivity.
Qed.

Definition bulkIds (r : BulkResult) : list string := succeeded r ++ (bulk_failed r).*1.

Lemma bulkLoop_accounts env cid dto m todo : ∀ acc s,
  ∃ s' r, bulkLoop env cid dto m todo acc s = (s', Ok r) ∧ bulkIds r ≡ₚ bulkIds acc ++ todo.
Proof.
  induction todo as [|id rest IH]; intros acc s; simpl.
  { eexists _, _. split; [reflexivity|]. by rewrite app_nil_r. }
  rewrite bind_run. destruct (bulkOne_Ok env cid dto id (m !! id) s) as (s1 & r & ->).
  match goal with |- context [bulkLoop _ _ _ _ _ ?a s1] => destruct (IH a s1) as (s2 & r2 & E & HP) end.
  exists s2, r2. split; [done|]. rewrite HP. unfold bulkIds.
  destruct r; simpl; unfold set; simpl; rewrite ?fmap_app; simpl; solve_Permutation.
Qed.

(** Writing the status [t] keeps the rows that already have it. *)
Definition keeps_status (t : DeliveryStatus) (s s' : Store) : Prop :=
  ∀ id, status <$> deliveries s !! id = Some t → status <$> deliveries s' !! id = Some t.
#[export] Instance keeps_status_preorder t : PreOrder (keeps_status t).
Proof. split; [by intros s id|]. intros s1 s2 s3 H1 H2 id H. by apply H2, H1. Qed.

Lemma bulkStatus_run env cid id d t s :
  ∃ s' r, bulkOne env cid (mkBulk [] "updateStatus" (Some t) None) id (Some d) s = (s', Ok r) ∧
    keeps_status t s s' ∧
    (r = None → transition (status d) t ∧ status <$> deliveries s' !! id = Some t).
Proof.
  unfold bulkOne, bulkStatus, try_catch. simpl.
  case_bool_decide as Ht; simpl; [|by eexists _, _; split_and!; [reflexivity|..]].
  rewrite bind_run, fuel_run, bind_run. unfold updateDelivery. simpl.
  destruct (deliveries s !! id) as [r|] eqn:E.
  2: { eexists _, _. split_and!; [reflexivity|by intros id'|done]. }
  eexists _, _. split; [reflexivity|].
  assert (Hst : ∀ x, status (if bool_decide (t = delivered)
    then x <| status := t |> <| completedAt := Some (now env) |> else x <| status := t |>) = t)
    by (intros x; by case_bool_decide).
  split; [|intros _; split; [done|]; simpl; rewrite lookup_insert_eq; simpl; by rewrite Hst].
  intros id' H'. simpl. destruct (decide (id' = id)) as [->|Hne].
  - rewrite lookup_insert_eq. simpl. by rewrite Hst.
  - by rewrite lookup_insert_ne.
Qed.

Lemma bulkOne_status_same env cid dto id d :
  action dto = "updateStatus" →
  bulkOne env cid dto id d = bulkOne env cid (mkBulk [] "updateStatus" (bulk_status dto) None) id d ∨
  bulk_status dto = None.
Proof. intros H. destruct (bulk_status dto) eqn:E; [left|by right]. unfold bulkOne. by rewrite H, E. Qed.

Lemma bulkLoop_status env cid dto t m todo : ∀ acc s s' r,
  action dto = "updateStatus" → bulk_status dto = Some t →
  bulkLoop env cid dto m todo acc s = (s', Ok r) →
  (∀ id, id ∈ succeeded acc → status <$> deliveries s !! id = Some t) →
  ∀ id, id ∈ succeeded r → status <$> deliveries s' !! id = Some t ∧
    (id ∈ succeeded acc ∨ ∃ d, m !! id = Some d ∧ transition (status d) t).
Proof.
  induction todo as [|id0 rest IH]; intros acc s s' r Ha Hb H Hacc id Hid; simpl in H.
  { unfold mret, M_ret in H. simplify_eq. auto. }
  rewrite bind_run in H. destruct (m !! id0) as [d|] eqn:Em.
  - destruct (bulkOne_status_same env cid dto id0 (Some d) Ha) as [E|E]; [|congruence].
    rewrite E, Hb in H. destruct (bulkStatus_run env cid id0 d t s) as (s1 & r1 & E1 & K & HN).
    rewrite E1 in H. destruct r1 as [reason|]; simpl in H.
    + apply (IH _ _ _ _ Ha Hb H); [|done]. simpl. intros x Hx. by apply K, Hacc.
    + destruct (HN eq_refl) as [Ht Hs].
      destruct (IH _ _ _ _ Ha Hb H) with id as [F [G|G]]; [|done|split; [done|]|auto].
      * simpl. unfold set. simpl. intros x [Hx|Hx]%elem_of_app; [by apply K, Hacc|].
        apply list_elem_of_singleton in Hx as ->. done.
      * simpl in G. unfold set in G. simpl in G. apply elem_of_app in G as [G|G]; [auto|].
        apply list_elem_of_singleton in G as ->. eauto.
  - assert (E1 : bulkOne env cid dto id0 None s = (s, Ok (Some "Delivery not found"))) by done.
    rewrite E1 in H. apply (IH _ _ _ _ Ha Hb H); [|done]. done.
Qed.

(** A bulk action always returns; every requested id is reported once, as
    succeeded or failed; and after an updateStatus each succeeded delivery of
    the company has the requested status, reached by a transition of the
    matrix from the status it had at the start. *)
Theorem bulkAction_accounting env cid dto s :
  ∃ s' r, bulkAction env cid dto s = (s', Ok r) ∧
    succeeded r ++ (bulk_failed r).*1 ≡ₚ ids dto ∧
    ∀ t, action dto = "updateStatus" → bulk_status dto = Some t → ∀ id, id ∈ succeeded r →
      status <$> deliveries s' !! id = Some t ∧
      ∃ d, deliveries s !! id = Some d ∧ companyId d = cid ∧ transition (status d) t.
Proof.
  unfold bulkAction. case_bool_decide as He.
  { eexists _, _. split; [reflexivity|]. rewrite He. split; [done|].
    intros t _ _ id Hid. by apply elem_of_nil in Hid. }
  rewrite bind_run. unfold gets.
  set (m := bulkSnapshot cid (ids dto) (deliveries s)).
  destruct (bulkLoop_accounts env cid dto m (ids dto) (mkBulkResult [] []) s) as (s' & r & E & HP).
  exists s', r. split; [done|]. split; [done|]. intros t Ha Hb id Hid.
  destruct (bulkLoop_status env cid dto t m _ _ _ _ _ Ha Hb E) with id as [F [G|(d & Hd & Ht)]];
    [by intros x ?%elem_of_nil|done|by apply elem_of_nil in G|].
  split; [done|]. apply bulkSnapshot_lookup in Hd as (? & _ & ? & _). eauto.
Qed.

(** ** optimizeTour *)

Lemma waypointOrder_perm w : waypointOrder w ≡ₚ seq 0 (length w).
Proof.
  unfold waypointOrder. rewrite merge_sort_Permutation, fst_zip; [done|].
  by rewrite length_seq.
Qed.

Lemma tourPoints_perm m l :
  (tourPoints m l).1.*1 ++ (tourPoints m l).2.*1 ≡ₚ l.
Proof.
  induction l as [|id l IH]; simpl; [done|].
  destruct (tourPoints m l) as [skipped valid]. simpl in IH.
  destruct (tourPoint (m !! id)); simpl; by rewrite <- ?Permutation_middle, IH.
Qed.

Lemma pickIds_perm valid order s s' l :
  order ≡ₚ seq 0 (length valid) → pickIds valid order s = (s', Ok l) → l ≡ₚ valid.*1.
Proof.
  intros Hp [_ HF]%pickIds_Ok.
  assert (Hl : l = (λ i, nth i valid.*1 EmptyString) <$> order).
  { clear Hp. induction HF as [|i id order l Hi _ IH]; simpl; [done|]. f_equal; [|done].
    apply fmap_Some in Hi as ([x p] & Hx & ->). symmetry. apply nth_lookup_Some.
    by rewrite list_lookup_fmap, Hx. }
  rewrite Hl, Hp. clear. rewrite <- (length_fmap fst valid). generalize (valid.*1) as v.
  induction v as [|x v IH]; simpl; [done|].
  rewrite <- fmap_S_seq, <- list_fmap_compose. unfold compose. simpl. by rewrite IH.
Qed.

Definition writeTour (l : list (string * Z)) : M Store unit :=
  for_each (λ p, updateDelivery p.1 (λ r, r <| tourSequence := Some p.2 |>) ;; mret tt) l.

Lemma writeTour_sets l : ∀ s s', NoDup l.*1 → writeTour l s = (s', Ok tt) →
  (∀ id n, (id, n) ∈ l → tourSequence <$> deliveries s' !! id = Some (Some n)) ∧
  (∀ id, id ∉ l.*1 → deliveries s' !! id = deliveries s !! id).
Proof.
  induction l as [|[id n] l IH]; intros s s' HN H.
  { unfold writeTour in H. simpl in H. unfold mret, M_ret in H. simplify_eq.
    split; [by intros ?? ?%elem_of_nil|done]. }
  apply NoDup_cons in HN as [Hnot HN]. unfold writeTour in H. simpl in H.
  apply bind_Ok in H as (s1 & [] & H1 & H). fold (writeTour l) in H.
  apply bind_Ok in H1 as (s2 & d' & H1 & H2). unfold updateDelivery in H1.
  destruct (deliveries s !! id) as [d|] eqn:Ed; [|done].
  unfold mret, M_ret in H2. simplify_eq.
  destruct (IH _ _ HN H) as [A B]. split.
  - intros id' n' [Hx|Hx]%elem_of_cons; [|by apply A]. simplify_eq.
    rewrite (B id) by done. simpl. by rewrite lookup_insert_eq.
  - intros id' Hn. rewrite fmap_cons, not_elem_of_cons in Hn. destruct Hn as [Hne Hn].
    rewrite B by done. simpl. by rewrite lookup_insert_ne.
Qed.

Lemma numbered_fst l : (numbered l).*1 = l.
Proof.
  unfold numbered. rewrite fmap_imap. unfold compose. simpl.
  induction l as [|x l IH] using rev_ind; [done|]. rewrite imap_app, IH. done.
Qed.

(** An optimised tour.  Given one waypoint per point sent to OSRM, a
    successful call visits each requested delivery once (ordered or reported
    as skipped), numbers the ordered ones 1, 2, 3, ... and stores exactly
    these numbers; a failing call stores nothing. *)
Theorem optimizeTour_sound osrm cid l s :
  (∀ pts trip, osrm pts = Ok trip → length (waypoints trip) = length pts) → NoDup l →
  match optimizeTour osrm cid l s with
  | (s', Ok r) =>
      (tour_order r).*1 ++ (tour_skipped r).*1 ≡ₚ l ∧
      (tour_order r).*2 = seqZ 1 (Z.of_nat (length (tour_order r))) ∧
      (∀ id n, (id, n) ∈ tour_order r → tourSequence <$> deliveries s' !! id = Some (Some n)) ∧
      (∀ id, id ∉ (tour_order r).*1 → deliveries s' !! id = deliveries s !! id)
  | (s', Throw _) => s' = s
  end.
Proof.
  intros Hosrm HN. unfold optimizeTour. rewrite bind_run. unfold ensure at 1.
  case_bool_decide; [|done]. unfold mret at 1, M_ret at 1. rewrite bind_run. unfold gets.
  set (m := bulkSnapshot _ _ _). pose proof (tourPoints_perm m l) as HP.
  destruct (tourPoints m l) as [skipped valid]. simpl in HP.
  rewrite bind_run. unfold ensure. case_bool_decide; [|done]. unfold mret at 1, M_ret at 1.
  destruct (osrm (map snd valid)) as [trip|] eqn:Eo; [|done].
  assert (Hw : waypointOrder (waypoints trip) ≡ₚ seq 0 (length valid)).
  { rewrite waypointOrder_perm, (Hosrm _ _ Eo), length_map. done. }
  rewrite bind_run.
  destruct (pickIds valid (waypointOrder (waypoints trip)) s) as [s1 [ids|e]] eqn:Ep;
    [|unfold pickIds, mret, M_ret, throw in Ep; destruct (mapM _ _); by simplify_eq].
  pose proof (pickIds_perm _ _ _ _ _ Hw Ep) as Hids. apply pickIds_Ok in Ep as [-> _].
  rewrite bind_run. unfold transaction. fold (writeTour (numbered ids)).
  destruct (writeTour (numbered ids) s) as [s2 [[]|e]] eqn:Et; [|done].
  assert (HNid : NoDup (numbered ids).*1).
  { rewrite numbered_fst, Hids. rewrite <- HP in HN. by apply NoDup_app in HN as (_ & _ & HN). }
  destruct (writeTour_sets _ _ _ HNid Et) as [A B]. unfold mret, M_ret. simpl.
  split_and!; [|clear|done|done].
  - rewrite numbered_fst, Hids, <- HP. by rewrite Permutation_app_comm.
  - unfold numbered. rewrite fmap_imap, length_imap. unfold compose. simpl.
    induction ids as [|x l IH] using rev_ind; [done|].
    rewrite imap_app, IH, length_app, Nat2Z.inj_add. change (Z.of_nat (length [x])) with 1.
    rewrite seqZ_app by lia. f_equal. rewrite seqZ_cons, seqZ_nil by lia. simpl. f_equal. lia.
Qed.

Definition demoTour : Store :=
  demoStore <| deliveries ::= λ m,
    <["d3" := (newDelivery "c1" "B" "Depot" "Itaosy" assigned)
                <| deliveryLat := Some (num_of_Z 1) |> <| deliveryLng := Some (num_of_Z 1) |>]>
    (<["d4" := (newDelivery "c1" "C" "Depot" "Ivandry" assigned)
                <| deliveryLat := Some (num_of_Z 2) |> <| deliveryLng := Some (num_of_Z 2) |>]> m) |>.
Definition demoOsrm (pts : list (num * num)) : result OsrmTrip :=
  Ok (mkTrip (rev (map Z.of_nat (seq 0 (length pts)))) (num_of_Z 10) (num_of_Z 20)).

Lemma optimizeTour_sound_witness :
  match optimizeTour demoOsrm "c1" ["d3"; "d1"; "d4"] demoTour with
  | (s', Ok r) =>
      (tour_order r).*1 ++ (tour_skipped r).*1 ≡ₚ ["d3"; "d1"; "d4"] ∧
      (tour_order r).*2 = seqZ 1 (Z.of_nat (length (tour_order r))) ∧
      (∀ id n, (id, n) ∈ tour_order r → tourSequence <$> deliveries s' !! id = Some (Some n)) ∧
      (∀ id, id ∉ (tour_order r).*1 → deliveries s' !! id = deliveries demoTour !! id)
  | (s', Throw _) => s' = demoTour
  end.
Proof.
  apply optimizeTour_sound.
  - intros pts trip [= <-]. simpl. by rewrite length_rev, length_map, length_seq.
  - apply (bool_decide_unpack _). vm_compute. exact I.
Defined.

Example demoTour_order :
  match (optimizeTour demoOsrm "c1" ["d3"; "d1"; "d4"] demoTour).2 with
  | Ok r => tour_order r = [("d4", 1); ("d3", 2)] ∧ map fst (tour_skipped r) = ["d1"]
  | Throw _ => False
  end.
Proof. vm_compute. split; reflexivity. Qed.

(** ** importDeliveriesFile *)

Definition importTotal (r : ImportResult) : Z :=
  created r + updated r + Z.of_nat (length (skipped r)) + Z.of_nat (length (errors r)).

Lemma importRow_Ok cid p mode newId raw acc s :
  ∃ s' r, importRow cid p mode newId raw acc s = (s', Ok r) ∧ importTotal r = importTotal acc + 1.
Proof.
  assert (HE : ∀ x, importTotal (acc <| errors ::= λ l, l ++ [x] |>) = importTotal acc + 1)
    by (intros x; unfold importTotal, set; simpl; rewrite length_app; simpl; lia).
  assert (HS : ∀ x, importTotal (acc <| skipped ::= λ l, l ++ [x] |>) = importTotal acc + 1)
    by (intros x; unfold importTotal, set; simpl; rewrite length_app; simpl; lia).
  unfold importRow. destruct (orderRef raw) as [ref|], (lieu raw) as [l|];
    try (eexists _, _; split; [reflexivity|apply HE]).
  destruct (negb _); [eexists _, _; split; [reflexivity|apply HE]|].
  destruct (negb _); [eexists _, _; split; [reflexivity|apply HE]|].
  rewrite bind_run. unfold gets.
  destruct (findByRef cid ref (deliveries s)) as [[id e]|] eqn:Ef; [destruct mode|].
  - eexists _, _. split; [reflexivity|apply HS].
  - apply find_first_Some in Ef as [Hd _]. rewrite bind_run. unfold updateDelivery.
    rewrite Hd. eexists _, _. split; [reflexivity|]. unfold importTotal, set. simpl. lia.
  - unfold try_catch. rewrite bind_run. destruct (createDelivery newId _ s) as [s1 [[]|e]].
    + eexists _, _. split; [reflexivity|]. unfold importTotal, set. simpl. lia.
    + destruct e; eexists _, _; (split; [reflexivity|]); apply HS || apply HE.
Qed.

(** The rows an import line refers to, whatever their state. *)
Definition refPresent (cid ref : string) (s : Store) : Prop :=
  ∃ id d, deliveries s !! id = Some d ∧ companyId d = cid ∧ externalOrderRef d = Some ref.

Definition import_rel (mode : ImportMode) (s s' : Store) : Prop :=
  (∀ id d, deliveries s !! id = Some d → ∃ d', deliveries s' !! id = Some d' ∧
     (mode = create_only → d' = d) ∧ companyId d' = companyId d ∧
     externalOrderRef d' = externalOrderRef d ∧ (terminal (status d) = true → status d' = status d)) ∧
  outbox s' = outbox s.

#[export] Instance import_rel_preorder mode : PreOrder (import_rel mode).
Proof.
  split; [intros s; split; [|done]; intros id d Hd; exists d; split_and!; auto|].
  intros s1 s2 s3 [A1 B1] [A2 B2]. split; [|congruence]. intros id d Hd.
  destruct (A1 _ _ Hd) as (d2 & Hd2 & C1 & C2 & C3 & C4).
  destruct (A2 _ _ Hd2) as (d3 & Hd3 & D1 & D2 & D3 & D4). exists d3. split_and!; try congruence.
  - intros Hm. by rewrite D1, C1.
  - intros Ht. rewrite D4; [auto|]. by rewrite C4.
Qed.

Lemma refPresent_import mode cid ref s s' :
  import_rel mode s s' → refPresent cid ref s → refPresent cid ref s'.
Proof.
  intros [A _] (id & d & Hd & Hc & Hr). destruct (A _ _ Hd) as (d' & Hd' & _ & E1 & E2 & _).
  exists id, d'. split_and!; congruence.
Qed.

Lemma createDelivery_import mode id d : footprint (import_rel mode) (createDelivery id d).
Proof.
  intros s. unfold createDelivery.
  match goal with |- context [if ?b then _ else _] => destruct b end; [simpl; reflexivity|].
  destruct (deliveries s !! id) eqn:E; simpl; [reflexivity|]. split; [|done].
  intros id' x Hx. simpl. exists x. rewrite lookup_insert_ne by congruence. split_and!; auto.
Qed.

Lemma importUpdate_keeps raw l p e :
  companyId (importUpdate raw l p e e) = companyId e ∧
  externalOrderRef (importUpdate raw l p e e) = externalOrderRef e ∧
  (terminal (status e) = true → status (importUpdate raw l p e e) = status e).
Proof. unfold importUpdate, notStarted. destruct (status e) eqn:Es; simpl; rewrite ?Es; done. Qed.

Lemma importRow_rel cid p mode newId raw acc :
  footprint (import_rel mode) (importRow cid p mode newId raw acc).
Proof.
  unfold importRow. destruct (orderRef raw) as [ref|], (lieu raw) as [l|]; [|footprint_auto..].
  destruct (negb _); [footprint_auto|]. destruct (negb _); [footprint_auto|].
  intros s. rewrite bind_run. unfold gets.
  destruct (findByRef cid ref (deliveries s)) as [[id e]|] eqn:Ef; [destruct mode|].
  - simpl. reflexivity.
  - apply find_first_Some in Ef as [Hd _]. rewrite bind_run. unfold updateDelivery.
    rewrite Hd. simpl. destruct (importUpdate_keeps raw l p e) as (A & B & C).
    split; [|done]. intros id' x Hx. simpl.
    destruct (decide (id' = id)) as [->|Hne].
    + rewrite lookup_insert_eq. simplify_eq. eexists. split_and!; done.
    + rewrite lookup_insert_ne by done. eexists. split_and!; done.
  - match goal with |- import_rel _ s (?m s).1 => assert (F : footprint (import_rel mode) m) end.
    { destruct mode; footprint_auto; apply createDelivery_import. }
    destruct mode; apply F.
Qed.

Lemma orderRefTaken_present cid ref s :
  orderRefTaken cid ref (deliveries s) = true → refPresent cid ref s.
Proof.
  unfold orderRefTaken. intros H%bool_decide_eq_true.
  destruct (find_many _ _) as [|[id d] l] eqn:E; [done|].
  assert (Hin : (id, d) ∈ find_many (λ _ d, bool_decide (companyId d = cid ∧
      externalOrderRef d = Some ref)) (deliveries s)) by (rewrite E; left).
  apply elem_of_find_many in Hin as [Hd Hc]. apply bool_decide_eq_true in Hc as [? ?].
  exists id, d. auto.
Qed.

Lemma importRow_imports cid p mode newId raw acc s ref :
  deliveries s !! newId = None → orderRef raw = Some ref → truthy (Some ref) = true →
  truthy (lieu raw) = true → refPresent cid ref (importRow cid p mode newId raw acc s).1.
Proof.
  intros Hf Href Ht Hl. pose proof (importRow_rel cid p mode newId raw acc s) as HR.
  revert HR. unfold importRow. rewrite Href. destruct (lieu raw) as [l|]; [|done].
  rewrite Hl, Ht. cbn [negb]. rewrite bind_run. unfold gets.
  destruct (findByRef cid ref (deliveries s)) as [[id e]|] eqn:Ef.
  - apply find_first_Some in Ef as [Hd Hc]. apply bool_decide_eq_true in Hc as (? & ? & _).
    intros HR. assert (P : refPresent cid ref s) by (by exists id, e).
    destruct mode; (eapply refPresent_import; [exact HR|exact P]).
  - intros _. unfold try_catch. rewrite bind_run.
    assert (refPresent cid ref (createDelivery newId (importCreate cid ref raw l p) s).1) as HC.
    { unfold createDelivery. simpl externalOrderRef. cbv iota.
      destruct (orderRefTaken _ ref _) eqn:Eo.
      - simpl. by apply orderRefTaken_present.
      - rewrite Hf. simpl. exists newId, (importCreate cid ref raw l p). simpl.
        by rewrite lookup_insert_eq. }
    destruct (createDelivery newId _ s) as [s1 [[]|e]]; [destruct mode; exact HC|].
    destruct mode, e; exact HC.
Qed.

Lemma importRow_fresh cid p mode newId raw acc s id :
  id ≠ newId → deliveries s !! id = None →
  deliveries (importRow cid p mode newId raw acc s).1 !! id = None.
Proof.
  intros Hne Hn. unfold importRow.
  destruct (orderRef raw) as [ref|], (lieu raw) as [l|]; try done.
  destruct (negb _); [done|]. destruct (negb _); [done|]. rewrite bind_run. unfold gets.
  destruct (findByRef cid ref (deliveries s)) as [[id0 e]|] eqn:Ef; [destruct mode|].
  - done.
  - apply find_first_Some in Ef as [Hd _]. rewrite bind_run. unfold updateDelivery.
    rewrite Hd. simpl. rewrite lookup_insert_ne; [done|]. intros ->. congruence.
  - assert (HC : deliveries (createDelivery newId (importCreate cid ref raw l p) s).1 !! id = None).
    { unfold createDelivery. simpl externalOrderRef. cbv iota.
      destruct (orderRefTaken _ _ _); [done|]. destruct (deliveries s !! newId); [done|].
      simpl. by rewrite lookup_insert_ne. }
    unfold try_catch. rewrite bind_run.
    destruct (createDelivery newId _ s) as [s1 [[]|e]]; [destruct mode; exact HC|].
    destruct mode, e; exact HC.
Qed.

Lemma importLoop_sound cid p mode newIds rows : ∀ n acc s,
  (∀ k, (n ≤ k)%nat → deliveries s !! newIds k = None) → Inj eq eq newIds →
  ∃ s' r, importLoop cid p mode newIds n rows acc s = (s', Ok r) ∧
    importTotal r = importTotal acc + Z.of_nat (length rows) ∧ import_rel mode s s' ∧
    ∀ raw ref, raw ∈ rows → orderRef raw = Some ref → truthy (Some ref) = true →
      truthy (lieu raw) = true → refPresent cid ref s'.
Proof.
  induction rows as [|raw rows IH]; intros n acc s Hf Hi; simpl.
  { eexists _, _. split_and!; [reflexivity|lia|reflexivity|by intros ?? ?%elem_of_nil]. }
  rewrite bind_run. destruct (importRow_Ok cid p mode (newIds n) raw acc s) as (s1 & r1 & E1 & T1).
  pose proof (importRow_rel cid p mode (newIds n) raw acc s) as R1.
  rewrite E1 in *. destruct (IH (S n) r1 s1) as (s2 & r2 & E2 & T2 & R2 & P2); [|done|].
  { intros k Hk. pose proof (importRow_fresh cid p mode (newIds n) raw acc s (newIds k)) as F.
    rewrite E1 in F. apply F; [|apply Hf; lia]. intros E%Hi. lia. }
  exists s2, r2. split_and!; [done|lia|by etransitivity|].
  intros raw' ref [->|Hin]%elem_of_cons Href Ht Hl; [|by eapply P2].
  eapply refPresent_import; [exact R2|].
  pose proof (importRow_imports cid p mode (newIds n) raw acc s ref) as F. rewrite E1 in F.
  apply F; auto.
Qed.


Definition demoLine (ref : string) : RawImportRow :=
  mkRaw 2 (Some ref) (Some "Ankorondrano") None None (Some "12 000 Ar") None None None None.
Definition demoIds (n : nat) : string := String "n"%char (pretty (N.of_nat n)).

Lemma demoIds_inj : Inj eq eq demoIds.
Proof. intros a b H. unfold demoIds in H. injection H as H%pretty_N_inj. lia. Qed.


(** ** parseAmount *)

Lemma stripAr_digits s : filterString isDigit (stripAr s) = filterString isDigit s.
Proof.
  unfold stripAr. destruct (_ && _) eqn:E; [|done].
  apply andb_true_iff in E as [Hn%Nat.leb_le Ht%bool_decide_eq_true].
  rewrite <- (substring_split s (String.length s - 2)) at 3 by lia.
  replace (String.length s - (String.length s - 2))%nat with 2%nat by lia.
  rewrite filterString_app.
  assert (filterString isDigit (String.substring (String.length s - 2) 2 s) = EmptyString) as ->.
  { rewrite !elem_of_cons, elem_of_nil in Ht. by destruct_or?; try (rewrite Ht; reflexivity). }
  symmetry. apply append_nil_r.
Qed.

(** The amount read from a cell is the number its digits spell, whatever
    spaces, thousand separators or "Ar" suffix surround them; a cell without a
    digit has no amount. *)
Theorem parseAmount_reads v (n : N) :
  (filterString isDigit v = pretty n → parseAmount (Some v) = Some (Z.of_N n)) ∧
  (filterString isDigit v = EmptyString → parseAmount (Some v) = None).
Proof.
  unfold parseAmount. split; intros H; case_bool_decide as E; subst; try done.
  - symmetry in H. by apply pretty_not_empty in H.
  - rewrite stripAr_digits, (filterString_filter isDigit _ _ isDigit_not_space), H.
    rewrite bool_decide_eq_false_2 by apply pretty_not_empty. by rewrite digits_pretty.
  - by rewrite stripAr_digits, (filterString_filter isDigit _ _ isDigit_not_space), H.
Qed.

Lemma parseAmount_reads_witness :
  parseAmount (Some "12 500 Ar") = Some 12500 ∧ parseAmount (Some "n/a") = None.
Proof.
  split; [apply (parseAmount_reads "12 500 Ar" 12500); reflexivity|].
  apply (parseAmount_reads "n/a" 0). reflexivity.
Defined.
