(* ===== verification/BillingModel.v ===== *)
(** * modules/billing, modules/manual-billing: data

    The plans, subscriptions, invoices, payment proofs and accounts that the
    billing services and guards read and write, as one store. *)

From S2P Require Import Prelude JsNum Redis.
From S2P Require Export I18n.

#[local] Open Scope string_scope.
#[local] Open Scope list_scope.
#[local] Open Scope Z_scope.

Inductive PlanTier := tier_free | tier_starter | tier_pro | tier_enterprise.
Inductive SubscriptionStatus :=
  | active | canceled | past_due | incomplete | unpaid | trialing.
Inductive BillingProvider := stripe | mvola | orange_money | manual.
Inductive PaymentProofStatus := proof_pending | proof_approved | proof_rejected.
Inductive UserRole := role_admin | role_dispatcher | role_driver | role_client | role_other.

#[export] Instance PlanTier_eq_dec : EqDecision PlanTier.
Proof. solve_decision. Defined.
#[export] Instance SubscriptionStatus_eq_dec : EqDecision SubscriptionStatus.
Proof. solve_decision. Defined.
#[export] Instance BillingProvider_eq_dec : EqDecision BillingProvider.
Proof. solve_decision. Defined.
#[export] Instance PaymentProofStatus_eq_dec : EqDecision PaymentProofStatus.
Proof. solve_decision. Defined.
#[export] Instance UserRole_eq_dec : EqDecision UserRole.
Proof. solve_decision. Defined.

Definition provider_string (p : BillingProvider) : string :=
  match p with
  | stripe => "stripe" | mvola => "mvola" | orange_money => "orange_money" | manual => "manual"
  end.

(** ** Rows *)

Record BillingPlan := mkPlan {
  plan_tier : PlanTier;
  plan_name : string;
  plan_description : option string;
  plan_price : Z;  (** cents per interval *)
  plan_currency : string;
  plan_interval : string;  (** 'month' or 'year' *)
  plan_maxVehicles : Z;
  plan_maxDeliveriesPerMonth : Z;
  plan_maxUsers : Z;
  plan_features : list string;
  plan_isActive : bool
}.

Record Subscription := mkSubscription {
  sub_companyId : string;
  sub_planId : string;
  sub_status : SubscriptionStatus;
  sub_provider : BillingProvider;
  stripeSubscriptionId : option string;
  stripeCustomerId : option string;
  mobileMoneyRef : option string;
  currentPeriodStart : Z;
  currentPeriodEnd : Z;
  canceledAt : option Z;
  trialEndsAt : option Z
}.

Record Invoice := mkInvoice {
  inv_companyId : string;
  inv_subscriptionId : string;
  invoiceNumber : string;
  inv_amount : Z;
  inv_currency : string;
  inv_provider : BillingProvider;
  providerInvoiceId : option string;
  inv_paidAt : option Z
}.

Record PaymentMethod := mkMethod { pm_isActive : bool; pm_provider : BillingProvider }.

Record PaymentProof := mkPaymentProof {
  proof_companyId : string;
  submittedById : string;
  claimedPlanId : string;
  claimedAmount : Z;
  paymentMethodId : string;
  reference : string;
  proof_status : PaymentProofStatus;
  reviewedById : option string;
  reviewedAt : option Z;
  rejectionReason : option string;
  activationCodeHash : option string;
  activationCodePrefix : option string;
  activationExpiresAt : option Z;
  redeemedAt : option Z
}.

Record CompanyRow := mkCompany { co_name : string; co_email : option string }.

Record UserRow := mkUser {
  u_companyId : string;
  u_email : string;
  u_firstName : string;
  u_role : UserRole;
  u_isActive : bool;
  u_deletedAt : option Z
}.

(** What the usage counters look at in deliveries and vehicles. *)
Record CountedRow := mkCounted {
  c_companyId : string;
  c_createdAt : Z;
  c_deletedAt : option Z
}.

Inductive Mail :=
  | BillingActivated (email firstName planName : string) (lang : Language)
  | BillingPaymentFailed (email firstName : string) (lang : Language)
  | BillingCanceled (email firstName : string) (lang : Language)
  | BillingExpired (email firstName : string) (periodEnd : Z) (lang : Language)
  | BillingSuspended (email firstName : string) (lang : Language)
  | PaymentProofApproved (email firstName planName code : string) (expiresAt : Z)
  | PaymentProofRejected (email firstName reason : string).

Record BillingStore := mkBillingStore {
  plans : gmap string BillingPlan;
  subscriptions : gmap string Subscription;
  invoices : gmap string Invoice;
  paymentProofs : gmap string PaymentProof;
  paymentMethods : gmap string PaymentMethod;
  companies : gmap string CompanyRow;
  users : gmap string UserRow;
  deliveryRows : gmap string CountedRow;
  vehicleRows : gmap string CountedRow;
  redis : gmap string Entry;
  mails : list Mail;  (** oldest first *)
  mvolaToken : option (string * Z)  (** the token cached by MobileMoneyService, and its end *)
}.

(** ** Access to the store *)

(** EmailService catches every delivery error: sending never fails. *)
Definition sendMail (m : Mail) : M BillingStore unit :=
  modify (λ s, s <| mails ::= λ l, l ++ [m] |>).

(** The unique indexes of the subscriptions table on [company_id] and
    [stripe_subscription_id], for a row stored under [id]. *)
Definition subscriptionClashes (id : string) (x : Subscription) (t : gmap string Subscription)
    : bool :=
  bool_decide (find_many (λ k y,
    bool_decide (k ≠ id ∧ (sub_companyId y = sub_companyId x ∨
      (is_Some (stripeSubscriptionId x) ∧ stripeSubscriptionId y = stripeSubscriptionId x)))) t ≠ []).

(** [prisma.subscription.update({ where: { id }, data })] *)
Definition updateSubscription (id : string) (f : Subscription → Subscription)
    : M BillingStore unit := λ s,
  match subscriptions s !! id with
  | None => (s, Throw PrismaP2025)
  | Some x =>
      if subscriptionClashes id (f x) (subscriptions s) then (s, Throw PrismaP2002)
      else (s <| subscriptions ::= <[id := f x]> |>, Ok tt)
  end.

(** [prisma.subscription.create({ data })], the row getting the id [id]. *)
Definition createSubscription (id : string) (x : Subscription) : M BillingStore unit := λ s,
  if bool_decide (is_Some (subscriptions s !! id)) || subscriptionClashes id x (subscriptions s)
  then (s, Throw PrismaP2002)
  else (s <| subscriptions ::= <[id := x]> |>, Ok tt).

(** [prisma.subscription.findUnique({ where: { companyId } })] *)
Definition subscriptionOf (cid : string) (s : BillingStore) : option (string * Subscription) :=
  find_first (λ _ x, bool_decide (sub_companyId x = cid)) (subscriptions s).

(** [company: { include: { users: { where: { role: 'admin', isActive: true } } } }] *)
Definition activeAdmins (cid : string) (s : BillingStore) : list UserRow :=
  (find_many (λ _ u, bool_decide (u_companyId u = cid ∧ u_role u = role_admin)
                     && u_isActive u) (users s)).*2.

(** [(admin as any).lang || 'fr']: the users table has no [lang] column. *)
Definition adminLang (u : UserRow) : Language := fr.

(** ** Lemmas *)

Lemma subscriptionOf_Some cid s id x :
  subscriptionOf cid s = Some (id, x) → subscriptions s !! id = Some x ∧ sub_companyId x = cid.
Proof. intros H%find_first_Some. by rewrite bool_decide_eq_true in H. Qed.

(** The unique index: one subscription per company, one per Stripe id. *)
Definition subscriptions_unique (t : gmap string Subscription) : Prop :=
  ∀ i j x y, t !! i = Some x → t !! j = Some y →
    sub_companyId x = sub_companyId y ∨
    (is_Some (stripeSubscriptionId x) ∧ stripeSubscriptionId y = stripeSubscriptionId x) → i = j.

Lemma no_clash id x t :
  subscriptionClashes id x t = false →
  ∀ j y, t !! j = Some y → j ≠ id → sub_companyId y ≠ sub_companyId x ∧
    (is_Some (stripeSubscriptionId x) → stripeSubscriptionId y ≠ stripeSubscriptionId x).
Proof.
  unfold subscriptionClashes. intros H%bool_decide_eq_false_1 j y Hy Hj.
  apply dec_stable in H.
  assert (Hn : (j, y) ∉ find_many (λ k y,
    bool_decide (k ≠ id ∧ (sub_companyId y = sub_companyId x ∨
      (is_Some (stripeSubscriptionId x) ∧ stripeSubscriptionId y = stripeSubscriptionId x)))) t)
    by (rewrite H; apply not_elem_of_nil).
  rewrite elem_of_find_many, bool_decide_eq_true in Hn.
  split; [intros E|intros Hs E]; apply Hn; auto.
Qed.

(** An update that keeps the unique columns never clashes. *)
Lemma no_self_clash id x x' t :
  subscriptions_unique t → t !! id = Some x → sub_companyId x' = sub_companyId x →
  stripeSubscriptionId x' = stripeSubscriptionId x → subscriptionClashes id x' t = false.
Proof.
  intros U Hx E1 E2. unfold subscriptionClashes. apply bool_decide_eq_false_2. intros Hne. apply Hne.
  destruct (find_many _ _) as [|[k y] l] eqn:Ef; [done|exfalso].
  assert (Hin : (k, y) ∈ (k, y) :: l) by left.
  rewrite <- Ef, elem_of_find_many, bool_decide_eq_true in Hin. destruct Hin as (Hy & Hk & Hor).
  rewrite E1, E2 in Hor. apply Hk. symmetry. eapply U; [exact Hx|exact Hy|].
  destruct Hor as [E|[E3 E4]]; [by left|by right].
Qed.

Lemma subscriptions_unique_insert id x t :
  subscriptions_unique t → subscriptionClashes id x t = false →
  subscriptions_unique (<[id := x]> t).
Proof.
  intros U H i j a b Hi Hj Hab. destruct (decide (i = j)) as [|Hij]; [done|exfalso].
  apply lookup_insert_Some in Hi as [[<- <-]|[Hne Hi]];
    apply lookup_insert_Some in Hj as [[<- <-]|[Hne' Hj]].
  - done.
  - destruct (no_clash _ _ _ H _ _ Hj) as [A B]; [congruence|].
    destruct Hab as [E|[E1 E2]]; [congruence|by apply B].
  - destruct (no_clash _ _ _ H _ _ Hi) as [A B]; [congruence|].
    destruct Hab as [E|[E1 E2]]; [congruence|]. apply B; [by rewrite E2|congruence].
  - apply Hij. eapply U; eauto.
Qed.

Lemma subscriptionOf_unique cid s id x :
  subscriptions_unique (subscriptions s) → subscriptions s !! id = Some x →
  sub_companyId x = cid → subscriptionOf cid s = Some (id, x).
Proof.
  intros U Hx Hc. unfold subscriptionOf.
  destruct (find_first_is_Some (λ _ y, bool_decide (sub_companyId y = cid)) (subscriptions s) id x)
    as (id' & x' & E); [done|by rewrite bool_decide_eq_true|].
  rewrite E. apply find_first_Some in E as [Hx' Hc']. rewrite bool_decide_eq_true in Hc'.
  assert (id' = id) as -> by (eapply U; eauto; left; congruence). congruence.
Qed.
