(* ===== verification/MobileMoney.v ===== *)
(** * modules/billing: MobileMoneyService

    The payment requests to MVola and Orange Money of mobile-money.service.ts:
    the sandbox simulation, the OAuth token and its cache, the merchant-pay
    call and its errors, and the reading of provider webhooks.  The HTTP
    exchange itself is a parameter. *)

From S2P Require Import Prelude JsString JsNum Redis BillingModel.

#[local] Open Scope string_scope.
#[local] Open Scope list_scope.
#[local] Open Scope Z_scope.

(** What [fetch] gives back: an aborted or failed exchange, or a response
    whose body has been read ([None] when it is not JSON). *)
Inductive Fetch (A : Type) :=
  | FetchAborted
  | FetchFailed
  | Response (status : Z) (body : option A).
Arguments FetchAborted {A}.
Arguments FetchFailed {A}.
Arguments Response {A} status body.

Definition res_ok (status : Z) : bool := (200 <=? status) && (status <=? 299).

Record TokenBody := mkTokenBody { access_token : option string; expires_in : option Z }.
Record PaymentBody := mkPaymentBody {
  errorCode : option string;
  errorDescription : option string;
  errorMessage : option string;
  pb_status : option string;
  serverCorrelationId : option string
}.
Definition emptyPaymentBody : PaymentBody := mkPaymentBody None None None None None.

Record MobilePaymentRequest := mkMobileRequest {
  mr_amount : Z;
  mr_currency : string;
  mr_phone : string;
  mr_companyId : string
}.

(** The body of the merchant-pay call that matters to the operator. *)
Record MvolaOrder := mkOrder {
  o_token : string;
  o_amount : Z;
  o_debit : string;
  o_credit : string;
  o_target : string
}.

Inductive ProviderMessage :=
  | SimulatedPayment (p : BillingProvider) (amount : Z) (currency phone : string)
  | InitiatedPayment (amount : Z) (currency phone : string).

Record MobilePaymentResult := mkMobileResult {
  transactionRef : string;
  providerMessage : ProviderMessage
}.

Record MmEnv := mkMmEnv {
  mm_now : Z;
  mm_sandbox : bool;  (** MOBILE_MONEY_SANDBOX, 'true' by default *)
  MVOLA_API_KEY : option string;
  MVOLA_API_SECRET : option string;
  ORANGE_MONEY_API_KEY : option string;
  MVOLA_MERCHANT_PHONE : string;
  mm_simulateFailure : bool;  (** whether the sandbox draws a failure *)
  fetchToken : string → Fetch TokenBody;
  fetchPayment : MvolaOrder → Fetch PaymentBody
}.

(** [mvolaTokenCache]: the token and the time it expires at. *)
Definition TokenCache : Type := string * Z.

Definition MVOLA_TOKEN_SAFETY_MARGIN_MS : Z := 60000.

Definition msg_unreachable : string :=
  "L'opérateur MVola est injoignable. Réessayez dans quelques instants.".

(** [fetchWithTimeout] *)
Definition fetchWithTimeout {S A} (r : Fetch A) : M S (Z * option A) :=
  match r with
  | FetchAborted => throw (HttpException 504 msg_unreachable)
  | FetchFailed => throw (HttpException 503 msg_unreachable)
  | Response st body => mret (st, body)
  end.

Section Service.
Context (env : MmEnv).

Definition mvolaBaseUrl : string :=
  if mm_sandbox env then "https://devapi.mvola.mg" else "https://api.mvola.mg".

Definition msg_noToken : string :=
  "Réponse MVola invalide : jeton d'authentification manquant.".

(** The exchange with MVola and the update of the cache. *)
Definition fetchMvolaToken : M (option TokenCache) string :=
  if negb (truthy (MVOLA_API_KEY env)) || negb (truthy (MVOLA_API_SECRET env)) then
    throw (HttpException 502
      "Paiement MVola indisponible : la configuration API de l'opérateur est incomplète. Contactez l'administrateur.")
  else
    res ← fetchWithTimeout (fetchToken env mvolaBaseUrl);
    if (res.1 =? 401) || (res.1 =? 403) then
      throw (HttpException 502
        "Erreur d'authentification MVola — vérifiez les clés API (MVOLA_API_KEY / MVOLA_API_SECRET).")
    else if negb (res_ok res.1) then
      throw (HttpException 502
        "L'opérateur MVola a rejeté la demande de paiement. Réessayez dans quelques instants.")
    else
      match res.2 with
      | None => throw (OtherError "Unexpected token in JSON")
      | Some data =>
          match access_token data with
          | Some tok =>
              if truthy (Some tok) then
                let expiresInMs := match expires_in data with Some n => n | None => 3600 end * 1000 in
                modify (λ _, Some (tok,
                  mm_now env + expiresInMs - MVOLA_TOKEN_SAFETY_MARGIN_MS)) ;;
                mret tok
              else throw (HttpException 502 msg_noToken)
          | None => throw (HttpException 502 msg_noToken)
          end
      end.

Definition getMvolaAccessToken : M (option TokenCache) string :=
  cache ← gets id;
  match cache with
  | Some c => if mm_now env <? c.2 then mret c.1 else fetchMvolaToken
  | None => fetchMvolaToken
  end.

Definition mvolaErrorToHttpException (status : Z) (err : PaymentBody) : exn :=
  let code := toLowerCase (match errorCode err with Some c => c | None => EmptyString end) in
  let detail :=
    match errorDescription err, errorMessage err with
    | Some d, m => if truthy (Some d) then d else match m with Some x => x | None => EmptyString end
    | None, Some m => m
    | None, None => EmptyString
    end in
  let suffix := if truthy (Some detail) then " — " +:+ detail else EmptyString in
  if includes "insufficient" code || includes "balance" code then
    HttpException 402
      ("Paiement MVola échoué : solde insuffisant ou transaction refusée par l'opérateur" +:+ suffix)
  else if (status =? 401) || (status =? 403) then
    HttpException 502 ("Erreur d'authentification MVola" +:+ suffix)
  else if (status =? 400) || includes "invalid" code || includes "not_allowed" code then
    HttpException 400
      ("Demande de paiement MVola refusée (numéro ou montant invalide)" +:+ suffix)
  else HttpException 502 ("L'opérateur MVola a refusé le paiement" +:+ suffix).

(** [s.replace(/^\+/, '')] *)
Definition stripPlus (s : string) : string :=
  match s with
  | String c s' => if bool_decide (c = "+"%char) then s' else s
  | EmptyString => s
  end.

(** [Math.round(cents / 100)] of a non-negative amount. *)
Definition amountMajor (cents : Z) : Z := (cents + 50) / 100.

Definition requestMvolaPayment (token : string) (req : MobilePaymentRequest)
    : M (option TokenCache) string :=
  if bool_decide (MVOLA_MERCHANT_PHONE env = EmptyString) then
    throw (HttpException 502
      "Paiement MVola indisponible : le compte marchand (MVOLA_MERCHANT_PHONE) n'est pas configuré. Contactez l'administrateur.")
  else
    res ← fetchWithTimeout (fetchPayment env
      (mkOrder token (amountMajor (mr_amount req)) (stripPlus (mr_phone req))
        (stripPlus (MVOLA_MERCHANT_PHONE env)) (if mm_sandbox env then "sandbox" else "prod")));
    let data := match res.2 with Some b => b | None => emptyPaymentBody end in
    if negb (res_ok res.1) then throw (mvolaErrorToHttpException res.1 data)
    else
      match serverCorrelationId data with
      | Some ref =>
          if (res.1 =? 202) && bool_decide (pb_status data = Some "pending") && truthy (Some ref)
          then mret ref
          else throw (HttpException 502 "La demande de paiement MVola n'a pas abouti. Réessayez.")
      | None => throw (HttpException 502 "La demande de paiement MVola n'a pas abouti. Réessayez.")
      end.

Definition requestPayment (req : MobilePaymentRequest) (provider : BillingProvider)
    : M (option TokenCache) MobilePaymentResult :=
  let apiKey :=
    if bool_decide (provider = mvola) then MVOLA_API_KEY env else ORANGE_MONEY_API_KEY env in
  if negb (truthy apiKey) || mm_sandbox env then
    (* [simulateLatency] and [simulateFailure] only act in the sandbox *)
    if mm_sandbox env && mm_simulateFailure env then
      throw (HttpException 402
        ("Paiement " +:+ provider_string provider +:+
         " échoué : solde insuffisant ou transaction refusée par l'opérateur (" +:+
         mr_phone req +:+ ")"))
    else
      mret (mkMobileResult
        ("sim_" +:+ provider_string provider +:+ "_" +:+ string_of_Z (mm_now env))
        (SimulatedPayment provider (mr_amount req) (mr_currency req) (mr_phone req)))
  else if bool_decide (provider = mvola) then
    token ← getMvolaAccessToken;
    ref ← requestMvolaPayment token req;
    mret (mkMobileResult ref (InitiatedPayment (mr_amount req) (mr_currency req) (mr_phone req)))
  else
    throw (HttpException 501
      ("Mode production " +:+ provider_string provider +:+
       " non implémenté dans cette version. Utilisez MOBILE_MONEY_SANDBOX=true pour le test.")).

Definition verifyPayment (ref : string) (provider : BillingProvider) : bool :=
  if startsWith "sim_" ref then negb (mm_sandbox env && mm_simulateFailure env) else false.
End Service.

(** ** handleWebhook *)

(** The fields of a provider notification. *)
Record WebhookPayload := mkWebhookPayload {
  wp_transactionRef : option string;
  wp_txnId : option string;
  wp_payToken : option string;
  wp_txnid : option string;
  wp_status : option string
}.

(** [a || b] on optional strings. *)
Definition orElse (a b : option string) : option string := if truthy a then a else b.

(** The reference ([None]: undefined) and whether the payment is 'paid'. *)
Definition handleWebhook (p : WebhookPayload) (provider : BillingProvider)
    : option (option string * bool) :=
  match provider with
  | mvola =>
      Some (orElse (wp_transactionRef p) (wp_txnId p),
            bool_decide (wp_status p = Some "SUCCESS" ∨ wp_status p = Some "completed"))
  | orange_money =>
      Some (orElse (wp_payToken p) (wp_txnid p),
            bool_decide (wp_status p = Some "200" ∨ wp_status p = Some "SUCCESS"))
  | _ => None
  end.

(** ** Lemmas *)

(** A cached token is used until a minute before it expires. *)
Lemma cached_token_reused env (c : TokenCache) :
  mm_now env < c.2 → getMvolaAccessToken env (Some c) = (Some c, Ok c.1).
Proof.
  intros H. unfold getMvolaAccessToken. rewrite bind_run. simpl.
  by rewrite (proj2 (Z.ltb_lt _ _) H).
Qed.

(** A real MVola payment is never reported without the reference that the
    operator has given for it. *)
Lemma real_payment_has_reference env req c c' r :
  mm_sandbox env = false → truthy (MVOLA_API_KEY env) = true →
  requestPayment env req mvola c = (c', Ok r) →
  ∃ order st body, fetchPayment env order = Response st (Some body) ∧ st = 202 ∧
    pb_status body = Some "pending" ∧ serverCorrelationId body = Some (transactionRef r) ∧
    o_amount order = amountMajor (mr_amount req) ∧ o_target order = "prod".
Proof.
  intros Hs Hk H. unfold requestPayment in H. rewrite Hs, bool_decide_eq_true_2, Hk in H by done.
  simpl in H. apply bind_Ok in H as (c1 & tok & _ & H). apply bind_Ok in H as (c2 & ref & H1 & H2).
  unfold mret, M_ret in H2. simplify_eq. simpl. unfold requestMvolaPayment in H1.
  destruct (bool_decide (MVOLA_MERCHANT_PHONE env = EmptyString)); [done|].
  apply bind_Ok in H1 as (c3 & [st body] & HF & H1). simpl in H1.
  destruct (negb (res_ok st)); [done|].
  destruct (serverCorrelationId _) as [ref'|] eqn:Er; [|done].
  destruct (_ && _) eqn:Ec in H1; [|done]. unfold mret, M_ret in H1. simplify_eq.
  apply andb_true_iff in Ec as [Ec _]. apply andb_true_iff in Ec as [E1 E2].
  apply Z.eqb_eq in E1. apply bool_decide_eq_true in E2.
  destruct body as [body|]; [|done].
  destruct (fetchPayment env _) as [| |st' b] eqn:EF in HF; try done.
  simpl in HF. unfold mret, M_ret in HF. simplify_eq.
  eexists _, _, body. split_and!; [exact EF|done..|]. simpl. by rewrite Hs.
Qed.
