(* ===== verification/Billing.v ===== *)
(** * modules/billing: BillingService

    Plans, checkout, cancellation, invoices, mobile-money confirmation, the
    Stripe webhook and the two subscription crons of billing.service.ts, with
    the checkout of stripe.service.ts. *)

From S2P Require Import Prelude JsString JsNum JsDate Redis BillingModel MobileMoney.

#[local] Open Scope string_scope.
#[local] Open Scope list_scope.
#[local] Open Scope Z_scope.

Record CheckoutResult := mkCheckout {
  ck_provider : BillingProvider;
  ck_sessionUrl : option string;
  ck_subscriptionId : option string;
  ck_clientSecret : option string
}.

(** The Stripe events the webhook handles; fields are [None] when absent. *)
Inductive StripeEventBody :=
  | CheckoutSessionCompleted (companyId subscription customer : option string)
  | InvoicePaid (subscription : option string) (invoiceId : string)
  | InvoicePaymentFailed (subscription : option string)
  | CustomerSubscriptionDeleted (subscription : option string)
  | OtherStripeEvent (type : string).
Record StripeEvent := mkStripeEvent { ev_id : string; ev_body : StripeEventBody }.

Record BillingEnv := mkBillingEnv {
  b_now : Z;
  BILLING_ENABLED : bool;
  NODE_ENV_production : bool;
  APP_URL : string;
  link : RedisLink;
  INSTANCE_ID : string;
  stripeConfigured : bool;  (** STRIPE_SECRET_KEY is set *)
  (** Stripe's checkout.sessions.create for a plan and a company. *)
  stripeSession : string → string → result CheckoutResult;
  (** Stripe's webhooks.constructEvent, when the webhook secret is set. *)
  stripeVerify : option (string → string → result StripeEvent);
  mobile : MmEnv;
  (** The HMAC-SHA256 of a body under MOBILE_MONEY_WEBHOOK_SECRET, when set. *)
  mmHmac : option (string → string)
}.

Record CreatePlanDto := mkPlanDto {
  pd_tier : PlanTier;
  pd_name : string;
  pd_description : option string;
  pd_price : Z;
  pd_currency : option string;
  pd_interval : option string;
  pd_maxVehicles : Z;
  pd_maxDeliveriesPerMonth : Z;
  pd_maxUsers : Z;
  pd_features : option (list string)
}.
(** [Partial<CreatePlanDto>], the fields [updatePlan] reads. *)
Record PartialPlanDto := mkPartialPlan {
  pp_name : option string;
  pp_description : option string;
  pp_price : option Z;
  pp_maxVehicles : option Z;
  pp_maxDeliveriesPerMonth : option Z;
  pp_maxUsers : option Z;
  pp_features : option (list string)
}.
Record CreateCheckoutDto := mkCheckoutDto {
  cd_planId : string;
  cd_provider : BillingProvider;
  cd_mobileMoneyPhone : option string
}.

Definition orDefault (o : option string) (d : string) : string :=
  match o with Some v => if truthy o then v else d | None => d end.
Definition patchCol {A} (o : option A) (old : A) : A :=
  match o with Some v => v | None => old end.

(** [periodEnd.setMonth(periodEnd.getMonth() + (interval === 'year' ? 12 : 1))] *)
Definition periodEnd (now : Z) (interval : string) : Z :=
  addMonths now (if bool_decide (interval = "year") then 12 else 1).

Definition invoiceNumberOf (now count : Z) : string :=
  "INV-" +:+ string_of_Z (YearFromTime now) +:+ "-" +:+ pad_zeros 5 (string_of_Z (count + 1)).

Section Service.
Context (env : BillingEnv).

(** ** Plans *)

Definition planById (id : string) : M BillingStore BillingPlan :=
  p ← gets (λ s, plans s !! id);
  match p with
  | Some p => mret p
  | None => throw (NotFoundException "Plan not found")
  end.

Definition createPlan (newId : string) (dto : CreatePlanDto) : M BillingStore BillingPlan := λ s,
  let row :=
    {| plan_tier := pd_tier dto; plan_name := pd_name dto; plan_description := pd_description dto;
       plan_price := pd_price dto; plan_currency := orDefault (pd_currency dto) "EUR";
       plan_interval := orDefault (pd_interval dto) "month";
       plan_maxVehicles := pd_maxVehicles dto;
       plan_maxDeliveriesPerMonth := pd_maxDeliveriesPerMonth dto;
       plan_maxUsers := pd_maxUsers dto;
       plan_features := match pd_features dto with Some l => l | None => [] end;
       plan_isActive := true |} in
  if bool_decide (is_Some (plans s !! newId))
     || bool_decide (find_many (λ _ p, bool_decide (plan_tier p = pd_tier dto)) (plans s) ≠ [])
  then (s, Throw PrismaP2002)
  else (s <| plans ::= <[newId := row]> |>, Ok row).

Definition updatePlan (id : string) (dto : PartialPlanDto) : M BillingStore BillingPlan :=
  p ← planById id;
  let row := p <| plan_name := orDefault (pp_name dto) (plan_name p) |>
               <| plan_description ::= λ old, match pp_description dto with Some d => Some d | None => old end |>
               <| plan_price ::= patchCol (pp_price dto) |>
               <| plan_maxVehicles ::= patchCol (pp_maxVehicles dto) |>
               <| plan_maxDeliveriesPerMonth ::= patchCol (pp_maxDeliveriesPerMonth dto) |>
               <| plan_maxUsers ::= patchCol (pp_maxUsers dto) |>
               <| plan_features ::= patchCol (pp_features dto) |> in
  modify (λ s, s <| plans ::= <[id := row]> |>) ;;
  mret row.

(** ** Checkout *)

(** StripeService.createCheckoutSession *)
Definition createCheckoutSession (planId cid : string) : M BillingStore CheckoutResult :=
  if stripeConfigured env then
    match stripeSession env planId cid with Ok r => mret r | Throw e => throw e end
  else if NODE_ENV_production env then
    throw (OtherError
      "Stripe is not configured and simulated checkout is forbidden in production (STRIPE_SECRET_KEY missing).")
  else
    mret (mkCheckout stripe
      (Some (APP_URL env +:+ "/billing/success?session_id=sim_sub_" +:+ cid))
      (Some ("sim_sub_" +:+ cid)) None).

(** The row a checkout writes, on the existing subscription or as a new one
    ([currentPeriodStart] defaults to now on creation). *)
Definition saveSubscription (newId cid : string) (existing : option (string * Subscription))
    (f : Subscription → Subscription) : M BillingStore unit :=
  match existing with
  | Some (id, _) => updateSubscription id f
  | None =>
      createSubscription newId (f
        {| sub_companyId := cid; sub_planId := EmptyString; sub_status := active;
           sub_provider := stripe; stripeSubscriptionId := None; stripeCustomerId := None;
           mobileMoneyRef := None; currentPeriodStart := b_now env; currentPeriodEnd := b_now env;
           canceledAt := None; trialEndsAt := None |})
  end.

Definition stripeCheckout (newId cid planId : string) (plan : BillingPlan)
    (existing : option (string * Subscription)) : M BillingStore CheckoutResult :=
  checkout ← createCheckoutSession planId cid;
  let isSimulated :=
    match ck_subscriptionId checkout with Some x => startsWith "sim_" x | None => false end in
  saveSubscription newId cid existing (λ x,
    (x <| sub_planId := planId |>
       <| sub_provider := stripe |>
       <| stripeSubscriptionId := ck_subscriptionId checkout |>
       <| sub_status := if isSimulated then active else incomplete |>
       <| currentPeriodStart ::= λ old, if isSimulated then b_now env else old |>
       <| currentPeriodEnd := periodEnd (b_now env) (plan_interval plan) |>)) ;;
  mret checkout.

(** What the checkout answers: Stripe's session, or the reference of a mobile
    payment. *)
Inductive CheckoutAnswer :=
  | StripeCheckout (r : CheckoutResult)
  | MobileCheckout (p : BillingProvider) (ref : string) (msg : ProviderMessage).

Definition mobileCheckout (newId cid planId : string) (plan : BillingPlan)
    (provider : BillingProvider) (phone : option string)
    (existing : option (string * Subscription)) : M BillingStore CheckoutAnswer :=
  match phone with
  | Some ph =>
      if truthy phone then
        payment ← zoom mvolaToken (λ t s, s <| mvolaToken := t |>)
          (requestPayment (mobile env)
            (mkMobileRequest (plan_price plan) (plan_currency plan) ph cid) provider);
        saveSubscription newId cid existing (λ x,
          (x <| sub_planId := planId |>
             <| sub_provider := provider |>
             <| mobileMoneyRef := Some (transactionRef payment) |>
             <| sub_status := incomplete |>
             <| currentPeriodEnd := periodEnd (b_now env) (plan_interval plan) |>)) ;;
        mret (MobileCheckout provider (transactionRef payment) (providerMessage payment))
      else throw (BadRequestException "Phone number required for mobile money")
  | None => throw (BadRequestException "Phone number required for mobile money")
  end.

Definition createOrUpdateSubscription (newId cid : string) (dto : CreateCheckoutDto)
    : M BillingStore CheckoutAnswer :=
  plan ← planById (cd_planId dto);
  existing ← gets (subscriptionOf cid);
  ensure (match existing with
          | Some (_, x) => negb (bool_decide (sub_status x = active ∧ sub_planId x = cd_planId dto))
          | None => true
          end)
    (BadRequestException "Company already has an active subscription on this plan") ;;
  company ← gets (λ s, companies s !! cid);
  ensure (bool_decide (is_Some company)) (NotFoundException "Company not found") ;;
  match cd_provider dto with
  | stripe =>
      r ← stripeCheckout newId cid (cd_planId dto) plan existing;
      mret (StripeCheckout r)
  | mvola | orange_money =>
      mobileCheckout newId cid (cd_planId dto) plan (cd_provider dto) (cd_mobileMoneyPhone dto)
        existing
  | manual => throw (BadRequestException "Invalid payment provider")
  end.

Definition cancelSubscription (cid : string) : M BillingStore unit :=
  x ← gets (subscriptionOf cid);
  match x with
  | None => throw (NotFoundException "No active subscription")
  | Some (id, _) =>
      updateSubscription id (λ r, r <| sub_status := canceled |>
                                   <| canceledAt := Some (b_now env) |>)
  end.

(** ** Invoices *)

Definition getInvoice (invoiceId cid : string) : M BillingStore Invoice :=
  i ← gets (λ s, invoices s !! invoiceId);
  match i with
  | Some i => if bool_decide (inv_companyId i = cid) then mret i
              else throw (NotFoundException "Invoice not found")
  | None => throw (NotFoundException "Invoice not found")
  end.

Definition invoiceByProviderId (ref : string) (t : gmap string Invoice) : option (string * Invoice) :=
  find_first (λ _ i, bool_decide (providerInvoiceId i = Some ref)) t.

(** [prisma.invoice.create], under the unique indexes on the number and on the
    provider's id. *)
Definition insertInvoice (newId : string) (i : Invoice) : M BillingStore unit := λ s,
  if bool_decide (is_Some (invoices s !! newId))
     || bool_decide (find_many (λ _ j, bool_decide (invoiceNumber j = invoiceNumber i ∨
          (is_Some (providerInvoiceId i) ∧ providerInvoiceId j = providerInvoiceId i)))
          (invoices s) ≠ [])
  then (s, Throw PrismaP2002)
  else (s <| invoices ::= <[newId := i]> |>, Ok tt).

(** [ref]: the provider's id of the invoice ([None]: undefined). *)
Definition createInvoice (newId subId cid : string) (amount : Z) (currency : string)
    (provider : BillingProvider) (ref : option string) : M BillingStore unit :=
  existing ← gets (λ s, match ref with
                        | Some r => if truthy ref then invoiceByProviderId r (invoices s) else None
                        | None => None
                        end);
  match existing with
  | Some _ => mret tt
  | None =>
      count ← gets (λ s, Z.of_nat (size (invoices s)));
      insertInvoice newId
        {| inv_companyId := cid; inv_subscriptionId := subId;
           invoiceNumber := invoiceNumberOf (b_now env) count; inv_amount := amount;
           inv_currency := currency; inv_provider := provider; providerInvoiceId := ref;
           inv_paidAt := Some (b_now env) |}
  end.

(** ** Mobile money *)

Definition verifyMobileMoneySignature (rawBody : string) (signature : option string)
    : M BillingStore unit :=
  if mm_sandbox (mobile env) && NODE_ENV_production env then
    throw (BadRequestException
      "Mobile money sandbox mode is forbidden in production. Set MOBILE_MONEY_SANDBOX=false and configure real API keys.")
  else if mm_sandbox (mobile env) then mret tt
  else match signature, mmHmac env with
  | Some sig, Some hmac =>
      if negb (truthy signature) then
        throw (BadRequestException "Missing x-mm-signature header — webhook rejected")
      else if bool_decide (sig = hmac rawBody) then mret tt
      else throw (BadRequestException "Invalid mobile money webhook signature")
  | Some sig, None =>
      if negb (truthy signature) then
        throw (BadRequestException "Missing x-mm-signature header — webhook rejected")
      else throw (BadRequestException
        "MOBILE_MONEY_WEBHOOK_SECRET not configured — cannot verify webhook authenticity")
  | None, _ => throw (BadRequestException "Missing x-mm-signature header — webhook rejected")
  end.

(** [findFirst({ where: { mobileMoneyRef } })]: Prisma drops an undefined
    filter, so that an undefined reference matches every subscription. *)
Definition byMobileRef (ref : option string) (t : gmap string Subscription)
    : option (string * Subscription) :=
  find_first (λ _ x, match ref with
                     | Some r => bool_decide (mobileMoneyRef x = Some r)
                     | None => true
                     end) t.

(** [plan] is the subscription's plan, which the foreign key guarantees. *)
Definition confirmMobileMoney (newId : string) (ref : option string) : M BillingStore unit :=
  found ← gets (λ s, byMobileRef ref (subscriptions s));
  match found with
  | None => mret tt
  | Some (id, x) =>
      if bool_decide (sub_status x = active) then mret tt
      else
        included ← gets (λ s, plans s !! sub_planId x);
        match included with
        | None => throw (OtherError "Inconsistent query result: Field plan is required")
        | Some plan =>
            updateSubscription id (λ r,
              r <| sub_status := active |>
                <| currentPeriodStart := b_now env |>
                <| currentPeriodEnd := periodEnd (b_now env) (plan_interval plan) |>) ;;
            createInvoice newId id (sub_companyId x) (plan_price plan) (plan_currency plan)
              (sub_provider x) ref
        end
  end.

(** BillingWebhookController.handleMobileMoneyWebhook on a parsed body. *)
Definition handleMobileMoneyWebhook (newId rawBody : string) (signature : option string)
    (isOrange : bool) (body : WebhookPayload) : M BillingStore unit :=
  if negb (BILLING_ENABLED env) then mret tt
  else
    verifyMobileMoneySignature rawBody signature ;;
    match handleWebhook body (if isOrange then orange_money else mvola) with
    | Some (ref, true) => confirmMobileMoney newId ref
    | _ => mret tt
    end.

(** ** Stripe webhook *)

Definition constructWebhookEvent (payload signature : string) : M BillingStore StripeEvent :=
  if negb (stripeConfigured env) then throw (OtherError "Stripe not configured")
  else match stripeVerify env with
       | None => throw (OtherError "STRIPE_WEBHOOK_SECRET not set")
       | Some verify =>
           match verify payload signature with Ok e => mret e | Throw e => throw e end
       end.

Definition byStripeId (sid : string) (t : gmap string Subscription) : option (string * Subscription) :=
  find_first (λ _ x, bool_decide (stripeSubscriptionId x = Some sid)) t.

Definition mailAdmins (cid : string) (mail : UserRow → Mail) : M BillingStore unit :=
  admins ← gets (activeAdmins cid);
  for_each (λ u, sendMail (mail u)) admins.

(** The subscription a non-empty Stripe id names. *)
Definition withStripeSub (sid : option string)
    (k : string → Subscription → M BillingStore unit) : M BillingStore unit :=
  match sid with
  | Some i =>
      if truthy sid then
        found ← gets (λ s, byStripeId i (subscriptions s));
        match found with Some (id, x) => k id x | None => mret tt end
      else mret tt
  | None => mret tt
  end.

(** The period is one month here, whatever the plan's interval. *)
Definition checkoutCompleted (newId : string) (cid sid customer : option string)
    : M BillingStore unit :=
  if negb (truthy cid) then mret tt
  else withStripeSub sid (λ id x,
    updateSubscription id (λ r,
      r <| sub_status := active |>
        <| currentPeriodStart := b_now env |>
        <| currentPeriodEnd := addMonths (b_now env) 1 |>
        <| stripeCustomerId := customer |>) ;;
    plan ← gets (λ s, plans s !! sub_planId x);
    match plan with
    | Some p => createInvoice newId id (sub_companyId x) (plan_price p) (plan_currency p) stripe sid
    | None => mret tt
    end ;;
    mailAdmins (sub_companyId x) (λ u,
      BillingActivated (u_email u) (u_firstName u)
        match plan with Some p => plan_name p | None => EmptyString end (adminLang u))).

Definition invoicePaid (newId : string) (sid : option string) (invoiceId : string)
    : M BillingStore unit :=
  withStripeSub sid (λ id x,
    included ← gets (λ s, plans s !! sub_planId x);
    match included with
    | None => mret tt
    | Some plan =>
        updateSubscription id (λ r,
          r <| sub_status := active |>
            <| currentPeriodStart := b_now env |>
            <| currentPeriodEnd := periodEnd (b_now env) (plan_interval plan) |>) ;;
        createInvoice newId id (sub_companyId x) (plan_price plan) (plan_currency plan) stripe
          (Some invoiceId)
    end).

Definition invoicePaymentFailed (sid : option string) : M BillingStore unit :=
  withStripeSub sid (λ id x,
    updateSubscription id (λ r, r <| sub_status := past_due |>) ;;
    mailAdmins (sub_companyId x) (λ u,
      BillingPaymentFailed (u_email u) (u_firstName u) (adminLang u))).

Definition subscriptionDeleted (sid : option string) : M BillingStore unit :=
  withStripeSub sid (λ id x,
    updateSubscription id (λ r, r <| sub_status := canceled |>
                                  <| canceledAt := Some (b_now env) |>) ;;
    mailAdmins (sub_companyId x) (λ u,
      BillingCanceled (u_email u) (u_firstName u) (adminLang u))).

Definition stripeEventKey (eventId : string) : string := "stripe:event:" +:+ eventId.

(** Whether the event is new; a new one is marked as processed at once, before
    it is processed. *)
Definition markEvent (eventId : string) : M BillingStore bool :=
  match link env with
  | RedisAbsent => mret true
  | RedisDown => throw (OtherError "Redis connection error")
  | RedisUp =>
      seen ← gets (λ s, redis_get (b_now env) (stripeEventKey eventId) (redis s));
      if truthy seen then mret false
      else modify (λ s, s <| redis ::= redis_set (b_now env) (stripeEventKey eventId) "1" 86400 |>) ;;
           mret true
  end.

Definition processEvent (newId : string) (b : StripeEventBody) : M BillingStore unit :=
  match b with
  | CheckoutSessionCompleted cid sid customer => checkoutCompleted newId cid sid customer
  | InvoicePaid sid invoiceId => invoicePaid newId sid invoiceId
  | InvoicePaymentFailed sid => invoicePaymentFailed sid
  | CustomerSubscriptionDeleted sid => subscriptionDeleted sid
  | OtherStripeEvent _ => mret tt
  end.

Definition handleStripeWebhook (newId payload signature : string) : M BillingStore unit :=
  event ← constructWebhookEvent payload signature;
  fresh ← markEvent (ev_id event);
  if fresh : bool then processEvent newId (ev_body event) else mret tt.

(** ** Crons *)

Definition cronLock (name : string) : M BillingStore bool := λ s,
  match acquireCronLock (link env) (INSTANCE_ID env) name 3600 (b_now env) (redis s) with
  | (r, ok) => (s <| redis := r |>, Ok ok)
  end.

(** One turn of a cron on a subscription read by its query. *)
Definition demote (st : SubscriptionStatus) (mail : Subscription → UserRow → Mail)
    (p : string * Subscription) : M BillingStore unit :=
  updateSubscription p.1 (λ r, r <| sub_status := st |>) ;;
  mailAdmins (sub_companyId p.2) (mail p.2).

Definition cron (name : string) (where_ : Subscription → bool) (st : SubscriptionStatus)
    (mail : Subscription → UserRow → Mail) : M BillingStore unit :=
  mine ← cronLock name;
  if negb mine then mret tt
  else if negb (BILLING_ENABLED env) then mret tt
  else
    rows ← gets (λ s, find_many (λ _ x, where_ x) (subscriptions s));
    for_each (demote st mail) rows.

Definition expired (x : Subscription) : bool :=
  bool_decide (sub_status x = active) && (currentPeriodEnd x <? b_now env).

Definition overdue (x : Subscription) : bool :=
  bool_decide (sub_status x = past_due)
  && (currentPeriodEnd x <? b_now env - 7 * 24 * 60 * 60 * 1000).

Definition handleExpiredSubscriptions : M BillingStore unit :=
  cron "billing.expiredSubscriptions" expired past_due
    (λ x u, BillingExpired (u_email u) (u_firstName u) (currentPeriodEnd x) (adminLang u)).

Definition handleUnpaidSubscriptions : M BillingStore unit :=
  cron "billing.unpaidSubscriptions" overdue unpaid
    (λ x u, BillingSuspended (u_email u) (u_firstName u) (adminLang u)).

(** ** Usage *)

Definition countCompany (cid : string) (since : option Z) (t : gmap string CountedRow) : Z :=
  count_where (λ _ r, bool_decide (c_companyId r = cid ∧ c_deletedAt r = None)
                      && match since with Some d => d <=? c_createdAt r | None => true end) t.
Definition countUsers (cid : string) (t : gmap string UserRow) : Z :=
  count_where (λ _ u, bool_decide (u_companyId u = cid ∧ u_deletedAt u = None) && u_isActive u) t.

Definition freePlan (s : BillingStore) : option BillingPlan :=
  snd <$> find_first (λ _ p, bool_decide (plan_tier p = tier_free)) (plans s).

Record Usage := mkUsage {
  deliveriesUsed : Z; deliveriesLimit : Z;
  vehiclesUsed : Z; vehiclesLimit : Z;
  usersUsed : Z; usersLimit : Z
}.

Definition getCompanyUsage (cid : string) : M BillingStore Usage :=
  gets (λ s,
    let plan :=
      match subscriptionOf cid s ≫= (λ p, plans s !! sub_planId p.2) with
      | Some p => Some p
      | None => freePlan s
      end in
    let limit (f : BillingPlan → Z) := match plan with Some p => f p | None => 0 end in
    {| deliveriesUsed := countCompany cid (Some (startOfMonth (b_now env))) (deliveryRows s);
       deliveriesLimit := limit plan_maxDeliveriesPerMonth;
       vehiclesUsed := countCompany cid None (vehicleRows s);
       vehiclesLimit := limit plan_maxVehicles;
       usersUsed := countUsers cid (users s);
       usersLimit := limit plan_maxUsers |}).
End Service.
