(* ===== verification/BillingGuards.v ===== *)
(** * common/guards: UsageGuard and SubscriptionGuard

    The two guards that read subscriptions: the quotas of a plan (behind
    BILLING_ENABLED) and the cut of access when the trial or the paid period is
    over, with its lazy expiry. *)

From S2P Require Import Prelude JsString JsNum JsDate Redis BillingModel MobileMoney Billing.

#[local] Open Scope string_scope.
#[local] Open Scope list_scope.
#[local] Open Scope Z_scope.

(** ** UsageGuard *)

Record HttpRequest := mkRequest {
  rq_path : string;
  rq_method : string;
  rq_companyId : option string  (** of the request or of its user *)
}.

Definition over (used limit : Z) : bool := limit <=? used.

Definition msg_deliveries (limit : Z) (name : string) : string :=
  "Vous avez atteint la limite de " +:+ string_of_Z limit +:+
  " livraisons par mois de votre forfait " +:+ name +:+
  ". Passez à un forfait supérieur pour continuer.".
Definition msg_vehicles (limit : Z) (name : string) : string :=
  "Vous avez atteint la limite de " +:+ string_of_Z limit +:+
  " véhicules de votre forfait " +:+ name +:+
  ". Passez à un forfait supérieur pour ajouter plus de véhicules.".
Definition msg_users (limit : Z) (name : string) : string :=
  "Vous avez atteint la limite de " +:+ string_of_Z limit +:+
  " utilisateurs de votre forfait " +:+ name +:+
  ". Passez à un forfait supérieur pour ajouter plus d'utilisateurs.".

Definition enforceLimit (now : Z) (cid : string) (plan : BillingPlan) (rq : HttpRequest)
    : M BillingStore unit :=
  let posts (part : string) := includes part (rq_path rq) && bool_decide (rq_method rq = "POST") in
  (if posts "/deliveries" then
     count ← gets (λ s, countCompany cid (Some (startOfMonth now)) (deliveryRows s));
     ensure (negb (over count (plan_maxDeliveriesPerMonth plan)))
       (ForbiddenException (msg_deliveries (plan_maxDeliveriesPerMonth plan) (plan_name plan)))
   else mret tt) ;;
  (if posts "/vehicles" then
     count ← gets (λ s, countCompany cid None (vehicleRows s));
     ensure (negb (over count (plan_maxVehicles plan)))
       (ForbiddenException (msg_vehicles (plan_maxVehicles plan) (plan_name plan)))
   else mret tt) ;;
  (if posts "/users" then
     count ← gets (λ s, countUsers cid (users s));
     ensure (negb (over count (plan_maxUsers plan)))
       (ForbiddenException (msg_users (plan_maxUsers plan) (plan_name plan)))
   else mret tt).

Definition msg_suspended : string :=
  "Votre abonnement est suspendu. Rendez-vous dans la section Facturation pour le réactiver.".

(** The subscription with its plan. *)
Definition planOf (cid : string) (s : BillingStore) : option (Subscription * BillingPlan) :=
  match subscriptionOf cid s with
  | Some (_, x) => match plans s !! sub_planId x with Some p => Some (x, p) | None => None end
  | None => None
  end.

Definition usageGuard (env : BillingEnv) (rq : HttpRequest) : M BillingStore bool :=
  if negb (BILLING_ENABLED env) then mret true
  else match rq_companyId rq with
  | None => mret true
  | Some cid =>
      if negb (truthy (Some cid)) then mret true
      else
        found ← gets (planOf cid);
        match found with
        | None =>
            free ← gets freePlan;
            match free with
            | Some p => enforceLimit (b_now env) cid p rq
            | None => mret tt
            end ;;
            mret true
        | Some (x, p) =>
            ensure (bool_decide (sub_status x = active)) (ForbiddenException msg_suspended) ;;
            enforceLimit (b_now env) cid p rq ;;
            mret true
        end
  end.

(** ** SubscriptionGuard *)

Record JwtPayload := mkPayload {
  jwt_type : option string;
  jwt_companyId : option string
}.

Section SubscriptionGuard.
(** jsonwebtoken's [verify] under JWT_ACCESS_SECRET, HS256 only. *)
Context (verify : string → option JwtPayload).

(** The company whose access is to be checked. *)
Definition guardedCompany (skip : bool) (authorization : option string) : option string :=
  if skip then None
  else match authorization with
  | Some h =>
      if startsWith "Bearer " h then
        match verify (trim (sliceFrom 7 h)) with
        | Some p =>
            if bool_decide (jwt_type p = Some "platform_admin") || negb (truthy (jwt_companyId p))
            then None else jwt_companyId p
        | None => None
        end
      else None
  | None => None
  end.

Definition expire (id : string) : M BillingStore bool :=
  updateSubscription id (λ r, r <| sub_status := past_due |>) ;;
  throw ManualPaymentRequiredException.

(** The access of a company at [now]. *)
Definition checkAccess (now : Z) (cid : string) : M BillingStore bool :=
  found ← gets (subscriptionOf cid);
  match found with
  | None => throw ManualPaymentRequiredException
  | Some (id, x) =>
      match sub_status x with
      | trialing =>
          match trialEndsAt x with
          | Some t => if t <? now then expire id else mret true
          | None => mret true
          end
      | active => if currentPeriodEnd x <? now then expire id else mret true
      | _ => throw ManualPaymentRequiredException
      end
  end.

Definition subscriptionGuard (now : Z) (skip : bool) (authorization : option string)
    : M BillingStore bool :=
  match guardedCompany skip authorization with
  | None => mret true
  | Some cid => checkAccess now cid
  end.
End SubscriptionGuard.
