(* ===== verification/ManualBilling.v ===== *)
(** * modules/manual-billing and platform-admin: manual payments

    Proofs of payment submitted by companies (manual-billing.service.ts), their
    review by platform administrators (payment-proofs.service.ts), and the
    activation codes (activation-code.util.ts) that turn an approved proof into
    thirty days of subscription. *)

From S2P Require Import Prelude JsString JsNum Redis BillingModel.

#[local] Open Scope string_scope.
#[local] Open Scope list_scope.
#[local] Open Scope Z_scope.

(** ** Activation codes *)

Definition CODE_ALPHABET : string := "ABCDEFGHJKMNPQRSTUVWXYZ23456789".
Definition CODE_SUFFIX_LENGTH : nat := 8.

Definition codeChar (byte : Z) : ascii :=
  match String.get (Z.to_nat (byte mod Z.of_nat (String.length CODE_ALPHABET))) CODE_ALPHABET with
  | Some c => c
  | None => "?"%char
  end.

Record GeneratedActivationCode := mkCode { code : string; prefix : string; code_hash : string }.

Section Codes.
(** crypto's SHA-256, in hexadecimal. *)
Context (sha256 : string → string).

(** [rawCode.trim().toUpperCase()] *)
Definition normalizeCode (rawCode : string) : string := toUpperCase (trim rawCode).
Definition hashActivationCode (rawCode : string) : string := sha256 (normalizeCode rawCode).

(** [bytes]: the eight random bytes drawn. *)
Definition generateActivationCode (bytes : list Z) : GeneratedActivationCode :=
  let suffix := String.string_of_list_ascii (map codeChar (take CODE_SUFFIX_LENGTH bytes)) in
  let c := "PAY-" +:+ suffix in
  mkCode c ("PAY-" +:+ sliceTo 4 suffix) (hashActivationCode c).

(** ** ManualBillingService *)

Definition MAX_PROOF_IMAGE_BYTES : Z := 5 * 1024 * 1024.
Definition PAID_SUBSCRIPTION_DURATION_MS : Z := 30 * 24 * 60 * 60 * 1000.
Definition ACTIVATION_CODE_VALIDITY_MS : Z := 14 * 24 * 60 * 60 * 1000.

Record BillingStatus := mkStatus {
  bs_status : option SubscriptionStatus;
  bs_trialEndsAt : option Z;
  daysRemaining : option Z;
  currentPlan : option (string * string)
}.

(** [Math.ceil(ms / 86_400_000)] *)
Definition ceilDays (ms : Z) : Z := - ((- ms) / 86400000).

Definition getStatus (now : Z) (cid : string) : M BillingStore BillingStatus :=
  gets (λ s,
    match subscriptionOf cid s with
    | None => mkStatus None None None None
    | Some (_, x) =>
        let referenceEnd :=
          if bool_decide (sub_status x = trialing) then trialEndsAt x
          else Some (currentPeriodEnd x) in
        mkStatus (Some (sub_status x)) (trialEndsAt x)
          ((λ e, Z.max 0 (ceilDays (e - now))) <$> referenceEnd)
          ((λ p, (sub_planId x, plan_name p)) <$> plans s !! sub_planId x)
    end).

(** The uploaded screenshot. *)
Record UploadedFile := mkFile { mimetype : string; file_size : Z }.
Definition ALLOWED_IMAGE_MIME_TYPES : list string := ["image/jpeg"; "image/png"; "image/webp"].

Record SubmitPaymentProofDto := mkProofDto {
  spd_claimedPlanId : string;
  spd_paymentMethodId : string;
  spd_reference : string
}.

Definition msg_pendingProof : string :=
  "Une preuve de paiement est déjà en attente de vérification pour votre société".

Definition pendingProof (cid : string) (t : gmap string PaymentProof) : option (string * PaymentProof) :=
  find_first (λ _ p, bool_decide (proof_companyId p = cid ∧ proof_status p = proof_pending)) t.

(** [prisma.paymentProof.create] under the partial unique index
    payment_proofs_company_pending_unique. *)
Definition insertProof (newId : string) (p : PaymentProof) : M BillingStore unit := λ s,
  if bool_decide (is_Some (paymentProofs s !! newId))
     || (bool_decide (proof_status p = proof_pending)
         && bool_decide (is_Some (pendingProof (proof_companyId p) (paymentProofs s))))
  then (s, Throw PrismaP2002)
  else (s <| paymentProofs ::= <[newId := p]> |>, Ok tt).

Definition submitProof (newId cid userId : string) (dto : SubmitPaymentProofDto)
    (file : option UploadedFile) : M BillingStore PaymentProof :=
  match file with
  | None => throw (BadRequestException "Une capture de paiement est requise")
  | Some f =>
      ensure (bool_decide (mimetype f ∈ ALLOWED_IMAGE_MIME_TYPES))
        (BadRequestException "Type de fichier invalide — JPEG, PNG ou WebP uniquement") ;;
      ensure (file_size f <=? MAX_PROOF_IMAGE_BYTES)
        (BadRequestException "Image trop volumineuse (5 Mo maximum)") ;;
      plan ← gets (λ s, plans s !! spd_claimedPlanId dto);
      match plan with
      | Some p =>
          if plan_isActive p && negb (bool_decide (plan_tier p = tier_free)) then
            method ← gets (λ s, paymentMethods s !! spd_paymentMethodId dto);
            ensure (match method with Some m => pm_isActive m | None => false end)
              (NotFoundException "Moyen de paiement introuvable") ;;
            existing ← gets (λ s, pendingProof cid (paymentProofs s));
            ensure (bool_decide (existing = None)) (ConflictException msg_pendingProof) ;;
            let row :=
              {| proof_companyId := cid; submittedById := userId;
                 claimedPlanId := spd_claimedPlanId dto; claimedAmount := plan_price p;
                 paymentMethodId := spd_paymentMethodId dto;
                 reference := trim (spd_reference dto); proof_status := proof_pending;
                 reviewedById := None; reviewedAt := None; rejectionReason := None;
                 activationCodeHash := None; activationCodePrefix := None;
                 activationExpiresAt := None; redeemedAt := None |} in
            try_catch (insertProof newId row)
              (λ e, match e with
                    | PrismaP2002 => throw (ConflictException msg_pendingProof)
                    | _ => throw e
                    end) ;;
            mret row
          else throw (NotFoundException "Forfait introuvable")
      | None => throw (NotFoundException "Forfait introuvable")
      end
  end.

Definition proofByHash (h : string) (t : gmap string PaymentProof) : option (string * PaymentProof) :=
  find_first (λ _ p, bool_decide (activationCodeHash p = Some h)) t.

(** [prisma.paymentProof.update]; the hash is unique. *)
Definition updateProof (id : string) (f : PaymentProof → PaymentProof) : M BillingStore unit := λ s,
  match paymentProofs s !! id with
  | None => (s, Throw PrismaP2025)
  | Some p =>
      if bool_decide (is_Some (activationCodeHash (f p)))
         && bool_decide (find_many (λ k q, bool_decide (k ≠ id ∧
              activationCodeHash q = activationCodeHash (f p))) (paymentProofs s) ≠ [])
      then (s, Throw PrismaP2002)
      else (s <| paymentProofs ::= <[id := f p]> |>, Ok tt)
  end.

(** The columns a redeemed code writes on the subscription. *)
Definition paidSubscription (now : Z) (planId : string) (x : Subscription) : Subscription :=
  x <| sub_planId := planId |>
    <| sub_status := active |>
    <| sub_provider := manual |>
    <| currentPeriodStart := now |>
    <| currentPeriodEnd := now + PAID_SUBSCRIPTION_DURATION_MS |>.

Definition blankSubscription (now : Z) (cid : string) : Subscription :=
  {| sub_companyId := cid; sub_planId := EmptyString; sub_status := active;
     sub_provider := stripe; stripeSubscriptionId := None; stripeCustomerId := None;
     mobileMoneyRef := None; currentPeriodStart := now; currentPeriodEnd := now;
     canceledAt := None; trialEndsAt := None |}.

Definition upsertPaid (newId cid : string) (now : Z) (planId : string) : M BillingStore unit :=
  found ← gets (subscriptionOf cid);
  match found with
  | Some (id, _) => updateSubscription id (paidSubscription now planId)
  | None => createSubscription newId (paidSubscription now planId (blankSubscription now cid))
  end.

(** [newId]: the id the subscription gets when the company has none. *)
Definition redeem (newId cid rawCode : string) (now : Z) : M BillingStore unit :=
  found ← gets (λ s, proofByHash (hashActivationCode rawCode) (paymentProofs s));
  match found with
  | None => throw (NotFoundException "Code invalide")
  | Some (id, p) =>
      ensure (bool_decide (proof_companyId p = cid)) (NotFoundException "Code invalide") ;;
      ensure (bool_decide (redeemedAt p = None)) (BadRequestException "Ce code a déjà été utilisé") ;;
      ensure (match activationExpiresAt p with Some t => now <=? t | None => true end)
        (BadRequestException "Ce code a expiré — contactez le support pour un nouveau code") ;;
      transaction
        (updateProof id (λ q, q <| redeemedAt := Some now |>) ;;
         upsertPaid newId cid now (claimedPlanId p))
  end.

(** ** PaymentProofsService *)

Definition approve (id adminId : string) (now : Z) (bytes : list Z)
    : M BillingStore (string * Z) :=
  found ← gets (λ s, paymentProofs s !! id);
  match found with
  | None => throw (NotFoundException "Preuve introuvable")
  | Some p =>
      ensure (bool_decide (proof_status p = proof_pending))
        (BadRequestException "Cette preuve a déjà été traitée") ;;
      let g := generateActivationCode bytes in
      let expiresAt := now + ACTIVATION_CODE_VALIDITY_MS in
      updateProof id (λ q,
        q <| proof_status := proof_approved |>
          <| reviewedById := Some adminId |>
          <| reviewedAt := Some now |>
          <| activationCodeHash := Some (code_hash g) |>
          <| activationCodePrefix := Some (prefix g) |>
          <| activationExpiresAt := Some expiresAt |>) ;;
      company ← gets (λ s, companies s !! proof_companyId p);
      submitter ← gets (λ s, users s !! submittedById p);
      plan ← gets (λ s, plans s !! claimedPlanId p);
      match company, submitter, plan with
      | Some c, Some u, Some pl =>
          match co_email c with
          | Some e =>
              if truthy (Some e)
              then sendMail (PaymentProofApproved e (u_firstName u) (plan_name pl) (code g) expiresAt)
              else mret tt
          | None => mret tt
          end
      | _, _, _ => mret tt
      end ;;
      mret (code g, expiresAt)
  end.

Definition reject (id adminId reason : string) (now : Z) : M BillingStore unit :=
  found ← gets (λ s, paymentProofs s !! id);
  match found with
  | None => throw (NotFoundException "Preuve introuvable")
  | Some p =>
      ensure (bool_decide (proof_status p = proof_pending))
        (BadRequestException "Cette preuve a déjà été traitée") ;;
      updateProof id (λ q,
        q <| proof_status := proof_rejected |>
          <| reviewedById := Some adminId |>
          <| reviewedAt := Some now |>
          <| rejectionReason := Some reason |>) ;;
      company ← gets (λ s, companies s !! proof_companyId p);
      submitter ← gets (λ s, users s !! submittedById p);
      match company, submitter with
      | Some c, Some u =>
          match co_email c with
          | Some e => if truthy (Some e) then sendMail (PaymentProofRejected e (u_firstName u) reason)
                      else mret tt
          | None => mret tt
          end
      | _, _ => mret tt
      end
  end.
End Codes.
