(* ===== verification/BillingProps.v ===== *)
(** * modules/billing: properties

    Replay protection of the webhooks, activation by mobile money, invoice
    numbers, and the exact effect of the expiry cron. *)

From S2P Require Import Prelude JsString JsNum JsDate Redis BillingModel MobileMoney Billing.

#[local] Open Scope string_scope.
#[local] Open Scope list_scope.
#[local] Open Scope Z_scope.

(** ** A concrete store for the witnesses *)

Definition demoPlan : BillingPlan :=
  mkPlan tier_pro "Pro" None 5000 "EUR" "year" 10 100 5 [] true.
Definition demoSub (st : SubscriptionStatus) (endsAt : Z) : Subscription :=
  {| sub_companyId := "c1"; sub_planId := "p1"; sub_status := st; sub_provider := mvola;
     stripeSubscriptionId := Some "sub_1"; stripeCustomerId := None; mobileMoneyRef := Some "ref1";
     currentPeriodStart := 0; currentPeriodEnd := endsAt; canceledAt := None; trialEndsAt := None |}.
Definition demoBilling (st : SubscriptionStatus) (endsAt : Z) : BillingStore :=
  {| plans := {[ "p1" := demoPlan ]}; subscriptions := {[ "s1" := demoSub st endsAt ]};
     invoices := ∅; paymentProofs := ∅; paymentMethods := ∅;
     companies := {[ "c1" := mkCompany "Rapid" (Some "c@x.mg") ]};
     users := {[ "u1" := mkUser "c1" "a@x.mg" "Aina" role_admin true None ]};
     deliveryRows := ∅; vehicleRows := ∅; redis := ∅; mails := []; mvolaToken := None |}.
Definition demoBillingEnv : BillingEnv :=
  {| b_now := 1000; BILLING_ENABLED := true; NODE_ENV_production := true; APP_URL := "https://x";
     link := RedisUp; INSTANCE_ID := "i1"; stripeConfigured := true;
     stripeSession := λ _ _, Throw (OtherError "unreachable");
     stripeVerify := Some (λ _ _, Ok (mkStripeEvent "evt_1" (InvoicePaymentFailed (Some "sub_1"))));
     mobile := mkMmEnv 1000 false None None None EmptyString false (λ _, FetchFailed) (λ _, FetchFailed);
     mmHmac := None |}.

(** ** What the handlers leave alone *)

Definition keeps_redis (s s' : BillingStore) : Prop := redis s' = redis s.
#[export] Instance keeps_redis_preorder : PreOrder keeps_redis.
Proof. split; [by intros s|]. intros s1 s2 s3 H1 H2. unfold keeps_redis in *. congruence. Qed.

Lemma updateSubscription_redis id f : footprint keeps_redis (updateSubscription id f).
Proof.
  intros s. unfold updateSubscription. destruct (subscriptions s !! id); [|done].
  by destruct (subscriptionClashes _ _ _).
Qed.
Lemma sendMail_redis m : footprint keeps_redis (sendMail m).
Proof. by intros s. Qed.
Lemma insertInvoice_redis id i : footprint keeps_redis (insertInvoice id i).
Proof. intros s. unfold insertInvoice. by destruct (_ || _). Qed.
#[export] Hint Resolve updateSubscription_redis sendMail_redis insertInvoice_redis : footprint.

Lemma createInvoice_redis env n subId cid a c p r :
  footprint keeps_redis (createInvoice env n subId cid a c p r).
Proof. unfold createInvoice. footprint_auto. Qed.
Lemma mailAdmins_redis cid m : footprint keeps_redis (mailAdmins cid m).
Proof. unfold mailAdmins. footprint_auto. Qed.
#[export] Hint Resolve createInvoice_redis mailAdmins_redis : footprint.

Lemma processEvent_redis env n b : footprint keeps_redis (processEvent env n b).
Proof.
  destruct b; simpl; unfold checkoutCompleted, invoicePaid, invoicePaymentFailed,
    subscriptionDeleted, withStripeSub; footprint_auto.
Qed.

(** ** The Stripe webhook *)

Lemma constructWebhookEvent_store env payload signature s :
  (constructWebhookEvent env payload signature s).1 = s.
Proof.
  unfold constructWebhookEvent. destruct (negb _); [done|]. destruct (stripeVerify env) as [v|]; [|done].
  by destruct (v payload signature).
Qed.

Lemma markEvent_fresh env e s :
  link env = RedisUp → redis_get (b_now env) (stripeEventKey e) (redis s) = None →
  markEvent env e s = (s <| redis ::= redis_set (b_now env) (stripeEventKey e) "1" 86400 |>, Ok true).
Proof. intros Hl H. unfold markEvent. rewrite Hl, bind_run. unfold gets. by rewrite H. Qed.

Lemma markEvent_seen env e s :
  link env = RedisUp → redis_get (b_now env) (stripeEventKey e) (redis s) = Some "1" →
  markEvent env e s = (s, Ok false).
Proof. intros Hl H. unfold markEvent. rewrite Hl, bind_run. unfold gets. by rewrite H. Qed.

(** C6: with Redis, a Stripe event delivered again within 24 hours of its
    first delivery is acknowledged without any effect, whatever happened in
    between (and even if its first processing failed). *)
Theorem stripe_event_once env env' n n' payload signature ev s s1 r s2 :
  link env = RedisUp → link env' = RedisUp →
  run_result (constructWebhookEvent env payload signature) s = Ok ev →
  run_result (constructWebhookEvent env' payload signature) s2 = Ok ev →
  redis_get (b_now env) (stripeEventKey (ev_id ev)) (redis s) = None →
  handleStripeWebhook env n payload signature s = (s1, r) →
  redis s2 !! stripeEventKey (ev_id ev) = redis s1 !! stripeEventKey (ev_id ev) →
  b_now env' < b_now env + 86400000 →
  handleStripeWebhook env' n' payload signature s2 = (s2, Ok tt).
Proof.
  intros Hl Hl' Hv Hv' Hnew Hrun Hkey Hnow.
  unfold run_result in *. unfold handleStripeWebhook in *. rewrite bind_run in Hrun |- *.
  pose proof (constructWebhookEvent_store env payload signature s) as Hs.
  pose proof (constructWebhookEvent_store env' payload signature s2) as Hs2.
  destruct (constructWebhookEvent env payload signature s) as [x [e|?]]; simpl in *; simplify_eq.
  destruct (constructWebhookEvent env' payload signature s2) as [y [e'|?]]; simpl in *; simplify_eq.
  rewrite bind_run, (markEvent_fresh env) in Hrun by done.
  pose proof (processEvent_redis env n (ev_body ev)
    (s <| redis ::= redis_set (b_now env) (stripeEventKey (ev_id ev)) "1" 86400 |>)) as HR.
  rewrite Hrun in HR. unfold keeps_redis in HR. simpl in HR.
  rewrite bind_run, (markEvent_seen env'); [done|done|].
  transitivity (redis_get (b_now env') (stripeEventKey (ev_id ev))
    (redis_set (b_now env) (stripeEventKey (ev_id ev)) "1" 86400 (redis s))).
  - unfold redis_get. by rewrite Hkey, HR.
  - rewrite redis_get_set. by rewrite (proj2 (Z.ltb_lt _ _)) by lia.
Qed.

Lemma stripe_event_once_witness :
  handleStripeWebhook (demoBillingEnv) "n" "{}" "sig"
    (handleStripeWebhook demoBillingEnv "n" "{}" "sig" (demoBilling active 500)).1 =
  ((handleStripeWebhook demoBillingEnv "n" "{}" "sig" (demoBilling active 500)).1, Ok tt).
Proof.
  apply (stripe_event_once demoBillingEnv demoBillingEnv "n" "n" "{}" "sig"
    (mkStripeEvent "evt_1" (InvoicePaymentFailed (Some "sub_1"))) (demoBilling active 500)
    (handleStripeWebhook demoBillingEnv "n" "{}" "sig" (demoBilling active 500)).1 (Ok tt));
    try reflexivity.
Defined.

(** The checkout webhook grants one month even of a yearly plan, which the
    other payment paths count as a year. *)
Lemma yearly_checkout_is_cut_short :
  let s1 := (processEvent demoBillingEnv "n"
    (CheckoutSessionCompleted (Some "c1") (Some "sub_1") None) (demoBilling incomplete 0)).1 in
  let s2 := (processEvent demoBillingEnv "n"
    (InvoicePaid (Some "sub_1") "in_1") (demoBilling incomplete 0)).1 in
  currentPeriodEnd <$> subscriptions s1 !! "s1" = Some (addMonths 1000 1) ∧
  currentPeriodEnd <$> subscriptions s2 !! "s1" = Some (addMonths 1000 12).
Proof. split; vm_compute; reflexivity. Qed.

(** ** Mobile money *)

(** A signed notification without a reference activates a subscription it does
    not name. *)
Lemma undefined_reference_activates :
  sub_status <$> subscriptions
    (confirmMobileMoney demoBillingEnv "n" None (demoBilling incomplete 0)).1 !! "s1" = Some active.
Proof. vm_compute. reflexivity. Qed.

Definition only_sub (r : string) (id : string) (t : gmap string Subscription) : Prop :=
  ∀ j y, t !! j = Some y → mobileMoneyRef y = Some r → j = id.

Lemma byMobileRef_only r id x t :
  t !! id = Some x → mobileMoneyRef x = Some r → only_sub r id t →
  byMobileRef (Some r) t = Some (id, x).
Proof.
  intros Hx Hr Ho. unfold byMobileRef.
  destruct (find_first_is_Some (λ _ y, bool_decide (mobileMoneyRef y = Some r)) t id x)
    as (j & y & E); [done|by rewrite bool_decide_eq_true|]. rewrite E.
  apply find_first_Some in E as [Hy Hc]. rewrite bool_decide_eq_true in Hc.
  assert (j = id) as -> by eauto. congruence.
Qed.

Lemma createInvoice_subs env n subId cid a c p r s :
  subscriptions (createInvoice env n subId cid a c p r s).1 = subscriptions s.
Proof.
  unfold createInvoice. rewrite bind_run. unfold gets at 1.
  unfold gets, insertInvoice, mbind, M_bind. by repeat split_match.
Qed.

Lemma insertInvoice_Ok n i s s' u :
  insertInvoice n i s = (s', Ok u) → s' = s <| invoices ::= <[n := i]> |> ∧ invoices s !! n = None.
Proof.
  unfold insertInvoice. destruct (_ || _) eqn:E; [done|]. intros H. simplify_eq. split; [done|].
  apply orb_false_iff in E as [E _]. apply bool_decide_eq_false_1 in E.
  by apply eq_None_not_Some.
Qed.

Lemma createInvoice_paid env n subId cid a c p r s s' u :
  truthy (Some r) = true → createInvoice env n subId cid a c p (Some r) s = (s', Ok u) →
  ∃ id i, invoices s' !! id = Some i ∧ providerInvoiceId i = Some r.
Proof.
  intros Ht. unfold createInvoice. rewrite Ht, bind_run. unfold gets at 1.
  destruct (invoiceByProviderId r (invoices s)) as [[id i]|] eqn:E.
  - intros H. unfold mret, M_ret in H. simplify_eq. apply find_first_Some in E as [Hi Hc].
    apply bool_decide_eq_true in Hc. eauto.
  - rewrite bind_run. unfold gets. intros H. apply insertInvoice_Ok in H as [-> Hn].
    simpl. eexists n, _. rewrite lookup_insert_eq. split; [done|done].
Qed.

(** C7: a confirmed mobile payment activates the one subscription that waits
    for its reference, for the period of its plan from now on, keeps an invoice
    for that reference, touches no other subscription, and confirming it again
    changes nothing. *)
Theorem mobile_confirmation_once env env' n n' r id x plan s s1 :
  truthy (Some r) = true → subscriptions s !! id = Some x → mobileMoneyRef x = Some r →
  only_sub r id (subscriptions s) → plans s !! sub_planId x = Some plan → sub_status x ≠ active →
  confirmMobileMoney env n (Some r) s = (s1, Ok tt) →
  subscriptions s1 = <[id := x <| sub_status := active |> <| currentPeriodStart := b_now env |>
                               <| currentPeriodEnd := periodEnd (b_now env) (plan_interval plan) |>]>
                       (subscriptions s) ∧
  (∃ iid i, invoices s1 !! iid = Some i ∧ providerInvoiceId i = Some r) ∧
  confirmMobileMoney env' n' (Some r) s1 = (s1, Ok tt).
Proof.
  intros Ht Hx Hr Ho Hp Hst H. unfold confirmMobileMoney in H. rewrite bind_run in H.
  unfold gets at 1 in H. rewrite (byMobileRef_only r id x) in H by done.
  rewrite bool_decide_eq_false_2 in H by done. rewrite bind_run in H. unfold gets at 1 in H.
  rewrite Hp in H. rewrite bind_run in H. unfold updateSubscription in H. rewrite Hx in H.
  destruct (subscriptionClashes _ _ _) eqn:Ec; [done|].
  match type of H with createInvoice _ _ _ _ _ _ _ _ ?st = _ =>
    pose proof (createInvoice_subs env n id (sub_companyId x) (plan_price plan) (plan_currency plan)
      (sub_provider x) (Some r) st) as HS end.
  rewrite H in HS. simpl in HS. split_and!; [done|by eapply createInvoice_paid|].
  unfold confirmMobileMoney. rewrite bind_run. unfold gets at 1. rewrite HS.
  erewrite byMobileRef_only; [|apply lookup_insert_eq|exact Hr|].
  - rewrite bool_decide_eq_true_2 by done. reflexivity.
  - intros j y Hj Hy. apply lookup_insert_Some in Hj as [[-> _]|[_ Hj]]; eauto.
Qed.

Lemma mobile_confirmation_once_witness :
  let s := demoBilling incomplete 0 in
  let s1 := (confirmMobileMoney demoBillingEnv "n" (Some "ref1") s).1 in
  subscriptions s1 = <["s1" := (demoSub incomplete 0) <| sub_status := active |>
      <| currentPeriodStart := 1000 |> <| currentPeriodEnd := periodEnd 1000 "year" |>]>
    (subscriptions s) ∧
  (∃ iid i, invoices s1 !! iid = Some i ∧ providerInvoiceId i = Some "ref1") ∧
  confirmMobileMoney demoBillingEnv "m" (Some "ref1") s1 = (s1, Ok tt).
Proof.
  apply (mobile_confirmation_once demoBillingEnv demoBillingEnv "n" "m" "ref1" "s1"
    (demoSub incomplete 0) demoPlan (demoBilling incomplete 0)); try reflexivity; [|done].
  intros j y Hj _. simpl in Hj. by apply lookup_singleton_Some in Hj as [<- _].
Defined.

(** ** Invoice numbers *)

(** Numbers as createInvoice gives them: the k-th invoice of the table has the
    number k, at a date after the epoch. *)
Definition numbered_invoices (t : gmap string Invoice) : Prop :=
  ∀ id i, t !! id = Some i →
    ∃ d k, 0 ≤ d ∧ 0 ≤ k < Z.of_nat (size t) ∧ invoiceNumber i = invoiceNumberOf d k.

Lemma digits_no_dash (n : N) : allChars (λ c, negb (bool_decide (c = "-"%char))) (pretty n).
Proof.
  apply pretty_chars. intros k Hk.
  assert (∃ j, (j < 10)%nat ∧ k = N.of_nat j) as (j & Hj & ->) by (exists (N.to_nat k); lia).
  do 10 (destruct j as [|j]; [reflexivity|]). lia.
Qed.

Lemma dash_split a b a' b' :
  allChars (λ c, negb (bool_decide (c = "-"%char))) a →
  allChars (λ c, negb (bool_decide (c = "-"%char))) a' →
  String.append a (String "-"%char b) = String.append a' (String "-"%char b') → b = b'.
Proof.
  revert a'. induction a as [|c a IH]; intros [|c' a'] Ha Ha' H;
    rewrite ?allChars_cons in *; destruct_and?.
  - by injection H.
  - injection H as <- _. by match goal with H : negb _ = true |- _ => vm_compute in H end.
  - injection H as -> _. by match goal with H : negb _ = true |- _ => vm_compute in H end.
  - injection H as -> H. by eapply IH.
Qed.

Lemma digitsValue_pad n s : digitsValue (pad_zeros n s) = digitsValue s.
Proof.
  unfold pad_zeros. induction (n - String.length s)%nat as [|k IH]; [done|exact IH].
Qed.

Lemma string_of_Z_nonneg z : 0 ≤ z → string_of_Z z = pretty (Z.to_N z).
Proof. unfold string_of_Z. intros H. by destruct z; try lia. Qed.

Lemma invoiceNumberOf_inj d d' k k' :
  0 ≤ YearFromTime d → 0 ≤ YearFromTime d' → 0 ≤ k → 0 ≤ k' →
  invoiceNumberOf d k = invoiceNumberOf d' k' → k = k'.
Proof.
  intros Hd Hd' Hk Hk' H. unfold invoiceNumberOf in H.
  apply (inj (String.append "INV-")) in H. rewrite !string_of_Z_nonneg in H by lia.
  apply dash_split in H; [|apply digits_no_dash..].
  apply (f_equal digitsValue) in H. rewrite !digitsValue_pad, !digits_pretty in H. lia.
Qed.

Lemma YearFromTime_nonneg d : 0 ≤ d → 0 ≤ YearFromTime d.
Proof.
  intros H. unfold YearFromTime. pose proof (YearFromDay_spec (Day d)) as [_ HS].
  assert (0 ≤ Day d) by (apply Z.div_pos; [done|reflexivity]).
  revert HS. generalize (YearFromDay (Day d)) as y. intros y HS.
  destruct (decide (0 ≤ y)) as [|Hn]; [done|exfalso]. unfold DayFromYear in HS.
  Z.to_euclidean_division_equations; lia.
Qed.

Definition newInvoice (env : BillingEnv) (subId cid : string) (amount : Z) (currency : string)
    (p : BillingProvider) (r : string) (s : BillingStore) : Invoice :=
  {| inv_companyId := cid; inv_subscriptionId := subId;
     invoiceNumber := invoiceNumberOf (b_now env) (Z.of_nat (size (invoices s)));
     inv_amount := amount; inv_currency := currency; inv_provider := p;
     providerInvoiceId := Some r; inv_paidAt := Some (b_now env) |}.

Lemma createInvoice_cases env n subId cid amount currency p r s :
  truthy (Some r) = true →
  createInvoice env n subId cid amount currency p (Some r) s =
  match invoiceByProviderId r (invoices s) with
  | Some _ => (s, Ok tt)
  | None => insertInvoice n (newInvoice env subId cid amount currency p r s) s
  end.
Proof.
  intros Ht. unfold createInvoice. rewrite Ht, bind_run. unfold gets at 1.
  by destruct (invoiceByProviderId r (invoices s)).
Qed.

(** On a table whose invoices were all numbered by createInvoice, a new
    invoice never collides with an existing number: either the provider's id is
    already there and nothing is written, or exactly one paid invoice is added
    with the next number, for the amount, company and provider given. *)
Theorem createInvoice_numbers env n subId cid amount currency p r s :
  0 ≤ b_now env → numbered_invoices (invoices s) → invoices s !! n = None →
  truthy (Some r) = true →
  let i := newInvoice env subId cid amount currency p r s in
  ((∃ id j, invoices s !! id = Some j ∧ providerInvoiceId j = Some r) ∧
     createInvoice env n subId cid amount currency p (Some r) s = (s, Ok tt)) ∨
  (createInvoice env n subId cid amount currency p (Some r) s =
     (s <| invoices ::= <[n := i]> |>, Ok tt) ∧ numbered_invoices (<[n := i]> (invoices s))).
Proof.
  intros Hnow HI Hn Ht i. rewrite createInvoice_cases by done.
  destruct (invoiceByProviderId r (invoices s)) as [[id j]|] eqn:E.
  { left. split; [|done]. apply find_first_Some in E as [Hj Hc].
    rewrite bool_decide_eq_true in Hc. eauto. }
  right. fold i. unfold insertInvoice. rewrite Hn. split.
  - rewrite bool_decide_eq_false_2 by by intros [? ?]. rewrite bool_decide_eq_false_2; [done|].
    intros Hne. apply Hne. clear Hne.
    destruct (find_many _ _) as [|[id j] l] eqn:Ef; [done|exfalso].
    assert (Hin : (id, j) ∈ (id, j) :: l) by left.
    rewrite <- Ef, elem_of_find_many, bool_decide_eq_true in Hin.
    destruct Hin as [Hj [Hnum|[_ Hp]]].
    + destruct (HI _ _ Hj) as (d & k & Hd & Hk & Hi). rewrite Hi in Hnum. simpl in Hnum.
      apply invoiceNumberOf_inj in Hnum; [lia|by apply YearFromTime_nonneg..|lia|lia].
    + unfold invoiceByProviderId in E. apply (find_first_None _ _ id j) in E; [|done].
      rewrite bool_decide_eq_false in E. by apply E.
  - intros id j [[<- <-]|[Hne Hj]]%lookup_insert_Some; rewrite map_size_insert_None by done.
    + exists (b_now env), (Z.of_nat (size (invoices s))). split_and!; [done|lia|lia|done].
    + destruct (HI _ _ Hj) as (d & k & Hd & Hk & Hi). exists d, k. split_and!; [done|lia|lia|done].
Qed.

Lemma createInvoice_numbers_witness :
  let s := demoBilling active 500 in
  let i := newInvoice demoBillingEnv "s1" "c1" 5000 "EUR" mvola "r" s in
  ((∃ id j, invoices s !! id = Some j ∧ providerInvoiceId j = Some "r") ∧
     createInvoice demoBillingEnv "n" "s1" "c1" 5000 "EUR" mvola (Some "r") s = (s, Ok tt)) ∨
  (createInvoice demoBillingEnv "n" "s1" "c1" 5000 "EUR" mvola (Some "r") s =
     (s <| invoices ::= <["n" := i]> |>, Ok tt) ∧ numbered_invoices (<["n" := i]> (invoices s))).
Proof.
  apply (createInvoice_numbers demoBillingEnv); [vm_compute; discriminate| |reflexivity|reflexivity].
  intros id i Hi. simpl in Hi. by rewrite lookup_empty in Hi.
Defined.

(** ** The expiry cron *)

(** The rows a cron has demoted, while its loop runs over [rows]. *)
Lemma demote_run st mail p s :
  subscriptions_unique (subscriptions s) → subscriptions s !! p.1 = Some p.2 →
  ∃ s', demote st mail p s = (s', Ok tt) ∧
    subscriptions s' = <[p.1 := p.2 <| sub_status := st |>]> (subscriptions s) ∧
    users s' = users s ∧ invoices s' = invoices s ∧
    mails s' = mails s ++ map (mail p.2) (activeAdmins (sub_companyId p.2) s).
Proof.
  intros U Hp. unfold demote. rewrite bind_run. unfold updateSubscription. rewrite Hp.
  rewrite (no_self_clash p.1 p.2) by done. unfold mailAdmins. rewrite bind_run. unfold gets.
  change (activeAdmins (sub_companyId p.2) (s <| subscriptions ::= _ |>))
    with (activeAdmins (sub_companyId p.2) s).
  generalize (activeAdmins (sub_companyId p.2) s) as l. intros l.
  assert (HL : ∀ s1, ∃ s2, for_each (λ u, sendMail (mail p.2 u)) l s1 = (s2, Ok tt) ∧
    subscriptions s2 = subscriptions s1 ∧ users s2 = users s1 ∧ invoices s2 = invoices s1 ∧
    mails s2 = mails s1 ++ map (mail p.2) l).
  { induction l as [|u l IH]; intros s1; simpl.
    - exists s1. by rewrite app_nil_r.
    - rewrite bind_run. simpl. destruct (IH (s1 <| mails ::= λ l, l ++ [mail p.2 u] |>))
        as (s2 & E & A & B & C & D). exists s2. split_and!; [exact E|done..|].
      rewrite D. simpl. by rewrite <- app_assoc. }
  destruct (HL (s <| subscriptions ::= <[p.1 := p.2 <| sub_status := st |>]> |>))
    as (s2 & E & A & B & C & D). exists s2. split_and!; [exact E|done..].
Qed.

Definition setStatus (st : SubscriptionStatus) (x : Subscription) : Subscription :=
  x <| sub_status := st |>.

Lemma demote_all st mail rows : ∀ s,
  subscriptions_unique (subscriptions s) → NoDup rows.*1 →
  (∀ id x, (id, x) ∈ rows → subscriptions s !! id = Some x) →
  ∃ s', for_each (demote st mail) rows s = (s', Ok tt) ∧
    (∀ id, id ∉ rows.*1 → subscriptions s' !! id = subscriptions s !! id) ∧
    (∀ id x, (id, x) ∈ rows → subscriptions s' !! id = Some (setStatus st x)) ∧
    invoices s' = invoices s ∧
    mails s' = mails s ++ (rows ≫= λ p, map (mail p.2) (activeAdmins (sub_companyId p.2) s)).
Proof.
  induction rows as [|[id0 x0] rows IH]; intros s U ND Hin; simpl.
  { exists s. rewrite app_nil_r. split_and!; try done. by intros ?? ?%elem_of_nil. }
  apply NoDup_cons in ND as [Hnot ND].
  destruct (demote_run st mail (id0, x0) s U (Hin _ _ ltac:(left))) as (s1 & E1 & A1 & B1 & C1 & D1).
  simpl in *. rewrite bind_run, E1.
  destruct (IH s1) as (s2 & E2 & A2 & B2 & C2 & D2).
  - rewrite A1. apply subscriptions_unique_insert; [done|].
    eapply no_self_clash; [done|apply Hin; left|done|done].
  - done.
  - intros id x Hx. rewrite A1, lookup_insert_ne; [apply Hin; by right|].
    intros ->. apply Hnot. apply list_elem_of_fmap. by exists (id, x).
  - exists s2. split_and!; [exact E2| | |congruence|].
    + intros id [Hne Hn]%not_elem_of_cons. rewrite A2 by done. by rewrite A1, lookup_insert_ne.
    + intros id x [Hx|Hx]%elem_of_cons; [|by apply B2]. simplify_eq.
      rewrite A2 by done. by rewrite A1, lookup_insert_eq.
    + rewrite D2, D1, <- app_assoc. f_equal. f_equal.
      assert (HA : ∀ c, activeAdmins c s1 = activeAdmins c s) by (intros c; unfold activeAdmins; by rewrite B1).
      apply list_bind_ext; [|done]. intros q. by rewrite HA.
Qed.

Lemma cron_effect env name where_ st mail s :
  subscriptions_unique (subscriptions s) → BILLING_ENABLED env = true →
  (acquireCronLock (link env) (INSTANCE_ID env) name 3600 (b_now env) (redis s)).2 = true →
  ∃ s', cron env name where_ st mail s = (s', Ok tt) ∧
    subscriptions s' = update_many (λ _ x, where_ x) (setStatus st) (subscriptions s) ∧
    invoices s' = invoices s ∧
    mails s' = mails s ++ (find_many (λ _ x, where_ x) (subscriptions s) ≫=
      λ p, map (mail p.2) (activeAdmins (sub_companyId p.2) s)).
Proof.
  intros U Hb Hl. unfold cron. rewrite bind_run. unfold cronLock.
  destruct (acquireCronLock _ _ _ _ _ _) as [r ok] eqn:El. simpl in Hl. subst ok. simpl.
  rewrite Hb. simpl. rewrite bind_run. unfold gets.
  set (s0 := s <| redis := r |>).
  destruct (demote_all st mail (find_many (λ _ x, where_ x) (subscriptions s0)) s0)
    as (s' & E & A & B & C & D); [done|apply find_many_NoDup| |].
  { intros id x Hx. by apply elem_of_find_many in Hx as [? _]. }
  exists s'. split; [exact E|]. split_and!; [|by rewrite C|by rewrite D].
  apply map_eq. intros id. rewrite lookup_update_many.
  destruct (subscriptions s !! id) as [x|] eqn:Ex; simpl.
  - destruct (where_ x) eqn:Ew.
    + apply B. by apply elem_of_find_many.
    + rewrite A; [done|]. intros ([k y] & -> & Hk)%list_elem_of_fmap.
      apply elem_of_find_many in Hk as [Hk Hy]. simpl in *. congruence.
  - rewrite A; [done|]. intros ([k y] & -> & Hk)%list_elem_of_fmap.
    apply elem_of_find_many in Hk as [Hk Hy]. simpl in *. congruence.
Qed.

(** The instance that holds the cron lock marks past_due exactly the
    active subscriptions whose period is over (and no other), writes each
    active administrator of their companies one mail, creates no invoice, and
    always completes. *)
Theorem expiry_cron_exact env s :
  subscriptions_unique (subscriptions s) → BILLING_ENABLED env = true →
  (acquireCronLock (link env) (INSTANCE_ID env) "billing.expiredSubscriptions" 3600
     (b_now env) (redis s)).2 = true →
  ∃ s', handleExpiredSubscriptions env s = (s', Ok tt) ∧
    subscriptions s' =
      update_many (λ _ x, bool_decide (sub_status x = active) && (currentPeriodEnd x <? b_now env))
        (setStatus past_due) (subscriptions s) ∧
    invoices s' = invoices s ∧
    mails s' = mails s ++ (find_many (λ _ x, expired env x) (subscriptions s) ≫=
      λ p, map (λ u, BillingExpired (u_email u) (u_firstName u) (currentPeriodEnd p.2) (adminLang u))
             (activeAdmins (sub_companyId p.2) s)).
Proof. intros. by apply cron_effect. Qed.

Lemma expiry_cron_exact_witness :
  ∃ s', handleExpiredSubscriptions demoBillingEnv (demoBilling active 500) = (s', Ok tt) ∧
    subscriptions s' =
      update_many (λ _ x, bool_decide (sub_status x = active) && (currentPeriodEnd x <? 1000))
        (setStatus past_due) (subscriptions (demoBilling active 500)) ∧
    invoices s' = ∅ ∧
    mails s' = [] ++ (find_many (λ _ x, expired demoBillingEnv x)
        (subscriptions (demoBilling active 500)) ≫=
      λ p, map (λ u, BillingExpired (u_email u) (u_firstName u) (currentPeriodEnd p.2) (adminLang u))
             (activeAdmins (sub_companyId p.2) (demoBilling active 500))).
Proof.
  apply (expiry_cron_exact demoBillingEnv (demoBilling active 500)); [|reflexivity|reflexivity].
  intros i j x y Hi Hj _. simpl in Hi, Hj.
  apply lookup_singleton_Some in Hi as [<- _]. by apply lookup_singleton_Some in Hj as [<- _].
Defined.
