(* ===== verification/BillingAccessProps.v ===== *)
(** * Access to the product: guards and manual payments

    What SubscriptionGuard and UsageGuard let through, what a redeemed
    activation code grants, and the life of a payment proof. *)

From S2P Require Import Prelude JsString JsNum JsDate Redis BillingModel MobileMoney Billing.
From S2P Require Import BillingGuards ManualBilling BillingProps.

#[local] Open Scope string_scope.
#[local] Open Scope list_scope.
#[local] Open Scope Z_scope.

(** ** SubscriptionGuard *)

(** The contract of the guard: a running trial or a running paid period. *)
Definition entitled (now : Z) (x : Subscription) : bool :=
  match sub_status x with
  | trialing => match trialEndsAt x with Some t => now <=? t | None => true end
  | active => now <=? currentPeriodEnd x
  | _ => false
  end.

Lemma subscriptionOf_insert cid s id x x' :
  subscriptions_unique (subscriptions s) → subscriptionOf cid s = Some (id, x) →
  sub_companyId x' = sub_companyId x → stripeSubscriptionId x' = stripeSubscriptionId x →
  ∀ s', subscriptions s' = <[id := x']> (subscriptions s) →
  subscriptionOf cid s' = Some (id, x') ∧ subscriptions_unique (subscriptions s').
Proof.
  intros U Hf E1 E2 s' Hs'. destruct (subscriptionOf_Some _ _ _ _ Hf) as [Hx Hc].
  assert (U' : subscriptions_unique (subscriptions s')).
  { rewrite Hs'. apply subscriptions_unique_insert; [done|]. by eapply no_self_clash. }
  split; [|done]. apply subscriptionOf_unique; [done| |congruence].
  rewrite Hs'. by rewrite lookup_insert_eq.
Qed.

Lemma expire_run id x s :
  subscriptions_unique (subscriptions s) → subscriptions s !! id = Some x →
  expire id s = (s <| subscriptions ::= <[id := setStatus past_due x]> |>,
                 Throw ManualPaymentRequiredException).
Proof.
  intros U Hx. unfold expire. rewrite bind_run. unfold updateSubscription. rewrite Hx.
  by rewrite (no_self_clash id x).
Qed.


Lemma demo_unique st t : subscriptions_unique (subscriptions (demoBilling st t)).
Proof.
  intros i j x y Hi Hj _. simpl in Hi, Hj.
  apply lookup_singleton_Some in Hi as [<- _]. by apply lookup_singleton_Some in Hj as [<- _].
Qed.


(** ** UsageGuard *)

Definition posts (part : string) (rq : HttpRequest) : Prop :=
  includes part (rq_path rq) = true ∧ rq_method rq = "POST".

(** The plan leaves room for what the request creates. *)
Definition within (now : Z) (cid : string) (p : BillingPlan) (rq : HttpRequest) (s : BillingStore) : Prop :=
  (posts "/deliveries" rq →
     countCompany cid (Some (startOfMonth now)) (deliveryRows s) < plan_maxDeliveriesPerMonth p) ∧
  (posts "/vehicles" rq → countCompany cid None (vehicleRows s) < plan_maxVehicles p) ∧
  (posts "/users" rq → countUsers cid (users s) < plan_maxUsers p).

Definition quotaAllows (env : BillingEnv) (rq : HttpRequest) (s : BillingStore) : Prop :=
  BILLING_ENABLED env = true → ∀ cid, rq_companyId rq = Some cid → truthy (Some cid) = true →
  match planOf cid s with
  | Some (x, p) => sub_status x = active ∧ within (b_now env) cid p rq s
  | None => match freePlan s with Some p => within (b_now env) cid p rq s | None => True end
  end.

Lemma quota_run (part : string) rq (count : BillingStore → Z) limit e s :
  (if includes part (rq_path rq) && bool_decide (rq_method rq = "POST") then
     c ← gets count; ensure (negb (over c limit)) e
   else mret tt) s =
  (s, if decide (posts part rq → count s < limit) then Ok tt else Throw e).
Proof.
  unfold posts. destruct (includes part (rq_path rq)) eqn:E1; simpl.
  - case_bool_decide as E2.
    + rewrite bind_run. unfold gets. destruct (over (count s) limit) eqn:Eo; simpl;
        case_decide as Hd; try done; exfalso.
      * apply Z.leb_le in Eo. specialize (Hd ltac:(done)). lia.
      * apply Hd. intros _. by apply Z.leb_gt in Eo.
    + case_decide as Hd; [done|]. exfalso. apply Hd. by intros [_ ?].
  - done.
Qed.

Lemma enforceLimit_spec now cid p rq s :
  (enforceLimit now cid p rq s).1 = s ∧
  (is_ok (enforceLimit now cid p rq s).2 = true ↔ within now cid p rq s).
Proof.
  unfold enforceLimit, within. rewrite bind_run, quota_run.
  case_decide as H1; [|split; [done|split; [done|tauto]]].
  rewrite bind_run, quota_run. case_decide as H2; [|split; [done|split; [done|tauto]]].
  rewrite quota_run. case_decide as H3; (split; [done|]); split; done || tauto.
Qed.

(** The quota guard never writes, and lets a request through exactly when
    billing is off, or the company's plan (the free one without subscription)
    is paid and still has room for what the request creates. *)
Theorem usageGuard_spec env rq s :
  (usageGuard env rq s).1 = s ∧
  ((usageGuard env rq s).2 = Ok true ↔ quotaAllows env rq s).
Proof.
  unfold usageGuard, quotaAllows. destruct (BILLING_ENABLED env); cbn [negb]; [|split; [done|by split]].
  destruct (rq_companyId rq) as [cid|]; [|split; [done|split; [done|by intros]]].
  destruct (truthy (Some cid)) eqn:Ht; cbn [negb].
  2: { split; [done|split; [|done]]. intros _ _ c [= <-] H. congruence. }
  assert (HL : ∀ p, match (enforceLimit (b_now env) cid p rq ;; mret true) s with
    (s', r) => s' = s ∧ (r = Ok true ↔ within (b_now env) cid p rq s) end).
  { intros p. rewrite bind_run. destruct (enforceLimit_spec (b_now env) cid p rq s) as [A B].
    destruct (enforceLimit (b_now env) cid p rq s) as [s' [[]|e]]; simpl in *; subst s';
      (split; [done|]); rewrite <- B; split; done. }
  rewrite bind_run. unfold gets at 1 3.
  destruct (planOf cid s) as [[x p]|] eqn:Ep.
  - rewrite bind_run. unfold ensure. case_bool_decide as Hst; simpl.
    + specialize (HL p). destruct ((enforceLimit _ _ _ _ ;; mret true) s) as [s' r].
      destruct HL as [-> HL]. split; [done|]. simpl. rewrite HL. split.
      * intros H _ c [= <-] _. by rewrite Ep.
      * intros H. specialize (H eq_refl cid eq_refl Ht). rewrite Ep in H. tauto.
    + split; [done|]. split; [done|]. intros H. specialize (H eq_refl cid eq_refl Ht).
      rewrite Ep in H. tauto.
  - rewrite bind_run. unfold gets. destruct (freePlan s) as [p|] eqn:Ef.
    + specialize (HL p). destruct ((enforceLimit _ _ _ _ ;; mret true) s) as [s' r].
      destruct HL as [-> HL]. split; [done|]. simpl. rewrite HL. split.
      * intros H _ c [= <-] _. by rewrite Ep.
      * intros H. specialize (H eq_refl cid eq_refl Ht). by rewrite Ep in H.
    + split; [done|]. simpl. split; [|done]. intros _ _ c [= <-] _. by rewrite Ep.
Qed.

(** ** Redeeming an activation code *)

(** The unique index on [activation_code_hash]. *)
Definition codes_unique (t : gmap string PaymentProof) : Prop :=
  ∀ i j p q h, t !! i = Some p → t !! j = Some q →
    activationCodeHash p = Some h → activationCodeHash q = Some h → i = j.

Lemma proofByHash_unique h id p t :
  codes_unique t → t !! id = Some p → activationCodeHash p = Some h →
  proofByHash h t = Some (id, p).
Proof.
  intros U Hp Hh. unfold proofByHash.
  destruct (find_first_is_Some (λ _ q, bool_decide (activationCodeHash q = Some h)) t id p)
    as (j & q & E); [done|by rewrite bool_decide_eq_true|]. rewrite E.
  apply find_first_Some in E as [Hq Hc]. rewrite bool_decide_eq_true in Hc.
  assert (j = id) as -> by eauto. congruence.
Qed.

Lemma upsertPaid_Ok newId cid now planId s s' :
  subscriptions_unique (subscriptions s) → upsertPaid newId cid now planId s = (s', Ok tt) →
  paymentProofs s' = paymentProofs s ∧ subscriptions_unique (subscriptions s') ∧
  (∃ sid x, subscriptionOf cid s' = Some (sid, x) ∧ sub_status x = active ∧
     sub_planId x = planId ∧ currentPeriodEnd x = now + PAID_SUBSCRIPTION_DURATION_MS ∧
     ∀ k, k ≠ sid → subscriptions s' !! k = subscriptions s !! k).
Proof.
  intros U H. unfold upsertPaid in H. rewrite bind_run in H. unfold gets at 1 in H.
  destruct (subscriptionOf cid s) as [[sid x]|] eqn:Hf.
  - destruct (subscriptionOf_Some _ _ _ _ Hf) as [Hx Hc]. unfold updateSubscription in H.
    rewrite Hx, (no_self_clash sid x) in H by done. injection H as <-. split; [done|].
    destruct (subscriptionOf_insert cid s sid x (paidSubscription now planId x) U Hf eq_refl eq_refl
      (s <| subscriptions ::= <[sid := paidSubscription now planId x]> |>)) as [A B]; [done|].
    split; [done|]. exists sid, (paidSubscription now planId x). split_and!; try done.
    intros k Hk. simpl. by rewrite lookup_insert_ne.
  - unfold createSubscription in H. destruct (_ || _) eqn:E; [done|]. injection H as <-.
    apply orb_false_iff in E as [E1 E2]. apply bool_decide_eq_false_1 in E1.
    set (x := paidSubscription now planId (blankSubscription now cid)) in *.
    assert (U' : subscriptions_unique (<[newId := x]> (subscriptions s)))
      by (by apply subscriptions_unique_insert).
    split; [done|]. split; [done|]. exists newId, x. split_and!; try done.
    + apply subscriptionOf_unique; [done| |done]. simpl. by rewrite lookup_insert_eq.
    + intros k Hk. simpl. by rewrite lookup_insert_ne.
Qed.

Lemma updateProof_Ok id f s s' u :
  updateProof id f s = (s', Ok u) →
  ∃ p, paymentProofs s !! id = Some p ∧ s' = s <| paymentProofs ::= <[id := f p]> |> ∧
    (∀ k q h, paymentProofs s !! k = Some q → k ≠ id → activationCodeHash (f p) = Some h →
       activationCodeHash q ≠ Some h).
Proof.
  unfold updateProof. destruct (paymentProofs s !! id) as [p|] eqn:Hp; [|done].
  destruct (_ && _) eqn:E; [done|]. intros H. simplify_eq. exists p. split_and!; [done|done|].
  intros k q h Hq Hk Hh Hq'. rewrite Hh in E. apply andb_false_iff in E as [E|E].
  - by apply bool_decide_eq_false_1 in E; apply E.
  - apply bool_decide_eq_false_1 in E. apply dec_stable in E.
    assert (Hin : (k, q) ∉ find_many (λ k q, bool_decide (k ≠ id ∧ activationCodeHash q = Some h))
      (paymentProofs s)) by (rewrite E; apply not_elem_of_nil).
    apply Hin, elem_of_find_many. by rewrite bool_decide_eq_true.
Qed.

Lemma codes_unique_insert id p p' t :
  codes_unique t → t !! id = Some p → activationCodeHash p' = activationCodeHash p →
  codes_unique (<[id := p']> t).
Proof.
  intros U Hp E i j q r h [[<- <-]|[_ Hi]]%lookup_insert_Some [[<- <-]|[_ Hj]]%lookup_insert_Some;
    intros; try done; rewrite ?E in *; eauto.
Qed.

Section Redeem.
Context (sha256 : string → string).

(** Redeeming a code either fails and leaves the store as it was, or: the
    code belongs to an unredeemed, unexpired proof of that very company; the
    proof is spent and no other is touched; the company's subscription is
    active on the plan paid for, so that the access guard lets the company
    through for the next thirty days; no other company's subscription changes;
    and the code (however typed) never works again, for anyone. *)
Theorem redeem_once newId cid rawCode now s :
  subscriptions_unique (subscriptions s) → codes_unique (paymentProofs s) →
  match redeem sha256 newId cid rawCode now s with
  | (s', Throw _) => s' = s
  | (s', Ok _) =>
      ∃ id p, paymentProofs s !! id = Some p ∧ proof_companyId p = cid ∧
        activationCodeHash p = Some (hashActivationCode sha256 rawCode) ∧ redeemedAt p = None ∧
        (∀ t, activationExpiresAt p = Some t → now ≤ t) ∧
        paymentProofs s' = <[id := p <| redeemedAt := Some now |>]> (paymentProofs s) ∧
        (∃ sid x, subscriptionOf cid s' = Some (sid, x) ∧ sub_planId x = claimedPlanId p ∧
           ∀ k, k ≠ sid → subscriptions s' !! k = subscriptions s !! k) ∧
        (∀ t, t ≤ now + 30 * 86400000 → checkAccess t cid s' = (s', Ok true)) ∧
        (∀ newId' cid' rawCode' now', normalizeCode rawCode' = normalizeCode rawCode →
           ∃ e, redeem sha256 newId' cid' rawCode' now' s' = (s', Throw e))
  end.
Proof.
  intros U UC. unfold redeem. rewrite bind_run. unfold gets at 1.
  destruct (proofByHash _ (paymentProofs s)) as [[id p]|] eqn:Ep; [|done].
  apply find_first_Some in Ep as [Hp Hh]. rewrite bool_decide_eq_true in Hh.
  rewrite bind_run. unfold ensure at 1. case_bool_decide as Hc; [|done]. unfold mret at 1, M_ret at 1.
  rewrite bind_run. unfold ensure at 1. case_bool_decide as Hr; [|done]. unfold mret at 1, M_ret at 1.
  rewrite bind_run. unfold ensure at 1.
  destruct (match activationExpiresAt p with Some t => now <=? t | None => true end) eqn:Hx; [|done].
  unfold mret at 1, M_ret at 1. unfold transaction. rewrite bind_run.
  destruct (updateProof id _ s) as [s1 [[]|e]] eqn:E1; [|done].
  apply updateProof_Ok in E1 as (p' & Hp' & -> & _). rewrite Hp in Hp'. simplify_eq.
  set (s1 := s <| paymentProofs ::= _ |>) in *.
  destruct (upsertPaid newId (proof_companyId p') now (claimedPlanId p') s1) as [s2 [[]|e]] eqn:E2; [|done].
  destruct (upsertPaid_Ok _ _ _ _ s1 s2 U E2) as (HP & U2 & sid & x & Hf & Hst & Hpl & Hend & Hk).
  exists id, p'. split_and!; try done.
  - intros t Ht. rewrite Ht in Hx. by apply Z.leb_le.
  - exists sid, x. by split_and!.
  - intros t Ht. unfold checkAccess. rewrite bind_run. unfold gets. rewrite Hf, Hst.
    rewrite (proj2 (Z.ltb_ge _ _)); [done|]. rewrite Hend. unfold PAID_SUBSCRIPTION_DURATION_MS. lia.
  - intros newId' cid' raw' now' Hn. rewrite bind_run. unfold gets at 1.
    assert (E : proofByHash (hashActivationCode sha256 raw') (paymentProofs s2) =
        Some (id, p' <| redeemedAt := Some now |>)).
    { rewrite HP. apply proofByHash_unique; simpl.
      - by eapply codes_unique_insert.
      - by rewrite lookup_insert_eq.
      - rewrite Hh. unfold hashActivationCode. by rewrite Hn. }
    rewrite E, bind_run. unfold ensure at 1. case_bool_decide; [|by eexists].
    unfold mret at 1, M_ret at 1. rewrite bind_run. unfold ensure at 1. simpl. by eexists.
Qed.

(** The hash of a code does not depend on case nor on surrounding spaces. *)
Lemma code_typing_tolerated : normalizeCode "  pay-abcd2345 " = normalizeCode "PAY-ABCD2345".
Proof. reflexivity. Qed.
End Redeem.

Definition demoProof : PaymentProof :=
  {| proof_companyId := "c1"; submittedById := "u1"; claimedPlanId := "p1"; claimedAmount := 5000;
     paymentMethodId := "m1"; reference := "TX1"; proof_status := proof_approved;
     reviewedById := Some "adm"; reviewedAt := Some 10; rejectionReason := None;
     activationCodeHash := Some "PAY-ABCD2345"; activationCodePrefix := Some "PAY-ABCD";
     activationExpiresAt := Some 2000; redeemedAt := None |}.
Definition demoManual : BillingStore :=
  (demoBilling past_due 500) <| paymentProofs := {[ "pf1" := demoProof ]} |>.

Lemma redeem_once_witness :
  match redeem id "n" "c1" " pay-abcd2345" 1500 demoManual with
  | (s', Throw _) => s' = demoManual
  | (s', Ok _) =>
      ∃ i p, paymentProofs demoManual !! i = Some p ∧ proof_companyId p = "c1" ∧
        activationCodeHash p = Some (hashActivationCode id " pay-abcd2345") ∧ redeemedAt p = None ∧
        (∀ t, activationExpiresAt p = Some t → 1500 ≤ t) ∧
        paymentProofs s' = <[i := p <| redeemedAt := Some 1500 |>]> (paymentProofs demoManual) ∧
        (∃ sid x, subscriptionOf "c1" s' = Some (sid, x) ∧ sub_planId x = claimedPlanId p ∧
           ∀ k, k ≠ sid → subscriptions s' !! k = subscriptions demoManual !! k) ∧
        (∀ t, t ≤ 1500 + 30 * 86400000 → checkAccess t "c1" s' = (s', Ok true)) ∧
        (∀ n' c' raw' now', normalizeCode raw' = normalizeCode " pay-abcd2345" →
           ∃ e, redeem id n' c' raw' now' s' = (s', Throw e))
  end.
Proof.
  apply (redeem_once id "n" "c1" " pay-abcd2345" 1500 demoManual); [apply demo_unique|].
  intros i j p q h Hi Hj _ _. simpl in Hi, Hj.
  apply lookup_singleton_Some in Hi as [<- _]. by apply lookup_singleton_Some in Hj as [<- _].
Defined.

Example redeem_demo_succeeds : is_ok (redeem id "n" "c1" " pay-abcd2345" 1500 demoManual).2 = true.
Proof. vm_compute. reflexivity. Qed.

(** ** The life of a payment proof *)

Section ProofLife.
Context (sha256 : string → string).

(** The requests that write payment proofs. *)
Inductive proof_step (s : BillingStore) : BillingStore → Prop :=
  | step_submit newId cid u dto f : proof_step s (submitProof newId cid u dto f s).1
  | step_approve id adm now bytes : proof_step s (approve sha256 id adm now bytes s).1
  | step_reject id adm why now : proof_step s (reject id adm why now s).1
  | step_redeem newId cid raw now : proof_step s (redeem sha256 newId cid raw now s).1.

Definition same_claim (p p' : PaymentProof) : Prop :=
  proof_companyId p' = proof_companyId p ∧ submittedById p' = submittedById p ∧
  claimedPlanId p' = claimedPlanId p ∧ claimedAmount p' = claimedAmount p.

(** The writes a request can make on the table. *)
Inductive proof_write (t : gmap string PaymentProof) : gmap string PaymentProof → Prop :=
  | pw_none : proof_write t t
  | pw_new id p : t !! id = None → proof_status p = proof_pending →
      pendingProof (proof_companyId p) t = None → activationCodeHash p = None →
      redeemedAt p = None → proof_write t (<[id := p]> t)
  | pw_review id p p' : t !! id = Some p → proof_status p = proof_pending → same_claim p p' →
      proof_status p' ≠ proof_pending → redeemedAt p' = redeemedAt p →
      (proof_status p' = proof_approved ∨ activationCodeHash p' = activationCodeHash p) →
      proof_write t (<[id := p']> t)
  | pw_redeem id p now : t !! id = Some p → is_Some (activationCodeHash p) →
      redeemedAt p = None → proof_write t (<[id := p <| redeemedAt := Some now |>]> t).

Definition keeps_proofs (s s' : BillingStore) : Prop := paymentProofs s' = paymentProofs s.
#[export] Instance keeps_proofs_preorder : PreOrder keeps_proofs.
Proof. split; [by intros s|]. intros s1 s2 s3 H1 H2. unfold keeps_proofs in *. congruence. Qed.
Lemma sendMail_proofs m : footprint keeps_proofs (sendMail m).
Proof. by intros s. Qed.
#[local] Hint Resolve sendMail_proofs : footprint.

Lemma submit_write newId cid u dto f s :
  proof_write (paymentProofs s) (paymentProofs (submitProof newId cid u dto f s).1).
Proof.
  unfold submitProof. destruct f as [f|]; [|constructor].
  rewrite bind_run. unfold ensure at 1. case_bool_decide; [|constructor]. unfold mret at 1, M_ret at 1.
  rewrite bind_run. unfold ensure at 1. destruct (file_size f <=? _); [|constructor].
  unfold mret at 1, M_ret at 1. rewrite bind_run. unfold gets at 1.
  destruct (plans s !! spd_claimedPlanId dto) as [p|]; [|constructor].
  destruct (_ && _); [|constructor]. rewrite bind_run. unfold gets at 1. rewrite bind_run.
  unfold ensure at 1. destruct (match paymentMethods s !! _ with Some m => _ | None => _ end); [|constructor].
  unfold mret at 1, M_ret at 1. rewrite bind_run. unfold gets at 1. rewrite bind_run. unfold ensure at 1.
  case_bool_decide as Hn; [|constructor]. unfold mret at 1, M_ret at 1. cbv zeta.
  rewrite bind_run. unfold try_catch, insertProof. cbn [proof_status proof_companyId].
  rewrite Hn. simpl. destruct (paymentProofs s !! newId) eqn:Hf; [constructor|].
  simpl. by apply pw_new.
Qed.

Lemma approve_write id adm now bytes s :
  proof_write (paymentProofs s) (paymentProofs (approve sha256 id adm now bytes s).1).
Proof.
  unfold approve. rewrite bind_run. unfold gets at 1.
  destruct (paymentProofs s !! id) as [p|] eqn:Hp; [|constructor].
  rewrite bind_run. unfold ensure at 1. case_bool_decide as Hs; [|constructor].
  unfold mret at 1, M_ret at 1. rewrite bind_run.
  destruct (updateProof id _ s) as [s1 [[]|e]] eqn:E.
  - set (k := gets _ ≫= _). assert (K : footprint keeps_proofs k) by (subst k; footprint_auto).
    apply updateProof_Ok in E as (p' & Hp' & -> & _). rewrite Hp in Hp'. injection Hp' as <-.
    specialize (K (s <| paymentProofs ::= <[id := p <| proof_status := proof_approved |>
      <| reviewedById := Some adm |> <| reviewedAt := Some now |>
      <| activationCodeHash := Some (code_hash (generateActivationCode sha256 bytes)) |>
      <| activationCodePrefix := Some (prefix (generateActivationCode sha256 bytes)) |>
      <| activationExpiresAt := Some (now + ACTIVATION_CODE_VALIDITY_MS) |>]> |>)).
    unfold keeps_proofs in K. rewrite K. simpl. eapply pw_review; eauto; try done.
  - unfold updateProof in E. rewrite Hp in E. destruct (_ && _); simplify_eq; constructor.
Qed.

Lemma reject_write id adm why now s :
  proof_write (paymentProofs s) (paymentProofs (reject id adm why now s).1).
Proof.
  unfold reject. rewrite bind_run. unfold gets at 1.
  destruct (paymentProofs s !! id) as [p|] eqn:Hp; [|constructor].
  rewrite bind_run. unfold ensure at 1. case_bool_decide as Hs; [|constructor].
  unfold mret at 1, M_ret at 1. rewrite bind_run.
  destruct (updateProof id _ s) as [s1 [[]|e]] eqn:E.
  - set (k := gets _ ≫= _). assert (K : footprint keeps_proofs k) by (subst k; footprint_auto).
    apply updateProof_Ok in E as (p' & Hp' & -> & _). rewrite Hp in Hp'. injection Hp' as <-.
    specialize (K (s <| paymentProofs ::= <[id := p <| proof_status := proof_rejected |>
      <| reviewedById := Some adm |> <| reviewedAt := Some now |>
      <| rejectionReason := Some why |>]> |>)).
    unfold keeps_proofs in K. rewrite K. simpl. eapply pw_review; eauto; try done.
  - unfold updateProof in E. rewrite Hp in E. destruct (_ && _); simplify_eq; constructor.
Qed.

Lemma upsertPaid_proofs newId cid now planId : footprint keeps_proofs (upsertPaid newId cid now planId).
Proof.
  unfold upsertPaid. footprint_step; [footprint_auto|]. destruct a as [[id x]|]; intros s.
  - unfold updateSubscription. destruct (subscriptions s !! id); [|done]. by destruct (subscriptionClashes _ _ _).
  - unfold createSubscription. by destruct (_ || _).
Qed.

Lemma redeem_write newId cid raw now s :
  proof_write (paymentProofs s) (paymentProofs (redeem sha256 newId cid raw now s).1).
Proof.
  unfold redeem. rewrite bind_run. unfold gets at 1.
  destruct (proofByHash _ (paymentProofs s)) as [[id p]|] eqn:Ep; [|constructor].
  apply find_first_Some in Ep as [Hp Hh]. rewrite bool_decide_eq_true in Hh.
  rewrite bind_run. unfold ensure at 1. case_bool_decide as Hc; [|constructor]. unfold mret at 1, M_ret at 1.
  rewrite bind_run. unfold ensure at 1. case_bool_decide as Hr; [|constructor]. unfold mret at 1, M_ret at 1.
  rewrite bind_run. unfold ensure at 1. destruct (match activationExpiresAt p with Some t => now <=? t | None => true end); [|constructor].
  unfold mret at 1, M_ret at 1. unfold transaction. rewrite bind_run.
  destruct (updateProof id _ s) as [s1 [[]|e]] eqn:E1; [|constructor].
  apply updateProof_Ok in E1 as (p' & Hp' & -> & _). rewrite Hp in Hp'. injection Hp' as <-.
  pose proof (upsertPaid_proofs newId cid now (claimedPlanId p)
    (s <| paymentProofs ::= <[id := p <| redeemedAt := Some now |>]> |>)) as K.
  destruct (upsertPaid _ _ _ _ _) as [s2 [[]|e]]; [|constructor].
  unfold keeps_proofs in K. simpl in *. rewrite K. eapply pw_redeem; eauto.
Qed.

Lemma step_write s s' : proof_step s s' → proof_write (paymentProofs s) (paymentProofs s').
Proof. destruct 1; [apply submit_write|apply approve_write|apply reject_write|apply redeem_write]. Qed.

Definition proof_wf (p : PaymentProof) : Prop :=
  (is_Some (activationCodeHash p) → proof_status p = proof_approved) ∧
  (is_Some (redeemedAt p) → is_Some (activationCodeHash p)).
Definition proofs_ok (t : gmap string PaymentProof) : Prop :=
  (∀ id p, t !! id = Some p → proof_wf p) ∧
  (∀ i j p q, t !! i = Some p → t !! j = Some q → proof_status p = proof_pending →
     proof_status q = proof_pending → proof_companyId p = proof_companyId q → i = j).

Definition proof_evolves (p p' : PaymentProof) : Prop :=
  same_claim p p' ∧ (proof_status p ≠ proof_pending → proof_status p' = proof_status p) ∧
  (is_Some (redeemedAt p) → redeemedAt p' = redeemedAt p).

Lemma write_ok t t' : proof_write t t' → proofs_ok t → proofs_ok t'.
Proof.
  intros H [W P]. destruct H as [|id p Hn Hs Hpd Hh Hr|id p p' Hp Hs Hc Hs' Hr Hst|id p now Hp Hh Hr].
  - by split.
  - split.
    + intros k q [[<- <-]|[_ Hq]]%lookup_insert_Some; [|eauto].
      split; [rewrite Hh|rewrite Hr]; by intros [? ?].
    + assert (HN : ∀ j q, t !! j = Some q → proof_status q = proof_pending →
        proof_companyId q ≠ proof_companyId p).
      { intros j q Hj Hq Hcq. apply (find_first_None _ _ j q) in Hpd; [|done].
        rewrite bool_decide_eq_false in Hpd. by apply Hpd. }
      intros i j q r [[<- <-]|[_ Hi]]%lookup_insert_Some [[<- <-]|[_ Hj]]%lookup_insert_Some Hq Hr' Hcq;
        [done| | |eauto]; exfalso.
      * by apply (HN _ _ Hj Hr').
      * by apply (HN _ _ Hi Hq).
  - split.
    + intros k q [[<- <-]|[_ Hq]]%lookup_insert_Some; [|eauto]. destruct (W _ _ Hp) as [W1 W2].
      split.
      * intros Hh. destruct Hst as [|E]; [done|]. rewrite E in Hh. apply W1 in Hh. congruence.
      * rewrite Hr. intros Hrd. apply W2, W1 in Hrd. congruence.
    + intros i j q r [[<- <-]|[_ Hi]]%lookup_insert_Some [[<- <-]|[_ Hj]]%lookup_insert_Some; eauto; done.
  - split.
    + intros k q [[<- <-]|[_ Hq]]%lookup_insert_Some; [|eauto]. destruct (W _ _ Hp) as [W1 W2].
      split; [exact W1|done].
    + intros i j q r [[<- <-]|[_ Hi]]%lookup_insert_Some [[<- <-]|[_ Hj]]%lookup_insert_Some;
        simpl; eauto; try done.
Qed.

Lemma write_evolves t t' id p :
  proof_write t t' → proofs_ok t → t !! id = Some p →
  ∃ p', t' !! id = Some p' ∧ proof_evolves p p'.
Proof.
  intros H [W _] Hp.
  assert (R : proof_evolves p p) by (by split_and!).
  destruct H as [|k q Hn Hs Hpd Hh Hr|k q q' Hq Hs Hc Hs' Hr Hst|k q now Hq Hh Hr]; [eauto|..];
    (destruct (decide (k = id)) as [->|Hne];
       [rewrite lookup_insert_eq|rewrite lookup_insert_ne by done; eauto]); simplify_eq.
  - exists q'. split; [done|]. split_and!; [done|done|]. intros _. done.
  - eexists. split; [done|]. split_and!; [done|done|]. simpl. rewrite Hr. by intros [? ?].
Qed.

(** C9: along any sequence of submissions, reviews and redemptions, a company
    never has two proofs awaiting review; only an approved proof carries an
    activation code and only a proof with a code is redeemed; what a proof
    claims never changes, a decision is final and a redemption is recorded
    once and for all. *)
Theorem payment_proof_life s s' :
  rtc proof_step s s' → proofs_ok (paymentProofs s) →
  proofs_ok (paymentProofs s') ∧
  ∀ id p, paymentProofs s !! id = Some p →
    ∃ p', paymentProofs s' !! id = Some p' ∧ proof_evolves p p'.
Proof.
  induction 1 as [s|s1 s2 s3 H12 _ IH]; intros HO.
  { split; [done|]. intros id p Hp. exists p. split; [done|]. by split_and!. }
  apply step_write in H12. destruct (IH (write_ok _ _ H12 HO)) as [O3 E3]. split; [done|].
  intros id p Hp. destruct (write_evolves _ _ _ _ H12 HO Hp) as (p2 & Hp2 & (A & B & C)).
  destruct (E3 _ _ Hp2) as (p3 & Hp3 & (A' & B' & C')). exists p3. split; [done|].
  split; [|split].
  - unfold same_claim in *. destruct_and!. split_and!; congruence.
  - intros Hs. rewrite B' by (by rewrite B). by apply B.
  - intros Hr. rewrite C' by (by rewrite C). by apply C.
Qed.
End ProofLife.

Lemma payment_proof_life_witness :
  let s' := (redeem id "n" "c1" "PAY-ABCD2345" 1500 demoManual).1 in
  proofs_ok (paymentProofs s') ∧
  ∀ i p, paymentProofs demoManual !! i = Some p →
    ∃ p', paymentProofs s' !! i = Some p' ∧ proof_evolves p p'.
Proof.
  apply (payment_proof_life id demoManual); [apply rtc_once, step_redeem|].
  split; simpl.
  - intros i p Hi. apply lookup_singleton_Some in Hi as [_ <-]. split; [done|]. by intros [? ?].
  - intros i j p q Hi Hj _ _ _.
    apply lookup_singleton_Some in Hi as [<- _]. by apply lookup_singleton_Some in Hj as [<- _].
Defined.
