(* ===== verification/UrlValidator.v ===== *)
(** * modules/webhooks: the validation of webhook URLs

    webhook-url-validator.ts: the IPv4 ranges that are never contacted, on the
    32-bit integers JavaScript computes with, the IPv6 forms that are blocked,
    and the check of every address a host name resolves to.  URL parsing, the
    recognition of IP literals and DNS are parameters. *)

From S2P Require Import Prelude JsString.

#[local] Open Scope string_scope.
#[local] Open Scope list_scope.
#[local] Open Scope Z_scope.

(** ** 32-bit operators *)

(** The result of a bitwise operator as a signed 32-bit integer, and [>>> 0]. *)
Definition toUint32 (z : Z) : Z := z mod 2 ^ 32.
Definition toInt32 (z : Z) : Z :=
  let u := toUint32 z in if u <? 2 ^ 31 then u else u - 2 ^ 32.
Definition js_shl (a b : Z) : Z := toInt32 (Z.shiftl (toInt32 a) b).
Definition js_or (a b : Z) : Z := toInt32 (Z.lor (toInt32 a) (toInt32 b)).
Definition js_and (a b : Z) : Z := toInt32 (Z.land (toInt32 a) (toInt32 b)).

(** ** IPv4 *)

Definition BLOCKED_V4_CIDRS : list (string * Z) :=
  [("0.0.0.0", 8); ("10.0.0.0", 8); ("100.64.0.0", 10); ("127.0.0.0", 8); ("169.254.0.0", 16);
   ("172.16.0.0", 12); ("192.0.0.0", 24); ("192.0.2.0", 24); ("192.168.0.0", 16);
   ("198.18.0.0", 15); ("198.51.100.0", 24); ("203.0.113.0", 24); ("224.0.0.0", 4);
   ("240.0.0.0", 4)].

(** [Number(p)] on the parts of an address that [net.isIPv4] or [\d+] accepted:
    the digits' value; the rest is NaN. *)
Definition numberOf (p : string) : option Z :=
  if bool_decide (filterString isDigit p = p) then Some (digitsValue p) else None.

Definition ipv4ToInt (ip : string) : option Z :=
  let parts := split_on "."%char ip in
  if bool_decide (length parts = 4%nat) then
    (λ n, toUint32 n) <$>
    foldl (λ acc p,
      match acc, numberOf p with
      | Some n, Some o => if o <=? 255 then Some (js_or (js_shl n 8) o) else None
      | _, _ => None
      end) (Some 0) parts
  else None.

(** [bits === 0 ? 0 : (0xffffffff << (32 - bits)) >>> 0] *)
Definition cidrMask (bits : Z) : Z :=
  if bits =? 0 then 0 else toUint32 (js_shl 4294967295 (32 - bits)).

Definition inCidr (addr : Z) (c : string * Z) : bool :=
  match ipv4ToInt c.1 with
  | Some baseInt => js_and addr (cidrMask c.2) =? js_and baseInt (cidrMask c.2)
  | None => false
  end.

Definition isBlockedV4 (ip : string) : bool :=
  match ipv4ToInt ip with
  | None => true
  | Some addr => existsb (inCidr addr) BLOCKED_V4_CIDRS
  end.

(** ** IPv6 *)

(** [\d+\.\d+\.\d+\.\d+] *)
Definition isDotted (s : string) : bool :=
  let parts := split_on "."%char s in
  bool_decide (length parts = 4%nat) &&
  forallb (λ p, negb (bool_decide (p = EmptyString)) && bool_decide (filterString isDigit p = p)) parts.

(** The rest of the string after the first occurrence of [p] whose rest
    satisfies [ok]. *)
Fixpoint afterMatch (p : string) (ok : string → bool) (s : string) : option string :=
  if startsWith p s && ok (sliceFrom (String.length p) s) then Some (sliceFrom (String.length p) s)
  else match s with EmptyString => None | String _ s' => afterMatch p ok s' end.

(** [lower.match(/(?:::ffff:|::)(\d+\.\d+\.\d+\.\d+)$/)] *)
Definition mappedV4 (s : string) : option string :=
  match afterMatch "::ffff:" isDotted s with
  | Some r => Some r
  | None => afterMatch "::" isDotted s
  end.

Definition hexDigit (c : ascii) : option Z :=
  let n := Z.of_nat (nat_of_ascii c) in
  if (48 <=? n) && (n <=? 57) then Some (n - 48)
  else if (97 <=? n) && (n <=? 102) then Some (n - 87) else None.
Fixpoint hexValue (acc : Z) (s : string) : option Z :=
  match s with
  | EmptyString => Some acc
  | String c s' => match hexDigit c with Some d => hexValue (16 * acc + d) s' | None => None end
  end.
(** One to four hexadecimal digits. *)
Definition hexGroup (s : string) : option Z :=
  if (1 <=? String.length s)%nat && (String.length s <=? 4)%nat then hexValue 0 s else None.

(** [lower.match(/::ffff:([0-9a-f]{1,4}):([0-9a-f]{1,4})$/)] *)
Definition twoHexGroups (s : string) : option (Z * Z) :=
  match split_on ":"%char s with
  | [a; b] => match hexGroup a, hexGroup b with Some x, Some y => Some (x, y) | _, _ => None end
  | _ => None
  end.
Definition mappedHex (s : string) : option (Z * Z) :=
  match afterMatch "::ffff:" (λ r, bool_decide (is_Some (twoHexGroups r))) s with
  | Some r => twoHexGroups r
  | None => None
  end.

Definition dotted (a b c d : Z) : string :=
  string_of_Z a +:+ "." +:+ string_of_Z b +:+ "." +:+ string_of_Z c +:+ "." +:+ string_of_Z d.

Definition isBlockedV6 (ip : string) : bool :=
  let lower := toLowerCase ip in
  if bool_decide (lower = "::1") || bool_decide (lower = "::") then true
  else if startsWith "fe80:" lower || startsWith "fe80::" lower then true
  else if startsWith "fc" lower || startsWith "fd" lower then true
  else if startsWith "ff" lower then true
  else match mappedV4 lower with
  | Some v4 => isBlockedV4 v4
  | None =>
      match mappedHex lower with
      | Some (a, b) =>
          isBlockedV4 (dotted (Z.shiftr a 8) (Z.land a 255) (Z.shiftr b 8) (Z.land b 255))
      | None => false
      end
  end.

(** ** assertSafeWebhookUrl *)

(** What Node answers: [new URL] ([None]: it throws) with the protocol and the
    host name, [net.isIPv4]/[net.isIPv6], and the two DNS queries ([None]: the
    query fails). *)
Class Net := {
  parseUrl : string → option (string * string);
  isIPv4 : string → bool;
  isIPv6 : string → bool;
  resolve4 : string → option (list string);
  resolve6 : string → option (list string)
}.

Section Validator.
Context `{Net}.

Definition isBlockedIP (ip : string) : bool :=
  if isIPv4 ip then isBlockedV4 ip
  else if isIPv6 ip then isBlockedV6 ip
  else true.

Definition msg_private : string := "Webhook URL must point to a public (non-private) IP address".

Definition safeResolve (r : option (list string)) : list string :=
  match r with Some l => l | None => [] end.

Definition resolvedIps (host : string) : list string :=
  safeResolve (resolve4 host) ++ safeResolve (resolve6 host).

Definition assertSafeWebhookUrl (url : string) : result unit :=
  match parseUrl url with
  | None => Throw (BadRequestException "Invalid webhook URL")
  | Some (protocol, hostname) =>
      if negb (bool_decide (protocol = "https:")) then
        Throw (BadRequestException "Webhook URL must use HTTPS protocol")
      else if isIPv4 hostname || isIPv6 hostname then
        if isBlockedIP hostname then Throw (BadRequestException msg_private) else Ok tt
      else
        match resolvedIps hostname with
        | [] => Throw (BadRequestException "Webhook URL hostname could not be resolved")
        | ips => if existsb isBlockedIP ips then Throw (BadRequestException msg_private) else Ok tt
        end
  end.
End Validator.

(** ** The ranges *)

Lemma toUint32_small z : 0 ≤ z < 2 ^ 32 → toUint32 z = z.
Proof. intros. by apply Z.mod_small. Qed.

Lemma toUint32_toInt32 z : toUint32 (toInt32 z) = toUint32 z.
Proof.
  unfold toInt32, toUint32. destruct (z mod 2 ^ 32 <? 2 ^ 31).
  - by rewrite Z.mod_mod.
  - rewrite Zminus_mod, Z.mod_same, Z.sub_0_r, !Z.mod_mod by done. done.
Qed.

Lemma toInt32_inj a b : toInt32 a = toInt32 b ↔ toUint32 a = toUint32 b.
Proof.
  split; [|intros E; unfold toInt32; by rewrite E].
  intros E. by rewrite <- (toUint32_toInt32 a), <- (toUint32_toInt32 b), E.
Qed.

(** Bitwise operators only depend on the operands modulo 2^32. *)
Lemma toUint32_testbit z n : 0 ≤ n →
  Z.testbit (toUint32 z) n = (n <? 32) && Z.testbit z n.
Proof.
  intros Hn. unfold toUint32. destruct (Z.ltb_spec n 32).
  - by rewrite Z.mod_pow2_bits_low.
  - by rewrite Z.mod_pow2_bits_high.
Qed.

Lemma js_and_uint a b : toUint32 (js_and a b) = toUint32 (Z.land a b).
Proof.
  unfold js_and. rewrite toUint32_toInt32. apply Z.bits_inj'. intros n Hn.
  rewrite !toUint32_testbit, !Z.land_spec by done.
  assert (HT : ∀ z, (n <? 32) && Z.testbit (toInt32 z) n = (n <? 32) && Z.testbit z n)
    by (intros z; by rewrite <- !toUint32_testbit, toUint32_toInt32).
  pose proof (HT a). pose proof (HT b). destruct (n <? 32); simpl in *; congruence.
Qed.

(** Bitwise or only looks at the operands modulo 2^32. *)
Lemma lor_uint_ext a b o :
  toUint32 a = toUint32 b → toUint32 (Z.lor a o) = toUint32 (Z.lor b o).
Proof.
  intros E. apply Z.bits_inj'. intros n Hn. rewrite !toUint32_testbit, !Z.lor_spec by done.
  pose proof (f_equal (λ z, Z.testbit z n) E) as En. simpl in En.
  rewrite !toUint32_testbit in En by done. destruct (n <? 32); simpl in *; congruence.
Qed.

Lemma js_or_uint a b : toUint32 (js_or a b) = toUint32 (Z.lor a b).
Proof.
  unfold js_or. rewrite toUint32_toInt32, (lor_uint_ext _ a) by apply toUint32_toInt32.
  rewrite Z.lor_comm, (lor_uint_ext _ b) by apply toUint32_toInt32. by rewrite Z.lor_comm.
Qed.

Lemma js_shl_uint n m : toUint32 n = toUint32 m → toUint32 (js_shl n 8) = toUint32 (m * 256).
Proof.
  intros E. unfold js_shl. rewrite toUint32_toInt32, Z.shiftl_mul_pow2 by lia.
  change (2 ^ 8) with 256. unfold toUint32 at 1. rewrite <- Zmult_mod_idemp_l.
  change (toInt32 n mod 2 ^ 32) with (toUint32 (toInt32 n)). rewrite toUint32_toInt32, E.
  unfold toUint32. by rewrite Zmult_mod_idemp_l.
Qed.

Lemma lor_byte m o : 0 ≤ o ≤ 255 → Z.lor (m * 256) o = m * 256 + o.
Proof.
  intros Ho. assert (HL : Z.land (m * 256) o = 0).
  { apply Z.bits_inj'. intros n Hn. rewrite Z.land_spec, Z.bits_0.
    change 256 with (2 ^ 8). destruct (Z.ltb_spec n 8).
    - by rewrite Z.mul_pow2_bits_low.
    - replace o with (o mod 2 ^ 8) by (apply Z.mod_small; lia).
      rewrite Z.mod_pow2_bits_high by lia. by rewrite andb_false_r. }
  rewrite <- Z.lxor_lor by done. by rewrite <- Z.add_nocarry_lxor.
Qed.

(** [(n << 8) | o] appends a byte, modulo 2^32. *)
Lemma append_byte n m o :
  toUint32 n = toUint32 m → 0 ≤ o ≤ 255 →
  toUint32 (js_or (js_shl n 8) o) = toUint32 (m * 256 + o).
Proof.
  intros E Ho. rewrite js_or_uint, (lor_uint_ext _ (m * 256)) by (by apply js_shl_uint).
  by rewrite lor_byte.
Qed.

Lemma split_on_cons sep w rest :
  allChars (λ c, negb (bool_decide (c = sep))) w →
  split_on sep (String.append w (String sep rest)) = w :: split_on sep rest.
Proof.
  induction w as [|c w IH]; intros H.
  - change (split_on sep (String sep rest) = EmptyString :: split_on sep rest). simpl.
    by rewrite bool_decide_eq_true_2.
  - apply allChars_cons in H as [Hc Hw].
    change (split_on sep (String c (String.append w (String sep rest))) = String c w :: split_on sep rest).
    simpl. apply negb_true_iff in Hc. rewrite Hc.
    by rewrite (IH Hw).
Qed.
Lemma split_on_last sep w :
  allChars (λ c, negb (bool_decide (c = sep))) w → split_on sep w = [w].
Proof.
  induction w as [|c w IH]; intros H; [done|]. apply allChars_cons in H as [Hc Hw]. simpl.
  apply negb_true_iff in Hc. by rewrite Hc, (IH Hw).
Qed.

Lemma byte_string n : 0 ≤ n → numberOf (string_of_Z n) = Some n ∧
  allChars (λ c, negb (bool_decide (c = "."%char))) (string_of_Z n).
Proof.
  intros Hn. assert (Hs : string_of_Z n = pretty (Z.to_N n)).
  { unfold string_of_Z. by destruct n; try lia. }
  rewrite Hs. split.
  - unfold numberOf. rewrite bool_decide_eq_true_2.
    + f_equal. rewrite digits_pretty. lia.
    + apply filterString_all, pretty_chars. intros k Hk. by apply pretty_N_char_digit.
  - apply pretty_chars. intros k Hk.
    assert (∃ j, (j < 10)%nat ∧ k = N.of_nat j) as (j & Hj & ->) by (exists (N.to_nat k); lia).
    do 10 (destruct j as [|j]; [reflexivity|]). lia.
Qed.

Definition byte (n : Z) : Prop := 0 ≤ n ≤ 255.

Lemma split_dotted a b c d :
  byte a → byte b → byte c → byte d →
  split_on "."%char (dotted a b c d) =
  [string_of_Z a; string_of_Z b; string_of_Z c; string_of_Z d].
Proof.
  unfold byte. intros Ha Hb Hc Hd.
  destruct (byte_string a), (byte_string b), (byte_string c), (byte_string d); try lia.
  change (dotted a b c d) with
    (String.append (string_of_Z a) (String "."%char
      (String.append (string_of_Z b) (String "."%char
        (String.append (string_of_Z c) (String "."%char (string_of_Z d))))))).
  by rewrite !split_on_cons, split_on_last by done.
Qed.

Lemma ipv4ToInt_dotted a b c d :
  byte a → byte b → byte c → byte d →
  ipv4ToInt (dotted a b c d) = Some (((a * 256 + b) * 256 + c) * 256 + d).
Proof.
  unfold byte. intros Ha Hb Hc Hd. unfold ipv4ToInt.
  destruct (byte_string a), (byte_string b), (byte_string c), (byte_string d); try lia.
  rewrite split_dotted by done. simpl.
  rewrite H, (proj2 (Z.leb_le _ _)) by lia. rewrite H1, (proj2 (Z.leb_le _ _)) by lia.
  rewrite H3, (proj2 (Z.leb_le _ _)) by lia. rewrite H5, (proj2 (Z.leb_le _ _)) by lia.
  simpl. f_equal. rewrite (append_byte _ ((a * 256 + b) * 256 + c)); [|apply append_byte; [|lia]|lia].
  2: { apply append_byte; [|lia]. by rewrite (append_byte 0 0) by (done || lia). }
  apply toUint32_small. lia.
Qed.

(** Masking keeps the leading bits. *)
Lemma land_mask n k : 0 ≤ k ≤ 32 → 0 ≤ n < 2 ^ 32 →
  Z.land n (Z.shiftl (Z.ones (32 - k)) k) = Z.shiftl (Z.shiftr n k) k.
Proof.
  intros Hk Hn. apply Z.bits_inj'. intros i Hi.
  rewrite Z.land_spec, !Z.shiftl_spec by done.
  destruct (Z.ltb_spec i k).
  { rewrite !(Z.testbit_neg_r _ (i - k)) by lia. apply andb_false_r. }
  rewrite Z.shiftr_spec by lia. replace (i - k + k) with i by lia.
  destruct (Z.ltb_spec i 32).
  - rewrite Z.ones_spec_low by lia. apply andb_true_r.
  - rewrite <- (Z.mod_small n (2 ^ 32)), Z.mod_pow2_bits_high by lia. done.
Qed.

Lemma same_prefix n m k : 0 ≤ k ≤ 32 → 0 ≤ n < 2 ^ 32 → 0 ≤ m < 2 ^ 32 →
  let mask := Z.shiftl (Z.ones (32 - k)) k in
  js_and n mask = js_and m mask ↔ n / 2 ^ k = m / 2 ^ k.
Proof.
  intros Hk Hn Hm mask.
  assert (HS : ∀ x, 0 ≤ x < 2 ^ 32 → toUint32 (js_and x mask) = x / 2 ^ k * 2 ^ k).
  { intros x Hx. rewrite js_and_uint. subst mask. rewrite land_mask by done.
    rewrite Z.shiftr_div_pow2, Z.shiftl_mul_pow2 by lia.
    pose proof (Z.pow_pos_nonneg 2 k ltac:(lia) ltac:(lia)).
    pose proof (Z.div_mod x (2 ^ k) ltac:(lia)). pose proof (Z.mod_pos_bound x (2 ^ k) ltac:(lia)).
    pose proof (Z.div_pos x (2 ^ k) ltac:(lia) ltac:(lia)).
    apply toUint32_small. nia. }
  pose proof (Z.pow_pos_nonneg 2 k ltac:(lia) ltac:(lia)).
  assert (HI : js_and n mask = js_and m mask ↔ toUint32 (js_and n mask) = toUint32 (js_and m mask)).
  { unfold js_and. rewrite toInt32_inj, !toUint32_toInt32. done. }
  rewrite HI, !HS by done. split; [nia|by intros ->].
Qed.

(** An entry of the table as a prefix length and the prefix. *)
Definition entryPrefix (c : string * Z) (k p : Z) : bool :=
  match ipv4ToInt c.1 with
  | Some n => (0 <=? n) && (n <? 2 ^ 32) && (n / 2 ^ k =? p) && (0 <=? k) && (k <=? 32) &&
              (cidrMask c.2 =? Z.shiftl (Z.ones (32 - k)) k)
  | None => false
  end.

Lemma inCidr_prefix addr c k p :
  0 ≤ addr < 2 ^ 32 → entryPrefix c k p = true → inCidr addr c = (addr / 2 ^ k =? p).
Proof.
  intros Ha He. unfold inCidr. unfold entryPrefix in He. destruct (ipv4ToInt c.1) as [n|]; [|done].
  rewrite !andb_true_iff, !Z.leb_le, !Z.ltb_lt, !Z.eqb_eq in He.
  destruct He as [[[[[? ?] <-] ?] ?] ->].
  apply eq_true_iff_eq. rewrite !Z.eqb_eq. by apply same_prefix.
Qed.

Lemma blocked_prefixes addr : 0 ≤ addr < 2 ^ 32 →
  existsb (inCidr addr) BLOCKED_V4_CIDRS =
  existsb (λ '(k, p), addr / 2 ^ k =? p)
    [(24, 0); (24, 10); (22, 100 * 4 + 1); (24, 127); (16, 169 * 256 + 254); (20, 172 * 16 + 1);
     (8, 192 * 65536); (8, 192 * 65536 + 2); (16, 192 * 256 + 168); (17, 198 * 128 + 9);
     (8, (198 * 256 + 51) * 256 + 100); (8, 203 * 65536 + 113); (28, 14); (28, 15)].
Proof.
  intros Ha. unfold BLOCKED_V4_CIDRS. cbn [existsb].
  repeat (apply (f_equal2 orb); [apply inCidr_prefix; [exact Ha|vm_compute; reflexivity]|]). done.
Qed.

Lemma leading_bits n k m q r : 2 ^ k = m → 0 ≤ r < m → n = m * q + r → n / 2 ^ k = q.
Proof. intros -> Hr ->. symmetry. apply Z.div_unique with r; [by left|done]. Qed.

(** The ranges that are not on the public Internet. *)
Definition privateV4 (a b c : Z) : Prop :=
  a = 0 ∨ a = 10 ∨ (a = 100 ∧ 64 ≤ b ≤ 127) ∨ a = 127 ∨ (a = 169 ∧ b = 254) ∨
  (a = 172 ∧ 16 ≤ b ≤ 31) ∨ (a = 192 ∧ b = 0 ∧ (c = 0 ∨ c = 2)) ∨ (a = 192 ∧ b = 168) ∨
  (a = 198 ∧ 18 ≤ b ≤ 19) ∨ (a = 198 ∧ b = 51 ∧ c = 100) ∨ (a = 203 ∧ b = 0 ∧ c = 113) ∨
  224 ≤ a.

Lemma isBlockedV4_dotted a b c d :
  byte a → byte b → byte c → byte d → isBlockedV4 (dotted a b c d) = true ↔ privateV4 a b c.
Proof.
  unfold byte, privateV4. intros Ha Hb Hc Hd. unfold isBlockedV4.
  rewrite ipv4ToInt_dotted by done. set (n := ((a * 256 + b) * 256 + c) * 256 + d).
  assert (Hn : 0 ≤ n < 2 ^ 32) by (subst n; lia).
  rewrite blocked_prefixes by done. cbn [existsb].
  rewrite !orb_true_iff, !Z.eqb_eq.
  rewrite (leading_bits n 24 16777216 a ((b * 256 + c) * 256 + d)) by (done || subst n; Z.to_euclidean_division_equations; lia).
  rewrite (leading_bits n 22 4194304 (a * 4 + b / 64) ((b mod 64 * 256 + c) * 256 + d)) by (done || subst n; Z.to_euclidean_division_equations; lia).
  rewrite (leading_bits n 20 1048576 (a * 16 + b / 16) ((b mod 16 * 256 + c) * 256 + d)) by (done || subst n; Z.to_euclidean_division_equations; lia).
  rewrite (leading_bits n 17 131072 (a * 128 + b / 2) ((b mod 2 * 256 + c) * 256 + d)) by (done || subst n; Z.to_euclidean_division_equations; lia).
  rewrite (leading_bits n 16 65536 (a * 256 + b) (c * 256 + d)) by (done || subst n; Z.to_euclidean_division_equations; lia).
  rewrite (leading_bits n 8 256 ((a * 256 + b) * 256 + c) d) by (done || subst n; Z.to_euclidean_division_equations; lia).
  rewrite (leading_bits n 28 268435456 (a / 16) (((a mod 16 * 256 + b) * 256 + c) * 256 + d)) by (done || subst n; Z.to_euclidean_division_equations; lia).
  clear Hn n.
  assert (a * 4 + b / 64 = 100 * 4 + 1 ↔ a = 100 ∧ 64 ≤ b ≤ 127) as -> by (Z.to_euclidean_division_equations; lia).
  assert (a * 256 + b = 169 * 256 + 254 ↔ a = 169 ∧ b = 254) as -> by (Z.to_euclidean_division_equations; lia).
  assert (a * 16 + b / 16 = 172 * 16 + 1 ↔ a = 172 ∧ 16 ≤ b ≤ 31) as -> by (Z.to_euclidean_division_equations; lia).
  assert ((a * 256 + b) * 256 + c = 192 * 65536 ↔ a = 192 ∧ b = 0 ∧ c = 0) as -> by (Z.to_euclidean_division_equations; lia).
  assert ((a * 256 + b) * 256 + c = 192 * 65536 + 2 ↔ a = 192 ∧ b = 0 ∧ c = 2) as -> by (Z.to_euclidean_division_equations; lia).
  assert (a * 256 + b = 192 * 256 + 168 ↔ a = 192 ∧ b = 168) as -> by (Z.to_euclidean_division_equations; lia).
  assert (a * 128 + b / 2 = 198 * 128 + 9 ↔ a = 198 ∧ 18 ≤ b ≤ 19) as -> by (Z.to_euclidean_division_equations; lia).
  assert ((a * 256 + b) * 256 + c = (198 * 256 + 51) * 256 + 100 ↔ a = 198 ∧ b = 51 ∧ c = 100) as -> by (Z.to_euclidean_division_equations; lia).
  assert ((a * 256 + b) * 256 + c = 203 * 65536 + 113 ↔ a = 203 ∧ b = 0 ∧ c = 113) as -> by (Z.to_euclidean_division_equations; lia).
  assert (a / 16 = 14 ↔ 224 ≤ a ≤ 239) as -> by (Z.to_euclidean_division_equations; lia).
  assert (a / 16 = 15 ↔ 240 ≤ a) as -> by (Z.to_euclidean_division_equations; lia).
  assert (224 ≤ a ↔ 224 ≤ a ≤ 239 ∨ 240 ≤ a) as -> by lia.
  assert (false = true ↔ False) as -> by done. tauto.
Qed.

(** ** IPv4-mapped IPv6 addresses *)

(** [::ffff:a.b.c.d] *)
Definition mapped (a b c d : Z) : string := "::ffff:" +:+ dotted a b c d.


Lemma allChars_app f s t : allChars f s → allChars f t → allChars f (String.append s t).
Proof.
  induction s as [|c s IH]; [done|]. intros Hs Ht. apply allChars_cons in Hs as [Hc Hs].
  apply allChars_cons. split; [done|by apply IH].
Qed.

Lemma mapString_id f s : allChars (λ c, bool_decide (f c = c)) s → mapString f s = s.
Proof.
  induction s as [|c s IH]; intros H; [done|]. apply allChars_cons in H as [Hc Hs].
  apply bool_decide_eq_true in Hc. simpl. by rewrite Hc, IH.
Qed.

Lemma digits_allChars f n :
  0 ≤ n → (∀ k, (k < 10)%N → f (pretty_N_char k) = true) → allChars f (string_of_Z n).
Proof.
  intros Hn Hf. assert (string_of_Z n = pretty (Z.to_N n)) as ->
    by (unfold string_of_Z; by destruct n; try lia).
  by apply pretty_chars.
Qed.

Lemma dotted_lower a b c d :
  byte a → byte b → byte c → byte d →
  allChars (λ c, bool_decide (lowerChar c = c)) (dotted a b c d).
Proof.
  unfold byte, dotted. intros.
  assert (HD : ∀ n, 0 ≤ n → allChars (λ c, bool_decide (lowerChar c = c)) (string_of_Z n)).
  { intros n Hn. apply digits_allChars; [done|]. intros k Hk.
    assert (∃ j, (j < 10)%nat ∧ k = N.of_nat j) as (j & Hj & ->) by (exists (N.to_nat k); lia).
    do 10 (destruct j as [|j]; [reflexivity|]). lia. }
  repeat (apply allChars_app; [apply HD; lia|]; apply allChars_app; [by repeat constructor|]).
  apply HD. lia.
Qed.

Lemma isDotted_dotted a b c d :
  byte a → byte b → byte c → byte d → isDotted (dotted a b c d) = true.
Proof.
  intros Ha Hb Hc Hd. unfold isDotted. rewrite split_dotted by done. simpl.
  assert (HD : ∀ n, byte n → negb (bool_decide (string_of_Z n = EmptyString)) &&
               bool_decide (filterString isDigit (string_of_Z n) = string_of_Z n) = true).
  { unfold byte. intros n Hn. apply andb_true_iff. split.
    - apply negb_true_iff, bool_decide_eq_false. intros E.
      destruct (byte_string n) as [H _]; [lia|]. rewrite E in H.
      assert (string_of_Z n = pretty (Z.to_N n)) as E2 by (unfold string_of_Z; by destruct n; try lia).
      rewrite E2 in E. by apply pretty_not_empty in E.
    - apply bool_decide_eq_true, filterString_all, digits_allChars; [lia|].
      intros k Hk. by apply pretty_N_char_digit. }
  by rewrite !HD.
Qed.

(** A mapped address is judged as the IPv4 address in it. *)
Lemma isBlockedV6_mapped a b c d :
  byte a → byte b → byte c → byte d →
  isBlockedV6 (mapped a b c d) = isBlockedV4 (dotted a b c d).
Proof.
  intros Ha Hb Hc Hd. unfold isBlockedV6.
  assert (toLowerCase (mapped a b c d) = mapped a b c d) as ->.
  { apply mapString_id. unfold mapped. apply allChars_app; [by repeat constructor|].
    by apply dotted_lower. }
  assert (Hm : mappedV4 (mapped a b c d) = Some (dotted a b c d)).
  { unfold mappedV4, mapped. pose proof (isDotted_dotted a b c d Ha Hb Hc Hd) as HD.
    change ("::ffff:" +:+ dotted a b c d) with
      (String ":"%char (String ":"%char (String "f"%char (String "f"%char (String "f"%char
        (String "f"%char (String ":"%char (dotted a b c d)))))))).
    cbn [afterMatch sliceFrom String.length]. rewrite HD.
    assert (startsWith "::ffff:" (String ":"%char (String ":"%char (String "f"%char (String "f"%char
      (String "f"%char (String "f"%char (String ":"%char (dotted a b c d)))))))) = true) as ->
      by (by destruct (dotted a b c d)).
    done. }
  rewrite Hm. unfold mapped.
  rewrite (bool_decide_eq_false_2 (_ = "::1")), (bool_decide_eq_false_2 (_ = "::")) by done.
  reflexivity.
Qed.

(** ** Correctness *)

(** The IPv4 addresses webhooks never contact are exactly the private,
    loopback, link-local (cloud metadata included), shared, test, benchmarking,
    multicast and reserved ranges, and an IPv4-mapped IPv6 address is blocked
    exactly when the IPv4 address in it is. *)
Theorem blocked_ipv4_ranges a b c d :
  byte a → byte b → byte c → byte d →
  (isBlockedV4 (dotted a b c d) = true ↔ privateV4 a b c) ∧
  (isBlockedV6 (mapped a b c d) = true ↔ privateV4 a b c).
Proof.
  intros Ha Hb Hc Hd. rewrite isBlockedV6_mapped by done.
  by split; apply isBlockedV4_dotted.
Qed.
Lemma blocked_ipv4_ranges_witness :
  (isBlockedV4 (dotted 172 31 0 1) = true ↔ privateV4 172 31 0) ∧
  (isBlockedV6 (mapped 172 31 0 1) = true ↔ privateV4 172 31 0).
Proof. apply (blocked_ipv4_ranges 172 31 0 1); split; discriminate. Defined.

(** What the validator relies on of [net]: a dotted address is IPv4, a mapped
    one is IPv6 and not IPv4. *)
Class NetLaws `{Net} : Prop := {
  isIPv4_dotted a b c d : byte a → byte b → byte c → byte d → (isIPv4 (dotted a b c d)) = true;
  isIPv4_mapped a b c d : byte a → byte b → byte c → byte d → isIPv4 (mapped a b c d) = false;
  isIPv6_mapped a b c d : byte a → byte b → byte c → byte d → isIPv6 (mapped a b c d) = true
}.

Section Safe.
Context `{NetLaws}.

(** The addresses a request to a host can be sent to. *)
Definition contacted (host : string) : list string :=
  if isIPv4 host || isIPv6 host then [host] else resolvedIps host.

(** A webhook URL that passes validation is an https URL with at least
    one address, none of them blocked: no IPv4 address it resolves to, written
    as such or mapped into IPv6, lies in a private range, A and AAAA answers
    taken together. *)
Theorem safe_webhook_url_is_public url :
  assertSafeWebhookUrl url = Ok tt →
  ∃ host, parseUrl url = Some ("https:", host) ∧ contacted host ≠ [] ∧
    (∀ ip, ip ∈ contacted host → isBlockedIP ip = false) ∧
    (∀ a b c d, byte a → byte b → byte c → byte d → privateV4 a b c →
       (dotted a b c d ∉ contacted host) ∧ (mapped a b c d ∉ contacted host)).
Proof.
  unfold assertSafeWebhookUrl. intros HU.
  destruct (parseUrl url) as [[protocol host]|]; [|done]. exists host.
  destruct (bool_decide (protocol = "https:")) eqn:EP; [|done]. apply bool_decide_eq_true in EP.
  assert (HB : contacted host ≠ [] ∧ ∀ ip, ip ∈ contacted host → isBlockedIP ip = false).
  { unfold contacted. cbn [negb] in HU. destruct (isIPv4 host || isIPv6 host) eqn:EL.
    - destruct (isBlockedIP host) eqn:EB; [done|]. split; [done|].
      intros ip Hip. by apply list_elem_of_singleton in Hip as ->.
    - destruct (resolvedIps host) as [|x xs] eqn:ER; [done|]. rewrite <- ER in *.
      split; [congruence|]. intros ip Hip. apply not_true_iff_false. intros HT.
      assert (existsb isBlockedIP (resolvedIps host) = true) as HE
        by (apply existsb_exists; exists ip; split; [by apply list_elem_of_In|done]).
      by rewrite HE in HU. }
  destruct HB as [HN HB]. split_and!; [by subst|done..|]. intros a b c d Ha Hb Hc Hd HP.
  split; intros Hin; apply HB in Hin; unfold isBlockedIP in Hin.
  - rewrite isIPv4_dotted in Hin by done. apply (isBlockedV4_dotted a b c d) in HP; [congruence|done..].
  - rewrite isIPv4_mapped, isIPv6_mapped, isBlockedV6_mapped in Hin by done.
    apply (isBlockedV4_dotted a b c d) in HP; [congruence|done..].
Qed.
End Safe.

(** A small network: the host name "hooks.example" has one public A record
    and one AAAA record. *)
Definition exampleNet : Net :=
  {| parseUrl u := if bool_decide (u = "https://hooks.example/") then Some ("https:", "hooks.example")
                   else None;
     isIPv4 s := isDotted s && bool_decide (is_Some (ipv4ToInt s));
     isIPv6 s := startsWith "::ffff:" s || startsWith "2001:" s;
     resolve4 h := if bool_decide (h = "hooks.example") then Some ["203.0.114.7"] else None;
     resolve6 h := if bool_decide (h = "hooks.example") then Some ["2001:db8::7"] else None |}.

Lemma no_colon w : filterString isDigit (String ":"%char w) ≠ String ":"%char w.
Proof.
  intros E. apply (f_equal String.list_ascii_of_string) in E. unfold filterString in E.
  rewrite String.list_ascii_of_string_of_list_ascii in E. simpl in E.
  assert (Hin : In ":"%char (List.filter isDigit (String.list_ascii_of_string w)))
    by (rewrite E; by left).
  by apply filter_In in Hin as [_ ?].
Qed.

Lemma exampleNet_laws : @NetLaws exampleNet.
Proof.
  split; intros a b c d Ha Hb Hc Hd; simpl.
  - by rewrite isDotted_dotted, ipv4ToInt_dotted by done.
  - destruct (isDotted (mapped a b c d)) eqn:E; [|done]. unfold isDotted, mapped in E.
    change ("::ffff:" +:+ dotted a b c d) with
      (String ":"%char (String.append ":ffff:" (dotted a b c d))) in E.
    apply andb_true_iff in E as [_ E]. exfalso. revert E. cbn [split_on].
    rewrite bool_decide_eq_false_2 by done.
    destruct (split_on "."%char _) as [|w ws]; cbn [forallb]; rewrite !andb_true_iff, bool_decide_eq_true;
      intros [[_ E] _]; by apply no_colon in E.
  - unfold mapped. by destruct (dotted a b c d).
Qed.

Lemma safe_webhook_url_is_public_witness :
  ∃ host, (@parseUrl exampleNet "https://hooks.example/") = Some ("https:", host) ∧
    @contacted exampleNet host ≠ [] ∧
    (∀ ip, ip ∈ @contacted exampleNet host → @isBlockedIP exampleNet ip = false) ∧
    (∀ a b c d, byte a → byte b → byte c → byte d → privateV4 a b c →
       (dotted a b c d ∉ @contacted exampleNet host) ∧ (mapped a b c d ∉ @contacted exampleNet host)).
Proof.
  apply (@safe_webhook_url_is_public exampleNet exampleNet_laws). vm_compute. reflexivity.
Defined.
