(* ===== verification/Webhooks.v ===== *)
(** * modules/webhooks and queue/webhook-retry.processor.ts

    Registration of webhooks, the dispatch of an event to the webhooks of its
    company, one delivery attempt, and the worker that retries failed
    deliveries with its cron.  The HTTP request, the HMAC and JSON encoding are
    parameters; the calls to fetch and to the BullMQ queue are logged. *)

From S2P Require Import Prelude JsString Redis DeliveryModel UrlValidator.

#[local] Open Scope string_scope.
#[local] Open Scope list_scope.
#[local] Open Scope Z_scope.

(** ** Rows *)

Inductive WebhookDeliveryStatus := wd_pending | wd_success | wd_failed.
#[export] Instance WebhookDeliveryStatus_eq_dec : EqDecision WebhookDeliveryStatus.
Proof. solve_decision. Defined.

Record Webhook := mkWebhook {
  wh_companyId : string;
  wh_url : string;
  wh_secret : string;
  wh_events : list string;
  wh_isActive : bool;
  wh_createdAt : Z
}.

#[export] Instance Webhook_eq_dec : EqDecision Webhook.
Proof. solve_decision. Defined.

Record WebhookPayload := mkWebhookPayload {
  wp_event : string;
  wp_timestamp : Z;
  wp_data : payload
}.

Record WebhookDelivery := mkWebhookDelivery {
  wd_webhookId : string;
  wd_event : string;
  wd_payload : WebhookPayload;
  wd_status : WebhookDeliveryStatus;
  wd_responseStatusCode : option Z;
  wd_responseBody : option string;
  wd_attempts : Z;
  wd_maxAttempts : Z;
  wd_nextRetryAt : option Z;
  wd_createdAt : Z;
  wd_completedAt : option Z
}.

(** A POST to an endpoint, with the headers that depend on the event. *)
Record Post := mkPost {
  post_url : string;
  post_signature : string;
  post_event : string;
  post_body : string
}.

Record RetryJob := mkRetryJob {
  job_webhookDeliveryId : string;
  job_id : string
}.

Record WebhookStore := mkWebhookStore {
  webhooks : gmap string Webhook;
  webhookDeliveries : gmap string WebhookDelivery;
  companyDeletedAt : gmap string (option Z);
  redisDb : RedisDb;
  posts : list Post;        (** oldest first *)
  retryQueue : list RetryJob
}.

(** An error as the [catch] of an attempt sees it. *)
Record JsError := mkJsError { err_name : option string; err_message : option string }.

(** What [fetch] gives: a response, whose text may fail to arrive, or a
    rejection. *)
Inductive Fetched :=
  | FResponse (status : Z) (text : string + JsError)
  | FRejected (e : JsError).

Record WebhookEnv := mkWebhookEnv {
  w_now : Z;
  w_randomHex : string;                    (** randomBytes(24) in hexadecimal *)
  w_newId : string → string;               (** the uuid of a row about a webhook *)
  w_stringify : WebhookPayload → string;
  w_hmac : string → string → string;       (** payload, secret *)
  w_fetch : Post → Fetched;
  w_readable : bool;                       (** whether webhook.findMany succeeds *)
  w_redis : RedisLink;
  w_instanceId : string
}.

(** ** Access to the store *)

(** [webhook.findFirst({ where: { id, companyId } })] *)
Definition findWebhook (cid id : string) : M WebhookStore Webhook := λ s,
  match webhooks s !! id with
  | Some w => if bool_decide (wh_companyId w = cid) then (s, Ok w)
              else (s, Throw (NotFoundException "Webhook not found"))
  | None => (s, Throw (NotFoundException "Webhook not found"))
  end.

(** [webhook.update({ where: { id }, data })] *)
Definition updateWebhook (id : string) (f : Webhook → Webhook) : M WebhookStore Webhook := λ s,
  match webhooks s !! id with
  | Some w => (s <| webhooks ::= <[id := f w]> |>, Ok (f w))
  | None => (s, Throw PrismaP2025)
  end.

(** [webhookDelivery.update({ where: { id }, data })] *)
Definition updateWebhookDelivery (id : string) (f : WebhookDelivery → WebhookDelivery) :
    M WebhookStore unit := λ s,
  match webhookDeliveries s !! id with
  | Some d => (s <| webhookDeliveries ::= <[id := f d]> |>, Ok tt)
  | None => (s, Throw PrismaP2025)
  end.

(** ** Signature and secret *)

Definition generateSecret (env : WebhookEnv) : string := "whsec_" +:+ w_randomHex env.
Definition signPayload (env : WebhookEnv) (body secret : string) : string := w_hmac env body secret.

(** ** Registration *)

Record CreateWebhookDto := mkCreateWebhookDto {
  cw_url : string;
  cw_events : list string;
  cw_secret : option string
}.
Record UpdateWebhookDto := mkUpdateWebhookDto {
  uw_url : option string;
  uw_events : option (list string);
  uw_secret : option string
}.

Record WebhookCreatedResponse := mkWebhookCreatedResponse {
  wc_id : string;
  wc_secret : string;
  wc_url : string;
  wc_events : list string;
  wc_isActive : bool
}.

(** [PUBLIC_FIELDS]: the secret is not one of them. *)
Record PublicWebhook := mkPublicWebhook {
  pw_id : string;
  pw_url : string;
  pw_events : list string;
  pw_isActive : bool;
  pw_createdAt : Z
}.
Definition PUBLIC_FIELDS (id : string) (w : Webhook) : PublicWebhook :=
  mkPublicWebhook id (wh_url w) (wh_events w) (wh_isActive w) (wh_createdAt w).

(** [orderBy: { createdAt: 'desc' }] *)
Definition newest_first {A} (key : A → Z) (l : list A) : list A :=
  @merge_sort A (λ a b, key b ≤ key a) (λ a b, Z.le_dec (key b) (key a)) l.

Section Service.
Context `{Net} (env : WebhookEnv).

Definition create (cid : string) (dto : CreateWebhookDto) : M WebhookStore WebhookCreatedResponse :=
  of_result (assertSafeWebhookUrl (cw_url dto)) ;;
  let secret := if truthy (cw_secret dto) then default EmptyString (cw_secret dto)
                else generateSecret env in
  let id := w_newId env EmptyString in
  taken ← gets (λ s, bool_decide (is_Some (webhooks s !! id)));
  ensure (negb taken) PrismaP2002 ;;
  modify (λ s, s <| webhooks ::=
    <[id := mkWebhook cid (cw_url dto) secret (cw_events dto) true (w_now env)]> |>) ;;
  mret (mkWebhookCreatedResponse id secret (cw_url dto) (cw_events dto) true).

(** The latest [n] deliveries of a webhook. *)
Definition recentDeliveries (n : nat) (id : string) (s : WebhookStore) :
    list (string * WebhookDelivery) :=
  take n (newest_first (λ kv, wd_createdAt kv.2)
    (find_many (λ _ d, bool_decide (wd_webhookId d = id)) (webhookDeliveries s))).

Definition findAll (cid : string) :
    M WebhookStore (list (PublicWebhook * list (string * WebhookDelivery))) :=
  gets (λ s,
    map (λ kv, (PUBLIC_FIELDS kv.1 kv.2, recentDeliveries 5 kv.1 s))
      (newest_first (λ kv, wh_createdAt kv.2)
        (find_many (λ _ w, bool_decide (wh_companyId w = cid)) (webhooks s)))).

Definition findOne (cid id : string) :
    M WebhookStore (PublicWebhook * list (string * WebhookDelivery)) :=
  w ← findWebhook cid id;
  gets (λ s, (PUBLIC_FIELDS id w, recentDeliveries 20 id s)).

Definition webhookPatch (dto : UpdateWebhookDto) (w : Webhook) : Webhook :=
  w <| wh_url ::= patch_req (uw_url dto) |>
    <| wh_events ::= patch_req (uw_events dto) |>
    <| wh_secret ::= patch_req (uw_secret dto) |>.

Definition update (cid id : string) (dto : UpdateWebhookDto) : M WebhookStore PublicWebhook :=
  findWebhook cid id ;;
  match uw_url dto with
  | Some url => of_result (assertSafeWebhookUrl url)
  | None => mret tt
  end ;;
  w ← updateWebhook id (webhookPatch dto);
  mret (PUBLIC_FIELDS id w).

(** The deliveries of a webhook go with it ([onDelete: Cascade]). *)
Definition remove (cid id : string) : M WebhookStore unit :=
  findWebhook cid id ;;
  modify (λ s, s <| webhooks ::= delete id |>
                 <| webhookDeliveries ::= delete_many (λ _ d, bool_decide (wd_webhookId d = id)) |>).

Definition toggle (cid id : string) : M WebhookStore (string * bool) :=
  existing ← findWebhook cid id;
  w ← updateWebhook id (λ w, w <| wh_isActive := negb (wh_isActive existing) |>);
  mret (id, wh_isActive w).

(** ** One attempt *)

Record Attempt := mkAttempt {
  at_statusCode : Z;
  at_responseBody : string;
  at_successful : bool
}.

(** The [catch (err)] of an attempt. *)
Definition attemptError (e : JsError) : Attempt :=
  mkAttempt (if bool_decide (err_name e = Some "AbortError") then 408 else 0)
    (sliceTo 5000 (if truthy (err_message e) then default EmptyString (err_message e)
                   else "Unknown error")) false.

(** Reading of the answer to the POST. *)
Definition readAttempt (r : Fetched) : Attempt :=
  match r with
  | FRejected e => attemptError e
  | FResponse st text =>
      if (300 <=? st) && (st <? 400)
      then mkAttempt 422 "Webhook delivery does not follow redirects" false
      else match text with
           | inr e => attemptError e
           | inl t => mkAttempt st (sliceTo 5000 t) ((200 <=? st) && (st <? 300))
           end
  end.

Definition sendPost (w : Webhook) (event : string) (p : WebhookPayload) : M WebhookStore Attempt :=
  let body := w_stringify env p in
  let post := mkPost (wh_url w) (signPayload env body (wh_secret w)) event body in
  modify (λ s, s <| posts ::= λ l, l ++ [post] |>) ;;
  mret (readAttempt (w_fetch env post)).

Definition nextRetry (successful : bool) (attempts maxAttempts : Z) : option Z :=
  if negb successful && (0 <? maxAttempts - attempts)
  then Some (w_now env + 2 ^ attempts * 60000) else None.

Definition statusOf (successful : bool) : WebhookDeliveryStatus :=
  if successful then wd_success else wd_failed.

Definition deliver (webhookId event : string) (p : WebhookPayload) :
    M WebhookStore (option (WebhookDeliveryStatus * Z)) :=
  webhook ← gets (λ s, webhooks s !! webhookId);
  match webhook with
  | None => mret None
  | Some w =>
      match assertSafeWebhookUrl (wh_url w) with
      | Throw _ => mret None
      | Ok _ =>
          a ← sendPost w event p;
          let id := w_newId env webhookId in
          taken ← gets (λ s, bool_decide (is_Some (webhookDeliveries s !! id)));
          ensure (negb taken) PrismaP2002 ;;
          modify (λ s, s <| webhookDeliveries ::=
            <[id := mkWebhookDelivery webhookId event p (statusOf (at_successful a))
                (Some (at_statusCode a)) (Some (at_responseBody a)) 1 5
                (nextRetry (at_successful a) 1 5) (w_now env) None]> |>) ;;
          mret (Some (statusOf (at_successful a), at_statusCode a))
      end
  end.

Definition sendTest (cid id : string) : M WebhookStore (option (WebhookDeliveryStatus * Z)) :=
  findWebhook cid id ;;
  deliver id "test.ping"
    (mkWebhookPayload "test.ping" (w_now env)
       [("message", JStr "This is a test webhook from Pistio")]).

(** ** Dispatch *)

Definition subscribed (cid event : string) (w : Webhook) : bool :=
  bool_decide (wh_companyId w = cid) && wh_isActive w && bool_decide (event ∈ wh_events w).

(** The attempts run on their own ([Promise.allSettled]): a rejected one is
    ignored. *)
Definition dispatch (event cid : string) (p : payload) : M WebhookStore unit :=
  if w_readable env then
    hooks ← gets (λ s, find_many (λ _ w, subscribed cid event w) (webhooks s));
    for_each (λ id,
      try_catch (deliver id event (mkWebhookPayload event (w_now env) p) ;; mret tt) (λ _, mret tt))
      hooks.*1
  else mret tt.

(** ** WebhookRetryProcessor *)

Definition abandon (d : WebhookDelivery) : WebhookDelivery :=
  d <| wd_status := wd_failed |> <| wd_nextRetryAt := None |>.

Definition recordRetry (attempts : Z) (a : Attempt) (d : WebhookDelivery) : WebhookDelivery :=
  d <| wd_status := statusOf (at_successful a) |>
    <| wd_responseStatusCode := Some (at_statusCode a) |>
    <| wd_responseBody := Some (at_responseBody a) |>
    <| wd_attempts := attempts |>
    <| wd_nextRetryAt := nextRetry (at_successful a) attempts (wd_maxAttempts d) |>
    <| wd_completedAt := if at_successful a then Some (w_now env) else None |>.

(** Nothing is left to retry. *)
Definition finished (d : WebhookDelivery) : bool :=
  bool_decide (wd_status d = wd_success) || (wd_maxAttempts d <=? wd_attempts d).

(** [company?.deletedAt] *)
Definition companyDeleted (cid : string) (s : WebhookStore) : bool :=
  match companyDeletedAt s !! cid with Some (Some _) => true | _ => false end.

Definition process (webhookDeliveryId : string) : M WebhookStore unit :=
  row ← gets (λ s, webhookDeliveries s !! webhookDeliveryId);
  match row with
  | None => mret tt
  | Some d =>
      if finished d then mret tt
      else
        hook ← gets (λ s, webhooks s !! wd_webhookId d);
        match hook with
        | None => throw (OtherError "Inconsistent query result")
        | Some w =>
            gone ← gets (companyDeleted (wh_companyId w));
            if (gone : bool) then updateWebhookDelivery webhookDeliveryId abandon
            else
              match assertSafeWebhookUrl (wh_url w) with
              | Throw _ => updateWebhookDelivery webhookDeliveryId abandon
              | Ok _ =>
                  a ← sendPost w (wd_event d) (wd_payload d);
                  updateWebhookDelivery webhookDeliveryId (recordRetry (wd_attempts d + 1) a)
              end
        end
  end.

Definition dueForRetry (s : WebhookStore) (d : WebhookDelivery) : bool :=
  bool_decide (wd_status d = wd_failed)
  && match wd_nextRetryAt d with Some t => t <=? w_now env | None => false end
  && match webhooks s !! wd_webhookId d with
     | Some w => negb (companyDeleted (wh_companyId w) s)
     | None => false
     end.

Definition retryJobId (id : string) (attempts : Z) : string :=
  "retry:" +:+ id +:+ ":" +:+ string_of_Z attempts.

Definition enqueueFailedDeliveries : M WebhookStore unit :=
  acquired ← (λ s, let '(db, ok) := acquireCronLock (w_redis env) (w_instanceId env)
                     "webhook.enqueueFailedDeliveries" 240 (w_now env) (redisDb s) in
                   (s <| redisDb := db |>, Ok ok));
  if (acquired : bool) then
    failed ← gets (λ s, find_many (λ _ d, dueForRetry s d) (webhookDeliveries s));
    for_each (λ kv,
      if wd_maxAttempts kv.2 <=? wd_attempts kv.2 then mret tt
      else modify (λ s, s <| retryQueue ::= λ l,
             l ++ [mkRetryJob kv.1 (retryJobId kv.1 (wd_attempts kv.2))] |>)) failed
  else mret tt.
End Service.
