(* ===== verification/WebhooksProps.v ===== *)
(** * modules/webhooks: correctness

    Who receives an event, how often a failed delivery is retried, what the
    cron enqueues, and what the requests of a company can change. *)

From S2P Require Import Prelude JsString Redis DeliveryModel UrlValidator Webhooks.

#[local] Open Scope string_scope.
#[local] Open Scope list_scope.
#[local] Open Scope Z_scope.

Definition urlSafe `{Net} (w : Webhook) : bool := is_ok (assertSafeWebhookUrl (wh_url w)).

(** The POST of an event to a webhook, and the row that records it. *)
Definition postFor (env : WebhookEnv) (w : Webhook) (event : string) (p : WebhookPayload) : Post :=
  mkPost (wh_url w) (w_hmac env (w_stringify env p) (wh_secret w)) event (w_stringify env p).
Definition attemptOf (env : WebhookEnv) (w : Webhook) (event : string) (p : WebhookPayload) : Attempt :=
  readAttempt (w_fetch env (postFor env w event p)).
Definition rowFor (env : WebhookEnv) (id : string) (w : Webhook) (event : string)
    (p : WebhookPayload) : WebhookDelivery :=
  let a := attemptOf env w event p in
  mkWebhookDelivery id event p (statusOf (at_successful a)) (Some (at_statusCode a))
    (Some (at_responseBody a)) 1 5 (nextRetry env (at_successful a) 1 5) (w_now env) None.

(** ** Dispatch *)

Lemma deliver_run `{Net} env id event p s w :
  webhooks s !! id = Some w → webhookDeliveries s !! w_newId env id = None →
  deliver env id event p s =
  if urlSafe w
  then (s <| posts ::= λ l, l ++ [postFor env w event p] |>
          <| webhookDeliveries ::= <[w_newId env id := rowFor env id w event p]> |>,
        Ok (Some (wd_status (rowFor env id w event p), at_statusCode (attemptOf env w event p))))
  else (s, Ok None).
Proof.
  intros Hw Hn. unfold deliver, urlSafe. rewrite bind_run. unfold gets at 1. rewrite Hw.
  destruct (assertSafeWebhookUrl (wh_url w)) as [u|e]; [|done]. simpl is_ok. cbv iota.
  rewrite bind_run. unfold sendPost at 1. rewrite bind_run. unfold modify at 1.
  unfold mret at 1, M_ret at 1. rewrite bind_run. unfold gets at 1.
  rewrite bool_decide_eq_false_2.
  - done.
  - destruct s. simpl in *. rewrite Hn. by intros [? ?].
Qed.

Section Dispatch.
Context `{Net} (env : WebhookEnv) (event : string) (p : payload).

Definition eventPayload : WebhookPayload := mkWebhookPayload event (w_now env) p.

Definition attemptEach (id : string) : M WebhookStore unit :=
  try_catch (deliver env id event eventPayload ;; mret tt) (λ _, mret tt).

Lemma attemptEach_run id s w :
  webhooks s !! id = Some w → webhookDeliveries s !! w_newId env id = None →
  attemptEach id s =
  (if urlSafe w
   then s <| posts ::= λ l, l ++ [postFor env w event eventPayload] |>
          <| webhookDeliveries ::= <[w_newId env id := rowFor env id w event eventPayload]> |>
   else s, Ok tt).
Proof.
  intros Hw Hn. unfold attemptEach, try_catch. rewrite bind_run, (deliver_run _ _ _ _ _ _ Hw Hn).
  by destruct (urlSafe w).
Qed.

(** The loop over the selected webhooks. *)
Lemma attemptAll_run (l : list (string * Webhook)) : ∀ s,
  (∀ kv, kv ∈ l → webhooks s !! kv.1 = Some kv.2) →
  (∀ kv, kv ∈ l → webhookDeliveries s !! w_newId env kv.1 = None) →
  NoDup (map (w_newId env) l.*1) →
  ∃ s', for_each attemptEach l.*1 s = (s', Ok tt) ∧
    webhooks s' = webhooks s ∧ retryQueue s' = retryQueue s ∧
    posts s' = posts s ++ map (λ kv, postFor env kv.2 event eventPayload)
                            (filter (λ kv, urlSafe kv.2 = true) l) ∧
    (∀ kv, kv ∈ l → urlSafe kv.2 = true →
       webhookDeliveries s' !! w_newId env kv.1 = Some (rowFor env kv.1 kv.2 event eventPayload)) ∧
    (∀ k, (∀ kv, kv ∈ l → urlSafe kv.2 = true → k ≠ w_newId env kv.1) →
       webhookDeliveries s' !! k = webhookDeliveries s !! k).
Proof.
  induction l as [|[id w] l IH]; intros s HW HF HND.
  { exists s. split_and!; [done..|by rewrite app_nil_r|intros kv Hkv; by apply not_elem_of_nil in Hkv|done]. }
  cbn [fmap list_fmap map for_each fst]. apply NoDup_cons in HND as [Hid HND].
  assert (Hfresh : ∀ kv, kv ∈ l → w_newId env id ≠ w_newId env kv.1).
  { intros kv Hkv E. apply Hid. cbn [fst]. rewrite E. apply (list_elem_of_fmap_2 (w_newId env)).
    by apply list_elem_of_fmap_2. }
  rewrite bind_run, (attemptEach_run id s w) by
    (apply (HW (id, w)) || apply (HF (id, w)); left).
  destruct (IH (if urlSafe w
   then s <| posts ::= λ l, l ++ [postFor env w event eventPayload] |>
          <| webhookDeliveries ::= <[w_newId env id := rowFor env id w event eventPayload]> |>
   else s)) as (s' & Hrun & Hw & Hq & Hp & Hin & Hout).
  - intros kv Hkv. destruct (urlSafe w), s; apply HW; by right.
  - intros kv Hkv. destruct (urlSafe w), s; simpl; [rewrite lookup_insert_ne by auto|]; apply HF; by right.
  - done.
  - exists s'. split; [exact Hrun|]. rewrite filter_cons. cbn [snd].
    destruct (urlSafe w) eqn:EU.
    + rewrite decide_True by done. split_and!; [by destruct s|by destruct s| | |].
      * rewrite Hp. destruct s. simpl. by rewrite <- app_assoc.
      * intros kv Hkv Hs. apply elem_of_cons in Hkv as [->|Hkv]; [|by apply Hin].
        rewrite Hout by auto. destruct s. simpl. by rewrite lookup_insert_eq.
      * intros k Hk. rewrite Hout by (intros kv Hkv; apply Hk; by right). destruct s. simpl.
        rewrite lookup_insert_ne; [done|]. apply not_eq_sym, (Hk (id, w)); [left|done].
    + rewrite decide_False by done. split_and!; [done|done|done| |].
      * intros kv Hkv Hs. apply elem_of_cons in Hkv as [->|Hkv]; [simpl in Hs; congruence|by apply Hin].
      * intros k Hk. apply Hout. intros kv Hkv. apply Hk. by right.
Qed.
End Dispatch.

(** An event is posted once to every active webhook of its company that
    subscribes to it and whose URL is safe, signed with that webhook's own
    secret, and to nothing else; each attempt is recorded with one attempt out
    of five and, when it failed, a retry two minutes later; the caller never
    sees a failure. *)
Theorem dispatch_reaches_subscribers `{Net} env event cid p s :
  w_readable env = true →
  (∀ id w, webhooks s !! id = Some w → webhookDeliveries s !! w_newId env id = None) →
  (∀ id1 id2, w_newId env id1 = w_newId env id2 → id1 = id2) →
  ∃ s' hooks, dispatch env event cid p s = (s', Ok tt) ∧
    NoDup hooks.*1 ∧
    (∀ id w, (id, w) ∈ hooks ↔
       webhooks s !! id = Some w ∧ wh_companyId w = cid ∧ wh_isActive w = true ∧
       event ∈ wh_events w ∧ assertSafeWebhookUrl (wh_url w) = Ok tt) ∧
    webhooks s' = webhooks s ∧
    posts s' = posts s ++ map (λ kv, postFor env kv.2 event (mkWebhookPayload event (w_now env) p)) hooks ∧
    (∀ id w, (id, w) ∈ hooks → ∃ r, webhookDeliveries s' !! w_newId env id = Some r ∧
       wd_attempts r = 1 ∧ wd_maxAttempts r = 5 ∧
       wd_nextRetryAt r = (if bool_decide (wd_status r = wd_success) then None
                           else Some (w_now env + 120000))) ∧
    (∀ k, (∀ id w, (id, w) ∈ hooks → k ≠ w_newId env id) →
       webhookDeliveries s' !! k = webhookDeliveries s !! k).
Proof.
  intros HR HF HI. unfold dispatch. rewrite HR, bind_run. unfold gets at 1.
  set (sel := find_many (λ _ w, subscribed cid event w) (webhooks s)).
  assert (Hsel : ∀ kv, kv ∈ sel → webhooks s !! kv.1 = Some kv.2).
  { intros [k w] Hkv. by apply elem_of_find_many in Hkv as [? _]. }
  destruct (attemptAll_run env event p sel s) as (s' & Hrun & Hw & Hq & Hp & Hin & Hout).
  { done. }
  { intros kv Hkv. eapply HF. by apply Hsel. }
  { apply NoDup_fmap_2_strong; [by intros ????; apply HI|]. apply find_many_NoDup. }
  exists s', (filter (λ kv, urlSafe kv.2 = true) sel).
  assert (Hchar : ∀ id w, (id, w) ∈ filter (λ kv, urlSafe kv.2 = true) sel ↔
       webhooks s !! id = Some w ∧ wh_companyId w = cid ∧ wh_isActive w = true ∧
       event ∈ wh_events w ∧ assertSafeWebhookUrl (wh_url w) = Ok tt).
  { intros id w. rewrite list_elem_of_filter. unfold sel. rewrite elem_of_find_many.
    unfold subscribed, urlSafe. rewrite !andb_true_iff, !bool_decide_eq_true. cbn [snd].
    destruct (assertSafeWebhookUrl (wh_url w)) as [[]|e]; simpl; naive_solver. }
  split_and!; [exact Hrun| |exact Hchar|done|exact Hp| |].
  - apply (sublist_NoDup _ sel.*1); [apply find_many_NoDup|apply fmap_sublist, sublist_filter].
  - intros id w Hkv. apply list_elem_of_filter in Hkv as [Hs Hkv].
    eexists. split; [by apply (Hin (id, w))|]. unfold rowFor. cbn.
    split_and!; [done..|]. by destruct (at_successful _).
  - intros k Hk. apply Hout. intros [id w] Hkv Hs. apply (Hk id w). by apply list_elem_of_filter.
Qed.

(** ** An example store: two companies, with an active webhook each. *)

Definition exampleHook (cid : string) (events : list string) : Webhook :=
  mkWebhook cid "https://hooks.example/" "whsec_0" events true 0.
Definition exampleStore : WebhookStore :=
  mkWebhookStore
    {[ "w1" := exampleHook "c1" ["delivery.delivered"]; "w2" := exampleHook "c2" ["delivery.delivered"] ]}
    ∅ {[ "c1" := None; "c2" := None ]} ∅ [] [].
(** A server that answers [code]. *)
Definition exampleEnv (time code : Z) : WebhookEnv :=
  {| w_now := time; w_randomHex := "00"; w_newId id := "d:" +:+ id; w_stringify _ := "{}";
     w_hmac body secret := body +:+ secret; w_fetch _ := FResponse code (inl "body");
     w_readable := true; w_redis := RedisUp; w_instanceId := "api-1" |}.

Lemma dispatch_reaches_subscribers_witness :
  ∃ s' hooks, @dispatch exampleNet (exampleEnv 1000 500) "delivery.delivered" "c1" [] exampleStore =
      (s', Ok tt) ∧
    NoDup hooks.*1 ∧
    (∀ id w, (id, w) ∈ hooks ↔
       webhooks exampleStore !! id = Some w ∧ wh_companyId w = "c1" ∧ wh_isActive w = true ∧
       "delivery.delivered" ∈ wh_events w ∧ @assertSafeWebhookUrl exampleNet (wh_url w) = Ok tt) ∧
    webhooks s' = webhooks exampleStore ∧
    posts s' = posts exampleStore ++
      map (λ kv, postFor (exampleEnv 1000 500) kv.2 "delivery.delivered"
                   (mkWebhookPayload "delivery.delivered" 1000 [])) hooks ∧
    (∀ id w, (id, w) ∈ hooks →
       ∃ r, webhookDeliveries s' !! ("d:" +:+ id) = Some r ∧
       wd_attempts r = 1 ∧ wd_maxAttempts r = 5 ∧
       wd_nextRetryAt r = (if bool_decide (wd_status r = wd_success) then None
                           else Some (1000 + 120000))) ∧
    (∀ k, (∀ id w, (id, w) ∈ hooks → k ≠ "d:" +:+ id) →
       webhookDeliveries s' !! k = webhookDeliveries exampleStore !! k).
Proof.
  apply (@dispatch_reaches_subscribers exampleNet (exampleEnv 1000 500)).
  - reflexivity.
  - intros id w _. apply lookup_empty.
  - intros id1 id2 E. injection E as E. exact E.
Defined.

(** ** Retries *)

(** Every branch of one job, on a delivery whose webhook exists. *)
Lemma process_run `{Net} env id s d w :
  webhookDeliveries s !! id = Some d → webhooks s !! wd_webhookId d = Some w →
  process env id s =
  if finished d then (s, Ok tt)
  else if companyDeleted (wh_companyId w) s || negb (urlSafe w)
  then (s <| webhookDeliveries ::= <[id := abandon d]> |>, Ok tt)
  else (s <| posts ::= λ l, l ++ [postFor env w (wd_event d) (wd_payload d)] |>
          <| webhookDeliveries ::= <[id :=
               recordRetry env (wd_attempts d + 1) (attemptOf env w (wd_event d) (wd_payload d)) d]> |>,
        Ok tt).
Proof.
  intros Hd Hw. unfold process. rewrite bind_run. unfold gets at 1. rewrite Hd.
  destruct (finished d); [done|]. rewrite bind_run. unfold gets at 1. rewrite Hw.
  rewrite bind_run. unfold gets at 1.
  assert (HA : updateWebhookDelivery id abandon s =
               (s <| webhookDeliveries ::= <[id := abandon d]> |>, Ok tt))
    by (unfold updateWebhookDelivery; by rewrite Hd).
  destruct (companyDeleted (wh_companyId w) s); [exact HA|]. unfold urlSafe. simpl orb.
  destruct (assertSafeWebhookUrl (wh_url w)) as [u|e]; [|exact HA]. simpl.
  rewrite bind_run. unfold sendPost. rewrite bind_run. unfold modify at 1.
  unfold mret at 1, M_ret at 1. unfold updateWebhookDelivery. destruct s. simpl in *. by rewrite Hd.
Qed.

Lemma abandon_attempts d : wd_attempts (abandon d) = wd_attempts d.
Proof. done. Qed.

Lemma finished_recordRetry env a n d :
  finished (recordRetry env n a d) = at_successful a || (wd_maxAttempts d <=? n).
Proof.
  unfold finished, recordRetry. simpl. by destruct (at_successful a).
Qed.

Lemma finished_spec d : finished d = false → wd_attempts d < wd_maxAttempts d.
Proof. unfold finished. rewrite orb_false_iff, Z.leb_gt. tauto. Qed.

(** The worker running jobs of one delivery, each with its own clock, network
    and answer. *)
Definition RetryStep : Type := Net * WebhookEnv.
Fixpoint runJobs (steps : list RetryStep) (id : string) (s : WebhookStore) : WebhookStore :=
  match steps with
  | [] => s
  | (net, env) :: steps' => runJobs steps' id (run_state (@process net env id) s)
  end.

(** The state of a delivery after one job. *)
Lemma process_step `{Net} env id s d w :
  webhookDeliveries s !! id = Some d → webhooks s !! wd_webhookId d = Some w →
  ∃ d', let s' := run_state (process env id) s in
    webhookDeliveries s' !! id = Some d' ∧ webhooks s' = webhooks s ∧
    companyDeletedAt s' = companyDeletedAt s ∧
    wd_webhookId d' = wd_webhookId d ∧ wd_maxAttempts d' = wd_maxAttempts d ∧
    (finished d = true → s' = s ∧ d' = d) ∧
    (finished d = false → (wd_attempts d' = wd_attempts d ∨ wd_attempts d' = wd_attempts d + 1)) ∧
    Z.of_nat (length (posts s')) = Z.of_nat (length (posts s)) + (wd_attempts d' - wd_attempts d) ∧
    (finished d = false → companyDeleted (wh_companyId w) s = false → urlSafe w = true →
       wd_attempts d' = wd_attempts d + 1) ∧
    (wd_nextRetryAt d' = wd_nextRetryAt d ∨ wd_nextRetryAt d' = None ∨
     wd_nextRetryAt d' = Some (w_now env + 2 ^ wd_attempts d' * 60000)).
Proof.
  intros Hd Hw. unfold run_state. rewrite (process_run env id s d w Hd Hw).
  destruct (finished d) eqn:EF.
  { exists d. simpl. rewrite Z.sub_diag, Z.add_0_r. split_and!; auto; done. }
  destruct (companyDeleted (wh_companyId w) s || negb (urlSafe w)) eqn:EA.
  - exists (abandon d). destruct s. simpl. rewrite lookup_insert_eq, Z.sub_diag, Z.add_0_r.
    split_and!; auto; try done. intros _ H1 H2. rewrite H1, H2 in EA. done.
  - eexists. destruct s. simpl. rewrite lookup_insert_eq. split; [done|].
    split_and!; try done; [by right|rewrite length_app; simpl; lia|].
    unfold recordRetry. simpl. unfold nextRetry.
    match goal with |- context [if ?b then _ else _] => destruct b end; auto.
Qed.

(** However the worker is driven, the jobs of a delivery post at most as
    many times as it has attempts left, one attempt per post; a delivery that
    succeeded or used its attempts is never posted again; and when its company
    is active and its URL safe, as many jobs as it has attempts left bring it
    to that state. *)
Theorem retry_bounded steps id s d w :
  webhookDeliveries s !! id = Some d → webhooks s !! wd_webhookId d = Some w →
  let s' := runJobs steps id s in
  ∃ d', webhookDeliveries s' !! id = Some d' ∧ wd_maxAttempts d' = wd_maxAttempts d ∧
    wd_attempts d ≤ wd_attempts d' ≤ Z.max (wd_attempts d) (wd_maxAttempts d) ∧
    Z.of_nat (length (posts s')) = Z.of_nat (length (posts s)) + (wd_attempts d' - wd_attempts d) ∧
    (finished d = true → s' = s) ∧
    (companyDeleted (wh_companyId w) s = false →
     (∀ st, st ∈ steps → @urlSafe st.1 w = true) →
     wd_maxAttempts d - wd_attempts d ≤ Z.of_nat (length steps) → finished d' = true).
Proof.
  revert s d. induction steps as [|[net env] steps IH]; intros s d Hd Hw.
  { exists d. simpl. split_and!; try done; [lia..|]. intros _ _ Hl. unfold finished.
    by rewrite (proj2 (Z.leb_le _ _)), orb_true_r by lia. }
  cbn [runJobs]. destruct (process_step env id s d w Hd Hw)
    as (d1 & Hd1 & Hw1 & Hc1 & Hk1 & Hm1 & Hf1 & Ha1 & Hp1 & Hl1 & _).
  set (s1 := run_state (process env id) s) in *.
  destruct (IH s1 d1) as (d' & Hd' & Hm' & Ha' & Hp' & Hf' & Hl'); [done|by rewrite Hw1, Hk1|].
  exists d'. split_and!; [done|congruence| | |lia| |].
  - destruct (finished d) eqn:EF; [destruct Hf1 as [_ ->]; [done|lia]|].
    destruct Ha1 as [E|E]; [done|lia..].
  - destruct (finished d) eqn:EF; [destruct Hf1 as [_ E]; [done|rewrite E in *; lia]|].
    pose proof (finished_spec _ EF). destruct Ha1 as [E|E]; [done|lia..].
  - intros EF. destruct Hf1 as [E1 E2]; [done|]. rewrite Hf'; [done|congruence].
  - intros HC HS HL. destruct (finished d) eqn:EF.
    { destruct Hf1 as [E1 E2]; [done|]. subst d1. rewrite Hf' in Hd' by done. rewrite E1 in Hd'.
      congruence. }
    apply Hl'.
    + unfold companyDeleted in *. by rewrite Hc1.
    + intros st Hst. apply HS. by right.
    + rewrite Hm1, Hl1; [|done..|].
      * simpl in HL. lia.
      * apply (HS (net, env)). left.
Qed.

Definition retryExampleDelivery : WebhookDelivery :=
  rowFor (exampleEnv 1000 500) "w1" (exampleHook "c1" []) "delivery.delivered"
    (mkWebhookPayload "delivery.delivered" 1000 []).
Definition retryExampleStore : WebhookStore :=
  exampleStore <| webhookDeliveries := {[ "d" := retryExampleDelivery ]} |>.

Lemma retry_bounded_witness :
  let s' := runJobs (replicate 4 (exampleNet, exampleEnv 200000 500)) "d" retryExampleStore in
  ∃ d', webhookDeliveries s' !! "d" = Some d' ∧ wd_maxAttempts d' = 5 ∧
    1 ≤ wd_attempts d' ≤ Z.max 1 5 ∧
    Z.of_nat (length (posts s')) = Z.of_nat 0 + (wd_attempts d' - 1) ∧
    (finished retryExampleDelivery = true → s' = retryExampleStore) ∧
    (companyDeleted "c1" retryExampleStore = false →
     (∀ st, st ∈ replicate 4 (exampleNet, exampleEnv 200000 500) →
        @urlSafe st.1 (exampleHook "c1" ["delivery.delivered"]) = true) →
     5 - 1 ≤ Z.of_nat 4 → finished d' = true).
Proof.
  apply (retry_bounded (replicate 4 (exampleNet, exampleEnv 200000 500)) "d" retryExampleStore
    retryExampleDelivery (exampleHook "c1" ["delivery.delivered"])); reflexivity.
Defined.

(** ** The cron *)

Definition jobOf (kv : string * WebhookDelivery) : RetryJob :=
  mkRetryJob kv.1 (retryJobId kv.1 (wd_attempts kv.2)).
Definition retryable (kv : string * WebhookDelivery) : bool :=
  negb (wd_maxAttempts kv.2 <=? wd_attempts kv.2).

Lemma enqueueAll_run l : ∀ s,
  for_each (λ kv, if wd_maxAttempts kv.2 <=? wd_attempts kv.2 then mret tt
      else modify (λ s, s <| retryQueue ::= λ l,
             l ++ [mkRetryJob kv.1 (retryJobId kv.1 (wd_attempts kv.2))] |>)) l s =
  (s <| retryQueue ::= λ q, q ++ map jobOf (filter (λ kv, retryable kv = true) l) |>, Ok tt).
Proof.
  induction l as [|kv l IH]; intros s.
  - destruct s. simpl. unfold mret, M_ret. unfold set. simpl. by rewrite app_nil_r.
  - cbn [for_each]. rewrite bind_run, filter_cons.
    assert ((wd_maxAttempts kv.2 <=? wd_attempts kv.2) = negb (retryable kv)) as ->
      by (unfold retryable; by rewrite negb_involutive).
    destruct (retryable kv); cbn [negb].
    + unfold modify at 1. rewrite IH, decide_True by done. destruct s. unfold set. simpl.
      by rewrite <- app_assoc.
    + unfold mret at 1, M_ret at 1. by rewrite IH, decide_False by done.
Qed.

(** A run of the retry cron that holds the lock enqueues exactly one job
    for each failed delivery of an active company that is due and has attempts
    left, under an id that names the delivery and its attempt; a run without
    the lock enqueues nothing; the deliveries are not touched. *)
Theorem enqueue_exact env s :
  let s' := run_state (enqueueFailedDeliveries env) s in
  let acquired := (acquireCronLock (w_redis env) (w_instanceId env)
                     "webhook.enqueueFailedDeliveries" 240 (w_now env) (redisDb s)).2 in
  ∃ due : list (string * WebhookDelivery),
    retryQueue s' = retryQueue s ++ map jobOf due ∧ NoDup due.*1 ∧
    (∀ id d, (id, d) ∈ due ↔ acquired = true ∧ webhookDeliveries s !! id = Some d ∧
       wd_status d = wd_failed ∧ finished d = false ∧
       (∃ t, wd_nextRetryAt d = Some t ∧ t ≤ w_now env) ∧
       ∃ w, webhooks s !! wd_webhookId d = Some w ∧ companyDeleted (wh_companyId w) s = false) ∧
    webhookDeliveries s' = webhookDeliveries s ∧ posts s' = posts s.
Proof.
  unfold run_state, enqueueFailedDeliveries. rewrite bind_run.
  destruct (acquireCronLock _ _ _ _ _ _) as [db ok]. cbn [snd].
  destruct ok; cycle 1.
  { exists []. destruct s. simpl. rewrite app_nil_r. split_and!; [done|constructor| |done..].
    intros id d. split; [intros Hin; by apply not_elem_of_nil in Hin|by intros [? _]]. }
  rewrite bind_run. unfold gets. rewrite enqueueAll_run.
  exists (filter (λ kv, retryable kv = true)
    (find_many (λ _ d, dueForRetry env (s <| redisDb := db |>) d) (webhookDeliveries s))).
  split_and!; [by destruct s| | |by destruct s|by destruct s].
  - eapply sublist_NoDup; [apply (find_many_NoDup (λ _ d, dueForRetry env (s <| redisDb := db |>) d))|].
    apply fmap_sublist, sublist_filter.
  - intros id d. rewrite list_elem_of_filter, elem_of_find_many.
    unfold dueForRetry, retryable, finished. cbn [fst snd].
    rewrite !andb_true_iff, bool_decide_eq_true, negb_true_iff.
    assert (HE : (webhooks (s <| redisDb := db |>) = webhooks s) ∧
                 ∀ c, companyDeleted c (s <| redisDb := db |>) = companyDeleted c s)
      by (by destruct s).
    destruct HE as [-> HC].
    destruct (webhooks s !! wd_webhookId d) as [w|]; destruct (wd_nextRetryAt d) as [t|];
      rewrite ?HC, ?negb_true_iff, ?Z.leb_le, ?orb_false_iff, ?bool_decide_eq_false;
      naive_solver congruence.
Qed.

(** ** Requests *)

(** What a request of company [cid] may do to the table of webhooks. *)
Record guardedWebhooks `{Net} (cid : string) (s s' : WebhookStore) : Prop := mkGuarded {
  gw_others id w : webhooks s !! id = Some w → wh_companyId w ≠ cid → webhooks s' !! id = Some w;
  gw_own id w : webhooks s' !! id = Some w → webhooks s !! id ≠ Some w → wh_companyId w = cid;
  gw_url id w : webhooks s' !! id = Some w →
    urlSafe w = true ∨ ∃ w0, webhooks s !! id = Some w0 ∧ wh_url w0 = wh_url w
}.

#[export] Instance guardedWebhooks_preorder `{Net} cid : PreOrder (guardedWebhooks cid).
Proof.
  split.
  - intros s. split; [done|by intros|]. intros id w Hw. right. eauto.
  - intros s1 s2 s3 [A1 B1 C1] [A2 B2 C2]. split.
    + eauto.
    + intros id w H3 H1. destruct (decide (webhooks s2 !! id = Some w)); eauto.
    + intros id w H3. destruct (C2 id w H3) as [|(w2 & H2 & E2)]; [by left|].
      unfold urlSafe in *. destruct (C1 id w2 H2) as [|(w1 & H1 & E1)]; rewrite E2 in *; eauto.
Qed.

Lemma guarded_same `{Net} cid s s' : webhooks s' = webhooks s → guardedWebhooks cid s s'.
Proof. intros E. split; rewrite ?E; eauto; congruence. Qed.

Lemma guarded_put `{Net} cid s id w :
  wh_companyId w = cid → (∀ w0, webhooks s !! id = Some w0 → wh_companyId w0 = cid) →
  urlSafe w = true ∨ (∃ w0, webhooks s !! id = Some w0 ∧ wh_url w0 = wh_url w) →
  guardedWebhooks cid s (s <| webhooks ::= <[id := w]> |>).
Proof.
  intros HC HO HU. split; intros k v; destruct s; simpl in *; destruct (decide (k = id)) as [->|].
  - intros Hv Hne. by apply HO in Hv.
  - by rewrite lookup_insert_ne.
  - rewrite lookup_insert_eq. intros [= <-] _. done.
  - by rewrite lookup_insert_ne.
  - rewrite lookup_insert_eq. by intros [= <-].
  - rewrite lookup_insert_ne by done. eauto.
Qed.

Lemma footprint_deliver `{Net} env cid id event p : footprint (guardedWebhooks cid) (deliver env id event p).
Proof.
  unfold deliver, sendPost. footprint_auto; by apply guarded_same; destruct s.
Qed.

Definition ownsWebhook (cid id : string) (w : Webhook) (s : WebhookStore) : Prop :=
  webhooks s !! id = Some w ∧ wh_companyId w = cid.

Lemma spec_findWebhook `{Net} cid id :
  spec (λ _, True) (guardedWebhooks cid) (findWebhook cid id) (λ w s, ownsWebhook cid id w s).
Proof.
  intros s _. unfold findWebhook. destruct (webhooks s !! id) as [w|] eqn:E; [|by split].
  case_bool_decide; [|by split]. split; [done|]. intros ?? [= <- <-]. by split.
Qed.

Lemma spec_updateWebhook `{Net} cid id f w :
  wh_companyId (f w) = cid → urlSafe (f w) = true ∨ wh_url (f w) = wh_url w →
  spec (ownsWebhook cid id w) (guardedWebhooks cid) (updateWebhook id f) (λ _ _, True).
Proof.
  intros HC HU s [Hw Ho]. unfold updateWebhook. rewrite Hw. split; [|done]. cbn [fst].
  apply guarded_put; [done|naive_solver|]. destruct HU; [by left|]. right. eauto.
Qed.

Lemma footprint_update `{Net} cid id dto : footprint (guardedWebhooks cid) (update cid id dto).
Proof.
  apply footprint_of_spec with (Q := λ _ _, True). unfold update.
  eapply spec_bind; [exact _|apply spec_findWebhook|]. intros w. cbn beta.
  eapply spec_bind with (Q := λ _ s, ownsWebhook cid id w s ∧
    match uw_url dto with Some u => is_ok (assertSafeWebhookUrl u) = true | None => True end).
  { exact _. }
  { intros s Hs. destruct (uw_url dto) as [u|]; [|by split; [|intros ?? [= <- <-]]].
    unfold of_result. split; [done|]. intros a s' [= <- E]. by rewrite E. }
  intros _. cbn beta. eapply spec_bind; [exact _| |intros w'; apply spec_ret; [exact _|done]].
  intros s [Hs Hu]. refine (spec_updateWebhook cid id (webhookPatch dto) w _ _ s Hs).
  - unfold webhookPatch. simpl. apply Hs.
  - unfold urlSafe, webhookPatch. simpl. destruct (uw_url dto); [by left|by right].
Qed.

(** The calls of the webhooks controller, and the dispatch of an event. *)
Inductive WebhookRequest :=
  | WCreate (dto : CreateWebhookDto)
  | WFindAll
  | WFindOne (id : string)
  | WUpdate (id : string) (dto : UpdateWebhookDto)
  | WRemove (id : string)
  | WToggle (id : string)
  | WSendTest (id : string)
  | WDispatch (event : string) (p : payload).

Definition runWebhookRequest `{Net} (env : WebhookEnv) (cid : string) (r : WebhookRequest) :
    M WebhookStore unit :=
  match r with
  | WCreate dto => create env cid dto ;; mret tt
  | WFindAll => findAll cid ;; mret tt
  | WFindOne id => findOne cid id ;; mret tt
  | WUpdate id dto => update cid id dto ;; mret tt
  | WRemove id => remove cid id
  | WToggle id => toggle cid id ;; mret tt
  | WSendTest id => sendTest env cid id ;; mret tt
  | WDispatch event p => dispatch env event cid p
  end.

Lemma footprint_dispatch `{Net} cid env event p :
  footprint (guardedWebhooks cid) (dispatch env event cid p).
Proof.
  unfold dispatch. destruct (w_readable env); [|apply footprint_ret, _].
  apply footprint_bind; [exact _|apply footprint_gets, _|intros l].
  apply footprint_for_each; [exact _|intros id _].
  apply footprint_try; [exact _| |intros; apply footprint_ret, _].
  apply footprint_bind; [exact _|apply footprint_deliver|intros; apply footprint_ret, _].
Qed.

Lemma footprint_findWebhook `{Net} cid id : footprint (guardedWebhooks cid) (findWebhook cid id).
Proof. eapply footprint_of_spec, spec_findWebhook. Qed.

Lemma footprint_toggle `{Net} cid id : footprint (guardedWebhooks cid) (toggle cid id).
Proof.
  apply footprint_of_spec with (Q := λ _ _, True). unfold toggle.
  eapply spec_bind; [exact _|apply spec_findWebhook|]. intros w. cbn beta.
  eapply spec_bind; [exact _| |intros w'; apply spec_ret; [exact _|done]].
  intros s Hs. refine (spec_updateWebhook cid id _ w _ _ s Hs); simpl; [apply Hs|by right].
Qed.

Lemma footprint_remove `{Net} cid id : footprint (guardedWebhooks cid) (remove cid id).
Proof.
  apply footprint_of_spec with (Q := λ _ _, True). unfold remove.
  eapply spec_bind; [exact _|apply spec_findWebhook|]. intros w s [Hw Hc]. split; [|done].
  cbn. split; intros k v; destruct s; simpl in *; destruct (decide (k = id)) as [->|];
    rewrite ?lookup_delete_eq, ?lookup_delete_ne by done; eauto; congruence.
Qed.

Lemma footprint_create `{Net} env cid dto : footprint (guardedWebhooks cid) (create env cid dto).
Proof.
  intros s. unfold create. rewrite bind_run. unfold of_result.
  destruct (assertSafeWebhookUrl (cw_url dto)) as [u|e] eqn:EU; [|by apply guarded_same].
  rewrite bind_run. unfold gets at 1. rewrite bind_run.
  destruct (webhooks s !! w_newId env EmptyString) eqn:EI; [by apply guarded_same|].
  simpl. apply guarded_put; [done|by rewrite EI|]. left. unfold urlSafe. simpl. by rewrite EU.
Qed.

(** Whatever a company asks, the webhooks of the other companies stay as
    they are, the ones it changes are its own, and every URL it stores was
    accepted by the validator. *)
Theorem webhooks_guarded `{Net} env cid r s :
  let s' := run_state (runWebhookRequest env cid r) s in
  (∀ id w, webhooks s !! id = Some w → wh_companyId w ≠ cid → webhooks s' !! id = Some w) ∧
  (∀ id w, webhooks s' !! id = Some w → webhooks s !! id ≠ Some w → wh_companyId w = cid) ∧
  (∀ id w, webhooks s' !! id = Some w →
     (∀ w0, webhooks s !! id = Some w0 → wh_url w0 ≠ wh_url w) →
     assertSafeWebhookUrl (wh_url w) = Ok tt).
Proof.
  assert (HG : footprint (guardedWebhooks cid) (runWebhookRequest env cid r)).
  { destruct r; simpl; try (apply footprint_bind; [exact _| |intros; apply footprint_ret, _]).
    - apply footprint_create.
    - apply footprint_gets, _.
    - apply footprint_bind; [exact _|apply footprint_findWebhook|intros; apply footprint_gets, _].
    - apply footprint_update.
    - apply footprint_remove.
    - apply footprint_toggle.
    - apply footprint_bind; [exact _|apply footprint_findWebhook|intros; apply footprint_deliver].
    - apply footprint_dispatch. }
  destruct (HG s) as [A B C]. split_and!; [exact A|exact B|].
  intros id w Hw Hn. destruct (C id w Hw) as [HS|(w0 & H0 & E)]; [|by apply Hn in H0].
  unfold urlSafe in HS. by destruct (assertSafeWebhookUrl (wh_url w)) as [[]|].
Qed.
