(* ===== verification/AuthModel.v ===== *)
(** * modules/auth, sessions, invitations, api-keys: data

    Accounts, sessions, invitations and API keys as one store, the libraries
    authentication relies on (jsonwebtoken, bcrypt, node:crypto, speakeasy) as
    an interface, and common/auth/access-token-revocation.ts. *)

From S2P Require Import Prelude JsString Redis.

#[local] Open Scope string_scope.
#[local] Open Scope list_scope.
#[local] Open Scope Z_scope.

(** ** Rows *)

Inductive UserRole := admin | dispatcher | driver | client.
#[export] Instance UserRole_eq_dec : EqDecision UserRole.
Proof. solve_decision. Defined.
Definition role_string (r : UserRole) : string :=
  match r with
  | admin => "admin" | dispatcher => "dispatcher" | driver => "driver" | client => "client"
  end.

Record User := mkUser {
  email : string;
  passwordHash : string;
  firstName : string;
  lastName : string;
  phone : option string;
  role : UserRole;
  companyId : string;
  isActive : bool;
  totpSecret : option string;
  totpEnabled : bool;
  legacyRefreshTokenHash : option string;
  resetTokenId : option string;
  resetTokenHash : option string;
  resetTokenExpiry : option Z;
  googleId : option string;
  deletedAt : option Z
}.

Record UserSession := mkUserSession {
  us_userId : string;
  us_device : option string;
  us_ip : option string;
  us_createdAt : Z;
  us_lastActivity : Z;
  us_expiresAt : Z;
  us_refreshTokenHash : option string;
  us_previousRefreshTokenHash : option string
}.

Record Company := mkCompany {
  co_name : string;
  co_email : option string;
  co_deletedAt : option Z
}.

Record PlatformAdmin := mkPlatformAdmin { pa_email : string; pa_isActive : bool }.

Inductive InvitationStatus := inv_pending | inv_accepted | inv_expired | inv_revoked.
#[export] Instance InvitationStatus_eq_dec : EqDecision InvitationStatus.
Proof. solve_decision. Defined.
Definition invitation_status_string (s : InvitationStatus) : string :=
  match s with
  | inv_pending => "pending" | inv_accepted => "accepted"
  | inv_expired => "expired" | inv_revoked => "revoked"
  end.

Record Invitation := mkInvitation {
  in_email : string;
  in_role : UserRole;
  in_token : string;  (** sha256 of the token in the link *)
  in_status : InvitationStatus;
  in_companyId : string;
  in_invitedById : string;
  in_expiresAt : Z;
  in_acceptedAt : option Z;
  in_createdAt : Z
}.

Record Driver := mkDriver {
  dr_firstName : string;
  dr_lastName : string;
  dr_email : option string;
  dr_phone : option string;
  dr_licenseNumber : string;
  dr_companyId : string;
  dr_userId : option string;
  dr_deletedAt : option Z
}.

(** The trial a new company gets. *)
Record TrialSubscription := mkTrial {
  ts_companyId : string;
  ts_planId : string;
  ts_periodStart : Z;
  ts_trialEndsAt : Z
}.

Record ApiKey := mkApiKey {
  ak_companyId : string;
  ak_name : string;
  ak_keyHash : string;
  ak_prefix : string;
  ak_scopes : list string;
  ak_expiresAt : option Z;
  ak_isActive : bool;
  ak_lastUsedAt : option Z
}.

Inductive AuthMail :=
  | Welcome (to name : string)
  | PasswordReset (to token : string)
  | InvitationMail (to url : string) (r : UserRole).

Record AuthStore := mkAuthStore {
  users : gmap string User;
  userSessions : gmap string UserSession;
  companies : gmap string Company;
  platformAdmins : gmap string PlatformAdmin;
  invitations : gmap string Invitation;
  drivers : gmap string Driver;
  trials : gmap string TrialSubscription;
  enterprisePlan : option string;  (** the id of the seeded 'enterprise' plan *)
  apiKeys : gmap string ApiKey;
  redisDb : RedisDb;
  authMails : list AuthMail  (** oldest first *)
}.

(** ** Libraries *)

(** The claims of a token; [iat] is in seconds. *)
Record JwtPayload := mkJwtPayload {
  sub : string;
  jp_email : string;
  jp_role : string;
  jp_companyId : option string;
  jp_firstName : string;
  jp_lastName : string;
  jp_type : option string;
  jp_scope : option string;
  jp_impersonatedBy : option string;
  jp_sessionId : option string;
  jti : option string;
  iat : option Z
}.

Class AuthLib := {
  (** [sign(payload, { secret, expiresIn })] at a time in milliseconds. *)
  jwtSign : string → string → Z → JwtPayload → string;
  (** [verify(token, { secret, algorithms: ['HS256'] })]; [None]: it throws. *)
  jwtVerify : string → Z → string → option JwtPayload;
  (** The [exp] of [decode(token)], in seconds. *)
  jwtExp : string → option Z;
  (** [hash(data, 12)] with a given salt, and [compare(data, hash)]. *)
  bcryptHash : string → string → string;
  bcryptCompare : string → string → bool;
  sha256hex : string → string;
  sha256base64url : string → string;
  hmacHex : string → string → string;
  (** [speakeasy.totp.verify({ secret, token, window: 1 })] at a time. *)
  totpVerify : string → Z → string → bool
}.

(** Configuration, clock and randomness of a request. *)
Record AuthEnv := mkAuthEnv {
  now : Z;
  redisLink : RedisLink;
  JWT_ACCESS_SECRET : string;
  JWT_REFRESH_SECRET : string;
  JWT_2FA_TEMP_SECRET : option string;
  JWT_ACCESS_EXPIRATION : option string;
  JWT_REFRESH_EXPIRATION : option string;
  JWT_DEVICE_TOKEN_EXPIRATION : option string;
  APP_URL : option string;
  newId : string → string;      (** the uuid of a new row of a table *)
  randomUUID : string;
  randomHex : string;
  salt : string;
  instanceId : string
}.

Definition accessExpiration (env : AuthEnv) : string := default "15m" (JWT_ACCESS_EXPIRATION env).
Definition refreshExpiration (env : AuthEnv) : string := default "7d" (JWT_REFRESH_EXPIRATION env).
Definition deviceTokenExpiration (env : AuthEnv) : string :=
  default "30d" (JWT_DEVICE_TOKEN_EXPIRATION env).
Definition tempTokenExpiration : string := "5m".
Definition tempSecret (env : AuthEnv) : string :=
  default (JWT_ACCESS_SECRET env) (JWT_2FA_TEMP_SECRET env).

(** ** Durations *)

(** [/^(\d+)([smhd])$/]: the number and the unit in seconds. *)
Definition durationParts (s : string) : option (Z * Z) :=
  let n := (String.length s - 1)%nat in
  let d := sliceTo n s in
  if negb (bool_decide (d = EmptyString)) && bool_decide (filterString isDigit d = d) then
    match sliceFrom n s with
    | "s" => Some (digitsValue d, 1)
    | "m" => Some (digitsValue d, 60)
    | "h" => Some (digitsValue d, 3600)
    | "d" => Some (digitsValue d, 86400)
    | _ => None
    end
  else None.

Definition parseExpirationSeconds (expiration : string) : Z :=
  match durationParts expiration with Some (v, u) => v * u | None => 7 * 24 * 60 * 60 end.

Definition refreshExpirationSeconds (env : AuthEnv) : Z :=
  parseExpirationSeconds (refreshExpiration env).

(** common/auth/access-token-revocation.ts *)
Definition accessTokenTtlSeconds (jwtAccessExpiration : option string) : Z :=
  let raw := if truthy jwtAccessExpiration then default EmptyString jwtAccessExpiration else "15m" in
  match durationParts raw with Some (v, u) => v * u | None => 900 end.

(** ** Revocation of access tokens *)

Definition revokedUserKey (id : string) : string := "revoked:user:" +:+ id.
Definition revokedSessionKey (id : string) : string := "revoked:session:" +:+ id.

Definition cutoffSeconds (t : Z) : Z := t / 1000 + 1.

(** A command that is skipped without Redis and whose failure is ignored. *)
Definition redisBestEffort (env : AuthEnv) (f : RedisDb → RedisDb) : M AuthStore unit :=
  match redisLink env with
  | RedisUp => modify (λ s, s <| redisDb ::= f |>)
  | _ => mret tt
  end.

Definition revokeKey (env : AuthEnv) (key : string) (ttlSeconds : Z) : M AuthStore unit :=
  redisBestEffort env
    (redis_set (now env) key (string_of_Z (cutoffSeconds (now env))) (Z.max ttlSeconds 1)).
Definition revokeUserAccessTokens (env : AuthEnv) (id : string) (ttlSeconds : Z) :
    M AuthStore unit := revokeKey env (revokedUserKey id) ttlSeconds.
Definition revokeSessionAccessTokens (env : AuthEnv) (id : string) (ttlSeconds : Z) :
    M AuthStore unit := revokeKey env (revokedSessionKey id) ttlSeconds.

(** Whether a revocation key refuses a token issued at [iat] seconds. *)
Definition revokedBy (t : Z) (key : string) (iat : Z) (db : RedisDb) : bool :=
  match redis_get t key db with
  | Some v => negb (bool_decide (v = EmptyString)) && (iat <? digitsValue v)
  | None => false
  end.

(** [revoked:user:<sub>], then [revoked:session:<sessionId>]. *)
Definition tokenRevoked (t : Z) (p : JwtPayload) (db : RedisDb) : bool :=
  match iat p with
  | Some i =>
      negb (i =? 0) &&
      (revokedBy t (revokedUserKey (sub p)) i db ||
       match jp_sessionId p with
       | Some sid => truthy (jp_sessionId p) && revokedBy t (revokedSessionKey sid) i db
       | None => false
       end)
  | None => false
  end.

(** ** Access to the store *)

Definition sendAuthMail (m : AuthMail) : M AuthStore unit :=
  modify (λ s, s <| authMails ::= λ l, l ++ [m] |>).

(** [user.findUnique] by a unique column. *)
Definition userByEmail (e : string) (s : AuthStore) : option (string * User) :=
  find_first (λ _ u, bool_decide (email u = e)) (users s).
Definition userByGoogleId (g : string) (s : AuthStore) : option (string * User) :=
  find_first (λ _ u, bool_decide (googleId u = Some g)) (users s).
Definition userByResetTokenId (r : string) (s : AuthStore) : option (string * User) :=
  find_first (λ _ u, bool_decide (resetTokenId u = Some r)) (users s).

(** The unique indexes of the users table, for a row stored under [id]. *)
Definition userClashes (id : string) (u : User) (t : gmap string User) : bool :=
  bool_decide (find_many (λ k v,
    bool_decide (k ≠ id ∧ (email v = email u ∨
      (is_Some (googleId u) ∧ googleId v = googleId u) ∨
      (is_Some (resetTokenId u) ∧ resetTokenId v = resetTokenId u)))) t ≠ []).

(** [user.create({ data })], the row getting the id [id]. *)
Definition createUser (id : string) (u : User) : M AuthStore unit := λ s,
  if bool_decide (is_Some (users s !! id)) || userClashes id u (users s)
  then (s, Throw PrismaP2002)
  else (s <| users ::= <[id := u]> |>, Ok tt).

(** [user.update({ where: { id }, data })] *)
Definition updateUser (id : string) (f : User → User) : M AuthStore unit := λ s,
  match users s !! id with
  | None => (s, Throw PrismaP2025)
  | Some u =>
      if userClashes id (f u) (users s) then (s, Throw PrismaP2002)
      else (s <| users ::= <[id := f u]> |>, Ok tt)
  end.

(** [invitation.update({ where: { id }, data })] *)
Definition updateInvitation (id : string) (f : Invitation → Invitation) : M AuthStore unit := λ s,
  match invitations s !! id with
  | None => (s, Throw PrismaP2025)
  | Some i => (s <| invitations ::= <[id := f i]> |>, Ok tt)
  end.

Definition newUser (e hash first last : string) (ph : option string) (r : UserRole) (cid : string)
    : User :=
  {| email := e; passwordHash := hash; firstName := first; lastName := last; phone := ph;
     role := r; companyId := cid; isActive := true; totpSecret := None; totpEnabled := false;
     legacyRefreshTokenHash := None; resetTokenId := None; resetTokenHash := None;
     resetTokenExpiry := None; googleId := None; deletedAt := None |}.

(** [userSession.create({ data: { userId, device, ip, expiresAt } })] *)
Definition createUserSession (env : AuthEnv) (userId : string) (device ip : option string) :
    M AuthStore string := λ s,
  let id := newId env "user_sessions" in
  match userSessions s !! id with
  | Some _ => (s, Throw PrismaP2002)
  | None =>
      (s <| userSessions ::= <[id := mkUserSession userId device ip (now env) (now env)
              (now env + refreshExpirationSeconds env * 1000) None None]> |>, Ok id)
  end.

(** The company of a user is deleted ([user.company?.deletedAt]). *)
Definition companyGone (cid : string) (s : AuthStore) : bool :=
  match companies s !! cid with Some c => bool_decide (is_Some (co_deletedAt c)) | None => false end.
