(* ===== verification/Auth.v ===== *)
(** * modules/auth: AuthService (auth.service.ts)

    Registration and trial, password login with its lockout, the second
    factor, refresh tokens bound to sessions, logout, password reset, Google
    sign-in and the device token of the tracking worker. *)

From S2P Require Import Prelude JsString Redis AuthModel.

#[local] Open Scope string_scope.
#[local] Open Scope list_scope.
#[local] Open Scope Z_scope.

Record TokenUser := mkTokenUser {
  tu_id : string; tu_email : string; tu_firstName : string; tu_lastName : string;
  tu_role : UserRole; tu_companyId : string
}.
Record TokenResponse := mkTokenResponse {
  accessToken : string;
  refreshToken : string;
  tr_user : TokenUser;
  requiresTwoFactor : option bool;
  tempToken : option string
}.

Record RegisterDto := mkRegisterDto {
  rd_companyName : string; rd_email : string; rd_password : string;
  rd_firstName : string; rd_lastName : string; rd_phone : option string
}.
Record LoginDto := mkLoginDto { ld_email : string; ld_password : string }.
Record Verify2faDto := mkVerify2faDto { vd_tempToken : string; vd_token : string }.
Record GoogleProfile := mkGoogleProfile {
  gp_googleId : string; gp_email : string; gp_firstName : string; gp_lastName : string
}.

Definition tokenUser (id : string) (u : User) : TokenUser :=
  mkTokenUser id (email u) (firstName u) (lastName u) (role u) (companyId u).

Definition normalizeEmail (e : string) : string := trim (toLowerCase e).

Definition loginFailWindowSeconds : Z := 15 * 60.
Definition loginFailMaxAttempts : Z := 15.
Definition twoFaFailMaxAttempts : Z := 8.

Section AuthService.
Context `{AuthLib} (env : AuthEnv).

(** ** Lockout *)

Definition loginFailKey (e : string) : string :=
  "login_fail:" +:+ sliceTo 32 (sha256hex (normalizeEmail e)).
Definition twoFaFailKey (id : string) : string := "2fa_fail:" +:+ id.

(** A counter has reached its maximum; without a reachable Redis it never has. *)
Definition lockedOut (key : string) (max : Z) (s : AuthStore) : bool :=
  match redisLink env with
  | RedisUp => match redis_get (now env) key (redisDb s) with
               | Some v => negb (bool_decide (v = EmptyString)) && (max <=? digitsValue v)
               | None => false
               end
  | _ => false
  end.

Definition recordFailure (key : string) : M AuthStore unit :=
  redisBestEffort env (λ db,
    let '(db', count) := redis_incr (now env) key db in
    if count =? 1 then redis_expire (now env) key loginFailWindowSeconds db' else db').
Definition clearFailures (key : string) : M AuthStore unit := redisBestEffort env (redis_del key).

Definition checkLoginLockout (e : string) : M AuthStore unit :=
  locked ← gets (lockedOut (loginFailKey e) loginFailMaxAttempts);
  ensure (negb locked)
    (UnauthorizedException "Too many failed login attempts. Please try again later.").
Definition recordLoginFailure (e : string) : M AuthStore unit := recordFailure (loginFailKey e).
Definition clearLoginFailures (e : string) : M AuthStore unit := clearFailures (loginFailKey e).

Definition check2faLockout (id : string) : M AuthStore unit :=
  locked ← gets (lockedOut (twoFaFailKey id) twoFaFailMaxAttempts);
  ensure (negb locked) (UnauthorizedException "Too many invalid 2FA codes. Please try again later.").
Definition record2faFailure (id : string) : M AuthStore unit := recordFailure (twoFaFailKey id).
Definition clear2faFailures (id : string) : M AuthStore unit := clearFailures (twoFaFailKey id).

(** ** Tokens *)

Definition sessionPayload (id : string) (e r cid first last : string) (scope : option string)
    (sid : string) : JwtPayload :=
  {| sub := id; jp_email := e; jp_role := r; jp_companyId := Some cid; jp_firstName := first;
     jp_lastName := last; jp_type := None; jp_scope := scope; jp_impersonatedBy := None;
     jp_sessionId := Some sid; jti := None; iat := Some (now env / 1000) |}.

(** The UPDATE of [generateTokens]: the number of rows it touched. *)
Definition rotateRefreshToken (sid userId hash : string) : M AuthStore bool := λ s,
  match userSessions s !! sid with
  | Some x =>
      if bool_decide (us_userId x = userId) then
        (s <| userSessions ::= <[sid :=
           x <| us_previousRefreshTokenHash := us_refreshTokenHash x |>
             <| us_refreshTokenHash := Some hash |>
             <| us_lastActivity := now env |>
             <| us_expiresAt := Z.max (us_expiresAt x)
                                  (now env + refreshExpirationSeconds env * 1000) |>]> |>, Ok true)
      else (s, Ok false)
  | None => (s, Ok false)
  end.

Definition generateTokens (userId e : string) (r : UserRole) (cid : string)
    (sessionId : option string) (ip device : option string) : M AuthStore TokenResponse :=
  record ← gets (λ s, users s !! userId);
  match record with
  | None => throw (UnauthorizedException "User not found")
  | Some u =>
      sid ← (if truthy sessionId then mret (default EmptyString sessionId)
             else createUserSession env userId device ip);
      let payload := sessionPayload userId e (role_string r) cid (firstName u) (lastName u) None sid in
      let access := jwtSign (JWT_ACCESS_SECRET env) (accessExpiration env) (now env) payload in
      let refresh := jwtSign (JWT_REFRESH_SECRET env) (refreshExpiration env) (now env) payload in
      rotated ← rotateRefreshToken sid userId (bcryptHash (salt env) refresh);
      ensure rotated (UnauthorizedException "Invalid refresh token") ;;
      mret (mkTokenResponse access refresh (tokenUser userId u) None None)
  end.

(** ** register *)

Definition trialDays : Z := 14 * 24 * 60 * 60 * 1000.

(** [tx.subscription.create] of the trial. *)
Definition startTrial (cid : string) (plan : option string) : M AuthStore unit :=
  match plan with
  | Some p => modify (λ s, s <| trials ::=
      <[newId env "subscriptions" := mkTrial cid p (now env) (now env + trialDays)]> |>)
  | None => mret tt
  end.

Definition createCompany (name : string) (e : option string) : M AuthStore string :=
  let cid := newId env "companies" in
  taken ← gets (λ s, bool_decide (is_Some (companies s !! cid)));
  ensure (negb taken) PrismaP2002 ;;
  modify (λ s, s <| companies ::= <[cid := mkCompany name e None]> |>) ;; mret cid.

Definition register (dto : RegisterDto) (ip device : option string) : M AuthStore TokenResponse :=
  let e := normalizeEmail (rd_email dto) in
  existing ← gets (userByEmail e);
  match existing with
  | Some _ => throw (ConflictException "An account with this email already exists")
  | None =>
      plan ← gets enterprisePlan;
      let hash := bcryptHash (salt env) (rd_password dto) in
      let uid := newId env "users" in
      cid ← transaction (
        cid ← createCompany (rd_companyName dto) None;
        createUser uid (newUser e hash (rd_firstName dto) (rd_lastName dto) (rd_phone dto) admin cid) ;;
        startTrial cid plan ;;
        mret cid);
      sendAuthMail (Welcome e (rd_firstName dto)) ;;
      generateTokens uid e admin cid None ip device
  end.

(** ** login *)

Definition DUMMY_HASH : string := bcryptHash (salt env) "dummy-timing-attack-mitigation".

Definition tempPayload (id : string) : JwtPayload :=
  {| sub := id; jp_email := EmptyString; jp_role := EmptyString; jp_companyId := None;
     jp_firstName := EmptyString; jp_lastName := EmptyString; jp_type := None;
     jp_scope := Some "2fa_pending"; jp_impersonatedBy := None; jp_sessionId := None;
     jti := Some (randomUUID env); iat := Some (now env / 1000) |}.

Definition login (dto : LoginDto) (ip device : option string) : M AuthStore TokenResponse :=
  let e := normalizeEmail (ld_email dto) in
  checkLoginLockout e ;;
  found ← gets (λ s, find_first (λ _ u, bool_decide (email u = e ∧ deletedAt u = None)) (users s));
  match found with
  | None => recordLoginFailure e ;; throw (UnauthorizedException "Invalid credentials")
  | Some (id, u) =>
      let hash := if truthy (Some (passwordHash u)) then passwordHash u else DUMMY_HASH in
      if negb (isActive u) || negb (bcryptCompare (ld_password dto) hash)
      then recordLoginFailure e ;; throw (UnauthorizedException "Invalid credentials")
      else
        clearLoginFailures e ;;
        if totpEnabled u then
          mret (mkTokenResponse EmptyString EmptyString (tokenUser id u) (Some true)
            (Some (jwtSign (tempSecret env) tempTokenExpiration (now env) (tempPayload id))))
        else
          sid ← createUserSession env id device ip;
          generateTokens id (email u) (role u) (companyId u) (Some sid) None None
  end.

(** ** Second factor *)

Definition usedKey (j : string) : string := "2fa:temp:used:" +:+ j.

(** [SET 2fa:temp:used:<jti> 1 EX 360 NX]: whether the step is fresh. *)
Definition consumeTempToken (j : option string) : M AuthStore bool :=
  match j, redisLink env with
  | Some x, RedisUp =>
      if truthy j then
        λ s, let '(db, ok) := redis_setnx (now env) (usedKey x) "1" 360 (redisDb s) in
             (s <| redisDb := db |>, Ok ok)
      else mret true
  | _, _ => mret true
  end.

Definition verify2faToken (dto : Verify2faDto) (ip device : option string) : M AuthStore TokenResponse :=
  match jwtVerify (tempSecret env) (now env) (vd_tempToken dto) with
  | None => throw (UnauthorizedException "Invalid or expired temporary token")
  | Some p =>
      ensure (bool_decide (jp_scope p = Some "2fa_pending"))
        (UnauthorizedException "Invalid token scope") ;;
      found ← gets (λ s, users s !! sub p);
      match found with
      | None => throw (UnauthorizedException "User not found or 2FA not enabled")
      | Some u =>
          ensure (isActive u && totpEnabled u && truthy (totpSecret u))
            (UnauthorizedException "User not found or 2FA not enabled") ;;
          check2faLockout (sub p) ;;
          if negb (totpVerify (default EmptyString (totpSecret u)) (now env) (vd_token dto)) then
            record2faFailure (sub p) ;; throw (UnauthorizedException "Invalid 2FA code")
          else
            fresh ← consumeTempToken (jti p);
            ensure fresh (UnauthorizedException
              "This verification step has already been completed. Please log in again.") ;;
            clear2faFailures (sub p) ;;
            sid ← createUserSession env (sub p) device ip;
            generateTokens (sub p) (email u) (role u) (companyId u) (Some sid) None None
      end
  end.

(** ** refresh *)

Definition invalidRefresh : exn := UnauthorizedException "Invalid refresh token".

Definition matchesHash (token : string) (h : option string) : bool :=
  match h with Some x => truthy h && bcryptCompare token x | None => false end.

(** The transaction of [refresh]: the user of the session the token belongs to. *)
Definition validateRefresh (token sid : string) : M AuthStore (string * User) :=
  transaction (
    found ← gets (λ s, userSessions s !! sid);
    match found with
    | None => throw invalidRefresh
    | Some x =>
        owner ← gets (λ s, users s !! us_userId x);
        match owner with
        | None => throw invalidRefresh
        | Some u =>
            ensure (isActive u) invalidRefresh ;;
            ensure (truthy (us_refreshTokenHash x)) invalidRefresh ;;
            ensure (negb (us_expiresAt x <? now env)) invalidRefresh ;;
            if negb (matchesHash token (us_refreshTokenHash x))
               && negb (matchesHash token (us_previousRefreshTokenHash x)) then
              modify (λ s, s <| userSessions ::= <[sid :=
                x <| us_refreshTokenHash := None |> <| us_previousRefreshTokenHash := None |>]> |>) ;;
              modify (λ s, s <| userSessions ::= delete sid |>) ;;
              throw (UnauthorizedException "Refresh token reuse detected — session revoked")
            else mret (us_userId x, u)
        end
    end).

Definition refresh (token : string) : M AuthStore TokenResponse :=
  match jwtVerify (JWT_REFRESH_SECRET env) (now env) token with
  | None => throw invalidRefresh
  | Some p =>
      match jp_sessionId p with
      | None => throw invalidRefresh
      | Some sid =>
          ensure (truthy (jp_sessionId p)) invalidRefresh ;;
          found ← validateRefresh token sid;
          generateTokens found.1 (email found.2) (role found.2) (companyId found.2) (Some sid) None None
      end
  end.

(** ** logout *)

Definition deleteSessions (P : string → UserSession → bool) : M AuthStore unit :=
  modify (λ s, s <| userSessions ::= update_many P (λ x, x <| us_refreshTokenHash := None |>) |>) ;;
  modify (λ s, s <| userSessions ::= delete_many P |>).

Definition logout (userId : string) (sessionId : option string) : M AuthStore unit :=
  if truthy sessionId then
    deleteSessions (λ k x, bool_decide (Some k = sessionId ∧ us_userId x = userId))
  else updateUser userId (λ u, u <| legacyRefreshTokenHash := None |>).

(** ** Password reset *)

Definition resetWindow : Z := 30 * 60 * 1000.

Definition forgotPassword (e : string) : M AuthStore unit :=
  let e := normalizeEmail e in
  found ← gets (userByEmail e);
  match found with
  | None => mret tt
  | Some (id, _) =>
      updateUser id (λ u, u <| resetTokenId := Some (randomUUID env) |>
        <| resetTokenHash := Some (bcryptHash (salt env) (randomHex env)) |>
        <| resetTokenExpiry := Some (now env + resetWindow) |>) ;;
      sendAuthMail (PasswordReset e (randomUUID env +:+ ":" +:+ randomHex env))
  end.

Definition invalidReset : exn := BadRequestException "The reset link is invalid or has expired.".

(** [indexOf(':')] and the two slices around it. *)
Fixpoint splitColon (s : string) : option (string * string) :=
  match s with
  | EmptyString => None
  | String c s' =>
      if bool_decide (c = ":"%char) then Some (EmptyString, s')
      else match splitColon s' with Some (a, b) => Some (String c a, b) | None => None end
  end.

Definition resetPassword (combinedToken newPassword : string) : M AuthStore unit :=
  match splitColon combinedToken with
  | None => throw invalidReset
  | Some (tokenId, rawSecret) =>
      found ← gets (userByResetTokenId tokenId);
      match found with
      | None => throw invalidReset
      | Some (id, u) =>
          match resetTokenHash u, resetTokenExpiry u with
          | Some h, Some expiry =>
              ensure (truthy (Some h)) invalidReset ;;
              ensure (negb (expiry <? now env)) invalidReset ;;
              ensure (bcryptCompare rawSecret h) invalidReset ;;
              updateUser id (λ u, u <| passwordHash := bcryptHash (salt env) newPassword |>
                <| resetTokenId := None |> <| resetTokenHash := None |>
                <| resetTokenExpiry := None |> <| legacyRefreshTokenHash := None |>) ;;
              deleteSessions (λ _ x, bool_decide (us_userId x = id)) ;;
              revokeUserAccessTokens env id (accessTokenTtlSeconds (JWT_ACCESS_EXPIRATION env))
          | _, _ => throw invalidReset
          end
      end
  end.

(** ** Google sign-in *)

Definition googleSession (id : string) (u : User) (ip device : option string) :
    M AuthStore TokenResponse :=
  generateTokens id (email u) (role u) (companyId u) None ip device.

Definition refuseInactiveOrTotp (u : User) : M AuthStore unit :=
  ensure (isActive u) (UnauthorizedException "Account deactivated") ;;
  ensure (negb (totpEnabled u)) (UnauthorizedException "Two-factor authentication required").

Definition pendingInvitationFor (e : string) (s : AuthStore) : option (string * Invitation) :=
  find_first (λ _ i, bool_decide (in_email i = e ∧ in_status i = inv_pending ∧ now env ≤ in_expiresAt i))
    (invitations s).

(** The transaction that creates the account. *)
Definition createGoogleUser (g : GoogleProfile) (e hash : string)
    (invitation : option (string * Invitation)) (plan : option string) : M AuthStore (string * User) :=
  transaction (
    place ← (match invitation with
             | Some (_, i) => mret (in_companyId i, in_role i)
             | None =>
                 cid ← createCompany (gp_firstName g +:+ " " +:+ gp_lastName g) (Some e);
                 startTrial cid plan ;;
                 mret (cid, admin)
             end);
    let uid := newId env "users" in
    let u := (newUser e hash (gp_firstName g) (gp_lastName g) None place.2 place.1)
               <| googleId := Some (gp_googleId g) |> in
    createUser uid u ;;
    match invitation with
    | Some (iid, _) =>
        updateInvitation iid (λ i,
          i <| in_status := inv_accepted |> <| in_acceptedAt := Some (now env) |>)
    | None => mret tt
    end ;;
    mret (uid, u)).

Definition validateGoogleUser (g : GoogleProfile) (ip device : option string) :
    M AuthStore TokenResponse :=
  let e := normalizeEmail (gp_email g) in
  byId ← gets (userByGoogleId (gp_googleId g));
  match byId with
  | Some (id, u) => refuseInactiveOrTotp u ;; googleSession id u ip device
  | None =>
      byEmail ← gets (userByEmail e);
      match byEmail with
      | Some (id, u) =>
          refuseInactiveOrTotp u ;;
          updateUser id (λ u, u <| googleId := Some (gp_googleId g) |>) ;;
          googleSession id u ip device
      | None =>
          invitation ← gets (pendingInvitationFor e);
          plan ← gets (λ s, match invitation with Some _ => None | None => enterprisePlan s end);
          created ← createGoogleUser g e (bcryptHash (salt env) (randomHex env)) invitation plan;
          googleSession created.1 created.2 ip device
      end
  end.

Definition createSessionForUser (userId : string) (ip device : option string) :
    M AuthStore TokenResponse :=
  found ← gets (λ s, users s !! userId);
  match found with
  | None => throw (UnauthorizedException "User not found")
  | Some u => refuseInactiveOrTotp u ;; googleSession userId u ip device
  end.

(** ** Device token *)

Definition issueDeviceTrackingToken (userId : string) (sessionId : option string) :
    M AuthStore (string * Z) :=
  ensure (truthy sessionId)
    (UnauthorizedException "Cannot issue device tracking token without a session") ;;
  found ← gets (λ s, users s !! userId);
  match found with
  | None => throw (UnauthorizedException "User not found or inactive")
  | Some u =>
      ensure (isActive u) (UnauthorizedException "User not found or inactive") ;;
      let payload := sessionPayload userId (email u) (role_string (role u)) (companyId u)
        (firstName u) (lastName u) (Some "device_tracking") (default EmptyString sessionId) in
      let token := jwtSign (JWT_ACCESS_SECRET env) (deviceTokenExpiration env) (now env) payload in
      mret (token, match jwtExp token with
                   | Some t => if t =? 0 then now env + parseExpirationSeconds (deviceTokenExpiration env) * 1000
                               else t * 1000
                   | None => now env + parseExpirationSeconds (deviceTokenExpiration env) * 1000
                   end)
  end.
End AuthService.
