(* ===== verification/AuthExample.v ===== *)
(** * A concrete library of cryptographic functions

    Functions that satisfy the laws the theorems on authentication rely on,
    for their witnesses: a hash that, like bcrypt, reads 72 characters, and
    tokens that encode their claims after a fixed header. *)

From S2P Require Import Prelude JsString Redis AuthModel Auth.

#[local] Open Scope string_scope.
#[local] Open Scope list_scope.
#[local] Open Scope Z_scope.

(** ** Claims as bits *)

Fixpoint bits_of_pos (p : positive) : string :=
  match p with
  | xH => EmptyString
  | xO q => String "0"%char (bits_of_pos q)
  | xI q => String "1"%char (bits_of_pos q)
  end.
Fixpoint pos_of_bits (s : string) : positive :=
  match s with
  | EmptyString => xH
  | String c s' => if bool_decide (c = "0"%char) then xO (pos_of_bits s') else xI (pos_of_bits s')
  end.

Lemma pos_of_bits_of_pos p : pos_of_bits (bits_of_pos p) = p.
Proof. induction p; simpl; congruence. Qed.

Definition payload_tuple (p : JwtPayload) :=
  (sub p, jp_email p, jp_role p, jp_companyId p, (jp_firstName p, jp_lastName p, jp_type p, jp_scope p),
   (jp_impersonatedBy p, jp_sessionId p, jti p, iat p)).
#[export] Instance JwtPayload_eq_dec : EqDecision JwtPayload.
Proof. solve_decision. Defined.
#[export] Instance JwtPayload_countable : Countable JwtPayload.
Proof.
  refine (inj_countable' payload_tuple
    (λ '(a, b, c, d, (e, f, g, h), (i, j, k, l)), mkJwtPayload a b c d e f g h i j k l) _).
  by intros [].
Defined.

(** ** The library *)

(** 72 characters, like the header and the first claim of a token. *)
Definition tokenHeader : string :=
  "eyJhbGciOiJIUzI1NiIsInR5cCI6IkpXVCJ9.eyJzdWIiOiI3ZmE5YzFkMC0xYjJjLTRkM2Y".

Definition exampleSign (k d : string) (t0 : Z) (p : JwtPayload) : string :=
  String.append tokenHeader (bits_of_pos (encode (k, d, t0, p))).
Definition exampleDecode (tok : string) : option (string * string * Z * JwtPayload) :=
  decode (pos_of_bits (sliceFrom 72 tok)).
Definition exampleVerify (k : string) (t : Z) (tok : string) : option JwtPayload :=
  match exampleDecode tok with
  | Some (k', d, t0, p) =>
      if bool_decide (k = k') && (t <? t0 + parseExpirationSeconds d * 1000) then Some p else None
  | None => None
  end.

Definition exampleLib : AuthLib :=
  {| jwtSign := exampleSign;
     jwtVerify := exampleVerify;
     jwtExp tok := match exampleDecode tok with
                   | Some (_, d, t0, _) => Some (t0 / 1000 + parseExpirationSeconds d)
                   | None => None
                   end;
     bcryptHash slt p := "h:" +:+ sliceTo 72 p;
     bcryptCompare p h := bool_decide (h = "h:" +:+ sliceTo 72 p);
     sha256hex s := "sha256:" +:+ s;
     sha256base64url s := "b64:" +:+ s;
     hmacHex k s := k +:+ s;
     totpVerify secret t tok := bool_decide (tok = "123456") |}.

(** A server at [t] milliseconds that names new rows [n]. *)
Definition exampleAuthEnv (n : string) (t : Z) : AuthEnv :=
  {| now := t; redisLink := RedisUp; JWT_ACCESS_SECRET := "access"; JWT_REFRESH_SECRET := "refresh";
     JWT_2FA_TEMP_SECRET := Some "temp"; JWT_ACCESS_EXPIRATION := None;
     JWT_REFRESH_EXPIRATION := None; JWT_DEVICE_TOKEN_EXPIRATION := None;
     APP_URL := Some "https://app.example"; newId table := table +:+ "/" +:+ n;
     randomUUID := "uuid-" +:+ n; randomHex := "hex-" +:+ n; salt := "s"; instanceId := "api-1" |}.

(** One company with a user whose password is "right". *)
Definition exampleUser (totp : bool) : User :=
  (newUser "a@x.mg" "h:right" "Ana" "Rabe" None admin "c1")
    <| totpEnabled := totp |> <| totpSecret := Some "JBSWY3DP" |>.
Definition exampleAuthStore (totp : bool) : AuthStore :=
  mkAuthStore {[ "u1" := exampleUser totp ]} ∅ {[ "c1" := mkCompany "Rapid" None None ]}
    ∅ ∅ ∅ ∅ (Some "plan-enterprise") ∅ ∅ [].

(** ** The laws *)

Lemma sliceFrom_append s t : sliceFrom (String.length s) (String.append s t) = t.
Proof. induction s as [|c s IH]; [by destruct t|exact IH]. Qed.

Lemma exampleDecode_sign k d t0 p : exampleDecode (exampleSign k d t0 p) = Some (k, d, t0, p).
Proof.
  unfold exampleDecode, exampleSign. change 72%nat with (String.length tokenHeader).
  rewrite sliceFrom_append, pos_of_bits_of_pos. apply decode_encode.
Qed.

Lemma append_inj_l a s t : String.append a s = String.append a t → s = t.
Proof. induction a as [|c a IH]; [done|]. intros E. injection E as E. by apply IH. Qed.
