(* ===== verification/AuthProps.v ===== *)
(** * modules/auth: correctness

    The lockout after failed logins, refresh tokens and the rotation of their
    hashes, what a password reset revokes, and who can obtain a session. *)

From S2P Require Import Prelude JsString Redis AuthModel Auth AuthExample.

#[local] Open Scope string_scope.
#[local] Open Scope list_scope.
#[local] Open Scope Z_scope.

(** ** What is relied on of bcrypt and jsonwebtoken *)

(** bcrypt only reads the first 72 bytes of its input. *)
Class BcryptLaws `{AuthLib} : Prop :=
  bcrypt_compare p q slt :
    bcryptCompare p (bcryptHash slt q) = bool_decide (sliceTo 72 p = sliceTo 72 q).

(** A token verifies under its own secret until it expires, then no more. *)
Class JwtLaws `{AuthLib} : Prop :=
  jwt_verify_sign k d v u t0 t p :
    durationParts d = Some (v, u) → t0 ≤ t →
    jwtVerify k t (jwtSign k d t0 p) = if t <? t0 + v * u * 1000 then Some p else None.

#[export] Instance exampleLib_bcrypt : @BcryptLaws exampleLib.
Proof.
  intros p q slt. apply bool_decide_ext. simpl. split; [|by intros ->].
  intros E. symmetry. by apply (append_inj_l "h:").
Qed.

#[export] Instance exampleLib_jwt : @JwtLaws exampleLib.
Proof.
  intros k d v u t0 t p Hd Ht. simpl. unfold exampleVerify. rewrite exampleDecode_sign.
  rewrite bool_decide_eq_true_2 by done. unfold parseExpirationSeconds. by rewrite Hd.
Qed.

(** ** Lockout *)

Section Lockout.
Context `{AuthLib}.

Definition window : Z := loginFailWindowSeconds * 1000.

(** [n] failures counted since [t0]. *)
Definition failures (key : string) (n t0 : Z) (s : AuthStore) : Prop :=
  redisDb s !! key = Some (mkEntry (pretty (Z.to_N n)) (Some (t0 + window))).

Lemma pretty_nonempty (n : N) : bool_decide ((pretty n : string) = EmptyString) = false.
Proof. apply bool_decide_eq_false_2, pretty_not_empty. Qed.

Lemma failures_get key n t0 t s :
  failures key n t0 s → redis_get t key (redisDb s) =
    if t <? t0 + window then Some (pretty (Z.to_N n)) else None.
Proof. intros E. unfold redis_get. by rewrite E. Qed.

Lemma lockedOut_failures env key max n t0 s :
  redisLink env = RedisUp → 0 ≤ n → failures key n t0 s →
  lockedOut env key max s = (now env <? t0 + window) && (max <=? n).
Proof.
  intros HR Hn HF. unfold lockedOut. rewrite HR, (failures_get _ _ _ _ _ HF).
  destruct (now env <? t0 + window); [|done]. rewrite pretty_nonempty, digits_pretty.
  simpl. by rewrite Z2N.id.
Qed.

Definition bump (env : AuthEnv) (key : string) (db : RedisDb) : RedisDb :=
  let '(db', count) := redis_incr (now env) key db in
  if count =? 1 then redis_expire (now env) key loginFailWindowSeconds db' else db'.

Lemma recordFailure_run env key s :
  redisLink env = RedisUp →
  recordFailure env key s = (s <| redisDb := bump env key (redisDb s) |>, Ok tt).
Proof. intros HR. unfold recordFailure, redisBestEffort. rewrite HR. by destruct s. Qed.

Lemma bump_first env key db :
  redis_get (now env) key db = None →
  bump env key db !! key = Some (mkEntry (pretty (Z.to_N 1)) (Some (now env + window))).
Proof.
  intros HN. unfold bump, redis_incr. rewrite HN. cbn [counterValue]. change (0 + 1) with 1.
  cbn [Z.eqb Pos.eqb]. unfold redis_expire. rewrite lookup_insert_eq.
  assert (live (now env) (mkEntry (pretty (Z.to_N 1)) (match db !! key with
    | Some e => if live (now env) e then e_expires e else None | None => None end)) = true) as ->.
  { unfold live at 1. cbn [e_expires]. destruct (db !! key) as [e|]; [|done].
    destruct (live (now env) e) eqn:EL; [|done]. exact EL. }
  by rewrite lookup_insert_eq.
Qed.

Lemma recordFailure_first env key s :
  redisLink env = RedisUp → redis_get (now env) key (redisDb s) = None →
  ∃ s', recordFailure env key s = (s', Ok tt) ∧ failures key 1 (now env) s' ∧
    s' = s <| redisDb := redisDb s' |>.
Proof.
  intros HR HN. rewrite recordFailure_run by done. eexists. split; [reflexivity|].
  unfold failures. destruct s. split; [by apply bump_first|done].
Qed.

Lemma recordFailure_next env key n t0 s :
  redisLink env = RedisUp → 1 ≤ n → failures key n t0 s → now env < t0 + window →
  ∃ s', recordFailure env key s = (s', Ok tt) ∧ failures key (n + 1) t0 s' ∧
    s' = s <| redisDb := redisDb s' |>.
Proof.
  intros HR Hn HF Ht. rewrite recordFailure_run by done. eexists. split; [reflexivity|].
  split; [|by destruct s]. pose proof (failures_get _ _ _ (now env) _ HF) as HG.
  rewrite (proj2 (Z.ltb_lt _ _)) in HG by done. unfold failures in *.
  destruct s as [????????? db ?]. unfold set. simpl in *. unfold bump, redis_incr. rewrite HG, HF.
  cbn [counterValue]. rewrite counter_pretty by lia. rewrite (proj2 (Z.eqb_neq _ _)) by lia.
  unfold live. cbn [e_expires]. rewrite (proj2 (Z.ltb_lt _ _)) by done.
  by rewrite lookup_insert_eq.
Qed.

(** The credentials do not open the account. *)
Definition wrongCredentials (env : AuthEnv) (dto : LoginDto) (s : AuthStore) : Prop :=
  match find_first (λ _ u, bool_decide (email u = normalizeEmail (ld_email dto) ∧ deletedAt u = None))
          (users s) with
  | None => True
  | Some (_, u) =>
      isActive u = false ∨
      bcryptCompare (ld_password dto)
        (if truthy (Some (passwordHash u)) then passwordHash u else DUMMY_HASH env) = false
  end.

Definition tooMany : exn :=
  UnauthorizedException "Too many failed login attempts. Please try again later.".

Lemma login_locked env dto ip dev s :
  lockedOut env (loginFailKey (normalizeEmail (ld_email dto))) loginFailMaxAttempts s = true →
  login env dto ip dev s = (s, Throw tooMany).
Proof.
  intros HL. unfold login, checkLoginLockout. rewrite bind_run, bind_run. unfold gets at 1.
  by rewrite HL.
Qed.

Lemma login_wrong env dto ip dev s :
  wrongCredentials env dto s →
  lockedOut env (loginFailKey (normalizeEmail (ld_email dto))) loginFailMaxAttempts s = false →
  (login env dto ip dev s).1 = (recordFailure env (loginFailKey (normalizeEmail (ld_email dto))) s).1.
Proof.
  intros HW HL. unfold login, checkLoginLockout. rewrite bind_run, bind_run. unfold gets at 1.
  rewrite HL. cbn [negb]. unfold ensure at 1. unfold mret at 1, M_ret at 1.
  rewrite bind_run. unfold gets at 1. unfold wrongCredentials in HW.
  set (k := loginFailKey _).
  assert (HF : ∀ (m : M AuthStore TokenResponse),
    ((recordLoginFailure env (normalizeEmail (ld_email dto)) ;; throw (UnauthorizedException "Invalid credentials") :
       M AuthStore TokenResponse) s).1 = (recordFailure env k s).1).
  { intros _. rewrite bind_run. unfold recordLoginFailure. fold k.
    by destruct (recordFailure env k s) as [s' [[]|e]]. }
  destruct (find_first _ _) as [[id u]|]; [|apply HF, (throw PrismaP2025)].
  assert (negb (isActive u) || negb (bcryptCompare (ld_password dto)
     (if truthy (Some (passwordHash u)) then passwordHash u else DUMMY_HASH env)) = true) as ->.
  { destruct HW as [->| ->]; [done|]. apply orb_true_r. }
  apply HF, (throw PrismaP2025).
Qed.

Fixpoint runLogins (atts : list (AuthEnv * LoginDto)) (s : AuthStore) : AuthStore :=
  match atts with
  | [] => s
  | (env, dto) :: atts' => runLogins atts' (run_state (login env dto None None) s)
  end.

(** A wrong attempt on account [e] in the window that starts at [t0]. *)
Definition wrongAttempt (e : string) (t0 : Z) (s : AuthStore) (a : AuthEnv * LoginDto) : Prop :=
  redisLink a.1 = RedisUp ∧ normalizeEmail (ld_email a.2) = e ∧
  t0 ≤ now a.1 < t0 + window ∧ wrongCredentials a.1 a.2 s.

Lemma runLogins_counts atts e t0 n : ∀ s,
  1 ≤ n → failures (loginFailKey e) n t0 s →
  Forall (wrongAttempt e t0 s) atts →
  ∃ m, failures (loginFailKey e) m t0 (runLogins atts s) ∧
    m = (if loginFailMaxAttempts <=? n then n
         else Z.min loginFailMaxAttempts (n + Z.of_nat (length atts))).
Proof.
  revert n. induction atts as [|[env dto] atts IH]; intros n s Hn HF HA; cbn [runLogins].
  { exists n. split; [done|]. unfold loginFailMaxAttempts. simpl. destruct (Z.leb_spec 15 n); lia. }
  apply Forall_cons in HA as [(HR & HE & HT & HW) HA]. cbn [fst snd] in *.
  pose proof (lockedOut_failures env (loginFailKey e) loginFailMaxAttempts n t0 s HR
    ltac:(lia) HF) as HL. rewrite (proj2 (Z.ltb_lt _ _)) in HL by lia. cbn [andb] in HL.
  unfold run_state. rewrite <- HE in *. destruct (loginFailMaxAttempts <=? n) eqn:EM.
  - rewrite login_locked by done. cbn [fst]. destruct (IH n s Hn HF HA) as (m & Hm & Em).
    rewrite EM in Em. by exists m.
  - rewrite login_wrong by done.
    destruct (recordFailure_next env _ n t0 s HR Hn HF ltac:(lia)) as (s' & Hr & HF' & Hs').
    rewrite Hr. cbn [fst]. destruct (IH (n + 1) s' ltac:(lia) HF') as (m & Hm & Em).
    { rewrite Hs'. eapply Forall_impl; [exact HA|]. intros a Ha. by destruct s. }
    exists m. split; [done|]. rewrite Em. apply Z.leb_gt in EM. unfold loginFailMaxAttempts in *.
    cbn [length]. destruct (Z.leb_spec 15 (n + 1)); lia.
Qed.

(** C10: fifteen wrong passwords within a quarter of an hour lock the account:
    until the window that began with the first one ends, every login on it is
    refused before the password is looked at and changes nothing; with fewer
    the lockout does not trigger, and when the window ends it is lifted. *)
Theorem login_lockout env0 dto0 atts e s :
  redisLink env0 = RedisUp → normalizeEmail (ld_email dto0) = e → wrongCredentials env0 dto0 s →
  redis_get (now env0) (loginFailKey e) (redisDb s) = None →
  Forall (wrongAttempt e (now env0) s) atts →
  let s' := runLogins ((env0, dto0) :: atts) s in
  ∀ env dto ip dev, redisLink env = RedisUp → normalizeEmail (ld_email dto) = e →
    (now env < now env0 + window → 15 ≤ 1 + Z.of_nat (length atts) →
       login env dto ip dev s' = (s', Throw tooMany)) ∧
    (now env0 + window ≤ now env ∨ 1 + Z.of_nat (length atts) < 15 →
       checkLoginLockout env e s' = (s', Ok tt)).
Proof.
  intros HR HE HW HN HA s' env dto ip dev HR' HE'. subst s'. cbn [runLogins]. unfold run_state.
  assert (HL0 : lockedOut env0 (loginFailKey e) loginFailMaxAttempts s = false)
    by (unfold lockedOut; by rewrite HR, HN).
  rewrite <- HE in *. rewrite login_wrong by done.
  destruct (recordFailure_first env0 _ s HR HN) as (s1 & Hr & HF & Hs1). rewrite Hr. cbn [fst].
  destruct (runLogins_counts atts (normalizeEmail (ld_email dto0)) (now env0) 1 s1) as (m & Hm & Em);
    [lia|done| |].
  { rewrite Hs1. eapply Forall_impl; [exact HA|]. intros a Ha. by destruct s. }
  unfold loginFailMaxAttempts in Em. simpl in Em.
  pose proof (lockedOut_failures env _ loginFailMaxAttempts m (now env0) _ HR' ltac:(lia) Hm) as HL.
  unfold loginFailMaxAttempts in HL. split.
  - intros Ht Hk. apply login_locked. rewrite HE'. unfold loginFailMaxAttempts. rewrite HL.
    rewrite (proj2 (Z.ltb_lt _ _)) by lia. rewrite (proj2 (Z.leb_le _ _)) by lia. done.
  - intros Hor. unfold checkLoginLockout. rewrite bind_run. unfold gets, loginFailMaxAttempts.
    rewrite HL. destruct Hor as [Ht|Hk].
    + by rewrite (proj2 (Z.ltb_ge _ _)) by lia.
    + rewrite (proj2 (Z.leb_gt _ _)) by lia. by rewrite andb_false_r.
Qed.
End Lockout.

Lemma login_lockout_witness :
  let s' := @runLogins exampleLib
    (replicate 15 (exampleAuthEnv "0" 1000, mkLoginDto "A@x.mg " "wrong")) (exampleAuthStore false) in
  @login exampleLib (exampleAuthEnv "1" 900999) (mkLoginDto "a@x.mg" "right") None None s' =
    (s', Throw tooMany) ∧
  @checkLoginLockout exampleLib (exampleAuthEnv "1" 901000) "a@x.mg" s' = (s', Ok tt).
Proof.
  assert (Hs := @login_lockout exampleLib (exampleAuthEnv "0" 1000) (mkLoginDto "A@x.mg " "wrong")
    (replicate 14 (exampleAuthEnv "0" 1000, mkLoginDto "A@x.mg " "wrong")) "a@x.mg"
    (exampleAuthStore false)).
  lapply Hs; [clear Hs; intro Hs|reflexivity].
  lapply Hs; [clear Hs; intro Hs|reflexivity].
  lapply Hs; [clear Hs; intro Hs|right; vm_compute; reflexivity].
  lapply Hs; [clear Hs; intro Hs|reflexivity].
  lapply Hs; [clear Hs; intro Hs|].
  - split.
    + apply (Hs (exampleAuthEnv "1" 900999)); try reflexivity; vm_compute; discriminate.
    + apply (Hs (exampleAuthEnv "1" 901000) (mkLoginDto "a@x.mg" "right") None None);
        try reflexivity. left. vm_compute. discriminate.
  - apply Forall_replicate. split; [reflexivity|]. split; [reflexivity|]. split.
    + split; [discriminate|reflexivity].
    + right. vm_compute. reflexivity.
Defined.

(** ** Refresh tokens *)

Section Refresh.
Context `{AuthLib}.

(** The tokens of a user on a session. *)
Definition refreshTokenOf (env : AuthEnv) (id : string) (u : User) (sid : string) : string :=
  jwtSign (JWT_REFRESH_SECRET env) (refreshExpiration env) (now env)
    (sessionPayload env id (email u) (role_string (role u)) (companyId u) (firstName u) (lastName u)
       None sid).
Definition accessTokenOf (env : AuthEnv) (id : string) (u : User) (sid : string) : string :=
  jwtSign (JWT_ACCESS_SECRET env) (accessExpiration env) (now env)
    (sessionPayload env id (email u) (role_string (role u)) (companyId u) (firstName u) (lastName u)
       None sid).

(** A session after a rotation. *)
Definition rotated (env : AuthEnv) (hash : string) (x : UserSession) : UserSession :=
  x <| us_previousRefreshTokenHash := us_refreshTokenHash x |>
    <| us_refreshTokenHash := Some hash |>
    <| us_lastActivity := now env |>
    <| us_expiresAt := Z.max (us_expiresAt x) (now env + refreshExpirationSeconds env * 1000) |>.

Lemma truthy_Some s : truthy (Some s) = true ↔ s ≠ EmptyString.
Proof. simpl. rewrite negb_true_iff, bool_decide_eq_false. done. Qed.

(** [generateTokens] on a session that exists. *)
Lemma generateTokens_known env id u sid x s ip dev :
  users s !! id = Some u → sid ≠ EmptyString → userSessions s !! sid = Some x → us_userId x = id →
  generateTokens env id (email u) (role u) (companyId u) (Some sid) ip dev s =
  (s <| userSessions ::= <[sid := rotated env (bcryptHash (salt env) (refreshTokenOf env id u sid)) x]> |>,
   Ok (mkTokenResponse (accessTokenOf env id u sid) (refreshTokenOf env id u sid)
         (tokenUser id u) None None)).
Proof.
  intros Hu Hs Hx Ho. unfold generateTokens. rewrite bind_run. unfold gets at 1. rewrite Hu.
  apply truthy_Some in Hs. rewrite Hs. rewrite bind_run. unfold mret at 1, M_ret at 1.
  rewrite bind_run. unfold rotateRefreshToken. simpl default. rewrite Hx, bool_decide_eq_true_2 by done.
  reflexivity.
Qed.

(** What a refresh needs of the session and its owner. *)
Definition refreshable (env : AuthEnv) (token sid id : string) (x : UserSession) (u : User)
    (s : AuthStore) : Prop :=
  userSessions s !! sid = Some x ∧ us_userId x = id ∧ users s !! id = Some u ∧
  isActive u = true ∧ truthy (us_refreshTokenHash x) = true ∧ now env ≤ us_expiresAt x ∧
  (matchesHash token (us_refreshTokenHash x) = true ∨
   matchesHash token (us_previousRefreshTokenHash x) = true).

Lemma validateRefresh_run env token sid s :
  ∃ r, validateRefresh env token sid s = (s, r) ∧
    ∀ id u, r = Ok (id, u) ↔ ∃ x, refreshable env token sid id x u s.
Proof.
  unfold validateRefresh, transaction. rewrite bind_run. unfold gets at 1.
  unfold refreshable. destruct (userSessions s !! sid) as [x|] eqn:Ex.
  2: { eexists. split; [reflexivity|]. intros id v. split; [done|].
    intros (y & ? & ? & ? & ? & ? & ? & ?). subst. congruence. }
  rewrite bind_run. unfold gets at 1. destruct (users s !! us_userId x) as [u|] eqn:Eu.
  2: { eexists. split; [reflexivity|]. intros id v. split; [done|].
    intros (y & ? & ? & ? & ? & ? & ? & ?). subst. congruence. }
  rewrite bind_run. destruct (isActive u) eqn:Ea; cycle 1.
  { eexists. split; [reflexivity|]. intros id v. split; [done|].
    intros (y & ? & ? & ? & ? & ? & ? & ?). subst. congruence. }
  unfold ensure at 1. unfold mret at 1, M_ret at 1. rewrite bind_run.
  destruct (truthy (us_refreshTokenHash x)) eqn:Eh; cycle 1.
  { eexists. split; [reflexivity|]. intros id v. split; [done|].
    intros (y & ? & ? & ? & ? & ? & ? & ?). subst. congruence. }
  unfold ensure at 1. unfold mret at 1, M_ret at 1. rewrite bind_run.
  destruct (us_expiresAt x <? now env) eqn:Et; cycle 1.
  - unfold ensure at 1. cbn [negb]. unfold mret at 1, M_ret at 1. apply Z.ltb_ge in Et.
    destruct (matchesHash token (us_refreshTokenHash x)) eqn:E1;
      [|destruct (matchesHash token (us_previousRefreshTokenHash x)) eqn:E2]; cbn [negb andb];
      (eexists; split; [reflexivity|]); intros id v; (split;
        [intros Er; try done; injection Er as <- <-; exists x; split_and!; auto
        |intros (y & Hy & Ho & Hu & _ & _ & _ & Hm); simplify_eq; try done;
         destruct Hm; congruence]).
  - apply Z.ltb_lt in Et. eexists. split; [reflexivity|]. intros id v. split; [done|].
    intros (y & Hy & _ & _ & _ & _ & Hl & _). simplify_eq. lia.
Qed.

(** A refresh succeeds exactly for a valid refresh token that names a
    live session of an active user and matches its current hash or the one
    before; it then returns tokens of that session and owner, moves the
    current hash to the previous place, never shortens the session, and
    touches no other session. *)
Theorem refresh_spec env token s :
  match refresh env token s with
  | (s', Ok r) => ∃ p sid id x u,
      jwtVerify (JWT_REFRESH_SECRET env) (now env) token = Some p ∧ jp_sessionId p = Some sid ∧
      sid ≠ EmptyString ∧ refreshable env token sid id x u s ∧
      accessToken r = accessTokenOf env id u sid ∧ refreshToken r = refreshTokenOf env id u sid ∧
      tr_user r = tokenUser id u ∧
      (∃ x', userSessions s' = <[sid := x']> (userSessions s) ∧ us_userId x' = id ∧
         us_previousRefreshTokenHash x' = us_refreshTokenHash x ∧
         us_refreshTokenHash x' = Some (bcryptHash (salt env) (refreshToken r)) ∧
         us_expiresAt x ≤ us_expiresAt x' ∧
         now env + refreshExpirationSeconds env * 1000 ≤ us_expiresAt x') ∧
      users s' = users s ∧ redisDb s' = redisDb s
  | (s', Throw e) => s' = s ∧
      ∀ p sid, jwtVerify (JWT_REFRESH_SECRET env) (now env) token = Some p →
        jp_sessionId p = Some sid → sid ≠ EmptyString → ∀ id x u, ¬ refreshable env token sid id x u s
  end.
Proof.
  unfold refresh. destruct (jwtVerify _ _ _) as [p|]; [|by split].
  destruct (jp_sessionId p) as [sid|] eqn:Es; [|split; congruence].
  rewrite bind_run. destruct (truthy (Some sid)) eqn:Et; cycle 1.
  { split; [done|]. intros p' sid' Hp Hs Hne. assert (sid' = sid) as -> by congruence.
    apply truthy_Some in Hne. congruence. }
  unfold ensure at 1. unfold mret at 1, M_ret at 1. rewrite bind_run. apply truthy_Some in Et.
  destruct (validateRefresh_run env token sid s) as ([[id u]|e] & -> & HV); cycle 1.
  { split; [done|]. intros p' sid' Hp Hs Hne id x u HR. assert (sid' = sid) as -> by congruence.
    assert (Throw e = Ok (id, u)) by (apply HV; eauto). done. }
  destruct (proj1 (HV id u) eq_refl) as [x HR]. pose proof HR as (Hx & Ho & Hu & _). cbn [fst snd].
  rewrite (generateTokens_known env id u sid x) by done.
  exists p, sid, id, x, u. split_and!; try done.
  eexists. split; [by destruct s|]. unfold rotated. simpl. split_and!; try done; lia.
Qed.

(** The branch that reports a reuse discards its own deletion: the session is
    still there, with its hashes. *)
Lemma reuse_keeps_session env token sid s :
  run_state (validateRefresh env token sid) s = s.
Proof. unfold run_state. by destruct (validateRefresh_run env token sid s) as (r & -> & _). Qed.

(** Renewals of a session by its owner, one environment after the other. *)
Fixpoint renew (envs : list AuthEnv) (id : string) (u : User) (sid : string) (s : AuthStore) : AuthStore :=
  match envs with
  | [] => s
  | env :: envs' => renew envs' id u sid
      (run_state (generateTokens env id (email u) (role u) (companyId u) (Some sid) None None) s)
  end.

Lemma renew_session envs id u sid : ∀ s x,
  users s !! id = Some u → sid ≠ EmptyString → userSessions s !! sid = Some x → us_userId x = id →
  ∃ x', userSessions (renew envs id u sid s) !! sid = Some x' ∧
    users (renew envs id u sid s) = users s ∧ us_userId x' = id ∧ us_expiresAt x ≤ us_expiresAt x' ∧
    (us_refreshTokenHash x' = us_refreshTokenHash x ∨ ∃ env, env ∈ envs ∧
      us_refreshTokenHash x' = Some (bcryptHash (salt env) (refreshTokenOf env id u sid))).
Proof.
  induction envs as [|env envs IH]; intros s x Hu Hs Hx Ho.
  { exists x. split_and!; auto; done. }
  cbn [renew]. unfold run_state. rewrite (generateTokens_known env id u sid x) by done. cbn [fst].
  destruct (IH (s <| userSessions ::= <[sid := rotated env
      (bcryptHash (salt env) (refreshTokenOf env id u sid)) x]> |>)
    (rotated env (bcryptHash (salt env) (refreshTokenOf env id u sid)) x))
    as (x' & Hx' & Hu' & Ho' & He' & Hh').
  - by destruct s.
  - done.
  - destruct s. simpl. by rewrite lookup_insert_eq.
  - done.
  - exists x'. split_and!; [done|by destruct s|done| |].
    + unfold rotated in He'. simpl in He'. lia.
    + destruct Hh' as [E|(e & He & E)]; right; [exists env|exists e]; (split; [|done]).
      * left.
      * by right.
Qed.

(** The rotation of refresh tokens does not retire old ones: bcrypt reads
    72 bytes and the tokens of a user start alike, so that after any number of
    renewals the first token of a session is still accepted until it or the
    session expires. *)
Theorem old_refresh_token_survives `{!BcryptLaws, !JwtLaws} env0 envs env id u sid s x v m :
  users s !! id = Some u → isActive u = true → sid ≠ EmptyString →
  userSessions s !! sid = Some x → us_userId x = id →
  us_refreshTokenHash x = Some (bcryptHash (salt env0) (refreshTokenOf env0 id u sid)) →
  (∀ e, e ∈ env0 :: envs →
     sliceTo 72 (refreshTokenOf e id u sid) = sliceTo 72 (refreshTokenOf env0 id u sid)) →
  (∀ e, e ∈ env0 :: envs → bcryptHash (salt e) (refreshTokenOf e id u sid) ≠ EmptyString) →
  durationParts (refreshExpiration env0) = Some (v, m) →
  JWT_REFRESH_SECRET env = JWT_REFRESH_SECRET env0 →
  now env0 ≤ now env < now env0 + v * m * 1000 → now env ≤ us_expiresAt x →
  ∃ s' r, refresh env (refreshTokenOf env0 id u sid) (renew envs id u sid s) = (s', Ok r) ∧
    tr_user r = tokenUser id u.
Proof.
  intros Hu Ha Hs Hx Ho Hh Hpre Hne Hd Hk Ht He.
  destruct (renew_session envs id u sid s x Hu Hs Hx Ho) as (x' & Hx' & Hu' & Ho' & He' & Hh').
  assert (HE : ∃ e, e ∈ env0 :: envs ∧
    us_refreshTokenHash x' = Some (bcryptHash (salt e) (refreshTokenOf e id u sid))).
  { destruct Hh' as [E|(e & Hin & E)]; [exists env0|exists e]; (split; [|congruence]); [left|by right]. }
  destruct HE as (e & Hin & Hhe).
  pose proof (refresh_spec env (refreshTokenOf env0 id u sid) (renew envs id u sid s)) as HR.
  assert (HV : jwtVerify (JWT_REFRESH_SECRET env) (now env) (refreshTokenOf env0 id u sid) =
    Some (sessionPayload env0 id (email u) (role_string (role u)) (companyId u) (firstName u)
            (lastName u) None sid)).
  { unfold refreshTokenOf. rewrite Hk, (jwt_verify_sign _ _ v m) by (done || lia).
    by rewrite (proj2 (Z.ltb_lt _ _)) by lia. }
  assert (HM : refreshable env (refreshTokenOf env0 id u sid) sid id x' u (renew envs id u sid s)).
  { unfold refreshable. rewrite Hu'. split_and!; auto; [|lia|].
    - rewrite Hhe. apply truthy_Some. exact (Hne e Hin).
    - left. unfold matchesHash. rewrite Hhe.
      assert (truthy (Some (bcryptHash (salt e) (refreshTokenOf e id u sid))) = true) as ->
        by (apply truthy_Some; exact (Hne e Hin)).
      rewrite bcrypt_compare. simpl. apply bool_decide_eq_true. symmetry. by apply Hpre. }
  destruct (refresh env _ _) as [s' [r|er]].
  - destruct HR as (p & sid1 & id1 & x1 & u1 & Hp & Hsid & _ & (Hx1 & Ho1 & Hu1 & _) & _ & _ & HT & _).
    exists s', r. split; [done|]. rewrite HV in Hp. injection Hp as <-. injection Hsid as <-.
    rewrite HT. rewrite Hu' in Hu1. rewrite Hx' in Hx1. injection Hx1 as <-.
    assert (id1 = id) as -> by congruence. assert (u1 = u) as -> by congruence. done.
  - destruct HR as [_ HR]. exfalso. by eapply HR.
Qed.
End Refresh.

(** A session whose first token, issued at second 1, has been renewed twice. *)
Definition exampleSession : UserSession :=
  mkUserSession "u1" None None 1000 1000 604801000
    (Some (@bcryptHash exampleLib "s"
      (@refreshTokenOf exampleLib (exampleAuthEnv "0" 1000) "u1" (exampleUser false) "s1"))) None.
Definition exampleSessionStore : AuthStore :=
  (exampleAuthStore false) <| userSessions := {[ "s1" := exampleSession ]} |>.

Lemma old_refresh_token_survives_witness :
  ∃ s' r, @refresh exampleLib (exampleAuthEnv "9" 9000)
      (@refreshTokenOf exampleLib (exampleAuthEnv "0" 1000) "u1" (exampleUser false) "s1")
      (@renew exampleLib [exampleAuthEnv "1" 2000; exampleAuthEnv "2" 3000] "u1" (exampleUser false) "s1"
         exampleSessionStore) = (s', Ok r) ∧
    tr_user r = tokenUser "u1" (exampleUser false).
Proof.
  apply (@old_refresh_token_survives exampleLib exampleLib_bcrypt exampleLib_jwt
    (exampleAuthEnv "0" 1000) [exampleAuthEnv "1" 2000; exampleAuthEnv "2" 3000]
    (exampleAuthEnv "9" 9000) "u1" (exampleUser false) "s1" exampleSessionStore exampleSession 7 86400);
    try reflexivity; try done.
  intros e He. repeat (apply elem_of_cons in He as [->|He]; [vm_compute; reflexivity|]).
  by apply not_elem_of_nil in He.
Defined.
