(* ===== verification/AuthSessionProps.v ===== *)
(** * modules/auth: sessions

    What a password reset revokes, the single use of the second-factor step,
    and the conditions under which a session is created. *)

From S2P Require Import Prelude JsString Redis AuthModel Auth AuthExample AuthProps.

#[local] Open Scope string_scope.
#[local] Open Scope list_scope.
#[local] Open Scope Z_scope.

(** The unique index of [resetTokenId]. *)
Definition resetTokens_unique (s : AuthStore) : Prop :=
  ∀ i j a b r, users s !! i = Some a → users s !! j = Some b →
    resetTokenId a = Some r → resetTokenId b = Some r → i = j.

Section Reset.
Context `{AuthLib}.

Lemma deleteSessions_run P s :
  deleteSessions P s =
  (s <| userSessions := delete_many P (update_many P (λ x, x <| us_refreshTokenHash := None |>)
                          (userSessions s)) |>, Ok tt).
Proof. unfold deleteSessions. rewrite bind_run. unfold modify. by destruct s. Qed.

Lemma lookup_deleted P (t : gmap string UserSession) k :
  (∀ x h, P k (x <| us_refreshTokenHash := h |>) = P k x) →
  delete_many P (update_many P (λ x, x <| us_refreshTokenHash := None |>) t) !! k =
  t !! k ≫= (λ x, if P k x then None else Some x).
Proof.
  intros HP. rewrite lookup_delete_many, lookup_update_many. destruct (t !! k) as [x|]; [|done].
  simpl. destruct (P k x) eqn:E; [by rewrite HP, E|by rewrite E].
Qed.

(** A session that does not exist cannot be refreshed. *)
Lemma refresh_without_session env token p sid s :
  jwtVerify (JWT_REFRESH_SECRET env) (now env) token = Some p → jp_sessionId p = Some sid →
  userSessions s !! sid = None → refresh env token s = (s, Throw invalidRefresh).
Proof.
  intros Hp Hs Hn. unfold refresh. rewrite Hp, Hs, bind_run.
  destruct (truthy (Some sid)); [|done]. unfold ensure at 1. unfold mret at 1, M_ret at 1.
  rewrite bind_run. unfold validateRefresh, transaction. rewrite bind_run. unfold gets at 1.
  by rewrite Hn.
Qed.

Definition resetUser (env : AuthEnv) (newPassword : string) (u : User) : User :=
  u <| passwordHash := bcryptHash (salt env) newPassword |>
    <| resetTokenId := None |> <| resetTokenHash := None |>
    <| resetTokenExpiry := None |> <| legacyRefreshTokenHash := None |>.

(** A successful reset, step by step. *)
Lemma resetPassword_Ok env token pw s s' :
  resetPassword env token pw s = (s', Ok tt) →
  ∃ tid raw id u h expiry,
    splitColon token = Some (tid, raw) ∧ users s !! id = Some u ∧ resetTokenId u = Some tid ∧
    resetTokenHash u = Some h ∧ resetTokenExpiry u = Some expiry ∧ now env ≤ expiry ∧
    bcryptCompare raw h = true ∧
    users s' = <[id := resetUser env pw u]> (users s) ∧
    userSessions s' = delete_many (λ _ x, bool_decide (us_userId x = id))
      (update_many (λ _ x, bool_decide (us_userId x = id)) (λ x, x <| us_refreshTokenHash := None |>)
         (userSessions s)) ∧
    redisDb s' = match redisLink env with
      | RedisUp => redis_set (now env) (revokedUserKey id) (string_of_Z (cutoffSeconds (now env)))
                     (Z.max (accessTokenTtlSeconds (JWT_ACCESS_EXPIRATION env)) 1) (redisDb s)
      | _ => redisDb s
      end.
Proof.
  unfold resetPassword. destruct (splitColon token) as [[tid raw]|]; [|done].
  rewrite bind_run. unfold gets at 1.
  destruct (userByResetTokenId tid s) as [[id u]|] eqn:EU; [|done].
  apply find_first_Some in EU as [Hu HT]. apply bool_decide_eq_true in HT.
  destruct (resetTokenHash u) as [h|] eqn:EH; [|done].
  destruct (resetTokenExpiry u) as [expiry|] eqn:EX; [|done].
  rewrite !ensure_bind. destruct (truthy (Some h)); [|done].
  destruct (expiry <? now env) eqn:ET; [done|]. apply Z.ltb_ge in ET. cbn [negb].
  destruct (bcryptCompare raw h) eqn:EB; [|done]. rewrite bind_run. unfold updateUser. rewrite Hu.
  destruct (userClashes _ _ _); [done|]. rewrite bind_run, deleteSessions_run.
  intros HR. exists tid, raw, id, u, h, expiry. split_and!; try done.
  all: revert HR; unfold revokeUserAccessTokens, revokeKey, redisBestEffort; destruct s; unfold set;
    simpl; destruct (redisLink env); unfold mret, M_ret, modify; intros [= <-]; reflexivity.
Qed.

(** The access tokens a revocation key refuses. *)
Lemma revoked_after_set t0 t p ttl key db i :
  iat p = Some i → 0 < i → i * 1000 ≤ t0 → t0 ≤ t < t0 + ttl * 1000 → 0 ≤ t0 →
  revokedBy t key i (redis_set t0 key (string_of_Z (cutoffSeconds t0)) ttl db) = true.
Proof.
  intros _ Hi0 Hi Ht H0. unfold revokedBy. rewrite redis_get_set.
  rewrite (proj2 (Z.ltb_lt _ _)) by lia. unfold cutoffSeconds.
  assert (0 ≤ t0 / 1000) by (by apply Z.div_pos).
  assert (string_of_Z (t0 / 1000 + 1) = pretty (Z.to_N (t0 / 1000 + 1))) as ->.
  { unfold string_of_Z. by destruct (t0 / 1000 + 1) eqn:E; try lia. }
  rewrite pretty_nonempty, counter_pretty by lia. cbn [negb andb]. apply Z.ltb_lt.
  pose proof (Z.div_mod t0 1000). pose proof (Z.mod_pos_bound t0 1000). lia.
Qed.

(** A password reset needs an unexpired token whose secret matches; it
    installs the new password, and from then on nothing obtained before works:
    the link, every refresh token of the account's sessions, and, with Redis,
    every access token of the account, while the other accounts keep their
    sessions. *)
Theorem reset_revokes_everything env token pw s s' :
  resetTokens_unique s → 0 ≤ now env →
  resetPassword env token pw s = (s', Ok tt) →
  ∃ id u, users s !! id = Some u ∧ users s' = <[id := resetUser env pw u]> (users s) ∧
    (∀ expiry, resetTokenExpiry u = Some expiry → now env ≤ expiry) ∧
    (∀ k x, userSessions s' !! k = Some x ↔ userSessions s !! k = Some x ∧ us_userId x ≠ id) ∧
    (∀ env2 pw2, resetPassword env2 token pw2 s' = (s', Throw invalidReset)) ∧
    (∀ env2 tok p sid x, jwtVerify (JWT_REFRESH_SECRET env2) (now env2) tok = Some p →
       jp_sessionId p = Some sid → userSessions s !! sid = Some x → us_userId x = id →
       refresh env2 tok s' = (s', Throw invalidRefresh)) ∧
    (redisLink env = RedisUp → ∀ t p i, sub p = id → iat p = Some i → 0 < i →
       i * 1000 ≤ now env →
       now env ≤ t < now env + accessTokenTtlSeconds (JWT_ACCESS_EXPIRATION env) * 1000 →
       tokenRevoked t p (redisDb s') = true).
Proof.
  intros HU H0 HR. destruct (resetPassword_Ok env token pw s s' HR)
    as (tid & raw & id & u & h & expiry & Htok & Hu & Hid & Hh & Hx & Hexp & Hb & Hus & Hss & Hrd).
  assert (HS : ∀ k, userSessions s' !! k = userSessions s !! k ≫=
     (λ x, if bool_decide (us_userId x = id) then None else Some x)).
  { intros k. rewrite Hss, lookup_deleted; [done|by intros [] ?]. }
  exists id, u. split_and!; [done|done| | | | |].
  - intros e He. congruence.
  - intros k x. rewrite HS. destruct (userSessions s !! k) as [y|]; simpl; [|naive_solver].
    destruct (bool_decide (us_userId y = id)) eqn:E;
      [apply bool_decide_eq_true in E|apply bool_decide_eq_false in E]; naive_solver.
  - intros env2 pw2. unfold resetPassword. rewrite Htok, gets_bind.
    destruct (userByResetTokenId tid s') as [[j v]|] eqn:EJ; [|done].
    apply find_first_Some in EJ as [Hj Hv]. apply bool_decide_eq_true in Hv.
    rewrite Hus in Hj. apply lookup_insert_Some in Hj as [[<- <-]|[Hne Hj]]; [done|].
    exfalso. apply Hne. by eapply HU.
  - intros env2 tok p sid x Hp Hs Hsx Hox. eapply refresh_without_session; [done..|].
    rewrite HS, Hsx. simpl. by rewrite bool_decide_eq_true_2.
  - intros HL t p i Hsub Hi Hi0 Hi1 Ht. unfold tokenRevoked. rewrite Hi, Hrd, HL, Hsub.
    rewrite (proj2 (Z.eqb_neq _ _)) by lia. rewrite (revoked_after_set _ _ p) by (done || lia).
    done.
Qed.
End Reset.

(** The store after a request for a reset link. *)
Definition exampleResetStore : AuthStore :=
  run_state (@forgotPassword exampleLib (exampleAuthEnv "r" 5000) "a@x.mg") exampleSessionStore.

Lemma reset_revokes_everything_witness :
  let token := "uuid-r:hex-r" in
  let env := exampleAuthEnv "9" 9000 in
  let s' := run_state (@resetPassword exampleLib env token "new") exampleResetStore in
  ∃ id u, users exampleResetStore !! id = Some u ∧
    users s' = <[id := @resetUser exampleLib env "new" u]> (users exampleResetStore) ∧
    (∀ expiry, resetTokenExpiry u = Some expiry → 9000 ≤ expiry) ∧
    (∀ k x, userSessions s' !! k = Some x ↔ userSessions exampleResetStore !! k = Some x ∧ us_userId x ≠ id) ∧
    (∀ env2 pw2, @resetPassword exampleLib env2 token pw2 s' = (s', Throw invalidReset)) ∧
    (∀ env2 tok p sid x, @jwtVerify exampleLib (JWT_REFRESH_SECRET env2) (now env2) tok = Some p →
       jp_sessionId p = Some sid → userSessions exampleResetStore !! sid = Some x → us_userId x = id →
       @refresh exampleLib env2 tok s' = (s', Throw invalidRefresh)) ∧
    (RedisUp = RedisUp → ∀ t p i, sub p = id → iat p = Some i → 0 < i → i * 1000 ≤ 9000 →
       9000 ≤ t < 9000 + 900 * 1000 → tokenRevoked t p (redisDb s') = true).
Proof.
  apply (@reset_revokes_everything exampleLib (exampleAuthEnv "9" 9000) "uuid-r:hex-r" "new"
    exampleResetStore).
  - intros i j a b r Hi Hj _ _.
    assert (HD : (map_to_list (users exampleResetStore)).*1 = ["u1"]) by (vm_compute; reflexivity).
    apply elem_of_map_to_list, (list_elem_of_fmap_2 fst) in Hi, Hj. rewrite HD in Hi, Hj.
    apply list_elem_of_singleton in Hi, Hj. simpl in *. congruence.
  - discriminate.
  - vm_compute. reflexivity.
Defined.

(** ** Who obtains a session *)

Inductive AuthRequest :=
  | RRegister (dto : RegisterDto)
  | RLogin (dto : LoginDto)
  | RVerify2fa (dto : Verify2faDto)
  | RRefresh (token : string)
  | RLogout (userId : string) (sessionId : option string)
  | RForgotPassword (e : string)
  | RResetPassword (token pw : string)
  | RGoogle (g : GoogleProfile)
  | RExchange (userId : string)
  | RDeviceToken (userId : string) (sessionId : option string).

(** Every session of [s'] was there with the same owner, or its owner is in [E]. *)
Definition sessionsFrom (E : string → Prop) (s s' : AuthStore) : Prop := ∀ sid x',
  userSessions s' !! sid = Some x' →
  (∃ x, userSessions s !! sid = Some x ∧ us_userId x = us_userId x') ∨ E (us_userId x').

#[export] Instance sessionsFrom_preorder E : PreOrder (sessionsFrom E).
Proof.
  split.
  - intros s sid x Hx. left. eauto.
  - intros s1 s2 s3 H1 H2 sid x3 H3. destruct (H2 _ _ H3) as [(x2 & Hx2 & E2)|]; [|by right].
    destruct (H1 _ _ Hx2) as [(x1 & Hx1 & E1)|]; [left; exists x1; split; congruence|].
    right. by rewrite <- E2.
Qed.

Lemma sessionsFrom_same E s s' : userSessions s' = userSessions s → sessionsFrom E s s'.
Proof. intros HE sid x Hx. left. rewrite HE in Hx. eauto. Qed.

Section Authorised.
Context `{AuthLib} (env : AuthEnv).

Definition runAuth (r : AuthRequest) (ip device : option string) : M AuthStore unit :=
  match r with
  | RRegister dto => register env dto ip device ;; mret tt
  | RLogin dto => login env dto ip device ;; mret tt
  | RVerify2fa dto => verify2faToken env dto ip device ;; mret tt
  | RRefresh token => refresh env token ;; mret tt
  | RLogout u sid => logout u sid
  | RForgotPassword e => forgotPassword env e
  | RResetPassword token pw => resetPassword env token pw
  | RGoogle g => validateGoogleUser env g ip device ;; mret tt
  | RExchange u => createSessionForUser env u ip device ;; mret tt
  | RDeviceToken u sid => issueDeviceTrackingToken env u sid ;; mret tt
  end.

(** What a request proves about the owner of the session it opens. *)
Definition entitled (r : AuthRequest) (users0 : gmap string User) (uid : string) : Prop :=
  match r with
  | RRegister _ => users0 !! uid = None
  | RLogin dto => ∃ u, users0 !! uid = Some u ∧ email u = normalizeEmail (ld_email dto) ∧
      deletedAt u = None ∧ isActive u = true ∧ totpEnabled u = false ∧
      bcryptCompare (ld_password dto)
        (if truthy (Some (passwordHash u)) then passwordHash u else DUMMY_HASH env) = true
  | RVerify2fa dto => ∃ p u, jwtVerify (tempSecret env) (now env) (vd_tempToken dto) = Some p ∧
      jp_scope p = Some "2fa_pending" ∧ sub p = uid ∧ users0 !! uid = Some u ∧ isActive u = true ∧
      totpVerify (default EmptyString (totpSecret u)) (now env) (vd_token dto) = true
  | RGoogle g => users0 !! uid = None ∨ ∃ u, users0 !! uid = Some u ∧ isActive u = true ∧
      totpEnabled u = false ∧ (googleId u = Some (gp_googleId g) ∨ email u = normalizeEmail (gp_email g))
  | RExchange id => id = uid ∧ ∃ u, users0 !! uid = Some u ∧ isActive u = true ∧ totpEnabled u = false
  | _ => False
  end.

Section Footprints.
Context (E : string → Prop).
Local Notation R := (sessionsFrom E).

Lemma fp_createSession uid d ip : E uid → footprint R (createUserSession env uid d ip).
Proof.
  intros HE s. unfold createUserSession. destruct (userSessions s !! newId env "user_sessions") eqn:EN;
    [by apply sessionsFrom_same|].
  intros sid x Hx. destruct s. unfold set in *. simpl in *.
  apply lookup_insert_Some in Hx as [[<- <-]|[_ Hx]]; [by right|left; eauto].
Qed.

Lemma fp_rotate sid uid h : footprint R (rotateRefreshToken env sid uid h).
Proof.
  intros s. unfold rotateRefreshToken. destruct (userSessions s !! sid) as [x|] eqn:Ex;
    [|by apply sessionsFrom_same].
  destruct (bool_decide (us_userId x = uid)); [|by apply sessionsFrom_same].
  intros k y Hy. left. destruct s. unfold set in *. simpl in *.
  apply lookup_insert_Some in Hy as [[<- <-]|[_ Hy]]; eauto.
Qed.

Lemma fp_generateTokens uid e r cid sid ip d :
  E uid ∨ truthy sid = true → footprint R (generateTokens env uid e r cid sid ip d).
Proof.
  intros HE. unfold generateTokens. footprint_auto; try apply fp_rotate.
  destruct HE; [by apply fp_createSession|congruence].
Qed.

Lemma fp_modify f : (∀ s, userSessions (f s) = userSessions s) → footprint R (modify f).
Proof. intros HF. apply footprint_modify. intros s. by apply sessionsFrom_same. Qed.

Lemma fp_redis f : footprint R (redisBestEffort env f).
Proof.
  unfold redisBestEffort. destruct (redisLink env); [apply footprint_ret, _..|].
  apply fp_modify. by intros [].
Qed.

Lemma fp_deleteSessions P : footprint R (deleteSessions P).
Proof.
  intros s. rewrite deleteSessions_run. intros sid x Hx. left. destruct s. unfold set in *. simpl in *.
  apply lookup_delete_many_Some in Hx as [Hx _]. rewrite lookup_update_many in Hx.
  destruct (userSessions !! sid) as [y|]; [|done]. exists y. split; [done|].
  injection Hx as <-. by destruct (P sid y).
Qed.

Lemma fp_updateUser id f : footprint R (updateUser id f).
Proof.
  intros s. unfold updateUser. destruct (users s !! id); [|by apply sessionsFrom_same].
  destruct (userClashes _ _ _); apply sessionsFrom_same; by destruct s.
Qed.
Lemma fp_createUser id u : footprint R (createUser id u).
Proof. intros s. unfold createUser. destruct (_ || _); apply sessionsFrom_same; by destruct s. Qed.
Lemma fp_updateInvitation id f : footprint R (updateInvitation id f).
Proof. intros s. unfold updateInvitation. destruct (_ !! _); apply sessionsFrom_same; by destruct s. Qed.

Lemma fp_createCompany n e : footprint R (createCompany env n e).
Proof. unfold createCompany. footprint_auto. apply sessionsFrom_same. by destruct s. Qed.
Lemma fp_startTrial c p : footprint R (startTrial env c p).
Proof. unfold startTrial. footprint_auto. apply sessionsFrom_same. by destruct s. Qed.
Lemma fp_mail m : footprint R (sendAuthMail m).
Proof. apply fp_modify. by intros []. Qed.
Lemma fp_consume j : footprint R (consumeTempToken env j).
Proof.
  unfold consumeTempToken. footprint_auto. intros st.
  destruct (redis_setnx _ _ _ _ _). apply sessionsFrom_same. by destruct st.
Qed.
End Footprints.
End Authorised.

#[export] Hint Resolve fp_modify fp_redis fp_deleteSessions fp_updateUser fp_createUser
  fp_updateInvitation fp_createCompany fp_startTrial fp_mail fp_consume : footprint.

(** The goal about one run, from the footprint of the handler. *)
Ltac as_footprint :=
  match goal with
  | |- ?R ?s (?m ?s).1 =>
      let HF := fresh in assert (HF : footprint R m); [|exact (HF s)]
  end.

Section AuthorisedRuns.
Context `{AuthLib} (env : AuthEnv).

Lemma runAuth_unit {A} E (m : M AuthStore A) s :
  sessionsFrom E s (m s).1 → sessionsFrom E s ((m ;; mret tt) s).1.
Proof. rewrite bind_run. by destruct (m s) as [s' [a|e]]. Qed.

Lemma login_sessions dto ip d s :
  sessionsFrom (entitled env (RLogin dto) (users s)) s (login env dto ip d s).1.
Proof.
  unfold login, checkLoginLockout. rewrite bind_run, gets_bind.
  destruct (lockedOut _ _ _ _); [by apply sessionsFrom_same|]. unfold ensure at 1.
  cbn [negb]. unfold mret at 1, M_ret at 1. rewrite gets_bind.
  destruct (find_first _ _) as [[id u]|] eqn:EF; cycle 1.
  { as_footprint. footprint_auto. apply fp_redis. }
  apply find_first_Some in EF as [Hu HE]. apply bool_decide_eq_true in HE as [He Hd].
  destruct (negb (isActive u) || negb (bcryptCompare _ _)) eqn:EC.
  { as_footprint. footprint_auto. apply fp_redis. }
  apply orb_false_iff in EC as [EA EC]. apply negb_false_iff in EA, EC.
  as_footprint. apply footprint_bind; [exact _|apply fp_redis|intros _].
  destruct (totpEnabled u) eqn:ET; [apply footprint_ret, _|].
  assert (HE : entitled env (RLogin dto) (users s) id) by (exists u; split_and!; done).
  apply footprint_bind; [exact _|by apply fp_createSession|intros sid].
  apply fp_generateTokens. by left.
Qed.

Lemma verify2fa_sessions dto ip d s :
  sessionsFrom (entitled env (RVerify2fa dto) (users s)) s (verify2faToken env dto ip d s).1.
Proof.
  unfold verify2faToken. destruct (jwtVerify _ _ _) as [p|] eqn:EJ; [|by apply sessionsFrom_same].
  rewrite ensure_bind. case_bool_decide as ES; [|by apply sessionsFrom_same]. rewrite gets_bind.
  destruct (users s !! sub p) as [u|] eqn:Eu; [|by apply sessionsFrom_same]. rewrite ensure_bind.
  destruct (isActive u) eqn:EA; [|by apply sessionsFrom_same].
  destruct (true && totpEnabled u && truthy (totpSecret u)); [|by apply sessionsFrom_same].
  as_footprint. apply footprint_bind; [exact _|unfold check2faLockout; footprint_auto|intros _].
  destruct (totpVerify _ _ _) eqn:EV; cbn [negb]; [|footprint_auto; apply fp_redis].
  assert (HE : entitled env (RVerify2fa dto) (users s) (sub p)) by (exists p, u; split_and!; done).
  apply footprint_bind; [exact _|apply fp_consume|intros fresh].
  apply footprint_bind; [exact _|apply footprint_ensure, _|intros _].
  apply footprint_bind; [exact _|apply fp_redis|intros _].
  apply footprint_bind; [exact _|by apply fp_createSession|intros sid].
  apply fp_generateTokens. by left.
Qed.

Lemma refresh_sessions token s :
  sessionsFrom (entitled env (RRefresh token) (users s)) s (refresh env token s).1.
Proof.
  pose proof (refresh_spec env token s) as HR. destruct (refresh env token s) as [s' [r|e]]; cbn [fst].
  - destruct HR as (p & sid & id & x & u & _ & _ & _ & (Hx & Ho & _) & _ & _ & _ &
      (x' & HS & Ho' & _) & _). intros k y Hy. left. rewrite HS in Hy.
    apply lookup_insert_Some in Hy as [[<- <-]|[_ Hy]]; [|eauto]. exists x. split; congruence.
  - destruct HR as [-> _]. by apply sessionsFrom_same.
Qed.

Lemma createUser_taken id u s :
  is_Some (users s !! id) → createUser id u s = (s, Throw PrismaP2002).
Proof. intros HS. unfold createUser. by rewrite bool_decide_eq_true_2. Qed.

Lemma createCompany_users n e s :
  users (createCompany env n e s).1 = users s.
Proof.
  unfold createCompany. rewrite gets_bind, ensure_bind.
  destruct (negb _); [|done]. rewrite modify_bind. by destruct s.
Qed.

Lemma startTrial_users c p s : users (startTrial env c p s).1 = users s.
Proof. unfold startTrial. destruct p; by destruct s. Qed.

Lemma register_sessions dto ip d s :
  sessionsFrom (entitled env (RRegister dto) (users s)) s (register env dto ip d s).1.
Proof.
  unfold register. rewrite gets_bind. destruct (userByEmail _ s); [by apply sessionsFrom_same|].
  rewrite gets_bind. destruct (users s !! newId env "users") as [v|] eqn:EU.
  - rewrite bind_run. unfold transaction at 1. rewrite bind_run.
    pose proof (createCompany_users (rd_companyName dto) None s) as HC.
    destruct (createCompany env (rd_companyName dto) None s) as [s1 [cid|e]];
      [|by apply sessionsFrom_same]. cbn [fst] in HC. rewrite bind_run, createUser_taken.
    + by apply sessionsFrom_same.
    + rewrite HC, EU. eauto.
  - as_footprint. apply footprint_bind; [exact _| |intros cid].
    + apply footprint_transaction; [exact _|]. footprint_auto.
    + apply footprint_bind; [exact _|apply fp_mail|intros _]. apply fp_generateTokens. left. exact EU.
Qed.
End AuthorisedRuns.
Section AuthorisedTheorem.
Context `{AuthLib} (env : AuthEnv).

Lemma refuseInactiveOrTotp_run u s :
  refuseInactiveOrTotp u s =
  (s, if isActive u then if totpEnabled u
        then Throw (UnauthorizedException "Two-factor authentication required") else Ok tt
      else Throw (UnauthorizedException "Account deactivated")).
Proof. unfold refuseInactiveOrTotp. rewrite ensure_bind. by destruct (isActive u), (totpEnabled u). Qed.

Lemma exchange_sessions uid ip d s :
  sessionsFrom (entitled env (RExchange uid) (users s)) s (createSessionForUser env uid ip d s).1.
Proof.
  unfold createSessionForUser. rewrite gets_bind. destruct (users s !! uid) as [u|] eqn:Eu;
    [|by apply sessionsFrom_same]. rewrite bind_run, refuseInactiveOrTotp_run.
  destruct (isActive u) eqn:EA; [|by apply sessionsFrom_same].
  destruct (totpEnabled u) eqn:ET; [by apply sessionsFrom_same|].
  as_footprint. apply fp_generateTokens. left. split; [done|]. by exists u.
Qed.

Lemma createGoogleUser_fails g e h inv plan s :
  is_Some (users s !! newId env "users") →
  ∃ x, createGoogleUser env g e h inv plan s = (s, Throw x).
Proof.
  intros HS. unfold createGoogleUser, transaction. rewrite bind_run.
  match goal with |- context [match ?m s with _ => _ end] =>
    assert (HC : users (m s).1 = users s); [|destruct (m s) as [s1 [place|x]]; [|eauto]] end.
  { destruct inv as [[iid i]|]; [done|]. rewrite bind_run.
    pose proof (createCompany_users env (gp_firstName g +:+ " " +:+ gp_lastName g) (Some e) s) as HC.
    destruct (createCompany _ _ _ s) as [s1 [cid|x]]; [|done]. cbn [fst] in HC. rewrite bind_run.
    pose proof (startTrial_users env cid plan s1) as HT.
    destruct (startTrial env cid plan s1) as [s2 [[]|x]]; simpl in *; congruence. }
  cbn [fst] in HC. rewrite bind_run, createUser_taken by (by rewrite HC). eauto.
Qed.

Lemma fp_createGoogleUser E g e h inv plan :
  footprint (sessionsFrom E) (createGoogleUser env g e h inv plan).
Proof. unfold createGoogleUser. footprint_auto. Qed.

Lemma createGoogleUser_id g e h inv plan s s' r :
  createGoogleUser env g e h inv plan s = (s', Ok r) → r.1 = newId env "users".
Proof.
  unfold createGoogleUser. intros E1%transaction_Ok. apply bind_Ok in E1 as (s2 & place & _ & E1). apply bind_Ok in E1 as (s3 & [] & _ & E1).
  apply bind_Ok in E1 as (s4 & [] & _ & E1). unfold mret, M_ret in E1. by simplify_eq.
Qed.

Lemma google_sessions g ip d s :
  sessionsFrom (entitled env (RGoogle g) (users s)) s (validateGoogleUser env g ip d s).1.
Proof.
  unfold validateGoogleUser, googleSession. rewrite gets_bind.
  destruct (userByGoogleId (gp_googleId g) s) as [[id u]|] eqn:EG.
  - apply find_first_Some in EG as [Hu HG]. apply bool_decide_eq_true in HG.
    rewrite bind_run, refuseInactiveOrTotp_run.
    destruct (isActive u) eqn:EA; [|by apply sessionsFrom_same].
    destruct (totpEnabled u) eqn:ET; [by apply sessionsFrom_same|].
    as_footprint. apply fp_generateTokens. left. right. exists u. split_and!; auto.
  - rewrite gets_bind. destruct (userByEmail _ s) as [[id u]|] eqn:EE.
    + apply find_first_Some in EE as [Hu HE]. apply bool_decide_eq_true in HE.
      rewrite bind_run, refuseInactiveOrTotp_run.
      destruct (isActive u) eqn:EA; [|by apply sessionsFrom_same].
      destruct (totpEnabled u) eqn:ET; [by apply sessionsFrom_same|].
      as_footprint. apply footprint_bind; [exact _|apply fp_updateUser|intros _].
      apply fp_generateTokens. left. right. exists u. split_and!; auto.
    + rewrite !gets_bind, bind_run.
      destruct (createGoogleUser env g _ _ _ _ s) as [s1 [r|x]] eqn:EC; cycle 1.
      { pose proof (fp_createGoogleUser (entitled env (RGoogle g) (users s)) g
          (normalizeEmail (gp_email g)) (bcryptHash (salt env) (randomHex env))
          (pendingInvitationFor env (normalizeEmail (gp_email g)) s)
          (match pendingInvitationFor env (normalizeEmail (gp_email g)) s with
           | Some _ => None | None => enterprisePlan s end) s) as HF. by rewrite EC in HF. }
      destruct (users s !! newId env "users") as [v|] eqn:EU.
      { destruct (createGoogleUser_fails g (normalizeEmail (gp_email g))
          (bcryptHash (salt env) (randomHex env))
          (pendingInvitationFor env (normalizeEmail (gp_email g)) s)
          (match pendingInvitationFor env (normalizeEmail (gp_email g)) s with
           | Some _ => None | None => enterprisePlan s end) s) as [x EX]; [by rewrite EU|].
        by rewrite EC in EX. }
      etransitivity.
      { pose proof (fp_createGoogleUser (entitled env (RGoogle g) (users s)) g
          (normalizeEmail (gp_email g)) (bcryptHash (salt env) (randomHex env))
          (pendingInvitationFor env (normalizeEmail (gp_email g)) s)
          (match pendingInvitationFor env (normalizeEmail (gp_email g)) s with
           | Some _ => None | None => enterprisePlan s end) s) as HF. rewrite EC in HF. exact HF. }
      cbn [fst]. as_footprint. apply fp_generateTokens. left. left.
      by rewrite (createGoogleUser_id _ _ _ _ _ _ _ _ EC).
Qed.

End AuthorisedTheorem.


(** ** The second factor, once *)

Section SecondFactor.
Context `{AuthLib}.

(** The temporary token of the first step. *)
Definition tempTokenOf (env : AuthEnv) (id : string) : string :=
  jwtSign (tempSecret env) tempTokenExpiration (now env) (tempPayload env id).

Lemma redisBestEffort_run env f s :
  redisBestEffort env f s =
  (match redisLink env with RedisUp => s <| redisDb ::= f |> | _ => s end, Ok tt).
Proof. unfold redisBestEffort. by destruct (redisLink env). Qed.

Lemma generateTokens_redis env uid e r cid sid ip d s :
  redisDb (generateTokens env uid e r cid sid ip d s).1 = redisDb s.
Proof.
  assert (HF : footprint (λ s s', redisDb s' = redisDb s) (generateTokens env uid e r cid sid ip d)).
  { unfold generateTokens.
    assert (PreOrder (λ s s' : AuthStore, redisDb s' = redisDb s)) by (split; [done|congruence]).
    footprint_auto; intros st.
    - unfold createUserSession. by destruct (_ !! _), st.
    - unfold rotateRefreshToken. destruct (_ !! _); [|done]. by destruct (bool_decide _), st. }
  apply HF.
Qed.

(** A step that succeeded has left its mark in Redis. *)
Lemma verify2fa_marks env dto ip d s s1 r p j :
  redisLink env = RedisUp → jwtVerify (tempSecret env) (now env) (vd_tempToken dto) = Some p →
  jti p = Some j → j ≠ EmptyString → verify2faToken env dto ip d s = (s1, Ok r) →
  (∀ t, t < now env + 360000 → redis_get t (usedKey j) (redisDb s1) = Some "1").
Proof.
  intros HR Hp Hj Hne. unfold verify2faToken. rewrite Hp, ensure_bind.
  case_bool_decide; [|done]. rewrite gets_bind. destruct (users s !! sub p) as [u|]; [|done].
  rewrite ensure_bind. destruct (isActive u && _ && _); [|done].
  unfold check2faLockout. rewrite bind_run, gets_bind. destruct (negb (lockedOut _ _ _ _)); [|done].
  unfold ensure at 1. unfold mret at 1, M_ret at 1.
  destruct (totpVerify _ _ _); cbn [negb]; cycle 1.
  { rewrite bind_run. unfold record2faFailure, recordFailure. by rewrite redisBestEffort_run. }
  rewrite bind_run. unfold consumeTempToken. rewrite Hj, HR. apply truthy_Some in Hne. rewrite Hne.
  unfold redis_setnx. destruct (redis_exists _ _ _); [done|]. rewrite ensure_bind, bind_run.
  unfold clear2faFailures, clearFailures. rewrite redisBestEffort_run, HR, bind_run.
  intros HOk t Ht. set (s2 := (s <| redisDb := _ |>) <| redisDb ::= _ |>) in HOk.
  assert (Hs2 : redis_get t (usedKey j) (redisDb s2) = Some "1").
  { subst s2. destruct s. unfold set. simpl. rewrite redis_get_del_ne, redis_get_set by done.
    by rewrite (proj2 (Z.ltb_lt _ _)) by lia. }
  assert (HS : redisDb (createUserSession env (sub p) d ip s2).1 = redisDb s2)
    by (unfold createUserSession; by destruct (_ !! _), s).
  destruct (createUserSession env (sub p) d ip s2) as [s3 [sid|e]]; [|done]. cbn [fst] in HS.
  pose proof (generateTokens_redis env (sub p) (email u) (role u) (companyId u) (Some sid) None None s3) as HG.
  rewrite HOk in HG. cbn [fst] in HG. by rewrite HG, HS.
Qed.

(** The temporary token of a password step opens one session: once a
    code has been accepted with it, every later attempt with it fails and opens
    no session, however good the code, until the token expires and after. *)
Theorem second_factor_once `{!JwtLaws} env0 env1 env2 id code1 code2 ip d s s1 r s2 :
  let tok := tempTokenOf env0 id in
  randomUUID env0 ≠ EmptyString → now env0 ≤ now env1 ≤ now env2 →
  tempSecret env1 = tempSecret env0 → tempSecret env2 = tempSecret env0 →
  redisLink env1 = RedisUp → redisLink env2 = RedisUp →
  verify2faToken env1 (mkVerify2faDto tok code1) ip d s = (s1, Ok r) →
  redisDb s2 !! usedKey (randomUUID env0) = redisDb s1 !! usedKey (randomUUID env0) →
  ∃ s3 e, verify2faToken env2 (mkVerify2faDto tok code2) ip d s2 = (s3, Throw e) ∧
    userSessions s3 = userSessions s2.
Proof.
  intros tok Hne Ht K1 K2 HR1 HR2 HOk HK. subst tok.
  assert (HV : ∀ env, tempSecret env = tempSecret env0 → now env0 ≤ now env →
    jwtVerify (tempSecret env) (now env) (tempTokenOf env0 id) =
    if now env <? now env0 + 300000 then Some (tempPayload env0 id) else None).
  { intros env -> Hge. unfold tempTokenOf. by rewrite (jwt_verify_sign _ _ 5 60). }
  assert (HL : now env1 < now env0 + 300000).
  { unfold verify2faToken in HOk. cbn [vd_tempToken] in HOk. rewrite HV in HOk by (done || lia).
    destruct (now env1 <? now env0 + 300000) eqn:E; [by apply Z.ltb_lt in E|done]. }
  assert (HM : ∀ t, t < now env1 + 360000 →
    redis_get t (usedKey (randomUUID env0)) (redisDb s1) = Some "1").
  { refine (verify2fa_marks env1 _ _ _ _ _ _ (tempPayload env0 id) (randomUUID env0) HR1 _ eq_refl Hne HOk). cbn [vd_tempToken].
    rewrite HV by (done || lia). by rewrite (proj2 (Z.ltb_lt _ _)) by lia. }
  unfold verify2faToken. cbn [vd_tempToken vd_token]. rewrite HV by (done || lia).
  destruct (now env2 <? now env0 + 300000) eqn:E2; [|by exists s2; eexists].
  apply Z.ltb_lt in E2. rewrite ensure_bind. cbn [jp_scope tempPayload].
  rewrite bool_decide_eq_true_2 by done. rewrite gets_bind. cbn [sub tempPayload].
  destruct (users s2 !! id) as [u|]; [|by exists s2; eexists]. rewrite ensure_bind.
  destruct (isActive u && _ && _); [|by exists s2; eexists].
  unfold check2faLockout. rewrite bind_run, gets_bind.
  destruct (negb (lockedOut _ _ _ _)); [|by exists s2; eexists].
  unfold ensure at 1. unfold mret at 1, M_ret at 1.
  destruct (totpVerify _ _ _); cbn [negb]; cycle 1.
  { rewrite bind_run. unfold record2faFailure, recordFailure. rewrite redisBestEffort_run, HR2.
    eexists _, _. split; [reflexivity|]. by destruct s2. }
  rewrite bind_run. unfold consumeTempToken. cbn [jti tempPayload]. rewrite HR2.
  apply truthy_Some in Hne. rewrite Hne. unfold redis_setnx, redis_exists.
  assert (redis_get (now env2) (usedKey (randomUUID env0)) (redisDb s2) = Some "1") as ->.
  { unfold redis_get. rewrite HK. apply HM. lia. }
  rewrite bool_decide_eq_true_2 by eauto. rewrite ensure_bind. eexists _, _. split; [reflexivity|].
  by destruct s2.
Qed.
End SecondFactor.

Lemma second_factor_once_witness :
  let env := exampleAuthEnv in
  let tok := @tempTokenOf exampleLib (env "0" 1000) "u1" in
  let s1 := run_state (@verify2faToken exampleLib (env "1" 2000) (mkVerify2faDto tok "123456") None None)
              (exampleAuthStore true) in
  ∃ s3 e, @verify2faToken exampleLib (env "2" 3000) (mkVerify2faDto tok "123456") None None s1 =
      (s3, Throw e) ∧ userSessions s3 = userSessions s1.
Proof.
  cbv zeta.
  destruct (@verify2faToken exampleLib (exampleAuthEnv "1" 2000)
    (mkVerify2faDto (@tempTokenOf exampleLib (exampleAuthEnv "0" 1000) "u1") "123456") None None
    (exampleAuthStore true)) as [s1 [r|e]] eqn:E; [|vm_compute in E; discriminate].
  unfold run_state. rewrite E.
  apply (@second_factor_once exampleLib exampleLib_jwt (exampleAuthEnv "0" 1000) (exampleAuthEnv "1" 2000)
    (exampleAuthEnv "2" 3000) "u1" "123456" "123456" None None (exampleAuthStore true) s1 r s1);
    [discriminate|split; discriminate|reflexivity..|exact E|reflexivity].
Defined.
