(* ===== verification/AccessGuards.v ===== *)
(** * common/guards, common/auth, modules/api-keys: who gets in

    JwtStrategy, DeviceTrackingAuthGuard, WsAuthService with its per-socket
    cache, ApiKeyGuard and ApiKeyOrJwtGuard with ApiKeysService, and the guards
    on roles, company scope, impersonation, platform admins and CSRF. *)

From S2P Require Import Prelude JsString Redis AuthModel Auth.

#[local] Open Scope string_scope.
#[local] Open Scope list_scope.
#[local] Open Scope Z_scope.

(** [request.user] once a guard has let the request in. *)
Record RequestUser := mkRequestUser {
  ru_id : option string;
  ru_email : option string;
  ru_role : option string;
  ru_companyId : option string;
  ru_type : string;
  ru_impersonatedBy : option string;
  ru_sessionId : option string
}.

Definition userPrincipal (id : string) (u : User) (impersonatedBy sessionId : option string) : RequestUser :=
  mkRequestUser (Some id) (Some (email u)) (Some (role_string (role u))) (Some (companyId u)) "user"
    impersonatedBy sessionId.

Section Guards.
Context `{AuthLib} (env : AuthEnv).

Definition unauthorized (msg : string) : exn := UnauthorizedException msg.

(** [assertNotRevoked], the same checks in JwtStrategy, DeviceTrackingAuthGuard
    and ApiKeyOrJwtGuard: a Redis that fails makes them throw. *)
Definition assertNotRevoked (p : JwtPayload) : M AuthStore unit :=
  match iat p with
  | Some i =>
      if i =? 0 then mret tt
      else match redisLink env with
      | RedisAbsent => mret tt
      | RedisDown => throw (OtherError "redis")
      | RedisUp =>
          revoked ← gets (λ s, tokenRevoked (now env) p (redisDb s));
          ensure (negb revoked) (unauthorized "Token has been revoked")
      end
  | None => mret tt
  end.

(** [payload.scope && payload.scope !== 'access'] *)
Definition wrongScope (p : JwtPayload) : bool :=
  truthy (jp_scope p) && negb (bool_decide (jp_scope p = Some "access")).

(** The active user of a token, in a company that is not deleted. *)
Definition activeUser (p : JwtPayload) : M AuthStore User :=
  found ← gets (λ s, users s !! sub p);
  match found with
  | None => throw (unauthorized "User not found or inactive")
  | Some u =>
      ensure (isActive u) (unauthorized "User not found or inactive") ;;
      gone ← gets (companyGone (companyId u));
      ensure (negb gone) (unauthorized "Company has been deleted — access revoked") ;;
      mret u
  end.

(** ** JwtStrategy.validate *)

Definition validate (p : JwtPayload) : M AuthStore RequestUser :=
  ensure (negb (wrongScope p)) (unauthorized "Invalid token scope") ;;
  assertNotRevoked p ;;
  if bool_decide (jp_type p = Some "platform_admin") then
    found ← gets (λ s, platformAdmins s !! sub p);
    match found with
    | Some a =>
        ensure (pa_isActive a) (unauthorized "Platform admin not found or inactive") ;;
        mret (mkRequestUser (Some (sub p)) (Some (pa_email a)) (Some "super_admin") None
                "platform_admin" None None)
    | None => throw (unauthorized "Platform admin not found or inactive")
    end
  else
    u ← activeUser p;
    mret (userPrincipal (sub p) u (jp_impersonatedBy p) (jp_sessionId p)).

(** passport verifies the signature, then calls [validate]. *)
Definition jwtStrategy (token : string) : M AuthStore RequestUser :=
  match jwtVerify (JWT_ACCESS_SECRET env) (now env) token with
  | None => throw (unauthorized "Invalid or expired token")
  | Some p => validate p
  end.

(** ** DeviceTrackingAuthGuard *)

Definition bearerOf (authorization : option string) : option string :=
  match authorization with
  | Some h => if startsWith "Bearer " h then Some (trim (sliceFrom 7 h)) else None
  | None => None
  end.

Definition checkDeviceSession (p : JwtPayload) (scope : string) : M AuthStore unit :=
  match jp_sessionId p with
  | Some sid =>
      if bool_decide (scope = "device_tracking") && truthy (jp_sessionId p) then
        found ← gets (λ s, userSessions s !! sid);
        match found with
        | Some x =>
            ensure (bool_decide (us_userId x = sub p)) (unauthorized "Session revoked") ;;
            ensure (negb (us_expiresAt x <? now env)) (unauthorized "Session expired")
        | None => throw (unauthorized "Session revoked")
        end
      else mret tt
  | None => mret tt
  end.

Definition deviceTrackingGuard (authorization : option string) : M AuthStore RequestUser :=
  match bearerOf authorization with
  | None => throw (unauthorized "Missing bearer token")
  | Some raw =>
      match jwtVerify (JWT_ACCESS_SECRET env) (now env) raw with
      | None => throw (unauthorized "Invalid or expired token")
      | Some p =>
          let scope := default "access" (jp_scope p) in
          ensure (bool_decide (scope = "access") || bool_decide (scope = "device_tracking"))
            (unauthorized "Invalid token scope") ;;
          ensure (negb (bool_decide (jp_type p = Some "platform_admin")))
            (unauthorized "Invalid token type") ;;
          assertNotRevoked p ;;
          u ← activeUser p;
          checkDeviceSession p scope ;;
          mret (userPrincipal (sub p) u None (jp_sessionId p))
      end
  end.

(** ** ApiKeysService, ApiKeyGuard, ApiKeyOrJwtGuard *)

Record CreateApiKeyDto := mkCreateApiKeyDto {
  ck_name : string; ck_scopes : list string; ck_expiresAt : option Z
}.
Record GeneratedKey := mkGeneratedKey { gk_key : string; gk_prefix : string; gk_hash : string }.

Definition generateApiKey : GeneratedKey :=
  let key := "dt_" +:+ randomHex env in mkGeneratedKey key (sliceTo 14 key) (sha256hex key).

Definition createApiKey (cid : string) (dto : CreateApiKeyDto) : M AuthStore (string * string) :=
  let k := generateApiKey in
  modify (λ s, s <| apiKeys ::= <[newId env "api_keys" :=
    mkApiKey cid (ck_name dto) (gk_hash k) (gk_prefix k) (ck_scopes dto) (ck_expiresAt dto) true None]> |>) ;;
  mret (gk_key k, gk_prefix k).

Definition removeApiKey (cid id : string) : M AuthStore unit :=
  found ← gets (λ s, apiKeys s !! id);
  match found with
  | Some k =>
      ensure (bool_decide (ak_companyId k = cid)) (NotFoundException "API key not found") ;;
      modify (λ s, s <| apiKeys ::= alter (λ k, k <| ak_isActive := false |>) id |>)
  | None => throw (NotFoundException "API key not found")
  end.

Definition API_KEY_SCOPES : list string := ["deliveries:read"; "tracking:read"; "tracking:sms-relay"].

Record ApiKeyAccess := mkApiKeyAccess {
  aa_companyId : string; aa_scopes : list string; aa_keyId : string
}.

(** The key record behind a header, live and unexpired. *)
Definition findApiKey (apiKey : string) : M AuthStore (string * ApiKey) :=
  found ← gets (λ s, find_first (λ _ k,
    bool_decide (ak_keyHash k = sha256hex apiKey) && ak_isActive k) (apiKeys s));
  match found with
  | None => throw (unauthorized "Invalid API key")
  | Some (id, k) =>
      ensure (negb (match ak_expiresAt k with Some t => t <? now env | None => false end))
        (unauthorized "API key has expired") ;;
      mret (id, k)
  end.

Definition touchApiKey (id : string) : M AuthStore unit :=
  modify (λ s, s <| apiKeys ::= alter (λ k, k <| ak_lastUsedAt := Some (now env) |>) id |>).

Definition apiKeyGuard (apiKey : option string) : M AuthStore ApiKeyAccess :=
  if truthy apiKey then
    kv ← findApiKey (default EmptyString apiKey);
    touchApiKey kv.1 ;;
    mret (mkApiKeyAccess (ak_companyId kv.2) (ak_scopes kv.2) kv.1)
  else throw (unauthorized "Missing X-API-Key header").

Definition validateApiKey (apiKey : string) (requiredScope : option string) :
    M AuthStore (RequestUser * option ApiKeyAccess) :=
  kv ← findApiKey apiKey;
  ensure (negb (truthy requiredScope)
          || bool_decide (default EmptyString requiredScope ∈ ak_scopes kv.2))
    (unauthorized ("API key missing required scope: " +:+ default EmptyString requiredScope)) ;;
  touchApiKey kv.1 ;;
  mret (mkRequestUser None None None (Some (ak_companyId kv.2)) "api_key" None None,
        Some (mkApiKeyAccess (ak_companyId kv.2) (ak_scopes kv.2) kv.1)).

Definition validateJwt (token : string) : M AuthStore RequestUser :=
  match jwtVerify (JWT_ACCESS_SECRET env) (now env) token with
  | None => throw (unauthorized "Invalid or expired JWT token")
  | Some p =>
      ensure (negb (wrongScope p)) (unauthorized "Invalid token scope") ;;
      ensure (negb (bool_decide (jp_type p = Some "platform_admin"))) (unauthorized "Invalid token type") ;;
      assertNotRevoked p ;;
      u ← activeUser p;
      mret (userPrincipal (sub p) u None (jp_sessionId p))
  end.

Definition apiKeyOrJwtGuard (apiKey authorization requiredScope : option string)
    (user : option RequestUser) : M AuthStore (option RequestUser * option ApiKeyAccess) :=
  if truthy apiKey then
    r ← validateApiKey (default EmptyString apiKey) requiredScope;
    mret (Some r.1, r.2)
  else match user with
  | Some u => mret (Some u, None)
  | None =>
      match bearerOf authorization with
      | Some token => u ← validateJwt token; mret (Some u, None)
      | None => throw (unauthorized
          "Authentication required. Provide JWT Bearer token or X-API-Key header.")
      end
  end.

(** ** WsAuthService *)

Inductive WsErrorCode := TOKEN_MISSING | TOKEN_INVALID | INVALID_PAYLOAD.

Record WsAuthCacheEntry := mkWsCache {
  wc_user : RequestUser;
  wc_token : string;
  wc_checkedAt : Z
}.

Inductive WsOutcome :=
  | WsOk (u : RequestUser) (cache : option WsAuthCacheEntry)
  | WsError (message : string) (code : WsErrorCode).

Definition WS_AUTH_CACHE_TTL_MS : Z := 10000.

(** [handshake.auth?.token || handshake.headers?.authorization] *)
Definition extractToken (authToken header : option string) : option string :=
  let auth := if truthy authToken then authToken else header in
  match auth with
  | Some a => if truthy auth then Some (if startsWith "Bearer " a then sliceFrom 7 a else a) else None
  | None => None
  end.

(** The revocation as the socket sees it: a failing Redis is ignored. *)
Definition wsRevoked (p : JwtPayload) (s : AuthStore) : bool :=
  match redisLink env with RedisUp => tokenRevoked (now env) p (redisDb s) | _ => false end.

(** The checks that are cached. *)
Definition wsFullCheck (token : string) (p : JwtPayload) (s : AuthStore) : WsOutcome :=
  if negb (truthy (Some (sub p))) || negb (truthy (jp_companyId p))
  then WsError "Invalid token: malformed payload" INVALID_PAYLOAD
  else if wsRevoked p s then WsError "Invalid token: revoked" TOKEN_INVALID
  else match users s !! sub p with
  | None => WsError "Invalid token: user inactive" TOKEN_INVALID
  | Some u =>
      if negb (isActive u) then WsError "Invalid token: user inactive" TOKEN_INVALID
      else if companyGone (companyId u) s then WsError "Invalid token: company deleted" TOKEN_INVALID
      else
        let user := userPrincipal (sub p) u None None in
        WsOk user (Some (mkWsCache user token (now env)))
  end.

Definition wsVerify (authToken header : option string) (cache : option WsAuthCacheEntry)
    (s : AuthStore) : WsOutcome :=
  match extractToken authToken header with
  | None => WsError "Invalid token: missing" TOKEN_MISSING
  | Some token =>
      if negb (truthy (Some token)) then WsError "Invalid token: missing" TOKEN_MISSING
      else match jwtVerify (JWT_ACCESS_SECRET env) (now env) token with
      | None => WsError "Invalid token: expired or invalid" TOKEN_INVALID
      | Some p =>
          if wrongScope p then WsError "Invalid token: wrong scope" TOKEN_INVALID
          else if bool_decide (jp_type p = Some "platform_admin")
          then WsError "Invalid token: wrong type" TOKEN_INVALID
          else match cache with
          | Some c =>
              if bool_decide (wc_token c = token) && (now env - wc_checkedAt c <? WS_AUTH_CACHE_TTL_MS)
              then WsOk (wc_user c) cache
              else wsFullCheck token p s
          | None => wsFullCheck token p s
          end
      end
  end.

(** ** RolesGuard, CompanyScopeGuard, BlockImpersonationGuard, SuperAdminGuard *)

Definition rolesGuard (requiredRoles : option (list string)) (user : option RequestUser) : bool :=
  match requiredRoles with
  | None | Some [] => true
  | Some l => match user with
              | Some u => match ru_role u with Some r => bool_decide (r ∈ l) | None => false end
              | None => false
              end
  end.

(** The company the request is bound to ([request.companyId]). *)
Definition companyScopeGuard (user : option RequestUser) (companyIdParam : option string) :
    result (option string) :=
  match user with
  | None => Throw (ForbiddenException "No company scope for user")
  | Some u =>
      if bool_decide (ru_type u = "platform_admin") then Ok None
      else if negb (truthy (ru_companyId u)) then
        Throw (ForbiddenException "No company scope for user")
      else if truthy companyIdParam && negb (bool_decide (companyIdParam = ru_companyId u)) then
        Throw (ForbiddenException "Cannot access data from another company")
      else Ok (ru_companyId u)
  end.

Definition blockImpersonationGuard (user : option RequestUser) : result bool :=
  match user with
  | Some u =>
      if truthy (ru_impersonatedBy u)
      then Throw (ForbiddenException "This action is not allowed during an impersonated session")
      else Ok true
  | None => Ok true
  end.

Definition superAdminGuard (user : option RequestUser) : result bool :=
  match user with
  | Some u => if bool_decide (ru_type u = "platform_admin") then Ok true
              else Throw (ForbiddenException "Accès réservé aux super-administrateurs")
  | None => Throw (ForbiddenException "Accès réservé aux super-administrateurs")
  end.

(** ** CsrfGuard *)

Record CsrfRequest := mkCsrfRequest {
  cr_method : string;
  cr_cookie : option string;   (** csrf-token *)
  cr_token : option string;    (** x-csrf-token *)
  cr_hmac : option string      (** x-csrf-hmac *)
}.

Definition timingSafeEquals (a b : string) : bool := bool_decide (a = b).

Definition csrfGuard (skip : bool) (secret devSecret : option string) (rq : CsrfRequest) : result bool :=
  if skip then Ok true
  else if bool_decide (cr_method rq ∈ ["GET"; "HEAD"; "OPTIONS"]) then Ok true
  else if negb (truthy (cr_cookie rq)) || negb (truthy (cr_token rq)) then
    Throw (ForbiddenException "Missing CSRF token")
  else
    let cookie := default EmptyString (cr_cookie rq) in
    if negb (timingSafeEquals cookie (default EmptyString (cr_token rq))) then
      Throw (ForbiddenException "Invalid CSRF token")
    else
      let key := if truthy secret then default EmptyString secret else default EmptyString devSecret in
      if negb (truthy (cr_hmac rq))
         || negb (timingSafeEquals (default EmptyString (cr_hmac rq)) (hmacHex key cookie)) then
        Throw (ForbiddenException "Invalid CSRF token signature")
      else Ok true.

(** [CsrfGuard.generateToken] *)
Definition generateCsrfToken (secret : string) : string * string :=
  (randomHex env, hmacHex secret (randomHex env)).

(** [validateCsrfSecret], at startup. *)
Definition validateCsrfSecret (secret nodeEnv cookieDomain : option string) : result unit :=
  let production := bool_decide (default "development" nodeEnv = "production") in
  if negb (truthy secret) && production then
    Throw (OtherError "CSRF_SECRET is required in production. Generate one with: openssl rand -hex 32")
  else if truthy cookieDomain && startsWith "https://" (default EmptyString (APP_URL env)) && production
  then Throw (OtherError "COOKIE_DOMAIN is set with an https APP_URL (SameSite=None)")
  else Ok tt.
End Guards.
