(* ===== verification/AccessProps.v ===== *)
(** * common/guards: correctness

    The entry points agree on who is let in, the device token opens nothing
    but the position upload, the socket cache, and API keys. *)

From S2P Require Import Prelude JsString Redis AuthModel Auth AuthExample AuthProps AuthSessionProps.
From S2P Require Import AccessGuards.

#[local] Open Scope string_scope.
#[local] Open Scope list_scope.
#[local] Open Scope Z_scope.

Section Agreement.
Context `{AuthLib} (env : AuthEnv).

(** The one condition behind every entry point: an active user of a company
    that is not deleted, with a token that has not been revoked. *)
Definition accountOpen (p : JwtPayload) (s : AuthStore) : bool :=
  negb (wsRevoked env p s) &&
  match users s !! sub p with
  | Some u => isActive u && negb (companyGone (companyId u) s)
  | None => false
  end.

Definition userToken (p : JwtPayload) : bool := negb (bool_decide (jp_type p = Some "platform_admin")).

Lemma tokenRevoked_no_iat t p db : iat p = None ∨ iat p = Some 0 → tokenRevoked t p db = false.
Proof. unfold tokenRevoked. by intros [-> | ->]. Qed.

Lemma assertNotRevoked_run p s :
  redisLink env ≠ RedisDown →
  assertNotRevoked env p s =
  (s, if wsRevoked env p s then Throw (unauthorized "Token has been revoked") else Ok tt).
Proof.
  intros HR. unfold assertNotRevoked, wsRevoked. destruct (iat p) as [i|] eqn:EI.
  - destruct (Z.eqb_spec i 0) as [->|].
    + rewrite tokenRevoked_no_iat by auto. by destruct (redisLink env).
    + destruct (redisLink env); [done..|]. rewrite gets_bind.
      by destruct (tokenRevoked _ _ _).
  - rewrite tokenRevoked_no_iat by auto. by destruct (redisLink env).
Qed.

Lemma activeUser_run p s :
  activeUser p s =
  (s, match users s !! sub p with
      | None => Throw (unauthorized "User not found or inactive")
      | Some u => if isActive u
                  then if companyGone (companyId u) s
                       then Throw (unauthorized "Company has been deleted — access revoked") else Ok u
                  else Throw (unauthorized "User not found or inactive")
      end).
Proof.
  unfold activeUser. rewrite gets_bind. destruct (users s !! sub p) as [u|]; [|done].
  rewrite ensure_bind. destruct (isActive u); [|done]. rewrite gets_bind, ensure_bind.
  by destruct (companyGone _ _).
Qed.

(** Revocation, then account. *)
Lemma account_run {A} p (k : User → A) s :
  redisLink env ≠ RedisDown →
  is_ok ((assertNotRevoked env p ;; u ← activeUser p; mret (k u)) s).2 = accountOpen p s ∧
  ((assertNotRevoked env p ;; u ← activeUser p; mret (k u)) s).1 = s.
Proof.
  intros HR. unfold accountOpen. rewrite bind_run, assertNotRevoked_run by done.
  destruct (wsRevoked env p s); [done|]. rewrite bind_run, activeUser_run.
  destruct (users s !! sub p) as [u|]; [|done]. destruct (isActive u); [|done].
  by destruct (companyGone _ _).
Qed.

(** The session a device token names. *)
Definition deviceSessionOk (p : JwtPayload) (s : AuthStore) : bool :=
  if truthy (jp_sessionId p) then
    match userSessions s !! default EmptyString (jp_sessionId p) with
    | Some x => bool_decide (us_userId x = sub p) && negb (us_expiresAt x <? now env)
    | None => false
    end
  else true.

Lemma checkDeviceSession_run p sc s :
  checkDeviceSession env p sc s =
  (s, if negb (bool_decide (sc = "device_tracking")) || deviceSessionOk p s then Ok tt
      else match userSessions s !! default EmptyString (jp_sessionId p) with
           | Some x => if bool_decide (us_userId x = sub p) then Throw (unauthorized "Session expired")
                       else Throw (unauthorized "Session revoked")
           | None => Throw (unauthorized "Session revoked")
           end).
Proof.
  unfold checkDeviceSession, deviceSessionOk. destruct (jp_sessionId p) as [sid|].
  2: { by rewrite orb_true_r. }
  change (default EmptyString (Some sid)) with sid.
  destruct (bool_decide (sc = "device_tracking")); [|done]. cbn [andb negb orb].
  destruct (truthy (Some sid)); [|done]. rewrite gets_bind.
  destruct (userSessions s !! sid) as [x|]; [|done]. rewrite ensure_bind.
  destruct (bool_decide (us_userId x = sub p)); [|done]. by destruct (us_expiresAt x <? now env).
Qed.

Lemma deviceChecks_run {A} p sc (k : User → A) s :
  redisLink env ≠ RedisDown →
  let r := (assertNotRevoked env p ;; u ← activeUser p; checkDeviceSession env p sc ;; mret (k u)) s in
  is_ok r.2 = accountOpen p s && (negb (bool_decide (sc = "device_tracking")) || deviceSessionOk p s) ∧
  r.1 = s.
Proof.
  intros HR. cbv zeta. unfold accountOpen. rewrite bind_run, assertNotRevoked_run by done.
  destruct (wsRevoked env p s); [done|]. rewrite bind_run, activeUser_run.
  destruct (users s !! sub p) as [u|]; [|done]. destruct (isActive u); [|done].
  destruct (companyGone _ _); [done|]. rewrite bind_run, checkDeviceSession_run. cbn [negb andb].
  destruct (negb _ || _); [done|]. destruct (userSessions s !! _) as [x|]; [|done].
  by destruct (bool_decide (us_userId x = sub p)).
Qed.

Lemma deviceGuard_run auth raw p s :
  bearerOf auth = Some raw → jwtVerify (JWT_ACCESS_SECRET env) (now env) raw = Some p →
  redisLink env ≠ RedisDown →
  is_ok (deviceTrackingGuard env auth s).2 =
    (userToken p && accountOpen p s &&
     match jp_scope p with
     | None => true
     | Some sc => bool_decide (sc = "access") || (bool_decide (sc = "device_tracking") && deviceSessionOk p s)
     end) ∧
  (deviceTrackingGuard env auth s).1 = s.
Proof.
  intros HB HV HR. unfold deviceTrackingGuard, userToken. rewrite HB, HV, ensure_bind.
  set (sc := default "access" (jp_scope p)).
  assert (HS : match jp_scope p with
     | None => true
     | Some sc => bool_decide (sc = "access") || (bool_decide (sc = "device_tracking") && deviceSessionOk p s)
     end = (bool_decide (sc = "access") || bool_decide (sc = "device_tracking")) &&
           (negb (bool_decide (sc = "device_tracking")) || deviceSessionOk p s)).
  { subst sc. destruct (jp_scope p) as [x|]; [|done].
    change (default "access" (Some x)) with x. destruct (decide (x = "device_tracking")) as [->|Hx]; [done|].
    rewrite (bool_decide_eq_false_2 (x = "device_tracking")) by done. cbn.
    by destruct (bool_decide (x = "access")). }
  rewrite HS. destruct (bool_decide (sc = "access") || bool_decide (sc = "device_tracking"));
    [|split; [by rewrite !andb_false_r|done]]. rewrite ensure_bind.
  destruct (bool_decide (jp_type p = Some "platform_admin")); [done|]. cbn [negb andb].
  by apply deviceChecks_run.
Qed.

Lemma validateJwt_run token p s :
  jwtVerify (JWT_ACCESS_SECRET env) (now env) token = Some p →
  bool_decide (jp_type p = Some "platform_admin") = false → redisLink env ≠ RedisDown →
  is_ok (validateJwt env token s).2 = accountOpen p s && negb (wrongScope p) ∧
  (validateJwt env token s).1 = s.
Proof.
  intros HV HU HR. unfold validateJwt. rewrite HV, ensure_bind.
  destruct (wrongScope p); [by rewrite andb_false_r|]. rewrite andb_true_r. cbn [negb].
  rewrite ensure_bind, HU. cbn [negb]. by apply account_run.
Qed.

Lemma apiKeyOrJwt_bearer auth token s :
  bearerOf auth = Some token →
  apiKeyOrJwtGuard env None auth None None s =
  (u ← validateJwt env token; mret (Some u, None)) s.
Proof. intros HB. unfold apiKeyOrJwtGuard. by rewrite HB. Qed.

Definition is_ws_ok (o : WsOutcome) : bool := match o with WsOk _ _ => true | _ => false end.

End Agreement.

Definition exampleToken (scope : option string) : string :=
  exampleSign "access" "15m" 1000
    (sessionPayload (exampleAuthEnv "0" 1000) "u1" "a@x.mg" "admin" "c1" "Ana" "Rabe" scope "s1").


(** ** The device token *)

Section DeviceToken.
Context `{AuthLib}.

Lemma issueDeviceTrackingToken_Ok env uid sid s s' tok t :
  issueDeviceTrackingToken env uid sid s = (s', Ok (tok, t)) →
  s' = s ∧ ∃ x u, sid = Some x ∧ x ≠ EmptyString ∧ users s !! uid = Some u ∧
    tok = jwtSign (JWT_ACCESS_SECRET env) (deviceTokenExpiration env) (now env)
      (sessionPayload env uid (email u) (role_string (role u)) (companyId u) (firstName u) (lastName u)
         (Some "device_tracking") x).
Proof.
  unfold issueDeviceTrackingToken. rewrite ensure_bind.
  destruct sid as [x|]; [|done]. destruct (truthy (Some x)) eqn:ET; [|done]. apply truthy_Some in ET.
  rewrite gets_bind. destruct (users s !! uid) as [u|]; [|done]. rewrite ensure_bind.
  destruct (isActive u); [|done]. unfold mret, M_ret. intros [= <- <- _]. split; [done|].
  by exists x, u.
Qed.

(** The thirty-day token of the tracking worker opens no other entry
    point, is refused once it expires, and is only accepted while the session
    it was issued for exists, is unexpired and belongs to its user, whose
    account and company are open: a logout of that session cuts it. *)
Theorem device_token_confined `{!JwtLaws} env env2 uid sid s s2 tok t v m auth at_ hdr :
  issueDeviceTrackingToken env uid sid s = (s, Ok (tok, t)) →
  durationParts (deviceTokenExpiration env) = Some (v, m) →
  JWT_ACCESS_SECRET env2 = JWT_ACCESS_SECRET env → now env ≤ now env2 →
  redisLink env2 ≠ RedisDown → bearerOf auth = Some tok → extractToken at_ hdr = Some tok →
  is_ok (jwtStrategy env2 tok s2).2 = false ∧
  is_ok (apiKeyOrJwtGuard env2 None auth None None s2).2 = false ∧
  is_ws_ok (wsVerify env2 at_ hdr None s2) = false ∧
  (is_ok (deviceTrackingGuard env2 auth s2).2 = true →
     now env2 < now env + v * m * 1000 ∧
     (∃ x y, sid = Some x ∧ userSessions s2 !! x = Some y ∧ us_userId y = uid ∧
        now env2 ≤ us_expiresAt y) ∧
     (∃ u, users s2 !! uid = Some u ∧ isActive u = true ∧ companyGone (companyId u) s2 = false)) ∧
  is_ok (deviceTrackingGuard env2 auth (run_state (logout uid sid) s2)).2 = false.
Proof.
  intros HI HD HK Ht HR HB HX.
  apply issueDeviceTrackingToken_Ok in HI as (_ & x & u & -> & Hx & Hu & Htok).
  set (p := sessionPayload env uid (email u) (role_string (role u)) (companyId u) (firstName u)
              (lastName u) (Some "device_tracking") x) in *.
  assert (HV : jwtVerify (JWT_ACCESS_SECRET env2) (now env2) tok =
               if now env2 <? now env + v * m * 1000 then Some p else None).
  { rewrite Htok, HK. by apply jwt_verify_sign. }
  destruct (now env2 <? now env + v * m * 1000) eqn:EX; cycle 1.
  { split_and!.
    - unfold jwtStrategy. by rewrite HV.
    - rewrite (apiKeyOrJwt_bearer env2 auth tok) by done. unfold validateJwt. by rewrite HV.
    - unfold wsVerify. rewrite HX, HV. by destruct (negb _).
    - unfold deviceTrackingGuard. by rewrite HB, HV.
    - unfold deviceTrackingGuard. by rewrite HB, HV. }
  apply Z.ltb_lt in EX.
  assert (HG : ∀ st, is_ok (deviceTrackingGuard env2 auth st).2 =
                     accountOpen env2 p st && deviceSessionOk env2 p st).
  { intros st. by destruct (deviceGuard_run env2 auth tok p st HB HV HR) as [-> _]. }
  apply truthy_Some in Hx. split_and!.
  - unfold jwtStrategy. by rewrite HV.
  - rewrite (apiKeyOrJwt_bearer env2 auth tok) by done. unfold validateJwt. by rewrite HV.
  - unfold wsVerify. rewrite HX, HV. by destruct (negb _).
  - rewrite HG. intros HO. apply andb_true_iff in HO as [HA HS]. split; [done|]. split.
    + unfold deviceSessionOk in HS. cbn [jp_sessionId p sessionPayload] in HS. rewrite Hx in HS.
      change (default EmptyString (Some x)) with x in HS.
      destruct (userSessions s2 !! x) as [y|] eqn:Ey; [|done].
      apply andb_true_iff in HS as [HS1 HS2]. apply bool_decide_eq_true in HS1.
      apply negb_true_iff, Z.ltb_ge in HS2. by exists x, y.
    + unfold accountOpen in HA. apply andb_true_iff in HA as [_ HA]. cbn [sub p sessionPayload] in HA.
      destruct (users s2 !! uid) as [w|]; [|done]. apply andb_true_iff in HA as [HA1 HA2].
      apply negb_true_iff in HA2. by exists w.
  - rewrite HG. apply andb_false_iff. right. unfold deviceSessionOk.
    cbn [jp_sessionId p sessionPayload]. rewrite Hx. change (default EmptyString (Some x)) with x.
    unfold run_state, logout. rewrite Hx, deleteSessions_run. cbn [fst].
    assert (HE : userSessions (s2 <| userSessions := delete_many
        (λ k x0, bool_decide (Some k = Some x ∧ us_userId x0 = uid))
        (update_many (λ k x0, bool_decide (Some k = Some x ∧ us_userId x0 = uid))
           (λ x0, x0 <| us_refreshTokenHash := None |>) (userSessions s2)) |>) !! x =
      userSessions s2 !! x ≫= (λ y, if bool_decide (Some x = Some x ∧ us_userId y = uid) then None else Some y)).
    { destruct s2. unfold set at 1. simpl. by rewrite lookup_deleted by (by intros [] ?). }
    rewrite HE. destruct (userSessions s2 !! x) as [y|]; [|done]. simpl mbind.
    destruct (bool_decide (Some x = Some x ∧ us_userId y = uid)) eqn:EB; simpl; [done|].
    apply bool_decide_eq_false in EB. cbn [sub p sessionPayload].
    rewrite (bool_decide_eq_false_2 (us_userId y = uid)); [done|]. intros E. by apply EB.
Qed.
End DeviceToken.

Definition exampleDeviceToken : string := exampleSign "access" "30d" 1000
  (sessionPayload (exampleAuthEnv "0" 1000) "u1" "a@x.mg" "admin" "c1" "Ana" "Rabe"
     (Some "device_tracking") "s1").

Lemma device_token_confined_witness :
  let env2 := exampleAuthEnv "9" 86401000 in
  let s := exampleSessionStore in
  let auth := Some ("Bearer " +:+ exampleDeviceToken) in
  is_ok (@jwtStrategy exampleLib env2 exampleDeviceToken s).2 = false ∧
  is_ok (@apiKeyOrJwtGuard exampleLib env2 None auth None None s).2 = false ∧
  is_ws_ok (@wsVerify exampleLib env2 None auth None s) = false ∧
  (is_ok (@deviceTrackingGuard exampleLib env2 auth s).2 = true →
     86401000 < 1000 + 30 * 86400 * 1000 ∧
     (∃ x y, Some "s1" = Some x ∧ userSessions s !! x = Some y ∧ us_userId y = "u1" ∧
        86401000 ≤ us_expiresAt y) ∧
     (∃ u, users s !! "u1" = Some u ∧ isActive u = true ∧ companyGone (companyId u) s = false)) ∧
  is_ok (@deviceTrackingGuard exampleLib env2 auth (run_state (logout "u1" (Some "s1")) s)).2 = false.
Proof.
  apply (@device_token_confined exampleLib exampleLib_jwt (exampleAuthEnv "0" 1000)
    (exampleAuthEnv "9" 86401000) "u1" (Some "s1") exampleSessionStore exampleSessionStore
    exampleDeviceToken (1 * 1000 + 30 * 86400 * 1000) 30 86400);
    try (vm_compute; reflexivity); discriminate.
Defined.
