(* ===== verification/SessionsRelay.v ===== *)
(** * modules/sessions and the native sign-in relay (oauth-relay.service.ts)

    The list, revocation and purge of sessions, and the relay that hands a
    one-time code, bound to a PKCE challenge, to the native application: in
    Redis, or in the memory of the process without it. *)

From S2P Require Import Prelude JsString Redis AuthModel Auth AuthExample.

#[local] Open Scope string_scope.
#[local] Open Scope list_scope.
#[local] Open Scope Z_scope.

(** ** SessionsService *)

Section Sessions.
Context (env : AuthEnv).

(** [findMany({ where: { userId, expiresAt: { gt } }, orderBy: lastActivity desc })] *)
Definition findAll (userId : string) : M AuthStore (list (string * UserSession)) :=
  gets (λ s, @merge_sort _ (λ a b : string * UserSession, us_lastActivity b.2 ≤ us_lastActivity a.2)
    (λ a b, Z.le_dec (us_lastActivity b.2) (us_lastActivity a.2))
    (find_many (λ _ x, bool_decide (us_userId x = userId ∧ now env < us_expiresAt x)) (userSessions s))).

Definition revokeSession (userId sessionId : string) : M AuthStore unit :=
  found ← gets (λ s, userSessions s !! sessionId);
  match found with
  | None => throw (NotFoundException "Session not found")
  | Some x =>
      ensure (bool_decide (us_userId x = userId))
        (ForbiddenException "Cannot revoke another user's session") ;;
      deleteSessions (λ k _, bool_decide (k = sessionId))
  end.

(** The ids of the sessions that were revoked. *)
Definition revokeAllSessions (userId : string) (exceptSessionId : option string) :
    M AuthStore (list string) :=
  sessions ← gets (λ s, find_many (λ _ x, bool_decide (us_userId x = userId)) (userSessions s));
  let ids := filter (λ k, Some k ≠ exceptSessionId) sessions.*1 in
  (if bool_decide (ids = []) then mret tt else deleteSessions (λ k _, bool_decide (k ∈ ids))) ;;
  mret ids.

Definition getLoginHistory (userId : string) (limit : nat) : M AuthStore (list UserSession) :=
  gets (λ s, take limit (@merge_sort _ (λ a b : UserSession, us_createdAt b ≤ us_createdAt a)
    (λ a b, Z.le_dec (us_createdAt b) (us_createdAt a))
    (find_many (λ _ x, bool_decide (us_userId x = userId)) (userSessions s)).*2)).

Definition purgeExpiredSessions : M AuthStore Z :=
  acquired ← (λ s, let '(db, ok) := acquireCronLock (redisLink env) (instanceId env)
                     "sessions.purgeExpired" 3000 (now env) (redisDb s) in
                   (s <| redisDb := db |>, Ok ok));
  if (acquired : bool) then
    count ← gets (λ s, count_where (λ _ x, us_expiresAt x <? now env) (userSessions s));
    modify (λ s, s <| userSessions ::= delete_many (λ _ x, us_expiresAt x <? now env) |>) ;;
    mret count
  else mret 0.
End Sessions.

(** ** OAuthRelayService *)

Record StoredCode := mkStoredCode { sc_userId : string; sc_challenge : string }.

(** The two maps of the process, used when Redis is not configured; an entry
    carries the end of its life. *)
Record RelayStore := mkRelayStore {
  relayRedis : gmap string ((string + StoredCode) * Z);
  memRelays : gmap string (string * Z);
  memCodes : gmap string (StoredCode * Z)
}.

Definition RELAY_TTL_SECONDS : Z := 10 * 60.
Definition CODE_TTL_SECONDS : Z := 60.
Definition RELAY_KEY (id : string) : string := "oauth_relay:" +:+ id.
Definition CODE_KEY (code : string) : string := "oauth_code:" +:+ code.

Section Relay.
Context `{AuthLib} (hasRedis : bool).

(** [SET k v EX ttl] and the script that reads and deletes a key. *)
Definition relaySet (t : Z) (k : string) (v : string + StoredCode) (ttl : Z) : M RelayStore unit :=
  modify (λ s, s <| relayRedis ::= <[k := (v, t + ttl * 1000)]> |>).
Definition getDel (t : Z) (k : string) : M RelayStore (option (string + StoredCode)) := λ s,
  match relayRedis s !! k with
  | Some (v, e) => if t <? e then (s <| relayRedis ::= delete k |>, Ok (Some v)) else (s, Ok None)
  | None => (s, Ok None)
  end.

Definition begin (t : Z) (relayId codeChallenge : string) : M RelayStore string :=
  (if hasRedis then relaySet t (RELAY_KEY relayId) (inl codeChallenge) RELAY_TTL_SECONDS
   else modify (λ s, s <| memRelays ::= <[relayId := (codeChallenge, t + RELAY_TTL_SECONDS * 1000)]> |>)) ;;
  mret relayId.

Definition isRelayValid (t : Z) (relayId : string) : M RelayStore bool :=
  if hasRedis then
    gets (λ s, match relayRedis s !! RELAY_KEY relayId with Some (_, e) => t <? e | None => false end)
  else
    found ← gets (λ s, memRelays s !! relayId);
    match found with
    | None => mret false
    | Some (_, e) =>
        if e <? t then modify (λ s, s <| memRelays ::= delete relayId |>) ;; mret false
        else mret true
    end.

(** The challenge of a relay, which is consumed. *)
Definition takeRelay (t : Z) (relayId : string) : M RelayStore (option string) :=
  if hasRedis then
    raw ← getDel t (RELAY_KEY relayId);
    mret (match raw with Some (inl c) => Some c | _ => None end)
  else
    found ← gets (λ s, memRelays s !! relayId);
    match found with
    | None => mret None
    | Some (c, e) =>
        if e <? t then mret None
        else modify (λ s, s <| memRelays ::= delete relayId |>) ;; mret (Some c)
    end.

Definition issueCode (t : Z) (code relayId userId : string) : M RelayStore (option string) :=
  relay ← takeRelay t relayId;
  match relay with
  | None => mret None
  | Some challenge =>
      (if hasRedis
       then relaySet t (CODE_KEY code) (inr (mkStoredCode userId challenge)) CODE_TTL_SECONDS
       else modify (λ s, s <| memCodes ::=
              <[code := (mkStoredCode userId challenge, t + CODE_TTL_SECONDS * 1000)]> |>)) ;;
      mret (Some code)
  end.

(** The entry of a code, which is consumed whatever comes next. *)
Definition takeCode (t : Z) (code : string) : M RelayStore (option StoredCode) :=
  if hasRedis then
    raw ← getDel t (CODE_KEY code);
    mret (match raw with Some (inr c) => Some c | _ => None end)
  else
    found ← gets (λ s, memCodes s !! code);
    match found with
    | None => mret None
    | Some (c, e) =>
        modify (λ s, s <| memCodes ::= delete code |>) ;;
        mret (if e <? t then None else Some c)
    end.

Definition deriveChallenge (verifier : string) : string := sha256base64url verifier.
Definition safeEqual (a b : string) : bool := bool_decide (a = b).

Definition verifyAndConsumeCode (t : Z) (code verifier : string) : M RelayStore (option string) :=
  entry ← takeCode t code;
  mret (match entry with
        | Some e => if safeEqual (deriveChallenge verifier) (sc_challenge e) then Some (sc_userId e) else None
        | None => None
        end).

Definition cleanupMemory (t : Z) : M RelayStore unit :=
  modify (λ s, s <| memRelays ::= filter (λ kv, ¬ kv.2.2 < t) |>
                 <| memCodes ::= filter (λ kv, ¬ kv.2.2 < t) |>).
End Relay.
