(* ===== verification/RelayProps.v ===== *)
(** * The native sign-in relay: correctness *)

From S2P Require Import Prelude JsString Redis AuthModel Auth AuthExample SessionsRelay.

#[local] Open Scope string_scope.
#[local] Open Scope list_scope.
#[local] Open Scope Z_scope.

Inductive RelayOp :=
  | OBegin (relayId codeChallenge : string)
  | OValid (relayId : string)
  | OIssue (code relayId userId : string)
  | OVerify (code verifier : string)
  | OCleanup.

Section RelayProps.
Context `{AuthLib} (hasRedis : bool).

Definition runOp (t : Z) (op : RelayOp) : M RelayStore unit :=
  match op with
  | OBegin r c => begin hasRedis t r c ;; mret tt
  | OValid r => isRelayValid hasRedis t r ;; mret tt
  | OIssue code r u => issueCode hasRedis t code r u ;; mret tt
  | OVerify code v => verifyAndConsumeCode hasRedis t code v ;; mret tt
  | OCleanup => cleanupMemory t
  end.

(** The relay over a history of timed calls, oldest first. *)
Definition runOps (ops : list (Z * RelayOp)) (s : RelayStore) : RelayStore :=
  foldl (λ s op, run_state (runOp op.1 op.2) s) s ops.

Definition emptyRelay : RelayStore := mkRelayStore ∅ ∅ ∅.

(** Where the entries come from. *)
Definition relayFrom (h : list (Z * RelayOp)) (r c : string) (e : Z) : Prop :=
  ∃ t0, (t0, OBegin r c) ∈ h ∧ e = t0 + 600000.
Definition codeFrom (h : list (Z * RelayOp)) (code : string) (x : StoredCode) (e : Z) : Prop :=
  ∃ t1 r, (t1, OIssue code r (sc_userId x)) ∈ h ∧ e = t1 + 60000 ∧
    ∃ t0, (t0, OBegin r (sc_challenge x)) ∈ h.

Record traced (h : list (Z * RelayOp)) (s : RelayStore) : Prop := mkTraced {
  tr_relay k c e : relayRedis s !! k = Some (inl c, e) → ∃ r, k = RELAY_KEY r ∧ relayFrom h r c e;
  tr_code k x e : relayRedis s !! k = Some (inr x, e) → ∃ code, k = CODE_KEY code ∧ codeFrom h code x e;
  tr_memRelay r c e : memRelays s !! r = Some (c, e) → relayFrom h r c e;
  tr_memCode code x e : memCodes s !! code = Some (x, e) → codeFrom h code x e
}.

Lemma relayFrom_mono h op r c e : relayFrom h r c e → relayFrom (h ++ [op]) r c e.
Proof. intros (t0 & Hin & ->). exists t0. split; [apply elem_of_app; by left|done]. Qed.
Lemma codeFrom_mono h op code x e : codeFrom h code x e → codeFrom (h ++ [op]) code x e.
Proof.
  intros (t1 & r & Hin & -> & t0 & H0). exists t1, r. split; [apply elem_of_app; by left|].
  split; [done|]. exists t0. apply elem_of_app. by left.
Qed.

Lemma traced_mono h op s : traced h s → traced (h ++ [op]) s.
Proof.
  intros [A B C D]. split.
  - intros k c e Hk. destruct (A k c e Hk) as (r & -> & Hr). exists r. eauto using relayFrom_mono.
  - intros k x e Hk. destruct (B k x e Hk) as (code & -> & Hr). exists code. eauto using codeFrom_mono.
  - eauto using relayFrom_mono.
  - eauto using codeFrom_mono.
Qed.

(** Deleting entries keeps them traced. *)
Definition smaller (s s' : RelayStore) : Prop :=
  relayRedis s' ⊆ relayRedis s ∧ memRelays s' ⊆ memRelays s ∧ memCodes s' ⊆ memCodes s.
#[export] Instance smaller_preorder : PreOrder smaller.
Proof.
  split; [intros s; split_and!; done|]. intros a b c (?&?&?) (?&?&?).
  split_and!; by etransitivity.
Qed.

Lemma traced_smaller h s s' : traced h s → smaller s s' → traced h s'.
Proof.
  intros [A B C D] (H1 & H2 & H3). split; eauto using lookup_weaken.
Qed.

Lemma footprint_getDel t k : footprint smaller (getDel t k).
Proof.
  intros s. unfold getDel. destruct (relayRedis s !! k) as [[v e]|]; [|done].
  destruct (t <? e); [|done]. destruct s. split_and!; [apply delete_subseteq|done|done].
Qed.

Lemma smaller_relay s r : smaller s (s <| memRelays ::= delete r |>).
Proof. destruct s. split_and!; [done|apply delete_subseteq|done]. Qed.
Lemma smaller_code s r : smaller s (s <| memCodes ::= delete r |>).
Proof. destruct s. split_and!; [done|done|apply delete_subseteq]. Qed.

Lemma footprint_isRelayValid t r : footprint smaller (isRelayValid hasRedis t r).
Proof.
  unfold isRelayValid. footprint_auto. apply smaller_relay.
Qed.
Lemma footprint_takeCode t c : footprint smaller (takeCode hasRedis t c).
Proof.
  unfold takeCode. footprint_auto; apply footprint_getDel || apply smaller_code.
Qed.
Lemma footprint_takeRelay t r : footprint smaller (takeRelay hasRedis t r).
Proof.
  unfold takeRelay. footprint_auto; apply footprint_getDel || apply smaller_relay.
Qed.

(** The challenge an exchange starts from. *)
Lemma takeRelay_from h t r s s' c :
  traced h s → takeRelay hasRedis t r s = (s', Ok (Some c)) → ∃ t0, (t0, OBegin r c) ∈ h.
Proof.
  intros [A _ C _]. unfold takeRelay. destruct hasRedis.
  - rewrite bind_run. unfold getDel. destruct (relayRedis s !! RELAY_KEY r) as [[v e]|] eqn:E; [|done].
    destruct (t <? e); [|done]. destruct v as [c'|]; [|done]. unfold mret, M_ret. intros [= _ ->].
    destruct (A _ _ _ E) as (r' & Hr & t0 & Hin & _). apply append_inj_l in Hr as <-. eauto.
  - rewrite gets_bind. destruct (memRelays s !! r) as [[c' e]|] eqn:E; [|done].
    destruct (e <? t); [done|]. rewrite modify_bind. unfold mret, M_ret. intros [= _ ->].
    destruct (C _ _ _ E) as (t0 & Hin & _). eauto.
Qed.

(** The entry an exchange ends with: unexpired, and gone afterwards. *)
Lemma takeCode_from h t code s s' x :
  traced h s → takeCode hasRedis t code s = (s', Ok (Some x)) →
  ∃ e, codeFrom h code x e ∧ t ≤ e ∧
    (if hasRedis then relayRedis s' !! CODE_KEY code = None else memCodes s' !! code = None).
Proof.
  intros [_ B _ D]. unfold takeCode. destruct hasRedis.
  - rewrite bind_run. unfold getDel. destruct (relayRedis s !! CODE_KEY code) as [[v e]|] eqn:E; [|done].
    destruct (t <? e) eqn:Et; [|done]. destruct v as [|x']; [done|]. unfold mret, M_ret.
    intros [= <- ->]. destruct (B _ _ _ E) as (c' & Hc & HF). apply append_inj_l in Hc as <-.
    apply Z.ltb_lt in Et. exists e. split_and!; [done|lia|]. destruct s. simpl. apply lookup_delete_eq.
  - rewrite gets_bind. destruct (memCodes s !! code) as [[x' e]|] eqn:E; [|done].
    rewrite modify_bind. destruct (e <? t) eqn:Et; [done|]. unfold mret, M_ret.
    intros [= <- ->]. apply Z.ltb_ge in Et. exists e. split_and!; [by eapply D|done|].
    destruct s. simpl. apply lookup_delete_eq.
Qed.

Lemma traced_step h t op s :
  traced h s → traced (h ++ [(t, op)]) (run_state (runOp t op) s).
Proof.
  intros HT. pose proof (traced_mono h (t, op) s HT) as HT'. unfold run_state.
  assert (HIn : (t, op) ∈ h ++ [(t, op)]) by (apply elem_of_app; right; by left).
  destruct op as [r c|r|code r u|code v|]; cbn [runOp].
  - unfold begin. rewrite !bind_run. destruct HT' as [A B C D].
    destruct hasRedis; unfold relaySet, modify; cbn; split; destruct s; simpl in *; try eauto.
    + intros k c' e. rewrite lookup_insert_Some. intros [[<- [= -> <-]]|[_ Hk]]; [|eauto].
      exists r. split; [done|]. exists t. split; [done|]. unfold RELAY_TTL_SECONDS. lia.
    + intros k x e. rewrite lookup_insert_Some. intros [[<- [=]]|[_ Hk]]; eauto.
    + intros r' c' e. rewrite lookup_insert_Some. intros [[<- [= -> <-]]|[_ Hk]]; [|eauto].
      exists t. split; [done|]. unfold RELAY_TTL_SECONDS. lia.
  - eapply traced_smaller; [exact HT'|]. rewrite bind_run.
    pose proof (footprint_isRelayValid t r s) as HF.
    by destruct (isRelayValid hasRedis t r s) as [s' [b|e]].
  - rewrite bind_run. unfold issueCode. rewrite bind_run.
    pose proof (footprint_takeRelay t r s) as HF.
    destruct (takeRelay hasRedis t r s) as [s' [[c|]|e]] eqn:ET; cbn [fst] in HF;
      try (by apply (traced_smaller _ _ _ HT')).
    destruct (takeRelay_from h t r s s' c HT ET) as [t0 H0].
    assert (HC : codeFrom (h ++ [(t, OIssue code r u)]) code (mkStoredCode u c) (t + 60000)).
    { exists t, r. split_and!; [done|done|]. exists t0. apply elem_of_app. by left. }
    destruct (traced_smaller _ _ _ HT' HF) as [A B C D].
    destruct hasRedis; unfold relaySet, modify; cbn; split; destruct s'; simpl in *; try eauto.
    + intros k c' e. rewrite lookup_insert_Some. intros [[<- [=]]|[_ Hk]]; eauto.
    + intros k x e. rewrite lookup_insert_Some. intros [[<- [= <- <-]]|[_ Hk]]; [|eauto]. by exists code.
    + intros k x e. rewrite lookup_insert_Some. intros [[<- [= <- <-]]|[_ Hk]]; [done|eauto].
  - eapply traced_smaller; [exact HT'|]. rewrite bind_run. unfold verifyAndConsumeCode. rewrite bind_run.
    pose proof (footprint_takeCode t code s) as HF.
    by destruct (takeCode hasRedis t code s) as [s' [b|e]].
  - eapply traced_smaller; [exact HT'|]. destruct s. unfold cleanupMemory, modify. cbn.
    split_and!; [done|apply map_filter_subseteq..].
Qed.

Lemma traced_run ops : ∀ h s, traced h s → traced (h ++ ops) (runOps ops s).
Proof.
  induction ops as [|[t op] ops IH]; intros h s HT; [by rewrite app_nil_r|].
  change ((t, op) :: ops) with ([(t, op)] ++ ops). rewrite app_assoc. by apply IH, traced_step.
Qed.

Lemma traced_empty : traced [] emptyRelay.
Proof. split; intros ???; unfold emptyRelay; cbn; by rewrite lookup_empty. Qed.

(** A code that is not stored, and is not issued again, stays absent. *)
Definition codeAbsent (code : string) (s : RelayStore) : Prop :=
  if hasRedis then relayRedis s !! CODE_KEY code = None else memCodes s !! code = None.

Lemma codeAbsent_smaller code s s' : codeAbsent code s → smaller s s' → codeAbsent code s'.
Proof.
  unfold codeAbsent. intros HA (H1 & H2 & H3).
  destruct hasRedis; eauto using lookup_weaken_None.
Qed.

Lemma relay_code_ne r code : RELAY_KEY r ≠ CODE_KEY code.
Proof. unfold RELAY_KEY, CODE_KEY. done. Qed.

Lemma codeAbsent_step code t op s :
  (∀ r u, op ≠ OIssue code r u) → codeAbsent code s → codeAbsent code (run_state (runOp t op) s).
Proof.
  intros HN HA. unfold run_state. destruct op as [r c|r|code' r u|code' v|]; cbn [runOp].
  - unfold begin. rewrite !bind_run. unfold codeAbsent in *.
    destruct hasRedis; unfold relaySet, modify; destruct s; simpl in *; [|done].
    by rewrite lookup_insert_ne.
  - eapply codeAbsent_smaller; [exact HA|]. rewrite bind_run.
    pose proof (footprint_isRelayValid t r s) as HF.
    by destruct (isRelayValid hasRedis t r s) as [s' [b|e]].
  - rewrite bind_run. unfold issueCode. rewrite bind_run.
    pose proof (footprint_takeRelay t r s) as HF.
    destruct (takeRelay hasRedis t r s) as [s' [[c|]|e]]; cbn [fst] in HF;
      pose proof (codeAbsent_smaller _ _ _ HA HF) as HA'; try done.
    assert (Hne : code' ≠ code) by (intros ->; by eapply HN).
    unfold codeAbsent in *. destruct hasRedis; unfold relaySet, modify; destruct s'; simpl in *.
    + rewrite lookup_insert_ne; [done|]. intros E. by apply append_inj_l in E.
    + by rewrite lookup_insert_ne.
  - eapply codeAbsent_smaller; [exact HA|]. rewrite bind_run. unfold verifyAndConsumeCode. rewrite bind_run.
    pose proof (footprint_takeCode t code' s) as HF.
    by destruct (takeCode hasRedis t code' s) as [s' [b|e]].
  - eapply codeAbsent_smaller; [exact HA|]. destruct s. unfold cleanupMemory, modify. cbn.
    split_and!; [done|apply map_filter_subseteq..].
Qed.

Lemma codeAbsent_run code ops : ∀ s,
  (∀ t r u, (t, OIssue code r u) ∉ ops) → codeAbsent code s → codeAbsent code (runOps ops s).
Proof.
  induction ops as [|[t op] ops IH]; intros s HN HA; [done|]. cbn. apply IH.
  - intros t' r u Hin. apply (HN t' r u). by right.
  - apply codeAbsent_step; [|done]. intros r u ->. apply (HN t r u). left.
Qed.

Lemma takeCode_absent t code s :
  codeAbsent code s → ∃ s', takeCode hasRedis t code s = (s', Ok None).
Proof.
  unfold codeAbsent, takeCode. destruct hasRedis; intros HA.
  - rewrite bind_run. unfold getDel. rewrite HA. eauto.
  - rewrite gets_bind, HA. eauto.
Qed.

(** An exchange code opens a session for the user it was issued to, once,
    within its minute, and only for who holds the verifier of the challenge
    the relay began with, with Redis or in memory alike. *)
Theorem oauth_code_once ops code verifier t uid s1 ops2 t2 v2 :
  verifyAndConsumeCode hasRedis t code verifier (runOps ops emptyRelay) = (s1, Ok (Some uid)) →
  (∀ t r u, (t, OIssue code r u) ∉ ops2) →
  (∃ t0 t1 r, (t0, OBegin r (deriveChallenge verifier)) ∈ ops ∧ (t1, OIssue code r uid) ∈ ops ∧
     t ≤ t1 + 60000) ∧
  run_result (verifyAndConsumeCode hasRedis t2 code v2) (runOps ops2 s1) = Ok None.
Proof.
  unfold verifyAndConsumeCode. rewrite bind_run. intros HV HN.
  pose proof (traced_run ops [] emptyRelay traced_empty) as HT. cbn [app] in HT.
  destruct (takeCode hasRedis t code (runOps ops emptyRelay)) as [s' [[x|]|e]] eqn:EC; [|done..].
  unfold mret, M_ret in HV. unfold safeEqual in HV.
  destruct (bool_decide (deriveChallenge verifier = sc_challenge x)) eqn:EB; [|done].
  apply bool_decide_eq_true in EB. injection HV as <- <-.
  destruct (takeCode_from ops t code _ _ _ HT EC) as (e & (t1 & r & Hi & -> & t0 & Hb) & Ht & HA).
  split.
  - exists t0, t1, r. rewrite EB. done.
  - assert (HA' : codeAbsent code s') by exact HA.
    destruct (takeCode_absent t2 code _ (codeAbsent_run code ops2 s' HN HA')) as [s3 E3].
    unfold run_result. by rewrite bind_run, E3.
Qed.
End RelayProps.

Lemma oauth_code_once_witness :
  let ops := [(0, OBegin "r" "b64:v"); (1000, OIssue "c" "r" "u1")] in
  let s1 := run_state (@verifyAndConsumeCode exampleLib true 2000 "c" "v") (@runOps exampleLib true ops emptyRelay) in
  (∃ t0 t1 r, (t0, OBegin r (@deriveChallenge exampleLib "v")) ∈ ops ∧ (t1, OIssue "c" r "u1") ∈ ops ∧
     2000 ≤ t1 + 60000) ∧
  run_result (@verifyAndConsumeCode exampleLib true 3000 "c" "v") (@runOps exampleLib true [] s1) = Ok None.
Proof.
  apply (@oauth_code_once exampleLib true [(0, OBegin "r" "b64:v"); (1000, OIssue "c" "r" "u1")]
    "c" "v" 2000 "u1"); [vm_compute; reflexivity|].
  intros t r u Hin. by apply not_elem_of_nil in Hin.
Defined.
