(* ===== verification/Invitations.v ===== *)
(** * modules/invitations: InvitationsService

    Invitations by e-mail, their tokens kept as hashes, and the creation of the
    account that accepts one. *)

From S2P Require Import Prelude JsString Redis AuthModel Auth.

#[local] Open Scope string_scope.
#[local] Open Scope list_scope.
#[local] Open Scope Z_scope.

Definition INVITATION_EXPIRY_MS : Z := 7 * 24 * 60 * 60 * 1000.

Record AcceptDto := mkAcceptDto {
  ac_password : string; ac_firstName : string; ac_lastName : string; ac_phone : option string
}.

(** What [accept] answers: no hash nor secret of the account. *)
Record AcceptedUser := mkAcceptedUser {
  au_id : string; au_email : string; au_firstName : string; au_lastName : string;
  au_phone : option string; au_role : UserRole; au_isActive : bool; au_companyId : string
}.

(** The partial unique index on pending invitations and the one on tokens. *)
Definition invitationClashes (i : Invitation) (t : gmap string Invitation) : bool :=
  bool_decide (find_many (λ _ j, bool_decide (in_token j = in_token i ∨
    (in_status j = inv_pending ∧ in_companyId j = in_companyId i ∧ in_email j = in_email i))) t ≠ []).

Section InvitationsService.
Context `{AuthLib} (env : AuthEnv).

Definition hashInvitationToken (rawToken : string) : string := sha256hex rawToken.

(** EmailService failures are caught. *)
Definition sendInvitationEmail (e rawToken : string) (r : UserRole) : M AuthStore unit :=
  let base := if truthy (APP_URL env) then default EmptyString (APP_URL env) else "http://localhost:5173" in
  sendAuthMail (InvitationMail e (base +:+ "/auth/invite/" +:+ rawToken) r).

Definition msg_pending : string := "An invitation is already pending for this email".

Definition insertInvitation (id : string) (i : Invitation) : M AuthStore unit := λ s,
  if bool_decide (is_Some (invitations s !! id)) || invitationClashes i (invitations s)
  then (s, Throw PrismaP2002)
  else (s <| invitations ::= <[id := i]> |>, Ok tt).

Definition createInvitation (cid invitedById rawEmail : string) (r : UserRole) :
    M AuthStore (string * Invitation) :=
  let e := normalizeEmail rawEmail in
  existing ← gets (userByEmail e);
  match existing with
  | Some _ => throw (ConflictException
      "Cette adresse email est déjà associée à un compte sur la plateforme")
  | None =>
      pending ← gets (λ s, find_first (λ _ i,
        bool_decide (in_email i = e ∧ in_companyId i = cid ∧ in_status i = inv_pending)) (invitations s));
      match pending with
      | Some _ => throw (ConflictException msg_pending)
      | None =>
          let id := newId env "invitations" in
          let i := mkInvitation e r (hashInvitationToken (randomHex env)) inv_pending cid invitedById
                     (now env + INVITATION_EXPIRY_MS) None (now env) in
          try_catch (insertInvitation id i)
            (λ x, match x with
                  | PrismaP2002 => throw (ConflictException msg_pending)
                  | _ => throw x
                  end) ;;
          sendInvitationEmail e (randomHex env) r ;;
          mret (id, i)
      end
  end.

(** [findMany({ where: { companyId }, orderBy: { createdAt: 'desc' } })] *)
Definition findAllInvitations (cid : string) : M AuthStore (list (string * Invitation)) :=
  gets (λ s, @merge_sort _ (λ a b : string * Invitation, in_createdAt b.2 ≤ in_createdAt a.2)
    (λ a b, Z.le_dec (in_createdAt b.2) (in_createdAt a.2))
    (find_many (λ _ i, bool_decide (in_companyId i = cid)) (invitations s))).

Definition findByToken (rawToken : string) : M AuthStore (string * Invitation) :=
  found ← gets (λ s, find_first (λ _ i, bool_decide (in_token i = hashInvitationToken rawToken))
                       (invitations s));
  match found with
  | None => throw (NotFoundException "Invitation not found")
  | Some (id, i) =>
      ensure (bool_decide (in_status i = inv_pending)) (BadRequestException
        ("Invitation has already been " +:+ invitation_status_string (in_status i))) ;;
      if in_expiresAt i <? now env then
        updateInvitation id (λ i, i <| in_status := inv_expired |>) ;;
        throw (BadRequestException "Invitation has expired")
      else mret (id, i)
  end.

(** The unique indexes of the drivers table, for a row stored under [id]. *)
Definition driverClashes (id : string) (d : Driver) (t : gmap string Driver) : bool :=
  bool_decide (find_many (λ k x, bool_decide (k ≠ id ∧
    ((is_Some (dr_userId d) ∧ dr_userId x = dr_userId d) ∨
     (dr_companyId x = dr_companyId d ∧ dr_licenseNumber x = dr_licenseNumber d)))) t ≠ []).

Definition putDriver (id : string) (d : Driver) : M AuthStore unit := λ s,
  if driverClashes id d (drivers s) then (s, Throw PrismaP2002)
  else (s <| drivers ::= <[id := d]> |>, Ok tt).

(** The driver record of an invited driver: the one with their address, or a
    new one. *)
Definition linkDriver (uid : string) (i : Invitation) (dto : AcceptDto) : M AuthStore unit :=
  if bool_decide (in_role i = driver) then
    existing ← gets (λ s, find_first (λ _ d,
      bool_decide (dr_companyId d = in_companyId i ∧ dr_email d = Some (in_email i) ∧ dr_deletedAt d = None))
      (drivers s));
    match existing with
    | Some (did, d) => putDriver did (d <| dr_userId := Some uid |>)
    | None => putDriver (newId env "drivers")
        (mkDriver (ac_firstName dto) (ac_lastName dto) (Some (in_email i)) (ac_phone dto)
           ("DRV-" +:+ sliceTo 8 uid) (in_companyId i) (Some uid) None)
    end
  else mret tt.

Definition accept (token : string) (dto : AcceptDto) : M AuthStore AcceptedUser :=
  found ← findByToken token;
  let '(iid, i) := found in
  let uid := newId env "users" in
  let u := newUser (in_email i) (bcryptHash (salt env) (ac_password dto)) (ac_firstName dto)
             (ac_lastName dto) (ac_phone dto) (in_role i) (in_companyId i) in
  transaction (
    createUser uid u ;;
    linkDriver uid i dto ;;
    updateInvitation iid (λ i, i <| in_status := inv_accepted |> <| in_acceptedAt := Some (now env) |>) ;;
    mret (mkAcceptedUser uid (email u) (firstName u) (lastName u) (phone u) (role u) true (companyId u))).

(** A pending invitation of the company. *)
Definition pendingOf (cid id msg : string) : M AuthStore Invitation :=
  found ← gets (λ s, invitations s !! id);
  match found with
  | Some i =>
      ensure (bool_decide (in_companyId i = cid)) (NotFoundException "Invitation not found") ;;
      ensure (bool_decide (in_status i = inv_pending)) (BadRequestException msg) ;;
      mret i
  | None => throw (NotFoundException "Invitation not found")
  end.

Definition resend (cid id : string) : M AuthStore unit :=
  i ← pendingOf cid id "Can only resend pending invitations";
  updateInvitation id (λ i, i <| in_token := hashInvitationToken (randomHex env) |>
    <| in_expiresAt := now env + INVITATION_EXPIRY_MS |>) ;;
  sendInvitationEmail (in_email i) (randomHex env) (in_role i).

Definition revoke (cid id : string) : M AuthStore unit :=
  pendingOf cid id "Can only revoke pending invitations" ;;
  updateInvitation id (λ i, i <| in_status := inv_revoked |>).
End InvitationsService.
