(* ===== verification/InvitationProps.v ===== *)
(** * modules/invitations: correctness *)

From S2P Require Import Prelude JsString Redis AuthModel Auth AuthExample AuthSessionProps Invitations.

#[local] Open Scope string_scope.
#[local] Open Scope list_scope.
#[local] Open Scope Z_scope.

Inductive InvitationRequest :=
  | ICreate (cid invitedById rawEmail : string) (r : UserRole)
  | IFindAll (cid : string)
  | IFindByToken (token : string)
  | IAccept (token : string) (dto : AcceptDto)
  | IResend (cid id : string)
  | IRevoke (cid id : string).

(** An invitation is never lost, its address, role and company are fixed, and
    it does not change once it is no longer pending. *)
Definition invitationsKept (s s' : AuthStore) : Prop := ∀ id i,
  invitations s !! id = Some i → ∃ i', invitations s' !! id = Some i' ∧
    in_email i' = in_email i ∧ in_role i' = in_role i ∧ in_companyId i' = in_companyId i ∧
    (in_status i ≠ inv_pending → i' = i).

#[export] Instance invitationsKept_preorder : PreOrder invitationsKept.
Proof.
  split.
  - intros s id i Hi. exists i. split_and!; done.
  - intros s1 s2 s3 H1 H2 id i Hi. destruct (H1 id i Hi) as (i2 & Hi2 & ? & ? & ? & HS).
    destruct (H2 id i2 Hi2) as (i3 & Hi3 & ? & ? & ? & HS3).
    exists i3. split_and!; try congruence. intros Hp. rewrite HS3, HS; [done|done|].
    rewrite HS; done.
Qed.

Lemma invitationsKept_same s s' : invitations s' = invitations s → invitationsKept s s'.
Proof. intros E id i Hi. exists i. rewrite E. split_and!; done. Qed.

(** A change of a pending invitation that keeps what is fixed. *)
Definition keepsIdentity (f : Invitation → Invitation) : Prop := ∀ i,
  in_email (f i) = in_email i ∧ in_role (f i) = in_role i ∧ in_companyId (f i) = in_companyId i.

Lemma spec_updatePending id f :
  keepsIdentity f →
  spec (λ s, ∀ i, invitations s !! id = Some i → in_status i = inv_pending) invitationsKept
    (updateInvitation id f) (λ _ _, True).
Proof.
  intros HF s HP. unfold updateInvitation. destruct (invitations s !! id) as [i|] eqn:EI; [|done].
  split; [|done]. intros k j Hj. destruct (HF i) as (F1 & F2 & F3). destruct s. simpl in *.
  destruct (decide (k = id)) as [->|Hne].
  - rewrite lookup_insert_eq. exists (f i). assert (j = i) as -> by congruence.
    split_and!; try done. intros Hs. by rewrite (HP i) in Hs.
  - rewrite lookup_insert_ne by done. exists j. split_and!; done.
Qed.

Section Life.
Context `{AuthLib} (env : AuthEnv).

Definition runInvitation (r : InvitationRequest) : M AuthStore unit :=
  match r with
  | ICreate cid by_ e role => createInvitation env cid by_ e role ;; mret tt
  | IFindAll cid => findAllInvitations cid ;; mret tt
  | IFindByToken token => findByToken env token ;; mret tt
  | IAccept token dto => accept env token dto ;; mret tt
  | IResend cid id => resend env cid id
  | IRevoke cid id => revoke cid id
  end.

(** What [findByToken] found. *)
Lemma findByToken_Ok token s s' iid i :
  findByToken env token s = (s', Ok (iid, i)) →
  s' = s ∧ invitations s !! iid = Some i ∧ in_token i = sha256hex token ∧
  in_status i = inv_pending ∧ now env ≤ in_expiresAt i.
Proof.
  unfold findByToken. rewrite gets_bind. destruct (find_first _ _) as [[id j]|] eqn:EF; [|done].
  apply find_first_Some in EF as [Hj HT]. apply bool_decide_eq_true in HT. rewrite ensure_bind.
  case_bool_decide; [|done]. destruct (in_expiresAt j <? now env) eqn:EX.
  - rewrite bind_run. unfold updateInvitation. by rewrite Hj.
  - unfold mret, M_ret. intros [= <- <- <-]. apply Z.ltb_ge in EX. split_and!; done.
Qed.

Lemma kept_findByToken token : footprint invitationsKept (findByToken env token).
Proof.
  intros s. unfold findByToken. rewrite gets_bind. destruct (find_first _ _) as [[id j]|] eqn:EF; [|done].
  apply find_first_Some in EF as [Hj _]. rewrite ensure_bind. case_bool_decide as EP; [|done].
  destruct (in_expiresAt j <? now env); [|done]. rewrite bind_run.
  destruct (spec_updatePending id (λ i, i <| in_status := inv_expired |>) ltac:(by intros []) s) as [HK _].
  { intros i Hi. congruence. }
  by destruct (updateInvitation id _ s) as [s' [u|e]].
Qed.

Lemma spec_pendingOf cid id msg :
  spec (λ _, True) invitationsKept (pendingOf cid id msg)
    (λ i s, invitations s !! id = Some i ∧ in_status i = inv_pending).
Proof.
  intros s _. unfold pendingOf. rewrite gets_bind. destruct (invitations s !! id) as [i|] eqn:EI; [|done].
  rewrite !ensure_bind. case_bool_decide; [|done]. case_bool_decide; [|done]. split; [done|].
  intros j s' [= <- <-]. done.
Qed.

Lemma kept_mail m : footprint invitationsKept (sendAuthMail m).
Proof. intros s. apply invitationsKept_same. by destruct s. Qed.

Lemma kept_createUser id u : footprint invitationsKept (createUser id u).
Proof. intros s. unfold createUser. destruct (_ || _); apply invitationsKept_same; by destruct s. Qed.
Lemma kept_putDriver id d : footprint invitationsKept (putDriver id d).
Proof. intros s. unfold putDriver. destruct (driverClashes _ _ _); apply invitationsKept_same; by destruct s. Qed.
Lemma kept_linkDriver uid i dto : footprint invitationsKept (linkDriver env uid i dto).
Proof. unfold linkDriver. footprint_auto; apply kept_putDriver. Qed.

Lemma same_linkDriver uid i dto s :
  invitations (linkDriver env uid i dto s).1 = invitations s ∧ users (linkDriver env uid i dto s).1 = users s.
Proof.
  unfold linkDriver. destruct (bool_decide _); [|done]. rewrite gets_bind.
  destruct (find_first _ _) as [[did d]|]; unfold putDriver; destruct (driverClashes _ _ _); by destruct s.
Qed.

(** An acceptance that succeeds. *)
Lemma accept_Ok token dto s s' r :
  accept env token dto s = (s', Ok r) →
  ∃ iid i, invitations s !! iid = Some i ∧ in_token i = sha256hex token ∧ in_status i = inv_pending ∧
    now env ≤ in_expiresAt i ∧ users s !! newId env "users" = None ∧
    users s' = <[newId env "users" := newUser (in_email i) (bcryptHash (salt env) (ac_password dto))
      (ac_firstName dto) (ac_lastName dto) (ac_phone dto) (in_role i) (in_companyId i)]> (users s) ∧
    invitations s' = <[iid := i <| in_status := inv_accepted |> <| in_acceptedAt := Some (now env) |>]>
      (invitations s) ∧
    au_id r = newId env "users" ∧ au_role r = in_role i ∧ au_companyId r = in_companyId i.
Proof.
  unfold accept. rewrite bind_run.
  destruct (findByToken env token s) as [s0 [[iid i]|e]] eqn:EF; [|done].
  apply findByToken_Ok in EF as (-> & Hi & HT & HS & HX). intros HR%transaction_Ok.
  apply bind_Ok in HR as (s1 & [] & HC & HR). unfold createUser in HC.
  destruct (users s !! newId env "users") eqn:EU; [done|]. simpl in HC.
  destruct (userClashes _ _ _); [done|]. injection HC as <-.
  apply bind_Ok in HR as (s2 & [] & HL & HR).
  match type of HL with linkDriver env ?a ?b ?c ?st = _ =>
    destruct (same_linkDriver a b c st) as [HI2 HU2]; rewrite HL in HI2, HU2; cbn [fst] in HI2, HU2 end.
  apply bind_Ok in HR as (s3 & [] & HU & HR). unfold mret, M_ret in HR. injection HR as <- <-.
  unfold updateInvitation in HU. rewrite HI2 in HU. destruct s. simpl in *. rewrite Hi in HU.
  injection HU as <-. destruct s2. simpl in *. subst. exists iid, i. split_and!; done.
Qed.
End Life.

Section LifeTheorem.
Context `{AuthLib} (env : AuthEnv).

Lemma kept_accept token dto : footprint invitationsKept (accept env token dto).
Proof.
  intros s. destruct (accept env token dto s) as [s' [r|e]] eqn:EA; cbn [fst].
  - destruct (accept_Ok env token dto s s' r EA) as (iid & i & Hi & _ & HP & _ & _ & _ & HI & _).
    intros k j Hj. rewrite HI. destruct (decide (k = iid)) as [->|Hne].
    + rewrite lookup_insert_eq. assert (j = i) as -> by congruence.
      eexists. split; [reflexivity|]. split_and!; done.
    + rewrite lookup_insert_ne by done. exists j. split_and!; done.
  - unfold accept in EA. rewrite bind_run in EA. pose proof (kept_findByToken env token s) as HK.
    destruct (findByToken env token s) as [s0 [[iid i]|x]] eqn:EF; [|by simplify_eq].
    apply findByToken_Ok in EF as (-> & _). by apply transaction_Throw in EA as ->.
Qed.

Lemma kept_create cid by_ e r : footprint invitationsKept (createInvitation env cid by_ e r).
Proof.
  unfold createInvitation. footprint_auto; try apply kept_mail; try (apply footprint_throw, _).
  intros s. unfold insertInvitation. destruct (invitations s !! newId env "invitations") eqn:EI; [done|].
  simpl. destruct (invitationClashes _ _); [done|]. intros k j Hj. destruct s. simpl in *.
  rewrite lookup_insert_ne by congruence. exists j. split_and!; done.
Qed.

Lemma kept_resend cid id : footprint invitationsKept (resend env cid id).
Proof.
  apply footprint_of_spec with (Q := λ _ _, True). unfold resend.
  eapply spec_bind; [exact _|apply spec_pendingOf|]. intros i. cbn beta.
  eapply spec_bind; [exact _| |intros u; apply spec_of_footprint, kept_mail].
  eapply spec_pre; [|apply spec_updatePending; by intros []]. intros s [Hi HP] j Hj. congruence.
Qed.

Lemma kept_revoke cid id : footprint invitationsKept (revoke cid id).
Proof.
  apply footprint_of_spec with (Q := λ _ _, True). unfold revoke.
  eapply spec_bind; [exact _|apply spec_pendingOf|]. intros i. cbn beta.
  eapply spec_pre; [|apply spec_updatePending; by intros []]. intros s [Hi HP] j Hj. congruence.
Qed.

(** Requests other than an acceptance leave the accounts alone. *)
Lemma same_users r s :
  (∀ token dto, r ≠ IAccept token dto) → users (run_state (runInvitation env r) s) = users s.
Proof.
  set (R := λ a b : AuthStore, users b = users a).
  assert (HR : PreOrder R) by (split; [done|intros ???; unfold R; congruence]).
  assert (HM : ∀ m, footprint R (sendAuthMail m)) by (intros m st; by destruct st).
  assert (HU : ∀ id f, footprint R (updateInvitation id f)).
  { intros id f st. unfold R, updateInvitation. by destruct (_ !! _), st. }
  assert (HI : ∀ id i, footprint R (insertInvitation id i)).
  { intros id i st. unfold R, insertInvitation. by destruct (_ || _), st. }
  intros HN. change (R s (runInvitation env r s).1).
  destruct r; [..|]; cbn [runInvitation]; try (exfalso; by eapply HN).
  all: as_footprint.
  all: unfold createInvitation, findAllInvitations, findByToken, resend, revoke, pendingOf, sendInvitationEmail.
  all: footprint_auto; auto.
Qed.
End LifeTheorem.

(** C15: an invitation keeps its address, role and company, and once accepted,
    expired or revoked it never changes again; no request alters an existing
    account, and a new account only comes from the acceptance of a pending,
    unexpired invitation by the holder of its token, with the role, company and
    address of that invitation, which is then accepted. *)
Theorem invitation_life `{AuthLib} env r s :
  let s' := run_state (runInvitation env r) s in
  (∀ id i, invitations s !! id = Some i → ∃ i', invitations s' !! id = Some i' ∧
     in_email i' = in_email i ∧ in_role i' = in_role i ∧ in_companyId i' = in_companyId i ∧
     (in_status i ≠ inv_pending → i' = i)) ∧
  (∀ uid u, users s !! uid = Some u → users s' !! uid = Some u) ∧
  (∀ uid u, users s' !! uid = Some u → users s !! uid = None →
     ∃ token dto iid i i', r = IAccept token dto ∧ invitations s !! iid = Some i ∧
       in_token i = sha256hex token ∧ in_status i = inv_pending ∧ now env ≤ in_expiresAt i ∧
       role u = in_role i ∧ companyId u = in_companyId i ∧ email u = in_email i ∧
       invitations s' !! iid = Some i' ∧ in_status i' = inv_accepted).
Proof.
  intros s'. split.
  { change (invitationsKept s s'). subst s'. unfold run_state. destruct r; cbn [runInvitation]; as_footprint.
    - apply footprint_bind; [exact _|apply kept_create|intros; apply footprint_ret, _].
    - apply footprint_bind; [exact _|apply footprint_gets, _|intros; apply footprint_ret, _].
    - apply footprint_bind; [exact _|apply kept_findByToken|intros; apply footprint_ret, _].
    - apply footprint_bind; [exact _|apply kept_accept|intros; apply footprint_ret, _].
    - apply kept_resend.
    - apply kept_revoke. }
  assert (HC : users s' = users s ∨ ∃ token dto s2 a, r = IAccept token dto ∧
             accept env token dto s = (s2, Ok a) ∧ s' = s2).
  { destruct r as [| | |token dto| |]; try (left; apply same_users; by intros).
    subst s'. unfold run_state. cbn [runInvitation]. rewrite bind_run.
    destruct (accept env token dto s) as [s2 [a|e]] eqn:EA; [right; eauto 8|left]. cbn [fst].
    unfold accept in EA. rewrite bind_run in EA.
    pose proof (same_users env (IFindByToken token) s ltac:(by intros)) as HK.
    unfold run_state in HK. cbn [runInvitation] in HK. rewrite bind_run in HK.
    destruct (findByToken env token s) as [s0 [[iid i]|x]]; [|by simplify_eq].
    apply transaction_Throw in EA as ->. exact HK. }
  destruct HC as [HC|(token & dto & s2 & a & -> & EA & HS)].
  { rewrite HC. split; [done|]. intros uid u H1 H2. congruence. }
  destruct (accept_Ok env token dto s s2 a EA)
    as (iid & i & Hi & HT & HP & HX & HN & HU & HI & _). rewrite HS, HU. split.
  - intros uid u Hu. rewrite lookup_insert_ne; [done|congruence].
  - intros uid u Hu Hn. apply lookup_insert_Some in Hu as [[<- <-]|[_ Hu]]; [|congruence].
    eexists token, dto, iid, i, _. rewrite HI, lookup_insert_eq. split_and!; done.
Qed.
