(* ===== verification/OfflineQueue.v ===== *)
(** * The driver application's offline queue

    frontend/src/services/offlineQueue.ts: GPS positions recorded without
    network wait in an IndexedDB object store, in the order of their
    auto-incremented id, until [flushQueue] has had them acknowledged.  The
    object store is the list of its rows in key order with its key generator;
    each function of the file that opens one transaction is one step on it.
    The text of a date is read by [Date], whose parser is a parameter. *)

From S2P Require Import Prelude.
#[local] Open Scope Z_scope.

(** ** The object store *)

(** A position as the hook records it: the fields the queue reads, and the
    others as they are. *)
Record Position := mkPosition {
  fields : string;
  timestamp : option string;
  queuedAt : option string;
  compressed : bool }.

(** The store 'position-queue', the flag [isFlushing] of the module, and the
    batches handed to [sendFn] so far. *)
Record QueueState := mkQueueState {
  rows : list (Z * Position);
  nextId : Z;
  isFlushing : bool;
  sent : list (list (Z * Position)) }.

Record EnqueueResult := mkEnqueueResult {
  queued : bool;
  droppedOldest : bool;
  nearCapacity : bool }.

Definition QUEUE_MAX_SIZE : Z := 10000.
Definition QUEUE_WARN_SIZE : Z := QUEUE_MAX_SIZE * 8 / 10.
Definition COMPACT_HORIZON_MS : Z := 5 * 60 * 1000.
Definition COMPACT_BUCKET_MS : Z := 45 * 1000.

(** [store.add]: the key generator never reuses an id. *)
Definition addPosition (iso : string) (pos : Position) : M QueueState unit :=
  modify (λ s, s <| rows ::= λ l, l ++ [(nextId s, pos <| queuedAt := Some iso |>)] |>
                 <| nextId ::= Z.succ |>).

Definition queueSize : M QueueState Z := gets (λ s, Z.of_nat (length (rows s))).

(** [store.delete(id)] for each id. *)
Definition without (ids : list Z) (l : list (Z * Position)) : list (Z * Position) :=
  filter (λ r, r.1 ∉ ids) l.
Definition deletePositions (ids : list Z) : M QueueState unit := modify (set rows (without ids)).

Definition dequeueAllPositions : M QueueState (list (Z * Position)) := gets rows.

(** The cursor of [dequeuePositions]; no limit is [Infinity]. *)
Fixpoint readCursor (limit : option Z) (items l : list (Z * Position)) : list (Z * Position) :=
  match l with
  | [] => items
  | r :: l' =>
      if match limit with Some n => Z.of_nat (length items) <? n | None => true end
      then readCursor limit (items ++ [r]) l' else items
  end.
Definition dequeuePositions (limit : option Z) : M QueueState (list (Z * Position)) :=
  gets (λ s, readCursor limit [] (rows s)).

Definition dequeueOldest : M QueueState (option (Z * Position)) := λ s,
  match rows s with
  | [] => (s, Ok None)
  | r :: l => (s <| rows := l |>, Ok (Some r))
  end.

Definition clearQueue : M QueueState unit := modify (set rows (λ _, [])).

Section Queue.
(** [new Date(text).getTime()], none for NaN. *)
Context (dateParse : string → option Z).

(** ** Compaction *)

Definition fixTime (p : Position) : option Z :=
  dateParse (default (default "" (queuedAt p)) (timestamp p)).

(** The time slice of a position older than the cutoff. *)
Definition bucketOf (ts : Z) : Z := ts / COMPACT_BUCKET_MS * COMPACT_BUCKET_MS.
Definition oldBucket (cutoff : Z) (p : Position) : option Z :=
  ts ← fixTime p; if (0 <? ts) && (ts <? cutoff) then Some (bucketOf ts) else None.

(** The scan: the rows as the cursor leaves them and the ids to delete. *)
Fixpoint compactScan (cutoff : Z) (keptPerBucket : gmap Z Z) (l : list (Z * Position)) :
    list (Z * Position) * list Z :=
  match l with
  | [] => ([], [])
  | (id, p) :: l' =>
      match oldBucket cutoff p with
      | None => let (l2, del) := compactScan cutoff keptPerBucket l' in ((id, p) :: l2, del)
      | Some b =>
          match keptPerBucket !! b with
          | None =>
              let (l2, del) := compactScan cutoff (<[b := id]> keptPerBucket) l' in
              ((id, p <| compressed := true |>) :: l2, del)
          | Some keptId =>
              let (l2, del) := compactScan cutoff keptPerBucket l' in
              ((id, p) :: l2, if keptId =? id then del else id :: del)
          end
      end
  end.

Definition compactOldestPositions (now : Z) : M QueueState bool := λ s,
  let (l, toDelete) := compactScan (now - COMPACT_HORIZON_MS) ∅ (rows s) in
  (s <| rows := without toDelete l |>, Ok (match toDelete with [] => false | _ => true end)).

(** ** Recording a position *)

Definition enqueuePosition (now : Z) (iso : string) (pos : Position) : M QueueState EnqueueResult :=
  size0 ← queueSize;
  size ← (if QUEUE_MAX_SIZE <=? size0 then compactOldestPositions now ;; queueSize
          else mret size0);
  oldest ← (if QUEUE_MAX_SIZE <=? size then o ← dequeueOldest; mret (Some o) else mret None);
  match oldest with
  | Some None => mret (mkEnqueueResult false false false)
  | _ =>
      addPosition iso pos ;;
      mret (mkEnqueueResult true (match oldest with Some _ => true | None => false end)
              (QUEUE_WARN_SIZE <=? size + 1))
  end.
End Queue.

(** ** Sending *)

Section Flush.
(** The answer of [sendFn] to its n-th call with a batch. *)
Context (sendFn : nat → list (Z * Position) → result unit).

Definition send (positions : list (Z * Position)) : M QueueState unit := λ s,
  (s <| sent ::= λ l, l ++ [positions] |>, sendFn (length (sent s)) positions).

(** The loop, each turn of which removes at least one row. *)
Fixpoint flushLoop (fuel : nat) (chunkSize : option Z) : M QueueState unit :=
  match fuel with
  | O => throw (OtherError "out of fuel")
  | S n =>
      positions ← dequeuePositions chunkSize;
      match positions with
      | [] => mret tt
      | _ => send positions ;; deletePositions positions.*1 ;; flushLoop n chunkSize
      end
  end.

(** [try { … } finally { isFlushing = false }]. *)
Definition flushQueue (chunkSize : option Z) : M QueueState unit := λ s,
  if isFlushing s then (s, Ok tt)
  else
    let (s', r) := flushLoop (S (length (rows s))) chunkSize (s <| isFlushing := true |>) in
    (s' <| isFlushing := false |>, r).
End Flush.
