(* ===== verification/OfflineQueueProps.v ===== *)
(** * Correctness of the offline queue

    [flushQueue] refines the draining of a first-in first-out list; recording
    keeps the queue within its quota and tells what it dropped; and however
    the transactions of recordings, compactions, evictions and flushes
    interleave, a recorded position only leaves the queue acknowledged,
    evicted, or with a position of its 45-second slice kept in its place. *)

From S2P Require Import Prelude OfflineQueue.
#[local] Open Scope Z_scope.

(** The ids grow along the queue and lie below the key generator. *)
Definition queue_wf (s : QueueState) : Prop :=
  StronglySorted Z.lt (rows s).*1 ∧ Forall (λ i, i < nextId s) (rows s).*1.

Lemma sorted_NoDup l : StronglySorted Z.lt l → NoDup l.
Proof.
  induction 1 as [|x l _ IH HF]; constructor; [|done].
  intros Hin. rewrite Forall_forall in HF. specialize (HF x Hin). lia.
Qed.

Lemma readCursor_take limit items l :
  readCursor limit items l =
  items ++ match limit with
           | Some n => take (Z.to_nat n - length items) l
           | None => l
           end.
Proof.
  revert items. induction l as [|r l IH]; intros items; simpl.
  - destruct limit; [by rewrite take_nil, app_nil_r|by rewrite app_nil_r].
  - destruct limit as [n|].
    + destruct (Z.ltb_spec (Z.of_nat (length items)) n).
      * rewrite IH, length_app, <- app_assoc. simpl.
        destruct (Z.to_nat n - length items)%nat as [|k] eqn:E; [lia|].
        simpl. replace (Z.to_nat n - (length items + 1))%nat with k by lia. done.
      * replace (Z.to_nat n - length items)%nat with O by lia. by rewrite app_nil_r.
    + rewrite IH, <- app_assoc. done.
Qed.

(** What one batch takes from the front of the queue. *)
Definition batchOf (chunk : option Z) (l : list (Z * Position)) : list (Z * Position) :=
  match chunk with Some n => take (Z.to_nat n) l | None => l end.
Definition afterBatch (chunk : option Z) (l : list (Z * Position)) : list (Z * Position) :=
  match chunk with Some n => drop (Z.to_nat n) l | None => [] end.

Lemma batch_split chunk l : batchOf chunk l ++ afterBatch chunk l = l.
Proof. destruct chunk; simpl; [apply take_drop|apply app_nil_r]. Qed.

Lemma dequeue_batch chunk s :
  dequeuePositions chunk s = (s, Ok (batchOf chunk (rows s))).
Proof.
  unfold dequeuePositions, gets. rewrite readCursor_take. simpl.
  unfold batchOf. destruct chunk; [|done]. by rewrite Nat.sub_0_r.
Qed.

Lemma without_prefix (b l : list (Z * Position)) :
  NoDup (b ++ l).*1 → without b.*1 (b ++ l) = l.
Proof.
  intros Hnd. unfold without. rewrite fmap_app in Hnd. apply NoDup_app in Hnd as (_ & Hd & _).
  rewrite filter_app.
  rewrite filter_none, filter_all; [done| |]; apply Forall_forall; intros r Hr.
  - intros Hin. apply (Hd r.1 Hin). by apply list_elem_of_fmap_2.
  - intros Hn. by apply Hn, list_elem_of_fmap_2.
Qed.

(** ** Flushing drains a first-in first-out list *)

Section Drain.
Context (sendFn : nat → list (Z * Position) → result unit) (chunk : option Z).

(** The abstract queue is a list; draining it hands over batches from its
    front, drops a batch once acknowledged and stops at the first refusal.
    The numbers count the calls of [sendFn]. *)
Inductive drains : nat → list (Z * Position) → list (list (Z * Position)) →
    list (Z * Position) → result unit → Prop :=
  | drains_empty n : drains n [] [] [] (Ok tt)
  | drains_refused n l e : l ≠ [] → sendFn n (batchOf chunk l) = Throw e →
      drains n l [batchOf chunk l] l (Throw e)
  | drains_acknowledged n l bs rest r : l ≠ [] → sendFn n (batchOf chunk l) = Ok tt →
      drains (S n) (afterBatch chunk l) bs rest r → drains n l (batchOf chunk l :: bs) rest r.

Lemma drains_accounts n l bs rest r : drains n l bs rest r →
  (r = Ok tt → rest = [] ∧ concat bs = l) ∧
  (∀ e, r = Throw e → ∃ ok, bs = ok ++ [batchOf chunk rest] ∧ concat ok ++ rest = l ∧ rest ≠ []).
Proof.
  induction 1 as [n|n l e Hl He|n l bs rest r Hl Hs _ [IHo IHe]].
  - split; [done|]. intros e [=].
  - split; [done|]. intros e' [= <-]. by exists [].
  - split.
    + intros Hr. destruct (IHo Hr) as [-> Hc]. split; [done|]. simpl. by rewrite Hc, batch_split.
    + intros e He. destruct (IHe e He) as (ok & -> & Hc & Hne).
      exists (batchOf chunk l :: ok). split; [done|]. split; [|done].
      simpl. by rewrite <- app_assoc, Hc, batch_split.
Qed.

Definition positive_chunk : Prop := match chunk with Some n => 0 < n | None => True end.

Lemma batch_nonempty l : positive_chunk → l ≠ [] →
  batchOf chunk l ≠ [] ∧ (length (afterBatch chunk l) < length l)%nat.
Proof.
  unfold positive_chunk. intros Hp Hl. destruct l as [|r l]; [done|].
  destruct chunk as [n|]; simpl.
  - destruct (Z.to_nat n) as [|k] eqn:E; [lia|]. simpl. split; [done|].
    rewrite length_drop. lia.
  - split; [done|lia].
Qed.

Lemma flushLoop_drains fuel s : positive_chunk → NoDup (rows s).*1 →
  (length (rows s) < fuel)%nat →
  ∃ bs rest r, drains (length (sent s)) (rows s) bs rest r ∧
    flushLoop sendFn fuel chunk s = (s <| rows := rest |> <| sent ::= λ l, l ++ bs |>, r).
Proof.
  intros Hp. revert s. induction fuel as [|fuel IH]; intros s Hnd Hf; [lia|].
  destruct s as [l nid fl out]. simpl in *.
  change (flushLoop sendFn (S fuel) chunk) with
    (positions ← dequeuePositions chunk;
     match positions with
     | [] => mret tt
     | _ => send sendFn positions ;; deletePositions positions.*1 ;; flushLoop sendFn fuel chunk
     end : M QueueState unit).
  unfold mbind, M_bind at 1. rewrite dequeue_batch. cbn [rows].
  destruct (decide (l = [])) as [->|Hl].
  { exists [], [], (Ok tt). split; [constructor|]. unfold set. simpl. rewrite app_nil_r.
    by destruct chunk; simpl; rewrite ?take_nil. }
  destruct (batch_nonempty l Hp Hl) as [Hb Hlt].
  assert (Hsend : ∀ ps, send sendFn ps (mkQueueState l nid fl out) =
    (mkQueueState l nid fl (out ++ [ps]), sendFn (length out) ps)) by done.
  destruct (batchOf chunk l) as [|r0 b] eqn:Eb; [done|]. cbv iota. rewrite <- Eb in *.
  unfold mbind, M_bind. cbv beta. rewrite Hsend.
  destruct (sendFn (length out) (batchOf chunk l)) as [[]|e] eqn:Es.
  - unfold deletePositions, modify, set. simpl.
    assert (Hw := without_prefix (batchOf chunk l) (afterBatch chunk l)).
    rewrite batch_split in Hw. rewrite (Hw Hnd).
    destruct (IH (mkQueueState (afterBatch chunk l) nid fl (out ++ [batchOf chunk l])))
      as (bs & rest & r & Hd & ->).
    { rewrite <- (batch_split chunk l), fmap_app in Hnd. by apply NoDup_app in Hnd as (_ & _ & ?). }
    { simpl. lia. }
    simpl in Hd. rewrite length_app, Nat.add_1_r in Hd.
    exists (batchOf chunk l :: bs), rest, r. split; [by constructor|].
    unfold set. simpl. by rewrite <- app_assoc.
  - exists [batchOf chunk l], l, (Throw e). split; [by constructor|done].
Qed.
End Drain.

(** C16: flushing refines the draining of a first-in first-out list: batches
    of at most the chunk size leave from the front, each sent once the one
    before is acknowledged; a row is deleted only after its batch was; a
    refusal stops the flush with that batch and everything behind it still
    queued; without refusal the queue ends empty, everything sent in order. *)
Theorem flushQueue_refines sendFn chunk s :
  queue_wf s → isFlushing s = false → positive_chunk chunk →
  ∃ bs rest r, drains sendFn chunk (length (sent s)) (rows s) bs rest r ∧
    flushQueue sendFn chunk s = (s <| rows := rest |> <| sent ::= λ l, l ++ bs |>, r) ∧
    (r = Ok tt → rest = [] ∧ concat bs = rows s) ∧
    (∀ e, r = Throw e →
       ∃ ok, bs = ok ++ [batchOf chunk rest] ∧ concat ok ++ rest = rows s ∧ rest ≠ []).
Proof.
  intros [Hs _] Hf Hp.
  destruct (flushLoop_drains sendFn chunk (S (length (rows s))) (s <| isFlushing := true |>))
    as (bs & rest & r & Hd & He); [done|by apply sorted_NoDup|simpl; lia|].
  exists bs, rest, r. split; [done|]. split.
  - unfold flushQueue. rewrite Hf. change (rows (s <| isFlushing := true |>)) with (rows s) in He.
    rewrite He. destruct s. simpl in *. by subst.
  - by apply drains_accounts in Hd.
Qed.

Definition examplePosition : Position := mkPosition "{}" (Some "t") None false.
Definition exampleQueue : QueueState :=
  mkQueueState [(1, examplePosition); (4, examplePosition); (7, examplePosition)] 9 false [].
(** A server that acknowledges the first batch only. *)
Definition oneAck (n : nat) (_ : list (Z * Position)) : result unit :=
  match n with O => Ok tt | _ => Throw (OtherError "ack timeout") end.

Lemma flushQueue_refines_witness :
  ∃ bs rest r, drains oneAck (Some 2) 0 (rows exampleQueue) bs rest r ∧
    flushQueue oneAck (Some 2) exampleQueue =
      (exampleQueue <| rows := rest |> <| sent ::= λ l, l ++ bs |>, r) ∧
    (r = Ok tt → rest = [] ∧ concat bs = rows exampleQueue) ∧
    (∀ e, r = Throw e → ∃ ok, bs = ok ++ [batchOf (Some 2) rest] ∧
       concat ok ++ rest = rows exampleQueue ∧ rest ≠ []).
Proof.
  apply (flushQueue_refines oneAck (Some 2) exampleQueue); [|reflexivity|reflexivity].
  split; repeat constructor; reflexivity.
Defined.

(** ** Compaction keeps a position of every slice *)

Section Compaction.
Context (dateParse : string → option Z).
Implicit Types (l : list (Z * Position)) (kept : gmap Z Z).

Definition sameSlice (p p' : Position) : Prop := ∃ ts ts',
  fixTime dateParse p = Some ts ∧ fixTime dateParse p' = Some ts' ∧ bucketOf ts = bucketOf ts'.

Lemma sameSlice_trans p1 p2 p3 : sameSlice p1 p2 → sameSlice p2 p3 → sameSlice p1 p3.
Proof.
  intros (a & b & Ha & Hb & E) (b' & c & Hb' & Hc & E'). exists a, c.
  rewrite Hb in Hb'. simplify_eq. split; [done|]. split; [done|]. by rewrite E.
Qed.

Lemma oldBucket_same cutoff p p' b :
  oldBucket dateParse cutoff p = Some b → oldBucket dateParse cutoff p' = Some b → sameSlice p p'.
Proof.
  unfold oldBucket, sameSlice.
  destruct (fixTime dateParse p) as [t|], (fixTime dateParse p') as [t'|]; simpl; try done.
  intros H1 H2. exists t, t'.
  destruct ((0 <? t) && (t <? cutoff)), ((0 <? t') && (t' <? cutoff)); simplify_eq; eauto.
Qed.

(** The rows the scan leaves: the same ids and the same times. *)
Lemma compactScan_rows cutoff kept l :
  (compactScan dateParse cutoff kept l).1.*1 = l.*1 ∧
  map (λ r, fixTime dateParse r.2) (compactScan dateParse cutoff kept l).1 =
  map (λ r, fixTime dateParse r.2) l.
Proof.
  revert kept. induction l as [|[id p] l IH]; intros kept; [done|]. simpl.
  destruct (oldBucket dateParse cutoff p) as [b|].
  - destruct (kept !! b) as [k|].
    + specialize (IH kept). destruct (compactScan dateParse cutoff kept l). simpl in *.
      destruct IH as [IH1 IH2]. split; f_equal; done.
    + specialize (IH (<[b:=id]> kept)). destruct (compactScan dateParse cutoff _ l). simpl in *.
      destruct IH as [IH1 IH2]. split; f_equal; done.
  - specialize (IH kept). destruct (compactScan dateParse cutoff kept l). simpl in *.
    destruct IH as [IH1 IH2]. split; f_equal; done.
Qed.

Lemma compactScan_deleted_ids cutoff kept l id :
  id ∈ (compactScan dateParse cutoff kept l).2 → id ∈ l.*1.
Proof.
  revert kept. induction l as [|[k p] l IH]; intros kept; simpl; [done|].
  destruct (oldBucket dateParse cutoff p) as [b|].
  - destruct (kept !! b) as [k'|].
    + specialize (IH kept). destruct (compactScan dateParse cutoff kept l). simpl in *.
      destruct (k' =? k); [set_solver|]. intros [->|?]%elem_of_cons; set_solver.
    + specialize (IH (<[b:=k]> kept)). destruct (compactScan dateParse cutoff _ l). set_solver.
  - specialize (IH kept). destruct (compactScan dateParse cutoff kept l). set_solver.
Qed.

(** A deleted row is in the slice of a row kept before it. *)
Lemma compactScan_represented cutoff kept l id p :
  NoDup l.*1 → (id, p) ∈ l → id ∈ (compactScan dateParse cutoff kept l).2 →
  ∃ b, oldBucket dateParse cutoff p = Some b ∧
    ((∃ k, kept !! b = Some k) ∨
     (∃ k p', (k, p') ∈ l ∧ k ∉ (compactScan dateParse cutoff kept l).2 ∧
        oldBucket dateParse cutoff p' = Some b)).
Proof.
  revert kept. induction l as [|[k q] l IH]; intros kept Hnd Hin Hdel; [by apply not_elem_of_nil in Hin|].
  apply NoDup_cons in Hnd as [Hk Hnd]. simpl in *.
  assert (Hids := compactScan_deleted_ids cutoff).
  destruct (oldBucket dateParse cutoff q) as [b|] eqn:Eb.
  - destruct (kept !! b) as [k'|] eqn:Ek.
    + specialize (IH kept Hnd). specialize (Hids kept l).
      destruct (compactScan dateParse cutoff kept l) as [l2 del]. simpl in *.
      apply elem_of_cons in Hin as [[= -> ->]|Hin].
      { exists b. eauto. }
      assert (Hd : id ∈ del).
      { destruct (k' =? k); [done|]. apply elem_of_cons in Hdel as [->|?]; [|done].
        exfalso. apply Hk. by apply (list_elem_of_fmap_2 fst _ (k, p)). }
      destruct (IH Hin Hd) as (b' & Hb' & [?|(k2 & p2 & Hin2 & Hn & Hb2)]); [by eauto|].
      exists b'. split; [done|]. right. exists k2, p2. split; [set_solver|]. split; [|done].
      destruct (k' =? k); [done|]. intros [->|?]%elem_of_cons; [|done].
      apply Hk. by apply (list_elem_of_fmap_2 fst _ (k, p2)).
    + specialize (IH (<[b:=k]> kept) Hnd). specialize (Hids (<[b:=k]> kept) l).
      destruct (compactScan dateParse cutoff (<[b:=k]> kept) l) as [l2 del]. simpl in *.
      assert (Hkd : k ∉ del) by (intros ?; by apply Hk, Hids).
      apply elem_of_cons in Hin as [[= -> ->]|Hin]; [done|].
      destruct (IH Hin Hdel) as (b' & Hb' & [[k2 Hk2]|(k2 & p2 & Hin2 & Hn & Hb2)]).
      * destruct (decide (b' = b)) as [->|Hne].
        { exists b. split; [done|]. right. exists k, q. split; [left|done]. }
        rewrite lookup_insert_ne in Hk2 by done. eauto.
      * exists b'. split; [done|]. right. exists k2, p2. split; [by right|done].
  - specialize (IH kept Hnd). specialize (Hids kept l).
    destruct (compactScan dateParse cutoff kept l) as [l2 del]. simpl in *.
    apply elem_of_cons in Hin as [[= -> ->]|Hin].
    { exfalso. by apply Hk, Hids. }
    destruct (IH Hin Hdel) as (b' & Hb' & [?|(k2 & p2 & Hin2 & ?)]); [by eauto|].
    exists b'. split; [done|]. right. exists k2, p2. split; [by right|done].
Qed.
End Compaction.

Section Recording.
Context (dateParse : string → option Z).

(** A position is still there, or one of its slice is. *)
Definition represented (p : Position) (l : list (Z * Position)) (id : Z) : Prop :=
  ∃ id' p', (id', p') ∈ l ∧
    ((id' = id ∧ fixTime dateParse p' = fixTime dateParse p) ∨ sameSlice dateParse p p').

Lemma scan_elem cutoff kept l id p : (id, p) ∈ l →
  ∃ p', (id, p') ∈ (compactScan dateParse cutoff kept l).1 ∧ fixTime dateParse p' = fixTime dateParse p.
Proof.
  intros [i Hi]%list_elem_of_lookup.
  destruct (compactScan_rows dateParse cutoff kept l) as [H1 H2].
  apply (f_equal (lookup i)) in H1. apply (f_equal (lookup i)) in H2.
  rewrite !list_lookup_fmap, Hi in H1. rewrite !list_lookup_fmap, Hi in H2.
  destruct ((compactScan dateParse cutoff kept l).1 !! i) as [[id' p']|] eqn:E; simplify_eq/=.
  exists p'. split; [by eapply list_elem_of_lookup_2|done].
Qed.

Lemma scan_elem_inv cutoff kept l id p' : (id, p') ∈ (compactScan dateParse cutoff kept l).1 →
  ∃ p, (id, p) ∈ l ∧ fixTime dateParse p' = fixTime dateParse p.
Proof.
  intros [i Hi]%list_elem_of_lookup.
  destruct (compactScan_rows dateParse cutoff kept l) as [H1 H2].
  apply (f_equal (lookup i)) in H1. apply (f_equal (lookup i)) in H2.
  rewrite !list_lookup_fmap, Hi in H1. rewrite !list_lookup_fmap, Hi in H2.
  destruct (l !! i) as [[id' p]|] eqn:E; simplify_eq/=.
  exists p. split; [by eapply list_elem_of_lookup_2|done].
Qed.

Lemma StronglySorted_filter_ids ids (l : list (Z * Position)) :
  StronglySorted Z.lt l.*1 → StronglySorted Z.lt (without ids l).*1.
Proof.
  unfold without. induction l as [|[id p] l IH]; simpl; [done|]. intros [Hs HF]%StronglySorted_inv.
  rewrite filter_cons. case_decide; simpl; [|auto].
  constructor; [auto|]. rewrite Forall_fmap in *. rewrite Forall_forall in *.
  intros r Hr. apply HF. by apply list_elem_of_filter in Hr as [_ ?].
Qed.

Lemma Forall_without (P : Z → Prop) ids l : Forall P l.*1 → Forall P (without ids l).*1.
Proof.
  rewrite !Forall_fmap, !Forall_forall. intros H r Hr. apply H.
  by apply list_elem_of_filter in Hr as [_ ?].
Qed.

Lemma compaction now s : queue_wf s →
  ∃ l r, compactOldestPositions dateParse now s = (s <| rows := l |>, Ok r) ∧
    queue_wf (s <| rows := l |>) ∧ (length l ≤ length (rows s))%nat ∧
    (length l = length (rows s) → l.*1 = (rows s).*1) ∧
    (∀ id p, (id, p) ∈ rows s → represented p l id) ∧
    (∀ id p, (id, p) ∈ l → ∃ p0, (id, p0) ∈ rows s ∧ fixTime dateParse p = fixTime dateParse p0).
Proof.
  intros [Hs HF]. unfold compactOldestPositions.
  set (cutoff := now - COMPACT_HORIZON_MS).
  destruct (compactScan_rows dateParse cutoff ∅ (rows s)) as [Hids _].
  assert (Hrep := compactScan_represented dateParse cutoff ∅ (rows s)).
  assert (Hel := scan_elem cutoff ∅ (rows s)). assert (Hinv := scan_elem_inv cutoff ∅ (rows s)).
  destruct (compactScan dateParse cutoff ∅ (rows s)) as [l del]. simpl in *.
  exists (without del l). eexists. split; [done|].
  assert (Hlen : length l = length (rows s)) by
    (by rewrite <- (length_fmap fst l), Hids, length_fmap).
  split.
  { split; simpl; [apply StronglySorted_filter_ids|apply Forall_without]; by rewrite Hids. }
  split. { unfold without. etrans; [apply length_filter|]. lia. }
  split.
  { intros Hl. rewrite <- Hids. f_equal. unfold without in *. apply filter_all, Forall_forall.
    intros r Hr Hn. rewrite <- Hlen in Hl.
    assert (length (filter (λ r : Z * Position, r.1 ∉ del) l) < length l)%nat; [|lia].
    by apply (length_filter_lt _ l r); [|intros ?]. }
  split.
  - intros id p Hin. destruct (decide (id ∈ del)) as [Hd|Hd].
    + destruct (Hrep id p (sorted_NoDup _ Hs) Hin Hd) as (b & Hb & [[k Hk]|(k & q & Hq & Hk & Hb')]);
        [by rewrite lookup_empty in Hk|].
      destruct (Hel k q Hq) as (q' & Hq' & Ht). exists k, q'. split.
      { apply list_elem_of_filter. done. }
      right. destruct (oldBucket_same _ _ _ _ _ Hb Hb') as (a & c & Ha & Hc & E).
      exists a, c. by rewrite Ht.
    + destruct (Hel id p Hin) as (p' & Hp' & Ht). exists id, p'. split; [|by left].
      apply list_elem_of_filter. done.
  - intros id p Hin. apply list_elem_of_filter in Hin as [_ Hin]. by apply Hinv.
Qed.

Lemma add_wf s l iso pos : queue_wf (s <| rows := l |>) →
  queue_wf (s <| rows := l ++ [(nextId s, pos <| queuedAt := Some iso |>)] |> <| nextId ::= Z.succ |>).
Proof.
  intros [Hs HF]. unfold queue_wf, set in *. simpl in *. rewrite !fmap_app. simpl. split.
  - clear -Hs HF. induction l as [|r l IH]; simpl in *; [repeat constructor|].
    apply StronglySorted_inv in Hs as [Hs HR]. apply Forall_cons in HF as [Hr HF].
    constructor; [auto|]. apply Forall_app. split; [done|]. by constructor.
  - apply Forall_app. split; [|constructor; [lia|constructor]].
    eapply Forall_impl; [exact HF|]. simpl. lia.
Qed.

(** Recording a position always stores it, last, and keeps the queue
    within its quota; [nearCapacity] tells whether four fifths of it are used;
    below the quota nothing else moves; at the quota, either every queued
    position keeps itself or one of its 45-second slice, or the oldest one is
    dropped, alone, and [droppedOldest] says so. *)
Theorem enqueuePosition_spec now iso pos s :
  queue_wf s → Z.of_nat (length (rows s)) ≤ QUEUE_MAX_SIZE →
  ∃ kept r,
    let s' := s <| rows := kept ++ [(nextId s, pos <| queuedAt := Some iso |>)] |>
                <| nextId ::= Z.succ |> in
    enqueuePosition dateParse now iso pos s = (s', Ok r) ∧ queue_wf s' ∧
    Z.of_nat (length (rows s')) ≤ QUEUE_MAX_SIZE ∧ queued r = true ∧
    nearCapacity r = (QUEUE_WARN_SIZE <=? Z.of_nat (length (rows s'))) ∧
    (Z.of_nat (length (rows s)) < QUEUE_MAX_SIZE → kept = rows s ∧ droppedOldest r = false) ∧
    (droppedOldest r = false → ∀ id p, (id, p) ∈ rows s → represented p kept id) ∧
    (droppedOldest r = true → Z.of_nat (length (rows s)) = QUEUE_MAX_SIZE ∧
       kept.*1 = tail (rows s).*1).
Proof.
  intros Hwf Hle. unfold enqueuePosition, queueSize. rewrite gets_bind.
  destruct (Z.leb_spec QUEUE_MAX_SIZE (Z.of_nat (length (rows s)))) as [Hfull|Hroom].
  - destruct (compaction now s Hwf) as (l & c & Hc & Hwfl & Hlen & Hall & Hrep & Hold).
    rewrite (bind_step _ _ s (s <| rows := l |>) (Z.of_nat (length l)))
      by (rewrite (bind_step _ _ _ _ _ Hc); reflexivity).
    destruct (Z.leb_spec QUEUE_MAX_SIZE (Z.of_nat (length l))) as [Hfull2|Hroom2].
    + destruct l as [|[i0 p0] l]; [simpl in Hfull2; unfold QUEUE_MAX_SIZE in *; lia|].
      exists l. eexists. split; [reflexivity|]. split; [|split].
      * apply add_wf. destruct Hwfl as [H1 H2]. simpl in H1, H2.
        apply StronglySorted_inv in H1 as [H1 _]. apply Forall_cons in H2 as [_ H2]. by split.
      * unfold set. simpl in *. rewrite length_app. simpl. lia.
      * unfold set. simpl in *. split; [done|]. split.
        { rewrite length_app. simpl. unfold QUEUE_WARN_SIZE in *.
          destruct (Z.leb_spec (QUEUE_MAX_SIZE * 8 / 10) (Z.of_nat (S (length l)) + 1)),
            (Z.leb_spec (QUEUE_MAX_SIZE * 8 / 10) (Z.of_nat (length l + 1)%nat)); try done;
          unfold QUEUE_MAX_SIZE in *; change (10000 * 8 / 10) with 8000 in *; lia. }
        split; [unfold QUEUE_MAX_SIZE in *; lia|]. split; [done|]. intros _. split; [lia|].
        rewrite <- Hall by lia. done.
    + exists l. eexists. split; [reflexivity|]. split; [by apply add_wf|].
      unfold set. simpl. rewrite length_app. simpl.
      split; [lia|]. split; [done|]. split; [f_equal; lia|]. split; [lia|]. by split.
  - rewrite ret_bind.
    destruct (Z.leb_spec QUEUE_MAX_SIZE (Z.of_nat (length (rows s)))); [lia|].
    exists (rows s). eexists. split; [destruct s; reflexivity|].
    split. { apply add_wf. by destruct s. }
    unfold set. simpl. rewrite length_app. simpl. split; [lia|]. split; [done|].
    split; [f_equal; lia|]. split; [done|]. split; [|done].
    intros _ id p Hin. exists id, p. split; [done|]. by left.
Qed.
End Recording.

Lemma enqueuePosition_spec_witness :
  let s := exampleQueue in
  ∃ kept r,
    let s' := s <| rows := kept ++ [(9, examplePosition <| queuedAt := Some "now" |>)] |>
                <| nextId ::= Z.succ |> in
    enqueuePosition (λ _, Some 1) 400000 "now" examplePosition s = (s', Ok r) ∧ queue_wf s' ∧
    Z.of_nat (length (rows s')) ≤ QUEUE_MAX_SIZE ∧ queued r = true ∧
    nearCapacity r = (QUEUE_WARN_SIZE <=? Z.of_nat (length (rows s'))) ∧
    (3 < QUEUE_MAX_SIZE → kept = rows s ∧ droppedOldest r = false) ∧
    (droppedOldest r = false → ∀ id p, (id, p) ∈ rows s → represented (λ _, Some 1) p kept id) ∧
    (droppedOldest r = true → 3 = QUEUE_MAX_SIZE ∧ kept.*1 = tail (rows s).*1).
Proof.
  apply (enqueuePosition_spec (λ _, Some 1) 400000 "now" examplePosition exampleQueue).
  - split; repeat constructor; reflexivity.
  - vm_compute. discriminate.
Defined.

(** ** Transactions in any order *)

Section Interleaving.
Context (dateParse : string → option Z).

(** Where a flush stands between its transactions. *)
Inductive Phase :=
  | Idle
  | Sending (batch : list (Z * Position))
  | Acknowledged (batch : list (Z * Position)).

(** The queue with a flush in progress, and what has been recorded, put in a
    batch the server acknowledged, and reported as dropped. *)
Record Device := mkDevice {
  queue : QueueState;
  phase : Phase;
  recorded : list (Z * Position);
  delivered : list (Z * Position);
  reported : list (Z * Position) }.

(** One transaction of [enqueuePosition] (compaction, eviction, addition) or
    of [flushQueue] (reading a batch, the server's answer, deleting the
    batch), or the end of the process, after which the store is still there. *)
Inductive Transaction :=
  | TAdd (iso : string) (pos : Position)
  | TCompact (now : Z)
  | TEvict
  | TRead (chunk : option Z)
  | TAnswer (ok : bool)
  | TDelete
  | TKill.

Definition step (d : Device) (t : Transaction) : Device :=
  match t, phase d with
  | TAdd iso pos, _ =>
      d <| queue := run_state (addPosition iso pos) (queue d) |>
        <| recorded ::= cons (nextId (queue d), pos <| queuedAt := Some iso |>) |>
  | TCompact now, _ => d <| queue := run_state (compactOldestPositions dateParse now) (queue d) |>
  | TEvict, _ =>
      d <| queue := run_state dequeueOldest (queue d) |>
        <| reported ::= app (take 1 (rows (queue d))) |>
  | TRead chunk, Idle => d <| phase := Sending (readCursor chunk [] (rows (queue d))) |>
  | TAnswer true, Sending b => d <| phase := Acknowledged b |> <| delivered ::= app b |>
  | TAnswer false, Sending b => d <| phase := Idle |>
  | TDelete, Acknowledged b =>
      d <| queue := run_state (deletePositions b.*1) (queue d) |> <| phase := Idle |>
  | TKill, _ => d <| phase := Idle |>
  | _, _ => d
  end.

Definition steps (ts : list Transaction) (d : Device) : Device := foldl step d ts.
Definition freshDevice (start : Z) : Device := mkDevice (mkQueueState [] start false []) Idle [] [] [].

(** A position, or one of its slice, is in the list. *)
Definition covers (l : list (Z * Position)) (r : Z * Position) : Prop := represented dateParse r.2 l r.1.
Definition held (d : Device) : list (Z * Position) := rows (queue d) ++ delivered d ++ reported d.

Definition batch_ok (d : Device) (b : list (Z * Position)) : Prop :=
  Forall (λ r, r.1 < nextId (queue d)) b ∧
  ∀ id p p', (id, p) ∈ b → (id, p') ∈ rows (queue d) → fixTime dateParse p' = fixTime dateParse p.

Definition device_inv (d : Device) : Prop :=
  queue_wf (queue d) ∧ (∀ r, r ∈ recorded d → covers (held d) r) ∧
  match phase d with
  | Idle => True
  | Sending b => batch_ok d b
  | Acknowledged b => batch_ok d b ∧ ∀ r, r ∈ b → r ∈ delivered d
  end.

Lemma covers_trans l l' r : covers l r → (∀ x, x ∈ l → covers l' x) → covers l' r.
Proof.
  intros (i & p & Hin & Hc) Hl. destruct (Hl (i, p) Hin) as (i' & p' & Hin' & Hc').
  exists i', p'. split; [done|]. simpl in *.
  destruct Hc as [[-> Hc]|Hc], Hc' as [[-> Hc']|(a & b & Ha & Hb & E)].
  - left. by rewrite Hc'.
  - right. exists a, b. by rewrite <- Hc.
  - right. destruct Hc as (a & b & Ha & Hb & E). exists a, b. by rewrite Hc'.
  - right. eapply sameSlice_trans; [exact Hc|]. by exists a, b.
Qed.

Lemma covers_here l r : r ∈ l → covers l r.
Proof. destruct r as [i p]. intros Hr. exists i, p. split; [done|]. by left. Qed.
Lemma covers_mono l l' r : l ⊆ l' → covers l r → covers l' r.
Proof. intros Hl Hc. apply (covers_trans l); [done|]. intros x Hx. apply covers_here; auto. Qed.

Lemma elem_of_readCursor chunk l r : r ∈ readCursor chunk [] l → r ∈ l.
Proof.
  rewrite readCursor_take. simpl. destruct chunk; [|done].
  intros Hr. by eapply elem_of_take in Hr as (i & ? & _); eapply list_elem_of_lookup_2.
Qed.

Lemma sorted_unique (l : list (Z * Position)) i p p' :
  StronglySorted Z.lt l.*1 → (i, p) ∈ l → (i, p') ∈ l → p = p'.
Proof.
  intros Hs%sorted_NoDup [a Ha]%list_elem_of_lookup [b Hb]%list_elem_of_lookup.
  assert (a = b) as ->; [|by simplify_eq].
  eapply (NoDup_lookup l.*1 a b i); [done| |]; rewrite list_lookup_fmap; [by rewrite Ha|by rewrite Hb].
Qed.

Lemma step_inv d t : device_inv d → device_inv (step d t).
Proof.
  intros Hinv. pose proof Hinv as (Hwf & Hcov & Hph).
  assert (Hhere : ∀ d', held d ⊆ held d' → recorded d' = recorded d →
    ∀ r, r ∈ recorded d' → covers (held d') r).
  { intros d' Hsub -> r Hr. by apply (covers_mono (held d)), Hcov. }
  destruct t as [iso pos|now| |chunk|[]| |]; simpl.
  - (* a recording adds its row *)
    unfold step, addPosition, run_state, modify. simpl.
    split; [|split].
    + apply add_wf. by destruct (queue d).
    + intros r Hr. apply elem_of_cons in Hr as [->|Hr].
      * apply covers_here. unfold held. simpl. set_solver.
      * apply (covers_mono (held d)); [unfold held; simpl; set_solver|by apply Hcov].
    + assert (Hb : ∀ b, batch_ok d b → batch_ok (step d (TAdd iso pos)) b).
      { intros b [Hlt Hag]. split; simpl.
        - eapply Forall_impl; [exact Hlt|]. simpl. lia.
        - intros id p p' Hp Hp'. apply elem_of_app in Hp' as [Hp'|Hp']; [by apply (Hag id)|].
          apply list_elem_of_singleton in Hp' as [= -> ->].
          rewrite Forall_forall in Hlt. specialize (Hlt _ Hp). simpl in Hlt. lia. }
      destruct (phase d) as [|b|b] eqn:E; simpl; rewrite ?E; [done|by apply Hb|].
      destruct Hph; split; [by apply Hb|done].
  - (* a compaction *)
    destruct (compaction dateParse now (queue d) Hwf) as (l & c & Hc & Hwfl & _ & _ & Hrep & Hold).
    unfold step, run_state. rewrite Hc. simpl. split; [done|]. split.
    + intros r Hr. apply (covers_trans (held d)); [by apply Hcov|]. unfold held. simpl.
      intros x Hx. apply elem_of_app in Hx as [Hx|Hx]; [|apply covers_here; set_solver].
      destruct x as [id p]. apply (covers_mono l); [set_solver|]. by apply Hrep.
    + assert (Hb : ∀ b, batch_ok d b → batch_ok (d <| queue := (queue d) <| rows := l |> |>) b).
      { intros b [Hlt Hag]. split; [done|]. simpl. intros id p p' Hp Hp'.
        destruct (Hold id p' Hp') as (p0 & Hp0 & ->). by apply (Hag id). }
      destruct (phase d) as [|b|b] eqn:E; simpl; rewrite ?E; [done|by apply Hb|].
      destruct Hph; split; [by apply Hb|done].
  - (* an eviction *)
    unfold step, dequeueOldest, run_state. destruct (rows (queue d)) as [|r0 l] eqn:El; simpl.
    + destruct d as [q0 ph0 re0 de0 rp0]. exact Hinv.
    + assert (Hb : ∀ b, batch_ok d b →
        batch_ok (d <| queue := (queue d) <| rows := l |> |> <| reported ::= cons r0 |>) b).
      { intros b [Hlt Hag]. split; [done|]. simpl. intros id p p' Hp Hp'.
        apply (Hag id); [done|]. rewrite El. by right. }
      split; [|split].
      * destruct Hwf as [H1 H2]. rewrite El in H1, H2. unfold queue_wf. simpl in *.
        apply StronglySorted_inv in H1 as [H1 _]. apply Forall_cons in H2 as [_ H2]. done.
      * apply Hhere; [|done]. unfold held. simpl. rewrite El. set_solver.
      * destruct (phase d) as [|b|b] eqn:E; simpl; rewrite ?E; [done|by apply Hb|].
        destruct Hph; split; [by apply Hb|done].
  - (* a batch is read *)
    destruct (phase d) as [|b|b] eqn:E; [|exact Hinv|exact Hinv].
    split; [done|]. split; [apply Hhere; done|]. simpl. split.
    + apply Forall_forall. intros r Hr. apply elem_of_readCursor in Hr.
      destruct Hwf as [_ H2]. rewrite Forall_fmap, Forall_forall in H2. by apply H2.
    + intros id p p' Hp Hp'. apply elem_of_readCursor in Hp. f_equal.
      by eapply sorted_unique; [apply Hwf| |].
  - destruct (phase d) as [|b|b] eqn:E; [exact Hinv| |exact Hinv].
    split; [done|]. split.
    + apply Hhere; [|done]. unfold held. simpl. set_solver.
    + simpl. split; [done|]. set_solver.
  - destruct (phase d) as [|b|b] eqn:E; [exact Hinv| |exact Hinv].
    split; [done|]. split; [|done]. apply Hhere; done.
  - (* an acknowledged batch is deleted *)
    destruct (phase d) as [|b|b] eqn:E; [exact Hinv|exact Hinv|].
    destruct Hph as [[_ Hag] Hdel]. destruct Hwf as [H1 H2].
    unfold run_state, deletePositions, modify. simpl.
    split; [split; simpl; [by apply StronglySorted_filter_ids|by apply Forall_without]|].
    split; [|done].
    intros r Hr. apply (covers_trans (held d)); [by apply Hcov|]. unfold held. simpl.
    intros [id p] Hx. apply elem_of_app in Hx as [Hx|Hx]; [|apply covers_here; set_solver].
    destruct (decide (id ∈ b.*1)) as [Hin|Hin].
    + apply list_elem_of_fmap in Hin as ([id' p'] & -> & Hin). simpl in *.
      exists id', p'. split; [specialize (Hdel _ Hin); set_solver|].
      left. split; [done|]. symmetry. by apply (Hag id').
    + apply covers_here, elem_of_app. left. apply list_elem_of_filter. done.
  - split; [done|]. split; [|done]. apply Hhere; done.
Qed.

(** However the transactions of recordings, compactions, evictions,
    flushes and restarts interleave, a recorded position (or one of the same
    45-second slice) is still queued, or was in a batch the server
    acknowledged, or was reported as dropped; so a position is only deleted
    after an acknowledgement, and an unacknowledged batch stays queued. *)
Theorem no_silent_loss start ts r :
  let d := steps ts (freshDevice start) in
  r ∈ recorded d → covers (rows (queue d) ++ delivered d ++ reported d) r.
Proof.
  intros d Hr. assert (Hinv : device_inv d); [|by apply Hinv].
  unfold d, steps. clear. assert (H0 : device_inv (freshDevice start)).
  { split; [split; constructor|]. split; [|done]. intros r Hr. by apply not_elem_of_nil in Hr. }
  revert H0. generalize (freshDevice start). induction ts as [|t ts IH]; intros d Hd; [done|].
  apply IH, step_inv, Hd.
Qed.
End Interleaving.

Lemma no_silent_loss_witness :
  let d := steps (λ _, Some 1) [TAdd "t0" examplePosition; TAdd "t1" examplePosition; TRead (Some 1);
             TCompact 400000; TAnswer true; TDelete] (freshDevice 1) in
  covers (λ _, Some 1) (rows (queue d) ++ delivered d ++ reported d)
    (2, examplePosition <| queuedAt := Some "t1" |>).
Proof.
  apply (no_silent_loss (λ _, Some 1) 1 [TAdd "t0" examplePosition; TAdd "t1" examplePosition;
    TRead (Some 1); TCompact 400000; TAnswer true; TDelete]).
  vm_compute. left.
Defined.
