(* ===== verification/PrismaMiddleware.v ===== *)
(** * Prisma middlewares

    backend/src/common/prisma/uuid-safety.middleware.ts and
    tenant-scope.middleware.ts, common/encryption/: what happens to every
    query between a service and the database.  A query's arguments are a
    JavaScript object; the crypto library's AES-256-GCM is a parameter. *)

From S2P Require Import Prelude JsString.
#[local] Open Scope Z_scope.

(** ** JavaScript values

    An object is the list of its own properties; [JOther] is a value without
    own enumerable properties (a Date, a Decimal). *)
Inductive Js :=
  | JNull
  | JBool (b : bool)
  | JNum (n : Z)
  | JStr (s : string)
  | JOther (text : string)
  | JArr (items : list Js)
  | JObj (props : list (string * Js)).

Definition getProp (k : string) (ps : list (string * Js)) : option Js :=
  snd <$> List.find (λ p, bool_decide (p.1 = k)) ps.

(** [obj[k] = v]. *)
Fixpoint setProp (k : string) (v : Js) (ps : list (string * Js)) : list (string * Js) :=
  match ps with
  | [] => [(k, v)]
  | (k', v') :: ps' => if bool_decide (k' = k) then (k, v) :: ps' else (k', v') :: setProp k v ps'
  end.

(** [Boolean(v)]; no property is [undefined]. *)
Definition js_truthy (v : option Js) : bool :=
  match v with
  | None | Some JNull | Some (JBool false) | Some (JNum 0) | Some (JStr EmptyString) => false
  | _ => true
  end.

(** [Prisma.MiddlewareParams]. *)
Record Params := mkParams {
  model : option string;
  action : string;
  args : option Js }.

(** ** uuid-safety.middleware.ts *)

Definition endsWith (suffix s : string) : bool :=
  (String.length suffix <=? String.length s)%nat &&
  String.eqb (sliceFrom (String.length s - String.length suffix) s) suffix.

Definition UUID_FIELDS : list string :=
  ["id"; "userId"; "companyId"; "driverId"; "vehicleId"; "deliveryId"; "subscriptionId"; "planId";
   "geofenceId"; "zoneId"; "invitationId"; "sessionId"; "webhookId"; "apiKeyId"; "notificationId";
   "auditLogId"; "fuelRecordId"; "reportId"; "alertId"; "roleId"; "tokenId"; "deviceId";
   "assignedDriverId"; "createdById"; "updatedById"; "deletedById"; "parentId"; "ownerId"].

Definition isUuidField (fieldName : string) : bool :=
  bool_decide (fieldName ∈ UUID_FIELDS) || endsWith "Id" fieldName.

Fixpoint sanitizeArgs (v : Js) : Js :=
  match v with
  | JObj ps =>
      JObj ((fix go ps := match ps with
             | [] => []
             | (k, JStr EmptyString) :: ps' =>
                 (k, if isUuidField k then JNull else JStr EmptyString) :: go ps'
             | (k, w) :: ps' => (k, sanitizeArgs w) :: go ps'
             end) ps)
  | JArr l => JArr ((fix go l := match l with [] => [] | w :: l' => sanitizeArgs w :: go l' end) l)
  | _ => v
  end.

Definition uuidSafetyMiddleware (p : Params) : Params := p <| args ::= fmap sanitizeArgs |>.

(** ** tenant-scope.middleware.ts *)

Definition TENANT_SCOPED_MODELS : list string :=
  ["User"; "Vehicle"; "Driver"; "Delivery"; "Geofence"; "Notification"; "CompanySettings";
   "CompanyFuelSettings"; "FuelLog"; "FuelPriceHistory"; "MaintenanceRecord";
   "VehicleMaintenanceSchedule"; "DailyFuelReport"; "DriverScore"; "Invitation"; "AuditLog"; "ApiKey";
   "Webhook"; "Invoice"; "Subscription"; "UsageRecord"; "PaymentProof"].

Definition SCOPED_BULK_ACTIONS : list string :=
  ["findFirst"; "findFirstOrThrow"; "findMany"; "count"; "aggregate"; "groupBy"; "updateMany";
   "deleteMany"].

(** [if (!item.companyId) item.companyId = companyId] on an object. *)
Definition stamp (cid : string) (v : Js) : Js :=
  match v with
  | JObj ps => if js_truthy (getProp "companyId" ps) then v else JObj (setProp "companyId" (JStr cid) ps)
  | _ => v
  end.

(** [{ ...where, companyId }]. *)
Definition scopeWhere (cid : string) (v : Js) : Js :=
  match v with
  | JObj ps => JObj (setProp "companyId" (JStr cid) ps)
  | _ => JObj [("companyId", JStr cid)]
  end.

(** [if (args.data)] for a creation; [for (const item of data)] throws on what
    is not iterable. *)
Definition stampData (act cid : string) (ps : list (string * Js)) : result (list (string * Js)) :=
  match getProp "data" ps with
  | Some d =>
      if bool_decide (act = "create") then Ok (setProp "data" (stamp cid d) ps)
      else if bool_decide (act = "createMany") && js_truthy (Some d) then
        match d with
        | JArr l => Ok (setProp "data" (JArr (map (stamp cid) l)) ps)
        | _ => Throw (OtherError "data is not iterable")
        end
      else Ok ps
  | None => Ok ps
  end.

Definition scopeQuery (act cid : string) (ps : list (string * Js)) : list (string * Js) :=
  if js_truthy (getProp "where" ps)
  then setProp "where" (scopeWhere cid (default JNull (getProp "where" ps))) ps
  else if bool_decide (act ∈ SCOPED_BULK_ACTIONS)
  then setProp "where" (JObj [("companyId", JStr cid)]) ps
  else ps.

(** The company of the request is in the asynchronous context, if any. *)
Definition tenantScopeMiddleware (companyId : option string) (p : Params) : result Params :=
  match companyId, model p with
  | Some cid, Some m =>
      if truthy companyId && bool_decide (m ∈ TENANT_SCOPED_MODELS) then
        match stampData (action p) cid (match args p with Some (JObj ps) => ps | _ => [] end) with
        | Ok ps => Ok (p <| args := Some (JObj (scopeQuery (action p) cid ps)) |>)
        | Throw e => Throw e
        end
      else Ok p
  | _, _ => Ok p
  end.

(** company-scope.interceptor.ts: the company a request runs for. *)
Definition requestCompany (companyId userCompanyId : option string) : option string :=
  let c := if truthy companyId then companyId else userCompanyId in
  if truthy c then c else None.

(** ** Encryption at rest *)

(** [buffer.toString('hex')] and [Buffer.from(text, 'hex')]. *)
Definition hexChar (n : nat) : ascii :=
  ascii_of_nat (if (n <? 10)%nat then 48 + n else 87 + n).
Fixpoint toHex (s : string) : string :=
  match s with
  | EmptyString => EmptyString
  | String c s' =>
      let n := nat_of_ascii c in
      String (hexChar (n / 16)) (String (hexChar (n mod 16)) (toHex s'))
  end.
Definition hexNibble (c : ascii) : option nat :=
  let n := nat_of_ascii c in
  if (48 <=? n)%nat && (n <=? 57)%nat then Some (n - 48)%nat
  else if (97 <=? n)%nat && (n <=? 102)%nat then Some (n - 87)%nat
  else if (65 <=? n)%nat && (n <=? 70)%nat then Some (n - 55)%nat
  else None.
(** Reading stops at the first pair that is not hexadecimal. *)
Fixpoint fromHex (s : string) : string :=
  match s with
  | String a (String b s') =>
      match hexNibble a, hexNibble b with
      | Some h, Some l => String (ascii_of_nat (16 * h + l)) (fromHex s')
      | _, _ => EmptyString
      end
  | _ => EmptyString
  end.

(** createCipheriv and createDecipheriv of 'aes-256-gcm': a ciphertext and its
    authentication tag; decryption fails on a wrong tag. *)
Class Aead := {
  gcmEncrypt : string → string → string → string * string;
  gcmDecrypt : string → string → string → string → option string }.

Section Encryption.
Context `{Aead} (key : option string).

Definition isEnabled : bool := match key with Some _ => true | None => false end.

Definition encrypt (iv plaintext : string) : option string :=
  k ← key;
  let (ct, tag) := gcmEncrypt k iv plaintext in
  Some (toHex iv +:+ ":" +:+ toHex tag +:+ ":" +:+ toHex ct).

Definition decrypt (ciphertext : string) : option string :=
  k ← key;
  match split_on ":" ciphertext with
  | [iv; tag; ct] => gcmDecrypt k (fromHex iv) (fromHex tag) (fromHex ct)
  | _ => None
  end.

Definition SENSITIVE_FIELDS : list (string * string) :=
  [("User", "phone"); ("User", "totpSecret"); ("Company", "phone"); ("Company", "address");
   ("Driver", "phone"); ("Delivery", "pickupAddress"); ("Delivery", "deliveryAddress");
   ("PlatformAdmin", "totpSecret"); ("Webhook", "secret")].
Definition sensitiveOf (m : option string) : list string :=
  omap (λ mf, if bool_decide (m = Some mf.1) then Some mf.2 else None) SENSITIVE_FIELDS.

Definition isWriteAction (a : string) : bool :=
  bool_decide (a ∈ ["create"; "update"; "updateMany"; "upsert"]).
Definition isReadAction (a : string) : bool :=
  bool_decide (a ∈ ["findUnique"; "findFirst"; "findMany"; "findFirstOrThrow"; "findUniqueOrThrow"]).

(** One field of a target; [iv] is the random vector drawn for it. *)
Definition encryptField (iv : string → string) (ps : list (string * Js)) (f : string) : list (string * Js) :=
  match getProp f ps with
  | Some (JStr s) =>
      if truthy (Some s) then
        match encrypt (iv f) s with Some c => setProp f (JStr c) ps | None => ps end
      else ps
  | _ => ps
  end.
Definition encryptTarget (iv : string → string) (fields : list string) (v : Js) : Js :=
  match v with JObj ps => JObj (foldl (encryptField iv) ps fields) | _ => v end.

(** The targets of a write: [create] and [update], or [data]. *)
Definition encryptProp (iv : string → string) (fields : list string) (ps : list (string * Js))
    (k : string) : list (string * Js) :=
  match getProp k ps with
  | Some v => if js_truthy (Some v) then setProp k (encryptTarget iv fields v) ps else ps
  | None => ps
  end.
Definition encryptArgs (iv : string → string) (p : Params) : Params :=
  let fields := sensitiveOf (model p) in
  if isEnabled && isWriteAction (action p) then
    match args p with
    | Some (JObj ps) =>
        p <| args := Some (JObj (
               if js_truthy (getProp "create" ps)
               then foldl (encryptProp iv fields) ps ["create"; "update"]
               else encryptProp iv fields ps "data")) |>
    | _ => p
    end
  else p.

Definition decryptField (ps : list (string * Js)) (f : string) : list (string * Js) :=
  match getProp f ps with
  | Some (JStr s) =>
      if includes ":" s then
        match decrypt s with Some d => setProp f (JStr d) ps | None => ps end
      else ps
  | _ => ps
  end.
Definition decryptRow (fields : list string) (v : Js) : Js :=
  match v with JObj ps => JObj (foldl decryptField ps fields) | _ => v end.
Definition decryptResult (m : option string) (act : string) (result : option Js) : option Js :=
  if isEnabled && isReadAction act then
    match result with
    | Some (JArr l) => Some (JArr (map (decryptRow (sensitiveOf m)) l))
    | Some v => Some (decryptRow (sensitiveOf m) v)
    | None => None
    end
  else result.

(** ** The chain, in the order of the [$use] calls *)
Definition prismaChain (companyId : option string) (iv : string → string) (p : Params) : result Params :=
  match tenantScopeMiddleware companyId (uuidSafetyMiddleware p) with
  | Ok p' => Ok (encryptArgs iv p')
  | Throw e => Throw e
  end.
End Encryption.
