(* ===== verification/PrismaMiddlewareProps.v ===== *)
(** * Correctness of the Prisma middlewares

    Empty identifiers become null and nothing else changes; a query of a
    company on a scoped model only selects rows of that company; a sensitive
    field is stored encrypted and read back as it was written. *)

From S2P Require Import Prelude JsString PrismaMiddleware.
#[local] Open Scope Z_scope.

(** ** Properties of objects *)

Lemma getProp_setProp k v k' ps :
  getProp k' (setProp k v ps) = if bool_decide (k' = k) then Some v else getProp k' ps.
Proof.
  unfold getProp. induction ps as [|[j w] ps IH]; simpl.
  - repeat case_bool_decide; simplify_eq; done.
  - destruct (bool_decide (j = k)) eqn:E; simpl.
    + apply bool_decide_eq_true in E as ->. repeat case_bool_decide; simplify_eq; done.
    + apply bool_decide_eq_false in E. destruct (bool_decide (j = k')) eqn:E'; [|apply IH].
      apply bool_decide_eq_true in E' as ->. by rewrite bool_decide_eq_false_2.
Qed.

Lemma getProp_cons k k' v ps :
  getProp k ((k', v) :: ps) = if bool_decide (k' = k) then Some v else getProp k ps.
Proof. unfold getProp. simpl. by destruct (bool_decide (k' = k)). Qed.

(** ** Empty identifiers *)

(** A place in a value: a chain of properties and indexes. *)
Fixpoint at_path (path : list (string + nat)) (v : Js) : option Js :=
  match path with
  | [] => Some v
  | inl k :: path' => match v with JObj ps => w ← getProp k ps; at_path path' w | _ => None end
  | inr i :: path' => match v with JArr l => w ← l !! i; at_path path' w | _ => None end
  end.

(** What the middleware leaves of a value reached by a last step. *)
Definition sanitized (step : option (string + nat)) (v : Js) : Js :=
  match step, v with
  | Some (inl k), JStr EmptyString => if isUuidField k then JNull else v
  | _, _ => sanitizeArgs v
  end.

Definition sanitizeProps (ps : list (string * Js)) : list (string * Js) :=
  map (λ p, (p.1, sanitized (Some (inl p.1)) p.2)) ps.

Lemma sanitize_JObj ps : sanitizeArgs (JObj ps) = JObj (sanitizeProps ps).
Proof.
  simpl. f_equal. induction ps as [|[k w] ps IH]; [done|]. unfold sanitizeProps in *. simpl.
  destruct w as [| | |[|c s]| | |]; by rewrite IH.
Qed.

Lemma sanitize_JArr l : sanitizeArgs (JArr l) = JArr (map sanitizeArgs l).
Proof. simpl. by f_equal; induction l as [|w l IH]; simpl; rewrite ?IH. Qed.

Lemma getProp_sanitizeProps k ps :
  getProp k (sanitizeProps ps) = sanitized (Some (inl k)) <$> getProp k ps.
Proof.
  induction ps as [|[k' w] ps IH]; [done|]. unfold sanitizeProps in *. simpl.
  rewrite !getProp_cons. case_bool_decide as E; [by subst|done].
Qed.

(** C18: in the arguments that reach the database, the value at any place is
    the one the caller gave, except that an empty string under an identifier
    field, at any depth, is null; the fields concerned are id and those whose
    name ends in Id. *)
Theorem uuidSafety_exact p path :
  (args (uuidSafetyMiddleware p) ≫= at_path path) =
    (args p ≫= at_path path) ≫= (λ v, Some (sanitized (last path) v)) ∧
  (∀ k, isUuidField k = bool_decide (k = "id") || endsWith "Id" k).
Proof.
  split.
  - destruct p as [m a [v|]]; [|done]. unfold uuidSafetyMiddleware, set. simpl.
    assert (H : ∀ path v, at_path path (sanitizeArgs v) =
      (match path with [] => Some (sanitizeArgs v) | _ => at_path path v ≫= λ w, Some (sanitized (last path) w) end)).
    { clear. intros path. induction path as [|[k|i] path IH]; intros v; [done| |].
      - destruct v as [| | | | | |ps]; try done. rewrite sanitize_JObj. simpl at_path.
        rewrite getProp_sanitizeProps. destruct (getProp k ps) as [w|]; [|done]. simpl.
        destruct path as [|st path]; [done|].
        assert (Hw : ∀ w, at_path (st :: path) (sanitized (Some (inl k)) w) =
          at_path (st :: path) (sanitizeArgs w)).
        { intros []; try done. destruct s; [|done]. simpl. destruct (isUuidField k), st; done. }
        etrans; [apply (Hw w)|]. rewrite IH. by rewrite last_cons_cons.
      - destruct v as [| | | | |l|]; try done. rewrite sanitize_JArr. simpl at_path.
        rewrite list_lookup_fmap. destruct (l !! i) as [w|]; [|done]. simpl.
        rewrite IH. destruct path; [done|]. by rewrite last_cons_cons. }
    rewrite H. destruct path; [|done]. simpl. by destruct v as [| | |[]| | |].
  - intros k. unfold isUuidField. destruct (endsWith "Id" k) eqn:E; [by rewrite !orb_true_r|].
    rewrite !orb_false_r. destruct (decide (k = "id")) as [->|Hn]; [done|].
    rewrite (bool_decide_eq_false_2 (k = "id")) by done. apply bool_decide_eq_false_2.
    intros Hin. unfold UUID_FIELDS in Hin.
    repeat (apply elem_of_cons in Hin as [->|Hin]; [vm_compute in E; done || by apply Hn|]).
    by apply not_elem_of_nil in Hin.
Qed.

(** ** Tenant scoping *)

Section Scoping.
Context {Row : Type} (company : Row → string) (fieldMatches : string → Js → Row → bool).

(** A Prisma filter selects the rows that match each of its fields; the
    filter [companyId: c] selects the rows of company c. *)
Definition selectedBy (where_ : option Js) (r : Row) : bool :=
  match where_ with Some (JObj ps) => forallb (λ p, fieldMatches p.1 p.2 r) ps | _ => true end.
Definition selectedByOthers (where_ : option Js) (r : Row) : bool :=
  match where_ with
  | Some (JObj ps) => forallb (λ p, bool_decide (p.1 = "companyId") || fieldMatches p.1 p.2 r) ps
  | _ => true
  end.

Definition noDuplicates (v : option Js) : Prop :=
  match v with Some (JObj ps) => NoDup ps.*1 | _ => True end.

Lemma forallb_setProp k v ps r : NoDup ps.*1 →
  forallb (λ p, fieldMatches p.1 p.2 r) (setProp k v ps) =
  fieldMatches k v r && forallb (λ p, bool_decide (p.1 = k) || fieldMatches p.1 p.2 r) ps.
Proof.
  induction ps as [|[k' w] ps IH]; [done|]. rewrite fmap_cons. intros [Hk Hnd]%NoDup_cons. simpl.
  destruct (bool_decide (k' = k)) eqn:E; simpl.
  - apply bool_decide_eq_true in E as ->. f_equal.
    clear IH Hnd. induction ps as [|[j x] ps IH]; [done|]. simpl in *.
    rewrite bool_decide_eq_false_2 by set_solver. simpl. f_equal. apply IH. set_solver.
  - rewrite IH by done. destruct (fieldMatches k' w r), (fieldMatches k v r); done.
Qed.

(** The query part of the arguments after scoping. *)
Lemma where_scopeQuery act cid ps r :
  noDuplicates (getProp "where" ps) →
  (∀ c, fieldMatches "companyId" (JStr c) r = bool_decide (company r = c)) →
  js_truthy (getProp "where" ps) = true ∨ act ∈ SCOPED_BULK_ACTIONS →
  selectedBy (getProp "where" (scopeQuery act cid ps)) r =
  bool_decide (company r = cid) && selectedByOthers (getProp "where" ps) r.
Proof.
  intros Hnd Hm Hor. unfold scopeQuery.
  destruct (js_truthy (getProp "where" ps)) eqn:Et.
  - rewrite getProp_setProp, bool_decide_eq_true_2 by done.
    destruct (getProp "where" ps) as [[| | | | | |qs]|]; try done; simpl; try by rewrite Hm.
    by rewrite forallb_setProp, Hm.
  - destruct Hor as [?|Hb]; [done|]. rewrite (bool_decide_eq_true_2 _ Hb).
    rewrite getProp_setProp, bool_decide_eq_true_2 by done. simpl. rewrite Hm.
    destruct (getProp "where" ps) as [[| | | | | |qs]|]; done.
Qed.

Lemma getProp_scopeQuery act cid ps k : k ≠ "where" →
  getProp k (scopeQuery act cid ps) = getProp k ps.
Proof.
  intros Hk. unfold scopeQuery.
  repeat case_match; rewrite ?getProp_setProp, ?bool_decide_eq_false_2 by done; done.
Qed.

Lemma getProp_stampData act cid ps ps' k : stampData act cid ps = Ok ps' → k ≠ "data" →
  getProp k ps' = getProp k ps.
Proof.
  unfold stampData. intros H Hk.
  repeat case_match; simplify_eq; rewrite ?getProp_setProp, ?bool_decide_eq_false_2 by done; done.
Qed.

(** The company of a value that is created. *)
Definition ownerOf (v : Js) : option Js :=
  match v with JObj ps => getProp "companyId" ps | _ => None end.

Lemma ownerOf_stamp cid v : cid ≠ "" →
  match v with JObj _ => js_truthy (ownerOf (stamp cid v)) = true | _ => True end ∧
  (ownerOf (stamp cid v) = ownerOf v ∨ ownerOf (stamp cid v) = Some (JStr cid)).
Proof.
  intros Hc. destruct v as [| | | | | |ps]; simpl; try by (split; [done|left]).
  destruct (js_truthy (getProp "companyId" ps)) eqn:E; simpl; [by split; [|left]|].
  rewrite getProp_setProp, bool_decide_eq_true_2 by done. split; [|by right].
  destruct cid; done.
Qed.
End Scoping.


(** Rows that are the name of their company. *)
Definition exampleMatches (k : string) (v : Js) (r : string) : bool :=
  match v with JStr c => bool_decide (r = c) | _ => false end.
Definition exampleQuery : Params :=
  mkParams (Some "Delivery") "updateMany" (Some (JObj [("data", JObj [("status", JStr "failed")])])).


(** ** Encryption round trip *)

Definition hexDigits : string := "0123456789abcdef".

Lemma hexNibble_hexChar n : (n < 16)%nat → hexNibble (hexChar n) = Some n ∧ hexChar n ≠ ":"%char.
Proof. intros Hn. do 16 (destruct n as [|n]; [done|]). lia. Qed.

Lemma fromHex_toHex s : fromHex (toHex s) = s.
Proof.
  induction s as [|c s IH]; [done|]. cbn [toHex fromHex].
  assert (Hc := nat_ascii_bounded c).
  assert (H1 : (nat_of_ascii c / 16 < 16)%nat) by (apply Nat.Div0.div_lt_upper_bound; lia).
  assert (H2 : (nat_of_ascii c mod 16 < 16)%nat) by (apply Nat.mod_upper_bound; lia).
  destruct (hexNibble_hexChar _ H1) as [-> _]. destruct (hexNibble_hexChar _ H2) as [-> _].
  rewrite IH. rewrite <- Nat.div_mod_eq. by rewrite ascii_nat_embedding.
Qed.

Lemma split_on_noSep sep s t :
  allChars (λ c, negb (bool_decide (c = sep))) s →
  split_on sep (s +:+ String sep t) = s :: split_on sep t.
Proof.
  induction s as [|c s IH]; intros Hs; simpl.
  - by rewrite bool_decide_eq_true_2.
  - apply allChars_cons in Hs as [Hc Hs]. apply negb_true_iff in Hc. rewrite Hc.
    change (String.append s (String sep t)) with (s +:+ String sep t). by rewrite (IH Hs).
Qed.

Lemma split_on_alone sep s :
  allChars (λ c, negb (bool_decide (c = sep))) s → split_on sep s = [s].
Proof.
  induction s as [|c s IH]; intros Hs; [done|]. simpl.
  apply allChars_cons in Hs as [Hc Hs]. apply negb_true_iff in Hc. by rewrite Hc, (IH Hs).
Qed.

Lemma toHex_noColon s : allChars (λ c, negb (bool_decide (c = ":"%char))) (toHex s).
Proof.
  induction s as [|c s IH]; [constructor|]. cbn [toHex]. assert (Hc := nat_ascii_bounded c).
  rewrite !allChars_cons. split; [|split; [|done]]; apply negb_true_iff, bool_decide_eq_false_2;
    apply hexNibble_hexChar.
  - apply Nat.Div0.div_lt_upper_bound; lia.
  - apply Nat.mod_upper_bound; lia.
Qed.

(** What the library promises: decryption with the same key, vector and tag
    gives the plaintext back. *)
Class AeadLaw `{Aead} := gcm_roundtrip k iv pt :
  gcmDecrypt k iv (gcmEncrypt k iv pt).2 (gcmEncrypt k iv pt).1 = Some pt.

Section RoundTrip.
Context `{AeadLaw}.

Lemma includes_app_colon a b : includes ":" (a +:+ String ":" b) = true.
Proof.
  induction a as [|c a IH]; [by destruct b|].
  change (String c a +:+ String ":" b) with (String c (a +:+ String ":" b)).
  cbn [includes]. by rewrite IH, orb_true_r.
Qed.

Lemma decrypt_encrypt key iv s c : encrypt key iv s = Some c →
  decrypt key c = Some s ∧ includes ":" c = true.
Proof.
  unfold encrypt, decrypt. destruct key as [k|]; [|done]. simpl.
  destruct (gcmEncrypt k iv s) as [ct tag] eqn:E. intros [= <-].
  change (toHex iv +:+ ":" +:+ toHex tag +:+ ":" +:+ toHex ct) with
    (toHex iv +:+ String ":" (toHex tag +:+ String ":" (toHex ct))).
  split; [|apply includes_app_colon].
  rewrite split_on_noSep by apply toHex_noColon.
  rewrite split_on_noSep by apply toHex_noColon.
  rewrite split_on_alone by apply toHex_noColon.
  rewrite !fromHex_toHex. assert (Hr := gcm_roundtrip k iv s). by rewrite E in Hr.
Qed.

(** A field as it is stored, and as it is read. *)
Definition storedValue key iv (f : string) (v : option Js) : option Js :=
  match v with
  | Some (JStr s) => if truthy (Some s) then Some (JStr (default s (encrypt key (iv f) s))) else v
  | _ => v
  end.
Definition readValue key (f : string) (v : option Js) : option Js :=
  match v with
  | Some (JStr s) => if includes ":" s then Some (JStr (default s (decrypt key s))) else v
  | _ => v
  end.

Lemma getProp_encryptField key iv ps f g :
  getProp g (encryptField key iv ps f) =
  if bool_decide (g = f) then storedValue key iv f (getProp f ps) else getProp g ps.
Proof.
  unfold encryptField, storedValue.
  destruct (bool_decide (g = f)) eqn:E.
  - apply bool_decide_eq_true in E as ->.
    destruct (getProp f ps) as [[| | |s| | |]|] eqn:Ef; try done.
    destruct (truthy (Some s)); [|done]. destruct (encrypt key (iv f) s); [|done].
    by rewrite getProp_setProp, bool_decide_eq_true_2.
  - destruct (getProp f ps) as [[| | |s| | |]|]; try done.
    destruct (truthy (Some s)); [|done]. destruct (encrypt key (iv f) s); [|done].
    by rewrite getProp_setProp, E.
Qed.

Lemma getProp_decryptField key ps f g :
  getProp g (decryptField key ps f) =
  if bool_decide (g = f) then readValue key f (getProp f ps) else getProp g ps.
Proof.
  unfold decryptField, readValue.
  destruct (bool_decide (g = f)) eqn:E.
  - apply bool_decide_eq_true in E as ->.
    destruct (getProp f ps) as [[| | |s| | |]|] eqn:Ef; try done.
    destruct (includes ":" s); [|done]. destruct (decrypt key s); [|done].
    by rewrite getProp_setProp, bool_decide_eq_true_2.
  - destruct (getProp f ps) as [[| | |s| | |]|]; try done.
    destruct (includes ":" s); [|done]. destruct (decrypt key s); [|done].
    by rewrite getProp_setProp, E.
Qed.

(** Folding an operation that only looks at and changes its own field. *)
Lemma getProp_foldl (op : list (string * Js) → string → list (string * Js))
    (f : string → option Js → option Js) fields ps g :
  (∀ ps k g, getProp g (op ps k) = if bool_decide (g = k) then f k (getProp k ps) else getProp g ps) →
  NoDup fields →
  getProp g (foldl op ps fields) =
  if bool_decide (g ∈ fields) then f g (getProp g ps) else getProp g ps.
Proof.
  intros Hop. revert ps. induction fields as [|k fields IH]; intros ps Hnd; [done|].
  cbn [foldl]. apply NoDup_cons in Hnd as [Hk Hnd]. rewrite IH, !Hop by done.
  destruct (decide (g = k)) as [->|Hne].
  - rewrite (bool_decide_eq_false_2 (k ∈ fields)) by done.
    by rewrite !bool_decide_eq_true_2 by (done || left).
  - rewrite (bool_decide_ext (g ∈ k :: fields) (g ∈ fields)) by set_solver.
    by rewrite (bool_decide_eq_false_2 (g = k)).
Qed.

Lemma sensitiveOf_NoDup m : NoDup (sensitiveOf m).
Proof.
  destruct m as [m|]; [|constructor].
  destruct (decide (m ∈ ["User"; "Company"; "Driver"; "Delivery"; "PlatformAdmin"; "Webhook"])) as [Hin|Hn].
  - repeat (apply elem_of_cons in Hin as [->|Hin];
      [apply (bool_decide_eq_true_1 _); vm_compute; reflexivity|]).
    by apply not_elem_of_nil in Hin.
  - replace (sensitiveOf (Some m)) with (@nil string); [constructor|].
    symmetry. apply elem_of_nil_inv. intros f Hf. unfold sensitiveOf in Hf.
    apply list_elem_of_omap in Hf as ([m' f'] & Hin & Hx).
    case_bool_decide as Hm; [|done]. injection Hm as ->. apply Hn. simpl. clear -Hin.
    repeat (apply elem_of_cons in Hin as [[= -> ->]|Hin];
      [apply (bool_decide_eq_true_1 _); vm_compute; reflexivity|]).
    by apply not_elem_of_nil in Hin.
Qed.

End RoundTrip.

(** A cipher that writes the key before the text. *)
#[local] Instance exampleAead : Aead :=
  {| gcmEncrypt k iv pt := (k +:+ pt, "tag"); gcmDecrypt k iv tag ct := Some (sliceFrom (String.length k) ct) |}.

