(* ===== verification/Gps.v ===== *)
(** * common/geo: noise filtering, stops, resolved speed, teleportation, anchor

    geo.utils.ts, teleportation.utils.ts and stationary-anchor.ts over binary64
    numbers, comparison for comparison.  A [Date] is its millisecond count;
    [secs d] is the code's [d / 1000] of a difference of two [getTime()].
    An absent ([undefined] or [null]) field is [None]. *)

From Stdlib Require Import SpecFloat.
From S2P Require Import Prelude JsNum Geo.

#[local] Open Scope Z_scope.

(** ** Constants of geo.utils.ts *)

Definition GPS_NOISE_MAX_ACCURACY_SCALE : num := num_lit 15 10.
Definition GPS_ACCURACY_FALLBACK_M : num := num_of_Z 25.
Definition GPS_UNUSABLE_ACCURACY_M : num := num_of_Z 80.
Definition GPS_NOISE_SIGMA_K : num := num_of_Z 2.
Definition GPS_NOISE_FLOOR_M : num := num_of_Z 4.
Definition SPEED_TRUST_MAX_ACCURACY_M : num := num_of_Z 70.
Definition SPEED_DISTANCE_CAP_MULT : num := num_lit 15 10.
Definition MOVEMENT_SPEED_THRESHOLD_MS : num := num_of_Z 1.
Definition MOVEMENT_TRUST_MAX_ACCURACY_M : num := num_of_Z 30.
Definition STOP_CLUSTER_RADIUS_M : num := num_of_Z 50.
Definition STOP_CLUSTER_MIN_DURATION_S : num := num_of_Z 60.
Definition STATIONARY_MAX_SAMPLE_GAP_S : num := num_of_Z 60.
Definition STATIONARY_SPEED_MS : num := num_lit 5 10.
Definition RELIABLE_REPORTED_SPEED_MS : num := num_of_Z 3.
Definition SPEED_WINDOW_MIN_S : num := num_of_Z 12.
Definition SPEED_WINDOW_PAIR_MIN_MS : num := num_of_Z 1.
Definition GROUND_SPEED_MIN_DT_S : num := num_of_Z 1.
Definition GROUND_SPEED_MAX_DT_S : num := num_of_Z 120.
Definition WANDER_RATIO_THRESHOLD : num := num_of_Z 4.
Definition WANDER_MIN_AVG_ACCURACY_M : num := num_of_Z 35.
Definition WANDER_MIN_DISTANCE_KM : num := num_of_Z 3.

Definition Math_SQRT2 : num := S754_finite false 6369051672525773 (-52).
Definition zero : num := num_of_Z 0.

(** [(t1 - t2) / 1000]. *)
Definition secs (ms : Z) : num := num_div (num_of_Z ms) (num_of_Z 1000).

Definition isAccuracyTrustworthy (accuracy : option num) : bool :=
  match accuracy with None => true | Some a => num_leb a MOVEMENT_TRUST_MAX_ACCURACY_M end.

(** [accuracy != null && accuracy > 0 ? accuracy : fallback]. *)
Definition accuracyOr (fallback : num) (accuracy : option num) : num :=
  match accuracy with
  | Some a => if num_ltb zero a then a else fallback
  | None => fallback
  end.

(** [x != null && x > bound]. *)
Definition above (bound : num) (x : option num) : bool :=
  match x with Some v => num_ltb bound v | None => false end.

Section Gps.
Context (jm : JsMath).

Definition combinedGpsNoiseGate (accuracy1 accuracy2 : option num) : num :=
  let a1 := accuracyOr GPS_ACCURACY_FALLBACK_M accuracy1 in
  let a2 := accuracyOr GPS_ACCURACY_FALLBACK_M accuracy2 in
  Math_max GPS_NOISE_FLOOR_M (num_div (num_mul GPS_NOISE_SIGMA_K (Math_hypot jm a1 a2)) Math_SQRT2).

(** ** Ground speed *)

Inductive GroundSpeedSource := measured | derived | clamped_zero | unknown.

Record GroundSpeedRef := mkRef {
  gr_latitude : num;
  gr_longitude : num;
  gr_timestamp : Z;
  gr_accuracy : option num
}.

(** The loop of [selectSpeedWindowRef]. *)
Definition selectSpeedWindowRef (history : list GroundSpeedRef) (current : Z) : option GroundSpeedRef :=
  foldl (λ best f,
    let age := secs (current - gr_timestamp f) in
    if num_ltb age SPEED_WINDOW_MIN_S || num_ltb GROUND_SPEED_MAX_DT_S age then best
    else match best with
         | None => Some f
         | Some b => if gr_timestamp b <? gr_timestamp f then Some f else best
         end) None history.

Record ResolveGroundSpeedInput := mkSpeedInput {
  reportedSpeedMs : option num;
  previous : option GroundSpeedRef;
  current : GroundSpeedRef;
  currentTimestampIsServerFallback : bool;
  windowPrevious : option GroundSpeedRef
}.

Record ResolveGroundSpeedResult := mkSpeed { speedMs : num; source : GroundSpeedSource }.

(** [ref && Number.isFinite(ref.latitude) && Number.isFinite(ref.longitude)]. *)
Definition usableRef (ref : option GroundSpeedRef) : option GroundSpeedRef :=
  match ref with
  | Some p => if isFinite (gr_latitude p) && isFinite (gr_longitude p) then Some p else None
  | None => None
  end.

Definition metersBetween (p q : GroundSpeedRef) : num :=
  haversineDistance jm (gr_latitude p) (gr_longitude p) (gr_latitude q) (gr_longitude q).

(** [windowSpeedMs]: the motion proved on the window, given the pairwise
    distance and interval. *)
Definition windowSpeed (input : ResolveGroundSpeedInput) (movedMeters dtSec : num) : option num :=
  let cur := current input in
  if currentTimestampIsServerFallback input then None
  else match usableRef (windowPrevious input) with
  | None => None
  | Some w =>
      let wDt := secs (gr_timestamp cur - gr_timestamp w) in
      let wMoved := metersBetween w cur in
      let wGate := combinedGpsNoiseGate (gr_accuracy w) (gr_accuracy cur) in
      if num_leb SPEED_WINDOW_MIN_S wDt
         && num_leb wDt GROUND_SPEED_MAX_DT_S
         && num_ltb wGate wMoved
         && num_leb STATIONARY_SPEED_MS (num_div wMoved wDt)
         && num_ltb zero dtSec
         && num_leb SPEED_WINDOW_PAIR_MIN_MS (num_div movedMeters dtSec)
      then Some (num_div wMoved wDt) else None
  end.

Definition resolveGroundSpeed (input : ResolveGroundSpeedInput) : ResolveGroundSpeedResult :=
  let cur := current input in
  let reported :=
    match reportedSpeedMs input with
    | Some v => if isFinite v && num_ltb zero v then Some v else None
    | None => None
    end in
  let ref := usableRef (previous input) in
  let hasRef := match ref with Some _ => true | None => false end in
  let dtSec := match ref with Some p => secs (gr_timestamp cur - gr_timestamp p) | None => zero end in
  let movedMeters := match ref with Some p => metersBetween p cur | None => zero end in
  let prevAccuracy := previous input ≫= gr_accuracy in
  let gate := combinedGpsNoiseGate prevAccuracy (gr_accuracy cur) in
  let dtPositive :=
    hasRef && negb (currentTimestampIsServerFallback input)
    && num_ltb zero dtSec && isFinite movedMeters in
  let dtForDerivation :=
    dtPositive && num_leb GROUND_SPEED_MIN_DT_S dtSec && num_leb dtSec GROUND_SPEED_MAX_DT_S in
  let demonstrablyStationary :=
    dtPositive && (num_ltb movedMeters gate
                   || num_ltb (num_div (num_add movedMeters gate) dtSec) STATIONARY_SPEED_MS) in
  let windowSpeedMs := windowSpeed input movedMeters dtSec in
  match reported with
  | Some reported =>
      match (if demonstrablyStationary then windowSpeedMs else None) with
      | Some w => mkSpeed (Math_max reported w) measured
      | None =>
          if demonstrablyStationary && num_leb RELIABLE_REPORTED_SPEED_MS reported
             && num_leb (num_mul reported dtSec) (num_add movedMeters gate)
          then mkSpeed reported measured
          else if demonstrablyStationary then mkSpeed zero clamped_zero
          else if num_ltb reported STATIONARY_SPEED_MS then mkSpeed zero clamped_zero
          else mkSpeed reported measured
      end
  | None =>
      match (if isAccuracyTrustworthy (windowPrevious input ≫= gr_accuracy)
                && isAccuracyTrustworthy (gr_accuracy cur) then windowSpeedMs else None) with
      | Some w => mkSpeed w derived
      | None =>
          if dtForDerivation && num_leb gate movedMeters
             && isAccuracyTrustworthy prevAccuracy && isAccuracyTrustworthy (gr_accuracy cur)
          then
            let d := num_div movedMeters dtSec in
            if num_ltb d STATIONARY_SPEED_MS then mkSpeed zero clamped_zero else mkSpeed d derived
          else mkSpeed zero (if hasRef then clamped_zero else unknown)
      end
  end.

(** ** Stops *)

(** A position as the distance and stop computations read it ([StopFix],
    [RouteDistanceFix]). *)
Record StopFix := mkFix {
  latitude : num;
  longitude : num;
  accuracy : option num;
  speed : option num;
  timestamp : option Z
}.

Record StopWindow := mkWindow {
  startIndex : nat;
  endIndex : nat;
  w_latitude : num;
  w_longitude : num;
  durationSec : num
}.

(** [p.timestamp!.getTime()]. *)
Definition time (p : StopFix) : Z := default 0 (timestamp p).

Definition movingHere (p : StopFix) : bool :=
  above MOVEMENT_SPEED_THRESHOLD_MS (speed p) && isAccuracyTrustworthy (accuracy p).

(** The centre of a group of [count] fixes when [x] joins it. *)
Definition centreWith (c : num) (count : Z) (x : num) : num :=
  num_div (num_add (num_mul c (num_of_Z count)) x) (num_of_Z (count + 1)).

(** The three tests that break the inner loop at [p], after [prev]. *)
Definition breaks (prev : StopFix) (cLat cLng : num) (p : StopFix) : bool :=
  num_ltb STATIONARY_MAX_SAMPLE_GAP_S (secs (time p - time prev))
  || movingHere p
  || num_ltb STOP_CLUSTER_RADIUS_M (haversineDistance jm cLat cLng (latitude p) (longitude p)).

(** The inner loop of [detectStopWindows] from [j] = [i + count]: the number of
    fixes absorbed after [positions[i]], the last of them and the centre. *)
Fixpoint growStop (prev : StopFix) (cLat cLng : num) (count : Z) (rest : list StopFix)
  : nat * StopFix * num * num :=
  match rest with
  | p :: rest' =>
      if breaks prev cLat cLng p then (O, prev, cLat, cLng)
      else
        let '(k, last, la, ln) :=
          growStop p (centreWith cLat count (latitude p)) (centreWith cLng count (longitude p))
            (count + 1) rest' in
        (S k, last, la, ln)
  | [] => (O, prev, cLat, cLng)
  end.

(** The outer loop from index [i], [rest] being [positions.slice(i)]; [skip]
    counts the fixes of a recorded window that [i = end + 1] jumps over. *)
Fixpoint scanStops (skip : nat) (i : nat) (rest : list StopFix) : list StopWindow :=
  match rest with
  | [] => []
  | p :: rest' =>
      match skip with
      | S skip' => scanStops skip' (S i) rest'
      | O =>
          let '(k, last, cLat, cLng) := growStop p (latitude p) (longitude p) 1 rest' in
          let duration := secs (time last - time p) in
          if bool_decide (k ≠ O) && num_leb STOP_CLUSTER_MIN_DURATION_S duration
          then mkWindow i (i + k)%nat cLat cLng duration :: scanStops k (S i) rest'
          else scanStops O (S i) rest'
      end
  end.

Definition detectStopWindows (positions : list StopFix) : list StopWindow :=
  if (length positions <? 3)%nat || existsb (λ p, bool_decide (timestamp p = None)) positions then []
  else scanStops O O positions.

(** [{ ...positions[w.endIndex], latitude: w.latitude, longitude: w.longitude }]. *)
Definition moveTo (p : StopFix) (la ln : num) : StopFix :=
  {| latitude := la; longitude := ln; accuracy := accuracy p; speed := speed p; timestamp := timestamp p |}.

(** The loop of [collapseStationaryWindows] over the windows left, from index
    [k]. *)
Fixpoint collapseFrom (k : nat) (stops : list StopWindow) (positions : list StopFix) : list StopFix :=
  match stops with
  | [] => drop k positions
  | w :: stops' =>
      take (startIndex w - k) (drop k positions)
      ++ match positions !! endIndex w with
         | Some p => [moveTo p (w_latitude w) (w_longitude w)]
         | None => []
         end
      ++ collapseFrom (S (endIndex w)) stops' positions
  end.

Definition collapseStationaryWindows (positions : list StopFix) : list StopFix :=
  match detectStopWindows positions with
  | [] => positions
  | stops => collapseFrom O stops positions
  end.

(** ** Filtered distance *)

Record DistanceState := mkDist {
  totalDistance : num;
  runStart : option StopFix;
  runPending : num
}.

(** [speedTrusted(acc, spd)]. *)
Definition speedTrusted (acc : num) (spd : option num) : bool :=
  num_leb acc SPEED_TRUST_MAX_ACCURACY_M && above MOVEMENT_SPEED_THRESHOLD_MS spd.

(** One iteration, on the segment from [p1] to [p2]. *)
Definition distanceStep (st : DistanceState) (p1 p2 : StopFix) : DistanceState :=
  let segDist := haversineDistance jm (latitude p1) (longitude p1) (latitude p2) (longitude p2) in
  let a1 := accuracyOr GPS_ACCURACY_FALLBACK_M (accuracy p1) in
  let a2 := accuracyOr GPS_ACCURACY_FALLBACK_M (accuracy p2) in
  if num_ltb GPS_UNUSABLE_ACCURACY_M a1 && num_ltb GPS_UNUSABLE_ACCURACY_M a2
  then mkDist (totalDistance st) None zero
  else
    let dtSec :=
      match timestamp p1, timestamp p2 with
      | Some t1, Some t2 => Some (Math_max (num_of_Z 1) (secs (t2 - t1)))
      | _, _ => None
      end in
    if speedTrusted a1 (speed p1) || speedTrusted a2 (speed p2) then
      let maxSpeed := Math_max (default zero (speed p1)) (default zero (speed p2)) in
      let d := match dtSec with
               | Some dt => Math_min segDist (num_mul (num_mul maxSpeed dt) SPEED_DISTANCE_CAP_MULT)
               | None => segDist
               end in
      mkDist (num_add (totalDistance st) d) None zero
    else if num_leb (combinedGpsNoiseGate (Some a1) (Some a2)) segDist
    then mkDist (num_add (totalDistance st) segDist) None zero
    else
      let hasWeakSpeedSignal := above STATIONARY_SPEED_MS (speed p1) || above STATIONARY_SPEED_MS (speed p2) in
      let bothAccurate :=
        num_leb a1 MOVEMENT_TRUST_MAX_ACCURACY_M && num_leb a2 MOVEMENT_TRUST_MAX_ACCURACY_M in
      if bool_decide (dtSec = None) || negb (hasWeakSpeedSignal || bothAccurate) then st
      else
        let '(rs, pending) :=
          match runStart st with
          | Some rs =>
              if num_ltb STATIONARY_MAX_SAMPLE_GAP_S (secs (time p2 - time rs))
              then (p1, zero) else (rs, runPending st)
          | None => (p1, zero)
          end in
        let pending := num_add pending segDist in
        let netDist := haversineDistance jm (latitude rs) (longitude rs) (latitude p2) (longitude p2) in
        let ra := accuracyOr GPS_ACCURACY_FALLBACK_M (accuracy rs) in
        if num_leb (combinedGpsNoiseGate (Some ra) (Some a2)) netDist
        then mkDist (num_add (totalDistance st) pending) (Some p2) zero
        else mkDist (totalDistance st) (Some rs) pending.

Fixpoint distanceLoop (st : DistanceState) (p1 : StopFix) (rest : list StopFix) : DistanceState :=
  match rest with
  | [] => st
  | p2 :: rest' => distanceLoop (distanceStep st p1 p2) p2 rest'
  end.

Definition computeFilteredDistance (positions : list StopFix) : num :=
  match collapseStationaryWindows positions with
  | [] => zero
  | p :: rest => totalDistance (distanceLoop (mkDist zero None zero) p rest)
  end.

(** [Infinity] stands for the ratio of a null net displacement. *)
Definition isStationaryNoise (distanceKm netDisplacementKm avgAccuracy : num) : bool :=
  if num_ltb distanceKm WANDER_MIN_DISTANCE_KM then false
  else
    let wanderRatio :=
      if num_ltb zero netDisplacementKm then num_div distanceKm netDisplacementKm
      else S754_infinity false in
    num_ltb WANDER_RATIO_THRESHOLD wanderRatio && num_ltb WANDER_MIN_AVG_ACCURACY_M avgAccuracy.

(** ** Teleportation *)

Definition TELEPORT_SPEED_THRESHOLD_MS : num := num_lit 5556 100.
Definition TELEPORT_DISTANCE_THRESHOLD_M : num := num_of_Z 5000.
Definition TELEPORT_TIME_THRESHOLD_S : num := num_of_Z 10.
Definition INCOHERENT_JUMP_MAX_DT_S : num := num_of_Z 30.
Definition INCOHERENT_JUMP_SPEED_MARGIN : num := num_of_Z 2.
Definition INCOHERENT_JUMP_NOISE_MULT : num := num_of_Z 3.
Definition INCOHERENT_JUMP_MIN_SPEED_MS : num := num_of_Z 8.

Record TeleportReference := mkTeleportRef {
  tr_latitude : num;
  tr_longitude : num;
  tr_timestamp : Z;
  tr_speed : option num;
  tr_accuracy : option num
}.

Inductive TeleportReason := non_croissant | vitesse | saut_court | saut_incoherent.

Record TeleportEvaluation := mkEval {
  te_suspect : bool;
  te_reason : option TeleportReason;
  te_timeDiffSec : num;
  te_distance : num;
  te_speedMs : num
}.

(** [accuracy > 0 && accuracy <= MOVEMENT_TRUST_MAX_ACCURACY_M]. *)
Definition precise (accuracy : num) : bool :=
  num_ltb zero accuracy && num_leb accuracy MOVEMENT_TRUST_MAX_ACCURACY_M.

(** The truthiness of a number: neither zero nor NaN. *)
Definition num_truthy (x : num) : bool :=
  match x with S754_zero _ | S754_nan => false | _ => true end.

(** The distance the announced speeds and the noise make plausible, where the
    incoherent-jump rule applies. *)
Definition plausibleJump (reference : TeleportReference) (accuracy : option num) (speed : option num)
    (timeDiffSec : num) : option num :=
  match speed, accuracy with
  | Some speed, Some accuracy =>
      if num_leb (num_of_Z 1) timeDiffSec && num_leb timeDiffSec INCOHERENT_JUMP_MAX_DT_S
         && isFinite speed && precise accuracy
         && match tr_accuracy reference with None => true | Some a => precise a end
      then
        let refSpeed :=
          match tr_speed reference with Some v => if isFinite v then v else zero | None => zero end in
        Some (num_add
          (num_mul (num_mul (Math_max (Math_max speed refSpeed) INCOHERENT_JUMP_MIN_SPEED_MS) timeDiffSec)
             INCOHERENT_JUMP_SPEED_MARGIN)
          (num_mul INCOHERENT_JUMP_NOISE_MULT
             (combinedGpsNoiseGate (Some (default accuracy (tr_accuracy reference))) (Some accuracy))))
      else None
  | _, _ => None
  end.

Definition evaluateTeleportation (reference : TeleportReference) (latitude longitude : num)
    (timestamp : Z) (accuracy : option num) (speed : option num) : TeleportEvaluation :=
  let timeDiffSec := secs (timestamp - tr_timestamp reference) in
  if num_leb timeDiffSec zero then mkEval true (Some non_croissant) timeDiffSec zero zero
  else
    let distance := haversineDistance jm (tr_latitude reference) (tr_longitude reference) latitude longitude in
    let speedMs := num_div distance timeDiffSec in
    let accuracyScale :=
      match accuracy with
      | Some a =>
          if num_truthy a
          then Math_max (num_of_Z 1) (Math_min (num_div a (num_of_Z 10)) GPS_NOISE_MAX_ACCURACY_SCALE)
          else num_of_Z 1
      | None => num_of_Z 1
      end in
    let adjustedDistanceThreshold := num_mul TELEPORT_DISTANCE_THRESHOLD_M accuracyScale in
    if num_ltb TELEPORT_SPEED_THRESHOLD_MS speedMs then mkEval true (Some vitesse) timeDiffSec distance speedMs
    else if num_ltb adjustedDistanceThreshold distance && num_ltb timeDiffSec TELEPORT_TIME_THRESHOLD_S
    then mkEval true (Some saut_court) timeDiffSec distance speedMs
    else
      match plausibleJump reference accuracy speed timeDiffSec with
      | Some plausible =>
          if num_ltb plausible distance then mkEval true (Some saut_incoherent) timeDiffSec distance speedMs
          else mkEval false None timeDiffSec distance speedMs
      | None => mkEval false None timeDiffSec distance speedMs
      end.

(** ** Stationary anchor *)

Definition ANCHOR_WINDOW_MS : Z := 90 * 60000.
Definition ANCHOR_MIN_FIXES : nat := 2.
Definition ANCHOR_INITIAL_RADIUS_MIN_M : num := num_of_Z 150.
Definition ANCHOR_INITIAL_RADIUS_ACC_MULT : num := num_of_Z 4.
Definition ANCHOR_CLUSTER_RADIUS_MIN_M : num := num_of_Z 60.
Definition ANCHOR_CLUSTER_RADIUS_ACC_MULT : num := num_of_Z 3.
Definition ANCHOR_MAX_LAG_MIN_M : num := num_of_Z 20.
Definition ANCHOR_MAX_LAG_CONTINUOUS_S : num := num_of_Z 120.
Definition ANCHOR_MAX_LAG_ACC_MULT : num := num_of_Z 3.
Definition ANCHOR_ACCURACY_FLOOR_M : num := num_of_Z 5.

Record AnchorFix := mkAnchorFix {
  af_latitude : num;
  af_longitude : num;
  af_accuracy : option num;
  af_speed : option num;
  af_motion : option bool;
  af_timestamp : Z
}.

Definition accOf (f : AnchorFix) : num := accuracyOr (num_of_Z 50) (af_accuracy f).

Definition isStoppedFix (f : AnchorFix) : bool :=
  match af_speed f with
  | Some v => num_ltb v STATIONARY_SPEED_MS
  | None => match af_motion f with Some true => false | _ => true end
  end.

Definition metersApart (f g : AnchorFix) : num :=
  haversineDistance jm (af_latitude f) (af_longitude f) (af_latitude g) (af_longitude g).

(** The run of fixes before [newest], walked backwards: [older] is
    [sorted[endIndex-1], sorted[endIndex-2], ...]. *)
Fixpoint stopRun (newest : AnchorFix) (initialRadius : num) (older : list AnchorFix) : list AnchorFix :=
  match older with
  | [] => []
  | f :: older' =>
      if (ANCHOR_WINDOW_MS <? af_timestamp newest - af_timestamp f) || negb (isStoppedFix f)
         || num_ltb initialRadius (metersApart newest f)
      then [] else f :: stopRun newest initialRadius older'
  end.

(** The weighted sums of the cluster: [(wSum, latSum, lngSum)]. *)
Definition weigh (acc : num * num * num) (f : AnchorFix) : num * num * num :=
  let '(wSum, latSum, lngSum) := acc in
  let a := Math_max ANCHOR_ACCURACY_FLOOR_M (accOf f) in
  let w := num_div (num_of_Z 1) (num_mul a a) in
  (num_add wSum w, num_add latSum (num_mul (af_latitude f) w), num_add lngSum (num_mul (af_longitude f) w)).

(** [tryAnchorEndingAt(sorted, endIndex)]: [newest] is [sorted[endIndex]] and
    [older] the fixes before it, latest first. *)
Definition tryAnchorEndingAt (newest : AnchorFix) (older : list AnchorFix) : option (num * num) :=
  if negb (isStoppedFix newest) then None
  else
    let initialRadius :=
      Math_max ANCHOR_INITIAL_RADIUS_MIN_M (num_mul ANCHOR_INITIAL_RADIUS_ACC_MULT (accOf newest)) in
    let run := newest :: stopRun newest initialRadius older in
    if (length run <? ANCHOR_MIN_FIXES)%nat then None
    else
      let pivot := foldl (λ best f, if num_ltb (accOf f) (accOf best) then f else best) newest run in
      let clusterRadius :=
        Math_max ANCHOR_CLUSTER_RADIUS_MIN_M (num_mul ANCHOR_CLUSTER_RADIUS_ACC_MULT (accOf pivot)) in
      let cluster := filter (λ f, num_leb (metersApart pivot f) clusterRadius = true) run in
      if (length cluster <? ANCHOR_MIN_FIXES)%nat then None
      else
        let '(wSum, latSum, lngSum) := foldl weigh (zero, zero, zero) cluster in
        if num_ltb zero wSum then Some (num_div latSum wSum, num_div lngSum wSum) else None.

(** The loop of [computeAnchoredPosition]: the latest fix an anchor can end at.
    It stops at index [ANCHOR_MIN_FIXES - 1]. *)
Fixpoint anchorLoop (backwards : list AnchorFix) : option (num * num) :=
  match backwards with
  | f :: older =>
      match older with
      | [] => None
      | _ :: _ =>
          match tryAnchorEndingAt f older with
          | Some anchor => Some anchor
          | None => anchorLoop older
          end
      end
  | [] => None
  end.

Definition computeAnchoredPosition (fixes : list AnchorFix) : option (num * num) :=
  if (length fixes <? ANCHOR_MIN_FIXES)%nat then None
  else
    let sorted :=
      sort_by af_timestamp (filter (λ f, isFinite (af_latitude f) && isFinite (af_longitude f) = true) fixes) in
    match rev sorted with
    | newest :: previousFix :: older =>
        if negb (isStoppedFix newest) then None
        else
          let maxLagM := Math_max ANCHOR_MAX_LAG_MIN_M (num_mul ANCHOR_MAX_LAG_ACC_MULT (accOf newest)) in
          let continuous :=
            num_leb (secs (af_timestamp newest - af_timestamp previousFix)) ANCHOR_MAX_LAG_CONTINUOUS_S in
          match anchorLoop (newest :: previousFix :: older) with
          | Some (la, ln) =>
              if continuous
                 && num_ltb maxLagM (haversineDistance jm la ln (af_latitude newest) (af_longitude newest))
              then None else Some (la, ln)
          | None => None
          end
    | _ => None
    end.

(** ** Live map matching *)

Definition MATCH_MIN_FIXES : nat := 4.
Definition MATCH_WINDOW_SIZE : nat := 8.
Definition MATCH_MIN_CONFIDENCE : num := num_lit 5 10.
Definition MATCH_MAX_SNAP_DISTANCE_M : num := num_of_Z 50.
Definition MATCH_RADIUS_MIN_M : num := num_of_Z 15.
Definition MATCH_RADIUS_MAX_M : num := num_of_Z 50.

Definition selectMatchWindow {A} (fixes : list A) : option (list A) :=
  if (length fixes <? MATCH_MIN_FIXES)%nat then None
  else Some (drop (length fixes - MATCH_WINDOW_SIZE) fixes).

Definition matchRadiuses (window : list StopFix) : list num :=
  map (λ f, Math_round (Math_max MATCH_RADIUS_MIN_M
              (Math_min MATCH_RADIUS_MAX_M (accuracyOr (num_of_Z 25) (accuracy f))))) window.

Definition acceptSnappedTail (rawLat rawLng : num) (snappedTail : option (num * num)) (confidence : num)
  : option (num * num) :=
  match snappedTail with
  | None => None
  | Some (la, ln) =>
      if negb (isFinite la) || negb (isFinite ln) || negb (num_leb MATCH_MIN_CONFIDENCE confidence) then None
      else if num_ltb MATCH_MAX_SNAP_DISTANCE_M (haversineDistance jm rawLat rawLng la ln) then None
      else Some (la, ln)
  end.

(** ** Route-matched distance *)

Definition ROUTE_MATCH_MIN_CONFIDENCE : num := num_lit 5 100.
Definition MATCH_CHUNK_SIZE : nat := 80.
Definition MAX_MATCH_CHUNKS : Z := 80.

(** What OSRM answers for a chunk: [None] when [matchFn] resolves to [null] or
    rejects, [Some (distance, confidence)] otherwise. *)
Context (matchFn : list (num * num) → list num → option (num * num)).

(** [matched && matched.confidence >= ... ? matched.distance : ...], and the
    budget left. *)
Definition chunkDistance (budget : Z) (chunk : list StopFix) : num * Z :=
  if (MATCH_MIN_FIXES <=? length chunk)%nat && (0 <? budget) then
    match matchFn (map (λ f, (latitude f, longitude f)) chunk) (matchRadiuses chunk) with
    | Some (distance, confidence) =>
        (if num_leb ROUTE_MATCH_MIN_CONFIDENCE confidence then distance
         else computeFilteredDistance chunk, budget - 1)
    | None => (computeFilteredDistance chunk, budget - 1)
    end
  else (computeFilteredDistance chunk, budget).

(** The [while] loop from [i]; the chunks it visits are returned with the sum.
    [fuel] bounds its iterations, each of which advances [i] by
    [MATCH_CHUNK_SIZE - 1] = 79. *)
Fixpoint routeLoop (fuel : nat) (collapsed : list StopFix) (i : nat) (total : num) (budget : Z)
    (visited : list (list StopFix)) : option (num * Z * list (list StopFix)) :=
  if (i <? length collapsed - 1)%nat then
    match fuel with
    | O => None
    | S fuel' =>
        let end_ := Nat.min (i + MATCH_CHUNK_SIZE) (length collapsed) in
        let chunk := take (end_ - i) (drop i collapsed) in
        let '(d, budget') := chunkDistance budget chunk in
        if (length collapsed <=? end_)%nat then Some (num_add total d, budget', visited ++ [chunk])
        else routeLoop fuel' collapsed (end_ - 1) (num_add total d) budget' (visited ++ [chunk])
    end
  else Some (total, budget, visited).

Definition computeRouteMatchedDistance (positions : list StopFix) (budget : Z) : option (num * Z) :=
  let withTimestamps := filter (λ p, timestamp p ≠ None) positions in
  if (length withTimestamps <? 2)%nat then Some (computeFilteredDistance positions, budget)
  else
    let collapsed := collapseStationaryWindows (sort_by time withTimestamps) in
    match routeLoop (length collapsed) collapsed 0 zero budget [] with
    | Some (total, budget', _) => Some (total, budget')
    | None => None
    end.

End Gps.
