(* ===== verification/GpsProps.v ===== *)
(** * Properties of the GPS algorithms

    The resolved speed separates the stopped from the moving, the stop detector
    merges exactly the groups its rule describes, noise adds no distance, the
    route-matched distance terminates and covers every segment once, the anchor
    is a centroid of stopped fixes. *)

From Stdlib Require Import SpecFloat.
From S2P Require Import Prelude JsNum Geo Gps.

#[local] Open Scope Z_scope.

Section GpsProps.
Context (jm : JsMath).

(** ** Ground speed *)

Lemma usableRef_Some ref p : usableRef ref = Some p → ref = Some p.
Proof. destruct ref as [q|]; [|done]. simpl. by destruct (_ && _). Qed.

Lemma windowSpeed_Some input moved dt w :
  windowSpeed jm input moved dt = Some w →
  num_leb STATIONARY_SPEED_MS w = true ∧ windowPrevious input ≠ None
  ∧ currentTimestampIsServerFallback input = false.
Proof.
  unfold windowSpeed. destruct (currentTimestampIsServerFallback input); [done|].
  destruct (usableRef (windowPrevious input)) as [p|] eqn:Hp; [|done].
  apply usableRef_Some in Hp. rewrite Hp.
  destruct (_ && _) eqn:E; [|done]. intros [= <-].
  repeat (apply andb_prop in E as [E ?]). done.
Qed.

Lemma max_above x y : num_leb STATIONARY_SPEED_MS y = true → isNaN x = false →
  num_ltb (Math_max x y) STATIONARY_SPEED_MS = false.
Proof.
  intros Hy Hx. destruct (num_leb_not_NaN _ _ Hy) as [_ Hny].
  apply num_leb_not_ltb. unfold Math_max. rewrite Hx, Hny. simpl.
  assert (Hc : num_leb STATIONARY_SPEED_MS (if num_leb x y then y else x) = true).
  { destruct (num_leb x y) eqn:E; [done|].
    apply num_leb_trans with y; [done|]. apply num_ltb_leb.
    destruct (num_ltb y x) eqn:E2; [done|]. by rewrite (num_not_ltb _ _ Hny Hx E2) in E. }
  destruct x as [a|a| |a m e], y as [b|b| |b m' e']; try done.
  all: by destruct a, b.
Qed.

(** No movement is asserted by these sources. *)
Definition standing (s : GroundSpeedSource) : bool :=
  match s with clamped_zero | unknown => true | measured | derived => false end.

(** [reportedSpeedMs != null && Number.isFinite(...) && reportedSpeedMs > 0]. *)
Definition usableReport (input : ResolveGroundSpeedInput) : Prop :=
  ∃ v, reportedSpeedMs input = Some v ∧ isFinite v = true ∧ num_ltb zero v = true.

(** What a resolved speed promises for an input. *)
Definition speed_sound (input : ResolveGroundSpeedInput) (r : ResolveGroundSpeedResult) : Prop :=
  num_ltb (speedMs r) STATIONARY_SPEED_MS = standing (source r)
  ∧ (standing (source r) = true → speedMs r = zero)
  ∧ (source r = measured → usableReport input)
  ∧ (source r = derived →
       ¬ usableReport input
       ∧ isAccuracyTrustworthy (gr_accuracy (current input)) = true
       ∧ currentTimestampIsServerFallback input = false
       ∧ (previous input ≠ None ∨ windowPrevious input ≠ None)).

Lemma sound_zero input s : standing s = true → speed_sound input (mkSpeed zero s).
Proof. intros Hs. split_and!; simpl; [rewrite Hs; by vm_compute|done|by destruct s..]. Qed.

Lemma sound_measured input v : usableReport input →
  num_ltb v STATIONARY_SPEED_MS = false → speed_sound input (mkSpeed v measured).
Proof. by intros ??. Qed.

(** A resolved speed is below the standing threshold exactly when no
    movement is asserted, and is then exactly 0; it is 'measured' only from a
    finite positive report, and 'derived' from positions only without such a
    report, with a precise current fix, a clock that is not the server's and a
    reference fix. *)
Theorem resolveGroundSpeed_sound input : speed_sound input (resolveGroundSpeed jm input).
Proof.
  unfold resolveGroundSpeed.
  set (rep := match reportedSpeedMs input with Some v => _ | None => _ end).
  assert (Hrep : match rep with
                 | Some v => usableReport input ∧ num_ltb zero v = true
                 | None => ¬ usableReport input end).
  { subst rep. destruct (reportedSpeedMs input) as [v|] eqn:E; [|by intros (? & ? & _); congruence].
    destruct (isFinite v && num_ltb zero v) eqn:F.
    - apply andb_prop in F as [? ?]. split; [exists v|]; done.
    - intros (v' & Hv & Hf & Hp). rewrite E in Hv. simplify_eq. by rewrite Hf, Hp in F. }
  cbv zeta. clearbody rep.
  destruct rep as [v|].
  - destruct Hrep as [Hu Hv]. destruct (num_ltb_not_NaN _ _ Hv) as [_ Hn].
    match goal with |- context [if ?b then windowSpeed _ _ _ _ else None] => destruct b eqn:Hd end;
      [destruct (windowSpeed _ _ _ _) as [w|] eqn:Hw|]; simpl.
    + apply sound_measured; [done|]. apply max_above; [|done]. by apply windowSpeed_Some in Hw as [? _].
    + destruct (num_leb RELIABLE_REPORTED_SPEED_MS v) eqn:H3; simpl; [|by apply sound_zero].
      destruct (num_leb (num_mul _ _) _); [|by apply sound_zero].
      apply sound_measured; [done|]. apply num_leb_not_ltb.
      apply num_leb_trans with RELIABLE_REPORTED_SPEED_MS; [by vm_compute|done].
    + destruct (num_ltb v STATIONARY_SPEED_MS) eqn:E; [by apply sound_zero|by apply sound_measured].
  - destruct (isAccuracyTrustworthy (gr_accuracy (current input))) eqn:Hcur;
      rewrite ?andb_false_r, ?andb_true_r; cycle 1.
    { simpl. apply sound_zero. by destruct (usableRef _). }
    match goal with |- context [if ?b then windowSpeed _ _ _ _ else None] => destruct b eqn:Hd end;
      [destruct (windowSpeed _ _ _ _) as [w|] eqn:Hw|].
    { apply windowSpeed_Some in Hw as (H1 & H2 & H3).
      split_and!; simpl; [by apply num_leb_not_ltb|done|done|]. intros _. tauto. }
    all: destruct (usableRef (previous input)) as [p|] eqn:Hp; simpl; [|by apply sound_zero].
    all: apply usableRef_Some in Hp.
    all: destruct (currentTimestampIsServerFallback input) eqn:Hfb; simpl; [by apply sound_zero|].
    all: match goal with |- context [if ?b then _ else mkSpeed zero _] => destruct b; [|by apply sound_zero] end.
    all: destruct (num_ltb _ STATIONARY_SPEED_MS) eqn:E; [by apply sound_zero|].
    all: split_and!; simpl; [done..|]; intros _; rewrite Hp; split_and!; [done..|by left].
Qed.

(** ** Stops *)

(** [cluster prev cLat cLng n ps last la ln]: the fixes [ps] join one after the
    other a group of [n] fixes with last member [prev] and centre [cLat, cLng]:
    none is more than a minute after the one before it, reports a reliable
    speed, or is beyond the radius of the centre of those before it; [last] and
    [la, ln] are the last member and the centre reached. *)
Inductive cluster : StopFix → num → num → Z → list StopFix → StopFix → num → num → Prop :=
  | cluster_nil prev cLat cLng n : cluster prev cLat cLng n [] prev cLat cLng
  | cluster_cons prev cLat cLng n p ps last la ln :
      breaks jm prev cLat cLng p = false →
      cluster p (centreWith cLat n (latitude p)) (centreWith cLng n (longitude p)) (n + 1) ps last la ln →
      cluster prev cLat cLng n (p :: ps) last la ln.

(** [stop_at p rest ps rest' last la ln]: a stop begins at [p]; it holds [p] and
    the longest possible cluster [ps] of what follows, and lasts a minute. *)
Definition stop_at (p : StopFix) (rest ps rest' : list StopFix) (last : StopFix) (la ln : num) : Prop :=
  rest = ps ++ rest' ∧ cluster p (latitude p) (longitude p) 1 ps last la ln
  ∧ match rest' with [] => True | q :: _ => breaks jm last la ln q = true end
  ∧ ps ≠ [] ∧ num_leb STOP_CLUSTER_MIN_DURATION_S (secs (time last - time p)) = true.

(** Each stop becomes one point, every other fix is kept. *)
Inductive collapses : list StopFix → list StopFix → Prop :=
  | collapses_nil : collapses [] []
  | collapses_keep p l l' :
      (∀ ps rest' last la ln, ¬ stop_at p l ps rest' last la ln) →
      collapses l l' → collapses (p :: l) (p :: l')
  | collapses_merge p l ps rest' last la ln l' :
      stop_at p l ps rest' last la ln →
      collapses rest' l' → collapses (p :: l) (moveTo last la ln :: l').

Lemma growStop_spec rest : ∀ prev cLat cLng n k last la ln,
  growStop jm prev cLat cLng n rest = (k, last, la, ln) →
  (k ≤ length rest)%nat ∧ cluster prev cLat cLng n (take k rest) last la ln
  ∧ match drop k rest with [] => True | q :: _ => breaks jm last la ln q = true end
  ∧ ((k = O ∧ last = prev) ∨ ∃ j, k = S j ∧ rest !! j = Some last).
Proof.
  induction rest as [|p rest IH]; intros prev cLat cLng n k last la ln H; simpl in H.
  - simplify_eq. split_and!; [done|constructor|done|by left].
  - destruct (breaks jm prev cLat cLng p) eqn:B.
    { simplify_eq. split_and!; [simpl; lia|constructor|done|by left]. }
    destruct (growStop jm p _ _ _ rest) as [[[k' last'] la'] ln'] eqn:E. simplify_eq.
    destruct (IH _ _ _ _ _ _ _ _ E) as (H1 & H2 & H3 & H4).
    split_and!; [simpl; lia|by constructor|done|right; exists k'; split; [done|]].
    by destruct H4 as [[-> ->]|(j & -> & Hj)].
Qed.

(** The longest cluster is unique. *)
Lemma cluster_unique ps1 : ∀ prev cLat cLng n last1 la1 ln1 r1 ps2 last2 la2 ln2 r2,
  cluster prev cLat cLng n ps1 last1 la1 ln1 → cluster prev cLat cLng n ps2 last2 la2 ln2 →
  ps1 ++ r1 = ps2 ++ r2 →
  match r1 with [] => True | q :: _ => breaks jm last1 la1 ln1 q = true end →
  match r2 with [] => True | q :: _ => breaks jm last2 la2 ln2 q = true end →
  ps1 = ps2 ∧ r1 = r2 ∧ last1 = last2 ∧ la1 = la2 ∧ ln1 = ln2.
Proof.
  induction ps1 as [|p ps1 IH]; intros * C1 C2 E B1 B2; inversion C1; inversion C2; subst; simpl in E;
    try (by simplify_eq); try (rewrite <- E in B2); try (rewrite E in B1); try congruence.
  simplify_eq. edestruct IH as (? & ? & ? & ? & ?); [eassumption..|by subst].
Qed.

Lemma scan_skip ps : ∀ i rest, scanStops jm (length ps) i (ps ++ rest) = scanStops jm O (i + length ps)%nat rest.
Proof.
  induction ps as [|p ps IH]; intros i rest; simpl; [by rewrite Nat.add_0_r|].
  rewrite IH. f_equal. lia.
Qed.

Lemma scan_start rest : ∀ skip i, Forall (λ w, (i ≤ startIndex w)%nat) (scanStops jm skip i rest).
Proof.
  induction rest as [|p rest IH]; intros skip i; simpl; [constructor|].
  assert (Hs : ∀ k, Forall (λ w, (i ≤ startIndex w)%nat) (scanStops jm k (S i) rest)).
  { intros k. eapply Forall_impl; [apply IH|]. simpl. lia. }
  destruct skip; [|done].
  destruct (growStop _ _ _ _ _ _) as [[[k last] la] ln]. case_match; [|done]. by constructor.
Qed.

Lemma collapseFrom_keep W positions i p :
  positions !! i = Some p → Forall (λ w, (S i ≤ startIndex w)%nat) W →
  collapseFrom i W positions = p :: collapseFrom (S i) W positions.
Proof.
  intros Hi HW. assert (Hd : drop i positions = p :: drop (S i) positions) by by apply drop_S.
  destruct W as [|w W]; simpl; [done|]. apply Forall_cons in HW as [Hw _].
  rewrite Hd. destruct (startIndex w - i)%nat as [|m] eqn:Em; [lia|].
  replace (startIndex w - S i)%nat with m by lia. done.
Qed.

Lemma collapse_scan n : ∀ positions i, (length (drop i positions) ≤ n)%nat →
  collapses (drop i positions) (collapseFrom i (scanStops jm O i (drop i positions)) positions).
Proof.
  induction n as [|n IH]; intros positions i Hn.
  { destruct (drop i positions) eqn:E; [|simpl in Hn; lia]. simpl. rewrite E. constructor. }
  destruct (drop i positions) as [|p rest] eqn:E; [simpl; rewrite E; constructor|].
  assert (Ei : positions !! i = Some p) by (rewrite <- (Nat.add_0_r i), <- lookup_drop, E; done).
  assert (Er : drop (S i) positions = rest).
  { replace (S i) with (i + 1)%nat by lia. rewrite <- drop_drop, E. done. }
  cbn [scanStops].
  destruct (growStop jm p (latitude p) (longitude p) 1 rest) as [[[k last] la] ln] eqn:G.
  destruct (growStop_spec _ _ _ _ _ _ _ _ _ G) as (Hk & Hc & Hb & Hlast).
  pose proof (take_drop k rest) as Htd. simpl in Hn.
  destruct (bool_decide (k ≠ O) && _) eqn:D.
  - apply andb_prop in D as [D1 D2]. apply bool_decide_eq_true_1 in D1.
    destruct Hlast as [[? ?]|(j & -> & Hj)]; [done|].
    assert (Hl : length (take (S j) rest) = S j) by (rewrite length_take; lia).
    assert (Hd : drop (S (i + S j)) positions = drop (S j) rest).
    { by rewrite <- Er, drop_drop. }
    pose proof (scan_skip (take (S j) rest) (S i) (drop (S j) rest)) as Hs.
    rewrite Hl, Htd, <- Hd in Hs.
    cbn [collapseFrom startIndex endIndex w_latitude w_longitude].
    rewrite Nat.sub_diag, take_0. replace (i + S j)%nat with (S i + j)%nat by lia.
    rewrite <- lookup_drop, Er, Hj, Hs. simpl.
    apply collapses_merge with (take (S j) rest) (drop (S j) rest).
    { split_and!; try done. by destruct rest. }
    rewrite <- Hd. replace (S (i + j))%nat with (S i + j)%nat by lia.
    replace (S (S i + j)) with (S (i + S j)) by lia. replace (i + S j)%nat with (S (i + j)) by lia.
    apply IH. replace (S (S (i + j))) with (S (i + S j)) by lia. rewrite Hd, length_drop. lia.
  - rewrite (collapseFrom_keep _ _ _ _ Ei (scan_start rest O (S i))). apply collapses_keep.
    + intros ps rest' last' la' ln' (H1 & H2 & H3 & H4 & H5).
      assert (E1 : ps ++ rest' = take k rest ++ drop k rest) by congruence.
      destruct (cluster_unique _ _ _ _ _ _ _ _ _ _ _ _ _ _ H2 Hc E1 H3 Hb) as (-> & _ & -> & _ & _).
      rewrite H5, andb_true_r in D. apply bool_decide_eq_false_1 in D. destruct k; [done|]. by apply D.
    + specialize (IH positions (S i)). rewrite Er in IH. apply IH. lia.
Qed.

Definition untouched (positions : list StopFix) : bool :=
  (length positions <? 3)%nat || existsb (λ p, bool_decide (timestamp p = None)) positions.

Lemma collapse_cases positions :
  (untouched positions = true ∧ collapseStationaryWindows jm positions = positions)
  ∨ (untouched positions = false ∧ collapses positions (collapseStationaryWindows jm positions)).
Proof.
  unfold collapseStationaryWindows, detectStopWindows. fold (untouched positions).
  destruct (untouched positions); [by left|right]. split; [done|].
  pose proof (collapse_scan (length positions) positions 0) as H.
  rewrite drop_0 in H. specialize (H ltac:(lia)).
  destruct (scanStops jm 0 0 positions) eqn:E; [|done].
  simpl in H. by rewrite drop_0 in H.
Qed.

Lemma collapses_det l l1 : collapses l l1 → ∀ l2, collapses l l2 → l1 = l2.
Proof.
  induction 1 as [|p l l1 Hno H IH|p l ps r last la ln l1 Hst H IH]; intros l2 H2; inversion H2; subst; try done.
  - f_equal. by apply IH.
  - by edestruct Hno.
  - match goal with Hn : ∀ ps _ _ _ _, ¬ _ |- _ => by edestruct Hn end.
  - match goal with Hs : stop_at p l _ _ _ _ _, Hc : collapses _ l' |- _ => rename Hs into Hst2, Hc into Hc2 end.
    destruct Hst as (E1 & C1 & B1 & _), Hst2 as (E2 & C2 & B2 & _). rewrite E1 in E2.
    destruct (cluster_unique _ _ _ _ _ _ _ _ _ _ _ _ _ _ C1 C2 E2 B1 B2) as (_ & -> & -> & -> & ->).
    f_equal. by apply IH.
Qed.

(** C34: traces of fewer than three fixes or without all their times are left
    alone; in every other trace [collapseStationaryWindows] computes the one
    result of the rule: scanning forward, each longest cluster of a minute or
    more becomes its centre at its last instant, every other fix is kept. *)
Theorem collapse_exact positions :
  (untouched positions = true ∧ collapseStationaryWindows jm positions = positions)
  ∨ (untouched positions = false
     ∧ ∀ out, collapses positions out ↔ out = collapseStationaryWindows jm positions).
Proof.
  destruct (collapse_cases positions) as [?|[Hu Hc]]; [by left|right]. split; [done|].
  intros out. split; [|by intros ->]. intros H. by apply (collapses_det _ _ H).
Qed.

(** *** Noise *)

Lemma cluster_last prev cLat cLng n ps last la ln :
  cluster prev cLat cLng n ps last la ln → last = prev ∨ last ∈ ps.
Proof. induction 1 as [|????? ps ??? _ _ [->|]]; [by left|right; left|right; by right]. Qed.

(** What depends only on a fix's accuracy is inherited by the points that
    replace the stops. *)
Lemma collapses_Forall (P : option num → Prop) l l' :
  collapses l l' → Forall (P ∘ accuracy) l → Forall (P ∘ accuracy) l'.
Proof.
  induction 1 as [|p l l1 Hno H IH|p l ps r last la ln l1 Hst H IH]; intros HF; [constructor|..];
    apply Forall_cons in HF as [Hp Hl].
  - constructor; auto.
  - destruct Hst as (-> & Hc & _). apply Forall_app in Hl as [Hps Hr].
    constructor; [|auto]. simpl. destruct (cluster_last _ _ _ _ _ _ _ _ Hc) as [->|Hin]; [done|].
    rewrite Forall_forall in Hps. apply (Hps last Hin).
Qed.

Definition imprecise (p : StopFix) : Prop :=
  num_ltb GPS_UNUSABLE_ACCURACY_M (accuracyOr GPS_ACCURACY_FALLBACK_M (accuracy p)) = true.

Lemma distanceLoop_imprecise rest : ∀ st p, Forall imprecise (p :: rest) →
  totalDistance (distanceLoop jm st p rest) = totalDistance st.
Proof.
  induction rest as [|q rest IH]; intros st p HF; [done|].
  apply Forall_cons in HF as [Hp HF]. pose proof HF as HF'. apply Forall_cons in HF as [Hq _].
  cbn [distanceLoop]. rewrite (IH _ _ HF'). unfold distanceStep, imprecise in *.
  by rewrite Hp, Hq.
Qed.

(** A vehicle that stays in one stop from the first to the last fix, or
    whose fixes are all imprecise, has travelled exactly 0 metres, however long
    the trace is. *)
Theorem noise_counts_nothing p rest :
  (∀ last la ln,
      (2 ≤ length rest)%nat → Forall (λ q, timestamp q ≠ None) (p :: rest) →
      stop_at p rest rest [] last la ln →
      computeFilteredDistance jm (p :: rest) = zero)
  ∧ (Forall imprecise (p :: rest) → computeFilteredDistance jm (p :: rest) = zero).
Proof.
  split.
  - intros last la ln Hlen Hts Hstop. unfold computeFilteredDistance.
    destruct (collapse_cases (p :: rest)) as [[Hu _]|[_ Hc]].
    + unfold untouched in Hu. apply orb_true_iff in Hu as [Hu|Hu].
      { apply Nat.ltb_lt in Hu. simpl in Hu. lia. }
      apply existsb_exists in Hu as (q & Hin & Hq). apply bool_decide_eq_true_1 in Hq.
      rewrite Forall_forall in Hts. exfalso. apply (Hts q); [by apply list_elem_of_In|done].
    + rewrite (collapses_det _ _ Hc [moveTo last la ln]); [done|].
      by apply (collapses_merge _ _ _ _ _ _ _ _ Hstop), collapses_nil.
  - intros HF. unfold computeFilteredDistance.
    assert (HF' : Forall imprecise (collapseStationaryWindows jm (p :: rest))).
    { destruct (collapse_cases (p :: rest)) as [[_ ->]|[_ Hc]]; [done|].
      by apply (collapses_Forall
        (λ a, num_ltb GPS_UNUSABLE_ACCURACY_M (accuracyOr GPS_ACCURACY_FALLBACK_M a) = true) _ _ Hc). }
    destruct (collapseStationaryWindows jm (p :: rest)) as [|q l]; [done|].
    by rewrite (distanceLoop_imprecise _ _ _ HF').
Qed.

(** ** Route-matched distance *)

(** The segments of a trace. *)
Fixpoint segments (l : list StopFix) : list (StopFix * StopFix) :=
  match l with
  | p :: ((q :: _) as l') => (p, q) :: segments l'
  | _ => []
  end.

Lemma segments_split n : ∀ l, segments (take (S n) l) ++ segments (drop n l) = segments l.
Proof.
  induction n as [|n IH]; intros [|p [|q l]]; try done.
  - by destruct n.
  - transitivity ((p, q) :: (segments (take (S n) (q :: l)) ++ segments (drop n (q :: l))));
      [done|by rewrite IH].
Qed.

Section Route.
Context (matchFn : list (num * num) → list num → option (num * num)).

(** The distance of a list of chunks, each matched to the road or filtered, and
    the budget of calls it leaves. *)
Fixpoint sumChunks (total : num) (budget : Z) (chunks : list (list StopFix)) : num * Z :=
  match chunks with
  | [] => (total, budget)
  | c :: cs => sumChunks (num_add total (chunkDistance jm matchFn budget c).1)
                 (chunkDistance jm matchFn budget c).2 cs
  end.

Definition matchable (c : list StopFix) : bool := (MATCH_MIN_FIXES <=? length c)%nat.

Lemma sumChunks_budget chunks : ∀ total budget, 0 ≤ budget →
  (sumChunks total budget chunks).2
  = Z.max 0 (budget - Z.of_nat (length (filter (λ c, matchable c = true) chunks))).
Proof.
  induction chunks as [|c cs IH]; intros total budget Hb; simpl; [lia|].
  assert (Hc : (chunkDistance jm matchFn budget c).2
               = if matchable c && (0 <? budget) then budget - 1 else budget).
  { unfold chunkDistance. fold (matchable c). destruct (_ && _); [|done].
    by destruct (matchFn _ _) as [[??]|]. }
  rewrite Hc, filter_cons. destruct (matchable c), (Z.ltb_spec 0 budget); simpl;
    (rewrite IH by lia); lia.
Qed.

Lemma segments_app_short l : (length l ≤ 1)%nat → segments l = [].
Proof. destruct l as [|? [|? ?]]; simpl; [done..|lia]. Qed.

Lemma routeLoop_spec fuel : ∀ collapsed i total budget visited,
  (length collapsed - i ≤ fuel)%nat →
  ∃ chunks,
    routeLoop jm matchFn fuel collapsed i total budget visited
    = Some (sumChunks total budget chunks, visited ++ chunks)
    ∧ flat_map segments chunks = segments (drop i collapsed)
    ∧ Forall (λ c, 2 ≤ length c ≤ MATCH_CHUNK_SIZE)%nat chunks.
Proof.
  induction fuel as [|fuel IH]; intros collapsed i total budget visited Hf; simpl;
    destruct (Nat.ltb_spec i (length collapsed - 1)) as [Hi|Hi]; try lia.
  1,3: exists []; rewrite app_nil_r; split_and!; [done|simpl|constructor];
       symmetry; apply segments_app_short; rewrite length_drop; lia.
  set (e := Nat.min (i + MATCH_CHUNK_SIZE) (length collapsed)).
  set (chunk := take (e - i) (drop i collapsed)).
  assert (Hlen : length chunk = (e - i)%nat).
  { subst chunk. rewrite length_take, length_drop. lia. }
  assert (Hsz : (2 ≤ length chunk ≤ MATCH_CHUNK_SIZE)%nat) by (unfold MATCH_CHUNK_SIZE in *; lia).
  destruct (chunkDistance jm matchFn budget chunk) as [d b'] eqn:Hd.
  destruct (Nat.leb_spec (length collapsed) e) as [He|He].
  - exists [chunk]. split_and!; [by simpl; rewrite Hd| |by constructor].
    simpl. rewrite app_nil_r. f_equal. subst chunk. apply take_ge. rewrite length_drop. lia.
  - destruct (IH collapsed (e - 1)%nat (num_add total d) b' (visited ++ [chunk])) as (chunks & H1 & H2 & H3).
    { unfold MATCH_CHUNK_SIZE in *. lia. }
    exists (chunk :: chunks). split_and!; [|simpl|by constructor].
    + rewrite H1. simpl. by rewrite Hd, <- (assoc_L (++)).
    + rewrite H2, <- (segments_split (e - 1 - i) (drop i collapsed)), drop_drop. f_equal; f_equal.
      * subst chunk. f_equal. lia.
      * f_equal. lia.
Qed.

(** C35: the loop over the chunks always ends with a total; the chunks hold 2 to
    80 fixes and their segments are those of the collapsed trace, none lost and
    none twice; the total sums them in order and the calls to the router are as
    many as there are matchable chunks, within the budget. *)
Theorem routeMatched_covers positions budget (Hb : 0 ≤ budget) :
  let timed := filter (λ p, timestamp p ≠ None) positions in
  ∃ total budget',
    computeRouteMatchedDistance jm matchFn positions budget = Some (total, budget')
    ∧ (((length timed < 2)%nat ∧ total = computeFilteredDistance jm positions ∧ budget' = budget)
       ∨ ∃ chunks,
           flat_map segments chunks = segments (collapseStationaryWindows jm (sort_by time timed))
           ∧ Forall (λ c, 2 ≤ length c ≤ MATCH_CHUNK_SIZE)%nat chunks
           ∧ sumChunks zero budget chunks = (total, budget')
           ∧ budget' = Z.max 0 (budget - Z.of_nat (length (filter (λ c, matchable c = true) chunks)))).
Proof.
  intros timed. unfold computeRouteMatchedDistance. fold timed.
  destruct (Nat.ltb_spec (length timed) 2) as [Hl|Hl]; [by eexists _, _; split; [done|left]|].
  set (collapsed := collapseStationaryWindows jm (sort_by time timed)).
  destruct (routeLoop_spec (length collapsed) collapsed 0 zero budget []) as (chunks & H1 & H2 & H3); [lia|].
  pose proof (sumChunks_budget chunks zero budget Hb) as Hbud.
  rewrite H1. destruct (sumChunks zero budget chunks) as [total budget'] eqn:E.
  eexists _, _. split; [done|]. right. exists chunks. rewrite drop_0 in H2. done.
Qed.
End Route.

(** ** Anchor *)

Definition centroid (fixes : list AnchorFix) : num * num :=
  let '(wSum, latSum, lngSum) := foldl weigh (zero, zero, zero) fixes in
  (num_div latSum wSum, num_div lngSum wSum).

(** The fixes an anchor ending at [newest] may be the centroid of. *)
Definition restful (newest f : AnchorFix) : Prop :=
  isStoppedFix f = true ∧ af_timestamp newest - af_timestamp f ≤ ANCHOR_WINDOW_MS.

Lemma stopRun_restful newest radius older : Forall (restful newest) (stopRun jm newest radius older).
Proof.
  induction older as [|f older IH]; simpl; [constructor|].
  destruct (_ <? _) eqn:E1; [constructor|]. destruct (isStoppedFix f) eqn:E2; [|constructor].
  destruct (num_ltb _ _); [constructor|]. constructor; [|done]. split; [done|]. apply Z.ltb_ge in E1. lia.
Qed.

Lemma stopRun_sublist newest radius older : stopRun jm newest radius older ⊆ older.
Proof.
  induction older as [|f older IH]; simpl; [done|].
  destruct (_ || _); [set_solver|]. intros x Hx. set_solver.
Qed.

Lemma tryAnchor_spec newest older r :
  tryAnchorEndingAt jm newest older = Some r →
  ∃ group, group ⊆ newest :: older ∧ (ANCHOR_MIN_FIXES ≤ length group)%nat
           ∧ Forall (restful newest) group ∧ r = centroid group.
Proof.
  unfold tryAnchorEndingAt. destruct (isStoppedFix newest) eqn:Hs; [|done]. simpl negb. cbv iota.
  set (radius := Math_max _ _). set (run := newest :: stopRun jm newest radius older).
  destruct (length run <? ANCHOR_MIN_FIXES)%nat; [done|]. cbv zeta.
  set (pivot := foldl _ _ run). set (group := filter _ run).
  destruct (Nat.ltb_spec (length group) ANCHOR_MIN_FIXES) as [|Hlen]; [done|].
  unfold centroid. destruct (foldl weigh _ _) as [[w a] b] eqn:E. destruct (num_ltb zero w); [|done].
  intros [= <-]. exists group. split_and!; [|done| |by rewrite E].
  - intros f Hf. apply list_elem_of_filter in Hf as [_ Hf].
    apply elem_of_cons in Hf as [->|Hf]; [left|right]. by apply (stopRun_sublist newest radius).
  - apply Forall_forall. intros f Hf. apply list_elem_of_filter in Hf as [_ Hf].
    apply elem_of_cons in Hf as [->|Hf].
    + split; [done|]. unfold ANCHOR_WINDOW_MS. lia.
    + pose proof (stopRun_restful newest radius older) as HF. rewrite Forall_forall in HF. by apply HF.
Qed.

Lemma anchorLoop_spec backwards r :
  anchorLoop jm backwards = Some r →
  ∃ newest group, newest ∈ backwards ∧ group ⊆ backwards ∧ (ANCHOR_MIN_FIXES ≤ length group)%nat
    ∧ Forall (restful newest) group ∧ r = centroid group.
Proof.
  induction backwards as [|f older IH]; [done|]. simpl.
  destruct older as [|g older']; [done|]. destruct (tryAnchorEndingAt jm f _) as [r'|] eqn:E.
  - intros [= <-]. destruct (tryAnchor_spec _ _ _ E) as (group & ? & ? & ? & ?).
    exists f, group. split_and!; try done. left.
  - intros H. destruct (IH H) as (n & group & ? & Hg & ? & ? & ?).
    exists n, group. split_and!; try done; [by right|]. intros x Hx. right. by apply Hg.
Qed.

Definition located (f : AnchorFix) : Prop := isFinite (af_latitude f) && isFinite (af_longitude f) = true.
#[local] Instance located_dec f : Decision (located f).
Proof. unfold located. apply _. Defined.

(** A displayed anchor is shown only for a vehicle whose latest located fix is
    stopped; it is the weighted centroid of at least two of the given fixes, all
    stopped and within ninety minutes of one of them, and within the allowed lag
    of the latest fix unless there was a gap before it. *)
Theorem anchor_of_stopped fixes la ln :
  computeAnchoredPosition jm fixes = Some (la, ln) →
  ∃ newest previousFix last group,
    head (rev (sort_by af_timestamp (filter located fixes))) = Some newest
    ∧ head (tail (rev (sort_by af_timestamp (filter located fixes)))) = Some previousFix
    ∧ newest ∈ fixes ∧ isStoppedFix newest = true
    ∧ (∀ f, f ∈ fixes → located f → af_timestamp f ≤ af_timestamp newest)
    ∧ last ∈ fixes ∧ group ⊆ fixes ∧ (ANCHOR_MIN_FIXES ≤ length group)%nat
    ∧ Forall (λ f, restful last f ∧ located f) group ∧ (la, ln) = centroid group
    ∧ (num_leb (secs (af_timestamp newest - af_timestamp previousFix)) ANCHOR_MAX_LAG_CONTINUOUS_S = true →
       num_ltb (Math_max ANCHOR_MAX_LAG_MIN_M (num_mul ANCHOR_MAX_LAG_ACC_MULT (accOf newest)))
         (haversineDistance jm la ln (af_latitude newest) (af_longitude newest)) = false).
Proof.
  unfold computeAnchoredPosition. destruct (_ <? _)%nat; [done|]. cbv zeta.
  set (kept := filter _ fixes). change (filter located fixes) with kept.
  pose proof (sort_by_perm af_timestamp kept) as Hp.
  pose proof (sort_by_sorted af_timestamp kept) as Hsort.
  destruct (rev (sort_by af_timestamp kept)) as [|newest [|prev older]] eqn:Hr; [done..|].
  destruct (isStoppedFix newest) eqn:Hs; [|done]. simpl negb. cbv iota.
  assert (Hin : ∀ f, f ∈ newest :: prev :: older → f ∈ fixes ∧ located f).
  { intros f Hf. rewrite <- Hr in Hf. apply list_elem_of_In, in_rev, list_elem_of_In in Hf.
    rewrite Hp in Hf. subst kept. apply list_elem_of_filter in Hf. tauto. }
  destruct (anchorLoop jm (newest :: prev :: older)) as [[la' ln']|] eqn:E; [|done].
  destruct (anchorLoop_spec _ _ E) as (last & group & H1 & H2 & H3 & H4 & H5).
  destruct (_ && _) eqn:Hlag; [done|]. intros [= -> ->].
  exists newest, prev, last, group.
  split_and!; try done; try (apply Hin; set_solver).
  - intros f Hf Hl. pose proof (sorted_latest _ _ _ _ Hsort Hr) as HF. rewrite Forall_forall in HF.
    apply HF. rewrite Hp. subst kept. by apply list_elem_of_filter.
  - intros f Hf. by apply Hin, H2.
  - rewrite Forall_forall in *. intros f Hf. split; [by apply H4|]. by apply Hin, H2.
  - intros Hc. by rewrite Hc in Hlag.
Qed.

End GpsProps.

(** ** Concrete traces *)

(** A van parked in Antananarivo, one fix every half minute. *)
Definition parkedAt (t : Z) : StopFix :=
  mkFix (num_lit (-189) 10) (num_lit 475 10) (Some (num_of_Z 8)) (Some zero) (Some (1000 * t)).
Definition parkedTail : list StopFix := [parkedAt 30; parkedAt 60].

Lemma parked_stop : stop_at coarseMath (parkedAt 0) parkedTail parkedTail [] (parkedAt 60)
  (num_lit (-189) 10) (num_lit 475 10).
Proof.
  split; [done|]. split.
  - apply cluster_cons; [by vm_compute|]. apply cluster_cons; [by vm_compute|]. apply cluster_nil.
  - split_and!; by vm_compute.
Qed.

Lemma noise_counts_nothing_witness :
  computeFilteredDistance coarseMath (parkedAt 0 :: parkedTail) = zero.
Proof.
  apply (proj1 (noise_counts_nothing coarseMath (parkedAt 0) parkedTail)) with (parkedAt 60)
    (num_lit (-189) 10) (num_lit 475 10);
    [simpl; lia|repeat constructor; done|apply parked_stop].
Defined.

Lemma routeMatched_covers_witness :
  ∃ total budget', computeRouteMatchedDistance coarseMath (λ _ _, None)
    (parkedAt 0 :: parkedAt 300 :: parkedTail) 80 = Some (total, budget').
Proof.
  destruct (routeMatched_covers coarseMath (λ _ _, None) (parkedAt 0 :: parkedAt 300 :: parkedTail) 80
    ltac:(done)) as (total & budget' & H & _).
  by exists total, budget'.
Defined.

(** Two fixes of a parked motorbike, the second with a poor reception. *)
Definition parkedBike (t : Z) (acc : num) : AnchorFix :=
  mkAnchorFix (num_lit (-189) 10) (num_lit 475 10) (Some acc) (Some zero) (Some true) (1000 * t).
Definition bikeTrace : list AnchorFix := [parkedBike 10 (num_of_Z 35); parkedBike 0 (num_of_Z 8)].
Definition bikeAnchor : num * num := default (zero, zero) (computeAnchoredPosition coarseMath bikeTrace).

Lemma anchor_of_stopped_witness :
  ∃ group, group ⊆ bikeTrace ∧ (ANCHOR_MIN_FIXES ≤ length group)%nat ∧ bikeAnchor = centroid group.
Proof.
  assert (H : computeAnchoredPosition coarseMath bikeTrace = Some (bikeAnchor.1, bikeAnchor.2)).
  { vm_compute. reflexivity. }
  destruct (anchor_of_stopped coarseMath bikeTrace _ _ H)
    as (n & p & l & group & _ & _ & _ & _ & _ & _ & Hg & Hlen & _ & Hc & _).
  exists group. split_and!; [exact Hg|exact Hlen|exact Hc].
Defined.

(** The first fix of a stop is not asked whether it moves. *)
Example moving_first_fix_merged :
  let f := mkFix (num_lit (-189) 10) (num_lit 475 10) (Some (num_of_Z 8)) (Some (num_of_Z 5)) (Some 0) in
  movingHere f = true ∧ length (collapseStationaryWindows coarseMath (f :: parkedTail)) = 1%nat.
Proof. vm_compute. done. Qed.
