(* ===== verification/GpsQuality.v ===== *)
(** * common/geo: quality grading of fixes, wake-up quarantine, telemetry

    gps-quality.ts and tracker-telemetry.ts.  An attribute of a Traccar message
    is given as its [Number(...)] coercion, [None] when it is absent; the text
    [hdopInfo], which is only logged, is left out. *)

From Stdlib Require Import SpecFloat.
From S2P Require Import Prelude JsNum Gps.

#[local] Open Scope Z_scope.

(** ** Accuracy and confidence *)

Definition HDOP_UERE : num := num_of_Z 5.
Definition MAX_PLAUSIBLE_HDOP : num := num_of_Z 50.
Definition MAX_ACCURACY_M : num := num_of_Z 1000.
Definition DEFAULT_ACCURACY_M : num := num_of_Z 50.

Definition accuracyFromSatellites (sat : option num) : option num :=
  match sat with
  | None => None
  | Some n =>
      if negb (isFinite n) || num_leb n zero then None
      else if num_leb (num_of_Z 12) n then Some (num_of_Z 8)
      else if num_leb (num_of_Z 10) n then Some (num_of_Z 12)
      else if num_leb (num_of_Z 8) n then Some (num_of_Z 20)
      else if num_eqb n (num_of_Z 7) then Some (num_of_Z 35)
      else if num_eqb n (num_of_Z 6) then Some (num_of_Z 55)
      else if num_eqb n (num_of_Z 5) then Some (num_of_Z 90)
      else Some (num_of_Z 150)
  end.

(** The scores are small integers: exact in binary64. *)
Definition computeConfidence (accuracy : option num) (suspect : bool) (speed : option num) : Z :=
  let score := 100 in
  let score :=
    match accuracy with
    | Some a =>
        if num_ltb zero a then
          if num_leb a (num_of_Z 5) then score - 5
          else if num_leb a (num_of_Z 10) then score - 10
          else if num_leb a (num_of_Z 20) then score - 20
          else if num_leb a (num_of_Z 50) then score - 40
          else score - 60
        else score - 30
    | None => score - 30
    end in
  let score := if suspect then score - 50 else score in
  let score :=
    match speed with
    | Some v => if num_ltb v (num_lit 1 10) then Z.min score 70 else score
    | None => score
    end in
  Z.max 0 (Z.min 100 score).

(** [accuracy === undefined || x > accuracy ? x : accuracy]. *)
Definition worse (accuracy : option num) (x : num) : option num :=
  match accuracy with
  | Some a => if num_ltb a x then Some x else Some a
  | None => Some x
  end.

(** The accuracy the three indicators give, one after the other. *)
Definition indicatedAccuracy (deviceAccuracy hdop sat : option num) : option num :=
  let accuracy :=
    match deviceAccuracy with
    | Some a => if num_ltb zero a then Some a else None
    | None => None
    end in
  let accuracy :=
    match hdop with
    | Some h =>
        if negb (isNaN h) && num_ltb zero h && isFinite h then
          if num_leb h MAX_PLAUSIBLE_HDOP then worse accuracy (Math_round (num_mul h HDOP_UERE))
          else accuracy
        else accuracy
    | None => accuracy
    end in
  match accuracyFromSatellites sat with Some s => worse accuracy s | None => accuracy end.

Definition computeCombinedAccuracy (deviceAccuracy hdop sat : option num) : num :=
  let accuracy := default DEFAULT_ACCURACY_M (indicatedAccuracy deviceAccuracy hdop sat) in
  if num_ltb MAX_ACCURACY_M accuracy then MAX_ACCURACY_M else accuracy.

(** ** The wake-up quarantine

    Instants are milliseconds; [(t1 - t2) / 1000 > s] is compared as
    [t1 - t2 > 1000 s] (the division by 1000 is monotone and exact on
    multiples of 1000). *)

Definition WAKE_TRUST_MIN_SAT : num := num_of_Z 10.
Definition WAKE_SILENCE_MIN_S : num := num_of_Z 120.
Definition WAKE_QUARANTINE_MAX_S : Z := 120.
Definition WAKE_QUARANTINE_STALE_S : Z := 600.

Record WakeFixInput := mkWake {
  sat : option num;
  gapSincePrevSec : option num;
  quarantineSinceMs : option Z;
  quarantineLastMs : option Z;
  fixTimeMs : Z
}.

Record WakeFixVerdict := mkVerdict {
  quarantine : bool;
  v_quarantineSinceMs : option Z;
  v_quarantineLastMs : option Z
}.

Definition weakFix (sat : option num) : bool :=
  match sat with
  | Some n => isFinite n && num_ltb zero n && num_ltb n WAKE_TRUST_MIN_SAT
  | None => false
  end.

(** The last part: a weak fix outside a quarantine. *)
Definition newEpisode (input : WakeFixInput) : WakeFixVerdict :=
  let afterSilence :=
    match gapSincePrevSec input with None => true | Some gap => num_ltb WAKE_SILENCE_MIN_S gap end in
  if negb afterSilence then mkVerdict false None None
  else mkVerdict true (Some (fixTimeMs input)) (Some (fixTimeMs input)).

Definition evaluateWakeFix (input : WakeFixInput) : WakeFixVerdict :=
  if negb (weakFix (sat input)) then mkVerdict false None None
  else
    match quarantineSinceMs input with
    | Some since =>
        let lastMs := Z.max (default since (quarantineLastMs input)) since in
        let stale := WAKE_QUARANTINE_STALE_S * 1000 <? fixTimeMs input - lastMs in
        if negb stale then
          if WAKE_QUARANTINE_MAX_S * 1000 <=? fixTimeMs input - since then mkVerdict false None None
          else mkVerdict true (Some since) (Some (Z.max lastMs (fixTimeMs input)))
        else newEpisode input
    | None => newEpisode input
    end.

(** ** Telemetry of physical trackers *)

Record TrackerTelemetry := mkTelemetry {
  powerVolts : option num;
  batteryPercent : option num;
  ignition : option bool
}.

(** The first finite number among the candidate attributes. *)
Fixpoint parseFinite (values : list (option num)) : option num :=
  match values with
  | [] => None
  | Some n :: values' => if isFinite n then Some n else parseFinite values'
  | None :: values' => parseFinite values'
  end.

Definition round2 (n : num) : num := num_div (Math_round (num_mul n (num_of_Z 100))) (num_of_Z 100).

Definition percent (x : num) : num := Math_max zero (Math_min (num_of_Z 100) (Math_round x)).

(** [power], [battery] list the candidate attributes in the order they are
    tried; [ignitionRaw] is [None] when absent and otherwise tells whether the
    value is [true], [1], ['1'] or ['true']. *)
Definition extractTrackerTelemetry (power battery : list (option num)) (ignitionRaw : option bool)
  : TrackerTelemetry :=
  {| powerVolts :=
       p ← parseFinite power;
       Some (if num_ltb (num_of_Z 50) p then round2 (num_div p (num_of_Z 1000)) else round2 p);
     batteryPercent :=
       b ← parseFinite battery;
       Some (if num_ltb (num_of_Z 100) b
             then percent (num_mul (num_div (num_sub (num_div b (num_of_Z 1000)) (num_of_Z 3)) (num_lit 12 10))
                             (num_of_Z 100))
             else percent b);
     ignition := ignitionRaw |}.

Definition POWER_CUT_VOLTS : num := num_lit 5 10.
Definition BATTERY_CRITICAL_PCT : num := num_of_Z 20.

Definition isPowerCut (telemetry : TrackerTelemetry) : bool :=
  match powerVolts telemetry with Some v => num_leb v POWER_CUT_VOLTS | None => false end.
Definition isBatteryCritical (telemetry : TrackerTelemetry) : bool :=
  match batteryPercent telemetry with
  | Some b => num_ltb zero b && num_leb b BATTERY_CRITICAL_PCT
  | None => false
  end.

(** ** What the indicators promise *)

(** ** Grading *)

(** An indicator is respected by a grade that is not below it. *)
Definition atLeast (grade indicator : num) : Prop := num_ltb grade indicator = false.

Lemma worse_atLeast accuracy x : ∃ r, worse accuracy x = Some r ∧ atLeast r x
  ∧ match accuracy with Some a => num_leb a r = true ∨ a = r | None => True end.
Proof.
  unfold worse, atLeast. destruct accuracy as [a|]; [|by eexists; split_and!; [done|apply num_ltb_irrefl|]].
  destruct (num_ltb a x) eqn:E; eexists; split_and!; [done|apply num_ltb_irrefl| |done|done|by right].
  left. by apply num_ltb_leb.
Qed.

Lemma atLeast_mono a b x : num_leb a b = true ∨ a = b → atLeast a x → atLeast b x.
Proof.
  unfold atLeast. intros [H| ->] Ha; [|done]. destruct (num_ltb b x) eqn:E; [|done].
  by rewrite (num_leb_ltb_trans _ _ _ H E) in Ha.
Qed.

(** The usable indicators of a message. *)
Definition indicators (deviceAccuracy hdop sat : option num) : list num :=
  match deviceAccuracy with Some a => if num_ltb zero a then [a] else [] | None => [] end
  ++ match hdop with
     | Some h => if num_ltb zero h && num_leb h MAX_PLAUSIBLE_HDOP
                 then [Math_round (num_mul h HDOP_UERE)] else []
     | None => []
     end
  ++ match accuracyFromSatellites sat with Some s => [s] | None => [] end.

Lemma plausible_finite h : num_ltb zero h = true → num_leb h MAX_PLAUSIBLE_HDOP = true →
  negb (isNaN h) && num_ltb zero h && isFinite h = true.
Proof. intros H1 H2. rewrite H1. destruct h as [|[]| |]; simpl in *; try done. Qed.

(** An accuracy [acc] that takes a list of indicators into account. *)
Definition covers (acc : option num) (inds : list num) : Prop :=
  match acc with Some a => inds ≠ [] ∧ Forall (atLeast a) inds | None => inds = [] end.

Lemma worse_covers acc inds x : covers acc inds → covers (worse acc x) (inds ++ [x]).
Proof.
  intros H. destruct (worse_atLeast acc x) as (r & -> & Hx & Ha). split; [by destruct inds|].
  apply Forall_app. split; [|by repeat constructor].
  destruct acc as [a|]; simpl in *; [|by subst]. destruct H as [_ H]. eapply Forall_impl; [exact H|].
  intros y. by apply atLeast_mono.
Qed.

Lemma indicated_covers deviceAccuracy hdop sat :
  covers (indicatedAccuracy deviceAccuracy hdop sat) (indicators deviceAccuracy hdop sat).
Proof.
  unfold indicatedAccuracy, indicators. rewrite app_assoc.
  assert (Hs : ∀ acc inds, covers acc inds →
    covers match accuracyFromSatellites sat with Some s => worse acc s | None => acc end
      (inds ++ match accuracyFromSatellites sat with Some s => [s] | None => [] end)).
  { intros acc inds H. destruct (accuracyFromSatellites sat); [by apply worse_covers|by rewrite app_nil_r]. }
  assert (Hh : ∀ acc inds, covers acc inds →
    covers match hdop with
           | Some h =>
               if negb (isNaN h) && num_ltb zero h && isFinite h then
                 if num_leb h MAX_PLAUSIBLE_HDOP then worse acc (Math_round (num_mul h HDOP_UERE)) else acc
               else acc
           | None => acc end
      (inds ++ match hdop with
               | Some h => if num_ltb zero h && num_leb h MAX_PLAUSIBLE_HDOP
                           then [Math_round (num_mul h HDOP_UERE)] else []
               | None => [] end)).
  { intros acc inds H. destruct hdop as [h|]; [|by rewrite app_nil_r].
    destruct (num_ltb zero h) eqn:Hz; [|by rewrite andb_false_r; simpl; rewrite app_nil_r].
    destruct (num_leb h MAX_PLAUSIBLE_HDOP) eqn:Hm; simpl.
    - pose proof (plausible_finite _ Hz Hm) as Hf. rewrite Hz in Hf. rewrite Hf. by apply worse_covers.
    - rewrite app_nil_r. by destruct (_ && _). }
  apply Hs, Hh. destruct deviceAccuracy as [a|]; [|done]. destruct (num_ltb zero a) eqn:Ea; [|done].
  split; [done|]. repeat constructor. apply num_ltb_irrefl.
Qed.

(** The graded accuracy never exceeds 1000 m, is at least as bad as every usable
    indicator (or is that ceiling), and is the default without any; the
    confidence lies in 0..100 and does not increase with a worse accuracy. *)
Theorem grading_sound deviceAccuracy hdop sat suspect speed :
  (let acc := computeCombinedAccuracy deviceAccuracy hdop sat in
   num_ltb MAX_ACCURACY_M acc = false
   ∧ (acc = MAX_ACCURACY_M ∨ Forall (atLeast acc) (indicators deviceAccuracy hdop sat))
   ∧ (indicators deviceAccuracy hdop sat = [] → acc = DEFAULT_ACCURACY_M))
  ∧ (∀ accuracy, 0 ≤ computeConfidence accuracy suspect speed ≤ 100)
  ∧ (∀ a b, num_ltb zero a = true → num_leb a b = true →
       computeConfidence (Some b) suspect speed ≤ computeConfidence (Some a) suspect speed).
Proof.
  split; [cbv zeta; split_and!|split].
  - simpl. unfold computeCombinedAccuracy. set (a := default _ _).
    destruct (num_ltb MAX_ACCURACY_M a) eqn:E; [|done].
    apply num_ltb_irrefl.
  - simpl. unfold computeCombinedAccuracy. pose proof (indicated_covers deviceAccuracy hdop sat) as Hc.
    destruct (num_ltb MAX_ACCURACY_M _); [by left|right].
    destruct (indicatedAccuracy _ _ _) as [a|]; [apply Hc|]. simpl in Hc. rewrite Hc. constructor.
  - simpl. intros Hi. unfold computeCombinedAccuracy.
    pose proof (indicated_covers deviceAccuracy hdop sat) as Hc. rewrite Hi in Hc.
    destruct (indicatedAccuracy _ _ _) as [a|]; [by destruct Hc|]. by vm_compute.
  - intros. unfold computeConfidence. lia.
  - intros a b Ha Hab.
    assert (Hb : num_ltb zero b = true).
    { by apply (num_ltb_leb_trans _ a). }
    unfold computeConfidence. rewrite Ha, Hb.
    assert (Hm : ∀ c, num_leb b c = true → num_leb a c = true) by (intros c; by apply num_leb_trans).
    pose proof (Hm (num_of_Z 5)). pose proof (Hm (num_of_Z 10)). pose proof (Hm (num_of_Z 20)).
    pose proof (Hm (num_of_Z 50)). clear Hm.
    repeat case_match; try lia; try (exfalso; intuition congruence).
Qed.

(** ** The quarantine *)

(** What is memorised of a tracker's quarantine between its fixes. *)
Definition QuarantineState : Type := option Z * option Z.

(** A fix of a series: [(sat, gapSincePrevSec, fixTimeMs)]. *)
Definition Fix : Type := option num * option num * Z.

Definition wakeInput (st : QuarantineState) (f : Fix) : WakeFixInput :=
  mkWake f.1.1 f.1.2 st.1 st.2 f.2.

(** The verdicts on a series of fixes, the state being memorised in between. *)
Fixpoint wakeRun (st : QuarantineState) (fixes : list Fix) : list bool :=
  match fixes with
  | [] => []
  | f :: fixes' =>
      let v := evaluateWakeFix (wakeInput st f) in
      quarantine v :: wakeRun (v_quarantineSinceMs v, v_quarantineLastMs v) fixes'
  end.

(** Fixes in order, at most ten minutes apart. *)
Fixpoint spaced (t : Z) (fixes : list Fix) : Prop :=
  match fixes with
  | [] => True
  | f :: fixes' => 0 ≤ f.2 - t ≤ WAKE_QUARANTINE_STALE_S * 1000 ∧ spaced f.2 fixes'
  end.

(** A quarantine that began by [t0] and whose last fix is not before [t]. *)
Definition open_since (t0 t : Z) (st : QuarantineState) : Prop :=
  ∃ since lst, st = (Some since, Some lst) ∧ since ≤ t0 ∧ t ≤ Z.max lst since.

Lemma open_step t0 t st f : open_since t0 t st → 0 ≤ f.2 - t ≤ WAKE_QUARANTINE_STALE_S * 1000 →
  let v := evaluateWakeFix (wakeInput st f) in
  quarantine v = false
  ∨ (f.2 - t0 < WAKE_QUARANTINE_MAX_S * 1000
     ∧ open_since t0 f.2 (v_quarantineSinceMs v, v_quarantineLastMs v)).
Proof.
  intros (since & lst & -> & Hs & Hl) Ht v. subst v. unfold evaluateWakeFix, wakeInput. simpl.
  destruct (negb (weakFix f.1.1)); [by left|].
  destruct (Z.ltb_spec (WAKE_QUARANTINE_STALE_S * 1000) (f.2 - Z.max lst since)); [lia|]. simpl.
  destruct (Z.leb_spec (WAKE_QUARANTINE_MAX_S * 1000) (f.2 - since)); [by left|right].
  split; [lia|]. simpl. eexists _, _. split_and!; [done|lia|lia].
Qed.

Lemma open_released t0 fixes : ∀ t st, open_since t0 t st → spaced t fixes →
  (∃ f, last fixes = Some f ∧ WAKE_QUARANTINE_MAX_S * 1000 ≤ f.2 - t0) →
  false ∈ wakeRun st fixes.
Proof.
  induction fixes as [|f fixes IH]; intros t st Ho Hsp (g & Hg & Hge); [done|].
  destruct Hsp as [Ht Hsp]. simpl. destruct (open_step _ _ _ _ Ho Ht) as [->|[Hlt Ho']]; [left|].
  right. destruct fixes as [|f' fixes]; [simpl in Hg; simplify_eq; lia|].
  eapply IH; [done|done|]. by exists g.
Qed.

(** A reliable fix is taken at once and ends the quarantine; a weak fix after
    a silence is held, even when an old quarantine was left open; and a tracker
    that goes on sending fixes at most ten minutes apart, all weak, has one of
    them taken within the fixes of two minutes: no tracker is blocked for ever. *)
Theorem wake_quarantine st :
  (* a reliable fix is taken and ends the quarantine *)
  (∀ f, weakFix f.1.1 = false →
     evaluateWakeFix (wakeInput st f) = mkVerdict false None None)
  (* a weak fix after a silence opens one, a stale quarantine notwithstanding *)
  ∧ (∀ f, weakFix f.1.1 = true →
       (∀ gap, f.1.2 = Some gap → num_ltb WAKE_SILENCE_MIN_S gap = true) →
       (∀ since, st.1 = Some since →
          WAKE_QUARANTINE_STALE_S * 1000 < f.2 - Z.max (default since st.2) since) →
       evaluateWakeFix (wakeInput st f) = mkVerdict true (Some f.2) (Some f.2))
  (* a tracker that goes on sending fixes is released within two minutes *)
  ∧ (∀ f fixes g,
       (∀ since, st.1 = Some since → since ≤ f.2) →
       spaced f.2 fixes → last (f :: fixes) = Some g →
       WAKE_QUARANTINE_MAX_S * 1000 ≤ g.2 - f.2 →
       false ∈ wakeRun st (f :: fixes)).
Proof.
  split_and!.
  - intros f Hf. unfold evaluateWakeFix, wakeInput. simpl. by rewrite Hf.
  - intros f Hf Hgap Hst. unfold evaluateWakeFix, wakeInput, newEpisode. simpl. rewrite Hf. simpl.
    assert (Ha : match f.1.2 with Some gap => num_ltb WAKE_SILENCE_MIN_S gap | None => true end = true).
    { destruct f.1.2 eqn:E; [by apply Hgap|done]. }
    rewrite Ha. destruct st.1 as [since|]; [|done].
    specialize (Hst since eq_refl). by destruct (Z.ltb_spec (WAKE_QUARANTINE_STALE_S * 1000)
      (f.2 - Z.max (default since st.2) since)); [|lia].
  - intros f fixes g Hsince Hsp Hlast Hge. simpl.
    destruct (quarantine (evaluateWakeFix (wakeInput st f))) eqn:Hq; [right|left].
    destruct fixes as [|f' fixes]; [simpl in Hlast; simplify_eq; unfold WAKE_QUARANTINE_MAX_S in Hge; lia|].
    eapply (open_released f.2); [|exact Hsp|by exists g].
    revert Hq. unfold evaluateWakeFix, newEpisode, wakeInput. simpl.
    destruct (negb (weakFix f.1.1)); [done|].
    assert (Hnew : open_since f.2 f.2 (Some f.2, Some f.2)) by (eexists _, _; split_and!; [done|lia..]).
    destruct st.1 as [since|].
    + specialize (Hsince since eq_refl). destruct (_ <? _); simpl; [by destruct (negb _)|].
      destruct (_ <=? _); [done|]. simpl. intros _. eexists _, _. split_and!; [done|lia|lia].
    + by destruct (negb _).
Qed.

Lemma grading_sound_witness :
  computeConfidence (Some (num_of_Z 20)) false None ≤ computeConfidence (Some (num_of_Z 8)) false None.
Proof.
  destruct (grading_sound None None None false None) as (_ & _ & H). apply H; vm_compute; reflexivity.
Defined.

(** Seven satellites, one fix a minute after a night of silence. *)
Definition weakAt (t : Z) : Fix := (Some (num_of_Z 7), None, 1000 * t).

Lemma wake_quarantine_witness :
  false ∈ wakeRun (None, None) [weakAt 0; weakAt 60; weakAt 120; weakAt 180].
Proof.
  destruct (wake_quarantine (None, None)) as (_ & _ & H).
  apply (H (weakAt 0) [weakAt 60; weakAt 120; weakAt 180] (weakAt 180));
    [done|simpl; unfold WAKE_QUARANTINE_STALE_S; lia|done|simpl; unfold WAKE_QUARANTINE_MAX_S; lia].
Defined.

Example weak_fixes_held_then_released :
  wakeRun (None, None) [weakAt 0; weakAt 60; weakAt 120; weakAt 180] = [true; true; false; true].
Proof. vm_compute. reflexivity. Qed.
