(* ===== verification/TrackingModel.v ===== *)
(** * Tracking: data, geofences, proximity and alerts

    The rows and the cache the tracking services work on,
    GeofenceService.checkGeofences, DeliveryProximityService and
    TrackingService.generateAlerts.  Dates are milliseconds.  The text of a
    notification is left out; its type, addressee and delivery are kept. *)

From Stdlib Require Import SpecFloat.
From S2P Require Import Prelude JsString JsNum Geo Gps Redis.

#[local] Open Scope string_scope.
#[local] Open Scope list_scope.
#[local] Open Scope Z_scope.

Inductive PositionSource := phone | physical_tracker.
#[export] Instance PositionSource_eq_dec : EqDecision PositionSource.
Proof. solve_decision. Defined.

Record Vehicle := mkVehicle {
  vh_companyId : string;
  vh_isActive : bool;
  vh_deletedAt : option Z;
  vh_positionSource : PositionSource
}.

Record Driver := mkDriver { dr_userId : option string; dr_companyId : string; dr_vehicleId : option string }.

Record Delivery := mkDelivery {
  dl_title : string;
  dl_companyId : string;
  dl_inProgress : bool;  (** [status = in_progress] *)
  dl_deletedAt : option Z;
  dl_driverId : option string;
  dl_assignedDriverId : option string;
  dl_scheduledDate : option Z;
  dl_deliveryLat : option num;
  dl_deliveryLng : option num
}.

(** A value of the JSON column [attributes]. *)
Inductive Attribute := AttrNum (n : num) | AttrBool (b : bool).

Record GpsPosition := mkPosition {
  p_latitude : num;
  p_longitude : num;
  p_speed : option num;
  p_heading : option num;
  p_altitude : option num;
  p_accuracy : option num;
  p_suspect : bool;
  p_timestamp : Z;
  p_companyId : string;
  p_deliveryId : option string;
  p_vehicleId : string;
  p_driverId : option string;
  p_source : PositionSource;
  p_attributes : list (string * Attribute)  (** empty: not stored *)
}.

(** [UpdatePositionDto], validated. *)
Record UpdatePositionDto := mkDto {
  latitude : num;
  longitude : num;
  speed : option num;
  heading : option num;
  altitude : option num;
  accuracy : option num;
  timestamp : Z;
  deliveryId : option string;
  vehicleId : string
}.

Record CompanySettings := mkSettings {
  speedAlertThreshold : option num;
  prolongedStopMinutes : option Z;
  offlineTimeoutMinutes : option Z
}.

Record Geofence := mkGeofence {
  gf_deliveryId : option string;
  gf_name : string;
  gf_lat : num;
  gf_lng : num;
  gf_radiusMeters : num
}.

Inductive Crossing := entry | exit.
#[export] Instance Crossing_eq_dec : EqDecision Crossing.
Proof. solve_decision. Defined.

Record GeofenceEvent := mkEvent {
  ge_geofenceId : string;
  ge_vehicleId : string;
  ge_deliveryId : string;
  ge_event : Crossing;
  ge_latitude : num;
  ge_longitude : num
}.

Inductive AlertType := speed_alert | prolonged_stop | delay_alert | device_offline | geofence_event.
Inductive AlertPriority := high | medium.

Inductive TrackingEffect :=
  | Notify (companyId : string) (type : AlertType) (priority : AlertPriority)
      (deliveryId userId : option string)
  | GeofenceUpdate (companyId : string) (event : Crossing) (geofenceId geofenceName : string)
      (deliveryId vehicleId : string) (driverId : option string)
  | ProximityAlert (companyId targetUserId deliveryId title : string) (escalationLevel : Z).

Record Metrics := mkMetrics {
  received : Z;
  savedCount : Z;
  deduped : Z;
  teleported : Z;
  batchSaved : Z;
  rateLimited : Z;
  batchRateLimited : Z
}.
Definition noMetrics : Metrics := mkMetrics 0 0 0 0 0 0 0.

(** The position before the one being processed, as [generateAlerts] reads it. *)
Record PrevPosition := mkPrev {
  pv_timestamp : Z;
  pv_speed : option num;
  pv_latitude : num;
  pv_longitude : num
}.

(** A call the ingestion makes without awaiting it. *)
Inductive Task :=
  | GenerateAlerts (dto : UpdatePositionDto) (companyId : string) (driverId : option string)
      (prev : option PrevPosition)
  | CheckProximity (driverId vehicleId companyId : string) (latitude longitude : num) (timestamp : Z).

(** The database, Redis, the in-process state, and what the services sent;
    [positions] and [geofenceEvents] in insertion order. *)
Record TrackingStore := mkTracking {
  vehicles : gmap string Vehicle;
  drivers : gmap string Driver;
  deliveries : gmap string Delivery;
  settings : gmap string CompanySettings;
  geofences : gmap string Geofence;
  positions : list GpsPosition;
  geofenceEvents : list GeofenceEvent;
  cache : RedisDb;
  lastDeliveryMap : gmap string string;
  metrics : Metrics;
  tasks : list Task;
  effects : list TrackingEffect
}.

Definition emit (e : TrackingEffect) (s : TrackingStore) : TrackingStore :=
  s <| effects := effects s ++ [e] |>.
Definition spawn (t : Task) (s : TrackingStore) : TrackingStore :=
  s <| tasks := tasks s ++ [t] |>.

(** ** Queries on the positions *)

(** [findFirst({ where: P, orderBy: { timestamp: 'desc' } })]. *)
Definition latest (P : GpsPosition → bool) (l : list GpsPosition) : option GpsPosition :=
  foldl (λ best p,
    if P p then
      match best with
      | Some b => if p_timestamp b <? p_timestamp p then Some p else best
      | None => Some p
      end
    else best) None l.

Definition ofVehicle (vid : string) (p : GpsPosition) : bool := bool_decide (p_vehicleId p = vid).

Definition getLastPosition (s : TrackingStore) (vid : string) (excludeSuspect : bool) : option GpsPosition :=
  latest (λ p, ofVehicle vid p && (negb excludeSuspect || negb (p_suspect p))) (positions s).

Definition prevOf (p : GpsPosition) : PrevPosition :=
  mkPrev (p_timestamp p) (p_speed p) (p_latitude p) (p_longitude p).

Section Tracking.
Context (jm : JsMath).

(** ** GeofenceService *)

Definition eventsOf (vid did gid : string) (s : TrackingStore) : list GeofenceEvent :=
  filter (λ e, ge_vehicleId e = vid ∧ ge_deliveryId e = did ∧ ge_geofenceId e = gid) (geofenceEvents s).

(** [lastEventPerGeofence.get(gf.id) === 'entry']: rows carry their insertion
    time, so the latest is the last inserted. *)
Definition previouslyInside (events : list GeofenceEvent) (gid : string) : bool :=
  match last (filter (λ e, ge_geofenceId e = gid) events) with
  | Some e => bool_decide (ge_event e = entry)
  | None => false
  end.

(** The loop over the geofences, [allEvents] being read before it. *)
Fixpoint crossGeofences (allEvents : list GeofenceEvent) (did vid : string) (lat lng : num)
    (gfs : list (string * Geofence)) (s : TrackingStore)
  : TrackingStore * list (Crossing * string * string) :=
  match gfs with
  | [] => (s, [])
  | (gid, gf) :: gfs' =>
      let inside := num_leb (haversineDistance jm lat lng (gf_lat gf) (gf_lng gf)) (gf_radiusMeters gf) in
      let was := previouslyInside allEvents gid in
      let record c :=
        let '(s', evs) :=
          crossGeofences allEvents did vid lat lng gfs'
            (s <| geofenceEvents := geofenceEvents s ++ [mkEvent gid vid did c lat lng] |>) in
        (s', (c, gid, gf_name gf) :: evs) in
      if inside && negb was then record entry
      else if negb inside && was then record exit
      else crossGeofences allEvents did vid lat lng gfs' s
  end.

Definition findForDelivery (did : string) (s : TrackingStore) : list (string * Geofence) :=
  find_many (λ _ gf, bool_decide (gf_deliveryId gf = Some did)) (geofences s).

Definition checkGeofences (did vid : string) (lat lng : num) (s : TrackingStore)
  : TrackingStore * list (Crossing * string * string) :=
  let gfs := findForDelivery did s in
  if bool_decide (length gfs = O) then (s, [])
  else
    let allEvents :=
      filter (λ e, ge_vehicleId e = vid ∧ ge_deliveryId e = did) (geofenceEvents s) in
    crossGeofences allEvents did vid lat lng gfs s.

Definition emitGeofenceEvents (did vid : string) (lat lng : num) (companyId : string)
    (driverId alertUserId : option string) (s : TrackingStore) : TrackingStore :=
  let '(s, events) := checkGeofences did vid lat lng s in
  foldl (λ s '(c, gid, name),
    emit (GeofenceUpdate companyId c gid name did vid driverId)
      (emit (Notify companyId geofence_event high (Some did) alertUserId) s)) s events.

(** ** DeliveryProximityService *)

Definition PROXIMITY_THRESHOLD_M : num := num_of_Z 300.
Definition ESCALATION_AFTER_MS : Z := 15 * 60 * 1000.
Definition SNOOZE_MS : Z := 5 * 60 * 1000.
Definition ESCALATION_SNOOZE_MS : Z := 2 * 60 * 1000.

Definition getProximityKey (did vid : string) : string := "proximity:entered:" +:+ did +:+ ":" +:+ vid.
Definition getSnoozeKey (did vid : string) : string := "proximity:snoozed:" +:+ did +:+ ":" +:+ vid.

Definition onCache (f : RedisDb → RedisDb) (s : TrackingStore) : TrackingStore :=
  s <| cache := f (cache s) |>.

Definition setEnteredTime (now : Z) (did vid : string) (t : Z) : TrackingStore → TrackingStore :=
  onCache (redis_set now (getProximityKey did vid) (pretty t) 86400).
Definition getEnteredTime (now : Z) (did vid : string) (s : TrackingStore) : option Z :=
  match redis_get now (getProximityKey did vid) (cache s) with
  | Some v => if bool_decide (v = "") then None else Some (digitsValue v)
  | None => None
  end.
Definition removeEnteredTime (did vid : string) : TrackingStore → TrackingStore :=
  onCache (redis_del (getProximityKey did vid)).

Definition isSnoozed (now : Z) (did vid : string) (s : TrackingStore) : bool :=
  match redis_get now (getSnoozeKey did vid) (cache s) with
  | Some v => now <? digitsValue v
  | None => false
  end.

Definition snoozeProximity (now : Z) (did vid : string) (escalationLevel : Z) : TrackingStore → TrackingStore :=
  let snoozeMs := if 2 <=? escalationLevel then ESCALATION_SNOOZE_MS else SNOOZE_MS in
  onCache (redis_set now (getSnoozeKey did vid) (pretty (now + snoozeMs)) ((snoozeMs + 999) / 1000)).

Definition checkProximity (now : Z) (driverId vid companyId : string) (lat lng : num)
    (s : TrackingStore) : TrackingStore :=
  match drivers s !! driverId ≫= dr_userId with
  | None => s
  | Some userId =>
      if bool_decide (userId = "") then s
      else
        match find_first (λ _ d, bool_decide (dl_driverId d = Some driverId) && dl_inProgress d
                          && bool_decide (dl_deletedAt d = None)
                          && bool_decide (dl_deliveryLat d ≠ None) && bool_decide (dl_deliveryLng d ≠ None))
                (deliveries s) with
        | None =>
            match lastDeliveryMap s !! vid with
            | Some prevId =>
                if bool_decide (prevId = "") then s
                else (removeEnteredTime prevId vid s) <| lastDeliveryMap := delete vid (lastDeliveryMap s) |>
            | None => s
            end
        | Some (did, d) =>
            let s := s <| lastDeliveryMap := <[vid := did]> (lastDeliveryMap s) |> in
            let dist := haversineDistance jm lat lng
                          (default zero (dl_deliveryLat d)) (default zero (dl_deliveryLng d)) in
            if num_leb dist PROXIMITY_THRESHOLD_M then
              let enteredAt := getEnteredTime now did vid s in
              let s := if bool_decide (enteredAt = None) then setEnteredTime now did vid now s else s in
              let timeInZone := now - default now enteredAt in
              let escalationLevel :=
                if ESCALATION_AFTER_MS <? timeInZone then 2
                else if ESCALATION_AFTER_MS / 2 <? timeInZone then 1 else 0 in
              if isSnoozed now did vid s then s
              else
                let title := if bool_decide (dl_title d = "") then "Delivery" else dl_title d in
                emit (ProximityAlert companyId userId did title escalationLevel) s
            else removeEnteredTime did vid s
        end
  end.

(** ** generateAlerts *)

Definition STOP_SPEED_THRESHOLD_MS : num := num_lit 3 10.
Definition SPEED_SMOOTHING_WINDOW : nat := 5.
Definition STATIONARY_RADIUS_M : num := num_of_Z 30.

(** [ms / 60000]. *)
Definition minutes (ms : Z) : num := num_div (num_of_Z ms) (num_of_Z 60000).

(** [new Date(x)] of a number: truncated to the millisecond, [None] beyond the
    range of dates. *)
Definition Date_of_num (x : num) : option Z :=
  match x with
  | S754_zero _ => Some 0
  | S754_finite sgn m e =>
      let v := if 0 <=? e then Z.pos m * 2 ^ e else Z.pos m / 2 ^ (- e) in
      if v <=? 8640000000000000 then Some (if sgn then - v else v) else None
  | _ => None
  end.

Definition getAverageSpeed (vid did : string) (s : TrackingStore) : option num :=
  let recent :=
    take SPEED_SMOOTHING_WINDOW
      (rev (sort_by p_timestamp
        (filter (λ p, p_vehicleId p = vid ∧ p_deliveryId p = Some did) (positions s)))) in
  let speeds := omap p_speed recent in
  match speeds with
  | [] => None
  | _ => Some (num_div (foldl num_add zero speeds) (num_of_Z (Z.of_nat (length speeds))))
  end.

(** [cacheService.get<boolean>(key)], then [set(key, true, ttl)] and the
    notification, unless it is set. *)
Definition withCooldown (now : Z) (key : string) (ttl : Z) (e : TrackingEffect) (s : TrackingStore)
  : TrackingStore :=
  match redis_get now key (cache s) with
  | Some "true" => s
  | _ => emit e (onCache (redis_set now key "true" ttl) s)
  end.

Definition speedAlert (now : Z) (dto : UpdatePositionDto) (companyId : string) (st : CompanySettings)
    (alertUserId : option string) (s : TrackingStore) : TrackingStore :=
  match speed dto, speedAlertThreshold st with
  | Some v, Some threshold =>
      if num_truthy threshold && num_ltb threshold (num_mul v (num_lit 36 10))
      then withCooldown now ("speed_alert:" +:+ vehicleId dto) 300
             (Notify companyId speed_alert high (deliveryId dto) alertUserId) s
      else s
  | _, _ => s
  end.

Definition stopAlert (dto : UpdatePositionDto) (companyId : string) (st : CompanySettings)
    (prev : option PrevPosition) (alertUserId : option string) (s : TrackingStore) : TrackingStore :=
  match prev, prolongedStopMinutes st, speed dto with
  | Some lastPos, Some stopMinutes, Some v =>
      let stoppedMin := minutes (timestamp dto - pv_timestamp lastPos) in
      let bothSlow :=
        num_ltb v STOP_SPEED_THRESHOLD_MS
        && match pv_speed lastPos with Some w => num_ltb w STOP_SPEED_THRESHOLD_MS | None => false end in
      let dwelledInPlace :=
        num_leb (haversineDistance jm (pv_latitude lastPos) (pv_longitude lastPos)
                   (latitude dto) (longitude dto)) STATIONARY_RADIUS_M in
      if negb (stopMinutes =? 0) && (bothSlow || dwelledInPlace)
         && num_leb (num_of_Z stopMinutes) stoppedMin
      then emit (Notify companyId prolonged_stop medium (deliveryId dto) alertUserId) s
      else s
  | _, _, _ => s
  end.

Definition delayAlert (now : Z) (dto : UpdatePositionDto) (companyId : string)
    (alertUserId : option string) (s : TrackingStore) : TrackingStore :=
  match deliveryId dto, speed dto with
  | Some did, Some v =>
      if bool_decide (did = "") || negb (num_ltb zero v) then s
      else
        match deliveries s !! did with
        | None => s
        | Some d =>
            match dl_deliveryLat d, dl_deliveryLng d, dl_scheduledDate d with
            | Some dLat, Some dLng, Some scheduled =>
                if num_truthy dLat && num_truthy dLng then
                  let distanceRemaining :=
                    haversineDistance jm (latitude dto) (longitude dto) dLat dLng in
                  let effectiveSpeed := default v (getAverageSpeed (vehicleId dto) did s) in
                  if num_ltb zero effectiveSpeed then
                    let etaSec := num_div distanceRemaining effectiveSpeed in
                    match Date_of_num (num_add (num_of_Z (timestamp dto)) (num_mul etaSec (num_of_Z 1000))) with
                    | Some etaDate =>
                        if scheduled <? etaDate
                        then withCooldown now ("delay_alert:" +:+ vehicleId dto) 900
                               (Notify companyId delay_alert high (Some did) alertUserId) s
                        else s
                    | None => s
                    end
                  else s
                else s
            | _, _, _ => s
            end
        end
  | _, _ => s
  end.

Definition offlineAlert (dto : UpdatePositionDto) (companyId : string) (st : CompanySettings)
    (prev : option PrevPosition) (alertUserId : option string) (s : TrackingStore) : TrackingStore :=
  let lastPos :=
    match prev with
    | Some p => Some p
    | None => prevOf <$> getLastPosition s (vehicleId dto) false
    end in
  match lastPos, offlineTimeoutMinutes st with
  | Some lastPos, Some timeout =>
      if negb (timeout =? 0)
         && num_ltb (num_of_Z timeout) (minutes (timestamp dto - pv_timestamp lastPos))
         && bool_decide (is_Some (speed dto))
      then emit (Notify companyId device_offline medium (deliveryId dto) alertUserId) s
      else s
  | _, _ => s
  end.

Definition generateAlerts (now : Z) (dto : UpdatePositionDto) (companyId : string)
    (driverId : option string) (prev : option PrevPosition) (s : TrackingStore) : TrackingStore :=
  match settings s !! companyId with
  | None => s
  | Some st =>
      let alertUserId :=
        match driverId with
        | Some id => if bool_decide (id = "") then None else drivers s !! id ≫= dr_userId
        | None => None
        end in
      let s := speedAlert now dto companyId st alertUserId s in
      let s := stopAlert dto companyId st prev alertUserId s in
      let s := delayAlert now dto companyId alertUserId s in
      let s := offlineAlert dto companyId st prev alertUserId s in
      if truthy (deliveryId dto)
      then emitGeofenceEvents (default "" (deliveryId dto)) (vehicleId dto) (latitude dto) (longitude dto)
             companyId driverId alertUserId s
      else s
  end.

(** [replayBackfillSideEffects]: geofences, then proximity, on the last point
    of a Traccar backfill. *)
Definition replayBackfillSideEffects (now : Z) (driverId : option string) (vid companyId : string)
    (did : option string) (lat lng : num) (s : TrackingStore) : TrackingStore :=
  let s :=
    if truthy did then
      let alertUserId :=
        match driverId with
        | Some id => if bool_decide (id = "") then None else drivers s !! id ≫= dr_userId
        | None => None
        end in
      emitGeofenceEvents (default "" did) vid lat lng companyId driverId alertUserId s
    else s in
  match driverId with
  | Some id => if bool_decide (id = "") then s else checkProximity now id vid companyId lat lng s
  | None => s
  end.

End Tracking.
