(* ===== verification/Tracking.v ===== *)
(** * Tracking: the ingestion of positions

    TrackingService: savePosition (one position, phone or tracker), saveBatch
    and validateAndSaveBatch (the phone's replay after an outage), with
    duplicate detection, teleportation and rate limits.  Calls the service does
    not await are recorded as [tasks]; TrackingModel has their bodies.

    Instants are milliseconds: [(t1 - t2) / 1000 <= k] is compared as
    [t1 - t2 <= 1000 k]. *)

From Stdlib Require Import SpecFloat.
From S2P Require Import Prelude JsString JsNum Geo Redis Gps TrackingModel.

#[local] Open Scope string_scope.
#[local] Open Scope list_scope.
#[local] Open Scope Z_scope.

Definition DEDUP_CLOCK_SKEW_S : Z := 1.

Definition onMetrics (f : Metrics → Metrics) (s : TrackingStore) : TrackingStore :=
  s <| metrics := f (metrics s) |>.

(** ** Rate limits *)

(** [isRateLimited]; [ttlMs] is [Number(POSITION_RATE_LIMIT_TTL_MS)], [None]
    for NaN. *)
Definition isRateLimited (now : Z) (ttlMs : option Z) (driverId : string) (s : TrackingStore)
  : TrackingStore * bool :=
  match ttlMs with
  | None => (s, false)
  | Some ttlMs =>
      if ttlMs <=? 0 then (s, false)
      else
        let key := "rate_limit:driver:" +:+ driverId in
        if bool_decide (redis_get now key (cache s) = Some "true")
        then (onMetrics (λ m, m <| rateLimited := rateLimited m + 1 |>) s, true)
        else (onCache (λ db, <[key := mkEntry "true" (Some (now + ttlMs))]> db) s, false)
  end.

Definition batchKey (driverId : string) : string := "rate_limit_batch:" +:+ driverId.

(** [isBatchRateLimited]; [max] is [Number(BATCH_RATE_LIMIT_PER_MIN)]. *)
Definition isBatchRateLimited (now : Z) (max : option Z) (driverId : string) (s : TrackingStore)
  : TrackingStore * bool :=
  match max with
  | None => (s, false)
  | Some max =>
      if max <=? 0 then (s, false)
      else
        let key := batchKey driverId in
        let current := digitsValue <$> redis_get now key (cache s) in
        if match current with Some c => max <=? c | None => false end
        then (onMetrics (λ m, m <| batchRateLimited := batchRateLimited m + 1 |>) s, true)
        else (onCache (redis_set now key (pretty (default 0 current + 1)) 60) s, false)
  end.

(** ** Duplicates and teleportation *)

(** [isDuplicateByTimestamp]: the nearest position not after [ts + 1 s]. *)
Definition isDuplicateByTimestamp (s : TrackingStore) (vid : string) (did : option string) (ts : Z) : bool :=
  let windowMs := DEDUP_CLOCK_SKEW_S * 1000 in
  let nearest :=
    latest (λ p, ofVehicle vid p && (negb (truthy did) || bool_decide (p_deliveryId p = did))
                 && (p_timestamp p <=? ts + windowMs)) (positions s) in
  match nearest with Some p => ts - windowMs <=? p_timestamp p | None => false end.

Definition teleportRef (p : GpsPosition) : TeleportReference :=
  mkTeleportRef (p_latitude p) (p_longitude p) (p_timestamp p) (p_speed p) (p_accuracy p).

Section Ingestion.
Context (jm : JsMath).

(** The position a new one is compared with: the last reliable one, or the last
    reliable one before a late fix, or within the same source just after a
    change of source. *)
Definition teleportReference (s : TrackingStore) (vid : string) (ts : Z) (source : PositionSource)
  : option GpsPosition :=
  match getLastPosition s vid true with
  | None => None
  | Some last =>
      let last :=
        if ts <=? p_timestamp last
        then latest (λ p, ofVehicle vid p && negb (p_suspect p) && (p_timestamp p <? ts)) (positions s)
        else Some last in
      match last with
      | None => None
      | Some last =>
          if bool_decide (p_source last ≠ source) then
            let gap := ts - p_timestamp last in
            if (0 <? gap) && (gap <=? 300 * 1000)
            then latest (λ p, ofVehicle vid p && bool_decide (p_source p = source) && negb (p_suspect p))
                   (positions s)
            else Some last
          else Some last
      end
  end.

Definition detectTeleportation (s : TrackingStore) (lat lng : num) (ts : Z) (vid : string)
    (acc : option num) (source : PositionSource) (spd : option num) : bool :=
  match teleportReference s vid ts source with
  | None => false
  | Some reference => te_suspect (evaluateTeleportation jm (teleportRef reference) lat lng ts acc spd)
  end.

(** ** savePosition *)

(** [!id || id.length < 16]. *)
Definition badId (id : string) : bool := (String.length id <? 16)%nat.

(** [gpsPosition.create]: [None] for the unique constraint on
    [(vehicleId, timestamp)]. *)
Definition sameInstant (p q : GpsPosition) : bool :=
  bool_decide (p_vehicleId p = p_vehicleId q) && (p_timestamp p =? p_timestamp q).
Definition createPosition (p : GpsPosition) (s : TrackingStore) : option TrackingStore :=
  if existsb (sameInstant p) (positions s) then None
  else Some (s <| positions := positions s ++ [p] |>).

Definition deduplicated (s : TrackingStore) : TrackingStore :=
  onMetrics (λ m, m <| deduped := deduped m + 1 |>) s.

(** The early returns of [savePosition]: the vehicle, when the position is
    accepted for it. *)
Definition acceptedVehicle (dto : UpdatePositionDto) (companyId : option string) (source : PositionSource)
    (s : TrackingStore) : option Vehicle :=
  if badId (vehicleId dto) then None
  else if match deliveryId dto with Some d => badId d | None => false end then None
  else
    match vehicles s !! vehicleId dto with
    | None => None
    | Some v =>
        if bool_decide (vh_deletedAt v ≠ None) || negb (vh_isActive v) then None
        else if truthy companyId && negb (bool_decide (companyId = Some (vh_companyId v))) then None
        else if bool_decide (source = phone) && bool_decide (vh_positionSource v = physical_tracker)
        then None
        else Some v
    end.

(** The row [savePosition] creates. *)
Definition positionRow (driverId : option string) (dto : UpdatePositionDto) (companyId : string)
    (source : PositionSource) (attributes : list (string * Attribute)) (suspect : bool) : GpsPosition :=
  {| p_latitude := latitude dto; p_longitude := longitude dto; p_speed := speed dto;
     p_heading := heading dto; p_altitude := altitude dto; p_accuracy := accuracy dto;
     p_suspect := suspect; p_timestamp := timestamp dto; p_companyId := companyId;
     p_deliveryId := deliveryId dto; p_vehicleId := vehicleId dto; p_driverId := driverId;
     p_source := source; p_attributes := attributes |}.

(** What follows the insertion: counters, alerts, proximity. *)
Definition afterInsert (driverId : option string) (dto : UpdatePositionDto) (companyId : option string)
    (suspect : bool) (prevPosition : option PrevPosition) (s : TrackingStore) : TrackingStore :=
  let s := onMetrics (λ m, m <| savedCount := savedCount m + 1 |>) s in
  let s := if received (metrics s) mod 100 =? 0 then onMetrics (λ _, noMetrics) s else s in
  let s :=
    if truthy companyId && negb suspect
    then spawn (GenerateAlerts dto (default "" companyId) driverId prevPosition) s else s in
  if truthy companyId && negb suspect && truthy driverId
  then spawn (CheckProximity (default "" driverId) (vehicleId dto) (default "" companyId)
                (latitude dto) (longitude dto) (timestamp dto)) s
  else s.

Definition savePosition (driverId : option string) (dto : UpdatePositionDto) (companyId : option string)
    (source : PositionSource) (attributes : list (string * Attribute)) (s : TrackingStore)
  : TrackingStore * option GpsPosition :=
  let s := onMetrics (λ m, m <| received := received m + 1 |>) s in
  match acceptedVehicle dto companyId source s with
  | None => (s, None)
  | Some v =>
      if isDuplicateByTimestamp s (vehicleId dto) (deliveryId dto) (timestamp dto)
      then (deduplicated s, None)
      else
        let suspect :=
          detectTeleportation s (latitude dto) (longitude dto) (timestamp dto) (vehicleId dto)
            (accuracy dto) source (speed dto) in
        let s := if suspect then onMetrics (λ m, m <| teleported := teleported m + 1 |>) s else s in
        let resolvedCompanyId := if truthy companyId then default "" companyId else vh_companyId v in
        let prevPosition := prevOf <$> getLastPosition s (vehicleId dto) false in
        let row := positionRow driverId dto resolvedCompanyId source attributes suspect in
        match createPosition row s with
        | None => (deduplicated s, None)
        | Some s => (afterInsert driverId dto companyId suspect prevPosition s, Some row)
        end
  end.

(** ** saveBatch *)

Record LastFix := mkLast {
  lf_latitude : num;
  lf_longitude : num;
  lf_timestamp : Z;
  lf_speed : option num
}.

(** The maps carried along the batch, and the rows to insert, first last. *)
Record BatchState := mkBatch {
  lastPositions : gmap string LastFix;
  lastAccuracy : gmap string (option num);
  speedHistory : gmap string (list GroundSpeedRef);
  toInsert : list GpsPosition;
  dupCount : Z;
  suspectCount : Z
}.

Definition lastFixOf (p : GpsPosition) : LastFix :=
  mkLast (p_latitude p) (p_longitude p) (p_timestamp p) (p_speed p).

(** [delivery.findMany({ id in ..., deletedAt: null, OR: [...] })] has [did]. *)
Definition verifiedDelivery (s : TrackingStore) (userId driverId did : string) : bool :=
  match deliveries s !! did with
  | Some d => bool_decide (dl_deletedAt d = None)
              && (bool_decide (dl_assignedDriverId d = Some userId)
                  || bool_decide (dl_driverId d = Some driverId))
  | None => false
  end.

(** [vehicle.findMany(vehicleWhere)] has [vid]. *)
Definition validVehicle (s : TrackingStore) (companyId : option string) (vid : string) : bool :=
  match vehicles s !! vid with
  | Some v => bool_decide (vh_deletedAt v = None) && vh_isActive v
              && bool_decide (vh_positionSource v = phone)
              && (negb (truthy companyId) || bool_decide (companyId = Some (vh_companyId v)))
  | None => false
  end.

(** The first pass on one position: [None] when it is dropped, otherwise with
    the delivery it stays attached to. *)
Definition keepPosition (s : TrackingStore) (userId driverId : string) (companyId : option string)
    (pos : UpdatePositionDto) : option UpdatePositionDto :=
  let effective :=
    if truthy (deliveryId pos) && negb (verifiedDelivery s userId driverId (default "" (deliveryId pos)))
    then None else deliveryId pos in
  let effective := match effective with Some d => if badId d then None else Some d | None => None end in
  if badId (vehicleId pos) then None
  else if negb (validVehicle s companyId (vehicleId pos)) then None
  else Some (pos <| deliveryId := effective |>).

(** The last position in the database of each vehicle of the batch. *)
Definition dbLast (s : TrackingStore) (vid : string) : option GpsPosition :=
  latest (ofVehicle vid) (positions s).
Definition initialBatch (s : TrackingStore) (vids : list string) : BatchState :=
  {| lastPositions :=
       list_to_map (omap (λ vid, (λ p, (vid, lastFixOf p)) <$> dbLast s vid) vids);
     lastAccuracy :=
       list_to_map (omap (λ vid, (λ p, (vid, p_accuracy p)) <$> dbLast s vid) vids);
     speedHistory := ∅; toInsert := []; dupCount := 0; suspectCount := 0 |}.

(** Within [DEDUP_CLOCK_SKEW_S] of a reference. *)
Definition within (ts : Z) (reference : option LastFix) : bool :=
  match reference with
  | Some f => Z.abs (ts - lf_timestamp f) <=? DEDUP_CLOCK_SKEW_S * 1000
  | None => false
  end.

(** One iteration of the loop over the sorted positions. *)
Definition batchStep (dbLastPositions : gmap string LastFix) (driverId resolvedCompanyId : string)
    (st : BatchState) (pos : UpdatePositionDto) : BatchState :=
  let ts := timestamp pos in
  let last := lastPositions st !! vehicleId pos in
  let dbLatest := dbLastPositions !! vehicleId pos in
  if within ts last || within ts dbLatest then st <| dupCount := dupCount st + 1 |>
  else
    let lastAcc := lastAccuracy st !! vehicleId pos ≫= id in
    let history := default [] (speedHistory st !! vehicleId pos) in
    let here := mkRef (latitude pos) (longitude pos) ts (accuracy pos) in
    let resolvedSpeed :=
      speedMs (resolveGroundSpeed jm
        {| reportedSpeedMs := speed pos;
           previous := (λ f, mkRef (lf_latitude f) (lf_longitude f) (lf_timestamp f) lastAcc) <$> last;
           current := here;
           currentTimestampIsServerFallback := false;
           windowPrevious := selectSpeedWindowRef history ts |}) in
    let suspect :=
      match last with
      | Some f =>
          if 0 <? ts - lf_timestamp f then
            te_suspect (evaluateTeleportation jm
              (mkTeleportRef (lf_latitude f) (lf_longitude f) (lf_timestamp f) (lf_speed f) lastAcc)
              (latitude pos) (longitude pos) ts (accuracy pos) (Some resolvedSpeed))
          else false
      | None => false
      end in
    {| lastPositions :=
         <[vehicleId pos := mkLast (latitude pos) (longitude pos) ts (Some resolvedSpeed)]> (lastPositions st);
       lastAccuracy := <[vehicleId pos := accuracy pos]> (lastAccuracy st);
       speedHistory :=
         if suspect then speedHistory st
         else
           let h := history ++ [here] in
           <[vehicleId pos := drop (length h - 30) h]> (speedHistory st);
       toInsert :=
         toInsert st ++
         [{| p_latitude := latitude pos; p_longitude := longitude pos; p_speed := Some resolvedSpeed;
             p_heading := heading pos; p_altitude := altitude pos; p_accuracy := accuracy pos;
             p_suspect := suspect; p_timestamp := ts; p_companyId := resolvedCompanyId;
             p_deliveryId := deliveryId pos; p_vehicleId := vehicleId pos; p_driverId := Some driverId;
             p_source := phone; p_attributes := [] |}];
       dupCount := dupCount st;
       suspectCount := suspectCount st + (if suspect then 1 else 0) |}.

(** [createManyAndReturn({ skipDuplicates: true })]: the rows inserted. *)
Definition createMany (rows : list GpsPosition) (s : TrackingStore) : TrackingStore * list GpsPosition :=
  foldl (λ '(s, inserted) row,
    match createPosition row s with
    | Some s' => (s', inserted ++ [row])
    | None => (s, inserted)
    end) (s, []) rows.

Definition dtoOf (r : GpsPosition) : UpdatePositionDto :=
  {| latitude := p_latitude r; longitude := p_longitude r; speed := p_speed r; heading := p_heading r;
     altitude := p_altitude r; accuracy := p_accuracy r; timestamp := p_timestamp r;
     deliveryId := p_deliveryId r; vehicleId := p_vehicleId r |}.

(** The alerts of the inserted rows, [lastByVehicle] being the map and its keys
    in order of insertion. *)
Fixpoint batchAlerts (companyId : option string) (driverId : string) (rows : list GpsPosition)
    (lastByVehicle : gmap string PrevPosition) (s : TrackingStore) : TrackingStore :=
  match rows with
  | [] => s
  | r :: rows' =>
      let s :=
        if truthy companyId && negb (p_suspect r)
        then spawn (GenerateAlerts (dtoOf r) (default "" companyId) (Some driverId)
                      (lastByVehicle !! p_vehicleId r)) s
        else s in
      batchAlerts companyId driverId rows' (<[p_vehicleId r := prevOf r]> lastByVehicle) s
  end.

(** The keys of [lastByVehicle], in order of insertion. *)
Fixpoint vehiclesOf (rows : list GpsPosition) (seen : list string) : list string :=
  match rows with
  | [] => seen
  | r :: rows' =>
      vehiclesOf rows' (if bool_decide (p_vehicleId r ∈ seen) then seen else seen ++ [p_vehicleId r])
  end.

(** The proximity check of each vehicle, on [inserted.find(...)]. *)
Definition batchProximity (companyId : option string) (driverId : string) (inserted : list GpsPosition)
    (s : TrackingStore) : TrackingStore :=
  if truthy companyId then
    foldl (λ s vid,
      match head (filter (λ r, p_vehicleId r = vid) inserted) with
      | Some r => spawn (CheckProximity driverId vid (default "" companyId)
                           (p_latitude r) (p_longitude r) (p_timestamp r)) s
      | None => s
      end) s (vehiclesOf inserted [])
  else s.

(** The rows a batch asks to insert, and the loop's final state. *)
Definition batchLoop (userId driverId : string) (positions : list UpdatePositionDto)
    (companyId : option string) (s : TrackingStore) : BatchState :=
  let init := initialBatch s (map vehicleId positions) in
  let valid := omap (keepPosition s userId driverId companyId) positions in
  foldl (batchStep (lastPositions init) driverId (default "" companyId)) init (sort_by timestamp valid).

Definition saveBatch (userId driverId : string) (positions : list UpdatePositionDto)
    (companyId : option string) (s : TrackingStore) : TrackingStore * list GpsPosition :=
  let st := batchLoop userId driverId positions companyId s in
  let s := onMetrics (λ m, m <| deduped := deduped m + dupCount st |>
                             <| teleported := teleported m + suspectCount st |>) s in
  match toInsert st with
  | [] => (s, [])
  | rows =>
      let s := onMetrics (λ m, m <| batchSaved := batchSaved m + Z.of_nat (length rows) |>) s in
      let '(s, inserted) := createMany rows s in
      let s := onMetrics (λ m, m <| savedCount := savedCount m + Z.of_nat (length inserted) |>) s in
      let s := batchAlerts companyId driverId inserted ∅ s in
      (batchProximity companyId driverId inserted s, inserted)
  end.

(** ** validateAndSaveBatch *)

(** What class-validator finds in a raw position: the position, or the names of
    the constraints it violates. *)
Context {Raw : Type} (validate : Raw → UpdatePositionDto + list string).

Inductive BatchAnswer :=
  | rate_limited
  | empty
  | no_driver
  | batch_ok (saved : list GpsPosition) (validatedCount : nat) (driverId : string)
      (rejected : list (nat * string)).

(** The accepted positions, and the index and reason of the rejected ones. *)
Fixpoint sortOut (index : nat) (raws : list Raw) : list UpdatePositionDto * list (nat * string) :=
  match raws with
  | [] => ([], [])
  | raw :: raws' =>
      let '(oks, rejected) := sortOut (S index) raws' in
      match validate raw with
      | inl dto => (dto :: oks, rejected)
      | inr constraints =>
          let reason := String.concat ", " constraints in
          (oks, (index, if bool_decide (reason = "") then "invalid" else reason) :: rejected)
      end
  end.

Definition findDriverByUserId (s : TrackingStore) (userId : string) : option (string * Driver) :=
  find_first (λ _ d, bool_decide (dr_userId d = Some userId)) (drivers s).

(** [rawPositions] is [None] when it is not an array. *)
Definition validateAndSaveBatch (now : Z) (max : option Z) (userId companyId : string)
    (rawPositions : option (list Raw)) (s : TrackingStore) : TrackingStore * BatchAnswer :=
  let '(s, limited) := isBatchRateLimited now max userId s in
  if limited then (s, rate_limited)
  else
    match rawPositions with
    | None => (s, empty)
    | Some [] => (s, empty)
    | Some raws =>
        let '(validated, rejected) := sortOut 0 raws in
        match findDriverByUserId s userId with
        | None => (s, no_driver)
        | Some (driverId, _) =>
            match validated with
            | [] => (s, batch_ok [] 0 driverId rejected)
            | _ =>
                let '(s, saved) := saveBatch userId driverId validated (Some companyId) s in
                (s, batch_ok saved (length validated) driverId rejected)
            end
        end
    end.

End Ingestion.

(** ** What is read back: the recent fixes of a vehicle and the position to display *)

Definition PER_VEHICLE_ANCHOR_FIXES : nat := 40.

(** [attributes?.key], when it is a boolean or a number. *)
Definition boolAttribute (key : string) (attributes : list (string * Attribute)) : option bool :=
  match find (λ kv, String.eqb kv.1 key) attributes with
  | Some (_, AttrBool b) => Some b
  | _ => None
  end.
Definition numAttribute (key : string) (attributes : list (string * Attribute)) : option num :=
  match find (λ kv, String.eqb kv.1 key) attributes with
  | Some (_, AttrNum n) => Some n
  | _ => None
  end.

(** A stored position as the anchor reads it. *)
Definition anchorFixOf (p : GpsPosition) : AnchorFix :=
  mkAnchorFix (p_latitude p) (p_longitude p) (p_accuracy p) (p_speed p)
    (boolAttribute "motion" (p_attributes p)) (p_timestamp p).

(** [getRecentFixesByVehicle], for one of the vehicles: the latest reliable
    positions of 48 hours, oldest first; a vehicle without any is not in the map. *)
Definition getRecentFixes (now : Z) (s : TrackingStore) (vid : string) : list AnchorFix :=
  let recent :=
    filter (λ p, ofVehicle vid p && negb (p_suspect p) && (now - 48 * 3600000 <=? p_timestamp p) = true)
      (positions s) in
  let sorted := sort_by p_timestamp recent in
  map anchorFixOf (drop (length sorted - PER_VEHICLE_ANCHOR_FIXES) sorted).

Section Views.
Context (jm : JsMath).

Definition computeAnchorByVehicle (now : Z) (s : TrackingStore) (vid : string) : option (num * num) :=
  match getRecentFixes now s vid with
  | [] => None
  | fixes => computeAnchoredPosition jm fixes
  end.

Definition getDisplayPosition (now : Z) (s : TrackingStore) (vid : string) (speed : option num) (suspect : bool)
  : option (num * num) :=
  if suspect then None
  else if match speed with Some v => num_leb (num_lit 5 10) v | None => false end then None
  else computeAnchorByVehicle now s vid.

End Views.
