(* ===== verification/TrackingProps.v ===== *)
(** * Properties of the tracking services *)

From S2P Require Import Prelude JsString JsNum Geo Gps Redis TrackingModel Tracking.

#[local] Open Scope string_scope.
#[local] Open Scope list_scope.
#[local] Open Scope Z_scope.

(** ** The latest position *)

Lemma latest_app P l p : latest P (l ++ [p]) =
  if P p then match latest P l with
              | Some b => if p_timestamp b <? p_timestamp p then Some p else Some b
              | None => Some p end
  else latest P l.
Proof. unfold latest. rewrite foldl_app. simpl. destruct (P p); [|done]. by destruct (foldl _ _ _). Qed.

Lemma latest_Some P l p : latest P l = Some p →
  p ∈ l ∧ P p = true ∧ ∀ q, q ∈ l → P q = true → p_timestamp q ≤ p_timestamp p.
Proof.
  revert p. induction l as [|x l IH] using rev_ind; intros p; [done|]. rewrite latest_app.
  destruct (P x) eqn:Hx.
  - destruct (latest P l) as [b|] eqn:E.
    + destruct (IH b eq_refl) as (H1 & H2 & H3). destruct (Z.ltb_spec (p_timestamp b) (p_timestamp x)).
      * intros [= <-]. split_and!; [set_solver|done|]. intros q Hq HP.
        apply elem_of_app in Hq as [Hq|Hq%list_elem_of_singleton]; [|by subst]. specialize (H3 q Hq HP). lia.
      * intros [= <-]. split_and!; [set_solver|done|]. intros q Hq HP.
        apply elem_of_app in Hq as [Hq|Hq%list_elem_of_singleton]; [by apply H3|by subst].
    + intros [= <-]. split_and!; [set_solver|done|]. intros q Hq HP.
      apply elem_of_app in Hq as [Hq|Hq%list_elem_of_singleton]; [|by subst].
      exfalso. clear IH. revert E q Hq HP. clear. induction l as [|y l IH] using rev_ind; [set_solver|].
      rewrite latest_app. destruct (P y) eqn:Hy; [by destruct (latest P l); [destruct (_ <? _)|]|].
      intros E q Hq HP. apply elem_of_app in Hq as [Hq|Hq%list_elem_of_singleton]; [by apply (IH E q)|].
      by subst; congruence.
  - intros E. destruct (IH p E) as (H1 & H2 & H3). split_and!; [set_solver|done|]. intros q Hq HP.
    apply elem_of_app in Hq as [Hq|Hq%list_elem_of_singleton]; [by apply H3|by subst; congruence].
Qed.

Lemma latest_None P l q : latest P l = None → q ∈ l → P q = false.
Proof.
  induction l as [|y l IH] using rev_ind; [set_solver|].
  rewrite latest_app. destruct (P y) eqn:Hy; [by destruct (latest P l); [destruct (_ <? _)|]|].
  intros E Hq. apply elem_of_app in Hq as [Hq|Hq%list_elem_of_singleton]; [by apply IH|by subst].
Qed.

(** The single query of [isDuplicateByTimestamp] decides whether a stored
    position lies within a second. *)
Lemma isDuplicate_exact s vid did ts :
  isDuplicateByTimestamp s vid did ts = true ↔
  ∃ p, p ∈ positions s ∧ p_vehicleId p = vid ∧ (truthy did = true → p_deliveryId p = did)
       ∧ Z.abs (p_timestamp p - ts) ≤ 1000.
Proof.
  unfold isDuplicateByTimestamp, DEDUP_CLOCK_SKEW_S, ofVehicle. set (P := λ p, _).
  assert (HP : ∀ p, P p = true ↔ p_vehicleId p = vid ∧ (truthy did = true → p_deliveryId p = did)
                              ∧ p_timestamp p ≤ ts + 1000).
  { intros p. subst P. simpl. rewrite !andb_true_iff, orb_true_iff, negb_true_iff, !bool_decide_eq_true, Z.leb_le.
    destruct (truthy did); intuition (done || lia). }
  split.
  - destruct (latest P _) as [p|] eqn:E; [|done]. intros Hts%Z.leb_le.
    destruct (latest_Some _ _ _ E) as (H1 & H2 & _). apply HP in H2 as (H2 & H3 & H4).
    exists p. split_and!; [done..|lia].
  - intros (p & H1 & H2 & H3 & H4). assert (Hp : P p = true) by (apply HP; split_and!; [done..|lia]).
    destruct (latest P _) as [q|] eqn:E; [|by rewrite (latest_None _ _ _ E H1) in Hp].
    destruct (latest_Some _ _ _ E) as (_ & _ & H5). specialize (H5 p H1 Hp). apply Z.leb_le. lia.
Qed.

(** ** Batches: nothing is lost *)

Section Batch.
Context (jm : JsMath).

(** A stored position stands for an instant of a vehicle. *)
Definition standsFor (vid : string) (ts : Z) (p : GpsPosition) : Prop :=
  p_vehicleId p = vid ∧ Z.abs (p_timestamp p - ts) ≤ 1000.

Lemma createPosition_Some p s s' : createPosition p s = Some s' →
  s' = s <| positions := positions s ++ [p] |> ∧
  (∀ q, q ∈ positions s → p_vehicleId q = p_vehicleId p → p_timestamp q ≠ p_timestamp p).
Proof.
  unfold createPosition. destruct (existsb _ _) eqn:E; [done|]. intros [= <-]. split; [done|].
  intros q Hq Hv Ht. assert (H : existsb (sameInstant p) (positions s) = true).
  { apply existsb_exists. exists q. split; [by apply list_elem_of_In|]. unfold sameInstant.
    by rewrite bool_decide_eq_true_2, Ht, Z.eqb_refl. }
  by rewrite H in E.
Qed.

Lemma createPosition_None p s : createPosition p s = None →
  ∃ q, q ∈ positions s ∧ p_vehicleId q = p_vehicleId p ∧ p_timestamp q = p_timestamp p.
Proof.
  unfold createPosition. destruct (existsb _ _) eqn:E; [|done]. intros _.
  apply existsb_exists in E as (q & Hq & H). exists q. split; [by apply list_elem_of_In|].
  unfold sameInstant in H. apply andb_prop in H as [H1%bool_decide_eq_true_1 H2%Z.eqb_eq]. done.
Qed.

(** [positions] pairwise distinct instants per vehicle: the unique constraint. *)
Definition unique (l : list GpsPosition) : Prop := NoDup (map (λ p, (p_vehicleId p, p_timestamp p)) l).

Lemma createPosition_unique p s s' : createPosition p s = Some s' →
  unique (positions s) → unique (positions s').
Proof.
  intros H. destruct (createPosition_Some _ _ _ H) as [-> Hn]. unfold unique, set. simpl.
  rewrite map_app. intros Hu. apply NoDup_app. split_and!; [done| |apply NoDup_singleton].
  intros [v t] Hin%list_elem_of_In%in_map_iff Hs%list_elem_of_singleton.
  destruct Hin as (q & Eq & Hq%list_elem_of_In). simplify_eq. by eapply Hn.
Qed.

(** Everything but the positions is left as it was. *)
Definition same_but_positions (s s' : TrackingStore) : Prop :=
  s' = s <| positions := positions s' |>.

Lemma createMany_spec rows s s' inserted : createMany rows s = (s', inserted) →
  same_but_positions s s' ∧ positions s' = positions s ++ inserted ∧ inserted `sublist_of` rows
  ∧ (unique (positions s) → unique (positions s'))
  ∧ (∀ r, r ∈ rows → ∃ q, q ∈ positions s' ∧ p_vehicleId q = p_vehicleId r ∧ p_timestamp q = p_timestamp r).
Proof.
  revert s' inserted. unfold createMany. induction rows as [|r rows IH] using rev_ind; intros s' inserted.
  - intros [= <- <-]. split_and!; [by destruct s|by rewrite app_nil_r|done|done|set_solver].
  - rewrite foldl_app. simpl. destruct (foldl _ _ rows) as [s1 ins1] eqn:E.
    destruct (IH s1 ins1 eq_refl) as (H1 & H2 & H3 & H4 & H5).
    destruct (createPosition r s1) as [s2|] eqn:Ec; intros [= <- <-].
    + pose proof (createPosition_unique _ _ _ Ec) as Hu.
      destruct (createPosition_Some _ _ _ Ec) as [-> _]. split_and!.
      * unfold same_but_positions, set in *. simpl. rewrite H1. done.
      * unfold set. simpl. by rewrite H2, (assoc_L (++)).
      * by apply sublist_app.
      * auto.
      * intros x Hx. unfold set. simpl. apply elem_of_app in Hx as [Hx|Hx%list_elem_of_singleton].
        -- destruct (H5 x Hx) as (q & Hq & ?). exists q. split; [set_solver|done].
        -- subst. exists r. split; [set_solver|done].
    + split_and!; [done|done|by apply sublist_inserts_r|done|].
      intros x Hx. apply elem_of_app in Hx as [Hx|Hx%list_elem_of_singleton]; [by apply H5|].
      subst. by apply createPosition_None.
Qed.

(** What the loop maintains from the database [db]: the references are stored
    or about to be, and every position read so far is stood for. *)
Record loop_inv (db : list GpsPosition) (cid : string) (seen : list UpdatePositionDto) (st : BatchState) : Prop := {
  li_last : ∀ vid f, lastPositions st !! vid = Some f →
    ∃ p, p ∈ db ++ toInsert st ∧ p_vehicleId p = vid ∧ p_timestamp p = lf_timestamp f;
  li_seen : ∀ x, x ∈ seen → ∃ p, p ∈ db ++ toInsert st ∧ standsFor (vehicleId x) (timestamp x) p;
  li_rows : ∀ r, r ∈ toInsert st → ∃ x, x ∈ seen ∧ p_vehicleId r = vehicleId x
    ∧ p_timestamp r = timestamp x ∧ p_latitude r = latitude x ∧ p_longitude r = longitude x
    ∧ p_deliveryId r = deliveryId x ∧ p_source r = phone ∧ p_companyId r = cid
}.

Lemma batchStep_inv db dbl did cid seen st x :
  (∀ vid f, dbl !! vid = Some f → ∃ p, p ∈ db ∧ p_vehicleId p = vid ∧ p_timestamp p = lf_timestamp f) →
  loop_inv db cid seen st → loop_inv db cid (seen ++ [x]) (batchStep jm dbl did cid st x).
Proof.
  intros Hdb [H1 H2 H3]. unfold batchStep.
  destruct (_ || _) eqn:D.
  - assert (Hx : ∃ p, p ∈ db ++ toInsert st ∧ standsFor (vehicleId x) (timestamp x) p).
    { apply orb_true_iff in D as [D|D]; unfold within in D; simpl in D.
      - destruct (lastPositions st !! vehicleId x) as [f|] eqn:E; [|done]. apply Z.leb_le in D.
        destruct (H1 _ _ E) as (p & Hp & Hv & Ht). exists p. split; [done|]. split; [done|].
        rewrite Ht. unfold DEDUP_CLOCK_SKEW_S in D. lia.
      - destruct (dbl !! vehicleId x) as [f|] eqn:E; [|done]. apply Z.leb_le in D.
        destruct (Hdb _ _ E) as (p & Hp & Hv & Ht). exists p. split; [set_solver|]. split; [done|].
        rewrite Ht. unfold DEDUP_CLOCK_SKEW_S in D. lia. }
    constructor; unfold set; simpl; [done| |].
    + intros y Hy. apply elem_of_app in Hy as [Hy|Hy%list_elem_of_singleton]; [by apply H2|by subst].
    + intros r Hr. destruct (H3 r Hr) as (y & Hy & ?). exists y. split; [set_solver|done].
  - constructor; simpl.
    + intros vid f. destruct (decide (vid = vehicleId x)) as [->|Hne].
      * rewrite lookup_insert_eq. intros [= <-].
        match goal with |- context [toInsert st ++ [?r]] => exists r end. split; [set_solver|done].
      * rewrite lookup_insert_ne by done. intros E. destruct (H1 _ _ E) as (p & Hp & ?).
        exists p. split; [set_solver|done].
    + intros y Hy. apply elem_of_app in Hy as [Hy|Hy%list_elem_of_singleton].
      * destruct (H2 y Hy) as (p & Hp & ?). exists p. split; [set_solver|done].
      * subst. match goal with |- context [toInsert st ++ [?r]] => exists r end.
        split; [set_solver|]. split; simpl; [done|lia].
    + intros r Hr. apply elem_of_app in Hr as [Hr|Hr%list_elem_of_singleton].
      * destruct (H3 r Hr) as (y & Hy & ?). exists y. split; [set_solver|done].
      * subst. exists x. split; [set_solver|done].
Qed.

Lemma initialBatch_db s vids vid f : lastPositions (initialBatch s vids) !! vid = Some f →
  ∃ p, p ∈ positions s ∧ p_vehicleId p = vid ∧ p_timestamp p = lf_timestamp f.
Proof.
  unfold initialBatch. simpl. intros H%elem_of_list_to_map_2.
  apply list_elem_of_omap in H as (v & _ & H). unfold dbLast in H.
  destruct (latest _ _) as [p|] eqn:E; [|done]. simpl in H. simplify_eq.
  destruct (latest_Some _ _ _ E) as (H1 & H2 & _). exists p. split_and!; [done| |done].
  unfold ofVehicle in H2. by apply bool_decide_eq_true_1 in H2.
Qed.

Lemma batchLoop_inv uid did positions cid s :
  loop_inv (TrackingModel.positions s) (default "" cid) (sort_by timestamp (omap (keepPosition s uid did cid) positions))
    (batchLoop jm uid did positions cid s).
Proof.
  unfold batchLoop. set (init := initialBatch s _). cbv zeta.
  assert (H0 : loop_inv (TrackingModel.positions s) (default "" cid) [] init).
  { constructor; [|set_solver|set_solver]. intros vid f H. simpl. rewrite app_nil_r.
    by apply initialBatch_db in H. }
  generalize (sort_by timestamp (omap (keepPosition s uid did cid) positions)). intros l.
  induction l as [|x l IH] using rev_ind; [done|]. rewrite foldl_app. simpl.
  apply batchStep_inv; [|done]. intros vid f H. by apply initialBatch_db in H.
Qed.

(** ** What a request may write *)

(** Only positions, counters and spawned tasks differ. *)
Definition ingestion_frame (s s' : TrackingStore) : Prop :=
  s' = s <| positions := positions s' |> <| metrics := metrics s' |> <| tasks := tasks s' |>.

Lemma ingestion_frame_trans s1 s2 s3 :
  ingestion_frame s1 s2 → ingestion_frame s2 s3 → ingestion_frame s1 s3.
Proof. unfold ingestion_frame, set. simpl. intros H1 H2. rewrite H2, H1. done. Qed.
Lemma ingestion_frame_refl s : ingestion_frame s s.
Proof. by destruct s. Qed.

Lemma frame_metrics f s : ingestion_frame s (onMetrics f s) ∧ positions (onMetrics f s) = positions s.
Proof. by destruct s. Qed.
Lemma frame_spawn t s : ingestion_frame s (spawn t s) ∧ positions (spawn t s) = positions s.
Proof. by destruct s. Qed.

Lemma frame_batchAlerts cid did rows : ∀ m s,
  ingestion_frame s (batchAlerts cid did rows m s) ∧ positions (batchAlerts cid did rows m s) = positions s.
Proof.
  induction rows as [|r rows IH]; intros m s; [by destruct s|]. simpl.
  destruct (_ && _); [|apply IH]. destruct (IH (<[p_vehicleId r := prevOf r]> m)
    (spawn (GenerateAlerts (dtoOf r) (default "" cid) (Some did) (m !! p_vehicleId r)) s)) as [H1 H2].
  split; [|by rewrite H2]. eapply ingestion_frame_trans; [apply frame_spawn|exact H1].
Qed.

Lemma frame_batchProximity cid did rows s :
  ingestion_frame s (batchProximity cid did rows s) ∧ positions (batchProximity cid did rows s) = positions s.
Proof.
  unfold batchProximity. destruct (truthy cid); [|by destruct s].
  generalize (vehiclesOf rows []). intros vids. revert s.
  induction vids as [|v vids IH]; intros s; [by destruct s|]. simpl.
  destruct (head _) as [r|]; [|apply IH].
  destruct (IH (spawn (CheckProximity did v (default "" cid) (p_latitude r) (p_longitude r) (p_timestamp r)) s))
    as [H1 H2].
  split; [|by rewrite H2]. eapply ingestion_frame_trans; [apply frame_spawn|exact H1].
Qed.

(** What [saveBatch] leaves, in terms of the rows its loop retained. *)
Lemma saveBatch_rows uid did ps cid s s' inserted : saveBatch jm uid did ps cid s = (s', inserted) →
  let rows := toInsert (batchLoop jm uid did ps cid s) in
  ingestion_frame s s' ∧ positions s' = positions s ++ inserted ∧ inserted `sublist_of` rows
  ∧ (unique (positions s) → unique (positions s'))
  ∧ (∀ r, r ∈ rows → ∃ q, q ∈ positions s' ∧ p_vehicleId q = p_vehicleId r ∧ p_timestamp q = p_timestamp r).
Proof.
  unfold saveBatch. set (st := batchLoop jm uid did ps cid s). cbv zeta.
  set (s1 := onMetrics _ s). destruct (frame_metrics (λ m, m <| deduped := deduped m + dupCount st |>
    <| teleported := teleported m + suspectCount st |>) s) as [F1 P1]. fold s1 in F1, P1.
  destruct (toInsert st) as [|r0 rows0] eqn:Er.
  { intros [= <- <-]. rewrite P1. split_and!; [done|by rewrite app_nil_r|done|done|set_solver]. }
  rewrite <- Er. clear Er r0 rows0. set (s2 := onMetrics _ s1).
  destruct (frame_metrics (λ m, m <| batchSaved := batchSaved m + Z.of_nat (length (toInsert st)) |>) s1)
    as [F2 P2]. fold s2 in F2, P2.
  destruct (createMany (toInsert st) s2) as [s3 ins] eqn:Ec.
  destruct (createMany_spec _ _ _ _ Ec) as (F3 & P3 & H3 & H4 & H5).
  intros [= <- <-]. set (s4 := onMetrics _ s3).
  destruct (frame_metrics (λ m, m <| savedCount := savedCount m + Z.of_nat (length ins) |>) s3) as [F4 P4].
  fold s4 in F4, P4.
  destruct (frame_batchAlerts cid did ins ∅ s4) as [F5 P5].
  destruct (frame_batchProximity cid did ins (batchAlerts cid did ins ∅ s4)) as [F6 P6].
  rewrite P6, P5, P4. split_and!; [|by rewrite P3, P2, P1|done|by rewrite <- P1, <- P2|done].
  assert (F3' : ingestion_frame s2 s3) by (unfold same_but_positions in F3; rewrite F3; done).
  refine (ingestion_frame_trans _ _ _ F1 _). refine (ingestion_frame_trans _ _ _ F2 _).
  refine (ingestion_frame_trans _ _ _ F3' _). refine (ingestion_frame_trans _ _ _ F4 _).
  exact (ingestion_frame_trans _ _ _ F5 F6).
Qed.

(** A request that brings positions. *)
Inductive Ingestion :=
  | SaveOne (driverId : option string) (dto : UpdatePositionDto) (companyId : option string)
      (source : PositionSource) (attributes : list (string * Attribute))
  | SaveMany (userId driverId : string) (dtos : list UpdatePositionDto) (companyId : option string).

Definition ingest (r : Ingestion) (s : TrackingStore) : TrackingStore * list GpsPosition :=
  match r with
  | SaveOne did dto cid src attrs =>
      let '(s', row) := savePosition jm did dto cid src attrs s in (s', option_list row)
  | SaveMany uid did dtos cid => saveBatch jm uid did dtos cid s
  end.

Definition companyOf (r : Ingestion) : option string :=
  match r with SaveOne _ _ cid _ _ => cid | SaveMany _ _ _ cid => cid end.

(** A row a request may write: for an active vehicle of the caller's company,
    of a source that vehicle accepts, and attached by a batch to deliveries of
    its driver only. *)
Definition admissible (s : TrackingStore) (r : Ingestion) (row : GpsPosition) : Prop :=
  ∃ v, vehicles s !! p_vehicleId row = Some v
    ∧ vh_isActive v = true ∧ vh_deletedAt v = None
    ∧ (p_source row = phone → vh_positionSource v = phone)
    ∧ (truthy (companyOf r) = true →
         companyOf r = Some (vh_companyId v) ∧ p_companyId row = vh_companyId v)
    ∧ match r with
      | SaveOne _ dto _ _ _ => p_timestamp row = timestamp dto ∧ p_deliveryId row = deliveryId dto
      | SaveMany uid did _ _ =>
          p_source row = phone ∧ ∀ d, p_deliveryId row = Some d → verifiedDelivery s uid did d = true
      end.

Lemma keepPosition_Some s uid did cid x y : keepPosition s uid did cid x = Some y →
  validVehicle s cid (vehicleId y) = true ∧ vehicleId y = vehicleId x ∧ timestamp y = timestamp x
  ∧ latitude y = latitude x ∧ longitude y = longitude x
  ∧ (∀ d, deliveryId y = Some d → verifiedDelivery s uid did d = true).
Proof.
  unfold keepPosition. destruct (badId (vehicleId x)); [done|].
  destruct (validVehicle s cid (vehicleId x)) eqn:Hv; [|done]. simpl. intros [= <-].
  destruct x as [? ? ? ? ? ? ? dlv vid]; simpl in *. split_and!; [done..|].
  intros d. destruct dlv as [e|]; simpl; [|done].
  destruct (bool_decide_reflect (e = "")) as [->|He]; simpl; [done|].
  destruct (verifiedDelivery s uid did e) eqn:Hd; simpl; [|done].
  destruct (badId e); [done|]. by intros [= <-].
Qed.

Lemma batchRow_admissible uid did dtos cid s row :
  row ∈ toInsert (batchLoop jm uid did dtos cid s) → admissible s (SaveMany uid did dtos cid) row.
Proof.
  intros Hin. destruct (batchLoop_inv uid did dtos cid s) as [_ _ Hrows].
  destruct (Hrows row Hin) as (x & Hx & Hv & _ & _ & _ & Hd & Hsrc & Hc).
  rewrite sort_by_perm in Hx. apply list_elem_of_omap in Hx as (x0 & _ & Hk).
  destruct (keepPosition_Some _ _ _ _ _ _ Hk) as (Hvalid & _ & _ & _ & _ & Hdel).
  unfold validVehicle in Hvalid. rewrite <- Hv in Hvalid. unfold admissible.
  destruct (vehicles s !! p_vehicleId row) as [v|] eqn:Ev; [|done].
  apply andb_prop in Hvalid as [Hvalid Hcomp]. apply andb_prop in Hvalid as [Hvalid Hph%bool_decide_eq_true_1].
  apply andb_prop in Hvalid as [Hdl%bool_decide_eq_true_1 Hact].
  exists v. split_and!; try done; simpl.
  - intros Ht. rewrite Ht in Hcomp. simpl in Hcomp. apply bool_decide_eq_true_1 in Hcomp.
    split; [done|]. by rewrite Hc, Hcomp.
  - intros d Hd'. apply Hdel. by rewrite <- Hd.
Qed.

Lemma acceptedVehicle_Some dto cid src s v : acceptedVehicle dto cid src s = Some v →
  vehicles s !! vehicleId dto = Some v ∧ vh_isActive v = true ∧ vh_deletedAt v = None
  ∧ (src = phone → vh_positionSource v = phone) ∧ (truthy cid = true → cid = Some (vh_companyId v)).
Proof.
  unfold acceptedVehicle. destruct (badId _); [done|].
  destruct (match deliveryId dto with Some d => badId d | None => false end); [done|].
  destruct (vehicles s !! vehicleId dto) as [w|]; [|done].
  destruct (bool_decide_reflect (vh_deletedAt w ≠ None)) as [?|Hdel]; [done|].
  destruct (vh_isActive w) eqn:Hact; [|done]. simpl.
  destruct (truthy cid && _) eqn:Hc; [done|]. destruct (bool_decide (src = phone) && _) eqn:Hs; [done|].
  intros [= ->]. split_and!; try done.
  - by destruct (vh_deletedAt v); [destruct Hdel|].
  - intros ->. rewrite bool_decide_eq_true_2 in Hs by done. simpl in Hs.
    apply bool_decide_eq_false_1 in Hs. by destruct (vh_positionSource v).
  - intros Ht. rewrite Ht in Hc. simpl in Hc. apply negb_false_iff in Hc.
    by apply bool_decide_eq_true_1 in Hc.
Qed.

Lemma frame_afterInsert did dto cid suspect prev s :
  ingestion_frame s (afterInsert did dto cid suspect prev s)
  ∧ positions (afterInsert did dto cid suspect prev s) = positions s.
Proof. unfold afterInsert. cbv zeta. by destruct s; repeat case_match. Qed.

Lemma savePosition_guarded did dto cid src attrs s s' row :
  savePosition jm did dto cid src attrs s = (s', row) →
  ingestion_frame s s' ∧ positions s' = positions s ++ option_list row
  ∧ Forall (admissible s (SaveOne did dto cid src attrs)) (option_list row)
  ∧ (unique (positions s) → unique (positions s')).
Proof.
  unfold savePosition. set (s1 := onMetrics _ s).
  destruct (frame_metrics (λ m, m <| received := received m + 1 |>) s) as [F1 P1]. fold s1 in F1, P1.
  assert (Hnone : ∀ s2, ingestion_frame s1 s2 → positions s2 = positions s1 →
    ingestion_frame s s2 ∧ positions s2 = positions s ++ []
    ∧ Forall (admissible s (SaveOne did dto cid src attrs)) []
    ∧ (unique (positions s) → unique (positions s2))).
  { intros s2 F2 P2. rewrite P2, P1. split_and!; [by eapply ingestion_frame_trans|by rewrite app_nil_r|done|done]. }
  destruct (acceptedVehicle dto cid src s1) as [v|] eqn:Ev.
  2: { intros [= <- <-]. by apply Hnone; [apply ingestion_frame_refl|]. }
  apply acceptedVehicle_Some in Ev as (Hv & Hact & Hdel & Hsrc & Hcid).
  destruct (isDuplicateByTimestamp _ _ _ _).
  { intros [= <- <-]. apply Hnone; apply frame_metrics. }
  set (suspect := detectTeleportation _ _ _ _ _ _ _ _ _). cbv zeta.
  set (s2 := if suspect then _ else s1).
  assert (F2 : ingestion_frame s1 s2 ∧ positions s2 = positions s1).
  { subst s2. destruct suspect; [apply frame_metrics|by split; [apply ingestion_frame_refl|]]. }
  destruct F2 as [F2 P2]. set (row0 := positionRow _ _ _ _ _ _).
  destruct (createPosition row0 s2) as [s3|] eqn:Ec; intros [= <- <-].
  2: { apply Hnone; [eapply ingestion_frame_trans; [exact F2|apply frame_metrics]|exact P2]. }
  pose proof (createPosition_unique _ _ _ Ec) as Hu.
  destruct (createPosition_Some _ _ _ Ec) as [E3 _].
  destruct (frame_afterInsert did dto cid suspect (prevOf <$> getLastPosition s2 (vehicleId dto) false) s3)
    as [F4 P4].
  rewrite P4. split_and!; [|by rewrite E3; unfold set; simpl; rewrite P2, P1| |by rewrite <- P1, <- P2].
  - refine (ingestion_frame_trans _ _ _ F1 (ingestion_frame_trans _ _ _ F2 _)).
    refine (ingestion_frame_trans _ _ _ _ F4). rewrite E3. by destruct s2.
  - apply Forall_singleton. exists v. split_and!; try done; simpl.
    intros Ht. rewrite Ht. split; [by apply Hcid|]. by rewrite (Hcid Ht).
Qed.


(** C27: after a batch, every position of it whose vehicle is well-formed and
    accepted is stored or stood for by a stored position of that vehicle at most
    a second away, in whatever order the batch arrived; and every row inserted
    is the copy of one of its positions. *)
Theorem saveBatch_no_loss uid did dtos cid s :
  let '(s', inserted) := saveBatch jm uid did dtos cid s in
  (∀ x, x ∈ dtos →
     badId (vehicleId x) = true ∨ validVehicle s cid (vehicleId x) = false
     ∨ ∃ p, p ∈ positions s' ∧ standsFor (vehicleId x) (timestamp x) p)
  ∧ (∀ r, r ∈ inserted →
       ∃ x, x ∈ dtos ∧ p_vehicleId r = vehicleId x ∧ p_timestamp r = timestamp x
         ∧ p_latitude r = latitude x ∧ p_longitude r = longitude x).
Proof.
  destruct (saveBatch jm uid did dtos cid s) as [s' ins] eqn:E.
  destruct (saveBatch_rows _ _ _ _ _ _ _ E) as (_ & Hpos & Hsub & _ & Hrows).
  destruct (batchLoop_inv uid did dtos cid s) as [_ Hseen Hins]. split.
  - intros x Hx. destruct (keepPosition s uid did cid x) as [y|] eqn:Hk.
    + right; right. destruct (keepPosition_Some _ _ _ _ _ _ Hk) as (_ & Hv & Ht & _).
      destruct (Hseen y) as (p & Hp & Hst).
      { rewrite sort_by_perm. apply list_elem_of_omap. by exists x. }
      rewrite Hv, Ht in Hst. apply elem_of_app in Hp as [Hp|Hp].
      * exists p. split; [rewrite Hpos; set_solver|done].
      * destruct (Hrows p Hp) as (q & Hq & E1 & E2). exists q. split; [done|].
        destruct Hst as [S1 S2]. split; [by rewrite E1|by rewrite E2].
    + unfold keepPosition in Hk. destruct (badId (vehicleId x)); [by left|right; left].
      by destruct (validVehicle _ _ _).
  - intros r Hr. destruct (Hins r) as (y & Hy & E1 & E2 & E3 & E4 & _); [by eapply elem_of_sublist|].
    rewrite sort_by_perm in Hy. apply list_elem_of_omap in Hy as (x & Hx & Hk).
    destruct (keepPosition_Some _ _ _ _ _ _ Hk) as (_ & Hv & Ht & Hla & Hln & _).
    exists x. split_and!; congruence.
Qed.
End Batch.

(** ** Rate limit of the batches *)

(** The calls of one driver at the given times, and the number let through. *)
Fixpoint batchCalls (max : option Z) (driverId : string) (times : list Z) (s : TrackingStore)
  : TrackingStore * Z :=
  match times with
  | [] => (s, 0)
  | t :: times' =>
      let '(s, limited) := isBatchRateLimited t max driverId s in
      let '(s, n) := batchCalls max driverId times' s in
      (s, (if limited then 0 else 1) + n)
  end.

Lemma digits_pretty_Z z : 0 ≤ z → digitsValue (pretty z) = z.
Proof.
  intros Hz. destruct z as [|p|p]; [by vm_compute| |lia].
  change (pretty (Z.pos p)) with (pretty (N.pos p)). by rewrite digits_pretty.
Qed.

(** The counter's entry, when its value is a count. *)
Definition counts (driverId : string) (s : TrackingStore) (c ex : Z) : Prop :=
  cache s !! batchKey driverId = Some (mkEntry (pretty c) (Some ex)).

Lemma limit_step m driverId t s : 0 < m →
  (cache s !! batchKey driverId = None ∨ ∃ c ex, 0 ≤ c ∧ counts driverId s c ex) →
  let '(s', limited) := isBatchRateLimited t (Some m) driverId s in
  let c := match redis_get t (batchKey driverId) (cache s) with Some v => digitsValue v | None => 0 end in
  (limited = true ∧ cache s' = cache s ∧ m ≤ c) ∨ (limited = false ∧ 0 ≤ c < m ∧ counts driverId s' (c + 1) (t + 60000)).
Proof.
  intros Hm Hs. unfold isBatchRateLimited. destruct (Z.leb_spec m 0); [lia|].
  assert (Hc : ∀ v, redis_get t (batchKey driverId) (cache s) = Some v → 0 ≤ digitsValue v).
  { unfold redis_get. intros v. destruct Hs as [->|(c & ex & H0 & ->)]; [done|].
    destruct (live _ _); [|done]. intros [= <-]. simpl. by rewrite digits_pretty_Z. }
  destruct (redis_get t _ (cache s)) as [v|] eqn:E; simpl.
  - specialize (Hc v eq_refl). destruct (Z.leb_spec m (digitsValue v)); [left; done|right].
    split_and!; [done|lia|lia|]. unfold counts, onCache, redis_set, set. simpl. by rewrite lookup_insert_eq.
  - right. split_and!; [done|lia|lia|]. unfold counts, onCache, redis_set, set. simpl. by rewrite lookup_insert_eq.
Qed.

(** Once the counter holds [c] and outlives the calls, at most [m - c] pass. *)
Lemma batchCalls_counted m driverId t0 times : ∀ s c ex,
  0 < m → 0 ≤ c → counts driverId s c ex →
  Forall (λ t, t0 ≤ t < t0 + 60000 ∧ t < ex) times →
  (batchCalls (Some m) driverId times s).2 ≤ Z.max 0 (m - c).
Proof.
  induction times as [|t times IH]; intros s c ex Hm Hc He HF; cbn [batchCalls]; [simpl; lia|].
  apply Forall_cons in HF as [[Ht Hex] HF].
  pose proof (limit_step m driverId t s Hm (or_intror (ex_intro _ c (ex_intro _ ex (conj Hc He))))) as Hstep.
  destruct (isBatchRateLimited t (Some m) driverId s) as [s1 limited].
  assert (Eg : redis_get t (batchKey driverId) (cache s) = Some (pretty c)).
  { unfold redis_get. rewrite He. unfold live. simpl. by rewrite (proj2 (Z.ltb_lt t ex)). }
  rewrite Eg in Hstep. cbv iota beta zeta in Hstep. rewrite digits_pretty_Z in Hstep by done.
  destruct Hstep as [(-> & Hsame & Hle)|(-> & Hlt & Hcount)].
  - assert (He1 : counts driverId s1 c ex) by (unfold counts; by rewrite Hsame).
    specialize (IH s1 c ex Hm Hc He1 HF). destruct (batchCalls _ _ _ _) as [s2 n]. simpl in *. lia.
  - assert (HF' : Forall (λ x, t0 ≤ x < t0 + 60000 ∧ x < t + 60000) times).
    { eapply Forall_impl; [exact HF|]. simpl. intros. lia. }
    specialize (IH s1 (c + 1) (t + 60000) Hm ltac:(lia) Hcount HF').
    destruct (batchCalls _ _ _ _) as [s2 n]. simpl in *. lia.
Qed.

(** Within any minute at most [max] batches of a driver pass the limiter,
    whatever the counter was before. *)
Theorem batch_budget m driverId t0 times s :
  0 < m → (cache s !! batchKey driverId = None ∨ ∃ c ex, 0 ≤ c ∧ counts driverId s c ex) →
  Forall (λ t, t0 ≤ t < t0 + 60000) times →
  (batchCalls (Some m) driverId times s).2 ≤ m.
Proof.
  intros Hm Hs HF.
  revert s Hs. induction times as [|t times IH]; intros s Hs; cbn [batchCalls]; [simpl; lia|].
  apply Forall_cons in HF as [Ht HF].
  pose proof (limit_step m driverId t s Hm Hs) as Hstep.
  destruct (isBatchRateLimited t (Some m) driverId s) as [s1 limited].
  destruct Hstep as [(-> & Hsame & Hle)|(-> & Hlt & Hcount)].
  - rewrite <- Hsame in Hs. assert (Hs1 : cache s1 !! batchKey driverId = None
      ∨ ∃ c ex, 0 ≤ c ∧ counts driverId s1 c ex) by (by unfold counts in *; rewrite Hsame in Hs |- *).
    specialize (IH HF s1 Hs1). destruct (batchCalls _ _ _ _) as [s2 n]. simpl in *. lia.
  - match type of Hcount with counts _ _ (?c + 1) _ => set (c0 := c) in * end. clearbody c0.
    assert (HF' : Forall (λ x, t0 ≤ x < t0 + 60000 ∧ x < t + 60000) times).
    { eapply Forall_impl; [exact HF|]. simpl. intros. lia. }
    pose proof (batchCalls_counted m driverId t0 times s1 (c0 + 1) _ Hm
      ltac:(lia) Hcount HF') as Hb.
    destruct (batchCalls _ _ _ _) as [s2 n]. simpl in *. lia.
Qed.

Definition emptyTracking : TrackingStore :=
  mkTracking ∅ ∅ ∅ ∅ ∅ [] [] ∅ ∅ noMetrics [] [].

Lemma batch_budget_witness :
  (batchCalls (Some 2) "driver" [0; 20000; 40000; 59999] emptyTracking).2 ≤ 2.
Proof.
  apply (batch_budget 2 "driver" 0); [lia|by left|repeat constructor; lia].
Defined.

(** Every accepted batch renews the sixty seconds: thirty batches fifty seconds
    apart exhaust the budget, and the next one is refused although only one was
    accepted in the minute before it. *)
Example batch_window_renewed :
  let '(s, n) := batchCalls (Some 30) "driver" (map (λ i, 50000 * Z.of_nat i) (seq 0 30)) emptyTracking in
  n = 30 ∧ (isBatchRateLimited 1500000 (Some 30) "driver" s).2 = true.
Proof. vm_compute. done. Qed.

(** ** Geofences *)

Section Geofences.
Context (jm : JsMath).

Definition flip (c : Crossing) : Crossing := match c with entry => exit | exit => entry end.

(** Entries and exits take turns, beginning with [next]. *)
Fixpoint alternating (next : Crossing) (l : list Crossing) : Prop :=
  match l with
  | [] => True
  | c :: l' => c = next ∧ alternating (flip next) l'
  end.

(** The crossings recorded for a vehicle, a delivery and a geofence. *)
Definition history (s : TrackingStore) (vid did gid : string) : list Crossing :=
  map ge_event (eventsOf vid did gid s).

Definition insideFence (lat lng : num) (gf : Geofence) : bool :=
  num_leb (haversineDistance jm lat lng (gf_lat gf) (gf_lng gf)) (gf_radiusMeters gf).

(** The crossing a check records for a geofence, given what was recorded. *)
Definition crossing (was inside : bool) : list Crossing :=
  if inside && negb was then [entry] else if negb inside && was then [exit] else [].

Definition lastIsEntry (l : list Crossing) : bool :=
  match last l with Some c => bool_decide (c = entry) | None => false end.

Lemma alternating_snoc l : ∀ next c, alternating next l →
  c = match last l with Some d => flip d | None => next end → alternating next (l ++ [c]).
Proof.
  induction l as [|d l IH]; intros next c; [by intros _ ->|]. intros [-> Hl] Hc. split; [done|].
  apply IH; [done|]. rewrite last_cons in Hc. by destruct (last l).
Qed.

Lemma alternating_crossing l inside : alternating entry l →
  alternating entry (l ++ crossing (lastIsEntry l) inside)
  ∧ lastIsEntry (l ++ crossing (lastIsEntry l) inside) = inside.
Proof.
  intros Hl. unfold crossing, lastIsEntry. destruct (last l) as [[]|] eqn:E, inside; simpl;
    rewrite ?app_nil_r, ?last_snoc, ?E; (split; [try (apply alternating_snoc; rewrite ?E); done|done]).
Qed.

(** The events [crossGeofences] appends. *)
Definition newEvents (all : list GeofenceEvent) (did vid : string) (lat lng : num)
    (gfs : list (string * Geofence)) : list GeofenceEvent :=
  flat_map (λ '(gid, gf),
    map (λ c, mkEvent gid vid did c lat lng)
      (crossing (previouslyInside all gid) (insideFence lat lng gf))) gfs.

Lemma crossGeofences_spec all did vid lat lng gfs : ∀ s,
  let '(s', events) := crossGeofences jm all did vid lat lng gfs s in
  s' = s <| geofenceEvents := geofenceEvents s ++ newEvents all did vid lat lng gfs |>
  ∧ map (λ '(c, gid, _), (gid, c)) events
    = map (λ e, (ge_geofenceId e, ge_event e)) (newEvents all did vid lat lng gfs).
Proof.
  induction gfs as [|[gid gf] gfs IH]; intros s; simpl.
  { split; [|done]. rewrite app_nil_r. by destruct s. }
  unfold crossing. fold (insideFence lat lng gf).
  destruct (insideFence lat lng gf), (previouslyInside all gid); simpl; try apply IH.
  all: match goal with |- context [crossGeofences _ _ _ _ _ _ _ ?s1] =>
         specialize (IH s1); destruct (crossGeofences _ _ _ _ _ _ _ s1) as [s' evs] end.
  all: destruct IH as [-> IH2]; unfold set; simpl; rewrite <- (assoc_L (++)), IH2; done.
Qed.

Lemma newEvents_one all did vid lat lng gfs gid :
  NoDup gfs.*1 →
  filter (λ e, ge_vehicleId e = vid ∧ ge_deliveryId e = did ∧ ge_geofenceId e = gid)
    (newEvents all did vid lat lng gfs)
  = match list_find (λ kv, kv.1 = gid) gfs with
    | Some (_, (_, gf)) =>
        map (λ c, mkEvent gid vid did c lat lng) (crossing (previouslyInside all gid) (insideFence lat lng gf))
    | None => []
    end.
Proof.
  induction gfs as [|[g gf] gfs IH]; intros Hnd; [done|].
  rewrite fmap_cons in Hnd. apply NoDup_cons in Hnd as [Hg Hnd]. cbn [newEvents flat_map].
  rewrite filter_app. cbn [list_find].
  assert (Hh : ∀ l, filter (λ e, ge_vehicleId e = vid ∧ ge_deliveryId e = did ∧ ge_geofenceId e = gid)
      (map (λ c, mkEvent g vid did c lat lng) l)
    = if decide (g = gid) then map (λ c, mkEvent g vid did c lat lng) l else []).
  { intros l. destruct (decide (g = gid)) as [->|Hne].
    - apply filter_all. apply Forall_forall. intros e He.
      apply list_elem_of_In, in_map_iff in He as (c & <- & _). done.
    - apply filter_none. apply Forall_forall. intros e He.
      apply list_elem_of_In, in_map_iff in He as (c & <- & _). simpl. by intros (_ & _ & ?). }
  rewrite Hh. simpl. fold (newEvents all did vid lat lng gfs). rewrite IH by done.
  destruct (decide (g = gid)) as [->|Hne].
  - destruct (list_find (λ kv, kv.1 = gid) gfs) as [[i [g' gf']]|] eqn:E; [|by rewrite app_nil_r].
    apply list_find_Some in E as (Hl & Hgid & _). simpl in Hgid. subst g'.
    exfalso. apply Hg. apply list_elem_of_fmap. exists (gid, gf').
    split; [done|]. by eapply list_elem_of_lookup_2.
  - simpl. by destruct (list_find (λ kv, kv.1 = gid) gfs) as [[i [g' gf']]|].
Qed.

Lemma previouslyInside_history s vid did gid :
  previouslyInside (filter (λ e, ge_vehicleId e = vid ∧ ge_deliveryId e = did) (geofenceEvents s)) gid
  = lastIsEntry (history s vid did gid).
Proof.
  unfold previouslyInside, history, lastIsEntry, eventsOf. rewrite list_filter_filter.
  replace (filter (λ e, ge_geofenceId e = gid ∧ ge_vehicleId e = vid ∧ ge_deliveryId e = did) (geofenceEvents s))
    with (filter (λ e, ge_vehicleId e = vid ∧ ge_deliveryId e = did ∧ ge_geofenceId e = gid) (geofenceEvents s))
    by (apply list_filter_iff; tauto).
  generalize (filter (λ e, ge_vehicleId e = vid ∧ ge_deliveryId e = did ∧ ge_geofenceId e = gid) (geofenceEvents s)).
  intros l. change (map ge_event l) with (ge_event <$> l). rewrite fmap_last. by destruct (last l).
Qed.

(** What is recorded for a geofence after a check: one crossing of the checked
    vehicle and delivery when its state changed, nothing elsewhere. *)
Lemma history_after did vid lat lng s :
  let gfs := findForDelivery did s in
  let all := filter (λ e, ge_vehicleId e = vid ∧ ge_deliveryId e = did) (geofenceEvents s) in
  let s' := s <| geofenceEvents := geofenceEvents s ++ newEvents all did vid lat lng gfs |> in
  ∀ v d g,
    (history s' v d g = history s v d g
     ∧ ∀ gf, geofences s !! g = Some gf → gf_deliveryId gf = Some did → v = vid → d = did → False)
    ∨ ∃ gf, geofences s !! g = Some gf ∧ gf_deliveryId gf = Some did ∧ v = vid ∧ d = did
        ∧ history s' v d g
          = history s v d g ++ crossing (lastIsEntry (history s v d g)) (insideFence lat lng gf).
Proof.
  intros gfs all s' v d g. unfold history, eventsOf. subst s'. unfold set. simpl.
  rewrite filter_app, map_app.
  destruct (decide (v = vid ∧ d = did)) as [[-> ->]|Hne].
  - assert (Hnd : NoDup gfs.*1) by apply find_many_NoDup. rewrite newEvents_one by done.
    destruct (list_find (λ kv, kv.1 = g) gfs) as [[i [g' gf]]|] eqn:E.
    + apply list_find_Some in E as (Hl & Hg & _). simpl in Hg. subst g'. right. exists gf.
      apply list_elem_of_lookup_2 in Hl. apply elem_of_find_many in Hl as [H1 H2%bool_decide_eq_true_1].
      split_and!; try done. f_equal. subst all. rewrite previouslyInside_history.
      rewrite map_map. simpl. by rewrite map_id.
    + left. rewrite app_nil_r. split; [done|]. intros gf H1 H2 _ _.
      apply list_find_None in E. rewrite Forall_forall in E. apply (E (g, gf)); [|done].
      apply elem_of_find_many. split; [done|]. by apply bool_decide_eq_true_2.
  - left. split; [|by intros; apply Hne].
    rewrite (filter_none _ (newEvents _ _ _ _ _ _)); [by rewrite app_nil_r|].
    apply Forall_forall. intros e He. apply list_elem_of_In in He. unfold newEvents in He.
    apply in_flat_map in He as ([g' gf] & _ & He). apply in_map_iff in He as (c & <- & _). simpl.
    intros (-> & -> & _). by apply Hne.
Qed.

End Geofences.

(** A depot fence around the origin, crossed in and out. *)
Definition depotStore : TrackingStore :=
  mkTracking ∅ ∅ ∅ ∅ {["depot" := mkGeofence (Some "delivery") "Depot" zero zero (num_of_Z 100)]}
    [] [] ∅ ∅ noMetrics [] [].


Lemma saveBatch_no_loss_witness :
  let dto := mkDto zero zero None None None (Some (num_of_Z 8)) 1000 None "0123456789abcdef" in
  let s := mkTracking {["0123456789abcdef" := mkVehicle "company" true None phone]} ∅ ∅ ∅ ∅
             [] [] ∅ ∅ noMetrics [] [] in
  ∃ p, p ∈ positions (saveBatch coarseMath "user" "driver" [dto; dto] (Some "company") s).1
       ∧ standsFor "0123456789abcdef" 1000 p.
Proof.
  intros dto s.
  pose proof (saveBatch_no_loss coarseMath "user" "driver" [dto; dto] (Some "company") s) as H.
  destruct (saveBatch _ _ _ _ _ _) as [s' inserted]. destruct H as [H _].
  destruct (H dto ltac:(left)) as [E|[E|E]]; [by vm_compute in E|by vm_compute in E|exact E].
Defined.

