(* ===== verification/BridgeLink.v ===== *)
(** * Traccar bridge: leadership and connection

    TraccarBridgeService (modules/tracking/traccar-bridge.service.ts), the part
    that decides which instance of the backend talks to the Traccar server and
    keeps its WebSocket: the election on a Redis key, the renewal of the lease,
    the shutdown, and the life of the socket with its timers.  A method that
    awaits a command is split at the await, into the part that sends it and the
    part that takes the answer, so that other steps may come in between; [World]
    and [exec] put several instances, one Redis and one clock together. *)

From S2P Require Import Prelude JsString JsDate Redis.

#[local] Open Scope string_scope.
#[local] Open Scope list_scope.
#[local] Open Scope Z_scope.

Definition MAX_RECONNECT_DELAY_MS : Z := 120000.
Definition INITIAL_RECONNECT_DELAY_MS : Z := 2000.
Definition TRACCAR_WS_STALE_MS : Z := 15 * 60 * 1000.
Definition SESSION_RENEWAL_MS : Z := 30 * 60 * 1000.
Definition LEADER_KEY : string := "traccar:bridge:leader".
Definition LEADER_TTL_S : Z := 50.
Definition LEADER_RENEW_INTERVAL_MS : Z := 20000.

(** The command of a renewal that awaits its answer, and of a shutdown. *)
Inductive Renewal := Getting | Expiring.
Inductive StepDown := Reading | Deleting.

(** The fields of the service, and the calls it awaits: [acquiring] is a SET
    sent, with its outcome once Redis has served it; each comes with the time
    at which the command was sent. *)
Record Proc := mkProc {
  hasRedis : bool;
  isLeader : bool;
  consecutiveRenewFailures : Z;
  leaderRenewTimer : option Z;  (** when it next fires *)
  stopped : bool;  (** the periodic timers are cleared *)
  acquiring : option (option bool * Z);
  renewing : option (Renewal * Z);
  stepping : option (StepDown * Z);
  socket : option nat;
  openSockets : list nat;  (** sockets whose connection is not cut *)
  nextSocket : nat;
  authenticating : nat;  (** calls of [connect] that await the session *)
  connected : bool;
  sessionCookie : option string;
  lastMessageAt : option Z;
  disconnectStartTime : option Z;
  reconnectAttempts : Z;
  reconnectTimer : option Z;
  sessionExpiryTimer : option Z;
  healthChecks : nat;  (** requests of [runHealthCheck] that await their answer *)
  backfills : list string  (** runs of [performBackfill], by their session *)
}.

Definition freshProc (redis : bool) : Proc :=
  mkProc redis false 0 None false None None None None [] 0 0 false None None None 0 None None 0 [].

(** ** The socket *)

(** [dropSocket]: the listeners are removed and the connection is cut. *)
Definition dropSocket (p : Proc) : Proc :=
  match socket p with
  | None => p
  | Some old =>
      p <| socket := None |> <| openSockets := filter (λ k, k ≠ old) (openSockets p) |>
  end.

Definition disconnect (p : Proc) : Proc :=
  let p := p <| reconnectTimer := None |> <| sessionExpiryTimer := None |> in
  (dropSocket p) <| connected := false |> <| sessionCookie := None |> <| lastMessageAt := None |>.

(** The delay before attempt [n]; [jitter] is [Math.random() * 1000]. *)
Definition reconnectDelay (n jitter : Z) : Z :=
  Z.min (INITIAL_RECONNECT_DELAY_MS * 2 ^ (n - 1) + jitter) MAX_RECONNECT_DELAY_MS.

Definition scheduleReconnect (now jitter : Z) (p : Proc) : Proc :=
  if negb (isLeader p) && hasRedis p then p
  else
    let n := reconnectAttempts p + 1 in
    p <| reconnectAttempts := n |> <| reconnectTimer := Some (now + reconnectDelay n jitter) |>.

(** [connect], up to the answer of [authenticate]. *)
Definition connect (p : Proc) : Proc :=
  if hasRedis p && negb (isLeader p) then p
  else p <| authenticating := S (authenticating p) |>.

Definition scheduleSessionRenewal (now : Z) (p : Proc) : Proc :=
  p <| sessionExpiryTimer := Some (now + SESSION_RENEWAL_MS) |>.

(** [connect] once [authenticate] has its session. *)
Definition onAuthenticated (now : Z) (cookie : string) (p : Proc) : Proc :=
  let p := p <| authenticating := pred (authenticating p) |> <| sessionCookie := Some cookie |> in
  let p := dropSocket (scheduleSessionRenewal now p) in
  p <| socket := Some (nextSocket p) |> <| openSockets := openSockets p ++ [nextSocket p] |>
    <| nextSocket := S (nextSocket p) |>.

Definition onConnectFailed (now jitter : Z) (p : Proc) : Proc :=
  let p := p <| authenticating := pred (authenticating p) |> in
  scheduleReconnect now jitter (p <| connected := false |> <| sessionCookie := None |>).

(** The guard of [performBackfill]; its body is [Bridge.performBackfill]. *)
Definition startBackfill (p : Proc) : Proc :=
  match sessionCookie p with
  | Some cookie => p <| backfills := backfills p ++ [cookie] |>
  | None => p
  end.

(** The listeners of the socket [sock]. *)
Definition onOpen (now : Z) (sock : nat) (p : Proc) : Proc :=
  if bool_decide (socket p ≠ Some sock) then p
  else
    startBackfill
      (p <| connected := true |> <| disconnectStartTime := None |> <| reconnectAttempts := 0 |>
         <| lastMessageAt := Some now |>).

(** A message: whether its positions are handed to [handlePosition]. *)
Definition onMessage (now : Z) (sock : nat) (p : Proc) : Proc * bool :=
  if bool_decide (socket p ≠ Some sock) then (p, false)
  else (p <| lastMessageAt := Some now |>, true).

Definition onClose (now jitter : Z) (sock : nat) (p : Proc) : Proc :=
  let p := p <| openSockets := filter (λ k, k ≠ sock) (openSockets p) |> in
  if bool_decide (socket p ≠ Some sock) then p
  else
    let p := p <| socket := None |> <| connected := false |> <| sessionCookie := None |> in
    let p := match disconnectStartTime p with
             | None | Some 0 => p <| disconnectStartTime := Some now |>
             | Some _ => p
             end in
    scheduleReconnect now jitter p.

(** The callbacks of [reconnectTimer] and [sessionExpiryTimer]. *)
Definition onReconnectTimer (p : Proc) : Proc := connect (p <| reconnectTimer := None |>).
Definition onSessionTimer (p : Proc) : Proc := connect (disconnect (p <| sessionExpiryTimer := None |>)).

(** [runHealthCheck], up to the request, and once it is answered: [ok] is
    [response.ok], or false when the server cannot be reached. *)
Definition isZombie (now : Z) (p : Proc) : bool :=
  connected p
  && match lastMessageAt p with Some t => TRACCAR_WS_STALE_MS <? now - t | None => false end.
Definition runHealthCheck (now jitter : Z) (p : Proc) : Proc :=
  if isZombie now p then scheduleReconnect now jitter (disconnect p)
  else match sessionCookie p with
       | None => p
       | Some _ => p <| healthChecks := S (healthChecks p) |>
       end.
Definition onHealthAnswer (now jitter : Z) (ok : bool) (p : Proc) : Proc :=
  let p := p <| healthChecks := pred (healthChecks p) |> in
  if negb ok && connected p then scheduleReconnect now jitter (disconnect p) else p.

(** The test of [startDisconnectionMonitor], with the minutes it reports. *)
Definition disconnectionAlert (now : Z) (p : Proc) : option Z :=
  match disconnectStartTime p with
  | Some start =>
      if negb (connected p) && negb (start =? 0) && (15 * 60000 <? now - start)
      then Some (roundMinutes (now - start)) else None
  | None => None
  end.

(** ** The election *)

Definition stopLeaderRenew (p : Proc) : Proc := p <| leaderRenewTimer := None |>.

Definition startLeaderRenew (now : Z) (p : Proc) : Proc :=
  (stopLeaderRenew p) <| consecutiveRenewFailures := 0 |>
    <| leaderRenewTimer := Some (now + LEADER_RENEW_INTERVAL_MS) |>.

Definition tryBecomeLeader (now : Z) (p : Proc) : Proc :=
  if negb (hasRedis p) then p
  else if isLeader p then p
  else p <| acquiring := Some (None, now) |>.

(** The answer of SET NX EX. *)
Definition onAcquireAnswer (now : Z) (acquired : bool) (p : Proc) : Proc :=
  let p := p <| acquiring := None |> in
  if acquired then connect (startLeaderRenew now (p <| isLeader := true |>)) else p.

Definition onAcquireError (p : Proc) : Proc := p <| acquiring := None |>.

(** Leadership is given up: the end of a renewal. *)
Definition loseLeadership (p : Proc) : Proc :=
  stopLeaderRenew (disconnect (p <| isLeader := false |>)).

(** The callback of [leaderRenewTimer], then the answers of GET and EXPIRE, and
    its catch. *)
Definition renewTick (now : Z) (p : Proc) : Proc :=
  let p := p <| leaderRenewTimer := Some (now + LEADER_RENEW_INTERVAL_MS) |> in
  if negb (hasRedis p) || negb (isLeader p) then p
  else p <| renewing := Some (Getting, now) |>.

Definition onRenewGet (now : Z) (instanceId : string) (current : option string) (p : Proc) : Proc :=
  if bool_decide (current ≠ Some instanceId) then loseLeadership (p <| renewing := None |>)
  else p <| renewing := Some (Expiring, now) |>.

Definition onRenewExpire (p : Proc) : Proc :=
  p <| renewing := None |> <| consecutiveRenewFailures := 0 |>.

Definition onRenewError (p : Proc) : Proc :=
  let p := p <| renewing := None |>
             <| consecutiveRenewFailures := consecutiveRenewFailures p + 1 |> in
  if 2 <=? consecutiveRenewFailures p then loseLeadership p else p.

(** [onModuleDestroy]: [stepDown], its two answers, and what follows it. *)
Definition stepDown (now : Z) (p : Proc) : Proc :=
  (stopLeaderRenew (p <| isLeader := false |>)) <| stepping := Some (Reading, now) |>.

Definition afterStepDown (p : Proc) : Proc :=
  (stopLeaderRenew (disconnect (p <| stepping := None |>))) <| stopped := true |>.

Definition onModuleDestroy (now : Z) (p : Proc) : Proc :=
  if hasRedis p then stepDown now p else afterStepDown p.

Definition onStepDownGet (now : Z) (instanceId : string) (current : option string) (p : Proc) : Proc :=
  if bool_decide (current = Some instanceId) then p <| stepping := Some (Deleting, now) |>
  else afterStepDown p.

(** ** Starting *)

Inductive Init := InitWorker | InitInactive | InitRefused | InitElection | InitSingle.

(** [onModuleInit]: what the configuration lets the bridge do. *)
Definition onModuleInit (isQueueWorker traccarUrl traccarUser traccarPassword nodeEnv : string)
    (redis : bool) : Init :=
  if String.eqb isQueueWorker "1" then InitWorker
  else if String.eqb traccarUrl "http://traccar:8082" || String.eqb traccarUrl "disabled" then InitInactive
  else if String.eqb nodeEnv "production"
          && (String.eqb traccarUser "admin" || String.eqb traccarPassword "admin") then InitRefused
  else if redis then InitElection else InitSingle.

Definition started (now : Z) (init : Init) : Proc :=
  match init with
  | InitElection => tryBecomeLeader now (freshProc true)
  | InitSingle => connect (freshProc false)
  | _ => freshProc true
  end.

(** [getStatus], but for the last reception. *)
Definition getStatus (p : Proc) : bool * Z * bool :=
  (connected p, reconnectAttempts p, bool_decide (sessionCookie p ≠ None)).

(** ** Several instances *)

Record World := mkWorld {
  clock : Z;
  db : RedisDb;
  procs : gmap string Proc
}.

(** What can happen to an instance.  [SetServed] is Redis running the SET; the
    other commands are run when their answer is taken.  [..Failed] is an answer
    that is an error or is lost. *)
Inductive Action :=
  | Retry
  | SetServed
  | SetAnswered
  | SetFailed
  | RenewTick
  | RenewGot
  | RenewExpired
  | RenewFailed
  | Destroy
  | DownGot
  | DownDeleted
  | DownFailed
  | Authenticated (cookie : string)
  | ConnectFailed (jitter : Z)
  | Opened (sock : nat)
  | Message (sock : nat)
  | Closed (sock : nat) (jitter : Z)
  | ReconnectDue
  | SessionDue
  | HealthCheck (jitter : Z)
  | HealthAnswer (jitter : Z) (ok : bool).

Inductive Event := Wait (ms : Z) | At (i : string) (a : Action).

Definition due (now : Z) (timer : option Z) : bool :=
  match timer with Some t => t <=? now | None => false end.

Definition guarded {A} (b : bool) (x : A) : option A := if b then Some x else None.

(** What [a] does to the instance [i] in state [p] and to Redis. *)
Definition act (now : Z) (i : string) (a : Action) (d : RedisDb) (p : Proc) : option (Proc * RedisDb) :=
  match a with
  | Retry => guarded (negb (stopped p) && bool_decide (acquiring p = None)) (tryBecomeLeader now p, d)
  | SetServed =>
      match acquiring p with
      | Some (None, sent) =>
          let '(d', acquired) := redis_setnx now LEADER_KEY i LEADER_TTL_S d in
          Some (p <| acquiring := Some (Some acquired, sent) |>, d')
      | _ => None
      end
  | SetAnswered =>
      match acquiring p with
      | Some (Some acquired, _) => Some (onAcquireAnswer now acquired p, d)
      | _ => None
      end
  | SetFailed => guarded (bool_decide (acquiring p ≠ None)) (onAcquireError p, d)
  | RenewTick =>
      guarded (due now (leaderRenewTimer p) && bool_decide (renewing p = None)) (renewTick now p, d)
  | RenewGot =>
      match renewing p with
      | Some (Getting, _) => Some (onRenewGet now i (redis_get now LEADER_KEY d) p, d)
      | _ => None
      end
  | RenewExpired =>
      match renewing p with
      | Some (Expiring, _) => Some (onRenewExpire p, redis_expire now LEADER_KEY LEADER_TTL_S d)
      | _ => None
      end
  | RenewFailed => guarded (bool_decide (renewing p ≠ None)) (onRenewError p, d)
  | Destroy =>
      guarded (negb (stopped p) && bool_decide (stepping p = None)) (onModuleDestroy now p, d)
  | DownGot =>
      match stepping p with
      | Some (Reading, _) => Some (onStepDownGet now i (redis_get now LEADER_KEY d) p, d)
      | _ => None
      end
  | DownDeleted =>
      match stepping p with
      | Some (Deleting, _) => Some (afterStepDown p, redis_del LEADER_KEY d)
      | _ => None
      end
  | DownFailed => guarded (bool_decide (stepping p ≠ None)) (afterStepDown p, d)
  | Authenticated cookie => guarded (0 <? authenticating p)%nat (onAuthenticated now cookie p, d)
  | ConnectFailed jitter => guarded (0 <? authenticating p)%nat (onConnectFailed now jitter p, d)
  | Opened sock => guarded (bool_decide (sock ∈ openSockets p)) (onOpen now sock p, d)
  | Message sock => guarded (bool_decide (sock ∈ openSockets p)) ((onMessage now sock p).1, d)
  | Closed sock jitter => guarded (bool_decide (sock ∈ openSockets p)) (onClose now jitter sock p, d)
  | ReconnectDue => guarded (due now (reconnectTimer p)) (onReconnectTimer p, d)
  | SessionDue => guarded (due now (sessionExpiryTimer p)) (onSessionTimer p, d)
  | HealthCheck jitter => guarded (negb (stopped p)) (runHealthCheck now jitter p, d)
  | HealthAnswer jitter ok => guarded (0 <? healthChecks p)%nat (onHealthAnswer now jitter ok p, d)
  end.

Section Exec.
(** The delay within which a timer fires and a command is answered. *)
Context (latency : Z).

Definition notLate {A} (now : Z) (since : option (A * Z)) : bool :=
  match since with Some (_, t) => now <=? t + latency | None => true end.

(** No timer of the lease and no answer of Redis is late. *)
Definition punctual (now : Z) (p : Proc) : bool :=
  match leaderRenewTimer p with Some t => now <=? t + latency | None => true end
  && notLate now (acquiring p) && notLate now (renewing p) && notLate now (stepping p).

Definition exec (e : Event) (w : World) : option World :=
  match e with
  | Wait ms =>
      guarded ((0 <? ms) && forallb (λ kv, punctual (clock w + ms) kv.2) (map_to_list (procs w)))
        (w <| clock := clock w + ms |>)
  | At i a =>
      p ← procs w !! i;
      '(p', d') ← act (clock w) i a (db w) p;
      Some (w <| procs := <[i := p']> (procs w) |> <| db := d' |>)
  end.

Fixpoint execAll (es : list Event) (w : World) : option World :=
  match es with
  | [] => Some w
  | e :: es' => exec e w ≫= execAll es'
  end.

Definition step (w w' : World) : Prop := ∃ e, exec e w = Some w'.

(** A step in which a shutdown neither overlaps with an election the same
    instance wins, nor deletes a key it no longer holds. *)
Definition calm (e : Event) (w : World) : Prop :=
  match e with
  | At i DownGot | At i DownFailed => ∀ p, procs w !! i = Some p → isLeader p = false
  | At i DownDeleted =>
      (∀ p, procs w !! i = Some p → isLeader p = false ∧ acquiring p = None) ∧
      ∀ v, redis_get (clock w) LEADER_KEY (db w) = Some v → v = i
  | _ => True
  end.
Definition calmStep (w w' : World) : Prop := ∃ e, exec e w = Some w' ∧ calm e w.
End Exec.

(** The instances of a deployment, before their first step. *)
Definition initialWorld (now : Z) (d : RedisDb) (ids : list string) : World :=
  mkWorld now d (list_to_map (map (λ i, (i, freshProc true)) ids)).
