(* ===== verification/BridgeLinkProps.v ===== *)
(** * Traccar bridge: what the election and the connection promise

    One leader at most, a lease shorter than the patience of its holder, one
    socket at most, and a leader that never stops trying; and the runs in which
    the first of these fails when Redis is slow or a shutdown is late. *)

From S2P Require Import Prelude JsString Redis BridgeLink.

#[local] Open Scope string_scope.
#[local] Open Scope list_scope.
#[local] Open Scope Z_scope.

(** ** The fields of the lease *)

Definition lease (p : Proc) :=
  (hasRedis p, isLeader p, consecutiveRenewFailures p, leaderRenewTimer p, acquiring p, renewing p).

Lemma dropSocket_lease p : lease (dropSocket p) = lease p.
Proof. unfold dropSocket. by case_match. Qed.
Lemma disconnect_lease p : lease (disconnect p) = lease p.
Proof.
  unfold disconnect, dropSocket. by repeat case_match.
Qed.
Lemma scheduleReconnect_lease now j p : lease (scheduleReconnect now j p) = lease p.
Proof. unfold scheduleReconnect. by case_match. Qed.
Lemma connect_lease p : lease (connect p) = lease p.
Proof. unfold connect. by case_match. Qed.
Lemma startBackfill_lease p : lease (startBackfill p) = lease p.
Proof. unfold startBackfill. by case_match. Qed.

(** An action on the connection leaves the lease alone. *)
Definition onConnection (a : Action) : bool :=
  match a with
  | Authenticated _ | ConnectFailed _ | Opened _ | Message _ | Closed _ _ | ReconnectDue | SessionDue
  | HealthCheck _ | HealthAnswer _ _ => true
  | _ => false
  end.

Lemma guarded_Some {A} b (x y : A) : guarded b x = Some y ↔ b = true ∧ x = y.
Proof. unfold guarded. case_match; naive_solver. Qed.

Lemma connection_lease now i a d p p' d' :
  onConnection a = true → act now i a d p = Some (p', d') → lease p' = lease p ∧ d' = d.
Proof.
  intros Ha. destruct a; try done; cbn [act]; rewrite guarded_Some; intros [_ [= <- <-]]; (split; [|done]).
  - unfold onAuthenticated, scheduleSessionRenewal, dropSocket. by case_match.
  - unfold onConnectFailed. by rewrite scheduleReconnect_lease.
  - unfold onOpen. case_match; [done|]. by rewrite startBackfill_lease.
  - unfold onMessage. by case_match.
  - unfold onClose, scheduleReconnect. by repeat case_match.
  - unfold onReconnectTimer. by rewrite connect_lease.
  - unfold onSessionTimer. by rewrite connect_lease, disconnect_lease.
  - unfold runHealthCheck. case_match; [by rewrite scheduleReconnect_lease, disconnect_lease|]. by case_match.
  - unfold onHealthAnswer. cbv zeta. case_match; [|done]. by rewrite scheduleReconnect_lease, disconnect_lease.
Qed.

(** ** The lease outlives its holder's patience *)

Section Lease.
Context (L : Z) (HL : 0 ≤ L < 2000).

(** The last instant at which an instance, whose every renewal fails from now
    on, may still believe it leads. *)
Definition patience (p : Proc) : option Z :=
  if isLeader p then
    n ← leaderRenewTimer p;
    Some (match renewing p with
          | None => if consecutiveRenewFailures p =? 0 then n + LEADER_RENEW_INTERVAL_MS + 4 * L else n + 3 * L
          | Some (c, sent) =>
              if consecutiveRenewFailures p =? 0 then n + 3 * L
              else match c with Getting => sent + 2 * L | Expiring => sent + L end
          end)
  else match acquiring p with
       | Some (Some true, sent) => Some (sent + 2 * LEADER_RENEW_INTERVAL_MS + 5 * L)
       | _ => None
       end.

Definition timely (now : Z) (p : Proc) : Prop :=
  (∀ n, leaderRenewTimer p = Some n → n - LEADER_RENEW_INTERVAL_MS ≤ now ≤ n + L) ∧
  (∀ x t, acquiring p = Some (x, t) → t ≤ now ≤ t + L) ∧
  (∀ x t, renewing p = Some (x, t) → t ≤ now ≤ t + L).

Definition consistent (p : Proc) : Prop :=
  hasRedis p = true ∧
  if isLeader p then
    leaderRenewTimer p ≠ None ∧ acquiring p = None ∧ 0 ≤ consecutiveRenewFailures p ≤ 1
  else leaderRenewTimer p = None.

(** The key is [i]'s until after [t]. *)
Definition heldBeyond (d : RedisDb) (i : string) (t : Z) : Prop :=
  ∃ e, d !! LEADER_KEY = Some (mkEntry i (Some e)) ∧ t < e.

Definition procOk (now : Z) (d : RedisDb) (i : string) (p : Proc) : Prop :=
  timely now p ∧ consistent p ∧ ∀ t, patience p = Some t → heldBeyond d i t.

Lemma procOk_lease now d i p p' : lease p' = lease p → procOk now d i p → procOk now d i p'.
Proof.
  unfold lease. intros [= E1 E2 E3 E4 E5 E6]. unfold procOk, timely, consistent, patience.
  by rewrite E1, E2, E3, E4, E5, E6.
Qed.

(** Patience runs at least until now, and less than a full lease ahead. *)
Lemma patience_bounds now p t :
  timely now p → consistent p → patience p = Some t → now ≤ t < now + LEADER_TTL_S * 1000.
Proof.
  intros (T1 & T2 & T3) _. unfold patience, LEADER_TTL_S, LEADER_RENEW_INTERVAL_MS in *.
  destruct (isLeader p).
  - destruct (leaderRenewTimer p) as [n|]; [|done]. cbn. intros [= <-].
    specialize (T1 n eq_refl). destruct (renewing p) as [[c s]|]; [|case_match; lia].
    specialize (T3 c s eq_refl). case_match; [lia|]. destruct c; lia.
  - destruct (acquiring p) as [[[[]|] s]|]; try done. intros [= <-].
    specialize (T2 _ s eq_refl). lia.
Qed.

Lemma heldBeyond_get now d i t : now ≤ t → heldBeyond d i t → redis_get now LEADER_KEY d = Some i.
Proof.
  intros Hn (e & He & Hlt). unfold redis_get, live. rewrite He. cbn [e_expires e_value].
  by rewrite (proj2 (Z.ltb_lt now e)) by lia.
Qed.

Lemma redis_expire_held now d i t t' :
  now ≤ t → heldBeyond d i t → t' < now + LEADER_TTL_S * 1000 →
  heldBeyond (redis_expire now LEADER_KEY LEADER_TTL_S d) i t'.
Proof.
  intros Hn (e & He & Hlt) Ht. exists (now + LEADER_TTL_S * 1000).
  unfold redis_expire, live. rewrite He. cbn [e_expires e_value].
  rewrite (proj2 (Z.ltb_lt now e)) by lia. by rewrite lookup_insert_eq.
Qed.

(** What the action of one instance leaves of the lease of another. *)
Lemma others_keep now i j a d p p' d' q :
  act now i a d p = Some (p', d') → i ≠ j →
  (a = DownDeleted → ∀ v, redis_get now LEADER_KEY d = Some v → v = i) →
  procOk now d j q → procOk now d' j q.
Proof.
  intros Hact Hne Hcalm (Ht & Hc & Hp). split; [done|]. split; [done|]. intros t Hq.
  specialize (Hp t Hq). pose proof (patience_bounds _ _ _ Ht Hc Hq) as Hb.
  pose proof (heldBeyond_get now d j t ltac:(lia) Hp) as Hget.
  destruct (onConnection a) eqn:Ea; [by destruct (connection_lease _ _ _ _ _ _ _ Ea Hact) as [_ ->]|].
  destruct a; try done; cbn [act] in Hact; repeat case_match; rewrite ?guarded_Some in Hact; simplify_eq;
    try (by destruct Hact as [_ [= _ <-]]); try done.
  - (* SetServed *)
    match goal with H : redis_setnx _ _ _ _ _ = _ |- _ => revert H end.
    unfold redis_setnx. rewrite (proj2 (redis_exists_get now LEADER_KEY d)) by (by rewrite Hget).
    by intros [= <- _].
  - (* RenewExpired *) apply (redis_expire_held _ _ _ t); [lia|done|lia].
  - (* DownDeleted *) exfalso. apply Hne. symmetry. by apply Hcalm.
Qed.

(** An instance that is not, and is not about to be, the leader. *)
Lemma bystander_ok now d i p :
  timely now p → hasRedis p = true → isLeader p = false → leaderRenewTimer p = None →
  (∀ t, acquiring p ≠ Some (Some true, t)) → procOk now d i p.
Proof.
  intros Ht Hr Hl Hn Ha. split; [done|]. split; [split; [done|by rewrite Hl]|].
  unfold patience. rewrite Hl. destruct (acquiring p) as [[[[]|] t]|]; try done. by destruct (Ha t).
Qed.

Lemma loseLeadership_fields p :
  let p' := loseLeadership p in
  hasRedis p' = hasRedis p ∧ isLeader p' = false ∧ leaderRenewTimer p' = None ∧
  acquiring p' = acquiring p ∧ renewing p' = renewing p ∧ stepping p' = stepping p.
Proof. unfold loseLeadership, stopLeaderRenew, disconnect, dropSocket. by case_match. Qed.

(** The lease between the steps of its holder. *)
Lemma leader_ok now d i p n :
  hasRedis p = true → isLeader p = true → acquiring p = None →
  leaderRenewTimer p = Some n → n - LEADER_RENEW_INTERVAL_MS ≤ now ≤ n + L →
  0 ≤ consecutiveRenewFailures p ≤ 1 →
  (∀ x t, renewing p = Some (x, t) → t ≤ now ≤ t + L) →
  (∀ t, patience p = Some t → heldBeyond d i t) → procOk now d i p.
Proof.
  intros Hr Hl Ha Hn Hb Hf Hre Hp. split; [|split; [|done]].
  - unfold timely. rewrite Hn, Ha. split_and!; try done. intros m. by intros [= <-].
  - split; [done|]. rewrite Hl, Hn. done.
Qed.

Lemma heldBeyond_le d i t t' : t' ≤ t → heldBeyond d i t → heldBeyond d i t'.
Proof. intros H (e & He & Hlt). exists e. split; [done|lia]. Qed.

Lemma lostLeadership_ok now d i p p' :
  acquiring p' = acquiring p → isLeader p' = isLeader p → hasRedis p' = hasRedis p →
  renewing p' = None → procOk now d i p → procOk now d i (loseLeadership p').
Proof.
  intros Ea El Eh Er ((_ & T2 & _) & [Hr Hc] & Hp).
  destruct (loseLeadership_fields p') as (E1 & E2 & E4 & E5 & E6 & _).
  split; [|split].
  - unfold timely. rewrite E4, E5, E6, Ea, Er. split_and!; [done|exact T2|done].
  - unfold consistent. by rewrite E1, E2, Eh, E4.
  - intros t. unfold patience in *. rewrite E2, E5, Ea. destruct (isLeader p); [|apply Hp].
    by destruct Hc as (_ & -> & _).
Qed.

Lemma own_retry now d i p : procOk now d i p → acquiring p = None → procOk now d i (tryBecomeLeader now p).
Proof.
  intros Hok Ha. unfold tryBecomeLeader. case_match; [done|]. destruct (isLeader p) eqn:Hl; [done|].
  destruct Hok as ((T1 & T2 & T3) & [Hr Hc] & _). rewrite Hl in Hc. apply bystander_ok; try done.
  split_and!; [exact T1| |exact T3]. intros x t [= <- <-]. lia.
Qed.

Lemma own_served now d i p t d' b :
  acquiring p = Some (None, t) → redis_setnx now LEADER_KEY i LEADER_TTL_S d = (d', b) →
  procOk now d i p → procOk now d' i (p <| acquiring := Some (Some b, t) |>).
Proof.
  intros Ha Hs (Ht & [Hr Hc] & _).
  destruct (isLeader p) eqn:Hl; [by destruct Hc as (_ & E & _); rewrite Ha in E|].
  assert (Ht' : timely now (p <| acquiring := Some (Some b, t) |>)).
  { destruct Ht as (T1 & T2 & T3). split_and!; [exact T1| |exact T3].
    intros x s [= <- <-]. by apply (T2 None). }
  split; [done|]. split; [split; [done|]; cbn; by rewrite Hl|].
  intros s. unfold patience. cbn. rewrite Hl. destruct b; [|done].
  intros [= <-]. revert Hs. unfold redis_setnx. case_match; [done|]. intros [= <-].
  destruct Ht as (_ & T2 & _). specialize (T2 _ _ Ha).
  exists (now + LEADER_TTL_S * 1000). split; [apply lookup_insert_eq|].
  unfold LEADER_TTL_S, LEADER_RENEW_INTERVAL_MS. lia.
Qed.

Lemma own_answered now d i p t b :
  acquiring p = Some (Some b, t) → procOk now d i p → procOk now d i (onAcquireAnswer now b p).
Proof.
  intros Ha (Ht & [Hr Hc] & Hp).
  destruct (isLeader p) eqn:Hl; [by destruct Hc as (_ & E & _); rewrite Ha in E|].
  destruct Ht as (T1 & T2 & T3). specialize (T2 _ _ Ha).
  unfold onAcquireAnswer. destruct b.
  - apply (procOk_lease _ _ _ (startLeaderRenew now (p <| acquiring := None |> <| isLeader := true |>)));
      [by rewrite connect_lease|].
    apply (leader_ok _ _ _ _ (now + LEADER_RENEW_INTERVAL_MS)); try done;
      [unfold LEADER_RENEW_INTERVAL_MS; lia|].
    intros s. unfold patience. cbn. intros [= <-].
    apply (heldBeyond_le _ _ (t + 2 * LEADER_RENEW_INTERVAL_MS + 5 * L)).
    + unfold LEADER_RENEW_INTERVAL_MS. destruct (renewing p) as [[]|]; cbn; lia.
    + apply Hp. unfold patience. by rewrite Hl, Ha.
  - apply bystander_ok; [|done..]. split_and!; [exact T1|done|exact T3].
Qed.

Lemma own_acquire_error now d i p : procOk now d i p → procOk now d i (onAcquireError p).
Proof.
  intros ((T1 & T2 & T3) & [Hr Hc] & Hp). split; [split_and!; [exact T1|done|exact T3]|].
  split.
  { split; [done|]. cbn. destruct (isLeader p); [|exact Hc]. by destruct Hc as (? & _ & ?). }
  intros t. unfold patience. cbn. destruct (isLeader p) eqn:Hl; [|done].
  intros H'. apply Hp. unfold patience. by rewrite Hl.
Qed.

Lemma own_tick now d i p :
  due now (leaderRenewTimer p) = true → renewing p = None → procOk now d i p → procOk now d i (renewTick now p).
Proof.
  intros Hdue Hre ((T1 & T2 & T3) & [Hr Hc] & Hp). unfold due in Hdue.
  destruct (leaderRenewTimer p) as [n|] eqn:En; [|done]. apply Z.leb_le in Hdue. specialize (T1 n eq_refl).
  destruct (isLeader p) eqn:El; [|done]. destruct Hc as (_ & Ha & Hf).
  unfold renewTick. cbn. rewrite Hr, El. cbn.
  apply (leader_ok _ _ _ _ (now + LEADER_RENEW_INTERVAL_MS)); try done;
    [unfold LEADER_RENEW_INTERVAL_MS; lia|..].
  - intros x t [= <- <-]. lia.
  - intros t. unfold patience. cbn. rewrite El. cbn. intros [= <-].
    eapply heldBeyond_le; [|apply Hp; unfold patience; by rewrite El, En, Hre].
    cbn. case_match; lia.
Qed.

Lemma own_get now d i p t current :
  renewing p = Some (Getting, t) → procOk now d i p → procOk now d i (onRenewGet now i current p).
Proof.
  intros Hre Hok. unfold onRenewGet. case_bool_decide; [by apply (lostLeadership_ok _ _ _ p)|].
  destruct Hok as ((T1 & T2 & T3) & [Hr Hc] & Hp). specialize (T3 _ _ Hre).
  split; [|split; [done|]].
  - split_and!; [exact T1|exact T2|]. intros x s [= <- <-]. lia.
  - intros s. unfold patience in *. cbn. destruct (isLeader p); [|apply Hp].
    destruct (leaderRenewTimer p) as [n|]; [|done]. rewrite Hre in Hp. cbn in *. intros [= <-].
    eapply heldBeyond_le; [|by apply Hp]. case_match; lia.
Qed.

Lemma own_expire now d i p t :
  renewing p = Some (Expiring, t) → procOk now d i p →
  procOk now (redis_expire now LEADER_KEY LEADER_TTL_S d) i (onRenewExpire p).
Proof.
  intros Hre (Ht & [Hr Hc] & Hp). pose proof Ht as (T1 & T2 & T3).
  pose proof (λ s, patience_bounds now p s Ht (conj Hr Hc)) as Hb.
  assert (Ht' : timely now (onRenewExpire p)) by (split_and!; [exact T1|exact T2|done]).
  assert (Hc' : consistent (onRenewExpire p)).
  { split; [done|]. cbn. destruct (isLeader p); [|done]. by destruct Hc as (? & ? & _). }
  split; [done|]. split; [done|]. intros s Hs.
  assert (Hs' : ∃ s', patience p = Some s').
  { revert Hs. unfold patience. cbn. destruct (isLeader p); [|eauto].
    destruct (leaderRenewTimer p); [|done]. cbn. eauto. }
  destruct Hs' as [s' Hs']. apply (redis_expire_held _ _ _ s'); [|by apply Hp|].
  - by apply Hb.
  - by apply (patience_bounds now _ s Ht' Hc').
Qed.

Lemma own_renew_error now d i p :
  renewing p ≠ None → procOk now d i p → procOk now d i (onRenewError p).
Proof.
  intros Hre Hok. unfold onRenewError. cbn. case_match eqn:E2; [by apply (lostLeadership_ok _ _ _ p)|].
  apply Z.leb_gt in E2. destruct Hok as ((T1 & T2 & T3) & [Hr Hc] & Hp).
  split; [split_and!; [exact T1|exact T2|done]|split].
  - split; [done|]. cbn. destruct (isLeader p); [|done]. destruct Hc as (? & ? & ?). split_and!; try done; lia.
  - intros s. unfold patience in *. cbn. destruct (isLeader p); [|apply Hp].
    destruct (leaderRenewTimer p) as [n|]; [|done]. destruct (renewing p) as [[c t]|]; [|done].
    destruct Hc as (_ & _ & Hf). assert (consecutiveRenewFailures p = 0) as E0 by lia.
    rewrite E0 in *. cbn in *. intros [= <-]. by apply Hp.
Qed.

Lemma own_down now d i p p' :
  hasRedis p' = hasRedis p → isLeader p' = false → leaderRenewTimer p' = None →
  acquiring p' = acquiring p → renewing p' = renewing p → (isLeader p = true → acquiring p = None) →
  procOk now d i p → procOk now d i p'.
Proof.
  intros E1 E2 E3 E4 E5 Ha ((T1 & T2 & T3) & [Hr Hc] & Hp). unfold procOk, timely, consistent, patience.
  rewrite E1, E2, E3, E4, E5. split_and!; try done. intros t. unfold patience in Hp.
  destruct (isLeader p); [by rewrite Ha|apply Hp].
Qed.

Lemma afterStepDown_fields p :
  let p' := afterStepDown p in
  hasRedis p' = hasRedis p ∧ isLeader p' = isLeader p ∧ leaderRenewTimer p' = None ∧
  acquiring p' = acquiring p ∧ renewing p' = renewing p.
Proof. unfold afterStepDown, stopLeaderRenew, disconnect, dropSocket. by case_match. Qed.

Lemma own_after_down now d i p :
  isLeader p = false → procOk now d i p → procOk now d i (afterStepDown p).
Proof.
  intros Hl Hok. destruct (afterStepDown_fields p) as (E1 & E2 & E3 & E4 & E5).
  by apply (own_down _ _ _ p); rewrite ?E2, ?Hl.
Qed.

(** What the action of an instance leaves of its own lease. *)
Lemma own_keep now i a d p p' d' :
  act now i a d p = Some (p', d') →
  (a ∈ [DownGot; DownDeleted; DownFailed] → isLeader p = false) →
  (a = DownDeleted → acquiring p = None) →
  procOk now d i p → procOk now d' i p'.
Proof.
  intros Hact Hl Ha Hok.
  destruct (onConnection a) eqn:Ea.
  { destruct (connection_lease _ _ _ _ _ _ _ Ea Hact) as [El ->]. by eapply procOk_lease. }
  destruct a; try done; cbn [act] in Hact; repeat case_match;
    rewrite ?guarded_Some, ?andb_true_iff, ?bool_decide_eq_true in Hact; simplify_eq;
    try (destruct Hact as [Hg [= <- <-]]).
  - apply own_retry; [done|apply Hg].
  - by eapply own_served.
  - by eapply own_answered.
  - by apply own_acquire_error.
  - apply own_tick; [apply Hg..|done].
  - by eapply own_get.
  - by eapply own_expire.
  - by apply own_renew_error.
  - unfold onModuleDestroy. pose proof Hok as (_ & [Hr Hc] & _). rewrite Hr.
    apply (own_down _ _ _ p); try done. intros El. rewrite El in Hc. by destruct Hc as (_ & ? & _).
  - unfold onStepDownGet. case_bool_decide; [by eapply procOk_lease|].
    apply own_after_down; [|done]. apply Hl. set_solver.
  - specialize (Ha eq_refl). assert (El : isLeader p = false) by (apply Hl; set_solver).
    destruct (own_after_down now d i p El Hok) as (Ht & Hc & _). split; [done|]. split; [done|].
    destruct (afterStepDown_fields p) as (_ & E2 & _ & E4 & _).
    intros t. unfold patience. by rewrite E2, E4, El, Ha.
  - apply own_after_down; [|done]. apply Hl. set_solver.
Qed.

(** ** Worlds *)

Definition worldOk (w : World) : Prop :=
  map_Forall (λ i p, procOk (clock w) (db w) i p) (procs w).

Lemma punctual_timely now ms p : 0 < ms → timely now p → punctual L (now + ms) p = true → timely (now + ms) p.
Proof.
  intros Hms (T1 & T2 & T3). unfold punctual, notLate. rewrite !andb_true_iff.
  intros [[[P1 P2] P3] _]. split_and!.
  - intros n E. rewrite E in P1. apply Z.leb_le in P1. specialize (T1 n E). lia.
  - intros x t E. rewrite E in P2. apply Z.leb_le in P2. specialize (T2 x t E). lia.
  - intros x t E. rewrite E in P3. apply Z.leb_le in P3. specialize (T3 x t E). lia.
Qed.

Lemma calmStep_ok w w' : calmStep L w w' → worldOk w → worldOk w'.
Proof.
  intros (e & He & Hcalm) Hok. destruct e as [ms|i a]; cbn [exec] in He.
  - apply guarded_Some in He as [Hg <-]. apply andb_true_iff in Hg as [Hms Hp].
    apply Z.ltb_lt in Hms. rewrite forallb_forall in Hp.
    intros i p Hi. cbn in *. destruct (Hok i p Hi) as (Ht & Hc & Hh). split; [|done].
    apply punctual_timely; [done|done|]. apply (Hp (i, p)), list_elem_of_In.
    by apply elem_of_map_to_list.
  - destruct (procs w !! i) as [p|] eqn:Hi; [|done]. cbn in He.
    destruct (act _ i a _ p) as [[p' d']|] eqn:Hact; [|done]. injection He as <-.
    intros j q. cbn. intros Hj. destruct (decide (i = j)) as [<-|Hne].
    + rewrite lookup_insert_eq in Hj. injection Hj as <-. eapply own_keep; [done|..|by apply Hok].
      * intros Ha. destruct a; try set_solver; cbn in Hcalm; naive_solver.
      * intros ->. naive_solver.
    + rewrite lookup_insert_ne in Hj by done. eapply others_keep; [done|done| |by apply Hok].
      intros ->. naive_solver.
Qed.

Lemma initialWorld_fresh now d ids i p : procs (initialWorld now d ids) !! i = Some p → p = freshProc true.
Proof.
  cbn. intros H. apply elem_of_list_to_map_2, list_elem_of_In, in_map_iff in H as (j & [= _ <-] & _). done.
Qed.

Lemma initialWorld_ok now d ids : worldOk (initialWorld now d ids).
Proof.
  intros i p H. apply initialWorld_fresh in H as ->. by split_and!.
Qed.

Lemma reachable_ok now d ids w : rtc (calmStep L) (initialWorld now d ids) w → worldOk w.
Proof.
  intros H. pose proof (initialWorld_ok now d ids) as H0. induction H; [done|]. eauto using calmStep_ok.
Qed.

Lemma leader_holds w i p :
  worldOk w → procs w !! i = Some p → isLeader p = true → redis_get (clock w) LEADER_KEY (db w) = Some i.
Proof.
  intros Hok Hi Hl. destruct (Hok i p Hi) as (Ht & Hc & Hp). pose proof Hc as [_ Hc'].
  rewrite Hl in Hc'. destruct Hc' as (Hn & _). destruct (patience p) as [t|] eqn:E.
  - destruct (patience_bounds _ _ _ Ht Hc E). by apply (heldBeyond_get _ _ _ t); [|apply Hp].
  - revert E. unfold patience. rewrite Hl. by destruct (leaderRenewTimer p).
Qed.
End Lease.

(** C29: While timers and answers of Redis are less than two seconds late and no
    shutdown collides with an election, in every run of any number of
    instances an instance that believes it is the leader holds the key, so no
    two instances ever lead together. *)
Theorem one_leader L now d ids w :
  0 ≤ L < 2000 → rtc (calmStep L) (initialWorld now d ids) w →
  ∀ i p, procs w !! i = Some p → isLeader p = true →
    redis_get (clock w) LEADER_KEY (db w) = Some i ∧
    ∀ j q, procs w !! j = Some q → isLeader q = true → j = i.
Proof.
  intros HL Hr i p Hi Hl. pose proof (reachable_ok L HL _ _ _ _ Hr) as Hok.
  pose proof (leader_holds L HL w i p Hok Hi Hl) as Hg. split; [done|].
  intros j q Hj Hm. pose proof (leader_holds L HL w j q Hok Hj Hm). congruence.
Qed.

(** ** Runs *)

Definition shutdown (e : Event) : bool :=
  match e with At _ DownGot | At _ DownDeleted | At _ DownFailed => true | _ => false end.

Lemma execAll_rtc L es w w' : execAll L es w = Some w' → rtc (step L) w w'.
Proof.
  revert w. induction es as [|e es IH]; intros w; cbn; [by intros [= ->]|].
  destruct (exec L e w) as [w1|] eqn:E; [|done]. cbn. intros H.
  eapply rtc_l; [by exists e|by apply IH].
Qed.

Lemma execAll_calm L es w w' :
  forallb (λ e, negb (shutdown e)) es = true → execAll L es w = Some w' → rtc (calmStep L) w w'.
Proof.
  revert w. induction es as [|e es IH]; intros w; cbn; [by intros _ [= ->]|].
  rewrite andb_true_iff. intros [Hs Hes]. destruct (exec L e w) as [w1|] eqn:E; [|done]. cbn. intros H.
  eapply rtc_l; [|by apply IH]. exists e. split; [done|]. destruct e as [|i []]; done.
Qed.

Definition after (L : Z) (es : list Event) (w : World) : World := default w (execAll L es w).

Definition leads (i : string) (w : World) : bool :=
  match procs w !! i with Some p => isLeader p | None => false end.
Definition receives (i : string) (w : World) : bool :=
  match procs w !! i with Some p => connected p && bool_decide (socket p ≠ None) | None => false end.

Lemma runs_to L es w : is_Some (execAll L es w) → rtc (step L) w (after L es w).
Proof. intros [w' E]. unfold after. rewrite E. by apply execAll_rtc in E. Qed.

(** [b] wins the election, misses one renewal and keeps the lease; [a] tries
    again and is refused. *)
Definition contest : list Event :=
  [ At "a" Retry; At "b" Retry; At "b" SetServed; At "a" SetServed; Wait 1500;
    At "a" SetAnswered; At "b" SetAnswered; Wait 21000; At "b" RenewTick; Wait 1000; At "b" RenewFailed;
    Wait 19000; At "b" RenewTick; Wait 500; At "b" RenewGot; Wait 500; At "b" RenewExpired;
    At "a" Retry; At "a" SetServed; At "a" SetAnswered ].

Lemma one_leader_witness :
  let w := after 1999 contest (initialWorld 0 ∅ ["a"; "b"]) in
  (∃ p, procs w !! "b" = Some p ∧ isLeader p = true) ∧
  redis_get (clock w) LEADER_KEY (db w) = Some "b" ∧
  ∀ j q, procs w !! j = Some q → isLeader q = true → j = "b".
Proof.
  split; [eexists; split; vm_compute; reflexivity|].
  assert (H : ∃ p, procs (after 1999 contest (initialWorld 0 ∅ ["a"; "b"])) !! "b" = Some p ∧ isLeader p = true)
    by (eexists; split; vm_compute; reflexivity).
  destruct H as (p & Hp & Hl).
  apply (one_leader 1999 0 ∅ ["a"; "b"] (after 1999 contest (initialWorld 0 ∅ ["a"; "b"]))) with p;
    [lia| |done..].
  apply (execAll_calm _ contest); vm_compute; reflexivity.
Defined.

(** The two seconds matter: with Redis answering after fifteen, the second
    failed renewal is reported after the lease has passed to another. *)
Definition slowRedis : list Event :=
  [ At "a" Retry; At "a" SetServed; At "a" SetAnswered; Wait 20000; At "a" RenewTick;
    Wait 15000; At "a" RenewFailed; Wait 5000; At "a" RenewTick; Wait 10001;
    At "b" Retry; At "b" SetServed; At "b" SetAnswered ].

Theorem slow_redis_two_leaders :
  ∃ w, rtc (calmStep 15000) (initialWorld 0 ∅ ["a"; "b"]) w ∧ leads "a" w = true ∧ leads "b" w = true.
Proof.
  exists (after 15000 slowRedis (initialWorld 0 ∅ ["a"; "b"])). split; [|by vm_compute].
  apply (execAll_calm _ slowRedis); vm_compute; reflexivity.
Qed.

(** Nor can a shutdown be left out: one that reads the key as its lease ends
    deletes the lease of the next leader, and a third instance wins. *)
Definition lateShutdown : list Event :=
  [ At "a" Retry; At "a" SetServed; At "a" SetAnswered; Wait 20000; At "a" RenewTick; At "a" RenewFailed;
    Wait 20000; At "a" RenewTick; At "a" RenewFailed; Wait 9999; At "a" Destroy; At "a" DownGot; Wait 1;
    At "b" Retry; At "b" SetServed; At "b" SetAnswered; At "a" DownDeleted;
    At "c" Retry; At "c" SetServed; At "c" SetAnswered ].

Theorem late_shutdown_two_leaders :
  ∃ w, rtc (step 1) (initialWorld 0 ∅ ["a"; "b"; "c"]) w ∧ leads "b" w = true ∧ leads "c" w = true.
Proof.
  exists (after 1 lateShutdown (initialWorld 0 ∅ ["a"; "b"; "c"])). split; [|by vm_compute].
  apply runs_to. vm_compute. eauto.
Qed.

(** The lease does not stop a [connect] that was waiting for its session: it
    opens a socket after leadership is lost, while the next leader has its own. *)
Definition lateSession : list Event :=
  [ At "a" Retry; At "a" SetServed; At "a" SetAnswered; Wait 20000; At "a" RenewTick; At "a" RenewFailed;
    Wait 20000; At "a" RenewTick; At "a" RenewFailed; Wait 10000;
    At "b" Retry; At "b" SetServed; At "b" SetAnswered; At "b" (Authenticated "s2"); At "b" (Opened 0);
    At "a" (Authenticated "s1"); At "a" (Opened 0); At "a" (Message 0); At "b" (Message 0) ].

Theorem late_session_two_sockets :
  ∃ w, rtc (calmStep 1) (initialWorld 0 ∅ ["a"; "b"]) w ∧
       leads "a" w = false ∧ receives "a" w = true ∧ leads "b" w = true ∧ receives "b" w = true.
Proof.
  exists (after 1 lateSession (initialWorld 0 ∅ ["a"; "b"])). split; [|by vm_compute].
  apply (execAll_calm _ lateSession); vm_compute; reflexivity.
Qed.

(** ** The socket *)

(** The only socket not cut is the current one; a leader that is not stopped is
    connecting, connected, or has a timer that will connect. *)
Definition oneSocket (p : Proc) : Prop :=
  openSockets p = option_list (socket p) ∧ (connected p = true → socket p ≠ None).
Definition busy (p : Proc) : Prop :=
  (0 < authenticating p)%nat ∨ socket p ≠ None ∨ reconnectTimer p ≠ None.
Definition linkOk (p : Proc) : Prop :=
  hasRedis p = true ∧ oneSocket p ∧ (isLeader p = true → stopped p = false → busy p).

Lemma filter_gone (k : nat) : filter (λ x, x ≠ k) [k] = [].
Proof. rewrite filter_cons_False by tauto. done. Qed.

(** What is left of the socket once it is dropped. *)
Ltac dropped Ho :=
  cbn; match goal with |- context [match socket ?p with _ => _ end] =>
    destruct (socket p) as [k|] eqn:E; cbn;
    [rewrite Ho; split; [apply filter_gone|done] | by rewrite E, Ho] end.

Lemma disconnect_one p : oneSocket p → oneSocket (disconnect p).
Proof. intros [Ho _]. unfold disconnect, dropSocket, oneSocket. dropped Ho. Qed.

Lemma disconnect_redis p : hasRedis (disconnect p) = hasRedis p.
Proof. unfold disconnect, dropSocket. by case_match. Qed.

Lemma schedule_link now j p : hasRedis p = true → oneSocket p → linkOk (scheduleReconnect now j p).
Proof.
  intros Hr Ho. unfold scheduleReconnect. rewrite Hr. destruct (isLeader p) eqn:El; cbn.
  - split; [exact Hr|]. split; [exact Ho|]. intros _ _. right. right. discriminate.
  - split; [done|]. split; [done|]. by rewrite El.
Qed.

Lemma connect_link p : hasRedis p = true → oneSocket p → linkOk (connect p).
Proof.
  intros Hr Ho. unfold connect. rewrite Hr. destruct (isLeader p) eqn:E; cbn.
  - split; [exact Hr|]. split; [exact Ho|]. intros _ _. left. cbn. lia.
  - split; [done|]. split; [done|]. by rewrite E.
Qed.

(** A state that differs from a good one outside the connection. *)
Lemma linkOk_keep p p' :
  hasRedis p' = hasRedis p →
  openSockets p' = openSockets p → socket p' = socket p → connected p' = connected p →
  authenticating p' = authenticating p → reconnectTimer p' = reconnectTimer p →
  (isLeader p' = true → isLeader p = true) → (stopped p' = false → stopped p = false) →
  linkOk p → linkOk p'.
Proof.
  unfold linkOk, oneSocket, busy. intros -> -> -> -> -> -> Hm Hs (? & [? ?] & ?).
  split_and!; try done. auto.
Qed.

Lemma idle_link p : hasRedis p = true → oneSocket p → (isLeader p = false ∨ stopped p = true) → linkOk p.
Proof. intros Hr Ho Hl. split; [done|]. split; [done|]. intros. destruct Hl; congruence. Qed.

Lemma lose_link p : hasRedis p = true → oneSocket p → linkOk (loseLeadership p).
Proof.
  intros Hr [Ho _]. destruct (loseLeadership_fields p) as (E1 & E2 & _). apply idle_link; [by rewrite E1| |by left].
  unfold loseLeadership, stopLeaderRenew, disconnect, dropSocket, oneSocket. dropped Ho.
Qed.

Lemma afterStepDown_link p : hasRedis p = true → oneSocket p → linkOk (afterStepDown p).
Proof.
  intros Hr [Ho _]. apply idle_link; [by destruct (afterStepDown_fields p) as (-> & _)| |by right].
  unfold afterStepDown, stopLeaderRenew, disconnect, dropSocket, oneSocket. dropped Ho.
Qed.

Lemma authenticated_link now cookie p : hasRedis p = true → oneSocket p → linkOk (onAuthenticated now cookie p).
Proof.
  intros Hr [Ho _]. unfold onAuthenticated, scheduleSessionRenewal, dropSocket, linkOk, oneSocket, busy. cbn.
  destruct (socket p) as [k|] eqn:E; cbn; rewrite Ho; cbn; split_and!; try done; try (by right; left).
  by rewrite decide_False by tauto.
Qed.

Lemma opened_link now k p : linkOk p → linkOk (onOpen now k p).
Proof.
  intros (Hr & [Ho Hc] & Hb). unfold onOpen. case_bool_decide as E; [done|].
  unfold startBackfill. cbn. destruct (sessionCookie p); split_and!; try done;
    (split; [exact Ho|cbn; by rewrite E]).
Qed.

Lemma message_link now k p : linkOk p → linkOk (onMessage now k p).1.
Proof. intros H. unfold onMessage. case_bool_decide; [done|]. by apply (linkOk_keep p). Qed.

Lemma closed_link now j k p : k ∈ openSockets p → linkOk p → linkOk (onClose now j k p).
Proof.
  intros Hk (Hr & [Ho Hc] & Hb). unfold onClose. cbv zeta. cbn.
  rewrite Ho in Hk. destruct (socket p) as [k'|] eqn:E; [|by apply not_elem_of_nil in Hk].
  apply list_elem_of_singleton in Hk as ->. rewrite ?bool_decide_eq_false_2 by tauto.
  destruct (disconnectStartTime p) as [[]|]; apply schedule_link; try done; cbn;
    (split; [|done]); cbn; rewrite Ho; apply filter_gone.
Qed.

Lemma act_link now i a d p p' d' : act now i a d p = Some (p', d') → linkOk p → linkOk p'.
Proof.
  intros Hact Hok. pose proof Hok as (Hr & Ho & Hb).
  destruct a; cbn [act] in Hact; repeat case_match; rewrite ?guarded_Some in Hact; simplify_eq;
    try (destruct Hact as [Hg [= <- <-]]); try (by apply (linkOk_keep p)).
  - unfold tryBecomeLeader. repeat case_match; by apply (linkOk_keep p).
  - unfold onAcquireAnswer. case_match; [by apply connect_link|]. by apply (linkOk_keep p).
  - unfold renewTick. case_match; by apply (linkOk_keep p).
  - unfold onRenewGet. case_match; [by apply lose_link|]. by apply (linkOk_keep p).
  - unfold onRenewError. cbn. case_match; [by apply lose_link|]. by apply (linkOk_keep p).
  - unfold onModuleDestroy. rewrite Hr. by apply (linkOk_keep p).
  - unfold onStepDownGet. case_match; [by apply (linkOk_keep p)|by apply afterStepDown_link].
  - by apply afterStepDown_link.
  - by apply afterStepDown_link.
  - by apply authenticated_link.
  - apply schedule_link; [done|]. destruct Ho. by split.
  - by apply opened_link.
  - by apply message_link.
  - apply closed_link; [|done]. by apply bool_decide_eq_true in Hg.
  - by apply connect_link.
  - apply connect_link; [by rewrite disconnect_redis|]. by apply disconnect_one.
  - unfold runHealthCheck. case_match.
    + apply schedule_link; [by rewrite disconnect_redis|by apply disconnect_one].
    + case_match; [by apply (linkOk_keep p)|done].
  - unfold onHealthAnswer. case_match; [|by apply (linkOk_keep p)].
    apply schedule_link; [by rewrite disconnect_redis|by apply disconnect_one].
Qed.

(** ** What holds of every run *)

(** C30: In every run, however late Redis and the timers are: every socket that is
    not cut is the instance's current one, so no event of an older socket is
    ever delivered; and a leader that is not stopped is waiting for its session,
    has a socket, or has a timer that will connect again. *)
Theorem socket_life L now d ids w :
  rtc (step L) (initialWorld now d ids) w →
  ∀ i p, procs w !! i = Some p →
    (∀ k, k ∈ openSockets p → socket p = Some k) ∧
    (connected p = true → is_Some (socket p)) ∧
    (isLeader p = true → stopped p = false →
     (0 < authenticating p)%nat ∨ is_Some (socket p) ∨ is_Some (reconnectTimer p)).
Proof.
  intros Hr.
  assert (Hw : map_Forall (λ _ p, linkOk p) (procs w)).
  { assert (H0 : map_Forall (λ _ p, linkOk p) (procs (initialWorld now d ids))).
    { intros i p H. apply initialWorld_fresh in H as ->. by split_and!. }
    induction Hr as [|w w1 w2 [e He] _ IH]; [done|]. apply IH. clear IH.
    destruct e as [ms|i a]; cbn [exec] in He; [by apply guarded_Some in He as [_ <-]|].
    destruct (procs w !! i) as [p|] eqn:Hi; [|done]. cbn in He.
    destruct (act _ i a _ p) as [[p' d']|] eqn:Hact; [|done]. injection He as <-. cbn.
    apply map_Forall_insert_2; [|done]. exact (act_link _ _ _ _ _ _ _ Hact (H0 i p Hi)). }
  intros i p Hi. destruct (Hw i p Hi) as (_ & [Ho Hc] & Hb).
  split_and!.
  - intros k. rewrite Ho. destruct (socket p); cbn; [|by rewrite elem_of_nil].
    by rewrite list_elem_of_singleton; intros ->.
  - intros E. by apply not_eq_None_Some, Hc.
  - intros E1 E2. rewrite <- !not_eq_None_Some. by apply Hb.
Qed.

Lemma socket_life_witness :
  let w := after 1 lateSession (initialWorld 0 ∅ ["a"; "b"]) in
  ∃ p, procs w !! "b" = Some p ∧ isLeader p = true ∧ openSockets p = [0%nat] ∧
       ((0 < authenticating p)%nat ∨ is_Some (socket p) ∨ is_Some (reconnectTimer p)).
Proof.
  assert (H : ∃ p, procs (after 1 lateSession (initialWorld 0 ∅ ["a"; "b"])) !! "b" = Some p ∧
                   isLeader p = true ∧ stopped p = false ∧ openSockets p = [0%nat])
    by (eexists; split_and!; vm_compute; reflexivity).
  destruct H as (p & Hp & Hl & Hs & Ho). exists p.
  split; [exact Hp|]. split; [exact Hl|]. split; [exact Ho|].
  eapply (socket_life 1 0 ∅ ["a"; "b"]); [|exact Hp|exact Hl|exact Hs].
  apply runs_to. vm_compute. eauto.
Defined.

(** The delays double from two seconds up to two minutes. *)
Theorem reconnectDelay_bounds n jitter :
  1 ≤ n → 0 ≤ jitter < 1000 →
  INITIAL_RECONNECT_DELAY_MS ≤ reconnectDelay n jitter ≤ MAX_RECONNECT_DELAY_MS ∧
  (n ≤ 6 → reconnectDelay n jitter = 2000 * 2 ^ (n - 1) + jitter) ∧
  (7 ≤ n → reconnectDelay n jitter = MAX_RECONNECT_DELAY_MS).
Proof.
  intros Hn Hj. unfold reconnectDelay, INITIAL_RECONNECT_DELAY_MS, MAX_RECONNECT_DELAY_MS.
  assert (1 ≤ 2 ^ (n - 1)) by (apply (Z.pow_le_mono_r 2 0); lia).
  split_and!; [lia|lia| |].
  - intros Hle. assert (2 ^ (n - 1) ≤ 2 ^ 5) by (apply Z.pow_le_mono_r; lia). lia.
  - intros Hle. assert (2 ^ 6 ≤ 2 ^ (n - 1)) by (apply Z.pow_le_mono_r; lia). lia.
Qed.

(** A socket that has been silent for more than fifteen minutes does not survive
    the next health check of a leader, which plans its replacement. *)
Theorem zombie_cut now j p t :
  hasRedis p = true → isLeader p = true → openSockets p = option_list (socket p) →
  connected p = true → lastMessageAt p = Some t → TRACCAR_WS_STALE_MS < now - t →
  let p' := runHealthCheck now j p in
  openSockets p' = [] ∧ socket p' = None ∧ connected p' = false ∧
  reconnectTimer p' = Some (now + reconnectDelay (reconnectAttempts p + 1) j).
Proof.
  intros Hr Hl Ho Hc Hm Ht. unfold runHealthCheck, isZombie. rewrite Hc, Hm.
  rewrite (proj2 (Z.ltb_lt _ _) Ht). unfold scheduleReconnect, disconnect, dropSocket. cbn.
  destruct (socket p) as [k|] eqn:E; cbn; rewrite Hl; cbn; rewrite Ho; [|by rewrite E].
  split_and!; try done. apply filter_gone.
Qed.
