(* ===== verification/Bridge.v ===== *)
(** * Traccar bridge: positions and alerts

    TraccarBridgeService (modules/tracking/traccar-bridge.service.ts), the part
    that takes the positions of the physical trackers: [handlePosition] with its
    rejections, its quarantine, the row it stores and the position it displays;
    the queue of the positions the database refused; the backfill after a cut;
    the alerts on silent trackers.  Who is connected is BridgeLink.v.  [now] is
    the server's clock during a call; log lines are left out. *)

From Stdlib Require Import SpecFloat.
From S2P Require Import Prelude JsString JsNum JsDate Geo Redis Gps GpsQuality TrackingModel Tracking.

#[local] Open Scope string_scope.
#[local] Open Scope list_scope.
#[local] Open Scope Z_scope.

Definition BACKFILL_MAX_HOURS : Z := 24.
Definition PENDING_POSITIONS_LIMIT : nat := 1000.
Definition PENDING_POSITIONS_RETENTION_MS : Z := 3600000.
Definition SILENCE_ALERT_MIN_LAST_SPEED_MS : num := num_of_Z 3.
Definition NEVER_CONNECTED_GRACE_PERIOD_MS : Z := 30 * 60 * 1000.
Definition TRACCAR_FUTURE_SKEW_TOLERANCE_MS : Z := 5 * 60 * 1000.
Definition ANCHOR_BUFFER_SIZE : nat := 20.

(** ** Data *)

#[export] Instance num_eq_dec : EqDecision num.
Proof. unfold num. solve_decision. Defined.

(** [fixTime] and [deviceTime]: absent or empty, not a date, or an instant. *)
Inductive RawTime := NoTime | BadTime | Instant (t : Z).
#[export] Instance RawTime_eq_dec : EqDecision RawTime.
Proof. solve_decision. Defined.

(** The attributes the bridge reads: [a_sat] is [Number(attributes.sat)];
    [a_power] and [a_battery] list the candidates [extractTrackerTelemetry]
    tries. *)
Record Attributes := mkAttributes {
  a_sat : option num;
  a_hdop : option num;
  a_power : list (option num);
  a_battery : list (option num);
  a_ignition : option bool;
  a_motion : option bool
}.
#[export] Instance Attributes_eq_dec : EqDecision Attributes.
Proof. solve_decision. Defined.

(** A position as Traccar sends it; an absent coordinate is NaN. *)
Record TraccarPosition := mkTraccar {
  deviceId : Z;
  tp_latitude : num;
  tp_longitude : num;
  tp_speed : option num;  (** knots *)
  tp_course : option num;
  tp_altitude : option num;
  tp_accuracy : option num;
  tp_valid : option bool;
  fixTime : RawTime;
  deviceTime : RawTime;
  tp_attributes : Attributes
}.
#[export] Instance TraccarPosition_eq_dec : EqDecision TraccarPosition.
Proof. solve_decision. Defined.

(** An entry of the Redis list [traccar:pending-positions]. *)
Record Queued := mkQueued { q_pos : TraccarPosition; q_queuedAt : Z }.
#[export] Instance Queued_eq_dec : EqDecision Queued.
Proof. solve_decision. Defined.

(** The columns of a vehicle and of a delivery the bridge reads beside those of
    TrackingModel.v; [tv_driver] is the current driver, if active and not
    deleted, with his account. *)
Record TrackedVehicle := mkTracked {
  tv_traccarDeviceId : option string;
  tv_createdAt : Z;
  tv_driver : option (option string)
}.
Record DeliveryColumns := mkColumns {
  dc_vehicleId : option string;
  dc_active : bool;  (** [status] is assigned, in_progress or delivered *)
  dc_createdAt : Z;
  dc_completedAt : option Z
}.
(** A row of VehicleAssignmentHistory. *)
Record Assignment := mkAssignment {
  va_vehicleId : string;
  va_driverId : string;
  va_assignedAt : Z;
  va_unassignedAt : option Z
}.

Inductive SilenceCause := power_cut | battery_critical | power_or_battery_unknown | normal_then_silence.
Inductive Priority := critical | high | medium.
Inductive Notice :=
  | PowerCutNotice (vehicleId : string)
  | BatteryNotice (vehicleId : string)
  | SilenceNotice (vehicleId : string) (minutes : Z) (cause : SilenceCause)
  | NeverConnectedNotice (vehicleId : string) (minutes : Z).

Record Broadcast := mkBroadcast {
  b_companyId : string;
  b_vehicleId : string;
  b_driverId : option string;
  b_driverName : string;
  b_latitude : num;
  b_longitude : num;
  b_displayLatitude : num;
  b_displayLongitude : num;
  b_speed : num;
  b_heading : num;
  b_altitude : num;
  b_accuracy : num;
  b_suspect : bool;
  b_confidence : Z;
  b_timestamp : Z;
  b_deliveryId : option string
}.

Inductive BridgeEffect :=
  | DataUpdate (companyId : string) (driverId : option string) (latitude longitude : num) (timestamp : Z)
  | PositionUpdate (broadcast : Broadcast)
  | Notification (companyId : string) (priority : Priority) (userId : option string) (notice : Notice).

(** The database and Redis, the fields of the service, and what it sent.
    [lastPosition] is [traccar:last_position:<device>], [pending] the list of
    Redis from its head, [pendingRuns] the runs of [processPendingPositions]
    that are due. *)
Record BridgeStore := mkBridge {
  tracking : TrackingStore;
  tracked : gmap string TrackedVehicle;
  deliveryColumns : gmap string DeliveryColumns;
  assignments : list Assignment;
  driverNames : gmap string string;
  lastPosition : gmap string Z;
  pending : list Queued;
  pendingRuns : nat;
  anchorBuffers : gmap string (list AnchorFix);
  wakeQuarantine : gmap string (Z * Z);
  silentAlerted : gmap string Z;
  lastDisplayedPosition : gmap string (num * num);
  matchInFlight : gset string;
  lastPositionReceivedAt : option Z;
  sent : list BridgeEffect
}.

Definition onTracking (f : TrackingStore → TrackingStore) (s : BridgeStore) : BridgeStore :=
  s <| tracking := f (tracking s) |>.
Definition send (e : BridgeEffect) (s : BridgeStore) : BridgeStore := s <| sent := sent s ++ [e] |>.

(** ** Reading a position *)

Definition parseTimestampMeta (now : Z) (pos : TraccarPosition) : Z * bool :=
  let raw := match fixTime pos with NoTime => deviceTime pos | t => t end in
  match raw with
  | NoTime | BadTime => (now, true)
  | Instant date => if TRACCAR_FUTURE_SKEW_TOLERANCE_MS <? date - now then (now, true) else (date, false)
  end.

Definition isValidCoordinates (lat lng : num) : bool :=
  isFinite lat && isFinite lng
  && negb (num_ltb lat (num_of_Z (-90)) || num_ltb (num_of_Z 90) lat)
  && negb (num_ltb lng (num_of_Z (-180)) || num_ltb (num_of_Z 180) lng)
  && negb (num_eqb lat zero && num_eqb lng zero).

(** [x || 0]. *)
Definition orZero (x : option num) : num :=
  match x with Some v => if num_truthy v then v else zero | None => zero end.

Definition KNOT_MS : num := num_lit 514444 1000000.

(** [toJsonValue], then what [buildStoredAttributes] adds; an empty list stands
    for [null]. *)
Definition toJsonValue (t : TrackerTelemetry) : list (string * Attribute) :=
  match powerVolts t with Some v => [("power", AttrNum v)] | None => [] end
  ++ match batteryPercent t with Some v => [("battery", AttrNum v)] | None => [] end
  ++ match ignition t with Some b => [("ignition", AttrBool b)] | None => [] end.

Definition buildStoredAttributes (t : TrackerTelemetry) (raw : Attributes) : list (string * Attribute) :=
  toJsonValue t
  ++ match a_sat raw with
     | Some n => if isFinite n && num_ltb zero n then [("sat", AttrNum n)] else []
     | None => []
     end
  ++ match a_motion raw with Some b => [("motion", AttrBool b)] | None => [] end.

Definition telemetryOf (pos : TraccarPosition) : TrackerTelemetry :=
  let a := tp_attributes pos in extractTrackerTelemetry (a_power a) (a_battery a) (a_ignition a).

Definition accuracyOf (pos : TraccarPosition) : num :=
  let a := tp_attributes pos in computeCombinedAccuracy (tp_accuracy pos) (a_hdop a) (a_sat a).

Definition parseStoredTelemetry (attributes : list (string * Attribute)) : option num * option num :=
  (numAttribute "power" attributes, numAttribute "battery" attributes).

Definition classifySilenceCause (telemetry : option num * option num) : SilenceCause :=
  let '(powerVolts, batteryPercent) := telemetry in
  if match powerVolts with Some v => num_leb v POWER_CUT_VOLTS | None => false end then power_cut
  else if match batteryPercent with
          | Some b => num_ltb zero b && num_leb b BATTERY_CRITICAL_PCT
          | None => false
          end then battery_critical
  else match powerVolts, batteryPercent with
       | None, None => power_or_battery_unknown
       | _, _ => normal_then_silence
       end.

(** ** Who drives and what is delivered at the time of a fix *)

Definition covers (vid : string) (ts : Z) (a : Assignment) : bool :=
  bool_decide (va_vehicleId a = vid) && (va_assignedAt a <=? ts)
  && match va_unassignedAt a with None => true | Some t => ts <=? t end.

(** [findFirst({ where, orderBy: { assignedAt: 'desc' } })]. *)
Definition latestAssignment (l : list Assignment) : option Assignment :=
  foldl (λ best a,
    match best with
    | Some b => if va_assignedAt b <? va_assignedAt a then Some a else best
    | None => Some a
    end) None l.

Definition resolveDriverIdAtTimestamp (s : BridgeStore) (vid : string) (ts : Z) : option string :=
  va_driverId <$> latestAssignment (filter (λ a, covers vid ts a = true) (assignments s)).

(** The scan of [resolveDriver] in the backfill, from the last row. *)
Fixpoint scanAssignments (ts : Z) (backwards : list Assignment) : option string :=
  match backwards with
  | [] => None
  | a :: rest =>
      if ts <? va_assignedAt a then scanAssignments ts rest
      else if match va_unassignedAt a with None => true | Some t => ts <=? t end
      then Some (va_driverId a) else scanAssignments ts rest
  end.
Definition vehicleAssignments (s : BridgeStore) (vid : string) : list Assignment :=
  sort_by va_assignedAt (filter (λ a, va_vehicleId a = vid) (assignments s)).
Definition resolveDriver (assignments : list Assignment) (ts : Z) : option string :=
  scanAssignments ts (rev assignments).

(** [delivery.findFirst] of the driver in progress, the last created. *)
Definition createdAtOf (s : BridgeStore) (did : string) : Z :=
  match deliveryColumns s !! did with Some c => dc_createdAt c | None => 0 end.
Definition currentDelivery (s : BridgeStore) (driverId : string) : option string :=
  let found :=
    find_many (λ _ d, bool_decide (dl_driverId d = Some driverId) && dl_inProgress d
                      && bool_decide (dl_deletedAt d = None)) (deliveries (tracking s)) in
  foldl (λ best kv,
    match best with
    | Some b => if createdAtOf s b <? createdAtOf s kv.1 then Some kv.1 else best
    | None => Some kv.1
    end) None found.

(** ** The queue of positions the database refused *)

(** [queuePendingPosition]: LPUSH, LTRIM, and a run when the list was empty. *)
Definition queuePendingPosition (now : Z) (link : RedisLink) (pos : TraccarPosition) (s : BridgeStore)
  : BridgeStore :=
  match link with
  | RedisAbsent | RedisDown => s
  | RedisUp =>
      let s := s <| pending := take PENDING_POSITIONS_LIMIT (mkQueued pos now :: pending s) |> in
      if (length (pending s) =? 1)%nat then s <| pendingRuns := S (pendingRuns s) |> else s
  end.

Section Bridge.
Context (jm : JsMath).
(** class-validator's [IsUUID('4')]; the OSRM match of RoutingService, [None]
    when it throws; the configuration of the bridge. *)
Context (isUUID4 : string → bool)
        (matchToRoad : option (list (num * num) → list num → option (option (num * num) * num)))
        (minSatellites : num) (mapMatchingEnabled : bool).

(** The constraints of [UpdatePositionDto] that the bridge checks before it
    saves; the time was clamped by [parseTimestampMeta]. *)
Definition validDto (now : Z) (dto : UpdatePositionDto) : bool :=
  let between lo hi x := isFinite x && num_leb lo x && num_leb x hi in
  let optional (P : num → bool) o := match o with Some x => P x | None => true end in
  between (num_of_Z (-90)) (num_of_Z 90) (latitude dto)
  && between (num_of_Z (-180)) (num_of_Z 180) (longitude dto)
  && optional (λ x, isFinite x && num_leb zero x) (speed dto)
  && optional (between zero (num_of_Z 360)) (heading dto)
  && optional isFinite (altitude dto)
  && optional (between zero (num_of_Z 1000)) (accuracy dto)
  && (timestamp dto <=? now + 5 * 60 * 1000) && (now - 30 * 24 * 60 * 60 * 1000 <=? timestamp dto)
  && match deliveryId dto with Some d => isUUID4 d | None => true end
  && isUUID4 (vehicleId dto).

(** What the part of [handlePosition] under the lock of the device returns. *)
Record Processed := mkProcessed {
  pr_position : option GpsPosition;
  pr_vehicleId : string;
  pr_companyId : string;
  pr_driverId : option string;
  pr_driverName : string;
  pr_telemetry : TrackerTelemetry;
  pr_attributes : list (string * Attribute);
  pr_dto : UpdatePositionDto
}.

Definition findVehicleOfDevice (s : BridgeStore) (device : string) : option (string * Vehicle) :=
  find_first (λ vid v,
    bool_decide (tracked s !! vid ≫= tv_traccarDeviceId = Some device)
    && bool_decide (vh_positionSource v = physical_tracker) && vh_isActive v
    && bool_decide (vh_deletedAt v = None)) (vehicles (tracking s)).

Definition gapSince (last : option GpsPosition) (ts : Z) : option num :=
  p ← last; Some (secs (ts - p_timestamp p)).

Definition setQuarantine (vid : string) (v : WakeFixVerdict) (s : BridgeStore) : BridgeStore :=
  match v_quarantineSinceMs v with
  | None => s <| wakeQuarantine := delete vid (wakeQuarantine s) |>
  | Some since =>
      s <| wakeQuarantine := <[vid := (since, default since (v_quarantineLastMs v))]> (wakeQuarantine s) |>
  end.

Definition refOf (p : GpsPosition) : GroundSpeedRef :=
  mkRef (p_latitude p) (p_longitude p) (p_timestamp p) (p_accuracy p).
Definition refOfAnchor (f : AnchorFix) : GroundSpeedRef :=
  mkRef (af_latitude f) (af_longitude f) (af_timestamp f) (af_accuracy f).
Definition bufferOf (s : BridgeStore) (vid : string) : list AnchorFix := default [] (anchorBuffers s !! vid).

(** The ground speed of a fix against the last one and the window before it. *)
Definition fixSpeed (previous : option GroundSpeedRef) (window : list GroundSpeedRef)
    (pos : TraccarPosition) (ts : Z) (fromServerClock : bool) : num :=
  speedMs (resolveGroundSpeed jm
    {| reportedSpeedMs := Some (num_mul (orZero (tp_speed pos)) KNOT_MS);
       previous := previous;
       current := mkRef (tp_latitude pos) (tp_longitude pos) ts (Some (accuracyOf pos));
       currentTimestampIsServerFallback := fromServerClock;
       windowPrevious := selectSpeedWindowRef window ts |}).

(** [updateDto]. *)
Definition updateDto (s : BridgeStore) (vid : string) (driverId : option string)
    (lastDb : option GpsPosition) (pos : TraccarPosition) (ts : Z) (fromServerClock : bool)
  : UpdatePositionDto :=
  {| latitude := tp_latitude pos; longitude := tp_longitude pos;
     speed := Some (fixSpeed (refOf <$> lastDb) (map refOfAnchor (bufferOf s vid)) pos ts fromServerClock);
     heading := Some (orZero (tp_course pos)); altitude := Some (orZero (tp_altitude pos));
     accuracy := Some (accuracyOf pos); timestamp := ts;
     deliveryId := if truthy driverId then currentDelivery s (default "" driverId) else None;
     vehicleId := vid |}.

(** [dbFails]: the save is refused by the database.  A failure of Redis after a
    save is taken for one of the save. *)
Definition saveFix (now : Z) (link : RedisLink) (dbFails : bool) (pos : TraccarPosition)
    (driverId : option string) (dto : UpdatePositionDto) (companyId : string)
    (attributes : list (string * Attribute)) (s : BridgeStore) : BridgeStore * option (option GpsPosition) :=
  if dbFails then (queuePendingPosition now link pos s, None)
  else
    let '(t, position) := savePosition jm driverId dto (Some companyId) physical_tracker attributes (tracking s) in
    let s := s <| tracking := t |> in
    match link with
    | RedisAbsent => (s, Some position)
    | RedisDown => (queuePendingPosition now link pos s, None)
    | RedisUp =>
        (s <| lastPosition := <[string_of_Z (deviceId pos) := timestamp dto]> (lastPosition s) |>, Some position)
    end.

(** The part of [handlePosition] under the lock of the device. *)
Definition storeFix (now : Z) (link : RedisLink) (dbFails : bool) (pos : TraccarPosition) (s : BridgeStore)
  : BridgeStore * option Processed :=
  let '(ts, fromServerClock) := parseTimestampMeta now pos in
  match findVehicleOfDevice s (string_of_Z (deviceId pos)) with
  | None => (s, None)
  | Some (vid, v) =>
      let lastDb := getLastPosition (tracking s) vid true in
      let wake :=
        evaluateWakeFix
          {| sat := a_sat (tp_attributes pos); gapSincePrevSec := gapSince lastDb ts;
             quarantineSinceMs := fst <$> wakeQuarantine s !! vid;
             quarantineLastMs := snd <$> wakeQuarantine s !! vid; fixTimeMs := ts |} in
      let s := setQuarantine vid wake s in
      if quarantine wake then (s, None)
      else
        let driverId := resolveDriverIdAtTimestamp s vid ts in
        let driverName :=
          if truthy driverId then default "Traccar GPS" (driverNames s !! default "" driverId)
          else "Traccar GPS" in
        let telemetry := telemetryOf pos in
        let attributes := buildStoredAttributes telemetry (tp_attributes pos) in
        let dto := updateDto s vid driverId lastDb pos ts fromServerClock in
        if negb (validDto now dto) then (s, None)
        else
          match saveFix now link dbFails pos driverId dto (vh_companyId v) attributes s with
          | (s, None) => (s, None)
          | (s, Some position) =>
              (s, Some (mkProcessed position vid (vh_companyId v) driverId driverName telemetry attributes dto))
          end
  end.

(** [evaluateTrackerTelemetryAlerts]: [false] when Redis throws. *)
Definition alertOnce (now : Z) (key : string) (e : BridgeEffect) (s : BridgeStore) : BridgeStore :=
  let c := cache (tracking s) in
  if truthy (redis_get now key c) then s
  else send e (onTracking (λ t, t <| cache := redis_set now key "1" 3600 c |>) s).

Definition evaluateTrackerTelemetryAlerts (now : Z) (link : RedisLink) (companyId vid : string)
    (telemetry : TrackerTelemetry) (s : BridgeStore) : BridgeStore * bool :=
  match link with
  | RedisAbsent => (s, true)
  | RedisDown => (s, negb (isPowerCut telemetry || isBatteryCritical telemetry))
  | RedisUp =>
      let s :=
        if isPowerCut telemetry
        then alertOnce now ("tracker_alert:power_cut:" +:+ vid)
               (Notification companyId critical None (PowerCutNotice vid)) s
        else s in
      (if isBatteryCritical telemetry
       then alertOnce now ("tracker_alert:battery_critical:" +:+ vid)
              (Notification companyId high None (BatteryNotice vid)) s
       else s, true)
  end.

(** ** The position displayed *)

Definition currentFix (pos : TraccarPosition) (dto : UpdatePositionDto) : AnchorFix :=
  mkAnchorFix (tp_latitude pos) (tp_longitude pos) (accuracy dto) (speed dto)
    (a_motion (tp_attributes pos)) (timestamp dto).

(** A fix older than the last one of the buffer. *)
Definition isOutOfOrder (buf : list AnchorFix) (ts : Z) : bool :=
  match last buf with Some f => ts <? af_timestamp f | None => false end.

Definition pushFix (vid : string) (f : AnchorFix) (s : BridgeStore) : BridgeStore :=
  let buf := bufferOf s vid ++ [f] in
  s <| anchorBuffers := <[vid := drop (length buf - ANCHOR_BUFFER_SIZE) buf]> (anchorBuffers s) |>.

Definition stopFixOf (f : AnchorFix) : StopFix :=
  mkFix (af_latitude f) (af_longitude f) (af_accuracy f) (af_speed f) (Some (af_timestamp f)).

(** The snap to the road, tried without an anchor. *)
Definition snapToRoad (s : BridgeStore) (vid : string) (pos : TraccarPosition) : option (num * num) :=
  match matchToRoad with
  | Some matchFn =>
      if mapMatchingEnabled && negb (bool_decide (vid ∈ matchInFlight s)) then
        window ← selectMatchWindow (bufferOf s vid);
        res ← matchFn (map (λ f, (af_latitude f, af_longitude f)) window) (matchRadiuses (map stopFixOf window));
        acceptSnappedTail jm (tp_latitude pos) (tp_longitude pos) res.1 res.2
      else None
  | None => None
  end.

(** The last displayed position, kept against an isolated jump of a stopped fix. *)
Definition heldBack (s : BridgeStore) (vid : string) (f : AnchorFix) : option (num * num) :=
  if isStoppedFix f then
    shown ← lastDisplayedPosition s !! vid;
    if num_ltb ANCHOR_INITIAL_RADIUS_MIN_M
         (haversineDistance jm (af_latitude f) (af_longitude f) shown.1 shown.2)
    then Some shown else None
  else None.

(** [display]: anchor, then road, then the position held back; [None] is raw.
    [s] already has the fix in its buffer. *)
Definition chooseDisplay (s : BridgeStore) (vid : string) (pos : TraccarPosition) (f : AnchorFix)
    (suspect : bool) : option (num * num) :=
  if suspect then None
  else
    match computeAnchoredPosition jm (bufferOf s vid) with
    | Some anchor => Some anchor
    | None =>
        match snapToRoad s vid pos with
        | Some snapped => Some snapped
        | None => heldBack s vid f
        end
    end.

Definition showAt (vid : string) (pos : TraccarPosition) (display : option (num * num)) (suspect : bool)
    (s : BridgeStore) : BridgeStore :=
  match display with
  | Some p => s <| lastDisplayedPosition := <[vid := p]> (lastDisplayedPosition s) |>
  | None =>
      if suspect then s
      else s <| lastDisplayedPosition :=
             <[vid := (tp_latitude pos, tp_longitude pos)]> (lastDisplayedPosition s) |>
  end.

Definition broadcastOf (p : Processed) (pos : TraccarPosition) (suspect : bool)
    (display : option (num * num)) : Broadcast :=
  let dto := pr_dto p in
  {| b_companyId := pr_companyId p; b_vehicleId := pr_vehicleId p; b_driverId := pr_driverId p;
     b_driverName := pr_driverName p; b_latitude := tp_latitude pos; b_longitude := tp_longitude pos;
     b_displayLatitude := match display with Some d => d.1 | None => tp_latitude pos end;
     b_displayLongitude := match display with Some d => d.2 | None => tp_longitude pos end;
     b_speed := default zero (speed dto); b_heading := default zero (heading dto);
     b_altitude := default zero (altitude dto); b_accuracy := default zero (accuracy dto);
     b_suspect := suspect; b_confidence := computeConfidence (accuracy dto) suspect (speed dto);
     b_timestamp := timestamp dto; b_deliveryId := deliveryId dto |}.

(** What [handlePosition] does with a stored position. *)
Definition publishFix (now : Z) (pos : TraccarPosition) (p : Processed) (row : GpsPosition) (s : BridgeStore)
  : BridgeStore :=
  let vid := pr_vehicleId p in
  let suspect := p_suspect row in
  let s := s <| lastPositionReceivedAt := Some now |> in
  let s := send (DataUpdate (pr_companyId p) (pr_driverId p) (tp_latitude pos) (tp_longitude pos)
                   (timestamp (pr_dto p))) s in
  let f := currentFix pos (pr_dto p) in
  let outOfOrder := isOutOfOrder (bufferOf s vid) (timestamp (pr_dto p)) in
  let s := if suspect then s else pushFix vid f s in
  let display := chooseDisplay s vid pos f suspect in
  let s := showAt vid pos display suspect s in
  if outOfOrder then s else send (PositionUpdate (broadcastOf p pos suspect display)) s.

(** The rejections before the lock. *)
Definition rejected (pos : TraccarPosition) : bool :=
  negb (isValidCoordinates (tp_latitude pos) (tp_longitude pos))
  || bool_decide (tp_valid pos = Some false)
  || match a_sat (tp_attributes pos) with
     | Some n => isFinite n && num_ltb zero n && num_ltb n minSatellites
     | None => false
     end.

Definition handlePosition (now : Z) (link : RedisLink) (dbFails : bool) (pos : TraccarPosition)
    (s : BridgeStore) : BridgeStore :=
  if rejected pos then s
  else
    match storeFix now link dbFails pos s with
    | (s, None) => s
    | (s, Some p) =>
        match pr_position p with
        | None => s
        | Some row =>
            let '(s, goesOn) :=
              if bool_decide (pr_attributes p = []) then (s, true)
              else evaluateTrackerTelemetryAlerts now link (pr_companyId p) (pr_vehicleId p) (pr_telemetry p) s in
            if goesOn then publishFix now pos p row s else s
        end
    end.

(** ** Replaying the queue *)

(** [LREM key 1 entry]. *)
Fixpoint lrem (e : Queued) (l : list Queued) : list Queued :=
  match l with
  | [] => []
  | x :: l' => if decide (x = e) then l' else x :: lrem e l'
  end.

Definition stalePending (now : Z) (e : Queued) : bool := PENDING_POSITIONS_RETENTION_MS <? now - q_queuedAt e.

(** [parseQueuedTs]. *)
Definition parseQueuedTs (e : Queued) : Z :=
  match (match fixTime (q_pos e) with NoTime => deviceTime (q_pos e) | t => t end) with
  | Instant t => t
  | _ => 0
  end.

Definition toRetry (now : Z) (raw : list Queued) : list Queued :=
  sort_by parseQueuedTs (filter (λ e, stalePending now e = false) raw).

(** [dbFails] tells for which positions the database refuses the save. *)
Definition retryOne (now : Z) (dbFails : TraccarPosition → bool) (s : BridgeStore) (e : Queued) : BridgeStore :=
  let s := handlePosition now RedisUp (dbFails (q_pos e)) (q_pos e) s in
  s <| pending := lrem e (pending s) |>.

(** A run of [processPendingPositions] that was due, Redis answering throughout
    or failing from the start. *)
Definition processPendingPositions (now : Z) (link : RedisLink) (dbFails : TraccarPosition → bool)
    (s : BridgeStore) : BridgeStore :=
  let s := s <| pendingRuns := pred (pendingRuns s) |> in
  match link with
  | RedisAbsent => s
  | RedisDown => s <| pendingRuns := S (pendingRuns s) |>
  | RedisUp =>
      match pending s with
      | [] => s
      | raw =>
          let toPurge := filter (λ e, stalePending now e = true) raw in
          let s := s <| pending := foldl (λ l e, lrem e l) (pending s) toPurge |> in
          let s := foldl (retryOne now dbFails) s (toRetry now raw) in
          match pending s with
          | [] => s
          | _ => s <| pendingRuns := S (pendingRuns s) |>
          end
      end
  end.

(** A restart: the fields of the service are lost, Redis and the database stay. *)
Definition restart (s : BridgeStore) : BridgeStore :=
  s <| pendingRuns := 0%nat |> <| anchorBuffers := ∅ |> <| wakeQuarantine := ∅ |> <| silentAlerted := ∅ |>
    <| lastDisplayedPosition := ∅ |> <| matchInFlight := ∅ |> <| lastPositionReceivedAt := None |>.

(** [warmStartAnchorState]. *)
Definition warmStart (now : Z) (s : BridgeStore) (vid : string) : BridgeStore :=
  match rev (getRecentFixes now (tracking s) vid) with
  | [] => s
  | newest :: _ =>
      let fixes := getRecentFixes now (tracking s) vid in
      let anchor := computeAnchoredPosition jm fixes in
      s <| anchorBuffers := <[vid := drop (length fixes - ANCHOR_BUFFER_SIZE) fixes]> (anchorBuffers s) |>
        <| lastDisplayedPosition :=
             <[vid := default (af_latitude newest, af_longitude newest) anchor]> (lastDisplayedPosition s) |>
  end.
Definition warmStartAnchorState (now : Z) (s : BridgeStore) : BridgeStore :=
  let tracked_ vid := bool_decide (tracked s !! vid ≫= tv_traccarDeviceId ≠ None) in
  foldl (warmStart now) s
    (find_many (λ vid v, tracked_ vid && bool_decide (vh_deletedAt v = None) && vh_isActive v)
       (vehicles (tracking s))).*1.

(** ** Backfill *)

Record BackfillState := mkBackfill {
  lastBackfillPos : option GroundSpeedRef;
  backfillQuarantineSince : option Z;
  backfillQuarantineLast : option Z;
  backfillHistory : list GroundSpeedRef;
  toInsert : list GpsPosition
}.

(** The window asked of Traccar, or [None] when it is empty. *)
Definition backfillFrom (now : Z) (lastTs : option Z) : option Z :=
  let fromLimit := now - BACKFILL_MAX_HOURS * 3600000 in
  let from := default fromLimit lastTs + 1000 in
  let effectiveFrom := if fromLimit <? from then from else fromLimit in
  if now <=? effectiveFrom then None else Some effectiveFrom.

Definition lastKnown (link : RedisLink) (s : BridgeStore) (vid device : string) : option Z :=
  let stored := match link with RedisUp => lastPosition s !! device | _ => None end in
  match stored with
  | Some t => Some t
  | None => p_timestamp <$> getLastPosition (tracking s) vid false
  end.

(** The deliveries of the vehicle, in the order of the query, and the last of
    them whose window covers an instant. *)
Definition vehicleDeliveries (s : BridgeStore) (vid : string) : list (string * DeliveryColumns) :=
  filter (λ kv, bool_decide (dc_vehicleId kv.2 = Some vid) && dc_active kv.2
                && bool_decide (deliveries (tracking s) !! kv.1 ≫= dl_deletedAt = None) = true)
    (map_to_list (deliveryColumns s)).
Definition resolveDeliveryId (vehicleDeliveries : list (string * DeliveryColumns)) (ts : Z) : option string :=
  fst <$> find (λ kv, (dc_createdAt kv.2 <=? ts)
                      && match dc_completedAt kv.2 with None => true | Some t => ts <=? t end)
            (rev vehicleDeliveries).

Definition backfillTeleport (reference : option GroundSpeedRef) (pos : TraccarPosition) (ts : Z) (spd : num)
  : bool :=
  match reference with
  | None => false
  | Some r =>
      te_suspect (evaluateTeleportation jm
        (mkTeleportRef (gr_latitude r) (gr_longitude r) (gr_timestamp r) None (gr_accuracy r))
        (tp_latitude pos) (tp_longitude pos) ts (Some (accuracyOf pos)) (Some spd))
  end.

Definition keepLast {A} (n : nat) (l : list A) : list A := drop (length l - n) l.

(** One position of the answer. *)
Definition backfillStep (now : Z) (vid companyId : string) (assignments : list Assignment)
    (deliveries : list (string * DeliveryColumns)) (b : BackfillState) (pos : TraccarPosition) : BackfillState :=
  let '(ts, fromServerClock) := parseTimestampMeta now pos in
  if negb (isValidCoordinates (tp_latitude pos) (tp_longitude pos)) then b
  else if bool_decide (tp_valid pos = Some false) then b
  else
    let wake :=
      evaluateWakeFix
        {| sat := a_sat (tp_attributes pos);
           gapSincePrevSec := (λ r, secs (ts - gr_timestamp r)) <$> lastBackfillPos b;
           quarantineSinceMs := backfillQuarantineSince b; quarantineLastMs := backfillQuarantineLast b;
           fixTimeMs := ts |} in
    let b := b <| backfillQuarantineSince := v_quarantineSinceMs wake |>
               <| backfillQuarantineLast := v_quarantineLastMs wake |> in
    if quarantine wake then b
    else
      let acc := accuracyOf pos in
      let spd := fixSpeed (lastBackfillPos b) (backfillHistory b) pos ts fromServerClock in
      let suspect := backfillTeleport (lastBackfillPos b) pos ts spd in
      let reference := mkRef (tp_latitude pos) (tp_longitude pos) ts (Some acc) in
      let b :=
        if suspect then b
        else b <| lastBackfillPos := Some reference |>
               <| backfillHistory := keepLast 30 (backfillHistory b ++ [reference]) |> in
      b <| toInsert := toInsert b ++
        [{| p_latitude := tp_latitude pos; p_longitude := tp_longitude pos; p_speed := Some spd;
            p_heading := Some (orZero (tp_course pos)); p_altitude := Some (orZero (tp_altitude pos));
            p_accuracy := Some acc; p_suspect := suspect; p_timestamp := ts; p_companyId := companyId;
            p_deliveryId := resolveDeliveryId deliveries ts; p_vehicleId := vid;
            p_driverId := resolveDriver assignments ts; p_source := physical_tracker;
            p_attributes := buildStoredAttributes (telemetryOf pos) (tp_attributes pos) |}] |>.

Definition backfillRows (now : Z) (vid companyId : string) (answer : list TraccarPosition) (s : BridgeStore)
  : list GpsPosition :=
  toInsert (foldl (backfillStep now vid companyId (vehicleAssignments s vid) (vehicleDeliveries s vid))
              (mkBackfill (refOf <$> getLastPosition (tracking s) vid true) None None [] []) answer).

Definition maxTimestamp (rows : list GpsPosition) (t : Z) : Z := foldl Z.max t (map p_timestamp rows).
Definition minTimestamp (rows : list GpsPosition) (t : Z) : Z := foldl Z.min t (map p_timestamp rows).

(** The timestamps already stored in the window of the rows, and the rows that
    are not among them. *)
Definition uniqueToInsert (s : BridgeStore) (vid : string) (rows : list GpsPosition) : list GpsPosition :=
  match rows with
  | [] => []
  | r :: _ =>
      let windowStart := minTimestamp rows (p_timestamp r) in
      let windowEnd := maxTimestamp rows (p_timestamp r) in
      let existing :=
        filter (λ p, ofVehicle vid p && (windowStart <=? p_timestamp p) && (p_timestamp p <=? windowEnd) = true)
          (positions (tracking s)) in
      filter (λ r, p_timestamp r ∉ map p_timestamp existing) rows
  end.

(** The work under the lock of the device once Traccar has answered. *)
Definition backfillInsert (now : Z) (link : RedisLink) (vid device companyId : string)
    (answer : list TraccarPosition) (s : BridgeStore) : BridgeStore :=
  let rows := uniqueToInsert s vid (backfillRows now vid companyId answer s) in
  match rows with
  | [] => s
  | r :: _ =>
      let s := s <| tracking := (createMany rows (tracking s)).1 |> in
      match link with
      | RedisDown => s  (* the SET throws: the device's catch *)
      | _ =>
          let s := match link with
                   | RedisUp =>
                       s <| lastPosition := <[device := maxTimestamp rows (p_timestamp r)]> (lastPosition s) |>
                   | _ => s
                   end in
          match last (sort_by p_timestamp (filter (λ r, p_suspect r = false) rows)) with
          | Some lastReal =>
              onTracking (replayBackfillSideEffects jm now (p_driverId lastReal) vid companyId
                            (p_deliveryId lastReal) (p_latitude lastReal) (p_longitude lastReal)) s
          | None => s
          end
      end
  end.

(** [fetchPositions device from to]: the answer of Traccar, [None] when it is an
    error. *)
Definition backfillDevice (now : Z) (link : RedisLink)
    (fetchPositions : string → Z → Z → option (list TraccarPosition))
    (s : BridgeStore) (vid : string) : BridgeStore :=
  match tracked s !! vid ≫= tv_traccarDeviceId, vehicles (tracking s) !! vid with
  | Some device, Some v =>
      if String.eqb device "" || match link with RedisDown => true | _ => false end then s
      else
        match backfillFrom now (lastKnown link s vid device) with
        | None => s
        | Some from =>
            match fetchPositions device from now with
            | Some answer => backfillInsert now link vid device (vh_companyId v) answer s
            | None => s
            end
        end
  | _, _ => s
  end.

Definition performBackfill (now : Z) (link : RedisLink)
    (fetchPositions : string → Z → Z → option (list TraccarPosition)) (s : BridgeStore) : BridgeStore :=
  foldl (backfillDevice now link fetchPositions) s
    (find_many (λ vid v,
       bool_decide (tracked s !! vid ≫= tv_traccarDeviceId ≠ None)
       && bool_decide (vh_positionSource v = physical_tracker) && vh_isActive v
       && bool_decide (vh_deletedAt v = None)) (vehicles (tracking s))).*1.

(** ** Silent trackers *)

(** [fetchReachableDevices]: the last contact of each device, from the devices
    Traccar lists; without a session or an answer there is no map. *)
Definition fetchReachableDevices (answer : option (list (Z * RawTime))) : option (gmap string Z) :=
  devices ← answer;
  Some (foldl (λ m d, match d.2 with Instant t => <[string_of_Z d.1 := t]> m | _ => m end) ∅ devices).

Definition physicalVehicles (s : BridgeStore) : list (string * Vehicle) :=
  find_many (λ vid v,
    bool_decide (vh_positionSource v = physical_tracker) && vh_isActive v
    && bool_decide (vh_deletedAt v = None)
    && bool_decide (tracked s !! vid ≫= tv_driver ≠ None)) (vehicles (tracking s)).

Definition driverUserId (s : BridgeStore) (vid : string) : option string := mjoin (tracked s !! vid ≫= tv_driver).

Definition offlineTimeout (s : BridgeStore) (companyId : string) : Z :=
  match settings (tracking s) !! companyId ≫= offlineTimeoutMinutes with
  | Some 0 | None => 15
  | Some m => m
  end.

(** A delivery of the vehicle in progress, created in the last 24 hours. *)
Definition hasActiveDelivery (now : Z) (s : BridgeStore) (vid : string) : bool :=
  bool_decide (find_many (λ did d,
    dl_inProgress d && bool_decide (dl_deletedAt d = None)
    && match deliveryColumns s !! did with
       | Some c => bool_decide (dc_vehicleId c = Some vid) && (now - 24 * 60 * 60 * 1000 <=? dc_createdAt c)
       | None => false
       end) (deliveries (tracking s)) ≠ []).

Definition silenceKey (vid : string) (silenceId : Z) : string :=
  "silent_alert:" +:+ vid +:+ ":" +:+ string_of_Z silenceId.

Definition remember (vid : string) (silenceId : Z) (s : BridgeStore) : BridgeStore :=
  s <| silentAlerted := <[vid := silenceId]> (silentAlerted s) |>.

(** Whether Traccar has heard of the device within [timeout] minutes. *)
Definition stillReachable (now timeout : Z) (reachable : option (gmap string Z)) (device : option string) : bool :=
  match device, reachable with
  | Some d, Some m => match m !! d with Some t => now - t <=? timeout * 60000 | None => false end
  | _, _ => false
  end.

(** The body of the loop of [checkSilentPhysicalDevices]; [false] when Redis
    throws, which ends the pass. *)
Definition checkSilentVehicle (now : Z) (link : RedisLink) (reachable : option (gmap string Z))
    (s : BridgeStore) (vid : string) (v : Vehicle) : BridgeStore * bool :=
  if negb (truthy (driverUserId s vid)) then (s, true)
  else
    match getLastPosition (tracking s) vid false with
    | None => (s, true)
    | Some lastPos =>
        let timeout := offlineTimeout s (vh_companyId v) in
        let silenceId := p_timestamp lastPos in
        if now - p_timestamp lastPos <=? timeout * 60000 then (s, true)
        else if bool_decide (silentAlerted s !! vid = Some silenceId) then (s, true)
        else
          let alerted :=
            match link with
            | RedisUp => truthy (redis_get now (silenceKey vid silenceId) (cache (tracking s)))
            | _ => false
            end in
          match link with
          | RedisDown => (s, false)
          | _ =>
              if alerted then (remember vid silenceId s, true)
              else
                let wasDriving := num_leb SILENCE_ALERT_MIN_LAST_SPEED_MS (default zero (p_speed lastPos)) in
                if negb wasDriving && negb (hasActiveDelivery now s vid) then (remember vid silenceId s, true)
                else if stillReachable now timeout reachable (tracked s !! vid ≫= tv_traccarDeviceId) then (s, true)
                else
                  let s := remember vid silenceId s in
                  let s :=
                    match link with
                    | RedisUp =>
                        onTracking (λ t, t <| cache := redis_set now (silenceKey vid silenceId) "1"
                                                         (24 * 60 * 60) (cache t) |>) s
                    | _ => s
                    end in
                  (send (Notification (vh_companyId v) medium None
                           (SilenceNotice vid (roundMinutes (now - p_timestamp lastPos))
                              (classifySilenceCause (parseStoredTelemetry (p_attributes lastPos))))) s, true)
          end
    end.

(** A loop that a throw ends. *)
Fixpoint untilThrow {A} (f : BridgeStore → A → BridgeStore * bool) (l : list A) (s : BridgeStore) : BridgeStore :=
  match l with
  | [] => s
  | x :: l' => let '(s, ok) := f s x in if ok then untilThrow f l' s else s
  end.

Definition checkSilentPhysicalDevices (now : Z) (link : RedisLink) (reachable : option (gmap string Z))
    (s : BridgeStore) : BridgeStore :=
  untilThrow (λ s kv, checkSilentVehicle now link reachable s kv.1 kv.2) (physicalVehicles s) s.

Definition neverConnectedKey (vid : string) : string := "never_connected_alert:" +:+ vid.

Definition checkNeverConnectedVehicle (now : Z) (link : RedisLink) (s : BridgeStore) (vid : string) (v : Vehicle)
  : BridgeStore * bool :=
  match driverUserId s vid, tracked s !! vid with
  | Some userId, Some c =>
      if String.eqb userId "" then (s, true)
      else if negb (truthy (tv_traccarDeviceId c)) then (s, true)
      else if now - tv_createdAt c <? NEVER_CONNECTED_GRACE_PERIOD_MS then (s, true)
      else if bool_decide (getLastPosition (tracking s) vid false ≠ None) then (s, true)
      else
        let alert :=
          send (Notification (vh_companyId v) high (Some userId)
                  (NeverConnectedNotice vid (roundMinutes (now - tv_createdAt c)))) in
        match link with
        | RedisAbsent => (alert s, true)
        | RedisDown => (s, false)
        | RedisUp =>
            let key := neverConnectedKey vid in
            if truthy (redis_get now key (cache (tracking s))) then (s, true)
            else (alert (onTracking (λ t, t <| cache := redis_set now key "1" 86400 (cache t) |>) s), true)
        end
  | _, _ => (s, true)
  end.

Definition checkNeverConnectedDevices (now : Z) (link : RedisLink) (s : BridgeStore) : BridgeStore :=
  untilThrow (λ s kv, checkNeverConnectedVehicle now link s kv.1 kv.2) (physicalVehicles s) s.

End Bridge.
