(* ===== verification/BridgeProps.v ===== *)
(** * Traccar bridge: what happens to the positions and the alerts

    The driver a fix is given to, what a backfill stores, the queue of refused
    positions, one alert per silence, fixes that arrive late. *)

From Stdlib Require Import SpecFloat.
From S2P Require Import Prelude JsString JsNum Geo Redis Gps GpsQuality TrackingModel Tracking.
From S2P Require Import TrackingProps Bridge.

#[local] Open Scope string_scope.
#[local] Open Scope list_scope.
#[local] Open Scope Z_scope.

(** ** The driver of a fix *)

Lemma latestAssignment_max l :
  match latestAssignment l with
  | Some a => a ∈ l ∧ ∀ b, b ∈ l → va_assignedAt b ≤ va_assignedAt a
  | None => l = []
  end.
Proof.
  unfold latestAssignment. induction l as [|a l IH] using rev_ind; [done|].
  rewrite foldl_app. cbn. destruct (foldl _ None l) as [b|].
  - destruct IH as [Hb Hm]. destruct (Z.ltb_spec (va_assignedAt b) (va_assignedAt a)).
    + split; [set_solver|]. intros c [Hc|Hc%list_elem_of_singleton]%elem_of_app; [|by subst].
      specialize (Hm c Hc). lia.
    + split; [set_solver|]. intros c [Hc|Hc%list_elem_of_singleton]%elem_of_app; [by apply Hm|subst; lia].
  - subst. split; [set_solver|]. by intros c Hc%list_elem_of_singleton; subst.
Qed.

Definition inForce (ts : Z) (a : Assignment) : bool :=
  (va_assignedAt a <=? ts) && match va_unassignedAt a with None => true | Some t => ts <=? t end.

Lemma scanAssignments_head ts l :
  scanAssignments ts l = va_driverId <$> head (filter (λ a, inForce ts a = true) l).
Proof.
  induction l as [|a l IH]; [done|]. cbn [scanAssignments]. destruct (inForce ts a) eqn:E.
  - rewrite filter_cons_True by done. unfold inForce in E. apply andb_true_iff in E as [E1 ->].
    by rewrite Z.ltb_antisym, E1.
  - rewrite filter_cons_False by congruence. rewrite IH. unfold inForce in E.
    rewrite Z.ltb_antisym. apply andb_false_iff in E as [-> | ->]; [done|]. by destruct (negb _).
Qed.

(** The backfill, which reads the assignments of the vehicle once and scans them,
    gives a fix the driver that the query of the live flow gives it, as soon as
    no two assignments of the vehicle start at the same instant. *)
Theorem attribution_agrees s vid ts :
  NoDup (map va_assignedAt (filter (λ a, va_vehicleId a = vid) (assignments s))) →
  resolveDriver (vehicleAssignments s vid) ts = resolveDriverIdAtTimestamp s vid ts.
Proof.
  intros Hnd. unfold resolveDriver, resolveDriverIdAtTimestamp, vehicleAssignments.
  set (mine := filter _ (assignments s)) in *. rewrite scanAssignments_head.
  assert (Ec : filter (λ a, covers vid ts a = true) (assignments s) = filter (λ a, inForce ts a = true) mine).
  { unfold mine. rewrite list_filter_filter. apply list_filter_iff. intros a. unfold covers, inForce.
    rewrite <- andb_assoc, andb_true_iff, bool_decide_eq_true. tauto. }
  rewrite Ec. clear Ec. set (sorted := sort_by va_assignedAt mine).
  assert (Hsort : StronglySorted (key_le va_assignedAt) (filter (λ a, inForce ts a = true) sorted))
    by apply StronglySorted_filter, sort_by_sorted.
  assert (Hperm : filter (λ a, inForce ts a = true) sorted ≡ₚ filter (λ a, inForce ts a = true) mine).
  { unfold sorted. by rewrite sort_by_perm. }
  assert (Eh : head (filter (λ a, inForce ts a = true) (rev sorted))
               = last (filter (λ a, inForce ts a = true) sorted)).
  { rewrite rev_alt. change (rev_append sorted []) with (reverse sorted).
    by rewrite filter_reverse, head_reverse. }
  rewrite Eh. f_equal. clear Eh.
  pose proof (latestAssignment_max (filter (λ a, inForce ts a = true) mine)) as Hm.
  destruct (latestAssignment _) as [a|].
  - destruct Hm as [Ha Hm]. destruct (last _) as [b|] eqn:El.
    + destruct (sorted_last _ _ _ Hsort El) as [Hb Hb']. f_equal.
      rewrite Hperm in Hb. assert (E : va_assignedAt b = va_assignedAt a).
      { apply Z.le_antisymm; [by apply Hm|]. apply Hb'. by rewrite Hperm. }
      apply list_elem_of_filter in Ha as [_ Ha], Hb as [_ Hb].
      apply list_elem_of_lookup in Ha as [i Hi], Hb as [j Hj].
      assert (j = i) as ->; [|congruence].
      apply (NoDup_lookup _ _ _ (va_assignedAt a) Hnd); rewrite list_lookup_fmap;
        [by rewrite Hj; cbn; rewrite E|by rewrite Hi].
    + apply last_None in El. rewrite El in Hperm. apply Permutation_nil_l in Hperm. rewrite <- Hperm in Ha. set_solver.
  - rewrite Hm in Hperm. by apply Permutation_nil_r in Hperm as ->.
Qed.

(** ** What handling a position touches *)

(** The notice of a silence. *)
Definition isSilenceNotice (vid : string) (e : BridgeEffect) : bool :=
  match e with Notification _ _ _ (SilenceNotice v _ _) => bool_decide (v = vid) | _ => false end.
Definition quiet (e : BridgeEffect) : Prop := ∀ vid, isSilenceNotice vid e = false.

(** Positions are only added, and silences neither remembered nor notified. *)
Definition fix_frame (s s' : BridgeStore) : Prop :=
  silentAlerted s' = silentAlerted s ∧
  (∃ rows, positions (tracking s') = positions (tracking s) ++ rows) ∧
  ∃ l, sent s' = sent s ++ l ∧ Forall quiet l.

#[export] Instance fix_frame_preorder : PreOrder fix_frame.
Proof.
  split.
  - intros s. split_and!; [done|by exists []; rewrite app_nil_r|by exists []; rewrite app_nil_r].
  - intros s1 s2 s3 (E1 & [r1 R1] & l1 & L1 & Q1) (E2 & [r2 R2] & l2 & L2 & Q2). split_and!.
    + by rewrite E2.
    + exists (r1 ++ r2). by rewrite R2, R1, (assoc_L (++)).
    + exists (l1 ++ l2). by rewrite L2, L1, (assoc_L (++)), Forall_app.
Qed.

(** The same but for the fields of the last two. *)
Lemma frame_fields s s' :
  silentAlerted s' = silentAlerted s → positions (tracking s') = positions (tracking s) →
  sent s' = sent s → fix_frame s s'.
Proof. intros E1 E2 E3. split_and!; [done|exists []|exists []]; by rewrite app_nil_r. Qed.

Lemma frame_send e s : quiet e → fix_frame s (send e s).
Proof. intros H. split_and!; [done|exists []; by rewrite app_nil_r|by exists [e]; rewrite Forall_singleton]. Qed.

Lemma frame_alertOnce now key e s : quiet e → fix_frame s (alertOnce now key e s).
Proof.
  intros H. unfold alertOnce. case_match; [done|]. etrans; [|by apply frame_send]. by apply frame_fields.
Qed.

Lemma frame_queue now link pos s : fix_frame s (queuePendingPosition now link pos s).
Proof. unfold queuePendingPosition. destruct link; try done. case_match; by apply frame_fields. Qed.

Lemma frame_setQuarantine vid v s : fix_frame s (setQuarantine vid v s).
Proof. unfold setQuarantine. case_match; by apply frame_fields. Qed.

Section Frames.
Context (jm : JsMath) (isUUID4 : string → bool)
        (matchToRoad : option (list (num * num) → list num → option (option (num * num) * num)))
        (minSatellites : num) (mapMatchingEnabled : bool).

Notation handle := (handlePosition jm isUUID4 matchToRoad minSatellites mapMatchingEnabled).

Lemma frame_if (b : bool) (f : BridgeStore → BridgeStore) s :
  fix_frame s (f s) → fix_frame s (if b then f s else s).
Proof. by destruct b. Qed.

Lemma frame_alerts now link cid vid t s : fix_frame s (evaluateTrackerTelemetryAlerts now link cid vid t s).1.
Proof.
  unfold evaluateTrackerTelemetryAlerts. destruct link; try done. cbn [fst].
  etrans; [|by apply (frame_if _ (alertOnce _ _ _)), frame_alertOnce].
  by apply (frame_if _ (alertOnce _ _ _)), frame_alertOnce.
Qed.

Lemma frame_push vid f s : fix_frame s (pushFix vid f s).
Proof. by apply frame_fields. Qed.

Lemma frame_show vid pos d suspect s : fix_frame s (showAt vid pos d suspect s).
Proof. unfold showAt. repeat case_match; by apply frame_fields. Qed.

Lemma frame_publish now pos p row s : fix_frame s (publishFix jm matchToRoad mapMatchingEnabled now pos p row s).
Proof.
  unfold publishFix. cbv zeta.
  set (s1 := s <| lastPositionReceivedAt := Some now |>).
  assert (H1 : fix_frame s s1) by by apply frame_fields.
  set (s2 := send _ s1). assert (H2 : fix_frame s s2) by (etrans; [exact H1|by apply frame_send]).
  set (s3 := if p_suspect row then s2 else _).
  assert (H3 : fix_frame s s3) by (etrans; [exact H2|subst s3; case_match; [done|apply frame_push]]).
  set (s4 := showAt _ _ _ _ s3). assert (H4 : fix_frame s s4) by (etrans; [exact H3|apply frame_show]).
  case_match; [done|]. etrans; [exact H4|by apply frame_send].
Qed.

Lemma frame_save now link fails pos did dto cid attrs s :
  fix_frame s (saveFix jm now link fails pos did dto cid attrs s).1.
Proof.
  unfold saveFix. destruct fails; [apply frame_queue|].
  destruct (savePosition _ _ _ _ _ _ _) as [t row] eqn:E.
  destruct (savePosition_guarded _ _ _ _ _ _ _ _ _ E) as (_ & Hp & _).
  assert (H : fix_frame s (s <| tracking := t |>)).
  { split_and!; [done|by exists (option_list row)|exists []; by rewrite app_nil_r]. }
  destruct link; [exact H|exact H|]. etrans; [exact H|by apply frame_fields].
Qed.

Lemma frame_store now link fails pos s : fix_frame s (storeFix jm isUUID4 now link fails pos s).1.
Proof.
  unfold storeFix. destruct (parseTimestampMeta now pos) as [ts srv].
  destruct (findVehicleOfDevice s _) as [[vid v]|]; [|done]. cbv zeta.
  match goal with |- context [setQuarantine vid ?w s] =>
    assert (H : fix_frame s (setQuarantine vid w s)) by apply frame_setQuarantine;
    destruct (quarantine w); [exact H|]; set (s1 := setQuarantine vid w s) in * end.
  case_match; [exact H|]. cbn [fst].
  match goal with |- context [saveFix ?a ?b ?c ?d ?e ?f ?g ?h ?i s1] =>
    pose proof (frame_save b c d e f g h i s1) as H2; destruct (saveFix a b c d e f g h i s1) as [s2 [row|]] end;
  by etrans; [exact H|exact H2].
Qed.

Lemma frame_handle now link fails pos s : fix_frame s (handle now link fails pos s).
Proof.
  unfold handlePosition. destruct (rejected _ _); [done|].
  pose proof (frame_store now link fails pos s) as H1.
  destruct (storeFix _ _ _ _ _ _ _) as [s1 [p|]]; [|exact H1]. destruct (pr_position p) as [row|]; [|exact H1].
  cbn [fst] in H1. case_bool_decide.
  - etrans; [exact H1|apply frame_publish].
  - pose proof (frame_alerts now link (pr_companyId p) (pr_vehicleId p) (pr_telemetry p) s1) as H2.
    destruct (evaluateTrackerTelemetryAlerts _ _ _ _ _ _) as [s2 []]; cbn [fst] in H2;
      (etrans; [exact H1|]); [etrans; [exact H2|apply frame_publish]|exact H2].
Qed.

(** ** Backfill *)

Lemma positions_replay now did vid cid dl lat lng s :
  positions (replayBackfillSideEffects jm now did vid cid dl lat lng s) = positions s.
Proof.
  assert (Hg : ∀ d a s, positions (emitGeofenceEvents jm d vid lat lng cid did a s) = positions s).
  { intros d a t. unfold emitGeofenceEvents.
    assert (Hc : positions (checkGeofences jm d vid lat lng t).1 = positions t).
    { unfold checkGeofences. case_bool_decide; [done|].
      pose proof (crossGeofences_spec jm (filter (λ e, ge_vehicleId e = vid ∧ ge_deliveryId e = d)
        (geofenceEvents t)) d vid lat lng (findForDelivery d t) t) as Hx.
      destruct (crossGeofences _ _ _ _ _ _ _ _) as [t' evs]. destruct Hx as [-> _]. done. }
    destruct (checkGeofences _ _ _ _ _ _) as [t' evs]. cbn [fst] in Hc. rewrite <- Hc.
    clear Hc. revert t'. induction evs as [|[[c g] n] evs IH]; intros t'; [done|]. cbn. by rewrite IH. }
  assert (Hp : ∀ i s, positions (checkProximity jm now i vid cid lat lng s) = positions s).
  { intros i t. unfold checkProximity. repeat case_match; done. }
  unfold replayBackfillSideEffects. destruct did as [i|].
  - case_bool_decide; [|rewrite Hp]; case_match; [apply Hg|done|apply Hg|done].
  - case_match; [apply Hg|done].
Qed.

(** A position the backfill takes without condition: a GPS fix at plausible
    coordinates, of a receiver that is not short of satellites. *)
Definition firmFix (pos : TraccarPosition) : bool :=
  isValidCoordinates (tp_latitude pos) (tp_longitude pos)
  && negb (bool_decide (tp_valid pos = Some false)) && negb (weakFix (a_sat (tp_attributes pos))).

(** The row that stands for a position of the answer. *)
Definition rowOf (now : Z) (vid companyId : string) (s : BridgeStore) (pos : TraccarPosition) (r : GpsPosition)
  : Prop :=
  p_latitude r = tp_latitude pos ∧ p_longitude r = tp_longitude pos ∧
  p_timestamp r = (parseTimestampMeta now pos).1 ∧ p_vehicleId r = vid ∧ p_companyId r = companyId ∧
  p_source r = physical_tracker ∧
  p_driverId r = resolveDriver (vehicleAssignments s vid) (p_timestamp r).

Lemma backfillRows_spec now vid cid answer s :
  let rows := backfillRows jm now vid cid answer s in
  (∀ r, r ∈ rows → ∃ pos, pos ∈ answer ∧ rowOf now vid cid s pos r) ∧
  (∀ pos, pos ∈ answer → firmFix pos = true → ∃ r, r ∈ rows ∧ rowOf now vid cid s pos r).
Proof.
  unfold backfillRows. cbv zeta. set (b0 := mkBackfill _ _ _ _ _).
  set (f := backfillStep _ _ _ _ _ _).
  assert (Hstep : ∀ b pos, ∃ rows, toInsert (f b pos) = toInsert b ++ rows ∧
    (∀ r, r ∈ rows → rowOf now vid cid s pos r) ∧ (firmFix pos = true → rows ≠ [])).
  { intros b pos. subst f. unfold backfillStep, firmFix. destruct (parseTimestampMeta now pos) as [ts srv] eqn:Et.
    destruct (isValidCoordinates _ _); cbn [negb andb]; [|by exists []; rewrite app_nil_r; split_and!; [|set_solver|]].
    case_bool_decide; [by exists []; rewrite app_nil_r; split_and!; [|set_solver|]|]. cbn [negb andb].
    set (wake := evaluateWakeFix _).
    assert (Hw : weakFix (a_sat (tp_attributes pos)) = false → quarantine wake = false).
    { intros Hw. subst wake. unfold evaluateWakeFix. cbn [sat]. by rewrite Hw. }
    destruct (quarantine wake).
    { exists []. rewrite app_nil_r. split_and!; [done|set_solver|].
      intros Hf. apply negb_true_iff in Hf. by specialize (Hw Hf). }
    eexists [_]. split_and!; [eapply (f_equal (λ l, l ++ _)); by case_match| |done].
    intros r ->%list_elem_of_singleton. unfold rowOf. by rewrite Et. }
  clearbody f. assert (Hnil : toInsert b0 = []) by done. clearbody b0.
  induction answer as [|pos answer IH] using rev_ind.
  - cbn. rewrite Hnil. split; set_solver.
  - rewrite foldl_app. cbn. destruct (Hstep (foldl f b0 answer) pos) as (rows & -> & H1 & H2).
    destruct IH as [IH1 IH2]. split.
    + intros r [Hr|Hr]%elem_of_app.
      * destruct (IH1 r Hr) as (q & Hq & ?). exists q. set_solver.
      * exists pos. set_solver.
    + intros q [Hq|Hq%list_elem_of_singleton]%elem_of_app Hf.
      * destruct (IH2 q Hq Hf) as (r & Hr & ?). exists r. set_solver.
      * subst q. specialize (H2 Hf). destruct rows as [|r rows]; [done|]. exists r. set_solver.
Qed.

Lemma uniqueToInsert_spec s vid rows r :
  (∀ r, r ∈ rows → p_vehicleId r = vid) → r ∈ rows →
  r ∈ uniqueToInsert s vid rows ∨
  ∃ q, q ∈ positions (tracking s) ∧ p_vehicleId q = p_vehicleId r ∧ p_timestamp q = p_timestamp r.
Proof.
  intros Hv Hr. unfold uniqueToInsert. destruct rows as [|x rows']; [set_solver|].
  match goal with |- context [map p_timestamp ?l] => set (existing := l) end.
  destruct (decide (p_timestamp r ∈ map p_timestamp existing)) as [Hin|Hn].
  - right. apply list_elem_of_In, in_map_iff in Hin as (q & Ht & Hq%list_elem_of_In).
    subst existing. apply list_elem_of_filter in Hq as [Hq Hq'].
    unfold ofVehicle in Hq. rewrite !andb_true_iff, bool_decide_eq_true in Hq. exists q.
    split_and!; [done| |done]. rewrite (Hv r Hr). tauto.
  - left. apply list_elem_of_filter. done.
Qed.

Lemma maxTimestamp_ge rows t r : r ∈ rows → p_timestamp r ≤ maxTimestamp rows t.
Proof.
  unfold maxTimestamp. intros Hr.
  assert (H : ∀ l z, z ≤ foldl Z.max z l ∧ ∀ x, x ∈ l → x ≤ foldl Z.max z l).
  { induction l as [|y l IH]; intros z; cbn; [split; [lia|set_solver]|]. destruct (IH (Z.max z y)) as [H1 H2].
    split; [lia|]. intros x [->|Hx]%elem_of_cons; [lia|by apply H2]. }
  apply H. by apply list_elem_of_fmap_2.
Qed.

Lemma backfillFrom_after now t from : backfillFrom now (Some t) = Some from → t < from.
Proof. unfold backfillFrom. cbn. repeat case_match; intros [= <-]; rewrite ?Z.ltb_lt, ?Z.ltb_ge in *; lia. Qed.

(** C31: Whatever Traccar answers to a backfill, only rows of that answer are added,
    each with its coordinates, its time and the driver of that time; the instants
    of a vehicle stay distinct; every firm fix of the answer is stored afterwards;
    and with Redis the next backfill asks only for what follows what was added. *)
Theorem backfill_stores now link vid device cid answer s :
  let s' := backfillInsert jm now link vid device cid answer s in
  ∃ ins,
    positions (tracking s') = positions (tracking s) ++ ins ∧
    (∀ r, r ∈ ins → ∃ pos, pos ∈ answer ∧ rowOf now vid cid s pos r) ∧
    (unique (positions (tracking s)) → unique (positions (tracking s'))) ∧
    (∀ pos, pos ∈ answer → firmFix pos = true →
     ∃ q, q ∈ positions (tracking s') ∧ p_vehicleId q = vid ∧ p_timestamp q = (parseTimestampMeta now pos).1) ∧
    (link = RedisUp → ∀ r later from, r ∈ ins →
     backfillFrom later (lastPosition s' !! device) = Some from → p_timestamp r < from).
Proof.
  cbv zeta. unfold backfillInsert. destruct (backfillRows_spec now vid cid answer s) as [Hin Hall].
  set (all := backfillRows _ _ _ _ _ _) in *. cbv zeta.
  assert (Hv : ∀ r, r ∈ all → p_vehicleId r = vid).
  { intros r Hr. destruct (Hin r Hr) as (pos & _ & Hrow). apply Hrow. }
  assert (Hsub : ∀ r, r ∈ uniqueToInsert s vid all → r ∈ all).
  { intros r. unfold uniqueToInsert. destruct all; [done|]. intros Hr. by apply list_elem_of_filter in Hr as [_ Hr]. }
  pose proof (λ r, uniqueToInsert_spec s vid all r Hv) as Hu.
  set (rows := uniqueToInsert s vid all) in *.
  destruct (createMany rows (tracking s)) as [t ins] eqn:Ec.
  destruct (createMany_spec _ _ _ _ Ec) as (_ & Hp & Hsl & Huniq & Hst).
  assert (Hkey : ∀ t', positions t' = positions t → ∀ pos, pos ∈ answer → firmFix pos = true →
    ∃ q, q ∈ positions t' ∧ p_vehicleId q = vid ∧ p_timestamp q = (parseTimestampMeta now pos).1).
  { intros t' Et pos Ha Hf. rewrite Et. destruct (Hall pos Ha Hf) as (r & Hr & Hrow).
    destruct Hrow as (_ & _ & E1 & E2 & _). rewrite <- E1, <- E2. destruct (Hu r Hr) as [Hi|(q & Hq & ?)].
    - destruct (Hst r Hi) as (q & Hq & E3 & E4). eauto.
    - exists q. split; [|done]. rewrite Hp. set_solver. }
  assert (Hins : ∀ r, r ∈ ins → r ∈ rows) by (intros r Hr; eapply elem_of_submseteq; [exact Hr|by apply sublist_submseteq]).
  destruct rows as [|r0 rows'] eqn:Er.
  - exists []. rewrite app_nil_r. cbn in Ec. injection Ec as <- <-. split_and!; try done; [set_solver|by apply Hkey|set_solver].
  - assert (Hrows : ∀ r, r ∈ ins → ∃ pos, pos ∈ answer ∧ rowOf now vid cid s pos r)
      by (intros r Hr; by apply Hin, Hsub, Hins).
    exists ins. cbn [fst].
    match goal with |- context [tracking ?x] =>
      lazymatch x with s => fail | _ =>
        assert (Ht : positions (tracking x) = positions t ∧
          (link = RedisUp → lastPosition x !! device = Some (maxTimestamp (r0 :: rows') (p_timestamp r0)))) end end.
    { destruct link; cbn [fst]; [case_match| |case_match]; cbn; rewrite ?positions_replay;
        (split; [done|]); intros ?; try done; apply lookup_insert_eq. }
    destruct Ht as [Ht Hl]. rewrite !Ht. split_and!; try done.
    + by apply Hkey.
    + intros E r later from Hr. rewrite (Hl E). intros Hf%backfillFrom_after.
      pose proof (maxTimestamp_ge (r0 :: rows') (p_timestamp r0) r ltac:(by apply Hins)). lia.
Qed.

Lemma frame_pending s l : fix_frame s (s <| pending := l |>).
Proof. by apply frame_fields. Qed.

Lemma frame_foldl {A} (f : BridgeStore → A → BridgeStore) l : (∀ s x, fix_frame s (f s x)) →
  ∀ s, fix_frame s (foldl f s l).
Proof. intros Hf. induction l as [|x l IH]; intros s; [done|]. cbn. etrans; [apply Hf|apply IH]. Qed.

Lemma frame_replay now link fails s :
  fix_frame s (processPendingPositions jm isUUID4 matchToRoad minSatellites mapMatchingEnabled now link fails s).
Proof.
  unfold processPendingPositions. cbv zeta.
  set (s1 := s <| pendingRuns := pred (pendingRuns s) |>).
  assert (H1 : fix_frame s s1) by by apply frame_fields.
  destruct link; [exact H1|by apply frame_fields|].
  destruct (pending s1) as [|e l]; [exact H1|].
  set (s2 := s1 <| pending := _ |>). assert (H2 : fix_frame s s2) by (etrans; [exact H1|apply frame_pending]).
  set (s3 := foldl _ s2 _).
  assert (H3 : fix_frame s s3).
  { etrans; [exact H2|]. apply frame_foldl. intros t x. unfold retryOne. etrans; [apply frame_handle|apply frame_pending]. }
  case_match; [exact H3|]. etrans; [exact H3|by apply frame_fields].
Qed.

Lemma frame_onTracking f s : positions (f (tracking s)) = positions (tracking s) → fix_frame s (onTracking f s).
Proof. intros H. by apply frame_fields. Qed.

Lemma frame_backfillInsert now link vid device cid answer s :
  fix_frame s (backfillInsert jm now link vid device cid answer s).
Proof.
  destruct (backfill_stores now link vid device cid answer s) as (ins & Hp & _).
  split_and!; [|by exists ins|]; unfold backfillInsert; cbv zeta;
    (destruct (uniqueToInsert _ _ _); [|destruct link; repeat case_match]); try done;
    exists []; by rewrite app_nil_r.
Qed.

Lemma frame_backfill now link fetch s : fix_frame s (performBackfill jm now link fetch s).
Proof.
  unfold performBackfill. apply frame_foldl. intros t vid. unfold backfillDevice.
  repeat case_match; first [done|apply frame_backfillInsert].
Qed.

Lemma frame_neverConnected now link s : fix_frame s (checkNeverConnectedDevices now link s).
Proof.
  unfold checkNeverConnectedDevices. set (l := physicalVehicles s). clearbody l. revert s.
  induction l as [|[vid v] l IH]; intros s; [done|]. cbn [untilThrow].
  assert (H : fix_frame s (checkNeverConnectedVehicle now link s vid v).1).
  { unfold checkNeverConnectedVehicle. repeat case_match; try done; cbn [fst].
    - by apply frame_send.
    - etrans; [|by apply frame_send]. by apply frame_onTracking. }
  cbn [fst snd]. destruct (checkNeverConnectedVehicle _ _ _ _ _) as [s1 []]; [|exact H]. etrans; [exact H|apply IH].
Qed.

(** ** One alert per silence *)

(** What reaches the bridge, each with the clock of the server then. *)
Inductive BridgeEvent :=
  | FixReceived (now : Z) (link : RedisLink) (dbFails : bool) (pos : TraccarPosition)
  | Replayed (now : Z) (link : RedisLink) (dbFails : TraccarPosition → bool)
  | Backfilled (now : Z) (link : RedisLink) (fetchPositions : string → Z → Z → option (list TraccarPosition))
  | SilencePass (now : Z) (link : RedisLink) (reachable : option (gmap string Z))
  | NeverConnectedPass (now : Z) (link : RedisLink).

Definition react (e : BridgeEvent) (s : BridgeStore) : BridgeStore :=
  match e with
  | FixReceived now link fails pos => handle now link fails pos s
  | Replayed now link fails =>
      if (pendingRuns s =? 0)%nat then s
      else processPendingPositions jm isUUID4 matchToRoad minSatellites mapMatchingEnabled now link fails s
  | Backfilled now link fetch => performBackfill jm now link fetch s
  | SilencePass now link reachable => checkSilentPhysicalDevices now link reachable s
  | NeverConnectedPass now link => checkNeverConnectedDevices now link s
  end.

Definition lastFixTime (s : BridgeStore) (vid : string) : option Z :=
  p_timestamp <$> getLastPosition (tracking s) vid false.
Definition silenceNotices (vid : string) (s : BridgeStore) : nat :=
  length (filter (λ e, isSilenceNotice vid e = true) (sent s)).

(** No more notices than [n], or one more and the silence since [t] remembered. *)
Definition toldOnce (vid : string) (n : nat) (t : Z) (s : BridgeStore) : Prop :=
  (silenceNotices vid s ≤ n)%nat ∨ (silenceNotices vid s ≤ S n)%nat ∧ silentAlerted s !! vid = Some t.

Lemma frame_toldOnce vid n t s s' : fix_frame s s' → toldOnce vid n t s → toldOnce vid n t s'.
Proof.
  intros (E1 & _ & l & E3 & Hq). unfold toldOnce, silenceNotices. rewrite E1, E3, filter_app, length_app.
  rewrite (filter_none _ l); [by rewrite Nat.add_0_r|].
  eapply Forall_impl; [exact Hq|]. intros e He. rewrite (He vid). done.
Qed.

Lemma silentVehicle_told now link reachable s u v w n t :
  (u = w → ∀ t', lastFixTime s w = Some t' → t' = t) →
  toldOnce w n t s → toldOnce w n t (checkSilentVehicle now link reachable s u v).1.
Proof.
  intros Ht Hold. unfold checkSilentVehicle.
  destruct (negb _); [done|]. unfold lastFixTime in Ht.
  destruct (getLastPosition (tracking s) u false) as [p|] eqn:El; [|done]. cbv zeta.
  case_match; [done|]. case_bool_decide as Hs; [done|].
  assert (Hmem : toldOnce w n t (remember u (p_timestamp p) s)).
  { destruct (decide (u = w)) as [->|Hne].
    - rewrite El in Ht. specialize (Ht eq_refl _ eq_refl). destruct Hold as [?|[? E]]; [by left|].
      right. split; [done|]. cbn. rewrite lookup_insert_eq. by rewrite Ht.
    - destruct Hold as [?|[? ?]]; [by left|right]. split; [done|]. cbn. by rewrite lookup_insert_ne. }
  assert (Hsend : ∀ s1 cid m c, silentAlerted s1 = silentAlerted (remember u (p_timestamp p) s) → sent s1 = sent s →
    toldOnce w n t (send (Notification cid medium None (SilenceNotice u m c)) s1)).
  { intros s1 cid m c E1 E2. unfold toldOnce, silenceNotices, send. cbn. rewrite E2, E1, filter_app, length_app.
    destruct (decide (u = w)) as [->|Hne].
    - rewrite El in Ht. specialize (Ht eq_refl _ eq_refl). subst t. right. destruct Hold as [Hn|[_ E]]; [|done].
      rewrite filter_cons_True by (cbn; by rewrite bool_decide_eq_true_2). cbn. rewrite lookup_insert_eq.
      unfold silenceNotices in Hn. split; [lia|done].
    - rewrite filter_cons_False by (cbn; by rewrite bool_decide_eq_false_2). cbn. rewrite Nat.add_0_r.
      rewrite lookup_insert_ne by done. exact Hold. }
  repeat (case_match; try done); by apply Hsend.
Qed.

(** A check leaves the positions alone. *)
Lemma silentVehicle_positions now link reachable s u v :
  positions (tracking (checkSilentVehicle now link reachable s u v).1) = positions (tracking s).
Proof. unfold checkSilentVehicle. cbv zeta. repeat (case_match; try done). Qed.

Lemma silencePass_told now link reachable s w n t :
  (∀ t', lastFixTime s w = Some t' → t' = t) →
  toldOnce w n t s → toldOnce w n t (checkSilentPhysicalDevices now link reachable s).
Proof.
  unfold checkSilentPhysicalDevices. set (l := physicalVehicles s). clearbody l. revert s.
  induction l as [|[u v] l IH]; intros s Ht Hold; [done|]. cbn [untilThrow fst snd].
  pose proof (silentVehicle_told now link reachable s u v w n t (λ _, Ht) Hold) as H1.
  pose proof (silentVehicle_positions now link reachable s u v) as H2.
  destruct (checkSilentVehicle _ _ _ _ _ _) as [s1 []]; [|exact H1]. apply IH; [|exact H1].
  unfold lastFixTime, getLastPosition in *. cbn [fst] in H2. by rewrite H2.
Qed.

Lemma react_positions e s : ∃ rows, positions (tracking (react e s)) = positions (tracking s) ++ rows.
Proof.
  destruct e as [now link fails pos|now link fails|now link fetch|now link reachable|now link]; cbn [react].
  - apply frame_handle.
  - case_match; [exists []; by rewrite app_nil_r|]. apply frame_replay.
  - apply frame_backfill.
  - exists []. rewrite app_nil_r. unfold checkSilentPhysicalDevices. generalize (physicalVehicles s).
    intros l. revert s. induction l as [|[u v] l IH]; intros s; [done|]. cbn [untilThrow fst snd].
    pose proof (silentVehicle_positions now link reachable s u v) as H2.
    destruct (checkSilentVehicle _ _ _ _ _ _) as [s1 []]; [|exact H2]. by rewrite IH.
  - apply frame_neverConnected.
Qed.

(** The last fix only gets later. *)
Lemma lastFixTime_mono s s' vid t :
  (∃ rows, positions (tracking s') = positions (tracking s) ++ rows) →
  lastFixTime s vid = Some t → ∃ t', lastFixTime s' vid = Some t' ∧ t ≤ t'.
Proof.
  intros [rows Hp]. unfold lastFixTime, getLastPosition.
  destruct (latest _ (positions (tracking s))) as [p|] eqn:E; [|done]. intros [= <-].
  destruct (latest_Some _ _ _ E) as (Hin & HP & _).
  assert (Hin' : p ∈ positions (tracking s')) by (rewrite Hp; set_solver).
  destruct (latest _ (positions (tracking s'))) as [q|] eqn:E'.
  - destruct (latest_Some _ _ _ E') as (_ & _ & Hm). eauto.
  - by rewrite (latest_None _ _ _ E' Hin') in HP.
Qed.

Lemma react_told e s w n t :
  (∀ t', lastFixTime s w = Some t' → t' = t) → toldOnce w n t s → toldOnce w n t (react e s).
Proof.
  intros Ht Hold. destruct e; cbn [react].
  - eapply frame_toldOnce, Hold. apply frame_handle.
  - case_match; [done|]. eapply frame_toldOnce, Hold. apply frame_replay.
  - eapply frame_toldOnce, Hold. apply frame_backfill.
  - by apply silencePass_told.
  - eapply frame_toldOnce, Hold. apply frame_neverConnected.
Qed.

(** C32: However many passes, fixes, replays and backfills follow one another, and
    whatever Redis answers, a vehicle whose last fix stays the same is reported
    silent at most once. *)
Theorem one_alert_per_silence es s vid t :
  lastFixTime s vid = Some t → lastFixTime (foldl (λ s e, react e s) s es) vid = Some t →
  (silenceNotices vid (foldl (λ s e, react e s) s es) ≤ S (silenceNotices vid s))%nat.
Proof.
  intros H0 Hend.
  assert (Hmono : ∀ es s t1, lastFixTime s vid = Some t1 →
    ∃ t2, lastFixTime (foldl (λ s e, react e s) s es) vid = Some t2 ∧ t1 ≤ t2).
  { clear. induction es as [|e es IH]; intros s t1 H; [eauto with lia|]. cbn.
    destruct (lastFixTime_mono s (react e s) vid t1 (react_positions e s) H) as (t2 & H2 & Hle).
    destruct (IH _ _ H2) as (t3 & H3 & ?). exists t3. split; [done|lia]. }
  assert (Hold : toldOnce vid (silenceNotices vid s) t s) by by left.
  generalize dependent (silenceNotices vid s). intros n Hold.
  revert s H0 Hend Hold. induction es as [|e es IH]; intros s H0 Hend Hold; cbn in *.
  - destruct Hold as [|[? _]]; lia.
  - destruct (lastFixTime_mono s (react e s) vid t (react_positions e s) H0) as (t1 & H1 & Hle).
    destruct (Hmono es _ _ H1) as (t2 & H2 & Hle2). assert (t1 = t) as -> by (simplify_eq; lia).
    apply (IH (react e s)); [done|done|]. apply react_told; [|done]. intros t' E. congruence.
Qed.

(** ** The queue of refused positions *)

(** The queue and its due runs, which nothing but a refused save and a replay
    changes. *)
Definition queueOf (s : BridgeStore) : list Queued * nat := (pending s, pendingRuns s).

Lemma queue_frame_alertOnce now key e s : queueOf (alertOnce now key e s) = queueOf s.
Proof. unfold alertOnce. by case_match. Qed.

Lemma queue_frame_publish now pos p row s :
  queueOf (publishFix jm matchToRoad mapMatchingEnabled now pos p row s) = queueOf s.
Proof. unfold publishFix, showAt. cbv zeta. repeat (case_match; try done). Qed.

Lemma queue_frame_alerts now link cid vid t s :
  queueOf (evaluateTrackerTelemetryAlerts now link cid vid t s).1 = queueOf s.
Proof.
  unfold evaluateTrackerTelemetryAlerts. destruct link; try done. cbn [fst].
  repeat case_match; by rewrite ?queue_frame_alertOnce.
Qed.

(** What [queuePendingPosition] may have done to a queue. *)
Definition queued (now : Z) (s s' : BridgeStore) : Prop :=
  queueOf s' = queueOf s ∨ ∃ pos, queueOf s' = queueOf (queuePendingPosition now RedisUp pos s).

(** What it does is a function of the queue. *)
Definition push (now : Z) (pos : TraccarPosition) (q : list Queued * nat) : list Queued * nat :=
  let l := take PENDING_POSITIONS_LIMIT (mkQueued pos now :: q.1) in
  (l, if (length l =? 1)%nat then S q.2 else q.2).

Lemma queue_push now pos s : queueOf (queuePendingPosition now RedisUp pos s) = push now pos (queueOf s).
Proof. unfold queuePendingPosition, queueOf, push. cbn. by case_match. Qed.

Lemma queued_queueOf now s1 s2 s' : queueOf s1 = queueOf s2 → queued now s1 s' → queued now s2 s'.
Proof.
  unfold queued. intros E [H|[pos H]]; [left; congruence|right; exists pos].
  by rewrite H, !queue_push, E.
Qed.

Lemma queue_save now link fails pos did dto cid attrs s :
  let r := saveFix jm now link fails pos did dto cid attrs s in
  queued now s r.1 ∧ (fails = false → queueOf r.1 = queueOf s).
Proof.
  cbv zeta. unfold saveFix. destruct fails; cbn [fst].
  - split; [|done]. unfold queued. destruct link; [by left|by left|by right; exists pos].
  - destruct (savePosition _ _ _ _ _ _ _) as [t row].
    destruct link; cbn [fst queuePendingPosition]; (split; [by left|done]).
Qed.

Lemma queue_store now link fails pos s :
  let r := storeFix jm isUUID4 now link fails pos s in
  queued now s r.1 ∧ (fails = false → queueOf r.1 = queueOf s).
Proof.
  cbv zeta. unfold storeFix. destruct (parseTimestampMeta now pos) as [ts srv].
  destruct (findVehicleOfDevice s _) as [[vid v]|]; [|by split; [left|]]. cbv zeta.
  match goal with |- context [setQuarantine vid ?w s] =>
    assert (H : queueOf (setQuarantine vid w s) = queueOf s) by (unfold setQuarantine; by case_match);
    set (s1 := setQuarantine vid w s) in * ; destruct (quarantine w); [by split; [left|]|] end.
  case_match; [by split; [left|]|].
  match goal with |- context [saveFix ?a ?b ?c ?d ?e ?f ?g ?h ?i s1] =>
    destruct (queue_save b c d e f g h i s1) as [H1 H2]; destruct (saveFix a b c d e f g h i s1) as [s2 [row|]] end;
  cbn [fst] in *; (split; [by eapply queued_queueOf|intros E; rewrite H2 by done; done]).
Qed.

Lemma queue_handle now link fails pos s :
  queued now s (handle now link fails pos s) ∧ (fails = false → queueOf (handle now link fails pos s) = queueOf s).
Proof.
  unfold handlePosition. destruct (rejected _ _); [by split; [left|]|].
  destruct (queue_store now link fails pos s) as [H1 H2].
  destruct (storeFix _ _ _ _ _ _ _) as [s1 [p|]]; cbn [fst] in *; [|done].
  destruct (pr_position p) as [row|]; [|done].
  assert (Hend : ∀ s2, queueOf s2 = queueOf s1 → queued now s s2 ∧ (fails = false → queueOf s2 = queueOf s)).
  { intros s2 E. split; [|intros Ef; by rewrite E, H2]. destruct H1 as [H1|[q H1]]; [left|right; exists q]; congruence. }
  pose proof (queue_frame_alerts now link (pr_companyId p) (pr_vehicleId p) (pr_telemetry p) s1) as H3.
  case_bool_decide; [apply Hend, queue_frame_publish|].
  destruct (evaluateTrackerTelemetryAlerts _ _ _ _ _ _) as [s2 []]; cbn [fst] in H3; apply Hend;
    [by rewrite queue_frame_publish|done].
Qed.

(** While anything is queued, a replay is due. *)
Definition replayDue (s : BridgeStore) : Prop := pending s ≠ [] → (0 < pendingRuns s)%nat.

Lemma queued_due now s s' : queued now s s' → replayDue s → replayDue s'.
Proof.
  unfold replayDue, queued. intros [H|[pos H]]; [|rewrite queue_push in H]; unfold push, queueOf in H;
    injection H as -> ->; [done|].
  cbn [fst snd]. destruct (pending s) as [|e l]; [cbn; lia|].
  intros H _. case_match; [lia|]. by apply H.
Qed.

Lemma queue_foldl {A} (f : BridgeStore → A → BridgeStore) l : (∀ s x, queueOf (f s x) = queueOf s) →
  ∀ s, queueOf (foldl f s l) = queueOf s.
Proof. intros Hf. induction l as [|x l IH]; intros s; [done|]. cbn. by rewrite IH. Qed.

Lemma queue_untilThrow {A} (f : BridgeStore → A → BridgeStore * bool) l :
  (∀ s x, queueOf (f s x).1 = queueOf s) → ∀ s, queueOf (untilThrow f l s) = queueOf s.
Proof.
  intros Hf. induction l as [|x l IH]; intros s; [done|]. cbn. specialize (Hf s x).
  destruct (f s x) as [s1 []]; cbn in Hf; [by rewrite IH|done].
Qed.

(** The events that neither receive a fix nor replay the queue. *)
Lemma queue_others e s :
  match e with FixReceived _ _ _ _ | Replayed _ _ _ => True | _ => queueOf (react e s) = queueOf s end.
Proof.
  destruct e; cbn [react]; try done.
  - apply queue_foldl. intros t vid. unfold backfillDevice, backfillInsert.
    repeat (case_match; try done).
  - apply queue_untilThrow. intros t [vid v]. cbn [fst snd]. unfold checkSilentVehicle.
    cbv zeta. repeat (case_match; try done).
  - apply queue_untilThrow. intros t [vid v]. cbn [fst snd]. unfold checkNeverConnectedVehicle.
    repeat (case_match; try done).
Qed.

(** Redis stays configured, as [BridgeStore] assumes. *)
Definition redisKept (e : BridgeEvent) : bool :=
  match e with Replayed _ RedisAbsent _ => false | _ => true end.

Lemma react_due e s : redisKept e = true → replayDue s → replayDue (react e s).
Proof.
  intros Hk Hd. pose proof (queue_others e s) as Ho.
  assert (Hkeep : ∀ s', queueOf s' = queueOf s → replayDue s').
  { intros s' [= E1 E2]. unfold replayDue. by rewrite E1, E2. }
  destruct e as [now link fails pos|now link fails|now link fetch|now link reachable|now link];
    try (by apply Hkeep); cbn [react].
  - by eapply queued_due, Hd; apply queue_handle.
  - case_match; [done|]. unfold processPendingPositions. destruct link; [done| |].
    + intros _. cbn. lia.
    + cbv zeta. destruct (pending (s <| pendingRuns := pred (pendingRuns s) |>)) as [|x l] eqn:Ex.
      * intros H1. by destruct H1.
      * match goal with |- context [foldl ?f ?a ?b] => set (s3 := foldl f a b) end.
        destruct (pending s3) eqn:E3; [intros H1; by destruct H1|]. intros _. cbn. lia.
Qed.

(** From an empty queue, or any queue with a replay due, no event leaves a
    position queued without a replay to come. *)
Theorem queue_always_replayed es s :
  forallb redisKept es = true → replayDue s → replayDue (foldl (λ s e, react e s) s es).
Proof.
  revert s. induction es as [|e es IH]; intros s; [done|]. cbn. rewrite andb_true_iff.
  intros [H1 H2] Hd. by apply IH, react_due.
Qed.

(** A restart breaks this: the list of Redis survives and its replay does not,
    and since a replay is only planned when a list gets its first entry, nothing
    that follows ever handles the old entries or purges them. *)
Theorem restart_strands_queue es s :
  pending s ≠ [] →
  let s' := foldl (λ s e, react e s) (restart s) es in
  pendingRuns s' = 0%nat ∧
  (pending s' = pending s ∨ ∃ new, pending s' = take PENDING_POSITIONS_LIMIT (new ++ pending s)).
Proof.
  intros Hne. cbv zeta.
  assert (H : ∀ es s1, (pendingRuns s1 = 0%nat) → pending s1 ≠ [] →
    let s' := foldl (λ s e, react e s) s1 es in
    pendingRuns s' = 0%nat ∧ (pending s' = pending s1 ∨
      ∃ new, pending s' = take PENDING_POSITIONS_LIMIT (new ++ pending s1))).
  { clear. induction es as [|e es IH]; intros s1 Hr Hp; [by split; [|left]|]. cbn.
    assert (Hq : queueOf (react e s1) = queueOf s1 ∨ ∃ now pos, queueOf (react e s1) = push now pos (queueOf s1)).
    { pose proof (queue_others e s1) as Ho.
      destruct e as [now link fails pos|now link fails|now link fetch|now link reachable|now link];
        try (by left); cbn [react].
      - destruct (queue_handle now link fails pos s1) as [[Hq|[q Hq]] _]; [by left|right].
        exists now, q. by rewrite Hq, queue_push.
      - left. by rewrite Hr. }
    destruct Hq as [[= E1 E2]|(now & pos & Hq)].
    - rewrite <- E1. apply IH; [by rewrite E2|by rewrite E1].
    - unfold push, queueOf in Hq. pose proof (f_equal fst Hq) as E1. pose proof (f_equal snd Hq) as E2.
      cbn [fst snd] in E1, E2. clear Hq.
      assert (Hl : (length (take PENDING_POSITIONS_LIMIT (mkQueued pos now :: pending s1)) =? 1)%nat = false).
      { destruct (pending s1) as [|x l]; [done|]. apply Nat.eqb_neq. unfold PENDING_POSITIONS_LIMIT. cbn. lia. }
      rewrite Hl, Hr in E2.
      destruct (IH (react e s1) E2) as [H1 H2].
      { rewrite E1. unfold PENDING_POSITIONS_LIMIT. done. }
      split; [done|]. right. destruct H2 as [H2|[new H2]].
      + exists [mkQueued pos now]. by rewrite H2, E1.
      + exists (new ++ [mkQueued pos now]). rewrite H2, E1, <- (assoc_L (++)). cbn [app].
        by rewrite !take_app, take_take, (Nat.min_l (_ - _)%nat _) by lia. }
  exact (H es (restart s) eq_refl Hne).
Qed.

(** ** A replay that the database accepts *)

Definition withQueue (q : list Queued * nat) (s : BridgeStore) : BridgeStore :=
  s <| pending := q.1 |> <| pendingRuns := q.2 |>.

Lemma pending_alertOnce q now key e s : alertOnce now key e (withQueue q s) = withQueue q (alertOnce now key e s).
Proof. unfold alertOnce. cbn. by case_match. Qed.

Lemma pending_alerts q now cid vid t s :
  evaluateTrackerTelemetryAlerts now RedisUp cid vid t (withQueue q s)
  = (withQueue q (evaluateTrackerTelemetryAlerts now RedisUp cid vid t s).1, true).
Proof.
  unfold evaluateTrackerTelemetryAlerts. cbv zeta. cbn [fst].
  destruct (isPowerCut t), (isBatteryCritical t); rewrite ?pending_alertOnce; reflexivity.
Qed.

Lemma pending_show q vid pos d suspect s :
  showAt vid pos d suspect (withQueue q s) = withQueue q (showAt vid pos d suspect s).
Proof. unfold showAt. by repeat case_match. Qed.

Lemma pending_publish q now pos p row s :
  publishFix jm matchToRoad mapMatchingEnabled now pos p row (withQueue q s)
  = withQueue q (publishFix jm matchToRoad mapMatchingEnabled now pos p row s).
Proof.
  set (vid := pr_vehicleId p). set (f := currentFix pos (pr_dto p)).
  set (s2 := send (DataUpdate (pr_companyId p) (pr_driverId p) (tp_latitude pos) (tp_longitude pos)
                     (timestamp (pr_dto p))) (s <| lastPositionReceivedAt := Some now |>)).
  set (s3 := if p_suspect row then s2 else pushFix vid f s2).
  set (d := chooseDisplay jm matchToRoad mapMatchingEnabled s3 vid pos f (p_suspect row)).
  transitivity
    (let s4 := showAt vid pos d (p_suspect row) (withQueue q s3) in
     if isOutOfOrder (bufferOf s2 vid) (timestamp (pr_dto p)) then s4
     else send (PositionUpdate (broadcastOf p pos (p_suspect row) d)) s4).
  { unfold publishFix, d, s3. cbv zeta. by destruct (p_suspect row). }
  cbv zeta. rewrite pending_show. unfold publishFix. cbv zeta. fold vid f s2 s3 d.
  by destruct (isOutOfOrder _ _).
Qed.

Lemma pending_store q now pos s :
  storeFix jm isUUID4 now RedisUp false pos (withQueue q s)
  = (withQueue q (storeFix jm isUUID4 now RedisUp false pos s).1,
     (storeFix jm isUUID4 now RedisUp false pos s).2).
Proof.
  unfold storeFix. destruct (parseTimestampMeta now pos) as [ts srv].
  change (findVehicleOfDevice (withQueue q s) (string_of_Z (deviceId pos)))
    with (findVehicleOfDevice s (string_of_Z (deviceId pos))).
  destruct (findVehicleOfDevice s _) as [[vid v]|]; [|done]. cbv zeta.
  change (tracking (withQueue q s)) with (tracking s).
  change (wakeQuarantine (withQueue q s)) with (wakeQuarantine s).
  match goal with |- context [setQuarantine vid ?w s] => set (wake := w) end.
  assert (E1 : setQuarantine vid wake (withQueue q s) = withQueue q (setQuarantine vid wake s))
    by (unfold setQuarantine; by case_match).
  rewrite E1. set (s1 := setQuarantine vid wake s). clearbody s1. clear E1.
  destruct (quarantine wake); [done|].
  change (resolveDriverIdAtTimestamp (withQueue q s1)) with (resolveDriverIdAtTimestamp s1).
  change (updateDto jm (withQueue q s1)) with (updateDto jm s1).
  change (driverNames (withQueue q s1)) with (driverNames s1).
  case_match; [done|]. unfold saveFix. change (tracking (withQueue q s1)) with (tracking s1).
  match goal with |- context [savePosition jm ?a ?b ?c ?d ?e ?f] => destruct (savePosition jm a b c d e f) as [t row] end.
  reflexivity.
Qed.

Lemma pending_handle q now pos s :
  handle now RedisUp false pos (withQueue q s) = withQueue q (handle now RedisUp false pos s).
Proof.
  unfold handlePosition. destruct (rejected _ _); [done|]. rewrite pending_store.
  destruct (storeFix _ _ _ _ _ _ _) as [s1 [p|]]; cbn [fst snd]; [|done].
  destruct (pr_position p) as [row|]; [|done]. case_bool_decide; [apply pending_publish|].
  rewrite pending_alerts. destruct (evaluateTrackerTelemetryAlerts _ _ _ _ _ _) as [s2 b] eqn:E.
  assert (b = true) as -> by (unfold evaluateTrackerTelemetryAlerts in E; cbv zeta in E; congruence).
  cbn [fst]. apply pending_publish.
Qed.

Lemma lrem_perm e l : e ∈ l → e :: lrem e l ≡ₚ l.
Proof.
  induction l as [|x l IH]; [set_solver|]. cbn. case_decide as E; [by subst|].
  intros [->|H]%elem_of_cons; [done|]. rewrite Permutation_swap. by rewrite IH.
Qed.

Lemma lrem_all l : ∀ l', l' ≡ₚ l → foldl (λ q e, lrem e q) l' l = [].
Proof.
  induction l as [|e l IH]; intros l' Hp; cbn; [by apply Permutation_nil_r in Hp|].
  apply IH. apply (Permutation_cons_inv (a := e)). rewrite lrem_perm; [done|]. rewrite Hp. set_solver.
Qed.

Notation retry := (retryOne jm isUUID4 matchToRoad minSatellites mapMatchingEnabled).

(** Once the database accepts again, a replay hands every entry that is not older
    than an hour to [handlePosition], in the order of the fixes, and leaves the
    queue empty. *)
Theorem replay_drains now s :
  let s' := processPendingPositions jm isUUID4 matchToRoad minSatellites mapMatchingEnabled now RedisUp
              (λ _, false) s in
  let replayed := foldl (λ s e, handle now RedisUp false (q_pos e) s) s (toRetry now (pending s)) in
  pending s' = [] ∧ tracking s' = tracking replayed ∧ sent s' = sent replayed ∧
  anchorBuffers s' = anchorBuffers replayed ∧ lastDisplayedPosition s' = lastDisplayedPosition replayed ∧
  (∃ purged, purged ++ toRetry now (pending s) ≡ₚ pending s ∧
             ∀ e, e ∈ purged → PENDING_POSITIONS_RETENTION_MS < now - q_queuedAt e) ∧
  StronglySorted (key_le parseQueuedTs) (toRetry now (pending s)).
Proof.
  cbv zeta.
  assert (Hfold : ∀ l q t, foldl (retry now (λ _, false)) (withQueue q t) l
    = withQueue (foldl (λ q e, lrem e q) q.1 l, q.2) (foldl (λ s e, handle now RedisUp false (q_pos e) s) t l)).
  { induction l as [|e l IH]; intros [q n] t; [done|]. cbn [foldl].
    assert (E : retry now (λ _, false) (withQueue (q, n) t) e
                = withQueue (lrem e q, n) (handle now RedisUp false (q_pos e) t)).
    { unfold retryOne. by rewrite pending_handle. }
    rewrite E. apply (IH (lrem e q, n)). }
  set (raw := pending s). set (toPurge := filter (λ e, stalePending now e = true) raw).
  assert (Hperm : toPurge ++ toRetry now raw ≡ₚ raw).
  { unfold toRetry, toPurge. rewrite sort_by_perm. clear. induction raw as [|e l IH]; [done|].
    destruct (stalePending now e) eqn:E.
    - rewrite filter_cons_True by done. rewrite (filter_cons_False _ e) by congruence. cbn. by rewrite IH.
    - rewrite filter_cons_False by congruence. rewrite (filter_cons_True _ e) by done.
      by rewrite <- Permutation_middle, IH. }
  assert (E : processPendingPositions jm isUUID4 matchToRoad minSatellites mapMatchingEnabled now RedisUp (λ _, false) s
    = withQueue ([], pred (pendingRuns s))
        (foldl (λ s e, handle now RedisUp false (q_pos e) s) s (toRetry now raw))).
  { unfold processPendingPositions. cbv zeta.
    change (pending (s <| pendingRuns := pred (pendingRuns s) |>)) with raw.
    assert (Hp : toPurge = filter (λ e, stalePending now e = true) raw) by done.
    assert (Hraw : pending s = raw) by done. clearbody toPurge raw.
    destruct raw as [|e l] eqn:Er.
    - cbn. unfold withQueue. cbn. destruct s. cbn in *. by subst.
    - rewrite <- Er in *. rewrite <- Hp.
      match goal with |- context [foldl (retry now (λ _, false)) ?a (toRetry now raw)] =>
        change a with (withQueue (foldl (λ q e, lrem e q) raw toPurge, pred (pendingRuns s)) s) end.
      rewrite Hfold. cbn [fst snd]. rewrite <- foldl_app, lrem_all by (symmetry; exact Hperm). done. }
  rewrite E. split_and!; try done.
  - exists toPurge. split; [done|]. intros e. unfold toPurge. rewrite list_elem_of_filter.
    intros [H _]. by apply Z.ltb_lt.
  - apply sort_by_sorted.
Qed.

(** ** What is broadcast *)

Lemma savePosition_row did dto cid src attrs t t' row :
  savePosition jm did dto cid src attrs t = (t', Some row) →
  row ∈ positions t' ∧ ∃ c suspect, row = positionRow did dto c src attrs suspect.
Proof.
  intros H. destruct (savePosition_guarded _ _ _ _ _ _ _ _ _ H) as (_ & Hp & _).
  split; [rewrite Hp; set_solver|]. revert H. unfold savePosition. cbv zeta.
  repeat case_match; intros [= _ <-]; eauto.
Qed.

(** The fields of the display, which storing a fix leaves alone. *)
Definition displayOf (s : BridgeStore) :=
  (sent s, anchorBuffers s, lastDisplayedPosition s, matchInFlight s).

Lemma storeFix_Some now link fails pos s s1 p :
  storeFix jm isUUID4 now link fails pos s = (s1, Some p) →
  displayOf s1 = displayOf s ∧ timestamp (pr_dto p) = (parseTimestampMeta now pos).1 ∧
  ∀ row, pr_position p = Some row →
    row ∈ positions (tracking s1) ∧ p_vehicleId row = pr_vehicleId p ∧
    p_timestamp row = timestamp (pr_dto p) ∧ p_latitude row = tp_latitude pos ∧ p_longitude row = tp_longitude pos.
Proof.
  unfold storeFix. destruct (parseTimestampMeta now pos) as [ts srv].
  destruct (findVehicleOfDevice s _) as [[vid v]|]; [|done]. cbv zeta.
  match goal with |- context [setQuarantine vid ?w s] =>
    assert (E1 : displayOf (setQuarantine vid w s) = displayOf s) by (unfold setQuarantine; by case_match);
    destruct (quarantine w); [done|]; set (s0 := setQuarantine vid w s) in * end.
  match goal with |- context [updateDto jm s0 ?a ?b ?c ?d ?e ?f] => set (dto := updateDto jm s0 a b c d e f) end.
  case_match; [done|]. unfold saveFix. destruct fails; [done|].
  match goal with |- context [savePosition jm ?a ?b ?c ?d ?e ?f] =>
    destruct (savePosition jm a b c d e f) as [t position] eqn:Es end.
  destruct link; try done; intros [= <- <-]; cbn; (split; [exact E1|]); (split; [done|]);
    intros row ->; destruct (savePosition_row _ _ _ _ _ _ _ _ Es) as (H1 & c & su & ->); done.
Qed.

Lemma displayOf_alerts now link cid vid t s :
  let s' := (evaluateTrackerTelemetryAlerts now link cid vid t s).1 in
  anchorBuffers s' = anchorBuffers s ∧ lastDisplayedPosition s' = lastDisplayedPosition s ∧
  (∃ rows, positions (tracking s') = positions (tracking s) ++ rows) ∧
  ∃ l, sent s' = sent s ++ l ∧ ∀ b, PositionUpdate b ∉ l.
Proof.
  cbv zeta. destruct (frame_alerts now link cid vid t s) as (_ & Hrows & _).
  assert (Ho : ∀ key c pr u n s, let s' := alertOnce now key (Notification c pr u n) s in
    anchorBuffers s' = anchorBuffers s ∧ lastDisplayedPosition s' = lastDisplayedPosition s ∧
    ∃ l, sent s' = sent s ++ l ∧ ∀ b, PositionUpdate b ∉ l).
  { clear. intros key c pr u n s. unfold alertOnce. case_match; cbn.
    - split_and!; try done. exists []. rewrite app_nil_r. set_solver.
    - split_and!; try done. eexists. split; [done|]. intros b Hb%list_elem_of_singleton. done. }
  assert (Hn : ∃ l, sent s = sent s ++ l ∧ ∀ b, PositionUpdate b ∉ l) by (exists []; rewrite app_nil_r; set_solver).
  revert Hrows. unfold evaluateTrackerTelemetryAlerts. destruct link; cbn [fst]; try (intros Hrows; by split_and!).
  set (s1 := if isPowerCut t then _ else s).
  assert (H1 : anchorBuffers s1 = anchorBuffers s ∧ lastDisplayedPosition s1 = lastDisplayedPosition s ∧
    ∃ l, sent s1 = sent s ++ l ∧ ∀ b, PositionUpdate b ∉ l) by (subst s1; case_match; [apply Ho|by split_and!]).
  clearbody s1. intros Hrows. destruct H1 as (A1 & A2 & l1 & A3 & A4). destruct (isBatteryCritical t).
  - match goal with |- context [alertOnce now ?k (Notification ?c ?pr ?u ?n) s1] =>
      destruct (Ho k c pr u n s1) as (B1 & B2 & l2 & B3 & B4) end.
    split_and!; [by rewrite B1|by rewrite B2|done|]. exists (l1 ++ l2). rewrite B3, A3, (assoc_L (++)). set_solver.
  - split_and!; [done..|]. eauto.
Qed.

(** Where a displayed position may come from: the fix is suspect; the anchor of
    the last fixes with this one; the road within 50 m; the position already
    shown; or the fix itself, which is then moving or near the position shown. *)
Definition grounded (s : BridgeStore) (vid : string) (f : AnchorFix) (suspect : bool) (d : num * num) : Prop :=
  (d = (af_latitude f, af_longitude f) ∧
     (suspect = true ∨ isStoppedFix f = false ∨
      ∀ shown, lastDisplayedPosition s !! vid = Some shown →
        num_ltb ANCHOR_INITIAL_RADIUS_MIN_M
          (haversineDistance jm (af_latitude f) (af_longitude f) shown.1 shown.2) = false)) ∨
  computeAnchoredPosition jm (drop (length (bufferOf s vid ++ [f]) - ANCHOR_BUFFER_SIZE) (bufferOf s vid ++ [f]))
    = Some d ∨
  num_ltb MATCH_MAX_SNAP_DISTANCE_M (haversineDistance jm (af_latitude f) (af_longitude f) d.1 d.2) = false ∨
  lastDisplayedPosition s !! vid = Some d.

Lemma chooseDisplay_grounded s1 s vid pos f suspect :
  bufferOf s1 vid = drop (length (bufferOf s vid ++ [f]) - ANCHOR_BUFFER_SIZE) (bufferOf s vid ++ [f]) ∨ suspect = true →
  lastDisplayedPosition s1 !! vid = lastDisplayedPosition s !! vid →
  af_latitude f = tp_latitude pos → af_longitude f = tp_longitude pos →
  grounded s vid f suspect
    (default (tp_latitude pos, tp_longitude pos)
       (chooseDisplay jm matchToRoad mapMatchingEnabled s1 vid pos f suspect)).
Proof.
  intros Hb Hl E1 E2. unfold chooseDisplay, grounded. rewrite <- E1, <- E2.
  destruct suspect; cbn; [left; split; [done|by left]|]. destruct Hb as [Hb|]; [|done]. rewrite <- Hb.
  destruct (computeAnchoredPosition jm _) as [a|]; cbn; [by right; left|].
  destruct (snapToRoad _ _ _ s1 vid pos) as [d|] eqn:Es; cbn.
  - right; right; left. unfold snapToRoad in Es. rewrite E1, E2.
    destruct matchToRoad as [m|]; [|done]. case_match; [|done].
    destruct (selectMatchWindow _); [|done]. cbn in Es. destruct (m _ _) as [[tail c]|]; [|done]. cbn in Es.
    unfold acceptSnappedTail in Es. destruct tail as [[la ln]|]; [|done].
    destruct (_ || _); [done|]. case_match; [done|]. by injection Es as <-.
  - unfold heldBack. destruct (isStoppedFix f); [|by left; split; [|right; left]].
    rewrite Hl. destruct (lastDisplayedPosition s !! vid) as [shown|]; cbn.
    + destruct (num_ltb _ _) eqn:En; cbn; [by right; right; right|left].
      split; [done|]. right; right. intros ? [= <-]. done.
    + left. split; [done|]. by right; right.
Qed.

Lemma publish_sent now pos p row s :
  let s' := publishFix jm matchToRoad mapMatchingEnabled now pos p row s in
  let f := currentFix pos (pr_dto p) in
  tracking s' = tracking s ∧
  ∃ l, sent s' = sent s ++ l ∧ ∀ b, PositionUpdate b ∈ l →
    isOutOfOrder (bufferOf s (pr_vehicleId p)) (timestamp (pr_dto p)) = false ∧
    ∃ d, b = broadcastOf p pos (p_suspect row) d ∧
         grounded s (pr_vehicleId p) f (p_suspect row) (default (tp_latitude pos, tp_longitude pos) d).
Proof.
  cbv zeta. unfold publishFix. cbv zeta. set (f := currentFix pos (pr_dto p)). set (vid := pr_vehicleId p).
  set (s2 := send _ _). set (s3 := if p_suspect row then s2 else _).
  assert (E3 : sent s3 = sent s2 ∧ tracking s3 = tracking s ∧ lastDisplayedPosition s3 = lastDisplayedPosition s ∧
    (bufferOf s3 vid = drop (length (bufferOf s vid ++ [f]) - ANCHOR_BUFFER_SIZE) (bufferOf s vid ++ [f])
     ∨ p_suspect row = true)).
  { subst s3. destruct (p_suspect row) eqn:Es; cbn; [by split_and!; try done; right|].
    split_and!; try done. left. unfold bufferOf at 1, pushFix. cbn. by rewrite lookup_insert_eq. }
  destruct E3 as (E3 & Et & El & Eb).
  set (d := chooseDisplay _ _ _ s3 vid pos f (p_suspect row)).
  assert (Hg : grounded s vid f (p_suspect row) (default (tp_latitude pos, tp_longitude pos) d)).
  { apply chooseDisplay_grounded; [exact Eb|by rewrite El|done|done]. }
  set (s4 := showAt vid pos d (p_suspect row) s3).
  assert (E4 : sent s4 = sent s3 ∧ tracking s4 = tracking s3) by (subst s4; unfold showAt; by repeat case_match).
  destruct E4 as [E4 Et4]. rewrite <- Et, <- Et4.
  match goal with |- context [isOutOfOrder ?x ?y] => change (isOutOfOrder x y) with
    (isOutOfOrder (bufferOf s vid) (timestamp (pr_dto p))) end.
  destruct (isOutOfOrder _ _) eqn:Eo.
  - split; [done|]. exists [DataUpdate (pr_companyId p) (pr_driverId p) (tp_latitude pos) (tp_longitude pos)
      (timestamp (pr_dto p))]. split; [by rewrite E4, E3|]. intros b Hb%list_elem_of_singleton. done.
  - split; [done|]. exists [DataUpdate (pr_companyId p) (pr_driverId p) (tp_latitude pos) (tp_longitude pos)
      (timestamp (pr_dto p)); PositionUpdate (broadcastOf p pos (p_suspect row) d)].
    split; [cbn; rewrite E4, E3; unfold s2, send; cbn; by rewrite <- (assoc_L (++))|].
    intros b [Hb|Hb%list_elem_of_singleton]%elem_of_cons; [done|]. injection Hb as ->. eauto.
Qed.

Lemma store_sent now link fails pos s : sent (storeFix jm isUUID4 now link fails pos s).1 = sent s.
Proof.
  unfold storeFix. destruct (parseTimestampMeta now pos) as [ts srv].
  destruct (findVehicleOfDevice s _) as [[vid v]|]; [|done]. cbv zeta.
  match goal with |- context [setQuarantine vid ?w s] =>
    assert (E1 : sent (setQuarantine vid w s) = sent s) by (unfold setQuarantine; by case_match);
    destruct (quarantine w); [done|]; set (s0 := setQuarantine vid w s) in * end.
  case_match; [done|]. unfold saveFix, queuePendingPosition. rewrite <- E1. clearbody s0.
  repeat case_match; simplify_eq; done.
Qed.

(** A position broadcast by the bridge is that of a row just stored, with its raw
    coordinates and time, is not older than the last fix kept for the vehicle,
    and shows a point that the anchor, the road, or the last point shown
    supports: a stopped fix never moves the marker by more than 150 m alone. *)
Theorem broadcast_grounded now link fails pos s :
  ∃ l, sent (handle now link fails pos s) = sent s ++ l ∧
  ∀ b, PositionUpdate b ∈ l →
    b_latitude b = tp_latitude pos ∧ b_longitude b = tp_longitude pos ∧
    b_timestamp b = (parseTimestampMeta now pos).1 ∧
    (∃ row, row ∈ positions (tracking (handle now link fails pos s)) ∧ p_vehicleId row = b_vehicleId b ∧
            p_timestamp row = b_timestamp b ∧ p_latitude row = b_latitude b ∧ p_longitude row = b_longitude b) ∧
    (∀ f, last (bufferOf s (b_vehicleId b)) = Some f → af_timestamp f ≤ b_timestamp b) ∧
    ∃ f, af_latitude f = tp_latitude pos ∧ af_longitude f = tp_longitude pos ∧
         grounded s (b_vehicleId b) f (b_suspect b) (b_displayLatitude b, b_displayLongitude b).
Proof.
  assert (Hnone : ∀ s1, sent s1 = sent s → ∃ l, sent s1 = sent s ++ l ∧ ∀ b, PositionUpdate b ∉ l)
    by (intros s1 ->; exists []; rewrite app_nil_r; set_solver).
  assert (Hquiet : ∀ s1, (∃ l, sent s1 = sent s ++ l ∧ ∀ b, PositionUpdate b ∉ l) → ∀ Q : Broadcast → Prop,
    ∃ l, sent s1 = sent s ++ l ∧ ∀ b, PositionUpdate b ∈ l → Q b).
  { intros s1 (l & E & Hl) Q. exists l. split; [done|]. intros b Hb. by destruct (Hl b). }
  unfold handlePosition. destruct (rejected _ _); [by apply (Hquiet s), Hnone|].
  pose proof (store_sent now link fails pos s) as Hs.
  destruct (storeFix _ _ _ _ _ _ _) as [s1 [p|]] eqn:Es; cbn [fst] in Hs; [|by apply (Hquiet s1), Hnone].
  apply storeFix_Some in Es as (Ed & Et & Hrow).
  destruct (pr_position p) as [row|]; [|by apply (Hquiet s1), Hnone].
  destruct (Hrow row eq_refl) as (R1 & R2 & R3 & R4 & R5). clear Hrow.
  assert (Hpub : ∀ s2, anchorBuffers s2 = anchorBuffers s → lastDisplayedPosition s2 = lastDisplayedPosition s →
    (∃ rows, positions (tracking s2) = positions (tracking s1) ++ rows) →
    (∃ l, sent s2 = sent s ++ l ∧ ∀ b, PositionUpdate b ∉ l) →
    let s' := publishFix jm matchToRoad mapMatchingEnabled now pos p row s2 in
    ∃ l, sent s' = sent s ++ l ∧ ∀ b, PositionUpdate b ∈ l →
    b_latitude b = tp_latitude pos ∧ b_longitude b = tp_longitude pos ∧
    b_timestamp b = (parseTimestampMeta now pos).1 ∧
    (∃ row, row ∈ positions (tracking s') ∧ p_vehicleId row = b_vehicleId b ∧
            p_timestamp row = b_timestamp b ∧ p_latitude row = b_latitude b ∧ p_longitude row = b_longitude b) ∧
    (∀ f, last (bufferOf s (b_vehicleId b)) = Some f → af_timestamp f ≤ b_timestamp b) ∧
    ∃ f, af_latitude f = tp_latitude pos ∧ af_longitude f = tp_longitude pos ∧
         grounded s (b_vehicleId b) f (b_suspect b) (b_displayLatitude b, b_displayLongitude b)).
  { intros s2 E1 E2 (rows & Hrows) (l0 & E3 & Hl0). cbv zeta.
    destruct (publish_sent now pos p row s2) as (Ht & l & E & Hl).
    exists (l0 ++ l). rewrite E, E3, (assoc_L (++)). split; [done|].
    intros b [Hb|Hb]%elem_of_app; [by destruct (Hl0 b)|].
    destruct (Hl b Hb) as (Ho & d & -> & Hg).
    assert (Eb : bufferOf s2 = bufferOf s) by (unfold bufferOf; by rewrite E1).
    rewrite Eb in Ho. unfold grounded in Hg. rewrite Eb, E2 in Hg. cbn. split_and!; try done.
    - exists row. rewrite Ht, Hrows. split_and!; [set_solver|done..].
    - intros f Hf. unfold isOutOfOrder in Ho. rewrite Hf in Ho. by apply Z.ltb_ge in Ho.
    - exists (currentFix pos (pr_dto p)). split_and!; [done..|]. destruct d as [[]|]; exact Hg. }
  injection Ed as E1 E2 E3 E4. case_bool_decide.
  - apply Hpub; [done|done|exists []; by rewrite app_nil_r|by apply Hnone].
  - destruct (displayOf_alerts now link (pr_companyId p) (pr_vehicleId p) (pr_telemetry p) s1) as (A1 & A2 & A3 & l & A4 & A5).
    rewrite Hs in A4. destruct (evaluateTrackerTelemetryAlerts _ _ _ _ _ _) as [s2 []]; cbn [fst] in *.
    + apply Hpub; [congruence|congruence|done|eauto].
    + apply (Hquiet s2). eauto.
Qed.
End Frames.

(** ** Concrete runs *)

Definition noTracking : TrackingStore := mkTracking ∅ ∅ ∅ ∅ ∅ [] [] ∅ ∅ noMetrics [] [].
Definition demoVehicle : string := "vehicle-0000000001".
Definition demoBridge : BridgeStore :=
  mkBridge (noTracking <| vehicles := {[demoVehicle := mkVehicle "c1" true None physical_tracker]} |>)
    {[demoVehicle := mkTracked (Some "7") 0 (Some (Some "u1"))]} ∅
    [mkAssignment demoVehicle "d1" 0 (Some 50000); mkAssignment demoVehicle "d2" 50001 None]
    ∅ ∅ [] 0 ∅ ∅ ∅ ∅ ∅ None [].
Definition demoFix (lat t : Z) : TraccarPosition :=
  mkTraccar 7 (num_lit lat 1000) (num_of_Z 10) None None None (Some (num_of_Z 8)) None (Instant t) NoTime
    (mkAttributes None None [] [] None None).
Definition demoReact : BridgeEvent → BridgeStore → BridgeStore :=
  react coarseMath (λ _, true) None (num_of_Z 4) false.
Definition demoRun (es : list BridgeEvent) : BridgeStore := foldl (λ s e, demoReact e s) demoBridge es.

Definition shownTimes (s : BridgeStore) : list Z :=
  omap (λ e, match e with PositionUpdate b => Some (b_timestamp b) | _ => None end) (sent s).

(** Two late fixes in a row: the second is broadcast, and the marker goes back
    from 100 s to 75 s, since the first took the last place of the buffer. *)
Theorem late_fix_goes_back :
  shownTimes (demoRun (map (λ t, FixReceived 200000 RedisUp false (demoFix 1000 t)) [100000; 50000; 75000]))
  = [100000; 75000].
Proof. vm_compute. reflexivity. Qed.

(** Redis failing after the save: the position is stored, nothing is sent and
    nothing is queued. *)
Theorem redis_failure_hides_fix :
  let s := demoRun [FixReceived 100000 RedisDown false (demoFix 1000 100000)] in
  length (positions (tracking s)) = 1%nat ∧ sent s = [] ∧ pending s = [] ∧ anchorBuffers s = ∅.
Proof. vm_compute. done. Qed.

(** A position the database keeps refusing is stamped anew at each replay, so
    the hour of retention never passes. *)
Theorem refused_fix_never_purged :
  map q_queuedAt (pending (demoRun (FixReceived 100000 RedisUp true (demoFix 1000 100000) ::
    map (λ n, Replayed (100000 + n * 3000000) RedisUp (λ _, true)) [1; 2; 3; 4]))) = [12100000].
Proof. vm_compute. reflexivity. Qed.

Lemma attribution_agrees_witness :
  NoDup (map va_assignedAt (filter (λ a, va_vehicleId a = demoVehicle) (assignments demoBridge))) ∧
  resolveDriver (vehicleAssignments demoBridge demoVehicle) 60000 = Some "d2" ∧
  resolveDriver (vehicleAssignments demoBridge demoVehicle) 60000
    = resolveDriverIdAtTimestamp demoBridge demoVehicle 60000.
Proof.
  split; [|split; [vm_compute; reflexivity|]].
  - vm_compute. repeat constructor; set_solver.
  - apply (attribution_agrees demoBridge demoVehicle 60000). vm_compute. repeat constructor; set_solver.
Defined.

(** A tracker that stopped sending while driving, checked three times. *)
Definition silence : list BridgeEvent :=
  [SilencePass 2000000 RedisUp None; NeverConnectedPass 2000000 RedisUp;
   SilencePass 2060000 RedisUp None; SilencePass 90000000 RedisAbsent None].
Definition drivingFix : TraccarPosition := (demoFix 1000 100000) <| tp_speed := Some (num_of_Z 30) |>.
Definition silentStore : BridgeStore := demoRun [FixReceived 100000 RedisUp false drivingFix].

Lemma one_alert_per_silence_witness :
  silenceNotices demoVehicle silentStore = 0%nat ∧
  silenceNotices demoVehicle (foldl (λ s e, demoReact e s) silentStore silence) = 1%nat ∧
  (silenceNotices demoVehicle (foldl (λ s e, demoReact e s) silentStore silence) ≤ 1)%nat.
Proof.
  split; [vm_compute; reflexivity|]. split; [vm_compute; reflexivity|].
  apply (one_alert_per_silence coarseMath (λ _, true) None (num_of_Z 4) false silence silentStore demoVehicle 100000);
    vm_compute; reflexivity.
Defined.

Definition outage : list BridgeEvent :=
  [FixReceived 100000 RedisUp true (demoFix 1000 100000); FixReceived 105000 RedisUp true (demoFix 1000 105000)].

Lemma queue_always_replayed_witness :
  length (pending (demoRun outage)) = 2%nat ∧ replayDue (demoRun outage).
Proof.
  split; [vm_compute; reflexivity|].
  apply (queue_always_replayed coarseMath (λ _, true) None (num_of_Z 4) false outage demoBridge);
    [vm_compute; reflexivity|]. intros H. exfalso. by apply H.
Defined.

Lemma restart_strands_queue_witness :
  let s := demoRun outage in
  let es := [FixReceived 110000 RedisUp true (demoFix 1000 110000); Replayed 120000 RedisUp (λ _, false)] in
  let s' := foldl (λ s e, demoReact e s) (restart s) es in
  length (pending s') = 3%nat ∧ pendingRuns s' = 0%nat.
Proof.
  split; [vm_compute; reflexivity|].
  apply (restart_strands_queue coarseMath (λ _, true) None (num_of_Z 4) false
    [FixReceived 110000 RedisUp true (demoFix 1000 110000); Replayed 120000 RedisUp (λ _, false)] (demoRun outage)).
  vm_compute. discriminate.
Defined.
