(* ===== verification/Gateway.v ===== *)
(** * Tracking: the gateway

    modules/tracking/tracking.gateway.ts with WsJwtGuard and
    WsTrackingExceptionFilter: the sockets of the drivers and dispatchers, the
    rooms they join, the messages they send and what is broadcast to them.  A
    handler runs in one step and returns what each socket receives; the display
    name of a driver is left out of the broadcasts. *)

From Stdlib Require Import SpecFloat.
From S2P Require Import Prelude JsString JsNum Geo Redis AuthModel Auth AccessGuards Gps GpsQuality TrackingModel Tracking.

#[local] Open Scope string_scope.
#[local] Open Scope list_scope.
#[local] Open Scope Z_scope.

(** ** Sockets *)

(** A position as it is broadcast. *)
Record LiveFix := mkLive {
  lv_driverId : string;
  lv_latitude : num;
  lv_longitude : num;
  lv_displayLatitude : num;
  lv_displayLongitude : num;
  lv_speed : option num;
  lv_heading : option num;
  lv_altitude : option num;
  lv_accuracy : option num;
  lv_suspect : bool;
  lv_confidence : Z;
  lv_timestamp : Z;
  lv_deliveryId : option string;
  lv_vehicleId : string
}.

(** What a socket receives. *)
Inductive Message :=
  | error_ (message : string)
  | positionRejected (reason : string)
  | positionSaved (suspect : bool)
  | positionsRejected (reason : string) (batchId : option string)
  | positionsInvalid (batchId : option string) (rejected : list (nat * string))
  | positionsSaved (count : nat) (batchId : option string)
  | subscribed (id : string)
  | unsubscribed (id : string)
  | positionUpdate (broadcast : LiveFix)
  | batchPositionUpdate (broadcasts : list LiveFix)
  | driverOffline (driverId : string) (timestamp : Z)
  | proximityAlert (targetUserId : string)
  | dataUpdate (companyId entity action : string)
  | toCompany (companyId event : string)
  | toDriver (userId event : string).

(** A connected socket: its handshake, [client.data] and its rooms. *)
Record Client := mkClient {
  cl_authToken : option string;
  cl_header : option string;
  cl_user : option RequestUser;
  cl_authCache : option WsAuthCacheEntry;
  cl_rooms : gset string
}.

Record Gateway := mkGateway {
  clients : gmap string Client;
  speedWindows : gmap string (list GroundSpeedRef);
  disconnectedDrivers : gmap string Z;
  accounts : AuthStore;
  tracking : TrackingStore
}.

Definition Sent : Type := list (string * Message).

Definition driverRoom (userId : string) : string := "driver:" +:+ userId.
Definition companyRoom (companyId : string) : string := "company:" +:+ companyId.
Definition deliveryRoom (deliveryId : string) : string := "delivery:" +:+ deliveryId.

(** [server.to(room).emit(...)]. *)
Definition toRoom (room : string) (m : Message) (g : Gateway) : Sent :=
  omap (λ '(cid, c), if bool_decide (room ∈ cl_rooms c) then Some (cid, m) else None) (map_to_list (clients g)).

Definition onClient (cid : string) (f : Client → Client) (g : Gateway) : Gateway :=
  g <| clients := alter f cid (clients g) |>.
Definition join (cid room : string) : Gateway → Gateway :=
  onClient cid (λ c, c <| cl_rooms := {[room]} ∪ cl_rooms c |>).
Definition leave (cid room : string) : Gateway → Gateway :=
  onClient cid (λ c, c <| cl_rooms := cl_rooms c ∖ {[room]} |>).

Definition userId (u : RequestUser) : string := default "" (ru_id u).
Definition companyOfUser (u : RequestUser) : string := default "" (ru_companyId u).
Definition isDriver (u : RequestUser) : bool := bool_decide (ru_role u = Some "driver").

(** [typeof x === 'number' && x >= 0 ? Math.floor(x) : 0] *)
Definition levelOf (x : option num) : Z :=
  match x with
  | Some (S754_finite false m e) => if 0 <=? e then Z.pos m * 2 ^ e else Z.pos m / 2 ^ (- e)
  | _ => 0
  end.

Section Gateway.
Context `{AuthLib} (jm : JsMath).
(** What class-validator makes of a payload, POSITION_RATE_LIMIT_TTL_MS and
    BATCH_RATE_LIMIT_PER_MIN. *)
Context {Raw : Type} (validatePosition : Raw → UpdatePositionDto + list string).
Context (ttlMs max : option Z).

(** ** Connections *)

Definition verified (env : AuthEnv) (c : Client) (g : Gateway) : WsOutcome :=
  wsVerify env (cl_authToken c) (cl_header c) (cl_authCache c) (accounts g).

Definition remember (u : RequestUser) (cache : option WsAuthCacheEntry) (c : Client) : Client :=
  c <| cl_user := Some u |> <| cl_authCache := cache |>.

(** The socket has left its rooms when [handleDisconnect] runs. *)
Definition handleDisconnect (now : Z) (cid : string) (c : Client) (g : Gateway) : Gateway * Sent :=
  let g := g <| clients := delete cid (clients g) |> in
  match cl_user c with
  | Some u =>
      if isDriver u && truthy (ru_companyId u) then
        (g <| disconnectedDrivers := <[userId u := now]> (disconnectedDrivers g) |>,
         toRoom (companyRoom (companyOfUser u)) (driverOffline (userId u) now) g)
      else (g, [])
  | None => (g, [])
  end.

Definition handleConnection (env : AuthEnv) (cid : string) (g : Gateway) : Gateway * Sent :=
  match clients g !! cid with
  | None => (g, [])
  | Some c =>
      match verified env c g with
      | WsError _ _ =>
          let '(g, sent) := handleDisconnect (now env) cid c g in
          (g, (cid, error_ "Invalid token") :: sent)
      | WsOk u cache =>
          let g := onClient cid (remember u cache) g in
          if isDriver u then
            (join cid (driverRoom (userId u)) g
               <| disconnectedDrivers := delete (userId u) (disconnectedDrivers g) |>, [])
          else if truthy (ru_companyId u) then (join cid (companyRoom (companyOfUser u)) g, [])
          else (g, [])
      end
  end.

(** WsJwtGuard before a handler: what it throws is answered by
    WsTrackingExceptionFilter. *)
Definition guarded (env : AuthEnv) (cid : string) (handler : RequestUser → Gateway → Gateway * Sent)
    (g : Gateway) : Gateway * Sent :=
  match clients g !! cid with
  | None => (g, [])
  | Some c =>
      match verified env c g with
      | WsError _ _ => (g, [(cid, error_ "Internal server error")])
      | WsOk u cache => handler u (onClient cid (remember u cache) g)
      end
  end.

(** ** What the handlers ask TrackingService *)

(** The tables of the tenant models as tenantScopeMiddleware lets a query read
    them. *)
Definition scoped (companyId : string) (s : TrackingStore) : TrackingStore :=
  if String.eqb companyId "" then s
  else s <| vehicles := filter (λ kv, vh_companyId kv.2 = companyId) (vehicles s) |>
         <| drivers := filter (λ kv, dr_companyId kv.2 = companyId) (drivers s) |>
         <| deliveries := filter (λ kv, dl_companyId kv.2 = companyId) (deliveries s) |>.

(** [CompanyScopedContext.run(companyId, f)], for an [f] that only reads these
    tables. *)
Definition runScoped {A} (companyId : string) (f : TrackingStore → TrackingStore * A) (s : TrackingStore)
  : TrackingStore * A :=
  let '(s', x) := f (scoped companyId s) in
  (s' <| vehicles := vehicles s |> <| drivers := drivers s |> <| deliveries := deliveries s |>, x).

(** [verifyDriverAssignment]: [false] when it throws. *)
Definition verifyDriverAssignment (did uid : string) (s : TrackingStore) : bool :=
  match deliveries s !! did with
  | Some d =>
      bool_decide (dl_assignedDriverId d = Some uid)
      || match findDriverByUserId s uid with
         | Some (id, _) => bool_decide (dl_driverId d = Some id)
         | None => false
         end
  | None => false
  end.

(** [assertVehicleOwnership] and [getDeliveryInfo]: [false] when they throw. *)
Definition assertVehicleOwnership (vid companyId : string) (s : TrackingStore) : bool :=
  match vehicles s !! vid with
  | Some v => bool_decide (vh_companyId v = companyId) && bool_decide (vh_deletedAt v = None)
  | None => false
  end.
Definition getDeliveryInfo (did companyId : string) (s : TrackingStore) : bool :=
  match deliveries s !! did with Some d => bool_decide (dl_companyId d = companyId) | None => false end.

Record BatteryReport := mkBattery {
  br_vehicleId : option string;
  br_deliveryId : option string;
  br_latitude : option num;
  br_longitude : option num
}.

(** The position [reportBatteryCritical] records; an insertion that fails is
    ignored. *)
Definition batteryPosition (now : Z) (id : string) (d : Driver) (body : BatteryReport) (s : TrackingStore)
  : TrackingStore :=
  let vid := if truthy (br_vehicleId body) then br_vehicleId body else dr_vehicleId d in
  match vid ≫= (λ v, vehicles s !! v), vid, br_latitude body, br_longitude body with
  | Some v, Some vid, Some lat, Some lng =>
      if bool_decide (vh_positionSource v = physical_tracker) then s
      else default s (createPosition
             {| p_latitude := lat; p_longitude := lng; p_speed := None; p_heading := None; p_altitude := None;
                p_accuracy := None; p_suspect := false; p_timestamp := now; p_companyId := dr_companyId d;
                p_deliveryId := br_deliveryId body; p_vehicleId := vid; p_driverId := Some id;
                p_source := phone; p_attributes := [] |} s)
  | _, _, _, _ => s
  end.

(** [reportBatteryCritical]; it throws when the notification names a delivery
    that does not exist. *)
Definition reportBatteryCritical (now : Z) (uid : string) (body : BatteryReport) (s : TrackingStore) : TrackingStore :=
  match findDriverByUserId s uid with
  | None => s
  | Some (id, d) =>
      if match br_deliveryId body with Some did => bool_decide (deliveries s !! did = None) | None => false end then s
      else batteryPosition now id d body (emit (Notify (dr_companyId d) device_offline high (br_deliveryId body) None) s)
  end.

Definition onTracking (f : TrackingStore → TrackingStore) (g : Gateway) : Gateway :=
  g <| tracking := f (tracking g) |>.

(** ** updatePosition *)

Definition refOfDto (dto : UpdatePositionDto) : GroundSpeedRef :=
  mkRef (latitude dto) (longitude dto) (timestamp dto) (accuracy dto).
Definition refOfPosition (p : GpsPosition) : GroundSpeedRef :=
  mkRef (p_latitude p) (p_longitude p) (p_timestamp p) (p_accuracy p).

(** [while (window.length > 0 && t - window[0].timestamp > 130_000) window.shift()] *)
Fixpoint shiftOld (t : Z) (w : list GroundSpeedRef) : list GroundSpeedRef :=
  match w with
  | [] => []
  | f :: w' => if 130000 <? t - gr_timestamp f then shiftOld t w' else w
  end.

(** [computeConfidence] takes an accuracy that is not positive for none. *)
Definition positive (x : option num) : option num :=
  match x with Some a => if num_ltb (num_of_Z 0) a then Some a else None | None => None end.

Definition liveFix (driverId : string) (p : GpsPosition) (display : option (num * num)) (confidence : Z) : LiveFix :=
  {| lv_driverId := driverId; lv_latitude := p_latitude p; lv_longitude := p_longitude p;
     lv_displayLatitude := default (p_latitude p) (fst <$> display);
     lv_displayLongitude := default (p_longitude p) (snd <$> display);
     lv_speed := p_speed p; lv_heading := p_heading p; lv_altitude := p_altitude p;
     lv_accuracy := p_accuracy p; lv_suspect := p_suspect p; lv_confidence := confidence;
     lv_timestamp := p_timestamp p; lv_deliveryId := p_deliveryId p; lv_vehicleId := p_vehicleId p |}.

(** After [savePosition]: the window, the broadcasts and the acknowledgement. *)
Definition publishPosition (now : Z) (cid : string) (u : RequestUser) (driverId : string) (dto : UpdatePositionDto)
    (outOfOrder : bool) (position : GpsPosition) (g : Gateway) : Gateway * Sent :=
  let window := default [] (speedWindows g !! vehicleId dto) in
  let g :=
    if negb outOfOrder && negb (p_suspect position)
    then g <| speedWindows := <[vehicleId dto := shiftOld (timestamp dto) (window ++ [refOfDto dto])]> (speedWindows g) |>
    else g in
  if outOfOrder then (g, [])
  else
    let confidence := computeConfidence (positive (accuracy dto)) (p_suspect position) (p_speed position) in
    let display := getDisplayPosition jm now (tracking g) (vehicleId dto) (p_speed position) (p_suspect position) in
    let broadcast := positionUpdate (liveFix driverId position display confidence) in
    (g, (if truthy (deliveryId dto) then toRoom (deliveryRoom (default "" (deliveryId dto))) broadcast g else [])
        ++ toRoom (companyRoom (companyOfUser u)) broadcast g
        ++ [(cid, positionSaved (p_suspect position))]).

(** What [handlePosition] does with the database. *)
Inductive PositionAnswer :=
  | Refused (reason : string)
  | NoDriver
  | Stored (driverId : string) (dto : UpdatePositionDto) (outOfOrder : bool) (position : GpsPosition).

Definition storePosition (now : Z) (u : RequestUser) (window : list GroundSpeedRef) (dto : UpdatePositionDto)
    (s : TrackingStore) : TrackingStore * PositionAnswer :=
  let '(s, limited) := isRateLimited now ttlMs (userId u) s in
  if limited then (s, Refused "rate_limited")
  else if truthy (deliveryId dto) && negb (verifyDriverAssignment (default "" (deliveryId dto)) (userId u) s)
  then (s, Refused "not_assigned")
  else match findDriverByUserId s (userId u) with
  | None => (s, NoDriver)
  | Some (driverId, _) =>
      if negb (assertVehicleOwnership (vehicleId dto) (companyOfUser u) s) then (s, Refused "vehicle_mismatch")
      else
        let last := getLastPosition s (vehicleId dto) true in
        let outOfOrder := match last with Some p => timestamp dto <? p_timestamp p | None => false end in
        let speed := speedMs (resolveGroundSpeed jm (mkSpeedInput (speed dto) (refOfPosition <$> last)
                       (refOfDto dto) false (selectSpeedWindowRef window (timestamp dto)))) in
        match savePosition jm (Some driverId) (dto <| TrackingModel.speed := Some speed |>) (ru_companyId u) phone [] s with
        | (s, None) => (s, Refused "rejected")
        | (s, Some p) => (s, Stored driverId dto outOfOrder p)
        end
  end.

Definition handlePosition (now : Z) (cid : string) (raw : Raw) (u : RequestUser) (g : Gateway) : Gateway * Sent :=
  if negb (isDriver u) then (g, [])
  else match validatePosition raw with
  | inr _ => (g, [(cid, positionRejected "invalid_payload")])
  | inl dto =>
      let window := default [] (speedWindows g !! vehicleId dto) in
      let '(s, answer) := runScoped (companyOfUser u) (storePosition now u window dto) (tracking g) in
      let g := g <| tracking := s |> in
      match answer with
      | Refused reason => (g, [(cid, positionRejected reason)])
      | NoDriver => (g, [])
      | Stored driverId dto outOfOrder p => publishPosition now cid u driverId dto outOfOrder p g
      end
  end.

(** ** batchPosition *)

(** [lastByVehicle], with the place of the position in [saved]. *)
Definition lastByVehicle (saved : list GpsPosition) : gmap string (nat * GpsPosition) :=
  foldl (λ m '(i, p),
    match m !! p_vehicleId p with
    | Some (_, current) => if p_timestamp current <? p_timestamp p then <[p_vehicleId p := (i, p)]> m else m
    | None => <[p_vehicleId p := (i, p)]> m
    end) ∅ (imap pair saved).

Definition batchBroadcast (now : Z) (driverId : string) (saved : list GpsPosition) (s : TrackingStore) : list LiveFix :=
  imap (λ i p,
    let isLast := match lastByVehicle saved !! p_vehicleId p with Some (j, _) => bool_decide (j = i) | None => false end in
    let display := if isLast then getDisplayPosition jm now s (p_vehicleId p) (p_speed p) (p_suspect p) else None in
    liveFix driverId p display (computeConfidence (positive (p_accuracy p)) (p_suspect p) (p_speed p))) saved.

(** The rooms of a batch, in order of insertion. *)
Definition batchRooms (companyId : string) (saved : list GpsPosition) : list string :=
  let rooms := omap (λ p, if truthy (p_deliveryId p) then Some (deliveryRoom (default "" (p_deliveryId p))) else None) saved in
  foldl (λ seen r, if bool_decide (r ∈ seen) then seen else seen ++ [r]) [] (rooms ++ [companyRoom companyId]).

Definition handleBatchPosition (now : Z) (cid : string) (positions : option (list Raw)) (batchId : option string)
    (u : RequestUser) (g : Gateway) : Gateway * Sent :=
  if negb (isDriver u) then (g, [])
  else
    let '(s, answer) :=
      runScoped (companyOfUser u) (validateAndSaveBatch jm validatePosition now max (userId u) (companyOfUser u) positions)
        (tracking g) in
    let g := g <| tracking := s |> in
    match answer with
    | rate_limited => (g, [(cid, positionsRejected "rate_limited" batchId)])
    | no_driver => (g, [(cid, positionsRejected "no_driver" batchId)])
    | empty => (g, [(cid, positionsSaved 0 batchId)])
    | batch_ok saved validatedCount driverId rejected =>
        let invalid := match rejected with [] => [] | _ => [(cid, positionsInvalid batchId rejected)] end in
        if (validatedCount =? 0)%nat then (g, invalid ++ [(cid, positionsSaved 0 batchId)])
        else
          let broadcasts := batchBroadcast now driverId saved s in
          (g, invalid
              ++ (batchRooms (companyOfUser u) saved ≫= λ room, toRoom room (batchPositionUpdate broadcasts) g)
              ++ [(cid, positionsSaved (length saved) batchId)])
    end.

(** ** The other messages *)

Definition handleBatteryCritical (now : Z) (body : BatteryReport) (u : RequestUser) (g : Gateway) : Gateway * Sent :=
  if negb (isDriver u) then (g, []) else (onTracking (reportBatteryCritical now (userId u) body) g, []).

Definition handleSnoozeProximityAlert (now : Z) (did : option string) (level : option num) (u : RequestUser)
    (g : Gateway) : Gateway * Sent :=
  if negb (isDriver u) || negb (truthy did) then (g, [])
  else
    let did := default "" did in
    if negb (verifyDriverAssignment did (userId u) (tracking g)) then (g, [])
    else match findDriverByUserId (tracking g) (userId u) with
    | Some (_, d) =>
        if truthy (dr_vehicleId d)
        then (onTracking (snoozeProximity now did (default "" (dr_vehicleId d)) (levelOf level)) g, [])
        else (g, [])
    | None => (g, [])
    end.

Definition handleSubscribeToDelivery (cid : string) (did : option string) (u : RequestUser) (g : Gateway)
  : Gateway * Sent :=
  if isDriver u then (g, [])
  else if negb (truthy did) then (g, [(cid, error_ "Invalid delivery ID")])
  else
    let did := default "" did in
    if negb (getDeliveryInfo did (companyOfUser u) (tracking g))
    then (g, [(cid, error_ "Delivery not found or access denied")])
    else (join cid (deliveryRoom did) g, [(cid, subscribed did)]).

Definition handleUnsubscribeFromDelivery (cid did : string) (u : RequestUser) (g : Gateway) : Gateway * Sent :=
  if isDriver u then (g, []) else (leave cid (deliveryRoom did) g, [(cid, unsubscribed did)]).

Definition handleSubscribeToCompany (cid : string) (u : RequestUser) (g : Gateway) : Gateway * Sent :=
  if isDriver u then (g, [])
  else (join cid (companyRoom (companyOfUser u)) g, [(cid, subscribed (companyOfUser u))]).

Definition handleUnsubscribeFromCompany (cid : string) (u : RequestUser) (g : Gateway) : Gateway * Sent :=
  if isDriver u then (g, [])
  else (leave cid (companyRoom (companyOfUser u)) g, [(cid, unsubscribed (companyOfUser u))]).

(** ** What the API asks the gateway to send *)

(** An event of DataUpdateBus, without its payload. *)
Record DataUpdateEvent := mkDataUpdate {
  du_companyId : option string;
  du_targetUserId : option string;
  du_entity : string;
  du_action : string
}.

Definition dataUpdateListener (e : DataUpdateEvent) (g : Gateway) : Sent :=
  (if truthy (du_targetUserId e) && String.eqb (du_entity e) "proximityAlert"
   then toRoom (driverRoom (default "" (du_targetUserId e))) (proximityAlert (default "" (du_targetUserId e))) g else [])
  ++ (if truthy (du_companyId e)
      then toRoom (companyRoom (default "" (du_companyId e)))
             (dataUpdate (default "" (du_companyId e)) (du_entity e) (du_action e)) g
      else []).

Definition broadcastToCompany (companyId event : string) (g : Gateway) : Sent :=
  toRoom (companyRoom companyId) (toCompany companyId event) g.
Definition broadcastDataUpdate (companyId type : string) (g : Gateway) : Sent :=
  toRoom (companyRoom companyId) (dataUpdate companyId type "") g.
Definition sendToDriver (uid event : string) (g : Gateway) : Sent :=
  toRoom (driverRoom uid) (toDriver uid event) g.

(** The hourly timer of [onModuleInit]. *)
Definition cleanDisconnected (now : Z) (g : Gateway) : Gateway :=
  g <| disconnectedDrivers := filter (λ kv, (now - 86400000 <=? kv.2) = true) (disconnectedDrivers g) |>.

(** ** Runs *)

Inductive ClientMessage :=
  | UpdatePosition (raw : Raw)
  | BatchPosition (positions : option (list Raw)) (batchId : option string)
  | BatteryCritical (body : BatteryReport)
  | SnoozeProximityAlert (did : option string) (level : option num)
  | SubscribeToDelivery (did : option string)
  | UnsubscribeFromDelivery (did : string)
  | SubscribeToCompany
  | UnsubscribeFromCompany.

Definition handle (now : Z) (cid : string) (m : ClientMessage) (u : RequestUser) (g : Gateway) : Gateway * Sent :=
  match m with
  | UpdatePosition raw => handlePosition now cid raw u g
  | BatchPosition positions batchId => handleBatchPosition now cid positions batchId u g
  | BatteryCritical body => handleBatteryCritical now body u g
  | SnoozeProximityAlert did level => handleSnoozeProximityAlert now did level u g
  | SubscribeToDelivery did => handleSubscribeToDelivery cid did u g
  | UnsubscribeFromDelivery did => handleUnsubscribeFromDelivery cid did u g
  | SubscribeToCompany => handleSubscribeToCompany cid u g
  | UnsubscribeFromCompany => handleUnsubscribeFromCompany cid u g
  end.

(** [Elsewhere]: what the rest of the API does to the data. *)
Inductive GatewayEvent :=
  | Connected (cid : string) (authToken header : option string)
  | Verify (cid : string) (env : AuthEnv)
  | Disconnected (cid : string) (now : Z)
  | Received (cid : string) (env : AuthEnv) (m : ClientMessage)
  | Published (e : DataUpdateEvent)
  | Broadcast (companyId event : string)
  | BroadcastUpdate (companyId type : string)
  | Send (uid event : string)
  | Cleanup (now : Z)
  | Elsewhere (accounts : AuthStore) (tracking : TrackingStore).

Definition gatewayStep (e : GatewayEvent) (g : Gateway) : Gateway * Sent :=
  match e with
  | Connected cid authToken header =>
      match clients g !! cid with
      | Some _ => (g, [])
      | None => (g <| clients := <[cid := mkClient authToken header None None ∅]> (clients g) |>, [])
      end
  | Verify cid env => handleConnection env cid g
  | Disconnected cid now =>
      match clients g !! cid with Some c => handleDisconnect now cid c g | None => (g, []) end
  | Received cid env m => guarded env cid (handle (now env) cid m) g
  | Published e => (g, dataUpdateListener e g)
  | Broadcast companyId event => (g, broadcastToCompany companyId event g)
  | BroadcastUpdate companyId type => (g, broadcastDataUpdate companyId type g)
  | Send uid event => (g, sendToDriver uid event g)
  | Cleanup now => (cleanDisconnected now g, [])
  | Elsewhere a t => (g <| accounts := a |> <| tracking := t |>, [])
  end.
End Gateway.
