(* ===== verification/GatewayProps.v ===== *)
(** * Tracking: what the gateway promises

    A socket only receives the broadcasts of its own company, and the phone of a
    driver none; every position message is answered, except a late one; the
    rooms outlive the session that opened them. *)

From Stdlib Require Import SpecFloat.
From S2P Require Import Prelude JsString JsNum Geo Redis AuthModel Auth AuthExample AuthProps AccessGuards Gps GpsQuality TrackingModel Tracking TrackingProps Gateway.

#[local] Open Scope string_scope.
#[local] Open Scope list_scope.
#[local] Open Scope Z_scope.

(** ** Rooms *)

Lemma elem_of_toRoom room m0 g cid m :
  (cid, m) ∈ toRoom room m0 g ↔ m = m0 ∧ ∃ c, clients g !! cid = Some c ∧ room ∈ cl_rooms c.
Proof.
  unfold toRoom. rewrite list_elem_of_omap. split.
  - intros ([k c] & Hin & Hm). apply elem_of_map_to_list in Hin. case_bool_decide; [|done]. simplify_eq.
    split; [done|]. by exists c.
  - intros (-> & c & Hc & Hr). exists (cid, c). split; [by apply elem_of_map_to_list|]. by rewrite bool_decide_eq_true_2.
Qed.

Lemma driverRoom_inj i j : driverRoom i = driverRoom j → i = j.
Proof. apply append_inj_l. Qed.
Lemma companyRoom_inj i j : companyRoom i = companyRoom j → i = j.
Proof. apply append_inj_l. Qed.
Lemma deliveryRoom_inj i j : deliveryRoom i = deliveryRoom j → i = j.
Proof. apply append_inj_l. Qed.

(** ** What is stored *)

Lemma limited_tables ttlMs now did s : let s' := (isRateLimited now ttlMs did s).1 in
  vehicles s' = vehicles s ∧ deliveries s' = deliveries s ∧ drivers s' = drivers s ∧ positions s' = positions s.
Proof. unfold isRateLimited. cbv zeta. repeat case_match; done. Qed.

Lemma savedRow_from_dto jm did dto cid src attrs s s' p :
  savePosition jm did dto cid src attrs s = (s', Some p) → ∃ c b, p = positionRow did dto c src attrs b.
Proof.
  unfold savePosition. cbv zeta. destruct (acceptedVehicle _ _ _ _); [|done].
  destruct (isDuplicateByTimestamp _ _ _ _); [done|]. destruct (createPosition _ _); [|done].
  intros [= _ <-]. by do 2 eexists.
Qed.

(** What [storePosition] leaves in the database. *)
Lemma storePosition_cases jm ttlMs now u window dto s s' ans :
  storePosition jm ttlMs now u window dto s = (s', ans) →
  match ans with
  | Refused reason => positions s' = positions s ∧
      reason ∈ ["rate_limited"; "not_assigned"; "vehicle_mismatch"; "rejected"]
  | NoDriver => positions s' = positions s ∧ findDriverByUserId s (userId u) = None
  | Stored _ dto' late p => dto' = dto ∧ positions s' = positions s ++ [p] ∧
      p_vehicleId p = vehicleId dto ∧ p_timestamp p = timestamp dto ∧
      p_latitude p = latitude dto ∧ p_longitude p = longitude dto ∧
      (late = true → ∃ q, getLastPosition s (vehicleId dto) true = Some q ∧ timestamp dto < p_timestamp q)
  end.
Proof.
  unfold storePosition. destruct (isRateLimited _ _ _ _) as [s1 limited] eqn:EL.
  pose proof (limited_tables ttlMs now (userId u) s) as HT. rewrite EL in HT. cbv zeta in HT. cbn [fst] in HT.
  destruct HT as (_ & _ & HTd & HTp).
  assert (HF : findDriverByUserId s1 (userId u) = findDriverByUserId s (userId u)) by (unfold findDriverByUserId; by rewrite HTd).
  assert (HLP : getLastPosition s1 (vehicleId dto) true = getLastPosition s (vehicleId dto) true)
    by (unfold getLastPosition; by rewrite HTp).
  destruct limited; [intros [= <- <-]; split; [done|set_solver]|].
  destruct (_ && _); [intros [= <- <-]; split; [done|set_solver]|].
  rewrite HF. destruct (findDriverByUserId s _) as [[id d]|]; [|by intros [= <- <-]].
  destruct (negb _); [intros [= <- <-]; split; [done|set_solver]|]. cbv zeta. rewrite HLP.
  destruct (savePosition _ _ _ _ _ _ _) as [s2 [p|]] eqn:ES; intros [= <- <-];
    destruct (savePosition_guarded _ _ _ _ _ _ _ _ _ ES) as (_ & HP & _); cbn [option_list] in HP; rewrite HTp in HP.
  - destruct (savedRow_from_dto _ _ _ _ _ _ _ _ _ ES) as (c & b & ->). split_and!; try done.
    destruct (getLastPosition s _ _) as [q|]; [|done]. intros Hlt%Z.ltb_lt. by exists q.
  - rewrite app_nil_r in HP. split; [done|set_solver].
Qed.

(** ** Isolation *)

Section Isolation.
Context `{AuthLib} (jm : JsMath) {Raw : Type} (validatePosition : Raw → UpdatePositionDto + list string).
Context (ttlMs max : option Z).
(** The secret of the access tokens, the companies of the users, deliveries and
    vehicles, and accounts that are and remain drivers. *)
Context (secret : string) (companyOf deliveryCompany vehicleCompany : string → string) (alwaysDriver : string → Prop).
(** A token has one payload. *)
Context (Hverify : ∀ t t' tok p p', jwtVerify secret t tok = Some p → jwtVerify secret t' tok = Some p' → p = p').

Notation step := (gatewayStep jm validatePosition ttlMs max).

(** The data agrees with them. *)
Record worldOk (a : AuthStore) (t : TrackingStore) : Prop := {
  user_company : ∀ i x, users a !! i = Some x → companyId x = companyOf i ∧ companyOf i ≠ "";
  driver_role : ∀ i x, users a !! i = Some x → alwaysDriver i → role x = driver;
  delivery_company : ∀ d x, deliveries t !! d = Some x → dl_companyId x = deliveryCompany d;
  vehicle_company : ∀ v x, vehicles t !! v = Some x → vh_companyId x = vehicleCompany v
}.

Definition userOk (c : Client) (u : RequestUser) : Prop := ∃ tok t p,
  extractToken (cl_authToken c) (cl_header c) = Some tok ∧ jwtVerify secret t tok = Some p ∧
  ru_id u = Some (sub p) ∧ ru_companyId u = Some (companyOf (sub p)) ∧ companyOf (sub p) ≠ "" ∧
  (alwaysDriver (sub p) → ru_role u = Some "driver").

(** The rooms a user may be in. *)
Definition roomOk (u : RequestUser) (r : string) : Prop :=
  r = driverRoom (userId u) ∨
  ¬ alwaysDriver (userId u) ∧
    (r = companyRoom (companyOfUser u) ∨ ∃ d, r = deliveryRoom d ∧ deliveryCompany d = companyOfUser u).

Definition clientOk (c : Client) : Prop :=
  (∀ u, cl_user c = Some u → userOk c u) ∧ (∀ x, cl_authCache c = Some x → userOk c (wc_user x)) ∧
  ∀ r, r ∈ cl_rooms c → ∃ u, cl_user c = Some u ∧ roomOk u r.

Definition gatewayOk (g : Gateway) : Prop :=
  worldOk (accounts g) (tracking g) ∧ map_Forall (λ _, clientOk) (clients g).

Lemma userOk_same c u u' : userOk c u → userOk c u' → userId u = userId u' ∧ companyOfUser u = companyOfUser u'.
Proof.
  intros (tok & t & p & Ht & Hp & Hi & Hc & _) (tok' & t' & p' & Ht' & Hp' & Hi' & Hc' & _).
  assert (tok' = tok) as -> by congruence. rewrite (Hverify t' t tok p' p Hp' Hp) in *.
  unfold userId, companyOfUser. rewrite Hi, Hi', Hc, Hc'. done.
Qed.

(** Who a socket speaks for, each time it is verified. *)
Lemma verified_ok env c g u cache :
  JWT_ACCESS_SECRET env = secret → gatewayOk g → clientOk c → verified env c g = WsOk u cache →
  userOk c u ∧ ∀ x, cache = Some x → userOk c (wc_user x).
Proof.
  intros Hs [HW _] (_ & HC & _) HV. unfold verified, wsVerify in HV.
  destruct (extractToken _ _) as [tok|] eqn:ET; [|done]. destruct (negb _); [done|].
  destruct (jwtVerify _ _ _) as [p|] eqn:EP; [|done]. destruct (wrongScope p); [done|].
  case_bool_decide; [done|].
  assert (HF : wsFullCheck env tok p (accounts g) = WsOk u cache → userOk c u ∧ ∀ x, cache = Some x → userOk c (wc_user x)).
  { unfold wsFullCheck. destruct (_ || _); [done|]. destruct (wsRevoked _ _ _); [done|].
    destruct (users (accounts g) !! sub p) as [x|] eqn:EU; [|done]. destruct (negb (isActive x)); [done|].
    destruct (companyGone _ _); [done|]. intros [= <- <-].
    assert (HU : userOk c (userPrincipal (sub p) x None None)).
    { destruct (user_company _ _ HW _ _ EU) as [E1 E2]. exists tok, (now env), p. rewrite <- Hs. cbn. rewrite E1.
      split_and!; try done. intros Hd. by rewrite (driver_role _ _ HW _ _ EU Hd). }
    split; [done|]. by intros y [= <-]. }
  destruct (cl_authCache c) as [y|] eqn:EC; [|by apply HF]. destruct (_ && _); [|by apply HF].
  injection HV as <- <-. split; [by apply HC|]. intros x [= <-]. by apply HC.
Qed.

Lemma remember_ok c u cache :
  clientOk c → userOk c u → (∀ x, cache = Some x → userOk c (wc_user x)) → clientOk (remember u cache c).
Proof.
  intros (HU & HC & HR) Hu Hc. split_and!; [by intros u' [= <-]|done|].
  intros r Hr. destruct (HR r Hr) as (u0 & E0 & Ho). exists u. split; [done|].
  destruct (userOk_same c u u0 Hu (HU u0 E0)) as [E1 E2]. unfold roomOk. by rewrite E1, E2.
Qed.

Lemma gatewayOk_client g cid f :
  gatewayOk g → (∀ c, clients g !! cid = Some c → clientOk (f c)) → gatewayOk (onClient cid f g).
Proof.
  intros [HW HC] Hf. split; [done|]. intros j c Hj. cbn in Hj. destruct (decide (j = cid)) as [->|Hne].
  - rewrite lookup_alter_eq in Hj. destruct (clients g !! cid) as [c0|] eqn:E; [|done]. cbn in Hj. simplify_eq. by apply Hf.
  - rewrite lookup_alter_ne in Hj by done. by apply (HC j).
Qed.

Lemma join_ok g cid c u r :
  gatewayOk g → clients g !! cid = Some c → cl_user c = Some u → roomOk u r → gatewayOk (join cid r g).
Proof.
  intros HG Hc Hu Hr. apply gatewayOk_client; [done|]. intros c' Hc'. assert (c' = c) as -> by congruence.
  destruct HG as [_ HC]. destruct (HC cid c Hc) as (H1 & H2 & H3). split_and!; [done..|].
  intros r'. cbn. rewrite elem_of_union, elem_of_singleton. intros [->|Hr']; [by exists u|by apply H3].
Qed.

Lemma leave_ok g cid r : gatewayOk g → gatewayOk (leave cid r g).
Proof.
  intros HG. apply gatewayOk_client; [done|]. intros c Hc. destruct HG as [_ HC].
  destruct (HC cid c Hc) as (H1 & H2 & H3). split_and!; [done..|]. intros r'. cbn.
  rewrite elem_of_difference. intros [Hr' _]. by apply H3.
Qed.

Lemma gatewayOk_tables g g' :
  gatewayOk g → clients g' = clients g → accounts g' = accounts g →
  vehicles (tracking g') = vehicles (tracking g) → deliveries (tracking g') = deliveries (tracking g) → gatewayOk g'.
Proof.
  intros [[H1 H2 H3 H4] HC] EC EA EV ED. split; [|by rewrite EC].
  constructor; rewrite ?EA, ?EV, ?ED; done.
Qed.

(** What a broadcast tells, and whom it may be told to. *)
Definition concerns (u : RequestUser) (m : Message) : Prop :=
  match m with
  | positionUpdate b => ¬ alwaysDriver (userId u) ∧ vehicleCompany (lv_vehicleId b) = companyOfUser u
  | batchPositionUpdate l =>
      ¬ alwaysDriver (userId u) ∧ Forall (λ b, vehicleCompany (lv_vehicleId b) = companyOfUser u) l
  | driverOffline d _ => ¬ alwaysDriver (userId u) ∧ companyOf d = companyOfUser u
  | dataUpdate c _ _ | toCompany c _ => ¬ alwaysDriver (userId u) ∧ c = companyOfUser u
  | proximityAlert i | toDriver i _ => i = userId u
  | _ => False
  end.

Definition answer (m : Message) : Prop :=
  match m with
  | error_ _ | positionRejected _ | positionSaved _ | positionsRejected _ _ | positionsInvalid _ _
  | positionsSaved _ _ | subscribed _ | unsubscribed _ => True
  | _ => False
  end.

(** Each message reaches a socket it concerns, or answers [sender]. *)
Definition sentOk (sender : option string) (g : Gateway) (sent : Sent) : Prop :=
  ∀ cid m, (cid, m) ∈ sent →
    (answer m ∧ sender = Some cid) ∨ ∃ c u, clients g !! cid = Some c ∧ cl_user c = Some u ∧ concerns u m.

Lemma sentOk_nil sd g : sentOk sd g [].
Proof. by intros cid m ?%not_elem_of_nil. Qed.
Lemma sentOk_app sd g l k : sentOk sd g l → sentOk sd g k → sentOk sd g (l ++ k).
Proof. intros Hl Hk cid m [Hm|Hm]%elem_of_app; [by apply Hl|by apply Hk]. Qed.
Lemma sentOk_answer cid g m : answer m → sentOk (Some cid) g [(cid, m)].
Proof. intros Hm c' m' [= -> ->]%list_elem_of_singleton. by left. Qed.

(** Who is in a room. *)
Lemma room_member g room m0 cid m :
  gatewayOk g → (cid, m) ∈ toRoom room m0 g →
  m = m0 ∧ ∃ c u, clients g !! cid = Some c ∧ cl_user c = Some u ∧ userOk c u ∧ roomOk u room.
Proof.
  intros [_ HC] (-> & c & Hc & Hr)%elem_of_toRoom. split; [done|].
  destruct (HC cid c Hc) as (H1 & _ & H3). destruct (H3 room Hr) as (u & Hu & Ho). exists c, u. by split_and!; [|done| apply H1|].
Qed.

Lemma toCompany_ok sd g c0 m :
  gatewayOk g → (∀ u, ¬ alwaysDriver (userId u) → companyOfUser u = c0 → concerns u m) →
  sentOk sd g (toRoom (companyRoom c0) m g).
Proof.
  intros HG Hm cid m' Hin. destruct (room_member _ _ _ _ _ HG Hin) as (-> & c & u & Hc & Hu & _ & Hr).
  right. exists c, u. split_and!; [done..|]. destruct Hr as [Hr|(Hd & [Hr|(d & Hr & _)])]; [done| |done].
  apply Hm; [done|]. symmetry. by apply companyRoom_inj.
Qed.

Lemma toDelivery_ok sd g d m :
  gatewayOk g → (∀ u, ¬ alwaysDriver (userId u) → companyOfUser u = deliveryCompany d → concerns u m) →
  sentOk sd g (toRoom (deliveryRoom d) m g).
Proof.
  intros HG Hm cid m' Hin. destruct (room_member _ _ _ _ _ HG Hin) as (-> & c & u & Hc & Hu & _ & Hr).
  right. exists c, u. split_and!; [done..|]. destruct Hr as [Hr|(Hd & [Hr|(d' & Hr & Hd')])]; [done..|].
  apply Hm; [done|]. by rewrite (deliveryRoom_inj _ _ Hr).
Qed.

Lemma toDriver_ok sd g i m :
  gatewayOk g → (∀ u, userId u = i → concerns u m) → sentOk sd g (toRoom (driverRoom i) m g).
Proof.
  intros HG Hm cid m' Hin. destruct (room_member _ _ _ _ _ HG Hin) as (-> & c & u & Hc & Hu & _ & Hr).
  right. exists c, u. split_and!; [done..|]. destruct Hr as [Hr|(_ & [Hr|(d' & Hr & _)])]; [|done..].
  apply Hm. symmetry. by apply driverRoom_inj.
Qed.

(** ** Positions *)

Lemma scoped_vehicle c s v x : c ≠ "" → vehicles (scoped c s) !! v = Some x → vehicles s !! v = Some x ∧ vh_companyId x = c.
Proof.
  intros Hc. unfold scoped. rewrite (proj2 (String.eqb_neq _ _)) by done. cbn.
  by intros [H1 H2]%map_lookup_filter_Some.
Qed.
Lemma scoped_delivery c s d x : c ≠ "" → deliveries (scoped c s) !! d = Some x → deliveries s !! d = Some x ∧ dl_companyId x = c.
Proof.
  intros Hc. unfold scoped. rewrite (proj2 (String.eqb_neq _ _)) by done. cbn.
  by intros [H1 H2]%map_lookup_filter_Some.
Qed.

Lemma stored_ok now u window dto s s' driverId dto' late p :
  companyOfUser u ≠ "" → ru_companyId u = Some (companyOfUser u) →
  storePosition jm ttlMs now u window dto (scoped (companyOfUser u) s) = (s', Stored driverId dto' late p) →
  dto' = dto ∧ (∃ v, vehicles s !! p_vehicleId p = Some v ∧ vh_companyId v = companyOfUser u) ∧
  (truthy (deliveryId dto) = true →
     ∃ d, deliveries s !! default "" (deliveryId dto) = Some d ∧ dl_companyId d = companyOfUser u).
Proof.
  intros Hne Hru. unfold storePosition.
  destruct (isRateLimited _ _ _ _) as [s1 limited] eqn:EL.
  pose proof (limited_tables ttlMs now (userId u) (scoped (companyOfUser u) s)) as HT. rewrite EL in HT. cbv zeta in HT. cbn [fst] in HT.
  destruct HT as (HTv & HTd & _). destruct limited; [done|].
  destruct (truthy (deliveryId dto) && _) eqn:EV; [done|].
  destruct (findDriverByUserId _ _) as [[id dr]|]; [|done]. destruct (negb (assertVehicleOwnership _ _ _)); [done|].
  cbv zeta. destruct (savePosition _ _ _ _ _ _ _) as [s2 [p'|]] eqn:ES; [|done]. intros [= <- <- <- <- <-].
  destruct (savePosition_guarded _ _ _ _ _ _ _ _ _ ES) as (_ & _ & HA & _). cbn in HA.
  apply Forall_singleton in HA as (v & Hv & _ & _ & _ & Hco & _). split; [done|]. split.
  - rewrite HTv in Hv. destruct (scoped_vehicle _ _ _ _ Hne Hv) as [Hv' Hvc]. by exists v.
  - intros Ht. rewrite Ht in EV. cbn in EV. apply negb_false_iff in EV. unfold verifyDriverAssignment in EV.
    destruct (deliveries s1 !! _) as [d|] eqn:ED; [|done]. rewrite HTd in ED.
    destruct (scoped_delivery _ _ _ _ Hne ED) as [Hd Hdc]. by exists d.
Qed.

(** What a user's handler keeps: the socket that sent the message is [u]'s. *)
Definition speaks (cid : string) (u : RequestUser) (g : Gateway) : Prop :=
  ∃ c, clients g !! cid = Some c ∧ cl_user c = Some u ∧ userOk c u.

Lemma speaks_company cid u g : speaks cid u g → companyOfUser u ≠ "" ∧ ru_companyId u = Some (companyOfUser u).
Proof.
  intros (c & _ & _ & tok & t & p & _ & _ & _ & Hc & Hne & _). unfold companyOfUser. by rewrite Hc.
Qed.

Lemma speaks_driver cid u g : speaks cid u g → isDriver u = false → ¬ alwaysDriver (userId u).
Proof.
  intros (c & _ & _ & tok & t & p & _ & _ & Hi & _ & _ & Hd) HN Ha. unfold userId in Ha. rewrite Hi in Ha.
  apply bool_decide_eq_false in HN. by apply HN, Hd.
Qed.

Definition handlerOk (sd : option string) (r : Gateway * Sent) : Prop := gatewayOk r.1 ∧ sentOk sd r.1 r.2.

Lemma handlePosition_ok now cid raw u g :
  gatewayOk g → speaks cid u g → handlerOk (Some cid) (handlePosition jm validatePosition ttlMs now cid raw u g).
Proof.
  intros HG HS. destruct (speaks_company _ _ _ HS) as [Hne Hru]. unfold handlePosition, handlerOk.
  destruct (negb (isDriver u)); [split; [done|apply sentOk_nil]|].
  destruct (validatePosition raw) as [dto|?]; [|by split; [|apply sentOk_answer]].
  cbv zeta. unfold runScoped. set (window := default [] _).
  destruct (storePosition _ _ _ _ _ _ _) as [s' ans] eqn:ES.
  set (s1 := s' <| vehicles := _ |> <| drivers := _ |> <| deliveries := _ |>). set (g1 := g <| tracking := s1 |>).
  assert (HG1 : gatewayOk g1) by (by apply (gatewayOk_tables g)).
  destruct ans as [reason| |driverId dto' late p]; [by split; [|apply sentOk_answer]|by split; [|apply sentOk_nil]|].
  destruct (stored_ok _ _ _ _ _ _ _ _ _ _ Hne Hru ES) as (-> & (v & Hv & Hvc) & Hdel).
  unfold publishPosition. cbv zeta. set (g2 := if _ && _ then _ else g1).
  assert (HG2 : gatewayOk g2) by (unfold g2; destruct (_ && _); [by apply (gatewayOk_tables g1)|done]).
  destruct late; [split; [done|apply sentOk_nil]|]. cbn [fst snd].
  pose proof (vehicle_company _ _ (proj1 HG) _ _ Hv) as Hvv. split; [done|].
  apply sentOk_app; [|apply sentOk_app; [|by apply sentOk_answer]].
  - destruct (truthy (deliveryId dto)) eqn:ET; [|apply sentOk_nil]. destruct (Hdel eq_refl) as (d & Hd & Hdc).
    apply toDelivery_ok; [done|]. intros u' Ha Hu'. cbn. split; [done|].
    rewrite Hu', <- (delivery_company _ _ (proj1 HG) _ _ Hd). congruence.
  - apply toCompany_ok; [done|]. intros u' Ha Hu'. cbn. split; [done|]. congruence.
Qed.

(** The rows a batch of the company reports as saved. *)
Lemma batch_rows now uid c raws s s' saved n did rej :
  c ≠ "" →
  validateAndSaveBatch jm validatePosition now max uid c raws (scoped c s) = (s', batch_ok saved n did rej) →
  Forall (λ p, (∃ v, vehicles s !! p_vehicleId p = Some v ∧ vh_companyId v = c) ∧
    ∀ d, p_deliveryId p = Some d → ∃ x, deliveries s !! d = Some x ∧ dl_companyId x = c) saved.
Proof.
  intros Hne. unfold validateAndSaveBatch.
  destruct (isBatchRateLimited _ _ _ _) as [s1 limited] eqn:EL.
  assert (HT : vehicles s1 = vehicles (scoped c s) ∧ deliveries s1 = deliveries (scoped c s)).
  { unfold isBatchRateLimited in EL. by repeat case_match; simplify_eq. }
  destruct HT as [HTv HTd]. destruct limited; [done|]. destruct raws as [[|raw raws]|]; [done| |done].
  destruct (sortOut _ _ _) as [validated rejected]. destruct (findDriverByUserId _ _) as [[id dr]|]; [|done].
  destruct validated as [|x validated]; [by intros [= <- <- <- <- <-]|].
  destruct (saveBatch _ _ _ _ _ _) as [s2 ins] eqn:ES. intros [= <- <- <- <- <-].
  destruct (saveBatch_rows _ _ _ _ _ _ _ _ ES) as (_ & _ & Hsub & _). apply Forall_forall. intros p Hp.
  assert (Hin : p ∈ toInsert (batchLoop jm uid id (x :: validated) (Some c) s1)) by (by eapply elem_of_sublist).
  destruct (batchRow_admissible _ _ _ _ _ _ _ Hin) as (v & Hv & _ & _ & _ & _ & _ & Hd). rewrite HTv in Hv.
  destruct (scoped_vehicle _ _ _ _ Hne Hv) as [Hv' Hvc]. split; [by exists v|]. intros d Ed.
  specialize (Hd d Ed). unfold verifiedDelivery in Hd. rewrite HTd in Hd.
  destruct (deliveries (scoped c s) !! d) as [y|] eqn:EY; [|done].
  destruct (scoped_delivery _ _ _ _ Hne EY) as [Hy Hyc]. by exists y.
Qed.

Lemma batchRooms_elem c saved room : room ∈ batchRooms c saved →
  room = companyRoom c ∨ ∃ p d, p ∈ saved ∧ p_deliveryId p = Some d ∧ room = deliveryRoom d.
Proof.
  unfold batchRooms. set (rooms := omap _ saved).
  assert (HF : ∀ l seen, room ∈ foldl (λ seen r, if bool_decide (r ∈ seen) then seen else seen ++ [r]) seen l →
    room ∈ seen ∨ room ∈ l).
  { induction l as [|r l IH]; intros seen; cbn; [by left|]. intros [H1|H1]%IH; [|right; by right].
    case_bool_decide; [by left|]. apply elem_of_app in H1 as [H1|H1%list_elem_of_singleton]; [by left|].
    right. subst. left. }
  intros [?%not_elem_of_nil|H1]%HF; [done|].
  apply elem_of_app in H1 as [H1|H1%list_elem_of_singleton]; [right|by left].
  unfold rooms in H1. apply list_elem_of_omap in H1 as (p & Hp & Hr). exists p.
  destruct (p_deliveryId p) as [d|]; [|done]. destruct (truthy (Some d)); [|done]. simplify_eq. by exists d.
Qed.

Lemma sentOk_bind {A} sd g (l : list A) f : (∀ x, x ∈ l → sentOk sd g (f x)) → sentOk sd g (l ≫= f).
Proof. intros Hl cid m (x & Hm & Hx)%list_elem_of_bind. by apply (Hl x). Qed.

Lemma handleBatchPosition_ok now cid raws batchId u g :
  gatewayOk g → speaks cid u g →
  handlerOk (Some cid) (handleBatchPosition jm validatePosition max now cid raws batchId u g).
Proof.
  intros HG HS. destruct (speaks_company _ _ _ HS) as [Hne Hru]. unfold handleBatchPosition, handlerOk.
  destruct (negb (isDriver u)); [split; [done|apply sentOk_nil]|]. unfold runScoped.
  destruct (validateAndSaveBatch _ _ _ _ _ _ _ _) as [s' ans] eqn:ES. cbv zeta.
  set (s1 := s' <| vehicles := _ |> <| drivers := _ |> <| deliveries := _ |>). set (g1 := g <| tracking := s1 |>).
  assert (HG1 : gatewayOk g1) by (by apply (gatewayOk_tables g)).
  destruct ans as [| | |saved n did rej]; [by split; [|apply sentOk_answer]..|].
  pose proof (batch_rows _ _ _ _ _ _ _ _ _ _ Hne ES) as Hrows.
  assert (Hinv : sentOk (Some cid) g1 (match rej with [] => [] | _ => [(cid, positionsInvalid batchId rej)] end)).
  { destruct rej; [apply sentOk_nil|by apply sentOk_answer]. }
  destruct (n =? 0)%nat; (split; [exact HG1|]); cbn [fst snd]; apply sentOk_app; try exact Hinv; [by apply sentOk_answer|].
  apply sentOk_app; [|by apply sentOk_answer].
  assert (HB : Forall (λ b, vehicleCompany (lv_vehicleId b) = companyOfUser u) (batchBroadcast jm now did saved s1)).
  { unfold batchBroadcast. apply Forall_forall. intros b Hb. apply elem_of_lookup_imap in Hb as (k & p & -> & Hk).
    apply list_elem_of_lookup_2 in Hk. rewrite Forall_forall in Hrows. destruct (Hrows p Hk) as [(v & Hv & Hvc) _].
    cbn. rewrite <- (vehicle_company _ _ (proj1 HG) _ _ Hv). done. }
  apply sentOk_bind. intros room [->|(p & d & Hp & Hd & ->)]%batchRooms_elem.
  - apply toCompany_ok; [done|]. intros u' Ha Hu'. cbn. split; [done|]. by rewrite Hu'.
  - apply toDelivery_ok; [done|]. intros u' Ha Hu'. cbn. split; [done|].
    rewrite Forall_forall in Hrows. destruct (Hrows p Hp) as [_ Hx]. destruct (Hx d Hd) as (x & Ex & Exc).
    rewrite Hu', <- (delivery_company _ _ (proj1 HG) _ _ Ex), Exc. done.
Qed.

(** ** The other handlers *)

Lemma battery_tables now uid body s :
  vehicles (reportBatteryCritical now uid body s) = vehicles s ∧
  deliveries (reportBatteryCritical now uid body s) = deliveries s.
Proof.
  unfold reportBatteryCritical. destruct (findDriverByUserId _ _) as [[id d]|]; [|done].
  destruct (match br_deliveryId body with Some _ => _ | None => _ end); [done|].
  unfold batteryPosition. cbv zeta. destruct (_ ≫= _); [|done].
  destruct (if truthy _ then _ else _); [|done]. destruct (br_latitude body); [|done].
  destruct (br_longitude body); [|done]. case_bool_decide; [done|].
  destruct (createPosition _ _) as [s'|] eqn:E; [|done]. apply createPosition_Some in E as [-> _]. done.
Qed.

Lemma handleBatteryCritical_ok now body u g sd : gatewayOk g → handlerOk sd (handleBatteryCritical now body u g).
Proof.
  intros HG. unfold handleBatteryCritical. destruct (negb _); (split; [|apply sentOk_nil]); [done|].
  cbn. destruct (battery_tables now (userId u) body (tracking g)) as [E1 E2]. by apply (gatewayOk_tables g).
Qed.

Lemma handleSnooze_ok now did level u g sd : gatewayOk g → handlerOk sd (handleSnoozeProximityAlert now did level u g).
Proof.
  intros HG. unfold handleSnoozeProximityAlert. repeat case_match; (split; [|apply sentOk_nil]); try done.
  by apply (gatewayOk_tables g).
Qed.

Lemma handleSubscribeToDelivery_ok cid did u g :
  gatewayOk g → speaks cid u g → handlerOk (Some cid) (handleSubscribeToDelivery cid did u g).
Proof.
  intros HG HS. unfold handleSubscribeToDelivery. destruct (isDriver u) eqn:ED; [split; [done|apply sentOk_nil]|].
  destruct (negb (truthy did)); [by split; [|apply sentOk_answer]|].
  destruct (negb (getDeliveryInfo _ _ _)) eqn:EI; [by split; [|apply sentOk_answer]|].
  split; [|by apply sentOk_answer]. apply negb_false_iff in EI. unfold getDeliveryInfo in EI.
  destruct (deliveries (tracking g) !! _) as [d|] eqn:EL; [|done]. apply bool_decide_eq_true in EI.
  pose proof HS as (c & Hc & Hu & _). apply (join_ok _ _ c u); [done..|]. right. split; [by eapply speaks_driver|].
  right. eexists. split; [done|]. by rewrite <- (delivery_company _ _ (proj1 HG) _ _ EL).
Qed.

Lemma handleSubscribeToCompany_ok cid u g :
  gatewayOk g → speaks cid u g → handlerOk (Some cid) (handleSubscribeToCompany cid u g).
Proof.
  intros HG HS. unfold handleSubscribeToCompany. destruct (isDriver u) eqn:ED; [split; [done|apply sentOk_nil]|].
  split; [|by apply sentOk_answer]. pose proof HS as (c & Hc & Hu & _). apply (join_ok _ _ c u); [done..|].
  right. split; [by eapply speaks_driver|]. by left.
Qed.

Lemma handle_ok now cid m u g :
  gatewayOk g → speaks cid u g → handlerOk (Some cid) (handle jm validatePosition ttlMs max now cid m u g).
Proof.
  intros HG HS. destruct m; cbn [handle].
  - by apply handlePosition_ok.
  - by apply handleBatchPosition_ok.
  - by apply handleBatteryCritical_ok.
  - by apply handleSnooze_ok.
  - by apply handleSubscribeToDelivery_ok.
  - unfold handleUnsubscribeFromDelivery. destruct (isDriver u); [split; [done|apply sentOk_nil]|].
    split; [by apply leave_ok|by apply sentOk_answer].
  - by apply handleSubscribeToCompany_ok.
  - unfold handleUnsubscribeFromCompany. destruct (isDriver u); [split; [done|apply sentOk_nil]|].
    split; [by apply leave_ok|by apply sentOk_answer].
Qed.

(** ** Connections *)

Lemma handleDisconnect_ok now cid c g sd : gatewayOk g → clients g !! cid = Some c →
  handlerOk sd (handleDisconnect now cid c g).
Proof.
  intros HG Hc. unfold handleDisconnect, handlerOk. set (g1 := g <| clients := _ |>).
  assert (HG1 : gatewayOk g1).
  { split; [apply HG|]. intros j c' Hj. unfold g1 in Hj. cbn in Hj. apply lookup_delete_Some in Hj as [_ Hj].
    by apply (proj2 HG j). }
  destruct (cl_user c) as [u|] eqn:EU; [|split; [done|apply sentOk_nil]].
  destruct (_ && _); [|split; [done|apply sentOk_nil]].
  split; [by apply (gatewayOk_tables g1)|]. cbn [fst snd]. set (g2 := g1 <| disconnectedDrivers := _ |>).
  change (sentOk sd g1 (toRoom (companyRoom (companyOfUser u)) (driverOffline (userId u) now) g1)).
  apply toCompany_ok; [done|]. intros u' Ha Hu'. cbn. split; [done|].
  destruct (proj2 HG cid c Hc) as [HU _]. destruct (HU u EU) as (tok & t & p & _ & _ & Hi & Hco & _).
  rewrite Hu'. unfold userId, companyOfUser. by rewrite Hi, Hco.
Qed.

Lemma verify_ok env cid c g u cache :
  JWT_ACCESS_SECRET env = secret → gatewayOk g → clients g !! cid = Some c → verified env c g = WsOk u cache →
  gatewayOk (onClient cid (remember u cache) g) ∧ speaks cid u (onClient cid (remember u cache) g).
Proof.
  intros Hs HG Hc HV. pose proof (proj2 HG cid c Hc) as HC.
  destruct (verified_ok env c g u cache Hs HG HC HV) as [Hu Hcache]. split.
  - apply gatewayOk_client; [done|]. intros c' Hc'. assert (c' = c) as -> by congruence. by apply remember_ok.
  - exists (remember u cache c). cbn. rewrite lookup_alter_eq, Hc. by split_and!.
Qed.

Lemma handleConnection_ok env cid g :
  JWT_ACCESS_SECRET env = secret → gatewayOk g → handlerOk (Some cid) (handleConnection env cid g).
Proof.
  intros Hs HG. unfold handleConnection. destruct (clients g !! cid) as [c|] eqn:Hc; [|split; [done|apply sentOk_nil]].
  destruct (verified env c g) as [u cache|msg code] eqn:HV.
  - destruct (verify_ok env cid c g u cache Hs HG Hc HV) as [HG1 HS]. cbv zeta. set (g1 := onClient _ _ g) in *.
    pose proof HS as (c1 & Hc1 & Hu1 & _). destruct (isDriver u) eqn:ED.
    + split; [|apply sentOk_nil]. apply (gatewayOk_tables (join cid (driverRoom (userId u)) g1)); [|done..].
      apply (join_ok _ _ c1 u); [done..|]. by left.
    + destruct (truthy _); (split; [|apply sentOk_nil]); [|done]. apply (join_ok _ _ c1 u); [done..|].
      right. split; [by eapply speaks_driver|]. by left.
  - destruct (handleDisconnect_ok (now env) cid c g (Some cid) HG Hc) as [H1 H2].
    destruct (handleDisconnect _ _ _ _) as [g1 sent]. split; [done|].
    apply (sentOk_app _ _ [_] sent); [by apply sentOk_answer|done].
Qed.

Lemma guarded_ok env cid h g :
  JWT_ACCESS_SECRET env = secret → gatewayOk g →
  (∀ u g, gatewayOk g → speaks cid u g → handlerOk (Some cid) (h u g)) → handlerOk (Some cid) (guarded env cid h g).
Proof.
  intros Hs HG Hh. unfold guarded. destruct (clients g !! cid) as [c|] eqn:Hc; [|split; [done|apply sentOk_nil]].
  destruct (verified env c g) as [u cache|msg code] eqn:HV; [|by split; [|apply sentOk_answer]].
  destruct (verify_ok env cid c g u cache Hs HG Hc HV) as [HG1 HS]. by apply Hh.
Qed.

(** ** Runs *)

Definition goodGatewayEvent (e : GatewayEvent (Raw := Raw)) : Prop :=
  match e with
  | Verify _ env | Received _ env _ => JWT_ACCESS_SECRET env = secret
  | Elsewhere a t => worldOk a t
  | _ => True
  end.

Definition sender (e : GatewayEvent (Raw := Raw)) : option string :=
  match e with Verify cid _ | Received cid _ _ => Some cid | _ => None end.

Lemma step_handlerOk e g : gatewayOk g → goodGatewayEvent e → handlerOk (sender e) (step e g).
Proof.
  intros HG He. destruct e as [cid a h|cid env|cid now|cid env m|ev|c ev|c ty|i ev|now|a t]; cbn [gatewayStep sender goodGatewayEvent] in *.
  - destruct (clients g !! cid) eqn:E; (split; [|apply sentOk_nil]); [done|]. split; [apply HG|].
    apply map_Forall_insert_2; [|apply HG]. by split_and!.
  - by apply handleConnection_ok.
  - destruct (clients g !! cid) as [c|] eqn:E; [by apply handleDisconnect_ok|]. split; [done|apply sentOk_nil].
  - apply guarded_ok; [done..|]. intros. by apply handle_ok.
  - split; [done|]. unfold dataUpdateListener. cbn [fst snd]. apply sentOk_app.
    + destruct (_ && _); [|apply sentOk_nil]. apply toDriver_ok; [done|]. by intros u <-.
    + destruct (truthy _); [|apply sentOk_nil]. apply toCompany_ok; [done|]. intros u Ha Hu. by split.
  - split; [done|]. apply toCompany_ok; [done|]. intros u Ha Hu. by split.
  - split; [done|]. apply toCompany_ok; [done|]. intros u Ha Hu. by split.
  - split; [done|]. apply toDriver_ok; [done|]. by intros u <-.
  - split; [by apply (gatewayOk_tables g)|apply sentOk_nil].
  - split; [|apply sentOk_nil]. split; [done|apply HG].
Qed.

(** C4: isolation of the live stream.  Whatever connects, sends and happens in
    the rest of the API, as long as users, deliveries and vehicles keep their
    company: a message a socket receives answers what it sent, or is a broadcast
    about the company of its user, or is addressed to its user; and the phone of
    a driver receives no position, of a colleague or anyone else, and nothing of
    the stream of its company. *)
Theorem gateway_isolation es e g :
  clients g = ∅ → worldOk (accounts g) (tracking g) → Forall goodGatewayEvent es → goodGatewayEvent e →
  let g1 := foldl (λ g e, (step e g).1) g es in
  let '(g2, sent) := step e g1 in
  ∀ cid m, (cid, m) ∈ sent →
    (answer m ∧ sender e = Some cid) ∨ ∃ c u, clients g2 !! cid = Some c ∧ cl_user c = Some u ∧ concerns u m.
Proof.
  intros Hc HW Hes He. cbv zeta.
  assert (HG : gatewayOk (foldl (λ g e, (step e g).1) g es)).
  { assert (HG0 : gatewayOk g) by (split; [done|rewrite Hc; apply map_Forall_empty]).
    clear Hc HW. revert g HG0. induction Hes as [|e' es He' _ IH]; intros g HG0; [done|]. cbn. apply IH.
    by apply step_handlerOk. }
  destruct (step_handlerOk e _ HG He) as [_ HS]. by destruct (step e _).
Qed.
End Isolation.

(** ** Answers *)

Section Answers.
Context `{AuthLib} (jm : JsMath) {Raw : Type} (validatePosition : Raw → UpdatePositionDto + list string).
Context (ttlMs max : option Z).

(** The answers among what is sent. *)
Definition answers (cid : string) (sent : Sent) : list Message :=
  omap (λ '(c, m), if bool_decide (c = cid) then
    match m with positionSaved _ | positionRejected _ => Some m | _ => None end else None) sent.

Lemma answers_toRoom cid room m g :
  (∀ b, m ≠ positionSaved b) → (∀ r, m ≠ positionRejected r) → answers cid (toRoom room m g) = [].
Proof.
  intros H1 H2. unfold answers, toRoom. induction (map_to_list (clients g)) as [|[k c] l IH]; [done|]. cbn.
  destruct (bool_decide (room ∈ cl_rooms c)); [|done]. cbn. case_bool_decide; [|done].
  destruct m; naive_solver.
Qed.

Lemma answers_app cid l k : answers cid (l ++ k) = answers cid l ++ answers cid k.
Proof. apply omap_app. Qed.

(** Every position message of a driver is answered.  The one answer is a
    refusal that says why, and then no position was stored; or an
    acknowledgement, and then one was stored, with the data of the message and
    the speed resolved, and broadcast to the room of the company.  Two cases are
    not answered: the driver has no profile, and the position, which is stored,
    is older than the last one. *)
Theorem position_answered now cid raw u g :
  isDriver u = true →
  let '(g', sent) := handlePosition jm validatePosition ttlMs now cid raw u g in
  match answers cid sent with
  | [positionRejected reason] => positions (tracking g') = positions (tracking g) ∧
      reason ∈ ["invalid_payload"; "rate_limited"; "not_assigned"; "vehicle_mismatch"; "rejected"]
  | [positionSaved suspect] => ∃ dto p b, validatePosition raw = inl dto ∧
      positions (tracking g') = positions (tracking g) ++ [p] ∧ p_suspect p = suspect ∧
      p_vehicleId p = vehicleId dto ∧ p_timestamp p = timestamp dto ∧
      p_latitude p = latitude dto ∧ p_longitude p = longitude dto ∧
      lv_vehicleId b = vehicleId dto ∧ lv_timestamp b = timestamp dto ∧
      ∀ k c, clients g !! k = Some c → companyRoom (companyOfUser u) ∈ cl_rooms c → (k, positionUpdate b) ∈ sent
  | [] => sent = [] ∧ ∃ dto, validatePosition raw = inl dto ∧
      (findDriverByUserId (scoped (companyOfUser u) (tracking g)) (userId u) = None ∧
       positions (tracking g') = positions (tracking g) ∨
       ∃ p q, positions (tracking g') = positions (tracking g) ++ [p] ∧ p_timestamp p = timestamp dto ∧
         getLastPosition (tracking g) (vehicleId dto) true = Some q ∧ timestamp dto < p_timestamp q)
  | _ => False
  end.
Proof.
  intros HD. unfold handlePosition. rewrite HD. cbn [negb].
  destruct (validatePosition raw) as [dto|?].
  2: { unfold answers. cbn. rewrite bool_decide_eq_true_2 by done. split; [done|set_solver]. }
  cbv zeta. unfold runScoped. set (window := default [] _).
  destruct (storePosition _ _ _ _ _ _ _) as [s' ans] eqn:ES. apply storePosition_cases in ES.
  assert (EP : positions (scoped (companyOfUser u) (tracking g)) = positions (tracking g)).
  { unfold scoped. by destruct (String.eqb _ _). }
  assert (EG : getLastPosition (scoped (companyOfUser u) (tracking g)) (vehicleId dto) true
               = getLastPosition (tracking g) (vehicleId dto) true) by (unfold getLastPosition; by rewrite EP).
  rewrite EP, EG in ES. set (s1 := s' <| vehicles := _ |> <| drivers := _ |> <| deliveries := _ |>).
  assert (EP1 : positions s1 = positions s') by done.
  destruct ans as [reason| |driverId dto' late p].
  - destruct ES as [E1 E2]. unfold answers. cbn [omap list_omap]. rewrite bool_decide_eq_true_2 by done. split; [done|set_solver].
  - destruct ES as [E1 E2]. split; [done|]. exists dto. split; [done|]. by left.
  - destruct ES as (-> & E1 & E2 & E3 & E4 & E5 & E6). unfold publishPosition. cbv zeta.
    set (g2 := if _ && _ then _ else _).
    assert (E : tracking g2 = s1 ∧ clients g2 = clients g) by (unfold g2; by destruct (_ && _)). destruct E as [ET EC].
    destruct late.
    + split; [done|]. exists dto. split; [done|]. right. rewrite ET, EP1. destruct (E6 eq_refl) as (q & Hq & Hlt).
      by exists p, q.
    + set (b := liveFix _ _ _ _). rewrite !answers_app, (answers_toRoom cid (companyRoom _)) by done.
      assert (Hd : ∀ (t : bool) room, answers cid (if t then toRoom room (positionUpdate b) g2 else []) = []).
      { intros [] room; [by apply answers_toRoom|done]. }
      rewrite Hd. cbn [app]. unfold answers. cbn [omap list_omap]. rewrite bool_decide_eq_true_2 by done.
      exists dto, p, b. rewrite ET, EP1. split_and!; try done. intros k c Hk Hr.
      rewrite !elem_of_app. right. left. apply elem_of_toRoom. split; [done|]. exists c. by rewrite EC.
Qed.
End Answers.

(** ** Two companies *)

Definition liveToken (uid role cid : string) : option string :=
  Some (exampleSign "access" "15m" 1000
    (sessionPayload (exampleAuthEnv "0" 1000) uid (uid +:+ "@x.mg") role cid "Ana" "Rabe" None "s1")).
Definition liveUser (uid : string) (r : UserRole) (cid : string) : User :=
  newUser (uid +:+ "@x.mg") "h:right" "Ana" "Rabe" None r cid.

Definition car1 : string := "00000000-0000-0001".
Definition car2 : string := "00000000-0000-0002".
Definition liveAccounts : AuthStore :=
  mkAuthStore {[ "boss1" := liveUser "boss1" dispatcher "c1"; "boss2" := liveUser "boss2" dispatcher "c2";
                 "drv1" := liveUser "drv1" driver "c1" ]} ∅
    {[ "c1" := mkCompany "Rapid" None None; "c2" := mkCompany "Lent" None None ]} ∅ ∅ ∅ ∅ None ∅ ∅ [].
Definition liveTracking : TrackingStore :=
  mkTracking (<[car1 := mkVehicle "c1" true None phone]> {[ car2 := mkVehicle "c2" true None phone ]})
    {[ "d1" := TrackingModel.mkDriver (Some "drv1") "c1" (Some car1) ]} ∅ ∅ ∅ [] [] ∅ ∅ noMetrics [] [].
Definition liveGateway : Gateway := mkGateway ∅ ∅ ∅ liveAccounts liveTracking.

Definition fixAt (vid : string) (t : Z) : UpdatePositionDto :=
  mkDto (num_of_Z (-18)) (num_of_Z 47) None None None (Some (num_of_Z 8)) t None vid.

(** A dispatcher of each company and a driver of the first connect. *)
Definition connections : list (GatewayEvent (Raw := UpdatePositionDto)) :=
  [Connected "desk1" (liveToken "boss1" "dispatcher" "c1") None;
   Connected "desk2" (liveToken "boss2" "dispatcher" "c2") None;
   Connected "phone" (liveToken "drv1" "driver" "c1") None;
   Verify "desk1" (exampleAuthEnv "1" 2000); Verify "desk2" (exampleAuthEnv "2" 2000);
   Verify "phone" (exampleAuthEnv "3" 2000)].

Definition liveStep := @gatewayStep exampleLib coarseMath UpdatePositionDto inl (Some 1000) (Some 30).
Definition liveRun (es : list GatewayEvent) (g : Gateway) : Gateway := foldl (λ g e, (liveStep e g).1) g es.

Definition sendsFix (vid : string) (t : Z) : GatewayEvent (Raw := UpdatePositionDto) :=
  Received "phone" (exampleAuthEnv "4" t) (UpdatePosition (fixAt vid t)).

Definition liveCompanyOf (i : string) : string := if bool_decide (i = "boss2") then "c2" else "c1".
Definition liveVehicleCompany (v : string) : string := if bool_decide (v = car1) then "c1" else "c2".

Lemma exampleVerify_payload k t t' tok p p' :
  exampleVerify k t tok = Some p → exampleVerify k t' tok = Some p' → p = p'.
Proof.
  unfold exampleVerify. destruct (exampleDecode tok) as [[[[k' d] t0] q]|]; [|done].
  destruct (_ && _); [|done]. intros [= ->]. destruct (_ && _); [|done]. by intros [= ->].
Qed.

Lemma liveWorld : worldOk liveCompanyOf (λ _, "c1") liveVehicleCompany (λ i, i = "drv1") liveAccounts liveTracking.
Proof.
  constructor.
  - intros i x Hx. change (({[ "boss1" := liveUser "boss1" dispatcher "c1"; "boss2" := liveUser "boss2" dispatcher "c2";
      "drv1" := liveUser "drv1" driver "c1" ]} : gmap string User) !! i = Some x) in Hx.
    do 2 (apply lookup_insert_Some in Hx as [[<- <-]|[_ Hx]]; [done|]). by apply lookup_singleton_Some in Hx as [<- <-].
  - intros i x Hx ->. vm_compute in Hx. by injection Hx as <-.
  - intros d x Hx. change ((∅ : gmap string TrackingModel.Delivery) !! d = Some x) in Hx. by rewrite lookup_empty in Hx.
  - intros v x Hx. change ((<[car1 := mkVehicle "c1" true None phone]> {[ car2 := mkVehicle "c2" true None phone ]}
      : gmap string TrackingModel.Vehicle) !! v = Some x) in Hx.
    apply lookup_insert_Some in Hx as [[<- <-]|[_ Hx]]; [done|]. by apply lookup_singleton_Some in Hx as [<- <-].
Qed.

Lemma gateway_isolation_witness :
  let g1 := liveRun connections liveGateway in
  let '(g2, sent) := liveStep (sendsFix car1 3000) g1 in
  map fst sent = ["desk1"; "phone"] ∧
  ∀ cid m, (cid, m) ∈ sent → (answer m ∧ Some "phone" = Some cid) ∨
    ∃ c u, clients g2 !! cid = Some c ∧ cl_user c = Some u ∧
      concerns liveCompanyOf liveVehicleCompany (λ i, i = "drv1") u m.
Proof.
  pose proof (@gateway_isolation exampleLib coarseMath UpdatePositionDto inl (Some 1000) (Some 30) "access" liveCompanyOf
    (λ _, "c1") liveVehicleCompany (λ i, i = "drv1") (exampleVerify_payload "access") connections (sendsFix car1 3000)
    liveGateway eq_refl liveWorld ltac:(repeat apply Forall_cons_2; first [exact I | reflexivity | apply Forall_nil_2])
    eq_refl) as HI.
  cbv zeta in HI |- *. fold liveStep in HI. fold (liveRun connections liveGateway) in HI.
  assert (HS : map fst (liveStep (sendsFix car1 3000) (liveRun connections liveGateway)).2 = ["desk1"; "phone"])
    by (vm_compute; reflexivity).
  destruct (liveStep _ _) as [g2 sent]. split; [exact HS|exact HI].
Defined.

Definition phoneUser : RequestUser := userPrincipal "drv1" (liveUser "drv1" driver "c1") None None.

Lemma position_answered_witness :
  let '(g', sent) := @handlePosition coarseMath UpdatePositionDto inl (Some 1000) 3000 "phone" (fixAt car1 3000) phoneUser liveGateway in
  answers "phone" sent = [positionSaved false] ∧ ∃ p, positions (tracking g') = positions (tracking liveGateway) ++ [p].
Proof.
  pose proof (@position_answered coarseMath UpdatePositionDto inl (Some 1000) 3000 "phone" (fixAt car1 3000) phoneUser
    liveGateway eq_refl) as HI.
  assert (HA : answers "phone" (@handlePosition coarseMath UpdatePositionDto inl (Some 1000) 3000 "phone"
    (fixAt car1 3000) phoneUser liveGateway).2 = [positionSaved false]) by (vm_compute; reflexivity).
  destruct (handlePosition _ _ _ _ _ _ _ _) as [g' sent]. cbn [snd] in HA. rewrite HA in HI. split; [exact HA|].
  destruct HI as (dto & p & b & _ & HP & _). by exists p.
Defined.

(** ** What the gateway does not do *)

(** A fix older than the last one is stored, and the phone is not told. *)
Lemma late_fix_not_acknowledged :
  let '(g, sent) := liveStep (Received "phone" (exampleAuthEnv "5" 62000) (UpdatePosition (fixAt car1 4000))) (liveRun (connections ++ [sendsFix car1 60000]) liveGateway) in
  sent = [] ∧ length (positions (tracking g)) = 2%nat.
Proof. vm_compute. split; reflexivity. Qed.

(** The session of a dispatcher is revoked and the account deactivated: the
    socket still receives the positions of the company, because only a message it
    sends is verified. *)
Definition revokedAccounts : AuthStore :=
  liveAccounts <| users := <["boss1" := (liveUser "boss1" dispatcher "c1") <| isActive := false |>]> (users liveAccounts) |>
               <| redisDb := redis_set 2500 "revoked:user:boss1" "3" 86400 (redisDb liveAccounts) |>.

Lemma revoked_socket_still_receives :
  let g := liveRun (connections ++ [Elsewhere revokedAccounts liveTracking]) liveGateway in
  map fst (liveStep (sendsFix car1 600000) g).2 = ["desk1"; "phone"].
Proof. vm_compute. reflexivity. Qed.

(** A message on a token that has expired is answered by a text that does not
    tell it from another failure, and the socket stays in its rooms. *)
Lemma expired_socket_stays :
  let g := liveRun connections liveGateway in
  let '(g', sent) := liveStep (Received "desk1" (exampleAuthEnv "5" 1000000) SubscribeToCompany) g in
  sent = [("desk1", error_ "Internal server error")] ∧
  map fst (toRoom (companyRoom "c1") (toCompany "c1" "x") g') = ["desk1"].
Proof. vm_compute. split; reflexivity. Qed.

(** A driver's battery report writes a position for the vehicle of another
    company. *)
Lemma battery_crosses_companies :
  let body := mkBattery (Some car2) None (Some (num_of_Z 999)) (Some (num_of_Z 0)) in
  let '(g, _) := liveStep (Received "phone" (exampleAuthEnv "5" 3000) (BatteryCritical body)) (liveRun connections liveGateway) in
  (vh_companyId <$> vehicles (tracking g) !! car2) = Some "c2" ∧
  (λ p, (p_companyId p, p_latitude p)) <$> getLastPosition (tracking g) car2 true = Some ("c1", num_of_Z 999).
Proof. vm_compute. split; reflexivity. Qed.
