(* ===== verification/ClientSession.v ===== *)
(** * Frontend: the session of the tabs

    frontend/src/services/auth/refreshToken.ts, run by every tab of a browser
    against AuthService.refresh (Auth.v), and the response interceptor of
    services/api/client.ts.  The refresh is split at its awaits (the Web Lock,
    the CSRF token, the POST), so that the tabs, the server and the network
    interleave; the refresh cookie belongs to the browser, so all tabs share it. *)

From S2P Require Import Prelude JsString Redis AuthModel Auth.

#[local] Open Scope string_scope.
#[local] Open Scope list_scope.
#[local] Open Scope Z_scope.

(** ** refreshToken.ts *)

Inductive Reason := network | expired.
#[export] Instance Reason_eq_dec : EqDecision Reason.
Proof. solve_decision. Defined.
Record RefreshOutcome := mkOutcome { token : option string; reason : Reason }.

(** The answer of POST /auth/refresh. *)
Inductive Answer := Refreshed (r : TokenResponse) | Refused (status : Z).

(** Where the promise of a tab is: [FetchingCsrf] and [Posting] carry
    [csrfRetried]; [Posting] the cookie sent, until the server takes it. *)
Inductive Phase :=
  | Queued
  | FetchingCsrf (csrfRetried : bool)
  | Posting (csrfRetried : bool) (cookie : string)
  | Answered (csrfRetried : bool) (answer : Answer).

Record Tab := mkTab {
  refreshPromise : option Phase;
  callers : nat;  (** calls that await the promise *)
  accessToken_ : option string;
  outcomes : list RefreshOutcome  (** of the promises so far, oldest first *)
}.

(** [clock] is the time of the last request the server took; [late], the
    cookies of requests whose tab gave up before the server took them. *)
Record Browser := mkBrowser {
  server : AuthStore;
  clock : Z;
  jar : string;  (** the cookie refreshToken *)
  tabs : gmap nat Tab;
  lockHolder : option nat;
  lockQueue : list nat;
  late : list string
}.

Definition onTab (i : nat) (f : Tab → Tab) (w : Browser) : Browser := w <| tabs := alter f i (tabs w) |>.

Definition setPhase (i : nat) (p : Phase) : Browser → Browser := onTab i (λ t, t <| refreshPromise := Some p |>).

(** The lock is released and goes to the first tab that waits for it. *)
Definition releaseLock (i : nat) (w : Browser) : Browser :=
  let w := w <| lockQueue := filter (λ j, j ≠ i) (lockQueue w) |> in
  if bool_decide (lockHolder w = Some i) then
    match lockQueue w with
    | [] => w <| lockHolder := None |>
    | j :: q => setPhase j (FetchingCsrf false) (w <| lockHolder := Some j |> <| lockQueue := q |>)
    end
  else w.

(** [runRefreshExclusive]: with Web Locks, [doRefresh] starts under the lock. *)
Definition runRefreshExclusive (hasWebLocks : bool) (i : nat) (w : Browser) : Browser :=
  if hasWebLocks then
    match lockHolder w with
    | None => setPhase i (FetchingCsrf false) (w <| lockHolder := Some i |>)
    | Some _ => setPhase i Queued (w <| lockQueue := lockQueue w ++ [i] |>)
    end
  else setPhase i (FetchingCsrf false) w.

(** A call of [refreshAccessToken] or [refreshAccessTokenOutcome]. *)
Definition sharedRefresh (hasWebLocks : bool) (i : nat) (w : Browser) : Browser :=
  match tabs w !! i with
  | None => w
  | Some t =>
      let w := onTab i (λ t, t <| callers := S (callers t) |>) w in
      match refreshPromise t with Some _ => w | None => runRefreshExclusive hasWebLocks i w end
  end.

(** The promise of a tab ends. *)
Definition settle (i : nat) (o : RefreshOutcome) (w : Browser) : Browser :=
  releaseLock i (onTab i (λ t, t <| refreshPromise := None |> <| callers := 0%nat |>
                                 <| outcomes := outcomes t ++ [o] |>) w).

(** [postRefresh]. *)
Definition postRefresh (i : nat) (csrfRetried : bool) (w : Browser) : Browser :=
  setPhase i (Posting csrfRetried (jar w)) w.

(** The answer reaches the tab: [doRefresh] after its POST. *)
Definition onAnswer (i : nat) (csrfRetried : bool) (a : Answer) (w : Browser) : Browser :=
  match a with
  | Refreshed r =>
      let t := accessToken r in
      let w := w <| jar := refreshToken r |> in
      if String.eqb t "" then settle i (mkOutcome None expired) w
      else settle i (mkOutcome (Some t) expired) (onTab i (λ x, x <| accessToken_ := Some t |>) w)
  | Refused status =>
      if (status =? 403) && negb csrfRetried then setPhase i (FetchingCsrf true) w
      else settle i (mkOutcome None (if status =? 401 then expired else network)) w
  end.

(** ** The server *)

Section Server.
Context `{AuthLib}.

(** POST /auth/refresh with the cookie [c], empty when there is none. *)
Definition serve (env : AuthEnv) (c : string) (s : AuthStore) : AuthStore * Answer :=
  if String.eqb c "" then (s, Refused 401)
  else match refresh env c s with
  | (s, Ok r) => (s, Refreshed r)
  | (s, Throw (UnauthorizedException _)) => (s, Refused 401)
  | (s, Throw _) => (s, Refused 500)
  end.

(** What can happen.  [Reject]: the CSRF guard, the throttler or the server
    itself refuses the request before the handler.  [GiveUp]: the answer of the
    request is not received, because of a timeout of 30 s or because the tab is
    gone; a request the server has not taken may still reach it.  The GET of the
    CSRF token has no timeout, so only closing the tab interrupts it. *)
Inductive TabEvent :=
  | Call (i : nat)
  | CsrfFetched (i : nat)
  | Serve (i : nat) (env : AuthEnv)
  | Reject (i : nat) (status : Z)
  | Deliver (i : nat)
  | GiveUp (i : nat) (closed : bool)
  | ServeLate (env : AuthEnv) (c : string) (rest : list string).

Definition phaseOf (w : Browser) (i : nat) : option Phase := t ← tabs w !! i; refreshPromise t.

Definition closeTab (i : nat) (closed : bool) (w : Browser) : Browser :=
  let w := settle i (mkOutcome None network) w in
  if closed then w <| tabs := delete i (tabs w) |> else w.

Definition tabStep (hasWebLocks : bool) (e : TabEvent) (w : Browser) : option Browser :=
  match e with
  | Call i => if bool_decide (is_Some (tabs w !! i)) then Some (sharedRefresh hasWebLocks i w) else None
  | CsrfFetched i =>
      match phaseOf w i with Some (FetchingCsrf again) => Some (postRefresh i again w) | _ => None end
  | Serve i env =>
      match phaseOf w i with
      | Some (Posting again c) =>
          if clock w <=? now env
          then Some (setPhase i (Answered again (serve env c (server w)).2)
                       (w <| server := (serve env c (server w)).1 |> <| clock := now env |>))
          else None
      | _ => None
      end
  | Reject i status =>
      match phaseOf w i with
      | Some (Posting again _) =>
          if (status =? 403) || (status =? 429) || (500 <=? status)
          then Some (setPhase i (Answered again (Refused status)) w) else None
      | _ => None
      end
  | Deliver i =>
      match phaseOf w i with Some (Answered again a) => Some (onAnswer i again a w) | _ => None end
  | GiveUp i closed =>
      match phaseOf w i with
      | Some (Posting _ c) => Some (closeTab i closed (w <| late := c :: late w |>))
      | Some (Answered _ _) => Some (closeTab i closed w)
      | Some (FetchingCsrf _) => if closed then Some (closeTab i closed w) else None
      | _ => None
      end
  | ServeLate env c rest =>
      if bool_decide (late w ≡ₚ c :: rest) && (clock w <=? now env)
      then Some (w <| server := (serve env c (server w)).1 |> <| clock := now env |> <| late := rest |>)
      else None
  end.
End Server.

(** ** client.ts: the response interceptor *)

(** What comes back for one send of a request. *)
Inductive Response :=
  | Success (status : Z)
  | Timeout  (** ECONNABORTED *)
  | NoResponse
  | NoRequest  (** the request could not be made *)
  | ErrorStatus (status : Z) (csrfMessage subscriptionRequired : bool).

(** The flags the interceptor leaves on [error.config]. *)
Record Config := mkConfig {
  networkRetry : bool;
  csrfRetry : bool;
  retry : bool;
  hadAuthHeader : bool;
  isRefreshRequest : bool
}.

Inductive Page := Stay | Login | Paywall.

(** The end of a request: resolved or rejected, and where the page goes. *)
Record Settled := mkSettled { resolved : bool; page : Page; sends : nat }.

(** What the interceptor decides on a response. *)
Inductive Decision_ :=
  | Resolve
  | RejectError (p : Page)
  | SendAgain (c : Config)
  | RefreshThen (c : Config).

Definition interceptor (oauthCallback : bool) (c : Config) (r : Response) : Decision_ :=
  let retryable := match r with Timeout | NoResponse => true | _ => false end in
  if retryable && negb (networkRetry c) then SendAgain (c <| networkRetry := true |>)
  else
    match r with
    | Success _ => Resolve
    | Timeout | NoResponse | NoRequest => RejectError Stay
    | ErrorStatus status csrfMessage subscriptionRequired =>
        if (status =? 403) && csrfMessage && negb (csrfRetry c) then SendAgain (c <| csrfRetry := true |>)
        else if (status =? 402) && subscriptionRequired then RejectError Paywall
        else if negb (status =? 401) || retry c then RejectError Stay
        else if isRefreshRequest c then RejectError (if oauthCallback then Stay else Login)
        else if negb (hadAuthHeader c) then RejectError Stay
        else RefreshThen (c <| retry := true |>)
    end.

(** One call of [api], fed with the responses to its sends and the outcomes of
    [refreshAccessTokenOutcome]; [None] when they run out. *)
Fixpoint api (oauthCallback : bool) (c : Config) (rs : list Response) (refreshes : list RefreshOutcome)
    (n : nat) : option Settled :=
  match rs with
  | [] => None
  | r :: rs =>
      match interceptor oauthCallback c r with
      | Resolve => Some (mkSettled true Stay (S n))
      | RejectError p => Some (mkSettled false p (S n))
      | SendAgain c => api oauthCallback c rs refreshes (S n)
      | RefreshThen c =>
          match refreshes with
          | [] => None
          | o :: os =>
              if truthy (token o) then api oauthCallback c rs os (S n)
              else if bool_decide (reason o = network) then Some (mkSettled false Stay (S n))
              else Some (mkSettled false Login (S n))
          end
      end
  end.
