(* ===== verification/ClientSessionProps.v ===== *)
(** * Frontend: what the shared refresh and the interceptor promise

    With the Web Lock, the tabs of a browser refresh one at a time, and the
    cookie they share stays acceptable to AuthService.refresh; without it, three
    tabs that refresh together are not all served.  A request is sent a bounded
    number of times. *)

From S2P Require Import Prelude JsString Redis AuthModel AuthExample Auth AuthProps ClientSession.

#[local] Open Scope string_scope.
#[local] Open Scope list_scope.
#[local] Open Scope Z_scope.

(** ** The lock *)

Lemma phaseOf_onTab i f w j :
  phaseOf (onTab i f w) j = if decide (j = i) then t ← tabs w !! i; refreshPromise (f t) else phaseOf w j.
Proof.
  unfold phaseOf, onTab. cbn. destruct (decide (j = i)) as [->|Hne].
  - rewrite lookup_alter_eq. by destruct (tabs w !! i).
  - by rewrite lookup_alter_ne.
Qed.

Lemma phaseOf_setPhase i p w j :
  phaseOf (setPhase i p w) j = if decide (j = i) then tabs w !! i ≫= λ _, Some p else phaseOf w j.
Proof. unfold setPhase. by rewrite phaseOf_onTab. Qed.

(** Whoever refreshes holds the lock, whoever waits for it is in the queue, and
    the lock is not held by a tab that has nothing to do. *)
Record lockOk (w : Browser) : Prop := {
  holder_active : ∀ i p, phaseOf w i = Some p → p ≠ Queued → lockHolder w = Some i;
  queued_waits : ∀ i, phaseOf w i = Some Queued ↔ i ∈ lockQueue w;
  queue_nodup : NoDup (lockQueue w);
  active_holder : ∀ h, lockHolder w = Some h → ∃ p, phaseOf w h = Some p ∧ p ≠ Queued;
  free_empty : lockHolder w = None → lockQueue w = []
}.

(** What a tab that holds the lock is doing. *)
Definition active (w : Browser) : option Phase := h ← lockHolder w; phaseOf w h.

Lemma lockOk_ext w w' :
  (∀ i, phaseOf w' i = phaseOf w i) → lockHolder w' = lockHolder w → lockQueue w' = lockQueue w →
  lockOk w → lockOk w'.
Proof.
  intros HP HH HQ [H1 H2 H3 H4 H5]. constructor; rewrite ?HH, ?HQ; try done.
  - intros i p. rewrite HP. apply H1.
  - intros i. rewrite HP. apply H2.
  - intros h Hh. rewrite HP. by apply H4.
Qed.

(** The holder goes on to another phase. *)
Lemma lockOk_setPhase i p w :
  lockOk w → lockHolder w = Some i → p ≠ Queued → lockOk (setPhase i p w) ∧ active (setPhase i p w) = Some p.
Proof.
  intros [H1 H2 H3 H4 H5] Hi Hp.
  assert (HT : ∃ t, tabs w !! i = Some t).
  { destruct (H4 i Hi) as (q & Hq & _). unfold phaseOf in Hq. destruct (tabs w !! i) as [t|]; [by exists t|done]. }
  destruct HT as [t Ht]. assert (HP : ∀ j, phaseOf (setPhase i p w) j = if decide (j = i) then Some p else phaseOf w j).
  { intros j. rewrite phaseOf_setPhase, Ht. done. }
  assert (Hiq : i ∉ lockQueue w).
  { intros Hin. apply H2 in Hin. destruct (H4 i Hi) as (q & Hq & Hne). congruence. }
  split; [constructor|]; cbn.
  - intros j q. rewrite HP. destruct (decide (j = i)) as [->|]; [done|]. apply H1.
  - intros j. rewrite HP. destruct (decide (j = i)) as [->|]; [|apply H2]. split; [congruence|done].
  - done.
  - intros h Hh. rewrite HP. destruct (decide (h = i)); [by exists p|by apply H4].
  - done.
  - unfold active. cbn. rewrite Hi. cbn. rewrite HP. by rewrite decide_True.
Qed.

Lemma sharedRefresh_lock i w :
  lockOk w → is_Some (tabs w !! i) → lockOk (sharedRefresh true i w) ∧
  (active (sharedRefresh true i w) = active w ∨
   active w = None ∧ active (sharedRefresh true i w) = Some (FetchingCsrf false)).
Proof.
  intros HL [t Ht]. unfold sharedRefresh. rewrite Ht.
  set (w1 := onTab i _ w).
  assert (HP1 : ∀ j, phaseOf w1 j = phaseOf w j).
  { intros j. unfold w1. rewrite phaseOf_onTab. destruct (decide (j = i)) as [->|]; [|done].
    unfold phaseOf. by rewrite Ht. }
  assert (HL1 : lockOk w1) by (by apply (lockOk_ext w)).
  assert (HA1 : active w1 = active w).
  { unfold active. change (lockHolder w1) with (lockHolder w). destruct (lockHolder w); [apply HP1|done]. }
  destruct (refreshPromise t) as [p|] eqn:ER; [split; [done|by left]|].
  assert (Hidle : phaseOf w i = None) by (unfold phaseOf; by rewrite Ht).
  assert (Ht1 : ∃ t1, tabs w1 !! i = Some t1) by (unfold w1, onTab; cbn; rewrite lookup_alter_eq, Ht; by eexists).
  destruct Ht1 as [t1 Ht1]. unfold runRefreshExclusive. change (lockHolder w1) with (lockHolder w).
  destruct HL1 as [H1 H2 H3 H4 H5]. destruct (lockHolder w) as [h|] eqn:EH.
  - assert (Hih : h ≠ i).
    { intros ->. destruct (H4 i EH) as (p & Hp & _). rewrite HP1 in Hp. congruence. }
    set (w2 := w1 <| lockQueue := lockQueue w1 ++ [i] |>).
    assert (HP : ∀ j, phaseOf (setPhase i Queued w2) j = if decide (j = i) then Some Queued else phaseOf w1 j).
    { intros j. rewrite phaseOf_setPhase. change (tabs w2) with (tabs w1). rewrite Ht1. done. }
    assert (HQ : lockQueue (setPhase i Queued w2) = lockQueue w1 ++ [i]) by done.
    assert (HH : lockHolder (setPhase i Queued w2) = Some h) by exact EH.
    split.
    + constructor; rewrite ?HQ, ?HH.
      * intros j p. rewrite HP. destruct (decide (j = i)); [congruence|]. intros Hp Hne. rewrite <- EH. by eapply H1.
      * intros j. rewrite HP, elem_of_app, list_elem_of_singleton. destruct (decide (j = i)) as [->|]; [naive_solver|].
        rewrite H2. naive_solver.
      * apply NoDup_app. split_and!; [done| |apply NoDup_singleton]. intros j Hj ->%list_elem_of_singleton.
        apply H2 in Hj. rewrite HP1 in Hj. congruence.
      * intros h' [= <-]. rewrite HP, decide_False by done. by apply H4.
      * done.
    + left. unfold active. rewrite HH. cbn. rewrite HP, decide_False by done. by rewrite HP1, EH.
  - set (w2 := w1 <| lockHolder := Some i |>).
    assert (HP : ∀ j, phaseOf (setPhase i (FetchingCsrf false) w2) j =
      if decide (j = i) then Some (FetchingCsrf false) else phaseOf w1 j).
    { intros j. rewrite phaseOf_setPhase. change (tabs w2) with (tabs w1). rewrite Ht1. done. }
    assert (HQ : lockQueue (setPhase i (FetchingCsrf false) w2) = []) by (exact (H5 EH)).
    assert (HH : lockHolder (setPhase i (FetchingCsrf false) w2) = Some i) by done.
    split.
    + constructor; rewrite ?HQ, ?HH.
      * intros j p. rewrite HP. destruct (decide (j = i)) as [->|]; [done|]. intros Hp Hne.
        specialize (H1 _ _ Hp Hne). change (lockHolder w1) with (lockHolder w) in H1. congruence.
      * intros j. rewrite HP. destruct (decide (j = i)) as [->|]; [split; [congruence|by intros ?%not_elem_of_nil]|].
        rewrite H2. by rewrite (H5 EH).
      * constructor.
      * intros h' [= <-]. rewrite HP, decide_True by done. by eexists.
      * done.
    + right. unfold active. rewrite EH, HH. cbn. by rewrite HP, decide_True.
Qed.

Lemma settle_lock i o w :
  lockOk w → lockHolder w = Some i →
  lockOk (settle i o w) ∧ phaseOf (settle i o w) i = None ∧
  (active (settle i o w) = None ∨ active (settle i o w) = Some (FetchingCsrf false)).
Proof.
  intros HL Hi. pose proof HL as [H1 H2 H3 H4 H5]. destruct (H4 i Hi) as (pi & Hpi & Hne).
  assert (Hiq : i ∉ lockQueue w) by (rewrite <- H2; congruence).
  unfold settle. set (w1 := onTab i _ w).
  assert (HP1 : ∀ j, phaseOf w1 j = if decide (j = i) then None else phaseOf w j).
  { intros j. unfold w1. rewrite phaseOf_onTab. destruct (decide (j = i)) as [->|]; [|done].
    by destruct (tabs w !! i). }
  unfold releaseLock. change (lockHolder (w1 <| lockQueue := _ |>)) with (lockHolder w).
  rewrite bool_decide_eq_true_2 by done.
  assert (EQ : filter (λ j, j ≠ i) (lockQueue w1) = lockQueue w).
  { apply filter_all. apply Forall_forall. by intros j Hj ->. }
  rewrite EQ. set (w2 := w1 <| lockQueue := lockQueue w |>).
  change (lockQueue w2) with (lockQueue w). destruct (lockQueue w) as [|j q] eqn:EL.
  - set (w3 := w2 <| lockHolder := None |>).
    assert (HP : ∀ k, phaseOf w3 k = phaseOf w1 k) by done. split_and!.
    + constructor.
      * intros k p. rewrite HP, HP1. destruct (decide (k = i)); [done|]. intros Hp Hnq.
        specialize (H1 _ _ Hp Hnq). congruence.
      * intros k. rewrite HP, HP1. change (lockQueue w3) with (@nil nat).
        destruct (decide (k = i)); [split; [done|by intros ?%not_elem_of_nil]|]. by rewrite H2.
      * change (lockQueue w3) with (@nil nat). constructor.
      * done.
      * done.
    + by rewrite HP, HP1, decide_True.
    + by left.
  - assert (Hji : j ≠ i) by (intros ->; apply Hiq; left).
    assert (Hjq : phaseOf w j = Some Queued) by (apply H2; left).
    apply NoDup_cons in H3 as [Hjn Hnd].
    set (w3 := w2 <| lockHolder := Some j |> <| lockQueue := q |>).
    assert (Htj : ∃ t, tabs w3 !! j = Some t).
    { unfold phaseOf in Hjq. change (tabs w3) with (tabs w1). unfold w1, onTab. cbn.
      rewrite lookup_alter_ne by done. destruct (tabs w !! j) as [t|]; [by exists t|done]. }
    destruct Htj as [t Htj].
    assert (HP : ∀ k, phaseOf (setPhase j (FetchingCsrf false) w3) k =
      if decide (k = j) then Some (FetchingCsrf false) else if decide (k = i) then None else phaseOf w k).
    { intros k. rewrite phaseOf_setPhase, Htj. change (phaseOf w3 k) with (phaseOf w1 k). by rewrite HP1. }
    assert (HH : lockHolder (setPhase j (FetchingCsrf false) w3) = Some j) by done.
    assert (HQ : lockQueue (setPhase j (FetchingCsrf false) w3) = q) by done.
    split_and!.
    + constructor; rewrite ?HQ, ?HH.
      * intros k p. rewrite HP. destruct (decide (k = j)) as [->|]; [done|]. destruct (decide (k = i)); [done|].
        intros Hp Hnq. specialize (H1 _ _ Hp Hnq). congruence.
      * intros k. rewrite HP. destruct (decide (k = j)) as [->|Hkj]; [split; [congruence|done]|].
        destruct (decide (k = i)) as [->|]; [split; [congruence|]|].
        -- intros Hin. exfalso. apply Hiq. by right.
        -- rewrite H2. set_solver.
      * done.
      * intros h [= <-]. rewrite HP, decide_True by done. by eexists.
      * done.
    + by rewrite HP, (decide_False _ _ (not_eq_sym Hji)), decide_True.
    + right. unfold active. rewrite HH. cbn. by rewrite HP, decide_True.
Qed.

Lemma closeTab_lock i closed w :
  lockOk w → lockHolder w = Some i →
  lockOk (closeTab i closed w) ∧
  (active (closeTab i closed w) = None ∨ active (closeTab i closed w) = Some (FetchingCsrf false)).
Proof.
  intros HL Hi. unfold closeTab.
  destruct (settle_lock i (mkOutcome None network) w HL Hi) as (HL1 & Hp & HA). destruct closed; [|done].
  set (w1 := settle i _ w) in *. set (w2 := w1 <| tabs := delete i (tabs w1) |>).
  assert (HP : ∀ k, phaseOf w2 k = phaseOf w1 k).
  { intros k. unfold phaseOf, w2. cbn. destruct (decide (k = i)) as [->|]; [|by rewrite lookup_delete_ne].
    rewrite lookup_delete_eq. symmetry. exact Hp. }
  split; [by apply (lockOk_ext w1)|]. unfold active in *. change (lockHolder w2) with (lockHolder w1).
  destruct (lockHolder w1); [|done]. cbn in *. by rewrite HP.
Qed.

(** ** The session the tabs share *)

Section Session.
Context `{AuthLib} `{!JwtLaws}.
Context (Hcompare : ∀ slt tok, bcryptCompare tok (bcryptHash slt tok) = true).
(** The account and the session, the secret and the life of refresh tokens, and
    a period no longer than that life. *)
Context (id sid k d : string) (u : User) (v m t0 : Z).
Context (Hsid : sid ≠ "") (Hactive : isActive u = true) (Hd : durationParts d = Some (v, m)).

(** A server of the deployment during that period. *)
Definition goodEnv (env : AuthEnv) : Prop :=
  JWT_REFRESH_SECRET env = k ∧ refreshExpiration env = d ∧ t0 ≤ now env < t0 + v * m * 1000 ∧
  (∀ tok, bcryptHash (salt env) tok ≠ "") ∧ accessTokenOf env id u sid ≠ "" ∧ refreshTokenOf env id u sid ≠ "".

(** A refresh token of the session, drawn at [t] at the latest. *)
Definition issued (t : Z) (tok : string) : Prop :=
  ∃ env, goodEnv env ∧ now env ≤ t ∧ tok = refreshTokenOf env id u sid.

Lemma issued_later t t' tok : t ≤ t' → issued t tok → issued t' tok.
Proof. intros Ht (env & Hg & Hn & ->). exists env. split_and!; [done|lia|done]. Qed.

Lemma issued_nonempty t tok : issued t tok → String.eqb tok "" = false.
Proof. intros (env & (_ & _ & _ & _ & _ & Hn) & _ & ->). by apply String.eqb_neq. Qed.

Definition hashOf (tok : string) (h : option string) : Prop :=
  ∃ slt, h = Some (bcryptHash slt tok) ∧ bcryptHash slt tok ≠ "".

(** The session is alive, [C] is its token and [P] the one before. *)
Definition liveSession (s : AuthStore) (C : string) (P : option string) : Prop :=
  users s !! id = Some u ∧ ∃ x, userSessions s !! sid = Some x ∧ us_userId x = id ∧
    t0 + v * m * 1000 ≤ us_expiresAt x ∧ hashOf C (us_refreshTokenHash x) ∧
    ∀ p, P = Some p → hashOf p (us_previousRefreshTokenHash x).

Lemma matches_hashOf tok h : hashOf tok h → matchesHash tok h = true.
Proof.
  intros (slt & -> & Hne). unfold matchesHash, truthy. rewrite bool_decide_eq_false_2 by done.
  apply Hcompare.
Qed.

Lemma issued_verifies env tok :
  goodEnv env → issued (now env) tok →
  ∃ p, jwtVerify (JWT_REFRESH_SECRET env) (now env) tok = Some p ∧ jp_sessionId p = Some sid.
Proof.
  intros (Hk & Hex & Ht & _) (e & (Hke & Hexe & Hte & _) & Hle & ->). unfold refreshTokenOf.
  rewrite Hk, Hke, Hexe, (jwt_verify_sign k d v m) by (done || lia). rewrite (proj2 (Z.ltb_lt _ _)) by lia.
  by eexists.
Qed.

(** Whatever token of the session it is given, the server refuses it without
    effect or moves on to a new token. *)
Lemma serve_any env tok s C P :
  goodEnv env → issued (now env) tok → liveSession s C P →
  (∃ st, serve env tok s = (s, Refused st)) ∨
  ∃ s' r, serve env tok s = (s', Refreshed r) ∧ issued (now env) (refreshToken r) ∧ accessToken r ≠ "" ∧
    liveSession s' (refreshToken r) (Some C).
Proof.
  intros Hg Hi (Hu & x & Hx & Ho & He & HC & HP). unfold serve.
  destruct (String.eqb tok "") eqn:EE; [left; by exists 401|].
  pose proof (refresh_spec env tok s) as HR. destruct (refresh env tok s) as [s' [r|e]].
  - right. destruct HR as (p & sid' & id' & x' & u' & Hv & Hs & _ & Hrf & Hat & Hrt & _ & (x2 & Hx2 & Ho2 & Hp2 & Hc2 & He2 & _) & Hus & _).
    destruct (issued_verifies env tok Hg Hi) as (p' & Hv' & Hs').
    assert (p' = p) as -> by congruence. assert (sid' = sid) as -> by congruence.
    destruct Hrf as (Hx' & Hid' & Hu' & _). assert (x' = x) as -> by congruence.
    assert (id' = id) as -> by congruence. assert (u' = u) as -> by congruence.
    exists s', r. split; [done|]. rewrite Hrt, Hat. split_and!.
    + exists env. by split_and!.
    + by destruct Hg as (_ & _ & _ & _ & Ha & _).
    + split; [by rewrite Hus|]. exists x2. rewrite Hx2, lookup_insert_eq. split_and!; [done|done|lia| |].
      * rewrite Hc2, Hrt. eexists. split; [done|]. by destruct Hg as (_ & _ & _ & Hh & _).
      * intros q [= <-]. by rewrite Hp2.
  - left. destruct HR as [-> _]. destruct e; by eexists.
Qed.

(** The current token and the one before are accepted. *)
Lemma serve_live env tok s C P :
  goodEnv env → issued (now env) tok → liveSession s C P → tok = C ∨ P = Some tok →
  ∃ s' r, serve env tok s = (s', Refreshed r) ∧ issued (now env) (refreshToken r) ∧ accessToken r ≠ "" ∧
    liveSession s' (refreshToken r) (Some C).
Proof.
  intros Hg Hi Hl Ht. destruct (serve_any env tok s C P Hg Hi Hl) as [(st & HS)|?]; [|done]. exfalso.
  destruct (issued_verifies env tok Hg Hi) as (p & Hv & Hs).
  destruct Hl as (Hu & x & Hx & Ho & He & HC & HP). unfold serve in HS. rewrite (issued_nonempty _ _ Hi) in HS.
  pose proof (refresh_spec env tok s) as HR. destruct (refresh env tok s) as [s' [r|e]]; [done|].
  destruct HR as [_ HR]. apply (HR p sid Hv Hs Hsid id x u). unfold refreshable.
  destruct Hg as (_ & _ & Hte & _). split_and!; [done..| |lia|].
  - destruct HC as (slt & -> & Hne). cbn. by rewrite bool_decide_eq_false_2.
  - destruct Ht as [->|Hp]; [left|right]; apply matches_hashOf; auto.
Qed.

(** ** The cookie of the browser *)

(** Between two requests. *)
Definition jarOk (w : Browser) (C : string) (P : option string) : Prop :=
  (jar w = C ∧ (length (late w) ≤ 1)%nat) ∨ (P = Some (jar w) ∧ late w = []).

Definition phaseOk (w : Browser) (C : string) (P : option string) (p : option Phase) : Prop :=
  match p with
  | Some (Posting _ c) => c = jar w ∧ jarOk w C P
  | Some (Answered _ (Refreshed r)) =>
      issued (clock w) (refreshToken r) ∧ accessToken r ≠ "" ∧
      (refreshToken r = C ∧ (P = Some (jar w) ∧ (length (late w) ≤ 1)%nat ∨ late w = []) ∨
       P = Some (refreshToken r) ∧ late w = [])
  | Some (Answered _ (Refused st)) => st ≠ 401 ∧ jarOk w C P
  | _ => jarOk w C P
  end.

(** No outcome so far says that the session has expired. *)
Definition outcomesOk (w : Browser) : Prop := ∀ i t o,
  tabs w !! i = Some t → o ∈ outcomes t → reason o = expired → is_Some (token o).

Definition browserOk (w : Browser) (C : string) (P : option string) : Prop :=
  lockOk w ∧ outcomesOk w ∧ issued (clock w) (jar w) ∧ Forall (issued (clock w)) (late w) ∧
  liveSession (server w) C P ∧ phaseOk w C P (active w).

(** What the tab events leave alone. *)
Lemma releaseLock_frame i w :
  server (releaseLock i w) = server w ∧ clock (releaseLock i w) = clock w ∧ jar (releaseLock i w) = jar w ∧
  late (releaseLock i w) = late w.
Proof. unfold releaseLock. cbn. case_bool_decide; [|done]. by destruct (filter _ _). Qed.

Lemma outcomes_onTab i f w : (∀ t, outcomes (f t) = outcomes t) → outcomesOk w → outcomesOk (onTab i f w).
Proof.
  intros Hf Ho j t o Hj. unfold onTab in Hj. cbn in Hj. destruct (decide (j = i)) as [->|Hne].
  - rewrite lookup_alter_eq in Hj. destruct (tabs w !! i) as [t1|] eqn:E; [|done]. cbn in Hj. simplify_eq.
    rewrite Hf. by apply (Ho i t1).
  - rewrite lookup_alter_ne in Hj by done. by apply (Ho j t).
Qed.

Lemma outcomes_releaseLock i w : outcomesOk w → outcomesOk (releaseLock i w).
Proof.
  intros Ho. unfold releaseLock. cbn. case_bool_decide; [|done]. destruct (filter _ _); [done|]. by apply outcomes_onTab.
Qed.

Lemma outcomes_settle i o w : (reason o = expired → is_Some (token o)) → outcomesOk w → outcomesOk (settle i o w).
Proof.
  intros Hne Ho. apply outcomes_releaseLock. intros j t o' Hj. unfold onTab in Hj. cbn in Hj.
  destruct (decide (j = i)) as [->|Hji].
  - rewrite lookup_alter_eq in Hj. destruct (tabs w !! i) as [t1|] eqn:E; [|done]. cbn in Hj. simplify_eq. cbn.
    rewrite elem_of_app, list_elem_of_singleton. intros [Hin| ->]; [by apply (Ho i t1)|done].
  - rewrite lookup_alter_ne in Hj by done. by apply (Ho j t).
Qed.
(** ** Runs *)

(** The token the server answers an event with, and the servers that may answer. *)
Definition drawn (e : TabEvent) (w : Browser) : option string :=
  let answer env c := match (serve env c (server w)).2 with Refreshed r => Some (refreshToken r) | _ => None end in
  match e with
  | Serve i env => match phaseOf w i with Some (Posting _ c) => answer env c | _ => None end
  | ServeLate env c _ => answer env c
  | _ => None
  end.
Definition goodEvent (e : TabEvent) : Prop :=
  match e with Serve _ env | ServeLate env _ _ => goodEnv env | _ => True end.

(** [chain] are the tokens of the session, latest first.  A request may be given
    up when no other one given up is still on its way and it was sent with the
    session's current token: no two answers in a row are lost. *)
Definition calm (e : TabEvent) (w : Browser) (chain : list string) : Prop :=
  match e with
  | GiveUp i _ =>
      match phaseOf w i with
      | Some (Posting _ c) => late w = [] ∧ head chain = Some c
      | Some (Answered _ (Refreshed r)) => late w = [] ∧ head (tail chain) = Some (jar w)
      | _ => True
      end
  | _ => True
  end.

Inductive tabsStep (locks : bool) : relation (Browser * list string) :=
  | TabsStep e w w' chain :
      tabStep locks e w = Some w' → goodEvent e → calm e w chain →
      tabsStep locks (w, chain) (w', option_list (drawn e w) ++ chain).

Definition chainOk (w : Browser) (chain : list string) : Prop :=
  ∃ C rest, chain = C :: rest ∧ browserOk w C (head rest).

(** The holder of the lock goes on. *)
Lemma browserOk_phase i p w C P :
  lockOk w → lockHolder w = Some i → p ≠ Queued → outcomesOk w → issued (clock w) (jar w) →
  Forall (issued (clock w)) (late w) → liveSession (server w) C P → phaseOk w C P (Some p) →
  browserOk (setPhase i p w) C P.
Proof.
  intros HL Hh Hp Ho Hj Hl Hs HP. destruct (lockOk_setPhase i p w HL Hh Hp) as [HL' HA].
  unfold browserOk. rewrite HA. split_and!; try done. by apply outcomes_onTab.
Qed.

Lemma phaseOk_idle w C P p : p = None ∨ p = Some (FetchingCsrf false) → jarOk w C P → phaseOk w C P p.
Proof. by intros [-> | ->]. Qed.

(** A promise ends without the session being said to have expired. *)
Lemma browserOk_settle i o w C P :
  lockOk w → lockHolder w = Some i → (reason o = expired → is_Some (token o)) → outcomesOk w →
  issued (clock w) (jar w) → Forall (issued (clock w)) (late w) → liveSession (server w) C P → jarOk w C P →
  browserOk (settle i o w) C P.
Proof.
  intros HL Hh Hne Ho Hj Hl Hs HJ. destruct (settle_lock i o w HL Hh) as (HL' & _ & HA).
  unfold browserOk, settle in *. set (w1 := onTab i _ w) in *.
  destruct (releaseLock_frame i w1) as (E1 & E2 & E3 & E4).
  assert (HJ' : jarOk (releaseLock i w1) C P) by (unfold jarOk; by rewrite E3, E4).
  rewrite E1, E2, E3, E4. split_and!; try done; [by apply (outcomes_settle i o w)|by apply phaseOk_idle].
Qed.

Lemma browserOk_close i closed w C P :
  lockOk w → lockHolder w = Some i → outcomesOk w → issued (clock w) (jar w) →
  Forall (issued (clock w)) (late w) → liveSession (server w) C P → jarOk w C P →
  browserOk (closeTab i closed w) C P.
Proof.
  intros HL Hh Ho Hj Hl Hs HJ.
  destruct (browserOk_settle i (mkOutcome None network) w C P) as (_ & Ho' & Hj' & Hl' & Hs' & HP'); try done.
  destruct (closeTab_lock i closed w HL Hh) as [HL' HA]. unfold closeTab in *. destruct closed; [|by split_and!].
  set (w1 := settle i _ w) in *. set (w2 := w1 <| tabs := delete i (tabs w1) |>) in *.
  unfold browserOk. split_and!; try done.
  - intros j t o Hjt. unfold w2 in Hjt. cbn in Hjt. apply lookup_delete_Some in Hjt as [_ Hjt]. by apply (Ho' j).
  - apply phaseOk_idle; [done|]. unfold settle in *. set (w0 := onTab i _ w) in *.
    destruct (releaseLock_frame i w0) as (E1 & E2 & E3 & E4). unfold jarOk in *.
    change (jar w2) with (jar (releaseLock i w0)). change (late w2) with (late (releaseLock i w0)). by rewrite E3, E4.
Qed.

Lemma active_holder_phase w i p :
  lockOk w → phaseOf w i = Some p → p ≠ Queued → lockHolder w = Some i ∧ active w = Some p.
Proof. intros HL Hp Hne. pose proof (holder_active w HL i p Hp Hne) as Hh. split; [done|]. unfold active. by rewrite Hh. Qed.

Lemma sharedRefresh_frame b i w :
  server (sharedRefresh b i w) = server w ∧ clock (sharedRefresh b i w) = clock w ∧
  jar (sharedRefresh b i w) = jar w ∧ late (sharedRefresh b i w) = late w.
Proof. unfold sharedRefresh, runRefreshExclusive. by repeat case_match. Qed.

Lemma sharedRefresh_outcomes b i w : outcomesOk w → outcomesOk (sharedRefresh b i w).
Proof.
  intros Ho. unfold sharedRefresh, runRefreshExclusive.
  repeat case_match; try done; repeat (apply outcomes_onTab; [done|]); by repeat (apply outcomes_onTab; [done|]).
Qed.

Lemma call_ok i w C P : browserOk w C P → is_Some (tabs w !! i) → browserOk (sharedRefresh true i w) C P.
Proof.
  intros (HL & Ho & Hj & Hl & Hs & HP) Ht. destruct (sharedRefresh_lock i w HL Ht) as [HL' HA].
  destruct (sharedRefresh_frame true i w) as (E1 & E2 & E3 & E4).
  unfold browserOk. rewrite E1, E2, E3, E4. split_and!; try done; [by apply sharedRefresh_outcomes|].
  assert (HJ : ∀ w1 p, jar w1 = jar w → late w1 = late w → clock w1 = clock w → phaseOk w C P p → phaseOk w1 C P p).
  { intros w1 p F1 F2 F3. unfold phaseOk, jarOk. rewrite F1, F2, F3. done. }
  apply HJ; [done..|]. destruct HA as [-> | [HN ->]]; [done|]. rewrite HN in HP. exact HP.
Qed.

Lemma lockOk_same w w' : tabs w' = tabs w → lockHolder w' = lockHolder w → lockQueue w' = lockQueue w →
  lockOk w → lockOk w'.
Proof. intros ET EH EQ. apply lockOk_ext; [|done..]. intros j. unfold phaseOf. by rewrite ET. Qed.

Lemma forall_later t t' l : t ≤ t' → Forall (issued t) l → Forall (issued t') l.
Proof. intros Ht Hl. eapply Forall_impl; [exact Hl|]. intros tok. by apply issued_later. Qed.

Lemma serve_ok i env again c w C P :
  browserOk w C P → goodEnv env → phaseOf w i = Some (Posting again c) → clock w ≤ now env →
  ∃ r, (serve env c (server w)).2 = Refreshed r ∧
    browserOk (setPhase i (Answered again (Refreshed r))
      (w <| server := (serve env c (server w)).1 |> <| clock := now env |>)) (refreshToken r) (Some C).
Proof.
  intros (HL & Ho & Hj & Hl & Hs & HP) Hg Hp Hc. destruct (active_holder_phase w i _ HL Hp) as [Hh HA]; [done|].
  rewrite HA in HP. destruct HP as [-> HJ].
  destruct (serve_live env (jar w) (server w) C P Hg) as (s' & r & HS & Hi & Ha & Hl'); [by eapply issued_later|done| |].
  { destruct HJ as [[-> _]|[-> _]]; auto. }
  exists r. rewrite HS. split; [done|]. apply browserOk_phase; try done.
  - by apply (lockOk_same w).
  - by eapply issued_later.
  - by eapply forall_later.
  - cbn. split_and!; [done..|]. left. split; [done|]. destruct HJ as [[-> HL1]|[_ ->]]; [by left|by right].
Qed.

Lemma deliver_ok i again a w C P :
  browserOk w C P → phaseOf w i = Some (Answered again a) → browserOk (onAnswer i again a w) C P.
Proof.
  intros (HL & Ho & Hj & Hl & Hs & HP) Hp. destruct (active_holder_phase w i _ HL Hp) as [Hh HA]; [done|].
  rewrite HA in HP. destruct a as [r|st]; cbn [onAnswer phaseOk] in *.
  - destruct HP as (Hi & Ha & HC). rewrite (proj2 (String.eqb_neq _ _)) by done.
    set (w1 := w <| jar := refreshToken r |>). set (w2 := onTab i (λ x, x <| accessToken_ := Some (accessToken r) |>) w1).
    assert (HL2 : lockOk w2).
    { apply (lockOk_ext w); [|done..|done]. intros j. unfold w2. rewrite phaseOf_onTab.
      destruct (decide (j = i)) as [->|]; [|done]. change (tabs w1) with (tabs w). unfold phaseOf. by destruct (tabs w !! i). }
    apply (browserOk_settle i _ w2); cbn; try done; [by apply outcomes_onTab|].
    destruct HC as [[HC [[_ HL1]|HL0]]|[HC HL0]]; [left|left|right]; unfold w2, w1; cbn; split; try done. rewrite HL0. cbn. lia.
  - destruct HP as [Hst HJ]. destruct ((st =? 403) && negb again) eqn:E.
    + by apply browserOk_phase.
    + rewrite (proj2 (Z.eqb_neq _ _)) by done. by apply browserOk_settle.
Qed.

Lemma late_ok env c rest w C P :
  browserOk w C P → goodEnv env → late w ≡ₚ c :: rest → clock w ≤ now env →
  let w' := w <| server := (serve env c (server w)).1 |> <| clock := now env |> <| late := rest |> in
  match (serve env c (server w)).2 with
  | Refreshed r => browserOk w' (refreshToken r) (Some C)
  | Refused _ => browserOk w' C P
  end.
Proof.
  intros (HL & Ho & Hj & Hl & Hs & HP) Hg Hperm Hc. cbv zeta.
  assert (Hlen : length (late w) = S (length rest)) by (by rewrite Hperm).
  assert (Hl0 : late w ≠ []) by (intros E; rewrite E in Hlen; done).
  rewrite Hperm, Forall_cons in Hl. destruct Hl as [Hic Hir].
  assert (HJ : jarOk w C P → jar w = C ∧ rest = []).
  { intros [[HJ HL1]|[_ ?]]; [|done]. split; [done|]. apply nil_length_inv. lia. }
  destruct (serve_any env c (server w) C P Hg) as [(st & HS)|(s' & r & HS & Hi & Ha & Hlive)]; [by eapply issued_later|done|..];
    rewrite HS; cbn [fst snd]; unfold browserOk.
  - split_and!; try done; [by apply (lockOk_same w)|by eapply issued_later|by eapply forall_later|].
    change (active (_ <| late := rest |>)) with (active w).
    assert (HJ' : jarOk w C P → jarOk (w <| server := server w |> <| clock := now env |> <| late := rest |>) C P).
    { intros Hjar. destruct (HJ Hjar) as [? ->]. left. cbn. split; [done|lia]. }
    destruct (active w) as [[|b|b x|b [r|st']]|]; cbn in HP |- *; try (by apply HJ').
    + destruct HP as [-> HP]. split; [done|by apply HJ'].
    + destruct HP as (HA1 & HA2 & HA3). split_and!; [by eapply issued_later|done|].
      destruct HA3 as [[HA3 [[HA4 HA5]|?]]|[_ ?]]; [|done..]. left. split; [done|]. left. split; [done|lia].
    + destruct HP as [HA1 HP]. split; [done|by apply HJ'].
  - split_and!; try done; [by apply (lockOk_same w)|by eapply issued_later|by eapply forall_later|].
    change (active (_ <| late := rest |>)) with (active w).
    assert (HJ' : jarOk w C P → jarOk (w <| server := s' |> <| clock := now env |> <| late := rest |>) (refreshToken r) (Some C)).
    { intros Hjar. destruct (HJ Hjar) as [<- ->]. by right. }
    destruct (active w) as [[|b|b x|b [r'|st']]|]; cbn in HP |- *; try (by apply HJ').
    + destruct HP as [-> HP]. split; [done|by apply HJ'].
    + destruct HP as (HA1 & HA2 & HA3). split_and!; [by eapply issued_later|done|].
      destruct HA3 as [[HA3 [[HA4 HA5]|?]]|[_ ?]]; [|done..]. right. split; [by rewrite HA3|]. apply nil_length_inv. lia.
    + destruct HP as [HA1 HP]. split; [done|by apply HJ'].
Qed.
Lemma step_ok w chain w' chain' :
  chainOk w chain → tabsStep true (w, chain) (w', chain') → chainOk w' chain'.
Proof.
  intros (C & rest & -> & HB) HS. inversion HS as [e w1 w2 ch HT Hg Hcalm]; subst. clear HS.
  pose proof HB as (HL & Ho & Hj & Hl & Hs & HP). destruct e as [i|i|i env|i st|i|i closed|env c rest']; cbn in HT, Hcalm |- *.
  - case_bool_decide as Ht; [|done]. injection HT as <-. exists C, rest. split; [done|]. by apply call_ok.
  - destruct (phaseOf w i) as [[|b|b c|b a]|] eqn:EP; try done. injection HT as <-.
    destruct (active_holder_phase w i _ HL EP) as [Hh HA]; [done|]. rewrite HA in HP.
    exists C, rest. split; [done|]. by apply browserOk_phase.
  - destruct (phaseOf w i) as [[|b|b c|b a]|] eqn:EP; try done. destruct (clock w <=? now env) eqn:EC; [|done].
    injection HT as <-. destruct (serve_ok i env b c w C (head rest)) as (r & HR & HB'); try done; [lia|].
    rewrite HR in *. exists (refreshToken r), (C :: rest). by split.
  - destruct (phaseOf w i) as [[|b|b c|b a]|] eqn:EP; try done.
    destruct ((st =? 403) || (st =? 429) || (500 <=? st)) eqn:EST; [|done]. injection HT as <-.
    destruct (active_holder_phase w i _ HL EP) as [Hh HA]; [done|]. rewrite HA in HP. destruct HP as [_ HP].
    exists C, rest. split; [done|]. apply browserOk_phase; try done. split; [intros ->; done|done].
  - destruct (phaseOf w i) as [[|b|b c|b a]|] eqn:EP; try done. injection HT as <-.
    exists C, rest. split; [done|]. by apply deliver_ok.
  - exists C, rest. split; [done|]. destruct (phaseOf w i) as [[|b|b c|b a]|] eqn:EP; try done.
    + destruct closed; [|done]. injection HT as <-. destruct (active_holder_phase w i _ HL EP) as [Hh HA]; [done|].
      rewrite HA in HP. by apply (browserOk_close i true w).
    + injection HT as <-. destruct (active_holder_phase w i _ HL EP) as [Hh HA]; [done|].
      rewrite HA in HP. destruct HP as [-> HJ], Hcalm as [Hl0 [= ->]].
      apply browserOk_close; try done; [by apply (lockOk_same w)|cbn; by constructor|]. left. cbn. by rewrite Hl0.
    + injection HT as <-. destruct (active_holder_phase w i _ HL EP) as [Hh HA]; [done|]. rewrite HA in HP.
      apply browserOk_close; try done. destruct a as [r|st]; [|by destruct HP]. right. cbn in Hcalm. by destruct Hcalm.
  - destruct (bool_decide (late w ≡ₚ c :: rest')) eqn:EB; [|done]. apply bool_decide_eq_true in EB.
    destruct (clock w <=? now env) eqn:EC; [|done]. cbn in HT. injection HT as <-.
    pose proof (late_ok env c rest' w C (head rest) HB Hg EB ltac:(lia)) as HB'. cbv zeta in HB'.
    destruct (serve env c (server w)).2 as [r|st]; [exists (refreshToken r), (C :: rest)|exists C, rest]; by split.
Qed.

(** The browser before any tab refreshes. *)
Definition quiet (w : Browser) : Prop :=
  (∀ i t, tabs w !! i = Some t → refreshPromise t = None ∧ outcomes t = []) ∧
  lockHolder w = None ∧ lockQueue w = [] ∧ late w = [] ∧
  issued (clock w) (jar w) ∧ liveSession (server w) (jar w) None.

Lemma quiet_ok w : quiet w → chainOk w [jar w].
Proof.
  intros (Ht & Hh & Hq & Hl & Hj & Hs).
  assert (HP : ∀ i, phaseOf w i = None).
  { intros i. unfold phaseOf. destruct (tabs w !! i) as [t|] eqn:E; [|done]. by apply (Ht i t). }
  exists (jar w), []. split; [done|]. split_and!; try done.
  - constructor; rewrite ?Hh, ?Hq; [..|constructor|done|done]; intros i; rewrite HP; [done|].
    split; [done|by intros ?%not_elem_of_nil].
  - intros i t o E Hin. destruct (Ht i t E) as [_ Ho]. rewrite Ho in Hin. by apply not_elem_of_nil in Hin.
  - by rewrite Hl.
  - unfold active. rewrite Hh. cbn. left. split; [done|]. rewrite Hl. cbn. lia.
Qed.

Lemma run_ok w0 chain0 w chain :
  rtc (tabsStep true) (w0, chain0) (w, chain) → chainOk w0 chain0 → chainOk w chain.
Proof.
  intros Hrun. remember (w0, chain0) as x0 eqn:E0. remember (w, chain) as x eqn:E. revert w0 chain0 E0.
  induction Hrun as [x|x [w1 c1] z Hstep _ IH]; intros w0 chain0 ->.
  - by injection E as -> ->.
  - intros HB. apply (IH E w1 c1); [done|]. by apply (step_ok w0 chain0).
Qed.

(** C11: the tabs of a browser stay signed in.  Whatever the tabs, the network
    and the server do during the life of a session, in whatever order, provided
    that no two answers in a row are lost: no refresh of any tab ever ends by
    saying that the session has expired, at most one tab is refreshing, a tab
    that waits for the lock waits for one that is, and the server still holds the
    session, under the latest token drawn.  Web Locks are available, and the
    hash that stores the tokens accepts the token it was made from. *)
Theorem tabs_stay_signed_in w0 w chain :
  quiet w0 → rtc (tabsStep true) (w0, [jar w0]) (w, chain) →
  (∀ i t o, tabs w !! i = Some t → o ∈ outcomes t → reason o = expired → is_Some (token o)) ∧
  (∀ i j p q, phaseOf w i = Some p → p ≠ Queued → phaseOf w j = Some q → q ≠ Queued → i = j) ∧
  (∀ i, phaseOf w i = Some Queued → ∃ h p, lockHolder w = Some h ∧ phaseOf w h = Some p ∧ p ≠ Queued) ∧
  (∃ C rest, chain = C :: rest ∧ liveSession (server w) C (head rest)).
Proof.
  intros HQ HR. destruct (run_ok _ _ _ _ HR (quiet_ok w0 HQ)) as (C & rest & -> & HL & Ho & _ & _ & Hs & _).
  split_and!; [done| | |by exists C, rest].
  - intros i j p q Hp Hpn Hq Hqn. pose proof (holder_active w HL i p Hp Hpn). pose proof (holder_active w HL j q Hq Hqn). congruence.
  - intros i Hi%(queued_waits w HL). destruct (lockHolder w) as [h|] eqn:EH.
    + destruct (active_holder w HL h EH) as (p & Hp). by exists h, p.
    + rewrite (free_empty w HL EH) in Hi. by apply not_elem_of_nil in Hi.
Qed.
End Session.

(** ** Two runs *)

#[export] Instance calm_dec e w chain : Decision (calm e w chain).
Proof. unfold calm. repeat case_match; apply _. Defined.

(** A sequence of events, when each of them can happen. *)
Fixpoint tabsRun `{AuthLib} (locks : bool) (es : list TabEvent) (w : Browser) (chain : list string) :
    option (Browser * list string) :=
  match es with
  | [] => Some (w, chain)
  | e :: es =>
      if decide (calm e w chain) then
        w' ← tabStep locks e w; tabsRun locks es w' (option_list (drawn e w) ++ chain)
      else None
  end.

Lemma tabsRun_rtc `{AuthLib} id sid k d u v m t0 locks es w chain x :
  tabsRun locks es w chain = Some x → Forall (goodEvent id sid k d u v m t0) es →
  rtc (tabsStep id sid k d u v m t0 locks) (w, chain) x.
Proof.
  revert w chain. induction es as [|e es IH]; intros w chain Hrun Hg; cbn in Hrun.
  - injection Hrun as <-. constructor.
  - apply Forall_cons in Hg as [He Hg]. destruct (decide (calm e w chain)) as [Hc|]; [|done].
    destruct (tabStep locks e w) as [w'|] eqn:ES; [|done]. cbn in Hrun. eapply rtc_l; [by constructor|]. by apply IH.
Qed.

(** A hash that reads the whole token. *)
Definition wholeLib : AuthLib :=
  {| jwtSign := exampleSign; jwtVerify := exampleVerify; jwtExp := @jwtExp exampleLib;
     bcryptHash slt p := "h:" +:+ p; bcryptCompare p h := bool_decide (h = "h:" +:+ p);
     sha256hex s := "sha256:" +:+ s; sha256base64url s := "b64:" +:+ s; hmacHex k s := k +:+ s;
     totpVerify secret t tok := bool_decide (tok = "123456") |}.

Lemma append_nonempty s : tokenHeader +:+ s ≠ "".
Proof. discriminate. Qed.

Lemma wholeLib_jwt : @JwtLaws wholeLib.
Proof. exact (λ k d v u t0 t p, @jwt_verify_sign exampleLib exampleLib_jwt k d v u t0 t p). Qed.

(** The session "s1" of "u1", opened at 1000, and three idle tabs. *)
Definition firstToken : string :=
  @refreshTokenOf wholeLib (exampleAuthEnv "0" 1000) "u1" (exampleUser false) "s1".
Definition idleTab : Tab := mkTab None 0 None [].
Definition idleTabs : gmap nat Tab := <[0%nat := idleTab]> (<[1%nat := idleTab]> {[2%nat := idleTab]}).
Definition threeTabs : Browser :=
  mkBrowser ((exampleAuthStore false) <| userSessions := {[ "s1" := mkUserSession "u1" None None 1000 1000 604801000
      (Some (@bcryptHash wholeLib "s" firstToken)) None ]} |>)
    1000 firstToken idleTabs
    None [] [].

(** Two tabs refresh together; the answer to the first is lost. *)
Definition lostAnswer : list TabEvent :=
  [Call 0; Call 1; CsrfFetched 0; Serve 0 (exampleAuthEnv "1" 2000); GiveUp 0 false;
   CsrfFetched 1; Serve 1 (exampleAuthEnv "2" 3000); Deliver 1].

(** Three tabs post the same cookie. *)
Definition together : list TabEvent :=
  [Call 0; Call 1; Call 2; CsrfFetched 0; CsrfFetched 1; CsrfFetched 2;
   Serve 0 (exampleAuthEnv "1" 2000); Serve 1 (exampleAuthEnv "2" 2001); Serve 2 (exampleAuthEnv "3" 2002);
   Deliver 0; Deliver 1; Deliver 2].

(** Without the Web Lock, the third of three tabs that refresh together is told
    that the session has expired. *)
Lemma three_tabs_without_lock :
  match @tabsRun wholeLib false together threeTabs [firstToken] with
  | Some (w, _) => (λ i, (t ← tabs w !! i; last (outcomes t)) ≫= λ o, Some (token o, reason o)) <$> [2%nat]
                   = [Some (None, expired)]
  | None => False
  end.
Proof. vm_compute. reflexivity. Qed.

Lemma tabs_stay_signed_in_witness :
  ∃ w chain, @tabsRun wholeLib true lostAnswer threeTabs [firstToken] = Some (w, chain) ∧ length chain = 3%nat ∧
    ∀ i t o, tabs w !! i = Some t → o ∈ outcomes t → reason o = expired → is_Some (token o).
Proof.
  destruct (@tabsRun wholeLib true lostAnswer threeTabs [firstToken]) as [[w chain]|] eqn:E;
    [|exfalso; vm_compute in E; discriminate E].
  exists w, chain. split; [reflexivity|]. split.
  - assert (EL : option_map (λ x, length (snd x)) (@tabsRun wholeLib true lostAnswer threeTabs [firstToken]) = Some 3%nat)
      by (vm_compute; reflexivity).
    rewrite E in EL. by injection EL.
  - assert (HG : ∀ n t, 1000 <= t < 604801000 → @goodEnv wholeLib "u1" "s1" "refresh" "7d" (exampleUser false) 7 86400 1000 (exampleAuthEnv n t)).
    { clear E. intros n t Ht. split; [reflexivity|]. split; [reflexivity|]. split; [cbn; lia|]. split; [intros tok; discriminate|].
      split; apply append_nonempty. }
    refine (proj1 (@tabs_stay_signed_in wholeLib wholeLib_jwt _ "u1" "s1" "refresh" "7d" (exampleUser false) 7 86400 1000
      _ _ _ threeTabs w chain _ _)).
    + intros slt tok. apply bool_decide_eq_true. reflexivity.
    + discriminate.
    + reflexivity.
    + reflexivity.
    + split_and!; try reflexivity.
      * intros i t Hi. change (idleTabs !! i = Some t) in Hi. unfold idleTabs in Hi.
        do 2 (apply lookup_insert_Some in Hi as [[_ <-]|[_ Hi]]; [split; reflexivity|]).
        apply lookup_singleton_Some in Hi as [_ <-]. split; reflexivity.
      * exists (exampleAuthEnv "0" 1000). split; [apply HG; lia|]. split; [change (1000 <= 1000); lia|]. exact eq_refl.
      * split; [reflexivity|]. eexists. split; [vm_compute; reflexivity|]. split; [reflexivity|].
        split; [vm_compute; discriminate|]. split; [|discriminate].
        exists "s". split; [reflexivity|discriminate].
    + apply (@tabsRun_rtc wholeLib _ _ _ _ _ _ _ _ _ lostAnswer); [exact E|].
      repeat apply Forall_cons_2; first [exact I | apply HG; lia | apply Forall_nil_2].
Defined.

(** ** Requests *)

(** Sends that the flags still allow. *)
Definition resends (c : Config) : nat :=
  (if networkRetry c then 0 else 1) + (if csrfRetry c then 0 else 1) + (if retry c then 0 else 1).

(** The branches of the interceptor. *)
Ltac interceptor_cases r :=
  intros E; destruct r; cbv beta iota zeta delta [interceptor] in E; rewrite ?andb_true_l, ?andb_false_l in E;
  repeat match type of E with context [if ?b then _ else _] => destruct b eqn:? end; try discriminate E;
  rewrite ?andb_true_iff, ?orb_false_iff, ?negb_true_iff, ?negb_false_iff in *; destruct_and?.

Lemma interceptor_again oauth c r c' :
  interceptor oauth c r = SendAgain c' →
  resends c = S (resends c') ∧ isRefreshRequest c' = isRefreshRequest c ∧ retry c' = retry c.
Proof.
  interceptor_cases r; injection E as <-; unfold resends; cbn;
    repeat match goal with H : _ c = false |- _ => rewrite H; clear H end; split_and!; try done; lia.
Qed.

Lemma interceptor_refresh oauth c r c' :
  interceptor oauth c r = RefreshThen c' →
  resends c = S (resends c') ∧ isRefreshRequest c' = isRefreshRequest c ∧ isRefreshRequest c = false ∧
  retry c = false ∧ retry c' = true ∧ hadAuthHeader c = true ∧ ∃ x y, r = ErrorStatus 401 x y.
Proof.
  interceptor_cases r; injection E as <-; unfold resends; cbn.
  repeat match goal with H : _ c = false |- _ => rewrite H end; split_and!; try done.
  eexists _, _. f_equal. lia.
Qed.

Lemma interceptor_login oauth c r :
  interceptor oauth c r = RejectError Login →
  isRefreshRequest c = true ∧ oauth = false ∧ ∃ x y, r = ErrorStatus 401 x y.
Proof. interceptor_cases r. split_and!; try done. eexists _, _. f_equal. lia. Qed.

Lemma interceptor_resolve oauth c r : interceptor oauth c r = Resolve → ∃ st, r = Success st.
Proof. interceptor_cases r; by eexists. Qed.

Lemma api_run oauth c rs os n :
  (resends c < length rs)%nat → (retry c = true ∨ os ≠ []) →
  ∃ s, api oauth c rs os n = Some s ∧ (n < sends s ≤ n + S (resends c))%nat ∧
    (resolved s = true → page s = Stay ∧ ∃ st, rs !! (sends s - S n)%nat = Some (Success st)) ∧
    (page s = Login → ∃ x y, rs !! (sends s - S n)%nat = Some (ErrorStatus 401 x y) ∧
       if isRefreshRequest c then oauth = false
       else retry c = false ∧ ∃ o, head os = Some o ∧ truthy (token o) = false ∧ reason o = expired).
Proof.
  revert c os n. induction rs as [|r rs IH]; intros c os n Hlen Hos; cbn in Hlen; [lia|]. cbn [api].
  assert (Hnext : ∀ k, (S n < k)%nat → (r :: rs) !! (k - S n)%nat = rs !! (k - S (S n))%nat).
  { intros k Hk. replace (k - S n)%nat with (S (k - S (S n))) by lia. done. }
  assert (H0 : (r :: rs) !! (S n - S n)%nat = Some r) by (by rewrite Nat.sub_diag).
  destruct (interceptor oauth c r) as [|p|c'|c'] eqn:E.
  - destruct (interceptor_resolve _ _ _ E) as [st ->]. eexists. split; [done|]. cbn [sends resolved page].
    rewrite H0. split_and!; [lia|lia|intros _; split; [done|by eexists]|done].
  - eexists. split; [done|]. cbn [sends resolved page]. rewrite H0. split_and!; [lia|lia|done|]. intros ->.
    destruct (interceptor_login _ _ _ E) as (-> & -> & x & y & ->). by exists x, y.
  - destruct (interceptor_again _ _ _ _ E) as (Hr & Hi & Hre).
    destruct (IH c' os (S n)) as (s & -> & Hs & Hres & Hlog); [lia|by rewrite Hre|].
    exists s. split; [done|]. rewrite Hnext by lia. rewrite <- Hi, <- Hre. split_and!; [lia|lia|done|done].
  - destruct (interceptor_refresh _ _ _ _ E) as (Hr & Hi & Hf & Hre0 & Hre & _ & x & y & ->).
    destruct os as [|o os].
    { exfalso. destruct Hos as [Hos|Hos]; [congruence|done]. }
    destruct (truthy (token o)) eqn:ET.
    + destruct (IH c' os (S n)) as (s & -> & Hs & Hres & Hlog); [lia|by left|].
      exists s. split; [done|]. rewrite Hnext by lia. split_and!; [lia|lia|done|].
      intros HL. destruct (Hlog HL) as (x' & y' & Hrs & Hl). rewrite Hi, Hf in Hl. destruct Hl as [Hl _]. congruence.
    + case_bool_decide as EN; (eexists; split; [done|]); cbn [sends resolved page]; rewrite H0;
        (split_and!; [lia|lia|done|]); [done|]. intros _. exists x, y. split; [done|]. rewrite Hf. split; [done|].
      exists o. split_and!; [done..|]. by destruct (reason o).
Qed.

(** A request ends after four sends at most.  It resolves only with a
    success, and the page goes to the login screen only on a 401: that of the
    refresh request itself, outside the OAuth callback, or that of a request
    whose refresh then ended by saying that the session has expired. *)
Theorem api_bounded oauth c rs os :
  (4 ≤ length rs)%nat → os ≠ [] →
  ∃ s, api oauth c rs os 0 = Some s ∧ (1 ≤ sends s ≤ 4)%nat ∧
    (resolved s = true → page s = Stay ∧ ∃ st, rs !! (sends s - 1)%nat = Some (Success st)) ∧
    (page s = Login → ∃ x y, rs !! (sends s - 1)%nat = Some (ErrorStatus 401 x y) ∧
       if isRefreshRequest c then oauth = false
       else ∃ o, head os = Some o ∧ truthy (token o) = false ∧ reason o = expired).
Proof.
  intros Hlen Hos. assert (Hr : (resends c ≤ 3)%nat) by (unfold resends; repeat case_match; lia).
  destruct (api_run oauth c rs os 0) as (s & Hs & Hb & Hres & Hlog); [lia|by right|].
  exists s. split; [done|]. split; [lia|]. split; [done|]. intros HL. destruct (Hlog HL) as (x & y & Hxy & Hl).
  exists x, y. split; [done|]. destruct (isRefreshRequest c); [done|]. by destruct Hl.
Qed.

Lemma api_bounded_witness :
  let rs := [Timeout; ErrorStatus 403 true false; ErrorStatus 401 false false; Success 200] in
  let c := mkConfig false false false true false in
  api false c rs [mkOutcome (Some "new") expired] 0 = Some (mkSettled true Stay 4) ∧
  ∃ s, api false c rs [mkOutcome None expired] 0 = Some s ∧ (1 ≤ sends s ≤ 4)%nat.
Proof.
  cbv zeta. split; [reflexivity|].
  destruct (api_bounded false (mkConfig false false false true false)
    [Timeout; ErrorStatus 403 true false; ErrorStatus 401 false false; Success 200] [mkOutcome None expired])
    as (s & Hs & Hb & _); [cbn; lia|discriminate|]. by exists s.
Defined.
