(* ===== verification/ClientSocket.v ===== *)
(** * Frontend: the token of the socket

    frontend/src/services/socket/socket.ts: the socket of the page, the token of
    its handshake, the timer that refreshes it and the reconnections; and what
    that gives with the tokens of ClientSession.v and the answers of
    Gateway.v.  A refresh ends between the two halves of a handler. *)

From S2P Require Import Prelude JsString Redis AuthModel Auth AccessGuards.
From S2P Require Import ClientSession.

#[local] Open Scope string_scope.
#[local] Open Scope list_scope.
#[local] Open Scope Z_scope.

Definition REFRESH_MARGIN_MS : Z := 60000.
Definition REFRESH_RETRY_MS : Z := 60000.
Definition VISIBLE_RECONNECT_THRESHOLD_MS : Z := 10000.

(** [err.message], none when there is no error or its message is missing. *)
Definition isAuthRejection (message : option string) : bool :=
  match message with
  | Some m =>
      truthy message &&
      (let m := toLowerCase m in
       includes "token" m || includes "jwt" m || includes "unauthorized" m || includes "revoked" m || includes "inactive" m)
  | None => false
  end.

(** [socket.auth]: the function of [getSocket], or an object. *)
Inductive SocketAuth := Provider | Fixed (token : option string).

(** The module and its socket: [handshake] is the token of the last connection,
    [refreshDelay] that of the pending timer. *)
Record SocketState := mkSocket {
  auth : SocketAuth;
  accessToken : option string;
  socketConnected : bool;
  handshake : option string;
  sessionExpired : bool;
  refreshDelay : option Z;
  lastHiddenAt : Z
}.

Section Socket.
(** [getTokenExpiryMs]. *)
Context (expiryOf : string → option Z).

(** [socket.connect()]: the handshake carries what [auth] gives. *)
Definition connect (s : SocketState) : SocketState :=
  s <| socketConnected := true |> <| handshake := match auth s with Provider => accessToken s | Fixed t => t end |>.
Definition disconnect (s : SocketState) : SocketState := s <| socketConnected := false |>.

Definition scheduleTokenRefresh (now : Z) (retryAfterMs : option Z) (s : SocketState) : SocketState :=
  let delay :=
    match retryAfterMs with
    | Some d => d
    | None =>
        let remaining := match (if truthy (accessToken s) then accessToken s ≫= expiryOf else None) with
                         | Some e => e - now | None => 0 end in
        if 0 <? remaining then Z.max 0 (remaining - REFRESH_MARGIN_MS) else REFRESH_RETRY_MS
    end in
  s <| refreshDelay := Some delay |>.

(** The refresh stores the token it draws. *)
Definition refreshed (o : RefreshOutcome) (s : SocketState) : SocketState :=
  match token o with Some t => s <| accessToken := Some t |> | None => s end.

(** [handleRefreshTick] and [handleInvalidToken], from the end of their refresh. *)
Definition handleRefreshTick (now : Z) (o : RefreshOutcome) (s : SocketState) : SocketState :=
  let s := refreshed o s in
  if truthy (token o) && socketConnected s then scheduleTokenRefresh now None (connect (disconnect s))
  else scheduleTokenRefresh now (Some REFRESH_RETRY_MS) s.

Definition handleInvalidToken (now : Z) (o : RefreshOutcome) (s : SocketState) : SocketState :=
  let s := refreshed o s in
  if truthy (token o) then
    scheduleTokenRefresh now None (connect (disconnect (s <| sessionExpired := false |> <| auth := Fixed (token o) |>)))
  else disconnect (s <| sessionExpired := true |>).

(** 'disconnect', with the reason of socket.io. *)
Definition onDisconnect (reason : string) (s : SocketState) : SocketState :=
  let s := disconnect s in
  if (String.eqb reason "io server disconnect" || String.eqb reason "transport close")
     && truthy (accessToken s) && negb (sessionExpired s)
  then connect s else s.

(** 'reconnect_attempt': the object replaces [auth] before each attempt. *)
Definition onReconnectAttempt (s : SocketState) : SocketState := s <| auth := Fixed (accessToken s) |>.

Definition handleForegroundReturn (now : Z) (s : SocketState) : SocketState :=
  let hiddenMs := if 0 <? lastHiddenAt s then now - lastHiddenAt s else 0 in
  let s := if (VISIBLE_RECONNECT_THRESHOLD_MS <? hiddenMs) || negb (socketConnected s) then connect (disconnect s) else s in
  s <| lastHiddenAt := 0 |>.

Definition disconnectSocket (s : SocketState) : SocketState :=
  disconnect (s <| refreshDelay := None |> <| sessionExpired := false |>).

(** ** The timer *)

(** A token that still has more than its margin is refreshed before it expires,
    the margin ahead; any other one within a minute. *)
Lemma refresh_before_expiry now s t e :
  accessToken s = Some t → t ≠ "" → expiryOf t = Some e →
  ∃ d, refreshDelay (scheduleTokenRefresh now None s) = Some d ∧ 0 ≤ d ∧
    (now + REFRESH_MARGIN_MS ≤ e → now + d = e - REFRESH_MARGIN_MS) ∧
    (e < now + REFRESH_MARGIN_MS → d ≤ REFRESH_RETRY_MS).
Proof.
  intros Ht Hne He. unfold scheduleTokenRefresh, REFRESH_MARGIN_MS, REFRESH_RETRY_MS. rewrite Ht. cbn.
  rewrite bool_decide_eq_false_2 by done. cbn. rewrite He. eexists. split; [done|].
  destruct (Z.ltb_spec 0 (e - now)); lia.
Qed.
End Socket.

(** ** Which refusals are recognised *)

(** Every refusal of WsAuthService is one the client recognises, but the answer
    WsTrackingExceptionFilter gives instead is not. *)
Lemma ws_errors_recognised `{AuthLib} env tok header cache s msg code :
  wsVerify env tok header cache s = WsError msg code →
  isAuthRejection (Some msg) = true ∧ isAuthRejection (Some "Invalid token") = true ∧
  isAuthRejection (Some "Internal server error") = false.
Proof.
  intros HV. split; [|by vm_compute].
  assert (HF : ∀ t p, wsFullCheck env t p s = WsError msg code → isAuthRejection (Some msg) = true).
  { intros t p. unfold wsFullCheck. repeat case_match; intros E; try discriminate E; injection E as <- _; vm_compute; reflexivity. }
  unfold wsVerify in HV. repeat case_match; try discriminate HV; try (injection HV as <- _; vm_compute; reflexivity); by eapply HF.
Qed.

(** ** What goes wrong *)

(** Once a reconnection has replaced [auth], the timer's refresh reconnects with
    the token it has just replaced. *)
Lemma timer_reconnects_with_old_token expiryOf now t t' s :
  t' ≠ "" → accessToken s = Some t → socketConnected s = true →
  let s' := handleRefreshTick expiryOf now (mkOutcome (Some t') expired) (onReconnectAttempt s) in
  accessToken s' = Some t' ∧ socketConnected s' = true ∧ handshake s' = Some t.
Proof.
  intros Hne Ht Hc. cbv zeta. unfold handleRefreshTick. cbn. rewrite bool_decide_eq_false_2 by done. rewrite Hc. cbn. by rewrite <- Ht.
Qed.

(** A refresh that fails for the network ends the session of the socket. *)
Lemma network_failure_expires_session expiryOf now s :
  sessionExpired (handleInvalidToken expiryOf now (mkOutcome None network) s) = true.
Proof. done. Qed.
