(* ===== verification/DriverSend.v ===== *)
(** * Frontend: the driver's phone sends its positions

    [sendPosition] of frontend/src/hooks/useDriverTracking.ts against the
    gateway (Gateway.v): one position at a time on the socket, with its
    acknowledgement, its refusal or a timer of 2 s, the others going to the
    offline queue (OfflineQueue.v).  The two directions of the connection are
    queues; the server takes and answers messages at its own pace. *)

From S2P Require Import Prelude JsString JsNum Geo Redis AuthModel Auth AccessGuards TrackingModel Tracking Gateway.

#[local] Open Scope string_scope.
#[local] Open Scope list_scope.
#[local] Open Scope Z_scope.

Definition ACCURACY_REJECT : num := num_of_Z 80.
Definition LOCATION_FASTEST_INTERVAL_MS : Z := 2000.

Section Phone.
Context `{AuthLib} (jm : JsMath) {Raw : Type} (validatePosition : Raw → UpdatePositionDto + list string).
Context (ttlMs max : option Z).
(** The accuracy of a position (50 without any) and the socket of the phone. *)
Context (accuracyOf : Raw → num) (cid : string).

(** [waiting] is the position whose listeners and timer are set, [queuing] that a
    call of [queuePosition] will clear [isSendingRef].  [handed] are the
    positions given to [queuePosition], [given] all those acquired, [dropped]
    those the server said are malformed, [acked] those taken for saved. *)
Record Phone := mkPhone {
  server : Gateway;
  connected : bool;
  up : list Raw;
  down : list Message;
  isSending : bool;
  lastSendTime : Z;
  waiting : option Raw;
  queuing : bool;
  given : list Raw;
  handed : list Raw;
  dropped : list Raw;
  acked : list Raw
}.

Definition queuePosition (p : Raw) (w : Phone) : Phone := w <| handed := handed w ++ [p] |>.

(** [sendPosition] at [now], when the current position is [p]. *)
Definition sendPosition (now : Z) (p : Raw) (w : Phone) : Phone :=
  let w := w <| given := given w ++ [p] |> in
  if isSending w then queuePosition p w
  else if num_leb ACCURACY_REJECT (accuracyOf p) then queuePosition p w
  else if now - lastSendTime w <? LOCATION_FASTEST_INTERVAL_MS then queuePosition p w
  else
    let w := w <| lastSendTime := now |> <| isSending := true |> in
    if connected w then w <| up := up w ++ [p] |> <| waiting := Some p |>
    else queuePosition p w <| queuing := true |>.

(** The timer of 2 s. *)
Definition posTimeout (p : Raw) (w : Phone) : Phone :=
  queuePosition p (w <| waiting := None |> <| isSending := false |>).

Definition onSaved (p : Raw) (w : Phone) : Phone :=
  w <| waiting := None |> <| isSending := false |> <| acked := acked w ++ [p] |>.

Definition onRejected (p : Raw) (reason : string) (w : Phone) : Phone :=
  let w := w <| waiting := None |> in
  if String.eqb reason "invalid_payload" then w <| isSending := false |> <| dropped := dropped w ++ [p] |>
  else queuePosition p w <| queuing := true |>.

(** A message reaches the page: without listeners it is lost. *)
Definition onMessage (m : Message) (w : Phone) : Phone :=
  match waiting w, m with
  | Some p, positionSaved _ => onSaved p w
  | Some p, positionRejected reason => onRejected p reason w
  | _, _ => w
  end.

(** What the server sends to this socket, of the messages [sendPosition] listens to. *)
Definition toPhone (sent : Sent) : list Message :=
  omap (λ '(c, m), if bool_decide (c = cid) then
    match m with positionSaved _ | positionRejected _ => Some m | _ => None end else None) sent.

(** [Others]: everything else the gateway does. *)
Inductive PhoneEvent :=
  | Acquire (now : Z) (p : Raw)
  | ServerTakes (env : AuthEnv)
  | Others (e : GatewayEvent (Raw := Raw))
  | MessageArrives
  | TimerFires
  | Queued
  | ConnectionLost
  | ConnectionBack.

Definition notOurs (e : GatewayEvent (Raw := Raw)) : bool :=
  match e with
  | Received c _ (UpdatePosition _) => negb (bool_decide (c = cid))
  | Elsewhere _ _ => false
  | _ => true
  end.

Definition phoneStep (e : PhoneEvent) (w : Phone) : option Phone :=
  match e with
  | Acquire now p => Some (sendPosition now p w)
  | ServerTakes env =>
      match up w with
      | p :: rest =>
          let '(g, sent) := gatewayStep jm validatePosition ttlMs max (Received cid env (UpdatePosition p)) (server w) in
          Some (w <| server := g |> <| up := rest |> <| down := down w ++ toPhone sent |>)
      | [] => None
      end
  | Others e =>
      if notOurs e
      then Some (w <| server := (gatewayStep jm validatePosition ttlMs max e (server w)).1 |>) else None
  | MessageArrives =>
      match down w with m :: rest => Some (onMessage m (w <| down := rest |>)) | [] => None end
  | TimerFires => match waiting w with Some p => Some (posTimeout p w) | None => None end
  | Queued => if queuing w then Some (w <| queuing := false |> <| isSending := false |>) else None
  | ConnectionLost => Some (w <| connected := false |> <| up := [] |> <| down := [] |>)
  | ConnectionBack => if connected w then None else Some (w <| connected := true |>)
  end.
End Phone.
