(* ===== verification/DriverSendProps.v ===== *)
(** * Frontend: what happens to the positions of a phone

    Every position acquired is in the offline queue, on its way, or stored by
    the server, provided that an answer does not come after the timer of 2 s; a
    late one loses a position. *)

From Stdlib Require Import SpecFloat.
From S2P Require Import Prelude JsString JsNum Geo Gps Redis AuthModel AuthExample Auth AccessGuards TrackingModel Tracking TrackingProps Gateway GatewayProps DriverSend.

#[local] Open Scope string_scope.
#[local] Open Scope list_scope.
#[local] Open Scope Z_scope.

Section Props.
Context `{AuthLib} (jm : JsMath) {Raw : Type} (validatePosition : Raw → UpdatePositionDto + list string).
Context (ttlMs max : option Z) (accuracyOf : Raw → num) (cid : string).

Notation gstep := (gatewayStep jm validatePosition ttlMs max).
Notation pstep := (phoneStep jm validatePosition ttlMs max accuracyOf cid).

(** ** The server only adds positions *)

Definition grows (s s' : TrackingStore) : Prop := ∃ l, positions s' = positions s ++ l.

Lemma grows_same s s' : positions s' = positions s → grows s s'.
Proof. exists []. by rewrite app_nil_r. Qed.

Lemma scoped_positions c s : positions (scoped c s) = positions s.
Proof. unfold scoped. by destruct (String.eqb _ _). Qed.

Lemma handlePosition_grows now c raw u g :
  grows (tracking g) (tracking (handlePosition jm validatePosition ttlMs now c raw u g).1).
Proof.
  unfold handlePosition. destruct (negb _); [by apply grows_same|].
  destruct (validatePosition raw) as [dto|]; [|by apply grows_same]. cbv zeta. unfold runScoped.
  destruct (storePosition _ _ _ _ _ _ _) as [s' ans] eqn:ES. apply storePosition_cases in ES.
  rewrite scoped_positions in ES. destruct ans as [r| |did dto' late p].
  - apply grows_same. apply ES.
  - apply grows_same. apply ES.
  - destruct ES as (_ & E & _). exists [p]. unfold publishPosition. cbv zeta. rewrite <- E. by repeat case_match.
Qed.

Lemma handleBatch_grows now c raws b u g :
  grows (tracking g) (tracking (handleBatchPosition jm validatePosition max now c raws b u g).1).
Proof.
  unfold handleBatchPosition. destruct (negb _); [by apply grows_same|]. unfold runScoped.
  destruct (validateAndSaveBatch _ _ _ _ _ _ _ _) as [s' ans] eqn:ES. cbv zeta.
  assert (HG : grows (scoped (companyOfUser u) (tracking g)) s').
  { unfold validateAndSaveBatch in ES. destruct (isBatchRateLimited _ _ _ _) as [s1 lim] eqn:EL.
    assert (E1 : positions s1 = positions (scoped (companyOfUser u) (tracking g))).
    { unfold isBatchRateLimited in EL. by repeat case_match; simplify_eq. }
    destruct lim; [injection ES as <- <-; by apply grows_same|].
    destruct raws as [[|raw raws]|]; [injection ES as <- <-; by apply grows_same| |injection ES as <- <-; by apply grows_same].
    destruct (sortOut _ _ _) as [vs rs]. destruct (findDriverByUserId _ _) as [[id d]|];
      [|injection ES as <- <-; by apply grows_same].
    destruct vs as [|x vs]; [injection ES as <- <-; by apply grows_same|].
    destruct (saveBatch _ _ _ _ _ _) as [s2 ins] eqn:EB. injection ES as <- <-.
    destruct (saveBatch_rows _ _ _ _ _ _ _ _ EB) as (_ & E2 & _). exists ins. by rewrite E2, E1. }
  destruct HG as [l Hl]. rewrite scoped_positions in Hl. exists l. by repeat case_match.
Qed.

Lemma battery_grows now uid body s : grows s (reportBatteryCritical now uid body s).
Proof.
  unfold reportBatteryCritical. destruct (findDriverByUserId _ _) as [[id d]|]; [|by apply grows_same].
  destruct (match br_deliveryId body with Some _ => _ | None => _ end); [by apply grows_same|].
  unfold batteryPosition. cbv zeta. destruct (_ ≫= _); [|by apply grows_same].
  destruct (if truthy _ then _ else _); [|by apply grows_same]. destruct (br_latitude body); [|by apply grows_same].
  destruct (br_longitude body); [|by apply grows_same]. case_bool_decide; [by apply grows_same|].
  destruct (createPosition _ _) as [s'|] eqn:E; [|by apply grows_same]. apply createPosition_Some in E as [-> _].
  by eexists [_].
Qed.

Lemma disconnect_tracking now c x g : tracking (handleDisconnect now c x g).1 = tracking g.
Proof. unfold handleDisconnect. by repeat case_match. Qed.

Lemma step_grows e g : (∀ a t, e ≠ Elsewhere a t) → grows (tracking g) (tracking (gstep e g).1).
Proof.
  intros He. destruct e as [c a h|c env|c now|c env m|ev|c ev|c ty|i ev|now|a t]; cbn [gatewayStep];
    try (by apply grows_same); [| | | |by destruct (He a t)].
  - apply grows_same. by destruct (clients g !! c).
  - apply grows_same. unfold handleConnection. destruct (clients g !! c) as [x|]; [|done].
    destruct (verified env x g) as [u cache|msg code]; [by repeat case_match|].
    pose proof (disconnect_tracking (now env) c x g) as E.
    destruct (handleDisconnect (now env) c x g) as [g1 sent1]. exact (f_equal positions E).
  - apply grows_same. destruct (clients g !! c) as [x|]; [|done]. by rewrite disconnect_tracking.
  - unfold guarded. destruct (clients g !! c) as [x|]; [|by apply grows_same].
    destruct (verified env x g) as [u cache|msg code]; [|by apply grows_same].
    change (tracking g) with (tracking (onClient c (remember u cache) g)). generalize (onClient c (remember u cache) g). intros g0.
    destruct m; cbn [handle].
    + apply handlePosition_grows.
    + apply handleBatch_grows.
    + unfold handleBatteryCritical. destruct (negb _); [by apply grows_same|]. apply battery_grows.
    + apply grows_same. unfold handleSnoozeProximityAlert. by repeat case_match.
    + apply grows_same. unfold handleSubscribeToDelivery. by repeat case_match.
    + apply grows_same. unfold handleUnsubscribeFromDelivery. by repeat case_match.
    + apply grows_same. unfold handleSubscribeToCompany. by repeat case_match.
    + apply grows_same. unfold handleUnsubscribeFromCompany. by repeat case_match.
Qed.

(** ** The answer to a position *)

Definition storedIn (g : Gateway) (p : Raw) : Prop := ∃ dto row,
  validatePosition p = inl dto ∧ row ∈ positions (tracking g) ∧
  p_vehicleId row = vehicleId dto ∧ p_timestamp row = timestamp dto.

Definition malformed (p : Raw) : Prop := ∃ errs, validatePosition p = inr errs.

Definition replyTo (g : Gateway) (p : Raw) (m : Message) : Prop :=
  match m with
  | positionSaved _ => storedIn g p
  | positionRejected reason => reason = "invalid_payload" → malformed p
  | _ => False
  end.

Lemma storedIn_grows g g' p : grows (tracking g) (tracking g') → storedIn g p → storedIn g' p.
Proof.
  intros [l Hl] (dto & row & Hd & Hr & H1 & H2). exists dto, row. split_and!; try done.
  rewrite Hl, elem_of_app. by left.
Qed.

Lemma replyTo_grows g g' p m : grows (tracking g) (tracking g') → replyTo g p m → replyTo g' p m.
Proof. intros Hg. destruct m; cbn; try done. by apply storedIn_grows. Qed.

Lemma toPhone_room room m g : (∀ b, m ≠ positionSaved b) → (∀ r, m ≠ positionRejected r) → toPhone cid (toRoom room m g) = [].
Proof. apply answers_toRoom. Qed.

Lemma toPhone_app l k : toPhone cid (l ++ k) = toPhone cid l ++ toPhone cid k.
Proof. apply omap_app. Qed.

Lemma handlePosition_reply now p u g :
  let '(g', sent) := handlePosition jm validatePosition ttlMs now cid p u g in
  toPhone cid sent = [] ∨ ∃ m, toPhone cid sent = [m] ∧ replyTo g' p m.
Proof.
  assert (H1 : ∀ m, match m with positionSaved _ | positionRejected _ => True | _ => False end →
    toPhone cid [(cid, m)] = [m]).
  { intros m Hm. unfold toPhone. cbn. rewrite bool_decide_eq_true_2 by done. by destruct m. }
  unfold handlePosition. destruct (negb _); [by left|].
  destruct (validatePosition p) as [dto|errs] eqn:EV.
  2: { right. eexists. rewrite H1 by done. split; [done|]. intros _. by exists errs. }
  cbv zeta. unfold runScoped. destruct (storePosition _ _ _ _ _ _ _) as [s' ans] eqn:ES. apply storePosition_cases in ES.
  destruct ans as [r| |did dto' late row].
  - right. eexists. rewrite H1 by done. split; [done|]. cbn. intros ->. destruct ES as [_ ES]. set_solver.
  - by left.
  - destruct ES as (-> & E & E1 & E2 & _). unfold publishPosition. cbv zeta.
    set (g2 := if _ && _ then _ else _). assert (ET : positions (tracking g2) = positions s') by (unfold g2; by destruct (_ && _)).
    destruct late; [by left|]. right. exists (positionSaved (p_suspect row)). split.
    + rewrite !toPhone_app, (toPhone_room (companyRoom _)) by done.
      assert (Hd : ∀ (t : bool) room m, (∀ b, m ≠ positionSaved b) → (∀ r, m ≠ positionRejected r) →
        toPhone cid (if t then toRoom room m g2 else []) = []) by (intros [] room m ? ?; [by apply toPhone_room|done]).
      by rewrite Hd, H1.
    + exists dto, row. split_and!; try done. rewrite ET, E, elem_of_app, list_elem_of_singleton. by right.
Qed.

(** ** The phone *)

(** At most one message is under way, and it is the one the page waits for. *)
Record phoneOk (w : Phone (Raw := Raw)) : Prop := {
  accounted : ∀ p, p ∈ given w → p ∈ handed w ∨ p ∈ dropped w ∨ p ∈ acked w ∨ waiting w = Some p;
  acked_stored : ∀ p, p ∈ acked w → storedIn (server w) p;
  dropped_malformed : ∀ p, p ∈ dropped w → malformed p;
  idle_empty : waiting w = None → up w = [] ∧ down w = [];
  under_way : ∀ p, waiting w = Some p →
    isSending w = true ∧ queuing w = false ∧
    (up w = [p] ∧ down w = [] ∨ up w = [] ∧ (down w = [] ∨ ∃ m, down w = [m] ∧ replyTo (server w) p m));
  queuing_sends : queuing w = true → isSending w = true
}.

(** The timer fires when no answer is under way any more: the connection was
    lost, or the server keeps silent. *)
Inductive phoneRun : relation (Phone (Raw := Raw)) :=
  | PhoneRun e w w' : pstep e w = Some w' → (e = TimerFires → up w = [] ∧ down w = []) → phoneRun w w'.

Lemma send_ok now p w : phoneOk w → phoneOk (sendPosition accuracyOf now p w).
Proof.
  intros [H1 H2 H3 H4 H5 H6]. unfold sendPosition. cbv zeta.
  assert (HQ : phoneOk (queuePosition p (w <| given := given w ++ [p] |>))).
  { constructor; cbn; try done. intros q [Hq|Hq%list_elem_of_singleton]%elem_of_app; rewrite elem_of_app.
    - destruct (H1 q Hq) as [?|[?|[?|?]]]; auto.
    - left. right. by apply list_elem_of_singleton. }
  destruct (isSending _) eqn:ES; [exact HQ|]. change (isSending w = false) in ES. destruct (num_leb _ _); [exact HQ|]. destruct (_ <? _); [exact HQ|].
  assert (HW : waiting w = None) by (destruct (waiting w) as [q|] eqn:E; [by destruct (H5 q eq_refl); congruence|done]).
  destruct (H4 HW) as [Hu Hd].
  destruct (connected _); constructor; cbn; try done.
  - intros q [Hq|Hq%list_elem_of_singleton]%elem_of_app; [|subst; auto].
    destruct (H1 q Hq) as [?|[?|[?|?]]]; auto; congruence.
  - intros q [= <-]. split_and!; [done| |by left; rewrite Hu]. destruct (queuing w); [by specialize (H6 eq_refl)|done].
  - intros q [Hq|Hq%list_elem_of_singleton]%elem_of_app; rewrite elem_of_app.
    + destruct (H1 q Hq) as [?|[?|[?|?]]]; auto.
    + left. right. by apply list_elem_of_singleton.
  - intros q Hq. congruence.
Qed.

Lemma server_ok w g' : grows (tracking (server w)) (tracking g') → phoneOk w → phoneOk (w <| server := g' |>).
Proof.
  intros Hg [H1 H2 H3 H4 H5 H6]. constructor; cbn; try done.
  - intros p Hp. eapply storedIn_grows; [exact Hg|by apply H2].
  - intros p Hp. destruct (H5 p Hp) as (Ha & Hb & [Hc|[Hc [Hd|(m & Hd & Hr)]]]); split_and!; auto.
    right. split; [done|]. right. exists m. split; [done|]. by eapply replyTo_grows.
Qed.

Lemma arrives_ok w m rest : phoneOk w → down w = m :: rest → phoneOk (onMessage m (w <| down := rest |>)).
Proof.
  intros [H1 H2 H3 H4 H5 H6] Hd. unfold onMessage. change (waiting (w <| down := rest |>)) with (waiting w).
  destruct (waiting w) as [p|] eqn:EW; [|destruct (H4 eq_refl); congruence].
  destruct (H5 p eq_refl) as (Ha & Hb & [[_ Hc]|[Hu [Hc|(m' & Hc & Hr)]]]); [congruence..|].
  assert (m' = m ∧ rest = []) as [-> ->] by (split; congruence).
  destruct m as [|reason|b| | | | | | | | | | | |]; try done; cbn [replyTo] in Hr.
  - unfold onRejected. cbv zeta. destruct (String.eqb reason "invalid_payload") eqn:ER; constructor; cbn; try done.
    + intros q Hq. rewrite elem_of_app. destruct (H1 q Hq) as [?|[?|[?|E]]]; auto.
      right. left. right. apply list_elem_of_singleton. congruence.
    + intros q [Hq|Hq%list_elem_of_singleton]%elem_of_app; [by apply H3|]. subst q. apply Hr. by apply String.eqb_eq.
    + congruence.
    + intros q Hq. rewrite elem_of_app. destruct (H1 q Hq) as [?|[?|[?|E]]]; auto.
      left. right. apply list_elem_of_singleton. congruence.
  - unfold onSaved. constructor; cbn; try done.
    + intros q Hq. rewrite elem_of_app. destruct (H1 q Hq) as [?|[?|[?|E]]]; auto.
      right. right. left. right. apply list_elem_of_singleton. congruence.
    + intros q [Hq|Hq%list_elem_of_singleton]%elem_of_app; [by apply H2|]. by subst q.
    + congruence.
Qed.

Lemma takes_ok w env p rest :
  phoneOk w → up w = p :: rest →
  let '(g, sent) := gstep (Received cid env (UpdatePosition p)) (server w) in
  phoneOk (w <| server := g |> <| up := rest |> <| down := down w ++ toPhone cid sent |>).
Proof.
  intros HP Hu. pose proof (step_grows (Received cid env (UpdatePosition p)) (server w) ltac:(done)) as HG.
  assert (HR : let '(g, sent) := gstep (Received cid env (UpdatePosition p)) (server w) in
    toPhone cid sent = [] ∨ ∃ m, toPhone cid sent = [m] ∧ replyTo g p m).
  { cbn [gatewayStep]. unfold guarded. destruct (clients (server w) !! cid) as [c|]; [|by left].
    destruct (verified env c (server w)) as [u cache|msg code]; [apply handlePosition_reply|].
    left. unfold toPhone. cbn. by rewrite bool_decide_eq_true_2. }
  destruct (gstep _ _) as [g sent]. cbn [fst] in HG. destruct (server_ok _ _ HG HP) as [H1 H2 H3 H4 H5 H6].
  destruct (waiting w) as [q|] eqn:EW; [|destruct (H4 EW); cbn in *; congruence].
  destruct (H5 q EW) as (Ha & Hb & [[Hc Hd]|[Hc _]]); cbn in Hc; [|congruence].
  assert (q = p ∧ rest = []) as [-> ->] by (split; congruence). cbn in Hd, Ha, Hb.
  constructor; cbn; try done; [by rewrite EW|].
  intros q. rewrite EW. intros [= <-]. split_and!; [done..|]. right. split; [done|]. rewrite Hd. cbn.
  destruct HR as [->|HR]; [by left|by right].
Qed.

Lemma phoneStep_ok w w' : phoneOk w → phoneRun w w' → phoneOk w'.
Proof.
  intros HP HR. destruct HR as [e w w' HS Hprompt]. destruct e as [now p|env|e| | | | |]; cbn [phoneStep] in HS.
  - injection HS as <-. by apply send_ok.
  - destruct (up w) as [|p rest] eqn:EU; [done|]. pose proof (takes_ok w env p rest HP EU) as HT.
    destruct (gstep _ _) as [g sent]. by injection HS as <-.
  - destruct (notOurs cid e) eqn:EN; [|done]. injection HS as <-. apply server_ok; [|done].
    apply step_grows. intros a t ->. done.
  - destruct (down w) as [|m rest] eqn:ED; [done|]. injection HS as <-. by apply arrives_ok.
  - destruct (Hprompt eq_refl) as [Hu Hd]. destruct HP as [H1 H2 H3 H4 H5 H6].
    destruct (waiting w) as [p|] eqn:EW; [|done]. injection HS as <-. unfold posTimeout. destruct (H5 p eq_refl) as (_ & Hq & _).
    constructor; cbn; try done; [|congruence]. intros q Hq'. rewrite elem_of_app.
    destruct (H1 q Hq') as [?|[?|[?|E]]]; auto. left. right. apply list_elem_of_singleton. congruence.
  - destruct (queuing w) eqn:EQ; [|done]. injection HS as <-. destruct HP as [H1 H2 H3 H4 H5 H6].
    constructor; cbn; try done. intros p Hp. destruct (H5 p Hp) as (_ & Hq & _). congruence.
  - injection HS as <-. destruct HP as [H1 H2 H3 H4 H5 H6]. constructor; cbn; try done.
    intros p Hp. destruct (H5 p Hp) as (Ha & Hb & _). split_and!; [done..|]. right. split; [done|by left].
  - destruct (connected w); [done|]. injection HS as <-. by destruct HP; constructor.
Qed.

(** A phone that has not acquired anything. *)
Definition freshPhone (g : Gateway) : Phone (Raw := Raw) := mkPhone g true [] [] false 0 None false [] [] [] [].

(** C17: no position of a phone is lost.  Whatever the connection, the other
    sockets and the server do, provided that no answer comes after the timer of
    2 s: every position acquired has been given to the offline queue, or is the
    one whose answer is awaited, or is in the database of the server under its
    vehicle and instant, or was refused because it is malformed. *)
Theorem no_position_lost g w p :
  rtc phoneRun (freshPhone g) w → p ∈ given w →
  p ∈ handed w ∨ waiting w = Some p ∨ storedIn (server w) p ∨ p ∈ dropped w ∧ malformed p.
Proof.
  intros HR Hp. assert (HP : phoneOk w).
  { assert (H0 : phoneOk (freshPhone g)) by (constructor; cbn; try done; by intros q ?%not_elem_of_nil).
    revert H0. generalize (freshPhone g) HR. clear. induction 1 as [|x y z Hxy _ IH]; [done|].
    intros Hx. apply IH. by eapply phoneStep_ok. }
  destruct (accounted _ HP p Hp) as [?|[Hd|[Ha|?]]]; [by left| | |by right; left].
  - do 3 right. split; [done|]. by apply (dropped_malformed _ HP).
  - right. right. left. by apply (acked_stored _ HP).
Qed.
End Props.

(** ** Two runs *)

Definition liveAccuracy (d : UpdatePositionDto) : num := default (num_of_Z 50) (accuracy d).
Definition livePhone := @phoneStep exampleLib coarseMath UpdatePositionDto inl (Some 1000) (Some 30) liveAccuracy "phone".
Definition connectedPhone : Phone (Raw := UpdatePositionDto) := freshPhone (liveRun connections liveGateway).

Fixpoint phoneEvents (es : list (PhoneEvent (Raw := UpdatePositionDto))) (w : Phone) : option Phone :=
  match es with
  | [] => Some w
  | e :: es => w' ← livePhone e w; phoneEvents es w'
  end.

(** The answer to the first position comes after its timer, and is taken for the
    answer to the second one: the second, refused by the rate limit, is neither
    stored nor queued. *)
Lemma late_ack_loses_position :
  let second := fixAt car1 5000 in
  match phoneEvents [Acquire 3000 (fixAt car1 3000); TimerFires; Acquire 5000 second;
           ServerTakes (exampleAuthEnv "5" 5000); MessageArrives; ServerTakes (exampleAuthEnv "6" 5001); MessageArrives]
          connectedPhone with
  | Some w => acked w = [second] ∧ map timestamp (handed w) = [3000] ∧ waiting w = None ∧ up w = [] ∧ down w = [] ∧
              map p_timestamp (positions (tracking (server w))) = [3000]
  | None => False
  end.
Proof. vm_compute. split_and!; reflexivity. Qed.

(** Without the timer, a sequence of events is a run. *)
Lemma phoneEvents_run es w w' :
  Forall (λ e, e ≠ TimerFires) es → phoneEvents es w = Some w' →
  rtc (@phoneRun exampleLib coarseMath UpdatePositionDto inl (Some 1000) (Some 30) liveAccuracy "phone") w w'.
Proof.
  intros Hes. revert w. induction Hes as [|e es He _ IH]; intros w Hw; cbn in Hw.
  - injection Hw as <-. constructor.
  - destruct (livePhone e w) as [w1|] eqn:E; [|done]. cbn in Hw. eapply rtc_l; [by apply (PhoneRun _ _ _ _ _ _ e)|].
    by apply IH.
Qed.

Definition oneFix : list (PhoneEvent (Raw := UpdatePositionDto)) :=
  [Acquire 3000 (fixAt car1 3000); ServerTakes (exampleAuthEnv "5" 3100); MessageArrives].

Lemma oneFix_given : option_map given (phoneEvents oneFix connectedPhone) = Some [fixAt car1 3000].
Proof. vm_compute. reflexivity. Qed.

Lemma oneFix_quiet : Forall (λ e, e ≠ TimerFires) oneFix.
Proof. repeat apply Forall_cons_2; first [discriminate | apply Forall_nil_2]. Qed.

Lemma no_position_lost_witness :
  let p := fixAt car1 3000 in
  ∃ w, phoneEvents oneFix connectedPhone = Some w ∧
    (p ∈ handed w ∨ waiting w = Some p ∨ @storedIn _ inl (server w) p ∨ p ∈ dropped w ∧ @malformed _ inl p).
Proof.
  cbv zeta. pose proof oneFix_given as HG.
  destruct (phoneEvents oneFix connectedPhone) as [w|] eqn:E; [|discriminate HG].
  exists w. split; [reflexivity|].
  apply (@no_position_lost exampleLib coarseMath UpdatePositionDto inl (Some 1000) (Some 30) liveAccuracy "phone"
    (liveRun connections liveGateway)).
  - apply (phoneEvents_run oneFix connectedPhone w oneFix_quiet E).
  - injection HG as HG. rewrite HG. left.
Defined.
