(* ===== verification/Fleet.v ===== *)
(** * Fleet: vehicles, drivers and who drives what

    VehiclesService, DriversService and VehicleAssignmentHistoryService
    (common/vehicle-assignment): the registration of vehicles and their GPS
    trackers, the drivers, the vehicle each drives now (driver.vehicleId) and
    the history of these assignments.

    Requests have passed class-validator; null for a column that cannot be
    null, which Prisma refuses before any write, is left out. *)

From S2P Require Import Prelude JsString JsNum.

#[local] Open Scope string_scope.
#[local] Open Scope list_scope.
#[local] Open Scope Z_scope.

Inductive PositionSource := phone | physical_tracker.
#[export] Instance PositionSource_eq_dec : EqDecision PositionSource.
Proof. solve_decision. Defined.

Record Vehicle := mkVehicle {
  companyId : string;
  brand : string;
  model : string;
  year : Z;
  licensePlate : string;
  vin : option string;
  fuelType : string;
  theoreticalConsumption : option num;
  isActive : bool;
  positionSource : PositionSource;
  traccarDeviceId : option string;
  deletedAt : option Z
}.

Record Driver := mkDriver {
  dr_companyId : string;
  dr_firstName : string;
  dr_lastName : string;
  dr_email : option string;
  dr_phone : option string;
  dr_licenseNumber : string;
  dr_vehicleId : option string;
  dr_deletedAt : option Z
}.

(** A row of vehicle_assignment_history; [unassignedAt] is [None] while the
    assignment lasts. *)
Record Assignment := mkAssignment {
  as_companyId : string;
  as_vehicleId : string;
  as_driverId : string;
  assignedAt : Z;
  unassignedAt : option Z
}.

(** The columns of a delivery that removals look at. *)
Record DeliveryRef := mkDeliveryRef {
  df_vehicleId : option string;
  df_driverId : option string;
  df_inProgress : bool;
  df_deletedAt : option Z
}.

Record FleetStore := mkFleet {
  vehicles : gmap string Vehicle;
  drivers : gmap string Driver;
  history : gmap string Assignment;
  deliveries : gmap string DeliveryRef;
  updates : list (string * string * string)  (** dataUpdateBus: company, action, driver *)
}.

(** ** VehicleAssignmentHistoryService *)

Definition isOpen (a : Assignment) : bool := bool_decide (unassignedAt a = None).

Definition openForVehicle (vid : string) (t : gmap string Assignment) : option (string * Assignment) :=
  find_first (λ _ a, bool_decide (as_vehicleId a = vid) && isOpen a) t.
Definition openForDriver (did : string) (t : gmap string Assignment) : option (string * Assignment) :=
  find_first (λ _ a, bool_decide (as_driverId a = did) && isOpen a) t.

Definition closeAt (at_ : Z) (a : Assignment) : Assignment := a <| unassignedAt := Some at_ |>.

Definition closeRow (id : string) (at_ : Z) : M FleetStore unit :=
  modify (λ s, s <| history := alter (closeAt at_) id (history s) |>).

(** [P2002], with the column its target names. *)
Definition P2002_vehicle : exn := OtherError "P2002 vehicle_id".

(** [create], under the two partial unique indexes of the migration. *)
Definition openRow (newId : string) (a : Assignment) : M FleetStore unit := λ s,
  if bool_decide (openForVehicle (as_vehicleId a) (history s) ≠ None) then (s, Throw P2002_vehicle)
  else if bool_decide (openForDriver (as_driverId a) (history s) ≠ None) then (s, Throw PrismaP2002)
  else (s <| history := <[newId := a]> (history s) |>, Ok tt).

(** An empty [vid] has become null in the where clause
    (uuid-safety.middleware.ts), which Prisma refuses on a required column. *)
Definition PrismaValidation : exn := OtherError "PrismaClientValidationError".

Definition assign (newId cid did vid : string) (at_ : Z) : M FleetStore unit :=
  ensure (negb (bool_decide (vid = ""))) PrismaValidation ;;
  forVehicle ← gets (λ s, openForVehicle vid (history s));
  if match forVehicle with Some (_, a) => bool_decide (as_driverId a = did) | None => false end
  then mret tt
  else
    match forVehicle with Some (hid, _) => closeRow hid at_ | None => mret tt end ;;
    forDriver ← gets (λ s, openForDriver did (history s));
    match forDriver with Some (hid, _) => closeRow hid at_ | None => mret tt end ;;
    openRow newId (mkAssignment cid vid did at_ None).

Definition unassign (did : string) (at_ : Z) : M FleetStore unit :=
  modify (λ s, s <| history :=
    update_many (λ _ a, bool_decide (as_driverId a = did) && isOpen a) (closeAt at_) (history s) |>).

(** ** DriversService *)

(** A foreign key without row. *)
Definition P2003 : exn := OtherError "P2003".

(** The identifier column written for [o] (uuid-safety.middleware.ts). *)
Definition uuidColumn (o : option string) : option string := if truthy o then o else None.

(** The unique indexes and the foreign key of the drivers table, for a row
    stored under [id]. *)
Definition putDriver (id : string) (d : Driver) : M FleetStore unit := λ s,
  if existsb (λ kv, negb (bool_decide (kv.1 = id)) && bool_decide (is_Some (dr_vehicleId d))
                    && bool_decide (dr_vehicleId kv.2 = dr_vehicleId d)) (map_to_list (drivers s))
  then (s, Throw P2002_vehicle)
  else if existsb (λ kv, negb (bool_decide (kv.1 = id))
                    && bool_decide (dr_companyId kv.2 = dr_companyId d)
                    && bool_decide (dr_licenseNumber kv.2 = dr_licenseNumber d)) (map_to_list (drivers s))
  then (s, Throw PrismaP2002)
  else if bool_decide (is_Some (dr_vehicleId d)) && bool_decide ((dr_vehicleId d ≫= λ v, vehicles s !! v) = None)
  then (s, Throw P2003)
  else (s <| drivers := <[id := d]> (drivers s) |>, Ok tt).

Definition handleUniqueConflict {A} (msg : string) (e : exn) : M FleetStore A :=
  if bool_decide (e = P2002_vehicle) then throw (ConflictException "Vehicle is already assigned to another driver")
  else if bool_decide (e = PrismaP2002) then throw (ConflictException msg)
  else throw e.

Definition emitUpdate (cid action id : string) : M FleetStore unit :=
  modify (λ s, s <| updates := updates s ++ [(cid, action, id)] |>).

Definition findDriver (cid id : string) (s : FleetStore) : option Driver :=
  match drivers s !! id with
  | Some d => if bool_decide (dr_companyId d = cid) && bool_decide (dr_deletedAt d = None) then Some d else None
  | None => None
  end.

(** The checks on the licence number and on the vehicle asked for, [self] being
    the driver that is updated. *)
Definition checkLicense (cid license msg : string) (self : option string) : M FleetStore unit :=
  existing ← gets (λ s, find_first (λ k d, bool_decide (dr_companyId d = cid)
    && bool_decide (dr_licenseNumber d = license) && bool_decide (dr_deletedAt d = None)) (drivers s));
  match existing with
  | Some (k, _) => ensure (bool_decide (self = Some k)) (ConflictException msg)
  | None => mret tt
  end.

Definition checkVehicle (cid vid : string) (self : option string) : M FleetStore unit :=
  v ← gets (λ s, vehicles s !! vid);
  ensure (match v with
          | Some v => bool_decide (companyId v = cid) && bool_decide (deletedAt v = None)
          | None => false
          end) (NotFoundException "Vehicle not found") ;;
  taken ← gets (λ s, find_first (λ k d, bool_decide (dr_vehicleId d = Some vid)
    && bool_decide (dr_deletedAt d = None) && negb (bool_decide (self = Some k))) (drivers s));
  ensure (bool_decide (taken = None)) (ConflictException "Vehicle is already assigned to another driver").

Record CreateDriverDto := mkCreateDriver {
  cd_firstName : string; cd_lastName : string; cd_email : option string; cd_phone : option string;
  cd_licenseNumber : string; cd_vehicleId : option string
}.

Definition createDriver (newId historyId cid : string) (now : Z) (dto : CreateDriverDto)
    : M FleetStore (string * Driver) :=
  checkLicense cid (cd_licenseNumber dto) "License number already exists" None ;;
  (if truthy (cd_vehicleId dto) then checkVehicle cid (default "" (cd_vehicleId dto)) None else mret tt) ;;
  try_catch
    (let d := mkDriver cid (cd_firstName dto) (cd_lastName dto) (cd_email dto) (cd_phone dto)
                (cd_licenseNumber dto) (uuidColumn (cd_vehicleId dto)) None in
     transaction
       (putDriver newId d ;;
        (if truthy (cd_vehicleId dto) then assign historyId cid newId (default "" (cd_vehicleId dto)) now
         else mret tt)) ;;
     emitUpdate cid "created" newId ;;
     mret (newId, d))
    (handleUniqueConflict "License number already exists").

(** For a nullable column, [None] when absent and [Some None] for null. *)
Record UpdateDriverDto := mkUpdateDriver {
  ud_firstName : option string; ud_lastName : option string;
  ud_email : option (option string); ud_phone : option (option string);
  ud_licenseNumber : option string; ud_vehicleId : option (option string)
}.

(** [driver.update({ data: dto })]. *)
Definition patchDriver (dto : UpdateDriverDto) (d : Driver) : Driver :=
  {| dr_companyId := dr_companyId d;
     dr_firstName := default (dr_firstName d) (ud_firstName dto);
     dr_lastName := default (dr_lastName d) (ud_lastName dto);
     dr_email := default (dr_email d) (ud_email dto);
     dr_phone := default (dr_phone d) (ud_phone dto);
     dr_licenseNumber := default (dr_licenseNumber d) (ud_licenseNumber dto);
     dr_vehicleId := default (dr_vehicleId d) (uuidColumn <$> ud_vehicleId dto);
     dr_deletedAt := dr_deletedAt d |}.

(** What the code reads in [dto.vehicleId] after the query: the middleware wrote
    null over an empty string in the arguments Prisma gave it, which are [dto]
    itself ([shared]) or a copy. *)
Definition vehicleAfterQuery (shared : bool) (dto : UpdateDriverDto) : option (option string) :=
  if shared then uuidColumn <$> ud_vehicleId dto else ud_vehicleId dto.

Definition updateDriver (shared : bool) (historyId cid id : string) (now : Z) (dto : UpdateDriverDto) : M FleetStore Driver :=
  found ← gets (findDriver cid id);
  match found with
  | None => throw (NotFoundException "Driver not found")
  | Some d =>
      (if truthy (ud_licenseNumber dto)
       then checkLicense cid (default "" (ud_licenseNumber dto)) "License number already in use" (Some id)
       else mret tt) ;;
      (if truthy (ud_vehicleId dto ≫= λ v, v)
       then checkVehicle cid (default "" (ud_vehicleId dto ≫= λ v, v)) (Some id) else mret tt) ;;
      try_catch
        (transaction
           (putDriver id (patchDriver dto d) ;;
            match vehicleAfterQuery shared dto with
            | Some None => unassign id now
            | Some (Some vid) => assign historyId cid id vid now
            | None => mret tt
            end) ;;
         emitUpdate cid "updated" id ;;
         mret (patchDriver dto d))
        (handleUniqueConflict "License number already in use")
  end.

Definition removeDriver (cid id : string) (now : Z) : M FleetStore Driver :=
  found ← gets (findDriver cid id);
  match found with
  | None => throw (NotFoundException "Driver not found")
  | Some d =>
      busy ← gets (λ s, find_first (λ _ x, bool_decide (df_driverId x = Some id) && df_inProgress x
                                     && bool_decide (df_deletedAt x = None)) (deliveries s));
      ensure (bool_decide (busy = None))
        (BadRequestException "Cannot delete driver assigned to an in-progress delivery") ;;
      let d' := (if truthy (dr_vehicleId d) then d <| dr_vehicleId := None |> else d)
                  <| dr_deletedAt := Some now |> in
      transaction
        (modify (λ s, s <| drivers := <[id := d']> (drivers s) |>) ;;
         if truthy (dr_vehicleId d) then unassign id now else mret tt) ;;
      emitUpdate cid "deleted" id ;;
      mret d'
  end.

(** ** VehiclesService *)

Section Vehicles.
(** TRACCAR_URL is set to a server; the answer of Traccar (login and
    POST /api/devices) for a name and a unique identifier; the company of
    CompanyScopedContext. *)
Context (traccarConfigured : bool) (traccarPost : string → string → result Z)
  (contextCompany : option string).

Record CreateVehicleDto := mkCreateVehicle {
  cv_brand : string; cv_model : string; cv_year : Z; cv_licensePlate : string; cv_vin : option string;
  cv_fuelType : string; cv_theoreticalConsumption : option num; cv_isActive : option bool;
  cv_positionSource : option PositionSource; cv_traccarDeviceId : option string; cv_imei : option string
}.

Record UpdateVehicleDto := mkUpdateVehicle {
  uv_brand : option string; uv_model : option string; uv_year : option Z; uv_licensePlate : option string;
  uv_vin : option (option string); uv_fuelType : option string;
  uv_theoreticalConsumption : option (option num);
  uv_isActive : option bool; uv_positionSource : option PositionSource;
  uv_traccarDeviceId : option (option string); uv_imei : option string
}.

Definition uv_device (dto : UpdateVehicleDto) : option string := mjoin (uv_traccarDeviceId dto).

Definition validateTrackerConfig (source : option PositionSource) (device imei : option string)
    : M FleetStore unit :=
  ensure (negb (bool_decide (default phone source = physical_tracker) && negb (truthy device)
                && negb (truthy imei)))
    (BadRequestException "imei or traccarDeviceId is required when positionSource is physical_tracker").

(** In every company, deleted vehicles included. *)
Definition checkTraccarDeviceIdUniqueness (device : string) (excludeId : option string) : M FleetStore unit :=
  existing ← gets (λ s, find_first (λ k v, bool_decide (traccarDeviceId v = Some device)
    && negb (truthy excludeId && bool_decide (excludeId = Some k))) (vehicles s));
  ensure (bool_decide (existing = None))
    (ConflictException ("traccarDeviceId " +:+ quoted device +:+ " is already assigned to another vehicle")).

(** [createTraccarDevice]: the identifier carries the company's prefix. *)
Definition createTraccarDevice (name uniqueId : string) : M FleetStore Z :=
  ensure traccarConfigured (BadRequestException "Traccar is not configured") ;;
  of_result (traccarPost name
    (if truthy contextCompany then sliceTo 8 (default "" contextCompany) +:+ "-" +:+ uniqueId else uniqueId)).

Definition provisionTraccarDeviceFromImei (imei label : string) : M FleetStore string :=
  id ← try_catch (createTraccarDevice label imei)
    (λ e, match e with
          | BadRequestException m => throw (BadRequestException
              ("Impossible de créer le traceur pour l'IMEI " +:+ imei
               +:+ " — vérifiez que ce numéro n'est pas déjà associé à un autre véhicule (détail Traccar : "
               +:+ m +:+ ")"))
          | e => throw e
          end);
  checkTraccarDeviceIdUniqueness (pretty id) None ;;
  mret (pretty id).

(** The unique indexes of the vehicles table, for a row stored under [id]. *)
Definition putVehicle (msg id : string) (v : Vehicle) : M FleetStore unit := λ s,
  if existsb (λ kv, negb (bool_decide (kv.1 = id))
       && ((bool_decide (companyId kv.2 = companyId v) && bool_decide (licensePlate kv.2 = licensePlate v))
           || (bool_decide (is_Some (vin v)) && bool_decide (vin kv.2 = vin v))
           || (bool_decide (is_Some (traccarDeviceId v))
               && bool_decide (traccarDeviceId kv.2 = traccarDeviceId v)))) (map_to_list (vehicles s))
  then (s, Throw (ConflictException msg))
  else (s <| vehicles := <[id := v]> (vehicles s) |>, Ok tt).

Definition plateTaken (cid plate : string) (s : FleetStore) : option (string * Vehicle) :=
  find_first (λ _ v, bool_decide (companyId v = cid) && bool_decide (licensePlate v = plate)
                     && bool_decide (deletedAt v = None)) (vehicles s).

Definition createVehicle (newId cid : string) (dto : CreateVehicleDto) : M FleetStore Vehicle :=
  existing ← gets (plateTaken cid (cv_licensePlate dto));
  ensure (bool_decide (existing = None)) (ConflictException "License plate already exists") ;;
  validateTrackerConfig (cv_positionSource dto) (cv_traccarDeviceId dto) (cv_imei dto) ;;
  (if truthy (cv_traccarDeviceId dto)
   then checkTraccarDeviceIdUniqueness (default "" (cv_traccarDeviceId dto)) None else mret tt) ;;
  device ←
    (if bool_decide (cv_positionSource dto = Some physical_tracker) && negb (truthy (cv_traccarDeviceId dto))
        && truthy (cv_imei dto)
     then id ← provisionTraccarDeviceFromImei (default "" (cv_imei dto))
                 (cv_brand dto +:+ " " +:+ cv_model dto +:+ " — " +:+ cv_licensePlate dto);
          mret (Some id)
     else mret (uuidColumn (cv_traccarDeviceId dto)));
  let v := mkVehicle cid (cv_brand dto) (cv_model dto) (cv_year dto) (cv_licensePlate dto) (cv_vin dto)
             (cv_fuelType dto) (cv_theoreticalConsumption dto) (default true (cv_isActive dto))
             (default phone (cv_positionSource dto)) device None in
  putVehicle "License plate already exists" newId v ;;
  mret v.

Definition findVehicle (cid id : string) (s : FleetStore) : option Vehicle :=
  match vehicles s !! id with
  | Some v => if bool_decide (companyId v = cid) && bool_decide (deletedAt v = None) then Some v else None
  | None => None
  end.

Definition updateVehicle (cid id : string) (dto : UpdateVehicleDto) : M FleetStore Vehicle :=
  found ← gets (findVehicle cid id);
  match found with
  | None => throw (NotFoundException "Vehicle not found")
  | Some v =>
      (if truthy (uv_licensePlate dto)
       then existing ← gets (plateTaken cid (default "" (uv_licensePlate dto)));
            ensure (match existing with Some (k, _) => bool_decide (k = id) | None => true end)
              (ConflictException "License plate already in use")
       else mret tt) ;;
      validateTrackerConfig (uv_positionSource dto) (uv_device dto) (uv_imei dto) ;;
      (if truthy (uv_device dto)
       then checkTraccarDeviceIdUniqueness (default "" (uv_device dto)) (Some id) else mret tt) ;;
      let device :=
        if bool_decide (uv_positionSource dto = Some phone) then None
        else default (traccarDeviceId v) (uuidColumn <$> uv_traccarDeviceId dto) in
      let effective := default (positionSource v) (uv_positionSource dto) in
      device ←
        (if bool_decide (effective = physical_tracker) && negb (truthy (uv_device dto))
            && truthy (uv_imei dto)
         then id ← provisionTraccarDeviceFromImei (default "" (uv_imei dto))
                     (default (brand v) (uv_brand dto) +:+ " " +:+ default (model v) (uv_model dto)
                      +:+ " — " +:+ default (licensePlate v) (uv_licensePlate dto));
              mret (Some id)
         else mret device);
      let v' :=
        {| companyId := companyId v; brand := default (brand v) (uv_brand dto);
           model := default (model v) (uv_model dto); year := default (year v) (uv_year dto);
           licensePlate := default (licensePlate v) (uv_licensePlate dto);
           vin := default (vin v) (uv_vin dto);
           fuelType := default (fuelType v) (uv_fuelType dto);
           theoreticalConsumption := default (theoreticalConsumption v) (uv_theoreticalConsumption dto);
           isActive := default (isActive v) (uv_isActive dto); positionSource := effective;
           traccarDeviceId := device; deletedAt := deletedAt v |} in
      putVehicle "License plate already in use" id v' ;;
      mret v'
  end.

Definition removeVehicle (cid id : string) (now : Z) : M FleetStore Vehicle :=
  found ← gets (findVehicle cid id);
  match found with
  | None => throw (NotFoundException "Vehicle not found")
  | Some v =>
      busy ← gets (λ s, find_first (λ _ x, bool_decide (df_vehicleId x = Some id) && df_inProgress x
                                     && bool_decide (df_deletedAt x = None)) (deliveries s));
      ensure (bool_decide (busy = None))
        (BadRequestException "Cannot delete vehicle assigned to an in-progress delivery") ;;
      let v' := v <| deletedAt := Some now |> in
      transaction
        (modify (λ s, s <| drivers :=
           update_many (λ _ d, bool_decide (dr_vehicleId d = Some id) && bool_decide (dr_deletedAt d = None))
             (λ d, d <| dr_vehicleId := None |>) (drivers s) |>) ;;
         modify (λ s, s <| vehicles := <[id := v']> (vehicles s) |>)) ;;
      mret v'
  end.
End Vehicles.
