(* ===== verification/FleetProps.v ===== *)
(** * Fleet: correctness

    [linked] and [consistent] say how driver.vehicleId and the history of
    assignments agree; every request keeps the first, and the requests about
    drivers keep the second. *)

From S2P Require Import Prelude JsString JsNum Fleet.

#[local] Open Scope string_scope.
#[local] Open Scope list_scope.
#[local] Open Scope Z_scope.

Lemma truthy_nonempty o : truthy o = true → ∃ v, o = Some v ∧ v ≠ "".
Proof.
  destruct o as [v|]; [|done]. cbn. rewrite negb_true_iff, bool_decide_eq_false. by exists v.
Qed.

(** ** The abstract state: who drives what *)

(** The history has an open row of [v] and [d]. *)
Definition openPair (t : gmap string Assignment) (v d : string) : Prop :=
  ∃ h a, t !! h = Some a ∧ as_vehicleId a = v ∧ as_driverId a = d ∧ unassignedAt a = None.

(** At most one open row per vehicle and per driver. *)
Definition oneOpen (t : gmap string Assignment) : Prop := ∀ h h' a a',
  t !! h = Some a → t !! h' = Some a' → unassignedAt a = None → unassignedAt a' = None →
  as_vehicleId a = as_vehicleId a' ∨ as_driverId a = as_driverId a' → h = h'.

(** driver.vehicleId of [d] is [v]. *)
Definition drives (s : FleetStore) (v d : string) : Prop :=
  ∃ r, drivers s !! d = Some r ∧ dr_vehicleId r = Some v.

Definition linked (s : FleetStore) : Prop :=
  oneOpen (history s) ∧ ∀ v d, drives s v d → openPair (history s) v d.

Definition consistent (s : FleetStore) : Prop :=
  oneOpen (history s) ∧ ∀ v d, drives s v d ↔ openPair (history s) v d.

(** Rows are only added, and an open one only closed. *)
Definition historyKept (t t' : gmap string Assignment) : Prop := ∀ h a,
  t !! h = Some a → ∃ a', t' !! h = Some a' ∧
    as_vehicleId a' = as_vehicleId a ∧ as_driverId a' = as_driverId a ∧ assignedAt a' = assignedAt a ∧
    (unassignedAt a ≠ None → a' = a).

#[export] Instance historyKept_preorder : PreOrder historyKept.
Proof.
  split.
  - intros t h a Ha. exists a. by split_and!.
  - intros t1 t2 t3 H1 H2 h a Ha. destruct (H1 h a Ha) as (b & Hb & ? & ? & ? & HU).
    destruct (H2 h b Hb) as (c & Hc & ? & ? & ? & HU').
    exists c. split_and!; try congruence. intros Hn. rewrite HU', HU; try done. by rewrite HU.
Qed.

Lemma consistent_linked s : consistent s → linked s.
Proof. intros [H1 H2]. split; [done|]. intros v d. apply H2. Qed.

Lemma isOpen_true a : isOpen a = true ↔ unassignedAt a = None.
Proof. unfold isOpen. by rewrite bool_decide_eq_true. Qed.

(** ** The history *)

Section History.
Implicit Types t : gmap string Assignment.

Lemma openForVehicle_Some vid t h a :
  openForVehicle vid t = Some (h, a) →
  t !! h = Some a ∧ as_vehicleId a = vid ∧ unassignedAt a = None.
Proof.
  intros H%find_first_Some. rewrite andb_true_iff, bool_decide_eq_true, isOpen_true in H. tauto.
Qed.
Lemma openForVehicle_None vid t d : openForVehicle vid t = None → ¬ openPair t vid d.
Proof.
  intros H (h & a & Ha & Hv & _ & Ho). pose proof (find_first_None _ _ _ _ H Ha) as F.
  by rewrite andb_false_iff, bool_decide_eq_false, <- not_true_iff_false, isOpen_true in F; destruct F.
Qed.
Lemma openForDriver_Some did t h a :
  openForDriver did t = Some (h, a) →
  t !! h = Some a ∧ as_driverId a = did ∧ unassignedAt a = None.
Proof.
  intros H%find_first_Some. rewrite andb_true_iff, bool_decide_eq_true, isOpen_true in H. tauto.
Qed.
Lemma openForDriver_None did t v : openForDriver did t = None → ¬ openPair t v did.
Proof.
  intros H (h & a & Ha & _ & Hd & Ho). pose proof (find_first_None _ _ _ _ H Ha) as F.
  by rewrite andb_false_iff, bool_decide_eq_false, <- not_true_iff_false, isOpen_true in F; destruct F.
Qed.

(** Closing rows of [t], those of [P], leaves the pairs of the others. *)
Lemma close_oneOpen t t' :
  oneOpen t →
  (∀ h a', t' !! h = Some a' → unassignedAt a' = None → t !! h = Some a') →
  oneOpen t'.
Proof. intros H HC h h' a a' Ha Ha' Ho Ho'. apply (H h h'); eauto. Qed.

Lemma close_row t h at_ h' a' :
  alter (closeAt at_) h t !! h' = Some a' → unassignedAt a' = None → t !! h' = Some a' ∧ h' ≠ h.
Proof.
  intros Ha Ho. destruct (decide (h' = h)) as [->|Hne].
  - rewrite lookup_alter_eq in Ha. destruct (t !! h); [|done]. simpl in Ha. by simplify_eq.
  - by rewrite lookup_alter_ne in Ha by done.
Qed.

Lemma close_kept t h at_ a :
  t !! h = Some a → unassignedAt a = None → historyKept t (alter (closeAt at_) h t).
Proof.
  intros Ha Ho k b Hb. destruct (decide (k = h)) as [->|Hne].
  - rewrite lookup_alter_eq, Ha. simplify_eq. by eexists.
  - rewrite lookup_alter_ne by done. exists b. by split_and!.
Qed.

Lemma close_pair t h at_ a v d :
  oneOpen t → t !! h = Some a → unassignedAt a = None →
  openPair (alter (closeAt at_) h t) v d ↔
  openPair t v d ∧ v ≠ as_vehicleId a ∧ d ≠ as_driverId a.
Proof.
  intros H1 Ha Ho. split.
  - intros (k & b & Hb & Hv & Hd & Hbo). destruct (close_row _ _ _ _ _ Hb Hbo) as [Hb' Hne].
    split_and!; [by exists k, b| |]; intros ->; apply Hne;
      apply (H1 k h b a Hb' Ha Hbo Ho); [by left|by right].
  - intros ((k & b & Hb & Hv & Hd & Hbo) & Nv & Nd). exists k, b.
    rewrite lookup_alter_ne; [done|]. intros <-. by simplify_eq.
Qed.

Lemma close_alter_oneOpen t h at_ : oneOpen t → oneOpen (alter (closeAt at_) h t).
Proof. intros H. apply (close_oneOpen t); [done|]. intros k b Hb Ho. by destruct (close_row _ _ _ _ _ Hb Ho). Qed.

(** The rows of the driver [did], all closed. *)
Definition closeDriver (did : string) (at_ : Z) (t : gmap string Assignment) : gmap string Assignment :=
  update_many (λ _ a, bool_decide (as_driverId a = did) && isOpen a) (closeAt at_) t.

Lemma closeDriver_spec did at_ t :
  oneOpen t → oneOpen (closeDriver did at_ t) ∧ historyKept t (closeDriver did at_ t) ∧
  ∀ v d, openPair (closeDriver did at_ t) v d ↔ openPair t v d ∧ d ≠ did.
Proof.
  intros H1. unfold closeDriver.
  assert (HC : ∀ h a', update_many (λ _ a, bool_decide (as_driverId a = did) && isOpen a) (closeAt at_) t !! h
                       = Some a' → unassignedAt a' = None → t !! h = Some a' ∧ as_driverId a' ≠ did).
  { intros h a' Ha Ho. rewrite lookup_update_many in Ha. destruct (t !! h) as [a|]; [|done].
    simpl in Ha. destruct (bool_decide (as_driverId a = did) && isOpen a) eqn:E; simplify_eq.
    split; [done|]. intros Hd. rewrite (bool_decide_eq_true_2 _ Hd) in E.
    by rewrite (proj2 (isOpen_true _) Ho) in E. }
  split_and!.
  - apply (close_oneOpen t); [done|]. intros h a Ha Ho. by destruct (HC h a Ha Ho).
  - intros h a Ha. rewrite lookup_update_many, Ha. simpl.
    destruct (_ && isOpen a) eqn:E; [|by exists a].
    rewrite andb_true_iff, isOpen_true in E. destruct E as [_ E]. by eexists.
  - intros v d. split.
    + intros (h & a & Ha & Hv & Hd & Ho). destruct (HC h a Ha Ho) as [Ha' Hne].
      split; [by exists h, a|congruence].
    + intros [(h & a & Ha & Hv & Hd & Ho) Hne]. exists h, a. split_and!; try done.
      rewrite lookup_update_many, Ha. simpl. rewrite bool_decide_eq_false_2; [done|congruence].
Qed.

Lemma open_oneOpen t newId a :
  oneOpen t → t !! newId = None →
  (∀ v d, openPair t v d → v ≠ as_vehicleId a ∧ d ≠ as_driverId a) → oneOpen (<[newId := a]> t).
Proof.
  intros H1 Hf HN h h' b b' Hb Hb' Ho Ho' Hor.
  destruct (decide (h = newId)) as [->|Hne], (decide (h' = newId)) as [->|Hne']; [done| | |].
  - rewrite lookup_insert_eq in Hb. rewrite lookup_insert_ne in Hb' by done. simplify_eq.
    destruct (HN (as_vehicleId b') (as_driverId b')); [by exists h', b'|]. destruct Hor; congruence.
  - rewrite lookup_insert_eq in Hb'. rewrite lookup_insert_ne in Hb by done. simplify_eq.
    destruct (HN (as_vehicleId b) (as_driverId b)); [by exists h, b|]. destruct Hor; congruence.
  - rewrite lookup_insert_ne in Hb, Hb' by done. by apply (H1 h h' b b').
Qed.

Lemma open_pair t newId a v d :
  t !! newId = None → unassignedAt a = None →
  openPair (<[newId := a]> t) v d ↔ (v = as_vehicleId a ∧ d = as_driverId a) ∨ openPair t v d.
Proof.
  intros Hf Ho. split.
  - intros (h & b & Hb & Hv & Hd & Hbo). destruct (decide (h = newId)) as [->|Hne].
    + rewrite lookup_insert_eq in Hb. simplify_eq. by left.
    + rewrite lookup_insert_ne in Hb by done. right. by exists h, b.
  - intros [[-> ->]|(h & b & Hb & Hv & Hd & Hbo)].
    + exists newId, a. by rewrite lookup_insert_eq.
    + exists h, b. rewrite lookup_insert_ne; [done|]. intros <-. by rewrite Hf in Hb.
Qed.

Lemma open_kept t newId a : t !! newId = None → historyKept t (<[newId := a]> t).
Proof.
  intros Hf h b Hb. exists b. rewrite lookup_insert_ne; [by split_and!|].
  intros <-. by rewrite Hf in Hb.
Qed.
End History.

(** What [assign] has closed before it opens the new row. *)
Definition closeFound (at_ : Z) (found : option (string * Assignment)) (t : gmap string Assignment)
    : gmap string Assignment :=
  match found with Some (h, _) => alter (closeAt at_) h t | None => t end.

Lemma closeFound_run at_ (found : option (string * Assignment)) s :
  (match found with Some (h, _) => closeRow h at_ | None => mret tt end : M FleetStore unit) s
  = (s <| history := closeFound at_ found (history s) |>, Ok tt).
Proof. destruct found as [[h a]|]; [done|]. by destruct s. Qed.

Lemma closeFound_kept at_ found t :
  (∀ h a, found = Some (h, a) → t !! h = Some a ∧ unassignedAt a = None) →
  historyKept t (closeFound at_ found t).
Proof.
  intros H. destruct found as [[h a]|]; [|reflexivity].
  destruct (H h a eq_refl) as [Ha Ho]. by apply (close_kept _ _ _ a).
Qed.

Lemma closeVehicle_pair vid at_ t v d :
  oneOpen t →
  let t' := closeFound at_ (openForVehicle vid t) t in
  oneOpen t' ∧ historyKept t t' ∧ (openPair t' v d ↔ openPair t v d ∧ v ≠ vid).
Proof.
  intros H1. cbv zeta. destruct (openForVehicle vid t) as [[h a]|] eqn:E; cbn [closeFound].
  - apply openForVehicle_Some in E as (Ha & <- & Ho).
    split_and!; [by apply close_alter_oneOpen|by apply (close_kept _ _ _ a)|].
    rewrite (close_pair _ _ _ a) by done. split; [tauto|]. intros [HP Hv]. split_and!; [done|done|].
    intros ->. destruct HP as (k & b & Hb & <- & Hd & Hbo). apply Hv.
    assert (k = h) as -> by (apply (H1 k h b a Hb Ha Hbo Ho); by right). congruence.
  - split_and!; [done|reflexivity|]. split; [|tauto]. intros HP. split; [done|]. intros ->.
    by apply (openForVehicle_None _ _ _ E) in HP.
Qed.

Lemma closeDriver_pair did at_ t v d :
  oneOpen t →
  let t' := closeFound at_ (openForDriver did t) t in
  oneOpen t' ∧ historyKept t t' ∧ (openPair t' v d ↔ openPair t v d ∧ d ≠ did).
Proof.
  intros H1. cbv zeta. destruct (openForDriver did t) as [[h a]|] eqn:E; cbn [closeFound].
  - apply openForDriver_Some in E as (Ha & <- & Ho).
    split_and!; [by apply close_alter_oneOpen|by apply (close_kept _ _ _ a)|].
    rewrite (close_pair _ _ _ a) by done. split; [tauto|]. intros [HP Hd]. split_and!; [done| |done].
    intros ->. destruct HP as (k & b & Hb & Hv & <- & Hbo). apply Hd.
    assert (k = h) as -> by (apply (H1 k h b a Hb Ha Hbo Ho); by left). congruence.
  - split_and!; [done|reflexivity|]. split; [|tauto]. intros HP. split; [done|]. intros ->.
    by apply (openForDriver_None _ _ _ E) in HP.
Qed.

Lemma openRow_run newId a s :
  (∀ v d, openPair (history s) v d → v ≠ as_vehicleId a ∧ d ≠ as_driverId a) →
  openRow newId a s = (s <| history := <[newId := a]> (history s) |>, Ok tt).
Proof.
  intros HN. unfold openRow.
  destruct (openForVehicle (as_vehicleId a) (history s)) as [[h b]|] eqn:EV.
  { apply openForVehicle_Some in EV as (Hb & Hv & Ho).
    destruct (HN (as_vehicleId b) (as_driverId b)); [by exists h, b|done]. }
  destruct (openForDriver (as_driverId a) (history s)) as [[h b]|] eqn:ED; [|done].
  apply openForDriver_Some in ED as (Hb & Hd & Ho).
  destruct (HN (as_vehicleId b) (as_driverId b)); [by exists h, b|done].
Qed.

(** [assign] never trips the unique indexes: it makes [did] the one driver of
    [vid] and [vid] his one vehicle, and leaves the other pairs open. *)
Lemma assign_spec newId cid did vid at_ s :
  oneOpen (history s) → vid ≠ "" → history s !! newId = None →
  ∃ t', assign newId cid did vid at_ s = (s <| history := t' |>, Ok tt) ∧
    oneOpen t' ∧ historyKept (history s) t' ∧
    ∀ v d, openPair t' v d ↔ (v = vid ∧ d = did) ∨ (openPair (history s) v d ∧ v ≠ vid ∧ d ≠ did).
Proof.
  intros H1 Hv Hf. unfold assign. rewrite ensure_bind, bool_decide_eq_false_2 by done. cbn [negb].
  rewrite gets_bind. destruct (match openForVehicle vid (history s) with Some _ => _ | None => _ end) eqn:E.
  - destruct (openForVehicle vid (history s)) as [[h a]|] eqn:EV; [|done].
    apply bool_decide_eq_true in E. apply openForVehicle_Some in EV as (Ha & Hav & Hao).
    exists (history s). split_and!; [by destruct s|done|reflexivity|]. intros v d. split.
    + intros HP. destruct (decide (v = vid)) as [->|Nv]; [|destruct (decide (d = did)) as [->|Nd]; [|by right]].
      all: destruct HP as (k & b & Hb & Hbv & Hbd & Hbo);
        assert (k = h) as -> by (apply (H1 k h b a Hb Ha Hbo Hao); first [left; congruence|right; congruence]);
        left; split; congruence.
    + intros [[-> ->]|[HP _]]; [by exists h, a|done].
  - set (t1 := closeFound at_ (openForVehicle vid (history s)) (history s)).
    set (t2 := closeFound at_ (openForDriver did t1) t1).
    assert (HA : ∀ v d, openPair t2 v d ↔ openPair (history s) v d ∧ v ≠ vid ∧ d ≠ did).
    { intros v d. destruct (closeVehicle_pair vid at_ (history s) v d H1) as (O1 & _ & P1).
      destruct (closeDriver_pair did at_ t1 v d O1) as (_ & _ & P2). unfold t2. rewrite P2.
      unfold t1. rewrite P1. tauto. }
    destruct (closeVehicle_pair vid at_ (history s) vid did H1) as (O1 & K1 & _). fold t1 in O1, K1.
    destruct (closeDriver_pair did at_ t1 vid did O1) as (O2 & K2 & _). fold t2 in O2, K2.
    assert (Hf2 : t2 !! newId = None).
    { unfold t2, t1, closeFound. repeat case_match; rewrite ?lookup_alter_None; done. }
    exists (<[newId := mkAssignment cid vid did at_ None]> t2). split_and!.
    + rewrite (bind_step _ _ _ _ _ (closeFound_run _ _ _)). rewrite gets_bind.
      rewrite (bind_step _ _ _ _ _ (closeFound_run _ _ _)).
      rewrite openRow_run; [by destruct s|]. destruct s. intros v d HP%HA. by destruct HP as (_ & ? & ?).
    + apply open_oneOpen; [done|done|]. intros v d HP%HA. by destruct HP as (_ & ? & ?).
    + transitivity t1; [done|]. transitivity t2; [done|]. by apply open_kept.
    + intros v d. by rewrite open_pair, HA.
Qed.

(** ** What a request leaves *)

(** The effect of a request on the assignments; [P] is what [consistent] needs
    besides itself to be kept. *)
Definition keeps (P : Prop) (s s' : FleetStore) : Prop :=
  historyKept (history s) (history s') ∧ (linked s → linked s') ∧ (P → consistent s → consistent s').

(** A request is refused and changes nothing, or ends in a store related by [Q]. *)
Definition outcome {A} (Q : relation FleetStore) (m : M FleetStore A) (s : FleetStore) : Prop :=
  (∃ e, m s = (s, Throw e)) ∨ ∃ s' a, m s = (s', Ok a) ∧ Q s s'.

Lemma keeps_refl P s : keeps P s s.
Proof. by split_and!. Qed.

(** Only the drivers' vehicles and the history matter. *)
Lemma keeps_same P s s' :
  history s' = history s → (∀ v d, drives s' v d ↔ drives s v d) → keeps P s s'.
Proof.
  intros EH ED. unfold keeps, linked, consistent. rewrite EH. split_and!; [done| |].
  - intros [H1 H2]. split; [done|]. intros v d. rewrite ED. auto.
  - intros _ [H1 H2]. split; [done|]. intros v d. by rewrite ED.
Qed.

Section Outcome.
Context {A B : Type} (Q : relation FleetStore).

Lemma outcome_read (m : M FleetStore A) (f : A → M FleetStore B) s :
  footprint eq m → (∀ a, outcome Q (f a) s) → outcome Q (m ≫= f) s.
Proof.
  intros Hm Hf. unfold outcome. rewrite bind_run. specialize (Hm s).
  destruct (m s) as [s1 [a|e]]; simpl in Hm; subst s1; [apply Hf|]. left. by exists e.
Qed.

Lemma outcome_gets (f : FleetStore → A) (k : A → M FleetStore B) s :
  outcome Q (k (f s)) s → outcome Q (gets f ≫= k) s.
Proof. done. Qed.

Lemma outcome_throw e s : outcome Q (throw e : M FleetStore A) s.
Proof. left. by exists e. Qed.

Lemma outcome_void (m : M FleetStore A) s : outcome Q m s → outcome Q (m ;; mret tt) s.
Proof.
  unfold outcome. rewrite !bind_run. intros [(e & ->)|(s' & a & -> & HQ)]; [left; by exists e|].
  right. by exists s', tt.
Qed.

Lemma outcome_try (m : M FleetStore A) h s :
  outcome Q m s → (∀ e, ∃ e', h e s = (s, Throw e')) → outcome Q (try_catch m h) s.
Proof.
  intros [(e & Hm)|(s' & a & Hm & HQ)] Hh; unfold outcome, try_catch; rewrite Hm.
  - left. destruct (Hh e) as [e' ->]. by exists e'.
  - right. by exists s', a.
Qed.

(** A transaction, then the message about it. *)
Lemma outcome_saved (m : M FleetStore A) (f : A → FleetStore → FleetStore) (x : B) s :
  (∀ s1 a, m s = (s1, Ok a) → Q s (f a s1)) →
  outcome Q (transaction m ≫= λ a, modify (f a) ;; mret x) s.
Proof.
  intros HQ. unfold outcome, transaction. rewrite bind_run. destruct (m s) as [s1 [a|e]] eqn:E.
  - right. exists (f a s1), x. split; [done|by apply HQ].
  - left. by exists e.
Qed.
End Outcome.

Lemma checkLicense_reads cid l msg self : footprint eq (checkLicense cid l msg self).
Proof. unfold checkLicense. footprint_auto. Qed.
Lemma checkVehicle_reads cid v self : footprint eq (checkVehicle cid v self).
Proof. unfold checkVehicle. footprint_auto. Qed.
#[export] Hint Resolve checkLicense_reads checkVehicle_reads : footprint.

Lemma handleUniqueConflict_throws {A} msg e s :
  ∃ e', (handleUniqueConflict msg e : M FleetStore A) s = (s, Throw e').
Proof. unfold handleUniqueConflict. repeat case_match; by eexists. Qed.

Lemma putDriver_Ok id d s s1 u :
  putDriver id d s = (s1, Ok u) →
  s1 = s <| drivers := <[id := d]> (drivers s) |> ∧
  ∀ v k, dr_vehicleId d = Some v → k ≠ id → ¬ drives s v k.
Proof.
  unfold putDriver. intros H. destruct (existsb _ _) eqn:EX; [done|].
  destruct (existsb _ _) in H; [done|]. destruct (_ && _) in H; [done|].
  simplify_eq. split; [done|]. intros v k Hv Hk (r & Hr & Hrv).
  apply not_true_iff_false in EX. apply EX. apply existsb_exists. exists (k, r). split.
  - by apply list_elem_of_In, elem_of_map_to_list.
  - simpl. rewrite (bool_decide_eq_false_2 (k = id)), (bool_decide_eq_true_2 (is_Some _)) by (done || by exists v).
    rewrite bool_decide_eq_true_2; [done|congruence].
Qed.

Lemma drives_put id d s s' v k :
  drivers s' = <[id := d]> (drivers s) →
  drives s' v k ↔ (k = id ∧ dr_vehicleId d = Some v) ∨ (k ≠ id ∧ drives s v k).
Proof.
  intros E. unfold drives. rewrite E. destruct (decide (k = id)) as [->|Hne].
  - rewrite lookup_insert_eq. split; [intros (r & ? & ?); simplify_eq; auto|].
    intros [[_ ?]|[? _]]; [by exists d|done].
  - rewrite lookup_insert_ne by done. split; [auto|]. by intros [[? _]|[_ ?]].
Qed.

(** The three ways a driver is written. *)
Lemma keeps_put P id d s s' :
  drivers s' = <[id := d]> (drivers s) → history s' = history s →
  (∀ v, dr_vehicleId d = Some v ↔ drives s v id) → keeps P s s'.
Proof.
  intros ED EH Hd. apply keeps_same; [done|]. intros v k. rewrite (drives_put _ _ _ _ _ _ ED), Hd.
  destruct (decide (k = id)) as [->|]; tauto.
Qed.

Lemma keeps_put_unassign P id d at_ s s' :
  drivers s' = <[id := d]> (drivers s) → history s' = closeDriver id at_ (history s) →
  dr_vehicleId d = None → oneOpen (history s) → keeps P s s'.
Proof.
  intros ED EH Hd H1. destruct (closeDriver_spec id at_ _ H1) as (O & K & HP).
  pose proof (λ v k, drives_put _ _ _ _ v k ED) as HD. rewrite Hd in HD.
  unfold keeps, linked, consistent. rewrite EH. split_and!; [done| |].
  - intros [_ HL]. split; [done|]. intros v k. rewrite HD, HP. specialize (HL v k).
    intros [[_ ?]|[??]]; [done|tauto].
  - intros _ [_ HC]. split; [done|]. intros v k. rewrite HD, HP, HC. split; [|tauto].
    intros [[_ ?]|?]; [done|tauto].
Qed.

Lemma keeps_put_assign P id d vid s s' :
  drivers s' = <[id := d]> (drivers s) → dr_vehicleId d = Some vid →
  (∀ k, k ≠ id → ¬ drives s vid k) →
  oneOpen (history s') → historyKept (history s) (history s') →
  (∀ v k, openPair (history s') v k ↔
     (v = vid ∧ k = id) ∨ (openPair (history s) v k ∧ v ≠ vid ∧ k ≠ id)) →
  keeps P s s'.
Proof.
  intros ED Hd HF O K HP. pose proof (λ v k, drives_put _ _ _ _ v k ED) as HD.
  unfold keeps, linked, consistent. split_and!; [done| |].
  - intros [_ HL]. split; [done|]. intros v k. rewrite HD, HP, Hd. specialize (HL v k).
    intros [[-> ?]|[Hk Hv]]; [left; split; congruence|right]. split_and!; [auto| |done].
    intros ->. by apply (HF k).
  - intros _ [_ HC]. split; [done|]. intros v k. rewrite HD, HP, <- HC, Hd. split.
    + intros [[-> ?]|[Hk Hv]]; [left; split; congruence|right]. split_and!; [done| |done].
      intros ->. by apply (HF k).
    + intros [[-> ->]|(? & ? & ?)]; [by left|by right].
Qed.

(** The bodies of the transactions that write a driver. *)
Lemma put_assign_keeps P id d hid cid vid now s s1 u :
  dr_vehicleId d = Some vid → vid ≠ "" → oneOpen (history s) → history s !! hid = None →
  (putDriver id d ;; assign hid cid id vid now) s = (s1, Ok u) → keeps P s s1.
Proof.
  intros Hd Hv H1 Hh H. apply bind_Ok in H as (s2 & u2 & [-> HF]%putDriver_Ok & H).
  destruct (assign_spec hid cid id vid now (s <| drivers := <[id := d]> (drivers s) |>))
    as (t' & Hrun & O & K & HP); [by destruct s|done|by destruct s|].
  rewrite Hrun in H. simplify_eq.
  eapply (keeps_put_assign _ id d vid); destruct s; try done. intros k Hk. by apply HF.
Qed.

Lemma put_unassign_keeps P id d now s s1 u :
  dr_vehicleId d = None → oneOpen (history s) →
  (putDriver id d ;; unassign id now) s = (s1, Ok u) → keeps P s s1.
Proof.
  intros Hd H1 H. apply bind_Ok in H as (s2 & u2 & [-> HF]%putDriver_Ok & H).
  unfold unassign, modify in H. simplify_eq.
  eapply (keeps_put_unassign _ id d now); by destruct s.
Qed.

Lemma put_keeps P id d s s1 u :
  (∀ v, dr_vehicleId d = Some v ↔ drives s v id) →
  (putDriver id d ;; mret tt) s = (s1, Ok u) → keeps P s s1.
Proof.
  intros Hd H. apply bind_Ok in H as (s2 & u2 & [-> HF]%putDriver_Ok & H).
  unfold mret, M_ret in H. simplify_eq. eapply (keeps_put _ id d); [by destruct s..|done].
Qed.

Lemma keeps_updates P s s1 l : keeps P s s1 → keeps P s (s1 <| updates := l |>).
Proof. by destruct s1. Qed.

(** ** Requests *)

Inductive FleetReq :=
  | RCreateDriver (newId historyId cid : string) (now : Z) (dto : CreateDriverDto)
  | RUpdateDriver (shared : bool) (historyId cid id : string) (now : Z) (dto : UpdateDriverDto)
  | RRemoveDriver (cid id : string) (now : Z)
  | RCreateVehicle (newId cid : string) (dto : CreateVehicleDto)
  | RUpdateVehicle (cid id : string) (dto : UpdateVehicleDto)
  | RRemoveVehicle (cid id : string) (now : Z).

(** The identifiers the database draws are new. *)
Definition fresh (q : FleetReq) (s : FleetStore) : Prop :=
  match q with
  | RCreateDriver newId historyId _ _ _ => drivers s !! newId = None ∧ history s !! historyId = None
  | RUpdateDriver _ historyId _ _ _ _ => history s !! historyId = None
  | _ => True
  end.

(** No driver is assigned to the vehicle the request removes. *)
Definition undriven (q : FleetReq) (s : FleetStore) : Prop :=
  match q with RRemoveVehicle _ id _ => ∀ d, ¬ drives s id d | _ => True end.

Lemma createDriver_outcome P newId hid cid now dto s :
  linked s → drivers s !! newId = None → history s !! hid = None →
  outcome (keeps P) (createDriver newId hid cid now dto) s.
Proof.
  intros [H1 _] Hd Hh. unfold createDriver.
  apply outcome_read; [auto with footprint|intros _].
  apply outcome_read; [footprint_auto|intros _].
  cbv zeta. apply outcome_try; [|intros; apply handleUniqueConflict_throws]. apply outcome_saved.
  intros s1 u H. apply keeps_updates. unfold uuidColumn in H.
  destruct (truthy (cd_vehicleId dto)) eqn:ET.
  - apply truthy_nonempty in ET as (vid & EV & Hv). rewrite EV in H. cbn [default from_option id] in H.
    revert H. by apply put_assign_keeps.
  - revert H. apply put_keeps. intros v. split; [done|]. intros (r & Hr & _). by rewrite Hd in Hr.
Qed.

Lemma findDriver_Some cid id s d : findDriver cid id s = Some d → drivers s !! id = Some d.
Proof. unfold findDriver. intros H. repeat case_match; congruence. Qed.

Lemma drives_lookup s id d v : drivers s !! id = Some d → drives s v id ↔ dr_vehicleId d = Some v.
Proof. intros H. unfold drives. rewrite H. split; [intros (r & ? & ?); by simplify_eq|by exists d]. Qed.

Lemma updateDriver_outcome P sh hid cid id now dto s :
  linked s → history s !! hid = None →
  outcome (keeps P) (updateDriver sh hid cid id now dto) s.
Proof.
  intros [H1 _] Hh. unfold updateDriver. apply outcome_gets.
  destruct (findDriver cid id s) as [d|] eqn:EF; [|apply outcome_throw].
  apply findDriver_Some in EF.
  apply outcome_read; [footprint_auto|intros _].
  apply outcome_read; [footprint_auto|intros _].
  apply outcome_try; [|intros; apply handleUniqueConflict_throws]. apply outcome_saved.
  intros s1 u H. apply keeps_updates.
  assert (EV : dr_vehicleId (patchDriver dto d) = default (dr_vehicleId d) (uuidColumn <$> ud_vehicleId dto)) by done.
  revert H EV. generalize (patchDriver dto d) as d'. intros d' H EV. unfold vehicleAfterQuery in H.
  destruct (ud_vehicleId dto) as [o|]; cbn [fmap option_fmap option_map default from_option] in *.
  - destruct (truthy o) eqn:ET; unfold uuidColumn in *; rewrite ?ET in *.
    + apply truthy_nonempty in ET as (vid & -> & Hv).
      assert (HA : (putDriver id d' ;; assign hid cid id vid now) s = (s1, Ok u)) by (by destruct sh).
      revert HA. by apply put_assign_keeps.
    + destruct o as [v|]; [|destruct sh; revert H; by apply put_unassign_keeps].
      destruct sh; [revert H; by apply put_unassign_keeps|].
      apply bind_Ok in H as (s2 & u2 & _ & H). unfold assign in H. rewrite ensure_bind in H.
      cbn in ET. by rewrite ET in H.
  - assert (HA : (putDriver id d' ;; mret tt) s = (s1, Ok u)) by (by destruct sh).
    revert HA. apply put_keeps. intros v. by rewrite (drives_lookup _ _ _ _ EF), EV.
Qed.

Lemma removeDriver_outcome P cid id now s :
  linked s → outcome (keeps P) (removeDriver cid id now) s.
Proof.
  intros HL. unfold removeDriver. apply outcome_gets.
  destruct (findDriver cid id s) as [d|] eqn:EF; [|apply outcome_throw].
  apply findDriver_Some in EF. apply outcome_gets.
  apply outcome_read; [footprint_auto|intros _]. cbv zeta. apply outcome_saved. intros s1 u H.
  rewrite modify_bind in H. apply keeps_updates.
  destruct (truthy (dr_vehicleId d)) eqn:ET.
  - unfold unassign, modify in H. simplify_eq. destruct HL as [H1 _].
    eapply (keeps_put_unassign _ id _ now); [by destruct s..|done|done].
  - unfold mret, M_ret in H. simplify_eq.
    eapply (keeps_put _ id); [by destruct s..|]. intros v. by rewrite (drives_lookup _ _ _ _ EF).
Qed.

Section VehicleRequests.
Context (traccarConfigured : bool) (traccarPost : string → string → result Z)
  (contextCompany : option string).

Lemma provision_reads imei label :
  footprint eq (provisionTraccarDeviceFromImei traccarConfigured traccarPost contextCompany imei label).
Proof. unfold provisionTraccarDeviceFromImei, createTraccarDevice, checkTraccarDeviceIdUniqueness. footprint_auto. Qed.
Lemma trackerChecks_read a b c d e :
  footprint eq (validateTrackerConfig a b c) ∧ footprint eq (checkTraccarDeviceIdUniqueness d e).
Proof. unfold validateTrackerConfig, checkTraccarDeviceIdUniqueness. split; footprint_auto. Qed.

Lemma putVehicle_outcome {A} P msg id v (x : A) s : outcome (keeps P) (putVehicle msg id v ;; mret x) s.
Proof.
  unfold outcome. rewrite bind_run. unfold putVehicle. destruct (existsb _ _); [left; by eexists|].
  right. eexists _, x. split; [done|]. apply keeps_same; by destruct s.
Qed.

Lemma createVehicle_outcome P newId cid dto s :
  outcome (keeps P) (createVehicle traccarConfigured traccarPost contextCompany newId cid dto) s.
Proof.
  unfold createVehicle. apply outcome_gets.
  apply outcome_read; [footprint_auto|intros _].
  apply outcome_read; [apply (trackerChecks_read _ _ _ "" None)|intros _].
  apply outcome_read; [|intros _].
  { case_match; [apply (trackerChecks_read None None None)|footprint_auto]. }
  apply outcome_read; [|intros dev; apply putVehicle_outcome].
  case_match; [|footprint_auto]. apply footprint_bind; [exact _|apply provision_reads|intros; footprint_auto].
Qed.

Lemma updateVehicle_outcome P cid id dto s :
  outcome (keeps P) (updateVehicle traccarConfigured traccarPost contextCompany cid id dto) s.
Proof.
  unfold updateVehicle. apply outcome_gets. destruct (findVehicle cid id s) as [v|]; [|apply outcome_throw].
  apply outcome_read; [footprint_auto|intros _].
  apply outcome_read; [apply (trackerChecks_read _ _ _ "" None)|intros _].
  apply outcome_read; [|intros _].
  { case_match; [apply (trackerChecks_read None None None)|footprint_auto]. }
  cbv zeta. apply outcome_read; [|intros dev; apply putVehicle_outcome].
  case_match; [|footprint_auto]. apply footprint_bind; [exact _|apply provision_reads|intros; footprint_auto].
Qed.

Lemma removeVehicle_outcome cid id now s :
  outcome (keeps (∀ d, ¬ drives s id d)) (removeVehicle cid id now) s.
Proof.
  unfold removeVehicle. apply outcome_gets. destruct (findVehicle cid id s) as [v|]; [|apply outcome_throw].
  apply outcome_gets. apply outcome_read; [footprint_auto|intros _].
  right. eexists _, _. split; [reflexivity|].
  set (f := λ d : Driver, d <| dr_vehicleId := None |>). set (P := λ (_ : string) (d : Driver), _).
  assert (HD : ∀ s' w k, drivers s' = update_many P f (drivers s) → drives s' w k → drives s w k).
  { intros s' w k E (r & Hr & Hw). rewrite E, lookup_update_many in Hr.
    destruct (drivers s !! k) as [r0|] eqn:Ek; [|done]. simpl in Hr. apply (inj Some) in Hr.
    destruct (P k r0); [subst r; done|]. exists r0. split; congruence. }
  unfold keeps, linked, consistent. split_and!.
  - by destruct s.
  - intros [H1 HL]. split; [by destruct s|]. intros w k Hw.
    replace (history _) with (history s) by (by destruct s). apply HL.
    eapply HD; [|exact Hw]. by destruct s.
  - intros HN [H1 HC]. split; [by destruct s|]. intros w k.
    replace (history _) with (history s) by (by destruct s). rewrite <- HC. split.
    + intros Hw. eapply HD; [|exact Hw]. by destruct s.
    + intros (r & Hr & Hw). exists r. split; [|done].
      replace (drivers _) with (update_many P f (drivers s)) by (by destruct s).
      rewrite lookup_update_many, Hr. simpl. unfold P. rewrite bool_decide_eq_false_2; [done|].
      intros Hid. apply (HN k). by exists r.
Qed.

Definition runFleet (q : FleetReq) : M FleetStore unit :=
  match q with
  | RCreateDriver newId hid cid now dto => createDriver newId hid cid now dto ;; mret tt
  | RUpdateDriver sh hid cid id now dto => updateDriver sh hid cid id now dto ;; mret tt
  | RRemoveDriver cid id now => removeDriver cid id now ;; mret tt
  | RCreateVehicle newId cid dto => createVehicle traccarConfigured traccarPost contextCompany newId cid dto ;; mret tt
  | RUpdateVehicle cid id dto => updateVehicle traccarConfigured traccarPost contextCompany cid id dto ;; mret tt
  | RRemoveVehicle cid id now => removeVehicle cid id now ;; mret tt
  end.

Lemma runFleet_outcome q s :
  linked s → fresh q s → outcome (keeps (undriven q s)) (runFleet q) s.
Proof.
  intros HL HF. destruct q; cbn [runFleet undriven]; apply outcome_void.
  - destruct HF. by apply createDriver_outcome.
  - by apply updateDriver_outcome.
  - by apply removeDriver_outcome.
  - apply createVehicle_outcome.
  - apply updateVehicle_outcome.
  - apply removeVehicle_outcome.
Qed.

(** A request served on [s] leaves [s']. *)
Definition fleetStep (s s' : FleetStore) : Prop :=
  ∃ q, fresh q s ∧ s' = (runFleet q s).1.

Lemma fleetStep_linked s s' : linked s → fleetStep s s' → linked s' ∧ historyKept (history s) (history s').
Proof.
  intros HL (q & HF & ->).
  destruct (runFleet_outcome q s HL HF) as [(e & ->)|(s1 & [] & -> & K & L & _)]; simpl; auto.
  split; [done|reflexivity].
Qed.

(** Who drives which vehicle, from any store where each driver.vehicleId
    has its open assignment and no vehicle or driver has two.  Whatever requests
    follow, this still holds and the history was only added to: no row is lost
    and a closed one never changes.  The next request is refused without any
    effect, or keeps all this; and where open assignments and driver.vehicleId
    agree exactly, they still do, unless the request removes a vehicle somebody
    drives. *)
Theorem assignments_follow_history s0 s :
  linked s0 → rtc fleetStep s0 s →
  linked s ∧ historyKept (history s0) (history s) ∧
  ∀ q, fresh q s →
    (∃ e, runFleet q s = (s, Throw e)) ∨
    ∃ s', runFleet q s = (s', Ok tt) ∧ linked s' ∧ historyKept (history s) (history s') ∧
      (undriven q s → consistent s → consistent s').
Proof.
  intros HL HS.
  assert (H : linked s ∧ historyKept (history s0) (history s)).
  { induction HS as [|s0 s1 s2 HS _ IH]; [by split|].
    destruct (fleetStep_linked _ _ HL HS) as [HL1 HK]. destruct (IH HL1) as [? ?].
    split; [done|]. by transitivity (history s1). }
  split_and!; [apply H..|]. intros q HF. destruct H as [H _].
  destruct (runFleet_outcome q s H HF) as [?|(s' & [] & HR & K & L & C)]; [by left|right].
  exists s'. by split_and!; auto.
Qed.
End VehicleRequests.

(** ** A fleet of one vehicle *)

Definition truck : Vehicle :=
  mkVehicle "c1" "Hino" "300" 2020 "1234 TAB" None "diesel" None true phone None None.
Definition oneTruck : FleetStore := mkFleet {["v1" := truck]} ∅ ∅ ∅ [].
Definition hire : FleetReq :=
  RCreateDriver "d1" "h1" "c1" 1000 (mkCreateDriver "Aina" "R" None None "L1" (Some "v1")).
Definition run1 : FleetReq → M FleetStore unit := runFleet false (λ _ _, Throw PrismaP2025) (Some "c1").
Definition hired : FleetStore := (run1 hire oneTruck).1.

Lemma oneTruck_linked : linked oneTruck.
Proof. split; [intros h h' a a' H|intros v d (r & H & _)]; by vm_compute in H. Qed.

Lemma oneTruck_consistent : consistent oneTruck.
Proof.
  split; [apply oneTruck_linked|]. intros v d.
  split; [intros (r & H & _)|intros (h & a & H & _)]; by vm_compute in H.
Qed.

Lemma hire_fresh : fresh hire oneTruck.
Proof. split; apply lookup_empty. Qed.

Lemma assignments_follow_history_witness :
  drives hired "v1" "d1" ∧ linked hired ∧
  ∃ s', run1 (RRemoveDriver "c1" "d1" 2000) hired = (s', Ok tt) ∧
    linked s' ∧ historyKept (history hired) (history s').
Proof.
  destruct (assignments_follow_history false (λ _ _, Throw PrismaP2025) (Some "c1") oneTruck hired)
    as (H1 & _ & H3); [apply oneTruck_linked| |].
  - apply rtc_once. exists hire. split; [apply hire_fresh|reflexivity].
  - split_and!; [by eexists|exact H1|].
    destruct (H3 (RRemoveDriver "c1" "d1" 2000) I) as [[e HE]|(s' & HR & HL & HK & _)].
    + vm_compute in HE. discriminate.
    + by exists s'.
Defined.

(** VehiclesService.remove takes the vehicle from its driver and leaves the
    assignment open. *)
Lemma remove_leaves_open_row :
  consistent hired ∧
  (run1 (RRemoveVehicle "c1" "v1" 2000) hired).2 = Ok tt ∧
  ¬ consistent (run1 (RRemoveVehicle "c1" "v1" 2000) hired).1.
Proof.
  split_and!; [|by vm_compute|].
  - destruct (runFleet_outcome false (λ _ _, Throw PrismaP2025) (Some "c1") hire oneTruck oneTruck_linked hire_fresh)
      as [(e & HE)|(s1 & u & HE & _ & _ & HC)]; [by vm_compute in HE|].
    unfold hired, run1. rewrite HE. by apply HC; [|apply oneTruck_consistent].
  - intros [_ HC].
    assert (HO : openPair (history (run1 (RRemoveVehicle "c1" "v1" 2000) hired).1) "v1" "d1").
    { by exists "h1", (mkAssignment "c1" "v1" "d1" 1000 None). }
    apply HC in HO as (r & Hr & Hv). vm_compute in Hr. by simplify_eq.
Qed.

(** A tracked vehicle can be left without tracker: the update names no
    position source, so its tracker is not asked for. *)
Lemma tracker_dropped :
  let s := mkFleet {["v1" := truck <| positionSource := physical_tracker |> <| traccarDeviceId := Some "7" |>]}
             ∅ ∅ ∅ [] in
  let dto := mkUpdateVehicle None None None None None None None None None (Some None) None in
  let s' := (run1 (RUpdateVehicle "c1" "v1" dto) s).1 in
  (positionSource <$> vehicles s' !! "v1") = Some physical_tracker ∧
  (traccarDeviceId <$> vehicles s' !! "v1") = Some None.
Proof. by vm_compute. Qed.

(** A vehicle on the phone's position can be created with a tracker, which it
    then holds. *)
Lemma phone_keeps_tracker :
  let dto := mkCreateVehicle "Hino" "300" 2020 "1 TAA" None "diesel" None None None (Some "7") None in
  let s' := (run1 (RCreateVehicle "v2" "c1" dto) oneTruck).1 in
  (positionSource <$> vehicles s' !! "v2") = Some phone ∧
  (traccarDeviceId <$> vehicles s' !! "v2") = Some (Some "7").
Proof. by vm_compute. Qed.
