(* ===== verification/Users.v ===== *)
(** * modules/users: UsersService (users.service.ts)

    The accounts of a company as its administrators and their owners change
    them: creation, update by an administrator, profile, address, password,
    preferences, anonymisation, removal.  Accounts and sessions are those of
    AuthModel.v, the drivers and their vehicles those of Fleet.v, to which the
    column driver.userId is added here; the drivers of AuthModel.v are not used.

    As in Fleet.v, null for a column that cannot be null is left out.  A read
    and its write are two steps where another request may come in between
    ([updateChecks], [updateWrite]; [removeChecks], [removeWrite]). *)

From S2P Require Import Prelude JsString Redis Fleet AuthModel Auth.

#[local] Open Scope string_scope.
#[local] Open Scope list_scope.
#[local] Open Scope Z_scope.

(** A row of notifications, as far as the anonymisation changes it. *)
Record UserNotice := mkNotice { un_userId : option string; un_message : string }.

Record UsersStore := mkUsers {
  accounts : AuthStore;
  fleet : FleetStore;
  driverUser : gmap string string;  (** driver.userId, by driver *)
  avatars : gmap string string;  (** user.avatarUrl *)
  preferences : gmap string (gmap string bool);  (** by user; an absent key has its default *)
  notices : gmap string UserNotice
}.

Definition onAccounts {A} : M AuthStore A → M UsersStore A :=
  zoom accounts (λ a s, s <| accounts := a |>).
Definition onFleet {A} : M FleetStore A → M UsersStore A :=
  zoom fleet (λ f s, s <| fleet := f |>).

Record CreateUserDto := mkCreateUser {
  cu_email : string;
  cu_password : string;
  cu_firstName : string;
  cu_lastName : string;
  cu_phone : option string;
  cu_role : UserRole;
  cu_licenseNumber : option string;
  cu_vehicleId : option string
}.

(** [None] for an absent field; for a nullable one, [Some None] is null. *)
Record UpdateUserDto := mkUpdateUser {
  uu_email : option string;
  uu_password : option string;
  uu_firstName : option string;
  uu_lastName : option string;
  uu_phone : option (option string);
  uu_role : option UserRole;
  uu_isActive : option bool;
  uu_licenseNumber : option string;
  uu_vehicleId : option (option string)
}.

Definition validRoles : list UserRole := [admin; dispatcher; driver; client].

(** The accounts a query of the company sees. *)
Definition accountOf (cid id : string) (s : UsersStore) : option User :=
  match users (accounts s) !! id with
  | Some u => if bool_decide (companyId u = cid) && bool_decide (deletedAt u = None) then Some u else None
  | None => None
  end.
(** [user.findUnique({ where: { id, deletedAt: null } })]. *)
Definition ownAccount (id : string) (s : UsersStore) : option User :=
  match users (accounts s) !! id with
  | Some u => if bool_decide (deletedAt u = None) then Some u else None
  | None => None
  end.

(** The count of the other active administrators. *)
Definition otherActiveAdmins (cid id : string) (s : UsersStore) : Z :=
  count_where (λ k u, bool_decide (companyId u = cid) && bool_decide (role u = admin) && isActive u
    && bool_decide (deletedAt u = None) && negb (bool_decide (k = id))) (users (accounts s)).

(** [findById]. *)
Definition findById (id : string) (cid currentUserId : option string) (currentUserRole : option UserRole)
    : M UsersStore User :=
  ensure (negb (truthy currentUserId && bool_decide (is_Some currentUserRole)
                && negb (bool_decide (currentUserId = Some id))
                && negb (bool_decide (currentUserRole = Some admin))
                && negb (bool_decide (currentUserRole = Some dispatcher))))
    (NotFoundException "User not found") ;;
  found ← gets (λ s, match cid with
                     | Some c => if String.eqb c "" then ownAccount id s else accountOf c id s
                     | None => ownAccount id s
                     end);
  match found with Some u => mret u | None => throw (NotFoundException "User not found") end.

(** ** Drivers of accounts *)

(** [driver.findFirst] by vehicle; [self] excludes the driver of an account, and
    with it, as SQL compares null, every driver without account. *)
Definition vehicleTaken (vid : string) (self : option string) (s : UsersStore) : bool :=
  bool_decide (find_first (λ did d,
    bool_decide (Fleet.dr_vehicleId d = Some vid) && bool_decide (Fleet.dr_deletedAt d = None)
    && match self with
       | None => true
       | Some id => match driverUser s !! did with Some u => negb (bool_decide (u = id)) | None => false end
       end) (Fleet.drivers (fleet s)) ≠ None).

Definition licenseHolder (cid license : string) (s : UsersStore) : option (string * Fleet.Driver) :=
  find_first (λ _ d, bool_decide (Fleet.dr_companyId d = cid) && bool_decide (Fleet.dr_licenseNumber d = license)
    && bool_decide (Fleet.dr_deletedAt d = None)) (Fleet.drivers (fleet s)).

(** The checks on the vehicle and the licence asked for a driver; [self] is the
    account that is updated. *)
Definition checkDriverFields (cid : string) (vid license : option string) (self : option string)
    : M UsersStore unit :=
  (if truthy vid then
     v ← gets (λ s, Fleet.findVehicle cid (default "" vid) (fleet s));
     ensure (bool_decide (v ≠ None)) (BadRequestException "Vehicle not found in your company") ;;
     taken ← gets (vehicleTaken (default "" vid) self);
     ensure (negb taken) (ConflictException "Vehicle is already assigned to another driver")
   else mret tt) ;;
  if truthy license then
    holder ← gets (licenseHolder cid (default "" license));
    own ← gets (λ s, match holder with
                     | Some (did, _) => bool_decide (is_Some self) && bool_decide (driverUser s !! did = self)
                     | None => true
                     end);
    ensure own (ConflictException "License number already exists")
  else mret tt.

(** [driver.update] and [driver.create] with [userId]: driver.userId is unique. *)
Definition linkDriver (did uid : string) : M UsersStore unit := λ s,
  if bool_decide (find_first (λ k u, bool_decide (u = uid) && negb (bool_decide (k = did))) (driverUser s) ≠ None)
  then (s, Throw PrismaP2002)
  else (s <| driverUser := <[did := uid]> (driverUser s) |>, Ok tt).

Definition driverOfUser (cid uid : string) (s : UsersStore) : option (string * Fleet.Driver) :=
  find_first (λ did d, bool_decide (driverUser s !! did = Some uid) && bool_decide (Fleet.dr_companyId d = cid)
    && bool_decide (Fleet.dr_deletedAt d = None)) (Fleet.drivers (fleet s)).

Definition driverByEmail (cid e : string) (s : UsersStore) : option (string * Fleet.Driver) :=
  find_first (λ _ d, bool_decide (Fleet.dr_companyId d = cid) && bool_decide (Fleet.dr_email d = Some e)
    && bool_decide (Fleet.dr_deletedAt d = None)) (Fleet.drivers (fleet s)).

Definition defaultLicense (license : option string) (uid : string) : string :=
  if truthy license then default "" license else "DRV-" +:+ sliceTo 8 uid.

Section UsersService.
Context `{AuthLib} (env : AuthEnv).

Definition newDriverId : string := newId env "drivers".
Definition newHistoryId : string := newId env "vehicle_assignment_history".

Definition assignVehicle (cid did : string) (vid : option string) : M UsersStore unit :=
  if truthy vid then onFleet (assign newHistoryId cid did (default "" vid) (now env)) else mret tt.

(** ** create *)

(** The driver record of a new account: the one of the company that has its
    address already, or a new one. *)
Definition attachDriver (cid uid e : string) (dto : CreateUserDto) : M UsersStore unit :=
  existing ← gets (driverByEmail cid e);
  match existing with
  | Some (did, d) =>
      linkDriver did uid ;;
      onFleet (putDriver did
        (d <| Fleet.dr_licenseNumber :=
                (if truthy (cu_licenseNumber dto) then default "" (cu_licenseNumber dto)
                 else Fleet.dr_licenseNumber d) |>
           <| Fleet.dr_vehicleId := (if truthy (cu_vehicleId dto) then cu_vehicleId dto else Fleet.dr_vehicleId d) |>)) ;;
      assignVehicle cid did (cu_vehicleId dto)
  | None =>
      linkDriver newDriverId uid ;;
      onFleet (putDriver newDriverId
        (Fleet.mkDriver cid (cu_firstName dto) (cu_lastName dto) (Some e) (cu_phone dto)
           (defaultLicense (cu_licenseNumber dto) uid) (uuidColumn (cu_vehicleId dto)) None)) ;;
      assignVehicle cid newDriverId (cu_vehicleId dto)
  end.

Definition createUserAccount (cid : string) (dto : CreateUserDto) : M UsersStore (string * User) :=
  let e := normalizeEmail (cu_email dto) in
  existing ← gets (λ s, userByEmail e (accounts s));
  ensure (bool_decide (existing = None)) (ConflictException "Email already in use") ;;
  ensure (bool_decide (cu_role dto ∈ validRoles)) (BadRequestException "Invalid user role") ;;
  let u := newUser e (bcryptHash (salt env) (cu_password dto)) (cu_firstName dto) (cu_lastName dto) (cu_phone dto)
             (cu_role dto) cid in
  let uid := newId env "users" in
  (if bool_decide (cu_role dto = driver)
   then checkDriverFields cid (cu_vehicleId dto) (cu_licenseNumber dto) None else mret tt) ;;
  transaction
    (onAccounts (createUser uid u) ;;
     if bool_decide (cu_role dto = driver) then attachDriver cid uid e dto else mret tt) ;;
  mret (uid, u).

(** ** update *)

(** The administrator would lose his role or his access. *)
Definition removesAdmin (dto : UpdateUserDto) : bool :=
  match uu_role dto with Some r => negb (bool_decide (r = admin)) | None => false end
  || bool_decide (uu_isActive dto = Some false).

Definition targetRole (u : User) (dto : UpdateUserDto) : UserRole := default (role u) (uu_role dto).

(** What [update] reads and refuses. *)
Definition updateChecks (cid id : string) (dto : UpdateUserDto) (currentUserId : string) : M UsersStore User :=
  found ← gets (accountOf cid id);
  match found with
  | None => throw (NotFoundException "User not found")
  | Some u =>
      ensure (match uu_role dto with Some r => bool_decide (r ∈ validRoles) | None => true end)
        (BadRequestException "Invalid user role") ;;
      (if truthy (uu_email dto) && negb (bool_decide (uu_email dto = Some (email u))) then
         existing ← gets (λ s, userByEmail (default "" (uu_email dto)) (accounts s));
         ensure (bool_decide (existing = None)) (ConflictException "Email already in use")
       else mret tt) ;;
      ensure (negb (bool_decide (id = currentUserId) && bool_decide (role u = admin) && removesAdmin dto))
        (ConflictException "You cannot demote or deactivate your own admin account — ask another admin to do it") ;;
      (if bool_decide (role u = admin) && isActive u && removesAdmin dto then
         others ← gets (otherActiveAdmins cid id);
         ensure (negb (others =? 0)) (BadRequestException "Cannot remove the last active admin of this company")
       else mret tt) ;;
      (if bool_decide (targetRole u dto = driver)
       then checkDriverFields cid (mjoin (uu_vehicleId dto)) (uu_licenseNumber dto) (Some id) else mret tt) ;;
      mret u
  end.

(** [user.update({ data })]. *)
Definition patchUser (dto : UpdateUserDto) (u : User) : User :=
  let u :=
    u <| email := match uu_email dto with Some e => normalizeEmail e | None => email u end |>
      <| firstName := default (firstName u) (uu_firstName dto) |>
      <| lastName := default (lastName u) (uu_lastName dto) |>
      <| phone := default (phone u) (uu_phone dto) |>
      <| role := default (role u) (uu_role dto) |>
      <| isActive := default (isActive u) (uu_isActive dto) |> in
  if truthy (uu_password dto)
  then u <| passwordHash := bcryptHash (salt env) (default "" (uu_password dto)) |>
         <| legacyRefreshTokenHash := None |>
  else u.

(** The copies of the account's columns in its driver record. *)
Definition syncDriver (dto : UpdateUserDto) (d : Fleet.Driver) : Fleet.Driver :=
  {| Fleet.dr_companyId := Fleet.dr_companyId d;
     Fleet.dr_firstName := default (Fleet.dr_firstName d) (uu_firstName dto);
     Fleet.dr_lastName := default (Fleet.dr_lastName d) (uu_lastName dto);
     Fleet.dr_email := match uu_email dto with Some e => Some (normalizeEmail e) | None => Fleet.dr_email d end;
     Fleet.dr_phone := default (Fleet.dr_phone d) (uu_phone dto);
     Fleet.dr_licenseNumber := default (Fleet.dr_licenseNumber d) (uu_licenseNumber dto);
     Fleet.dr_vehicleId := default (Fleet.dr_vehicleId d) (uuidColumn <$> uu_vehicleId dto);
     Fleet.dr_deletedAt := Fleet.dr_deletedAt d |}.

(** The driver record of an account that is, or becomes, a driver's. *)
Definition updateDriverRecord (cid id : string) (updated : User) (dto : UpdateUserDto) : M UsersStore string :=
  existing ← gets (driverOfUser cid id);
  match existing with
  | Some (did, d) =>
      onFleet (putDriver did (syncDriver dto d)) ;;
      match uu_vehicleId dto with
      | Some None => onFleet (unassign did (now env))
      | Some (Some vid) => onFleet (assign newHistoryId cid did vid (now env))
      | None => mret tt
      end ;;
      mret did
  | None =>
      linkDriver newDriverId id ;;
      onFleet (putDriver newDriverId
        (Fleet.mkDriver cid (firstName updated) (lastName updated) (Some (email updated))
           (if truthy (phone updated) then phone updated else None)
           (defaultLicense (uu_licenseNumber dto) id) (uuidColumn (mjoin (uu_vehicleId dto))) None)) ;;
      assignVehicle cid newDriverId (mjoin (uu_vehicleId dto)) ;;
      mret newDriverId
  end.

Definition closeSessions (id : string) : M UsersStore unit :=
  onAccounts (modify (λ a, a <| userSessions := delete_many (λ _ x, bool_decide (us_userId x = id)) (userSessions a) |>)).

(** What [update] writes, [u] being the row it read. *)
Definition updateWrite (cid id : string) (dto : UpdateUserDto) (u : User) : M UsersStore User :=
  updated ← transaction
    (onAccounts (updateUser id (patchUser dto)) ;;
     row ← gets (λ s, default u (users (accounts s) !! id));
     (if truthy (uu_password dto) then closeSessions id else mret tt) ;;
     did ← (if bool_decide (targetRole u dto = driver)
            then did ← updateDriverRecord cid id row dto; mret (Some did) else mret None);
     mret (row, did));
  match updated.2 with
  | Some did => onFleet (emitUpdate cid "updated" did)
  | None => mret tt
  end ;;
  mret updated.1.

Definition update (cid id : string) (dto : UpdateUserDto) (currentUserId : string) : M UsersStore User :=
  u ← updateChecks cid id dto currentUserId;
  updateWrite cid id dto u.

(** ** The owner's own changes *)

Definition findOwn (id : string) : M UsersStore User :=
  found ← gets (ownAccount id);
  match found with Some u => mret u | None => throw (NotFoundException "User not found") end.

Definition updateProfile (id : string) (first last : option string) (ph : option (option string))
    : M UsersStore unit :=
  findOwn id ;;
  onAccounts (updateUser id (λ u,
    u <| firstName := default (firstName u) first |> <| lastName := default (lastName u) last |>
      <| phone := default (phone u) ph |>)).

Definition updateEmail (id newEmail : string) (currentPassword : option string) : M UsersStore unit :=
  u ← findOwn id;
  (if truthy (googleId u) then mret tt
   else
     ensure (truthy currentPassword) (UnauthorizedException "Current password is required to change email") ;;
     ensure (bcryptCompare (default "" currentPassword) (passwordHash u))
       (UnauthorizedException "Current password is incorrect")) ;;
  let e := normalizeEmail newEmail in
  ensure (negb (bool_decide (e = email u))) (BadRequestException "New email must be different from current email") ;;
  existing ← gets (λ s, userByEmail e (accounts s));
  ensure (bool_decide (existing = None)) (ConflictException "Email already in use") ;;
  onAccounts (updateUser id (λ u, u <| email := e |>)).

Record ChangePasswordDto := mkChangePassword {
  cp_current : string; cp_new : string; cp_confirm : string
}.

Definition changePassword (id : string) (dto : ChangePasswordDto) : M UsersStore unit :=
  ensure (bool_decide (cp_new dto = cp_confirm dto))
    (BadRequestException "New password and confirmation do not match") ;;
  u ← findOwn id;
  ensure (bcryptCompare (cp_current dto) (passwordHash u)) (BadRequestException "Current password is incorrect") ;;
  transaction
    (onAccounts (updateUser id (λ u, u <| passwordHash := bcryptHash (salt env) (cp_new dto) |>
                                       <| legacyRefreshTokenHash := None |>)) ;;
     closeSessions id) ;;
  onAccounts (revokeUserAccessTokens env id (accessTokenTtlSeconds (JWT_ACCESS_EXPIRATION env))).

Definition updateAvatar (id : string) (url : string) : M UsersStore unit :=
  findOwn id ;; modify (λ s, s <| avatars := <[id := url]> (avatars s) |>).

Definition preferenceKeys : list string :=
  ["emailDeliveryStatus"; "emailFuelAnomaly"; "emailDeliveryDelayed"; "emailMaintenanceDue"; "emailSystem";
   "inAppDeliveryStatus"; "inAppFuelAnomaly"; "inAppDeliveryDelayed"; "inAppMaintenanceDue"; "inAppSystem"].

Definition getPreferences (id : string) : M UsersStore (gmap string bool) :=
  prefs ← gets (λ s, preferences s !! id);
  match prefs with
  | Some p => mret p
  | None => modify (λ s, s <| preferences := <[id := ∅]> (preferences s) |>) ;; mret ∅
  end.

(** The entries of [data] that are booleans under a known key. *)
Definition allowedPreferences (data : list (string * bool)) : gmap string bool :=
  list_to_map (filter (λ kv, kv.1 ∈ preferenceKeys) data).

Definition updatePreferences (id : string) (data : list (string * bool)) : M UsersStore unit :=
  modify (λ s, s <| preferences :=
    <[id := allowedPreferences data ∪ default ∅ (preferences s !! id)]> (preferences s) |>).

(** ** anonymizeUser, remove *)

Definition anonymous (id : string) (u : User) : User :=
  u <| deletedAt := Some (now env) |> <| isActive := false |> <| legacyRefreshTokenHash := None |>
    <| email := "deleted-" +:+ sliceTo 8 id +:+ "@anon.deliverytrack.app" |>
    <| firstName := "[Deleted]" |> <| lastName := "[Deleted]" |> <| phone := None |>
    <| googleId := None |> <| totpSecret := None |> <| totpEnabled := false |>.

Definition anonymizeUser (id cid : string) : M UsersStore unit :=
  found ← gets (accountOf cid id);
  ensure (bool_decide (is_Some found)) (NotFoundException "User not found") ;;
  transaction
    (onAccounts (updateUser id (anonymous id)) ;;
     modify (λ s, s <| avatars := delete id (avatars s) |>) ;;
     closeSessions id ;;
     modify (λ s, s <| preferences := delete id (preferences s) |>) ;;
     modify (λ s, s <| notices :=
       update_many (λ _ n, bool_decide (un_userId n = Some id)) (λ _, mkNotice None "[Deleted]") (notices s) |>)).

Definition removeChecks (cid id currentUserId : string) : M UsersStore unit :=
  ensure (negb (bool_decide (id = currentUserId))) (ConflictException "You cannot delete your own account") ;;
  found ← gets (accountOf cid id);
  match found with
  | None => throw (NotFoundException "User not found")
  | Some u =>
      if bool_decide (role u = admin) && isActive u then
        others ← gets (otherActiveAdmins cid id);
        ensure (negb (others =? 0)) (BadRequestException "Cannot remove the last active admin of this company")
      else mret tt
  end.

Definition removeWrite (id : string) : M UsersStore unit :=
  onAccounts (updateUser id (λ u,
    u <| deletedAt := Some (now env) |> <| isActive := false |> <| legacyRefreshTokenHash := None |>)).

Definition remove (cid id currentUserId : string) : M UsersStore unit :=
  removeChecks cid id currentUserId ;; removeWrite id.

End UsersService.
