(* ===== verification/UsersProps.v ===== *)
(** * modules/users: what UsersService promises

    A company keeps an administrator, a new password closes the sessions of its
    account, and drivers' accounts keep the history of assignments in order
    together with FleetProps.v's requests. *)

From S2P Require Import Prelude JsString Redis Fleet FleetProps AuthModel AuthExample AuthProps AuthSessionProps.
From S2P Require Import Auth Users.

#[local] Open Scope string_scope.
#[local] Open Scope list_scope.
#[local] Open Scope Z_scope.

(** ** Requests *)

Inductive UsersReq :=
  | UCreate (cid : string) (dto : CreateUserDto)
  | UUpdate (cid id : string) (dto : UpdateUserDto) (currentUserId : string)
  | UProfile (id : string) (first last : option string) (ph : option (option string))
  | UEmail (id newEmail : string) (currentPassword : option string)
  | UPassword (id : string) (dto : ChangePasswordDto)
  | UAvatar (id url : string)
  | UReadPreferences (id : string)
  | UPreferences (id : string) (data : list (string * bool))
  | UAnonymize (id cid : string)
  | URemove (cid id currentUserId : string).

Definition runUsers `{AuthLib} (env : AuthEnv) (q : UsersReq) : M UsersStore unit :=
  match q with
  | UCreate cid dto => createUserAccount env cid dto ;; mret tt
  | UUpdate cid id dto cur => update env cid id dto cur ;; mret tt
  | UProfile id first last ph => updateProfile id first last ph
  | UEmail id e pw => updateEmail id e pw
  | UPassword id dto => changePassword env id dto
  | UAvatar id url => updateAvatar id url
  | UReadPreferences id => getPreferences id ;; mret tt
  | UPreferences id data => updatePreferences id data
  | UAnonymize id cid => anonymizeUser env id cid
  | URemove cid id cur => remove env cid id cur
  end.

(** ** Parts of the store *)

Lemma zoom_footprint {S T A} (R : relation S) (get : S → T) put (m : M T A) :
  (∀ s, R s (put (m (get s)).1 s)) → footprint R (zoom get put m).
Proof. intros Hm s. specialize (Hm s). unfold zoom. by destruct (m (get s)). Qed.

Definition usersOf (s : UsersStore) : gmap string User := users (accounts s).
Definition sameUsers (s s' : UsersStore) : Prop := usersOf s' = usersOf s.
#[export] Instance sameUsers_preorder : PreOrder sameUsers.
Proof. split; [done|]. intros s1 s2 s3 H1 H2. unfold sameUsers in *. congruence. Qed.

Lemma onFleet_users {A} (m : M FleetStore A) : footprint sameUsers (onFleet m).
Proof. by apply zoom_footprint. Qed.
Lemma linkDriver_users did uid : footprint sameUsers (linkDriver did uid).
Proof. intros s. unfold linkDriver. by case_match. Qed.
Lemma closeSessions_users id : footprint sameUsers (closeSessions id).
Proof. by apply zoom_footprint. Qed.
#[export] Hint Resolve onFleet_users linkDriver_users closeSessions_users : footprint.

Section Facts.
Context `{AuthLib} (env : AuthEnv).

Lemma assignVehicle_users cid did vid : footprint sameUsers (assignVehicle env cid did vid).
Proof. unfold assignVehicle. footprint_auto. Qed.
Hint Resolve assignVehicle_users : footprint.

Lemma attachDriver_users cid uid e dto : footprint sameUsers (attachDriver env cid uid e dto).
Proof. unfold attachDriver. footprint_auto. Qed.
Lemma updateDriverRecord_users cid id u dto : footprint sameUsers (updateDriverRecord env cid id u dto).
Proof. unfold updateDriverRecord. footprint_auto. Qed.
Hint Resolve attachDriver_users updateDriverRecord_users : footprint.

Lemma checkDriverFields_reads cid vid l self : footprint eq (checkDriverFields cid vid l self).
Proof. unfold checkDriverFields. footprint_auto. Qed.
Hint Resolve checkDriverFields_reads : footprint.
Lemma updateChecks_reads cid id dto cur : footprint eq (updateChecks cid id dto cur).
Proof. unfold updateChecks. footprint_auto. Qed.
Lemma removeChecks_reads cid id cur : footprint eq (removeChecks cid id cur).
Proof. unfold removeChecks. footprint_auto. Qed.

(** ** The row a request writes *)

Definition wrote (id : string) (f : User → User) (s s' : UsersStore) : Prop :=
  sameUsers s s' ∨ ∃ u, usersOf s !! id = Some u ∧ usersOf s' = <[id := f u]> (usersOf s).

Lemma footprint_then {A B} (R : relation UsersStore) (m : M UsersStore A) (f : A → M UsersStore B) :
  (∀ s1 s2 s3, R s1 s2 → sameUsers s2 s3 → R s1 s3) →
  footprint R m → (∀ a, footprint sameUsers (f a)) → footprint R (m ≫= f).
Proof.
  intros HR Hm Hf s. rewrite bind_run. specialize (Hm s). destruct (m s) as [s1 [a|e]]; [|done].
  eapply HR; [done|apply Hf].
Qed.

Lemma wrote_then id f s1 s2 s3 : wrote id f s1 s2 → sameUsers s2 s3 → wrote id f s1 s3.
Proof. unfold wrote, sameUsers. intros [H1|(u & Hu & H1)] H2; [left|right; exists u]; rewrite H2; auto. Qed.

Lemma updateUser_wrote id f : footprint (wrote id f) (onAccounts (updateUser id f)).
Proof.
  apply zoom_footprint. intros s. unfold updateUser. destruct (users (accounts s) !! id) as [u|] eqn:Eu; [|by left].
  destruct (userClashes _ _ _); [by left|]. right. by exists u.
Qed.

Lemma read_wrote {A B} id f (m : M UsersStore A) (k : A → M UsersStore B) s :
  footprint eq m → (∀ a, wrote id f s (k a s).1) → wrote id f s ((m ≫= k) s).1.
Proof.
  intros Hm Hk. rewrite bind_run. specialize (Hm s). destruct (m s) as [s1 [a|e]]; cbn in Hm; subst; [apply Hk|by left].
Qed.

Lemma transaction_wrote {A} id f (m : M UsersStore A) s : wrote id f s (m s).1 → wrote id f s (transaction m s).1.
Proof. unfold transaction. destruct (m s) as [s1 [a|e]]; [done|]. intros _. by left. Qed.

Lemma updateWrite_wrote cid id dto u : footprint (wrote id (patchUser env dto)) (updateWrite env cid id dto u).
Proof.
  unfold updateWrite. apply footprint_then; [apply wrote_then| |intros; footprint_auto].
  intros s. apply transaction_wrote. revert s. apply footprint_then; [apply wrote_then|apply updateUser_wrote|].
  intros; footprint_auto.
Qed.

Lemma findOwn_reads id : footprint eq (findOwn id).
Proof. unfold findOwn. footprint_auto. Qed.

End Facts.

(** ** A company keeps an administrator *)

Definition activeAdmin (cid : string) (u : User) : Prop :=
  companyId u = cid ∧ role u = admin ∧ isActive u = true ∧ deletedAt u = None.
Definition hasAdmin (cid : string) (s : UsersStore) : Prop := ∃ k u, usersOf s !! k = Some u ∧ activeAdmin cid u.

Lemma hasAdmin_wrote cid id f s s' :
  wrote id f s s' → (∀ u, usersOf s !! id = Some u → activeAdmin cid u →
    activeAdmin cid (f u) ∨ ∃ k v, k ≠ id ∧ usersOf s !! k = Some v ∧ activeAdmin cid v) →
  hasAdmin cid s → hasAdmin cid s'.
Proof.
  intros [HE|(u & Hu & HE)] Hf (k & v & Hk & Hv).
  { exists k, v. by rewrite HE. }
  unfold hasAdmin. rewrite HE. destruct (decide (k = id)) as [->|Hne].
  - rewrite Hu in Hk. simplify_eq. destruct (Hf v Hu Hv) as [Hv'|(k' & v' & Hne & Hk' & Hv')].
    + exists id, (f v). by rewrite lookup_insert_eq.
    + exists k', v'. by rewrite lookup_insert_ne.
  - exists k, v. by rewrite lookup_insert_ne.
Qed.

Lemma accountOf_Some cid id s u :
  accountOf cid id s = Some u ↔ usersOf s !! id = Some u ∧ companyId u = cid ∧ deletedAt u = None.
Proof.
  unfold accountOf, usersOf. destruct (users (accounts s) !! id) as [v|]; [|naive_solver].
  repeat case_bool_decide; naive_solver.
Qed.

Lemma other_admin cid id s :
  (otherActiveAdmins cid id s =? 0) = false → ∃ k v, k ≠ id ∧ usersOf s !! k = Some v ∧ activeAdmin cid v.
Proof.
  unfold otherActiveAdmins, count_where. intros H%Z.eqb_neq. destruct (find_many _ _) as [|[k v] l] eqn:E; [done|].
  assert (Hin : (k, v) ∈ (k, v) :: l) by left. rewrite <- E in Hin. apply elem_of_find_many in Hin as [Hk HP].
  rewrite !andb_true_iff, negb_true_iff, !bool_decide_eq_true, bool_decide_eq_false in HP.
  exists k, v. unfold activeAdmin. naive_solver.
Qed.

(** What the checks of an update let through. *)
Lemma updateChecks_Ok cid id dto cur s s' u :
  updateChecks cid id dto cur s = (s', Ok u) →
  accountOf cid id s = Some u ∧
  (role u = admin → isActive u = true → removesAdmin dto = true →
   id ≠ cur ∧ ∃ k v, k ≠ id ∧ usersOf s !! k = Some v ∧ activeAdmin cid v).
Proof.
  unfold updateChecks. rewrite gets_bind. destruct (accountOf cid id s) as [u0|]; [|done]. intros H.
  rewrite ensure_bind in H. destruct (match uu_role dto with Some _ => _ | None => _ end); [|done].
  apply bind_Ok in H as (s1 & [] & H1 & H).
  assert (s1 = s) as ->.
  { pose proof (f_equal fst H1) as E. cbn in E. subst s1.
    assert (HF : footprint eq (if truthy (uu_email dto) && negb (bool_decide (uu_email dto = Some (email u0))) then
       existing ← gets (λ s, userByEmail (default "" (uu_email dto)) (accounts s));
       ensure (bool_decide (existing = None)) (ConflictException "Email already in use") else mret tt : M UsersStore unit))
      by footprint_auto. symmetry. apply HF. }
  rewrite ensure_bind in H. destruct (negb (_ && _ && removesAdmin dto)) eqn:Eself; [|done].
  assert (HG : ∀ (b : bool) (g : bool) e (k : unit → M UsersStore User),
    ((if b then others ← gets (otherActiveAdmins cid id); ensure (negb (others =? 0)) e else mret tt) ≫= k) s = (s', Ok u) →
    (b = true → (otherActiveAdmins cid id s =? 0) = false) ∧ k tt s = (s', Ok u)).
  { intros [] g e k HK; rewrite bind_run in HK; [|by split]. rewrite gets_bind in HK.
    destruct (_ =? 0); [done|]. by split. }
  apply (HG _ true) in H as [HA H]. apply bind_Ok in H as (s2 & [] & _ & H).
  unfold mret, M_ret in H. simplify_eq. split; [done|]. intros Hr Hac Hrm.
  rewrite Hr, Hac, Hrm in *. rewrite bool_decide_eq_true_2 in * by done. rewrite andb_true_r, andb_true_r in Eself.
  apply negb_true_iff, bool_decide_eq_false in Eself. split; [done|]. by apply other_admin, HA.
Qed.

Lemma patch_keeps_admin `{AuthLib} env cid dto u :
  removesAdmin dto = false → activeAdmin cid u → activeAdmin cid (patchUser env dto u).
Proof.
  unfold removesAdmin. rewrite orb_false_iff, bool_decide_eq_false. intros [Hr Ha] (Hc & Hro & Hac & Hd).
  unfold activeAdmin, patchUser. destruct (truthy (uu_password dto)); cbn; split_and!; try done.
  all: first [destruct (uu_role dto) as [r|]; cbn in *; [by apply negb_false_iff, bool_decide_eq_true in Hr|done]
             |destruct (uu_isActive dto) as [[]|]; cbn; done].
Qed.

Section Admins.
Context `{AuthLib}.

Lemma create_keeps_users env cid dto s k u :
  usersOf s !! k = Some u → usersOf (createUserAccount env cid dto s).1 !! k = Some u.
Proof.
  intros Hk. set (R := λ s1 s2 : UsersStore, usersOf s1 ⊆ usersOf s2).
  assert (HR : PreOrder R) by (split; [intros x; unfold R; done|intros x y z; unfold R; apply transitivity]).
  assert (HF : footprint R (createUserAccount env cid dto)).
  { assert (Hsame : ∀ A (m : M UsersStore A), footprint sameUsers m → footprint R m)
      by (intros A m Hm s1; unfold R; by rewrite (Hm s1)).
    assert (Hnew : ∀ id v, footprint R (onAccounts (createUser id v))).
    { intros id v. apply zoom_footprint. intros s1. unfold R, createUser, usersOf.
      destruct (users (accounts s1) !! id) eqn:E; [done|]. cbn. destruct (userClashes _ _ _); [done|].
      cbn. by apply insert_subseteq. }
    unfold createUserAccount.
    assert (Hd : ∀ uid e, footprint R (attachDriver env cid uid e dto)) by (intros; apply Hsame, attachDriver_users).
    assert (Hc : ∀ a b c d, footprint R (checkDriverFields a b c d)).
    { intros. apply Hsame. intros s1. by rewrite <- (checkDriverFields_reads a b c d s1). }
    footprint_auto; auto. }
  specialize (HF s). unfold R in HF. by eapply lookup_weaken.
Qed.

(** The row each request of an owner writes, and how. *)
Lemma own_wrote {A} id f (k : User → M UsersStore A) s :
  (∀ u, wrote id f s (k u s).1) → wrote id f s ((findOwn id ≫= k) s).1.
Proof. apply read_wrote, findOwn_reads. Qed.

Definition withProfile (first last : option string) (ph : option (option string)) (u : User) : User :=
  u <| firstName := default (firstName u) first |> <| lastName := default (lastName u) last |>
    <| phone := default (phone u) ph |>.
Definition withPassword (env : AuthEnv) (dto : ChangePasswordDto) (u : User) : User :=
  u <| passwordHash := bcryptHash (salt env) (cp_new dto) |> <| legacyRefreshTokenHash := None |>.

Lemma updateProfile_wrote id first last ph : footprint (wrote id (withProfile first last ph)) (updateProfile id first last ph).
Proof. intros s. apply own_wrote. intros u. apply updateUser_wrote. Qed.

Lemma updateEmail_wrote id e pw :
  footprint (wrote id (λ u, u <| email := normalizeEmail e |>)) (updateEmail id e pw).
Proof.
  intros s. apply own_wrote. intros u. apply read_wrote; [footprint_auto|intros _].
  apply read_wrote; [footprint_auto|intros _]. apply read_wrote; [footprint_auto|intros x].
  apply read_wrote; [footprint_auto|intros _]. apply updateUser_wrote.
Qed.

Lemma revoke_users env id ttl : footprint sameUsers (onAccounts (revokeUserAccessTokens env id ttl)).
Proof.
  apply zoom_footprint. intros s. unfold sameUsers, usersOf, revokeUserAccessTokens, revokeKey, redisBestEffort.
  by destruct (redisLink env).
Qed.

Lemma changePassword_wrote env id dto : footprint (wrote id (withPassword env dto)) (changePassword env id dto).
Proof.
  intros s. apply read_wrote; [footprint_auto|intros _]. apply own_wrote. intros u.
  apply read_wrote; [footprint_auto|intros _]. revert s.
  apply footprint_then; [apply wrote_then| |intros _; apply revoke_users].
  intros s. apply transaction_wrote. revert s. apply footprint_then; [apply wrote_then|apply updateUser_wrote|].
  intros _. apply closeSessions_users.
Qed.

Lemma updateAvatar_users id url : footprint sameUsers (updateAvatar id url).
Proof.
  intros s. unfold updateAvatar. rewrite bind_run. pose proof (findOwn_reads id s) as HR.
  destruct (findOwn id s) as [s1 [u|e]]; cbn in HR; by subst s1.
Qed.
Lemma readPreferences_users id : footprint sameUsers (getPreferences id ;; mret tt).
Proof. intros s. unfold getPreferences. rewrite bind_run, gets_bind. by destruct (preferences s !! id). Qed.
Lemma updatePreferences_users id data : footprint sameUsers (updatePreferences id data).
Proof. done. Qed.

Lemma wrote_keeps_admin cid id f s s' :
  wrote id f s s' → (∀ u, activeAdmin cid u → activeAdmin cid (f u)) → hasAdmin cid s → hasAdmin cid s'.
Proof. intros Hw Hf. eapply hasAdmin_wrote; [exact Hw|]. intros u _ Hu. left. by apply Hf. Qed.

Lemma update_keeps_admin env cid c id dto cur s :
  hasAdmin cid s → hasAdmin cid (update env c id dto cur s).1.
Proof.
  intros Ha. unfold update. rewrite bind_run. pose proof (updateChecks_reads c id dto cur s) as HR.
  destruct (updateChecks c id dto cur s) as [s1 [u|e]] eqn:E; cbn in HR; subst s1; [|done].
  apply updateChecks_Ok in E as [[Hu [Hc Hd]]%accountOf_Some HC].
  eapply hasAdmin_wrote; [apply (updateWrite_wrote env c id dto u)| |done].
  intros v Hv Hav. rewrite Hu in Hv. simplify_eq.
  destruct (removesAdmin dto) eqn:Erm; [|left; by apply patch_keeps_admin]. right.
  destruct Hav as (<- & Hr & Hac & _). by destruct (HC Hr Hac eq_refl).
Qed.

Lemma remove_keeps_admin env cid c id cur s :
  hasAdmin cid s → hasAdmin cid (remove env c id cur s).1.
Proof.
  intros Ha. unfold remove. rewrite bind_run. pose proof (removeChecks_reads c id cur s) as HR.
  destruct (removeChecks c id cur s) as [s1 [u|e]] eqn:E; cbn in HR; subst s1; [|done].
  eapply hasAdmin_wrote; [apply updateUser_wrote| |done]. intros v Hv (Hcv & Hr & Hac & Hd). right.
  unfold removeChecks in E. rewrite ensure_bind in E. destruct (negb _); [|done]. rewrite gets_bind in E.
  destruct (accountOf c id s) as [w|] eqn:Ew; [|done]. apply accountOf_Some in Ew as (Hw & Hcw & _).
  rewrite Hv in Hw. simplify_eq. rewrite Hr, Hac, bool_decide_eq_true_2 in E by done. cbn in E.
  rewrite gets_bind in E. destruct (_ =? 0) eqn:E0; [done|]. by apply other_admin.
Qed.

Definition keepsAdmins (q : UsersReq) : bool := match q with UAnonymize _ _ => false | _ => true end.

Lemma run_keeps_admin env q cid s :
  keepsAdmins q = true → hasAdmin cid s → hasAdmin cid (runUsers env q s).1.
Proof.
  intros Hq Ha. destruct q; try discriminate Hq; cbn [runUsers].
  - rewrite bind_run. destruct (createUserAccount env cid0 dto s) as [s1 [a|e]] eqn:E; cbn;
      destruct Ha as (k & u & Hk & Hu); exists k, u; split; try done;
      replace s1 with (createUserAccount env cid0 dto s).1 by (by rewrite E); by apply create_keeps_users.
  - rewrite bind_run. destruct (update env cid0 id dto currentUserId s) as [s1 [a|e]] eqn:E; cbn;
      replace s1 with (update env cid0 id dto currentUserId s).1 by (by rewrite E); by apply update_keeps_admin.
  - by eapply wrote_keeps_admin; [apply updateProfile_wrote|..].
  - by eapply wrote_keeps_admin; [apply updateEmail_wrote|..].
  - by eapply wrote_keeps_admin; [apply changePassword_wrote|..].
  - by apply (wrote_keeps_admin cid id (λ u, u) s); [left; apply updateAvatar_users|..].
  - by apply (wrote_keeps_admin cid id (λ u, u) s); [left; apply readPreferences_users|..].
  - by apply (wrote_keeps_admin cid id (λ u, u) s); [left; apply updatePreferences_users|..].
  - by apply remove_keeps_admin.
Qed.

(** As long as nobody anonymises an account, a company that has an active
    administrator always has one, whatever its administrators and users request
    and however the requests follow one another. *)
Theorem company_keeps_admin (qs : list (AuthEnv * UsersReq)) cid s :
  forallb (λ eq, keepsAdmins eq.2) qs = true →
  hasAdmin cid s → hasAdmin cid (foldl (λ s eq, (runUsers eq.1 eq.2 s).1) s qs).
Proof.
  revert s. induction qs as [|[env q] qs IH]; intros s; [done|]. cbn. rewrite andb_true_iff.
  intros [H1 H2] Ha. by apply IH, run_keeps_admin.
Qed.
End Admins.

(** ** The assignments of drivers *)

Lemma onFleet_Ok {A} (m : M FleetStore A) s s' a :
  onFleet m s = (s', Ok a) → ∃ f, m (fleet s) = (f, Ok a) ∧ s' = s <| fleet := f |>.
Proof. unfold onFleet, zoom. destruct (m (fleet s)) as [f [b|e]]; [|done]. intros [= <- <-]. by exists f. Qed.
Lemma onAccounts_fleet {A} (m : M AuthStore A) s : fleet (onAccounts m s).1 = fleet s.
Proof. unfold onAccounts, zoom. by destruct (m (accounts s)). Qed.
Lemma linkDriver_fleet did uid s : fleet (linkDriver did uid s).1 = fleet s.
Proof. unfold linkDriver. by case_match. Qed.

Lemma linked_fleet did uid s s' r : linkDriver did uid s = (s', r) → fleet s' = fleet s.
Proof. intros E. by rewrite <- (linkDriver_fleet did uid s), E. Qed.

Section Assignments.
Context `{AuthLib} (env : AuthEnv).

(** The identifiers the database draws are new. *)
Definition freshIds (s : UsersStore) : Prop :=
  Fleet.drivers (fleet s) !! newDriverId env = None ∧ history (fleet s) !! newHistoryId env = None.

Lemma put_assign_fleet P did d cid vid s s' :
  (onFleet (putDriver did d) ;; assignVehicle env cid did vid) s = (s', Ok tt) →
  (if truthy vid then Fleet.dr_vehicleId d = vid
   else ∀ v, Fleet.dr_vehicleId d = Some v ↔ drives (fleet s) v did) →
  oneOpen (history (fleet s)) → history (fleet s) !! newHistoryId env = None →
  keeps P (fleet s) (fleet s').
Proof.
  intros Hrun Hd H1 Hh. apply bind_Ok in Hrun as (s1 & [] & (f1 & Hf1 & ->)%onFleet_Ok & Ha).
  unfold assignVehicle in Ha. destruct (truthy vid) eqn:ET.
  - apply truthy_nonempty in ET as (v & -> & Hv). apply onFleet_Ok in Ha as (f2 & Ha & ->). cbn in *.
    eapply (put_assign_keeps P did d (newHistoryId env) cid v (now env) _ _ tt); try done.
    rewrite bind_run. by rewrite Hf1.
  - unfold mret, M_ret in Ha. simplify_eq. cbn. eapply (put_keeps P did d _ _ tt); [exact Hd|].
    rewrite bind_run. by rewrite Hf1.
Qed.

Lemma attachDriver_fleet P cid uid e dto s s' :
  attachDriver env cid uid e dto s = (s', Ok tt) → oneOpen (history (fleet s)) → freshIds s →
  keeps P (fleet s) (fleet s').
Proof.
  unfold attachDriver. rewrite gets_bind. intros Hrun H1 [Hd Hh].
  destruct (driverByEmail cid e s) as [[did d]|] eqn:ED; apply bind_Ok in Hrun as (s1 & [] & Hl & Hrun);
    assert (EF : fleet s1 = fleet s) by (by eapply linked_fleet); rewrite <- EF in *.
  - apply (put_assign_fleet P _ _ _ _ _ _ Hrun); [|done|done].
    destruct (truthy (cu_vehicleId dto)); [done|]. intros v. cbn.
    apply find_first_Some in ED as [ED _]. rewrite <- EF in ED. by rewrite (drives_lookup _ _ _ _ ED).
  - apply (put_assign_fleet P _ _ _ _ _ _ Hrun); [|done|done]. cbn. unfold uuidColumn.
    destruct (truthy (cu_vehicleId dto)); [done|]. intros v. split; [done|]. intros (r & Hr & _). by rewrite Hd in Hr.
Qed.

Lemma updateDriverRecord_fleet P cid uid u dto s s' did :
  updateDriverRecord env cid uid u dto s = (s', Ok did) → oneOpen (history (fleet s)) → freshIds s →
  keeps P (fleet s) (fleet s').
Proof.
  unfold updateDriverRecord. rewrite gets_bind. intros Hrun H1 [Hd Hh].
  destruct (driverOfUser cid uid s) as [[k d]|] eqn:ED.
  - apply find_first_Some in ED as [ED _].
    apply bind_Ok in Hrun as (s1 & [] & (f1 & Hf1 & ->)%onFleet_Ok & Hrun).
    apply bind_Ok in Hrun as (s2 & [] & Hv & Hrun). unfold mret, M_ret in Hrun. simplify_eq.
    assert (EV : Fleet.dr_vehicleId (syncDriver dto d) = default (Fleet.dr_vehicleId d) (uuidColumn <$> uu_vehicleId dto)) by done.
    revert Hf1 EV. generalize (syncDriver dto d). intros d' Hf1 EV.
    destruct (uu_vehicleId dto) as [[vid|]|]; cbn [fmap option_fmap option_map default from_option] in *.
    + apply onFleet_Ok in Hv as (f2 & Hv & ->). cbn in *.
      destruct (decide (vid = "")) as [->|Hne]; [done|].
      eapply (put_assign_keeps P did d' (newHistoryId env) cid vid (now env) _ _ tt); try done.
      * rewrite EV. unfold uuidColumn, truthy. by rewrite bool_decide_eq_false_2.
      * rewrite bind_run. by rewrite Hf1.
    + apply onFleet_Ok in Hv as (f2 & Hv & ->). cbn in *.
      eapply (put_unassign_keeps P did d' (now env) _ _ tt); try done. rewrite bind_run. by rewrite Hf1.
    + unfold mret, M_ret in Hv. simplify_eq. cbn. eapply (put_keeps P did d' _ _ tt).
      * intros v. by rewrite (drives_lookup _ _ _ _ ED), EV.
      * rewrite bind_run. by rewrite Hf1.
  - apply bind_Ok in Hrun as (s1 & [] & Hl & Hrun).
    assert (EF : fleet s1 = fleet s) by (by eapply linked_fleet). rewrite <- EF in *.
    rewrite bind_run in Hrun. apply bind_Ok in Hrun as (s2 & [] & Hput & Hrun).
    apply bind_Ok in Hrun as (s3 & [] & Has & Hrun). unfold mret, M_ret in Hrun. simplify_eq.
    eapply (put_assign_fleet P _ _ cid (mjoin (uu_vehicleId dto)) s1 s'); [|..|done|done].
    + rewrite bind_run. by rewrite Hput.
    + cbn. unfold uuidColumn. destruct (truthy (mjoin (uu_vehicleId dto))); [done|].
      intros v. split; [done|]. intros (r & Hr & _). by rewrite Hd in Hr.
Qed.

(** ** Requests and assignments *)

Definition sameFleet (s s' : UsersStore) : Prop := fleet s' = fleet s.
#[local] Instance sameFleet_preorder : PreOrder sameFleet.
Proof. split; [done|]. intros s1 s2 s3 H1 H2. unfold sameFleet in *. congruence. Qed.

Lemma onAccounts_same {A} (m : M AuthStore A) : footprint sameFleet (onAccounts m).
Proof. intros s. apply onAccounts_fleet. Qed.
Lemma findOwn_same id : footprint sameFleet (findOwn id).
Proof. unfold findOwn. footprint_auto. Qed.
Lemma closeSessions_same id : footprint sameFleet (closeSessions id).
Proof. apply onAccounts_same. Qed.
Lemma reads_same {A} (m : M UsersStore A) : footprint eq m → footprint sameFleet m.
Proof. intros Hm s. unfold sameFleet. by rewrite <- (Hm s). Qed.
Hint Resolve onAccounts_same findOwn_same closeSessions_same : footprint.

Lemma same_keeps P s s' : sameFleet s s' → keeps P (fleet s) (fleet s').
Proof. unfold sameFleet. intros ->. apply keeps_refl. Qed.

Lemma read_keeps {A B} P (m : M UsersStore A) (k : A → M UsersStore B) s :
  footprint eq m → (∀ a, keeps P (fleet s) (fleet (k a s).1)) → keeps P (fleet s) (fleet ((m ≫= k) s).1).
Proof.
  intros Hm Hk. rewrite bind_run. specialize (Hm s).
  destruct (m s) as [s1 [a|e]]; cbn in Hm; subst s1; [apply Hk|apply keeps_refl].
Qed.

(** A transaction whose body, when it returns, keeps the assignments. *)
Lemma transaction_keeps {A B} P (m : M UsersStore A) (k : A → M UsersStore B) s :
  (∀ s1 a, m s = (s1, Ok a) → keeps P (fleet s) (fleet (k a s1).1)) →
  keeps P (fleet s) (fleet ((transaction m ≫= k) s).1).
Proof.
  intros Hm. rewrite bind_run. destruct (transaction m s) as [s1 [a|e]] eqn:E.
  - apply Hm. by apply transaction_Ok.
  - apply transaction_Throw in E as ->. apply keeps_refl.
Qed.

Lemma create_fleet P cid dto s :
  oneOpen (history (fleet s)) → freshIds s →
  keeps P (fleet s) (fleet (createUserAccount env cid dto s).1).
Proof.
  intros H1 Hf. unfold createUserAccount. apply read_keeps; [footprint_auto|intros x].
  apply read_keeps; [footprint_auto|intros _]. apply read_keeps; [footprint_auto|intros _]. cbv zeta.
  apply read_keeps; [pose proof checkDriverFields_reads; footprint_auto; auto|intros _].
  apply transaction_keeps. intros s1 [] Hrun. cbn. apply bind_Ok in Hrun as (s2 & [] & Hc & Hrun).
  pose proof (onAccounts_fleet (createUser (newId env "users") (newUser (normalizeEmail (cu_email dto))
    (bcryptHash (salt env) (cu_password dto)) (cu_firstName dto) (cu_lastName dto) (cu_phone dto) (cu_role dto) cid)) s) as EF.
  rewrite Hc in EF. cbn in EF. case_bool_decide.
  - rewrite <- EF in *. unfold freshIds in *. rewrite <- EF in Hf.
    by eapply (attachDriver_fleet P).
  - unfold mret, M_ret in Hrun. simplify_eq. rewrite EF. apply keeps_refl.
Qed.

Lemma updateWrite_fleet P cid uid dto u s :
  oneOpen (history (fleet s)) → freshIds s →
  keeps P (fleet s) (fleet (updateWrite env cid uid dto u s).1).
Proof.
  intros H1 Hf. unfold updateWrite. apply transaction_keeps. intros s1 [row did] Hrun.
  apply bind_Ok in Hrun as (s2 & [] & Hup & Hrun). rewrite gets_bind in Hrun.
  apply bind_Ok in Hrun as (s3 & [] & Hcl & Hrun). apply bind_Ok in Hrun as (s4 & o & Hdr & Hrun).
  unfold mret, M_ret in Hrun. simplify_eq.
  assert (EF : fleet s3 = fleet s).
  { transitivity (fleet s2).
    - replace s3 with ((if truthy (uu_password dto) then closeSessions uid else mret tt) s2).1 by (by rewrite Hcl).
      destruct (truthy (uu_password dto)); [apply onAccounts_fleet|done].
    - replace s2 with (onAccounts (updateUser uid (patchUser env dto)) s).1 by (by rewrite Hup). apply onAccounts_fleet. }
  unfold freshIds in Hf. rewrite <- EF in *.
  assert (HK : keeps P (fleet s3) (fleet s1)).
  { case_bool_decide.
    - apply bind_Ok in Hdr as (s5 & k & Hdr & Hk). unfold mret, M_ret in Hk. simplify_eq.
      by eapply (updateDriverRecord_fleet P).
    - unfold mret, M_ret in Hdr. simplify_eq. apply keeps_refl. }
  destruct did as [did|]; [|exact HK]. cbn. by apply keeps_updates.
Qed.

Lemma runUsers_fleet P q s :
  oneOpen (history (fleet s)) → freshIds s → keeps P (fleet s) (fleet (runUsers env q s).1).
Proof.
  intros H1 Hf. assert (Hvoid : ∀ A (m : M UsersStore A), keeps P (fleet s) (fleet (m s).1) →
    keeps P (fleet s) (fleet ((m ;; mret tt) s).1)).
  { intros A m. rewrite bind_run. by destruct (m s) as [s1 [a|e]]. }
  destruct q; cbn [runUsers].
  - apply Hvoid. by apply create_fleet.
  - apply Hvoid. unfold update. apply read_keeps; [apply updateChecks_reads|intros u]. by apply updateWrite_fleet.
  - apply same_keeps. assert (HF : footprint sameFleet (updateProfile id first last0 ph))
      by (unfold updateProfile; footprint_auto). apply HF.
  - apply same_keeps. assert (HF : footprint sameFleet (updateEmail id newEmail currentPassword))
      by (unfold updateEmail; footprint_auto). apply HF.
  - apply same_keeps. assert (HF : footprint sameFleet (changePassword env id dto))
      by (unfold changePassword; footprint_auto). apply HF.
  - apply same_keeps. assert (HF : footprint sameFleet (updateAvatar id url))
      by (unfold updateAvatar; footprint_auto; done). apply HF.
  - apply same_keeps. assert (HF : footprint sameFleet (getPreferences id ;; mret tt))
      by (unfold getPreferences; footprint_auto; done). apply HF.
  - by apply same_keeps.
  - apply same_keeps. assert (HF : footprint sameFleet (anonymizeUser env id cid))
      by (unfold anonymizeUser; footprint_auto; done). apply HF.
  - apply same_keeps. assert (HF : footprint sameFleet (remove env cid id currentUserId))
      by (unfold remove, removeWrite; footprint_auto; by apply reads_same, removeChecks_reads). apply HF.
Qed.
End Assignments.

(** ** Refused requests *)

Definition atomic {A} (m : M UsersStore A) : Prop := ∀ s s' e, m s = (s', Throw e) → s' = s.

Lemma atomic_read {A B} (m : M UsersStore A) (k : A → M UsersStore B) :
  footprint eq m → (∀ a, atomic (k a)) → atomic (m ≫= k).
Proof.
  intros Hm Hk s s' e. rewrite bind_run. specialize (Hm s).
  destruct (m s) as [s1 [a|x]]; cbn in Hm; subst s1; [apply Hk|]. by intros [= <- _].
Qed.
(** What follows the writes cannot fail. *)
Lemma atomic_then {A B} (m : M UsersStore A) (k : A → M UsersStore B) :
  atomic m → (∀ a s, is_ok (k a s).2 = true) → atomic (m ≫= k).
Proof.
  intros Hm Hk s s' e. rewrite bind_run. destruct (m s) as [s1 [a|x]] eqn:E.
  - specialize (Hk a s1). destruct (k a s1) as [s2 [b|y]]; done.
  - intros [= <- _]. by eapply Hm.
Qed.
Lemma atomic_transaction {A} (m : M UsersStore A) : atomic (transaction m).
Proof. intros s s' e. apply transaction_Throw. Qed.
Lemma atomic_updateUser id f : atomic (onAccounts (updateUser id f)).
Proof.
  intros s s' e. unfold onAccounts, zoom, updateUser. destruct (users (accounts s) !! id) as [u|]; cbn.
  - destruct (userClashes _ _ _); intros [= <- _]; by destruct s.
  - intros [= <- _]. by destruct s.
Qed.

Lemma runUsers_atomic `{AuthLib} env q : atomic (runUsers env q).
Proof.
  pose proof findOwn_reads as Hown. pose proof checkDriverFields_reads as Hdr.
  destruct q; cbn [runUsers].
  - apply atomic_then; [|done]. unfold createUserAccount. apply atomic_read; [footprint_auto|intros x].
    apply atomic_read; [footprint_auto|intros _]. apply atomic_read; [footprint_auto|intros _]. cbv zeta.
    apply atomic_read; [footprint_auto; auto|intros _]. apply atomic_then; [apply atomic_transaction|done].
  - apply atomic_then; [|done]. unfold update. apply atomic_read; [apply updateChecks_reads|intros u].
    unfold updateWrite. apply atomic_then; [apply atomic_transaction|]. intros [row [did|]] s; done.
  - apply atomic_read; [auto|intros u]. apply atomic_updateUser.
  - apply atomic_read; [auto|intros u]. apply atomic_read; [footprint_auto|intros _].
    apply atomic_read; [footprint_auto|intros _]. apply atomic_read; [footprint_auto|intros x].
    apply atomic_read; [footprint_auto|intros _]. apply atomic_updateUser.
  - apply atomic_read; [footprint_auto|intros _]. apply atomic_read; [auto|intros u].
    apply atomic_read; [footprint_auto|intros _]. apply atomic_then; [apply atomic_transaction|].
    intros _ s. unfold onAccounts, zoom, revokeUserAccessTokens, revokeKey, redisBestEffort.
    by destruct (redisLink env).
  - apply atomic_read; [auto|intros u]. done.
  - apply atomic_then; [|done]. unfold getPreferences. apply atomic_read; [footprint_auto|intros [p|]]; done.
  - done.
  - unfold anonymizeUser. apply atomic_read; [footprint_auto|intros x]. apply atomic_read; [footprint_auto|intros _].
    apply atomic_transaction.
  - unfold remove. apply atomic_read; [apply removeChecks_reads|intros _]. apply atomic_updateUser.
Qed.

(** ** UsersService, DriversService and VehiclesService together *)

Section Staff.
Context `{AuthLib} (traccarConfigured : bool) (traccarPost : string → string → result Z)
  (contextCompany : option string).

(** A request of UsersService, the writes of an update whose checks read
    earlier, or a request of Fleet.v. *)
Inductive staffStep (s : UsersStore) : UsersStore → Prop :=
  | OfUsers env q : freshIds env s → staffStep s (runUsers env q s).1
  | OfLateWrite env cid id dto u : freshIds env s → staffStep s (updateWrite env cid id dto u s).1
  | OfFleet q : fresh q (fleet s) →
      staffStep s (onFleet (runFleet traccarConfigured traccarPost contextCompany q) s).1.

Lemma fleet_of_onFleet {A} (m : M FleetStore A) s : fleet (onFleet m s).1 = (m (fleet s)).1.
Proof. unfold onFleet, zoom. by destruct (m (fleet s)). Qed.

Lemma staffStep_linked s s' : linked (fleet s) → staffStep s s' →
  linked (fleet s') ∧ historyKept (history (fleet s)) (history (fleet s')).
Proof.
  intros HL Hst. pose proof HL as [H1 _]. destruct Hst as [env q Hf|env cid id dto u Hf|q Hf].
  - by destruct (runUsers_fleet env True q s H1 Hf) as (K & L & _); auto.
  - by destruct (updateWrite_fleet env True cid id dto u s H1 Hf) as (K & L & _); auto.
  - rewrite fleet_of_onFleet. apply (fleetStep_linked traccarConfigured traccarPost contextCompany _ _ HL). by exists q.
Qed.

(** C21: accounts, drivers and vehicles together, from any store where each
    driver.vehicleId has its open assignment and no vehicle or driver has two.
    Whatever requests of the three services follow, and whatever they do between
    the checks of an account's update and its writes, this still holds and the
    history was only added to.  The next request on an account is refused
    without any effect, or keeps the exact agreement of open assignments and
    driver.vehicleId where it holds; so does the next request on a driver or a
    vehicle, unless it removes a vehicle somebody drives. *)
Theorem assignments_follow_requests s0 s :
  linked (fleet s0) → rtc staffStep s0 s →
  linked (fleet s) ∧ historyKept (history (fleet s0)) (history (fleet s)) ∧
  (∀ env q s' r, freshIds env s → runUsers env q s = (s', r) →
     (is_ok r = false → s' = s) ∧ (consistent (fleet s) → consistent (fleet s'))) ∧
  ∀ q f r, fresh q (fleet s) → runFleet traccarConfigured traccarPost contextCompany q (fleet s) = (f, r) →
    (is_ok r = false → f = fleet s) ∧ (undriven q (fleet s) → consistent (fleet s) → consistent f).
Proof.
  intros HL HS.
  assert (H1 : linked (fleet s) ∧ historyKept (history (fleet s0)) (history (fleet s))).
  { induction HS as [|s0 s1 s2 HS _ IH]; [by split|].
    destruct (staffStep_linked _ _ HL HS) as [HL1 HK]. destruct (IH HL1) as [? ?].
    split; [done|]. by transitivity (history (fleet s1)). }
  split_and!; [apply H1..| |]; destruct H1 as [HL1 _].
  - intros env q s' r Hf Hrun. split.
    + destruct r as [a|e]; [done|]. intros _. by eapply runUsers_atomic.
    + destruct (runUsers_fleet env True q s (proj1 HL1) Hf) as (_ & _ & C). rewrite Hrun in C. by apply C.
  - intros q f r Hf Hrun.
    destruct (runFleet_outcome traccarConfigured traccarPost contextCompany q (fleet s) HL1 Hf)
      as [(e & HE)|(f' & u & HE & _ & _ & C)]; rewrite HE in Hrun; simplify_eq; by split.
Qed.
End Staff.

(** ** A new password *)

Definition sessionsOf (s : UsersStore) : gmap string UserSession := userSessions (accounts s).
Definition sameSessions (s s' : UsersStore) : Prop := sessionsOf s' = sessionsOf s.
#[export] Instance sameSessions_preorder : PreOrder sameSessions.
Proof. split; [done|]. intros s1 s2 s3 H1 H2. unfold sameSessions in *. congruence. Qed.

(** Exactly the sessions of [id] are gone. *)
Definition sessionsClosed (id : string) (s s' : UsersStore) : Prop :=
  ∀ k x, sessionsOf s' !! k = Some x ↔ sessionsOf s !! k = Some x ∧ us_userId x ≠ id.

Lemma onFleet_sessions {A} (m : M FleetStore A) : footprint sameSessions (onFleet m).
Proof. by apply zoom_footprint. Qed.
Lemma linkDriver_sessions did uid : footprint sameSessions (linkDriver did uid).
Proof. intros s. unfold linkDriver. by case_match. Qed.
#[export] Hint Resolve onFleet_sessions linkDriver_sessions : footprint.

Lemma updateDriverRecord_sessions `{AuthLib} env cid id u dto :
  footprint sameSessions (updateDriverRecord env cid id u dto).
Proof. unfold updateDriverRecord, assignVehicle. footprint_auto. Qed.

Lemma updateUser_Ok id f s s1 r :
  onAccounts (updateUser id f) s = (s1, Ok r) → sessionsOf s1 = sessionsOf s ∧ redisDb (accounts s1) = redisDb (accounts s).
Proof.
  unfold onAccounts, zoom, updateUser. destruct (users (accounts s) !! id); [|done].
  destruct (userClashes _ _ _); [done|]. by intros [= <- _].
Qed.

Lemma closeSessions_run id s : ∃ s1, closeSessions id s = (s1, Ok tt) ∧ sessionsClosed id s s1 ∧
  redisDb (accounts s1) = redisDb (accounts s).
Proof.
  eexists. split; [reflexivity|]. split; [|done]. intros k x. unfold sessionsOf. cbn.
  rewrite lookup_delete_many_Some, bool_decide_eq_false. done.
Qed.

Section Passwords.
Context `{AuthLib} (env : AuthEnv).

(** Access tokens of [id] issued so far are refused as long as they live. *)
Definition accessRevoked (id : string) (s : UsersStore) : Prop :=
  ∀ t p i, sub p = id → iat p = Some i → 0 < i → i * 1000 ≤ now env →
  now env ≤ t < now env + accessTokenTtlSeconds (JWT_ACCESS_EXPIRATION env) * 1000 →
  tokenRevoked t p (redisDb (accounts s)) = true.

Lemma revoke_run id s : 0 ≤ now env → redisLink env = RedisUp →
  accessRevoked id (onAccounts (revokeUserAccessTokens env id (accessTokenTtlSeconds (JWT_ACCESS_EXPIRATION env))) s).1.
Proof.
  intros H0 Hr t p i Hs Hi Hi0 Hi1 Ht. unfold onAccounts, zoom, revokeUserAccessTokens, revokeKey, redisBestEffort.
  rewrite Hr. cbn. unfold tokenRevoked. rewrite Hi, Hs. cbn. rewrite (proj2 (Z.eqb_neq i 0)) by lia.
  rewrite (revoked_after_set _ _ p) by (done || lia). done.
Qed.

Lemma changePassword_Ok id dto s s' :
  changePassword env id dto s = (s', Ok tt) →
  (∃ u, usersOf s !! id = Some u ∧ deletedAt u = None ∧ bcryptCompare (cp_current dto) (passwordHash u) = true) ∧
  sessionsClosed id s s' ∧ (0 ≤ now env → redisLink env = RedisUp → accessRevoked id s').
Proof.
  unfold changePassword. rewrite ensure_bind. destruct (bool_decide _); [|done]. intros Hrun.
  apply bind_Ok in Hrun as (s0 & u & Hown & Hrun). unfold findOwn in Hown. rewrite gets_bind in Hown.
  destruct (ownAccount id s) as [v|] eqn:EO; [|done]. unfold mret, M_ret in Hown. simplify_eq.
  rewrite ensure_bind in Hrun. destruct (bcryptCompare _ _) eqn:EB; [|done].
  apply bind_Ok in Hrun as (s1 & [] & Htr%transaction_Ok & Hrv).
  apply bind_Ok in Htr as (s2 & [] & [HS HR]%updateUser_Ok & Hcl).
  destruct (closeSessions_run id s2) as (s3 & Hc & HC & HRC). rewrite Hc in Hcl. simplify_eq.
  split_and!.
  - exists u. unfold ownAccount in EO. unfold usersOf. destruct (users (accounts s0) !! id) as [w|]; [|done].
    case_bool_decide; by simplify_eq.
  - assert (E : sessionsOf s' = sessionsOf s1).
    { replace s' with (onAccounts (revokeUserAccessTokens env id (accessTokenTtlSeconds (JWT_ACCESS_EXPIRATION env))) s1).1
        by (by rewrite Hrv).
      unfold onAccounts, zoom, revokeUserAccessTokens, revokeKey, redisBestEffort. by destruct (redisLink env). }
    intros k x. rewrite E, (HC k x). by rewrite HS.
  - intros H0 Hr. pose proof (revoke_run id s1 H0 Hr) as HA. by rewrite Hrv in HA.
Qed.

Lemma updateWrite_sessions cid id dto u s s' r :
  truthy (uu_password dto) = true → updateWrite env cid id dto u s = (s', Ok r) → sessionsClosed id s s'.
Proof.
  intros HT. unfold updateWrite. intros Hrun. apply bind_Ok in Hrun as (s1 & [row did] & Htr%transaction_Ok & Hem).
  apply bind_Ok in Htr as (s2 & [] & [HS _]%updateUser_Ok & Htr). rewrite gets_bind, HT in Htr.
  destruct (closeSessions_run id s2) as (s3 & Hc & HC & _). rewrite bind_run, Hc in Htr.
  apply bind_Ok in Htr as (s4 & o & Hdr & Htr). unfold mret, M_ret in Htr. simplify_eq.
  assert (E1 : sessionsOf s1 = sessionsOf s3).
  { match type of Hdr with ?m s3 = _ => assert (HF : footprint sameSessions m);
      [footprint_auto; apply updateDriverRecord_sessions|specialize (HF s3); rewrite Hdr in HF; exact HF] end. }
  assert (E2 : sessionsOf s' = sessionsOf s1).
  { match type of Hem with ?m s1 = _ => assert (HF : footprint sameSessions m);
      [footprint_auto|specialize (HF s1); rewrite Hem in HF; exact HF] end. }
  intros k x. rewrite E2, E1, (HC k x). by rewrite HS.
Qed.

Lemma wrote_password id f k s s' u u' :
  wrote id f s s' → usersOf s !! k = Some u → usersOf s' !! k = Some u' → passwordHash u' ≠ passwordHash u →
  k = id ∧ passwordHash (f u) ≠ passwordHash u.
Proof.
  intros [HE|(v & Hv & HE)] Hk Hk' Hne; rewrite HE in Hk'; [by simplify_eq|].
  destruct (decide (k = id)) as [->|Hn].
  - rewrite lookup_insert_eq in Hk'. rewrite Hv in Hk. by simplify_eq.
  - rewrite lookup_insert_ne in Hk' by done. by simplify_eq.
Qed.

Lemma wrote_same_password {A} id f (m : M UsersStore A) k s u u' :
  footprint (wrote id f) m → (∀ v, passwordHash (f v) = passwordHash v) →
  usersOf s !! k = Some u → usersOf (m s).1 !! k = Some u' → passwordHash u' = passwordHash u.
Proof.
  intros Hm Hf Hk Hk'. destruct (decide (passwordHash u' = passwordHash u)) as [|Hne]; [done|].
  destruct (wrote_password _ _ _ _ _ _ _ (Hm s) Hk Hk' Hne) as [_ Hp]. by destruct (Hp (Hf u)).
Qed.

(** Same for a request that leaves the accounts as they are. *)
Lemma same_password {A} (m : M UsersStore A) k s u u' :
  footprint sameUsers m → usersOf s !! k = Some u → usersOf (m s).1 !! k = Some u' → passwordHash u' = passwordHash u.
Proof. intros Hm Hk Hk'. rewrite (Hm s) in Hk'. by simplify_eq. Qed.

Lemma anonymize_wrote id cid : footprint (wrote id (anonymous env id)) (anonymizeUser env id cid).
Proof.
  intros s. apply read_wrote; [footprint_auto|intros x]. apply read_wrote; [footprint_auto|intros _].
  apply transaction_wrote. revert s. apply footprint_then; [apply wrote_then|apply updateUser_wrote|].
  intros _. footprint_auto; done.
Qed.

Lemma run_void {A} (m : M UsersStore A) s : ((m ;; mret tt) s).1 = (m s).1.
Proof. rewrite bind_run. by destruct (m s) as [s1 [a|e]]. Qed.

Lemma update_password cid id dto cur k s u u' :
  usersOf s !! k = Some u → usersOf (update env cid id dto cur s).1 !! k = Some u' →
  passwordHash u' ≠ passwordHash u →
  k = id ∧ cid = companyId u ∧ sessionsClosed id s (update env cid id dto cur s).1.
Proof.
  intros Hk. unfold update. rewrite bind_run. pose proof (updateChecks_reads cid id dto cur s) as HR.
  destruct (updateChecks cid id dto cur s) as [s1 [v|e]] eqn:E; cbn in HR; subst s1;
    [|intros Hk' Hne; cbn in Hk'; rewrite Hk in Hk'; by simplify_eq].
  apply updateChecks_Ok in E as [[Hv [Hc Hd]]%accountOf_Some _]. intros Hk' Hne.
  destruct (wrote_password _ _ _ _ _ _ _ (updateWrite_wrote env cid id dto v s) Hk Hk' Hne) as [-> Hp].
  assert (HT : truthy (uu_password dto) = true).
  { unfold patchUser in Hp. by destruct (truthy (uu_password dto)). }
  rewrite Hk in Hv. simplify_eq. split_and!; [done..|].
  destruct (updateWrite env (companyId v) id dto v s) as [s2 [r|e]] eqn:EW; [by eapply updateWrite_sessions|].
  exfalso. assert (s2 = s) as ->.
  { pose proof (runUsers_atomic env (UUpdate (companyId v) id dto cur)) as HA.
    unfold updateWrite in EW. revert EW. eapply atomic_then; [apply atomic_transaction|].
    by intros [row [did|]] s3. }
  cbn in Hk'. by simplify_eq.
Qed.

(** Whoever changes the password of an account, all its sessions and no
    other are closed; and it is either its owner, who gave the current password
    and, with Redis, has every access token issued so far refused, or an
    administrator of the same company updating it. *)
Theorem password_change q s id u u' :
  let s' := (runUsers env q s).1 in
  usersOf s !! id = Some u → usersOf s' !! id = Some u' → passwordHash u' ≠ passwordHash u →
  sessionsClosed id s s' ∧
  ((∃ dto, q = UPassword id dto ∧ bcryptCompare (cp_current dto) (passwordHash u) = true ∧
      (0 ≤ now env → redisLink env = RedisUp → accessRevoked id s')) ∨
   ∃ dto cur, q = UUpdate (companyId u) id dto cur).
Proof.
  cbv zeta. intros Hu Hu' Hne. destruct q; cbn [runUsers] in *; rewrite ?run_void in *.
  - rewrite (create_keeps_users env cid dto s id u Hu) in Hu'. by simplify_eq.
  - destruct (update_password _ _ _ _ _ _ _ _ Hu Hu' Hne) as (-> & -> & HS). split; [done|right; by eexists _, _].
  - destruct Hne. exact (wrote_same_password _ _ _ _ _ _ _ (updateProfile_wrote _ _ _ _) (λ _, eq_refl) Hu Hu').
  - destruct Hne. exact (wrote_same_password _ _ _ _ _ _ _ (updateEmail_wrote _ _ _) (λ _, eq_refl) Hu Hu').
  - destruct (wrote_password _ _ _ _ _ _ _ (changePassword_wrote env id0 dto s) Hu Hu' Hne) as [-> _].
    destruct (changePassword env id0 dto s) as [s1 [[]|e]] eqn:E; cbn in Hu'.
    + apply changePassword_Ok in E as ((v & Hv & _ & HB) & HS & HR). rewrite Hu in Hv. simplify_eq.
      split; [done|left; by exists dto].
    + apply (runUsers_atomic env (UPassword id0 dto)) in E as ->. by simplify_eq.
  - destruct Hne. exact (same_password _ _ _ _ _ (updateAvatar_users _ _) Hu Hu').
  - destruct Hne. rewrite <- run_void in Hu'. exact (same_password _ _ _ _ _ (readPreferences_users _) Hu Hu').
  - destruct Hne. exact (same_password _ _ _ _ _ (updatePreferences_users _ _) Hu Hu').
  - destruct Hne. exact (wrote_same_password _ _ _ _ _ _ _ (anonymize_wrote _ _) (λ _, eq_refl) Hu Hu').
  - destruct Hne. unfold remove in Hu'. rewrite bind_run in Hu'.
    pose proof (removeChecks_reads cid id0 currentUserId s) as HR.
    destruct (removeChecks cid id0 currentUserId s) as [s1 [a|e]]; cbn in HR; subst s1; [|cbn in Hu'; by simplify_eq].
    eapply wrote_same_password; [apply updateUser_wrote| |exact Hu|exact Hu']. done.
Qed.
End Passwords.

(** ** A company of one administrator and one driver *)

Definition exampleUsers : UsersStore :=
  mkUsers
    ((exampleAuthStore false) <| users := {[ "u1" := exampleUser false;
       "u2" := newUser "b@x.mg" "h:b" "Bo" "R" None admin "c1";
       "u3" := newUser "d@x.mg" "h:d" "Da" "R" None driver "c1" ]} |>
       <| userSessions := {[ "s1" := mkUserSession "u1" None None 0 0 900000 None None;
                             "s3" := mkUserSession "u3" None None 0 0 900000 None None ]} |>)
    (mkFleet {["v1" := truck]} {["d3" := Fleet.mkDriver "c1" "Da" "R" (Some "d@x.mg") None "L3" None None]} ∅ ∅ [])
    {["d3" := "u3"]} ∅ ∅ ∅.

Definition noChange : UpdateUserDto := mkUpdateUser None None None None None None None None None.
Definition demotion : UpdateUserDto := noChange <| uu_role := Some dispatcher |>.
Definition runExample (n : string) (t : Z) (q : UsersReq) : M UsersStore unit :=
  @runUsers exampleLib (exampleAuthEnv n t) q.

Lemma exampleUsers_admin : hasAdmin "c1" exampleUsers.
Proof. exists "u1", (exampleUser false). by split. Qed.

(** One administrator demotes the other, and cannot go himself. *)
Lemma company_keeps_admin_witness :
  (runExample "a" 1000 (UUpdate "c1" "u2" demotion "u1") exampleUsers).2 = Ok tt ∧
  let s := (runExample "a" 1000 (UUpdate "c1" "u2" demotion "u1") exampleUsers).1 in
  is_ok (runExample "b" 2000 (UUpdate "c1" "u1" demotion "u1") s).2 = false ∧
  hasAdmin "c1" (runExample "b" 2000 (UUpdate "c1" "u1" demotion "u1") s).1.
Proof.
  cbv zeta. split_and!; [by vm_compute..|].
  apply (@company_keeps_admin exampleLib
    [(exampleAuthEnv "a" 1000, UUpdate "c1" "u2" demotion "u1"); (exampleAuthEnv "b" 2000, UUpdate "c1" "u1" demotion "u1")]
    "c1" exampleUsers); [done|apply exampleUsers_admin].
Defined.

Definition noAdmin (cid : string) (s : UsersStore) : bool :=
  forallb (λ kv, negb (bool_decide (companyId kv.2 = cid) && bool_decide (role kv.2 = admin) && isActive kv.2
                       && bool_decide (deletedAt kv.2 = None))) (map_to_list (usersOf s)).

Lemma noAdmin_spec cid s : noAdmin cid s = true → ¬ hasAdmin cid s.
Proof.
  unfold noAdmin. rewrite forallb_forall. intros HA (k & u & Hk & Hc & Hr & Hac & Hd).
  specialize (HA (k, u)). cbn in HA. rewrite Hac, !bool_decide_eq_true_2 in HA by done.
  discriminate HA. by apply list_elem_of_In, elem_of_map_to_list.
Qed.

(** [anonymizeUser] has none of the two guards: the last administrator can
    erase his account and leave the company without any. *)
Theorem anonymize_leaves_no_admin :
  let s := (runExample "a" 1000 (UUpdate "c1" "u2" demotion "u1") exampleUsers).1 in
  hasAdmin "c1" s ∧
  (runExample "b" 2000 (UAnonymize "u1" "c1") s).2 = Ok tt ∧
  ¬ hasAdmin "c1" (runExample "b" 2000 (UAnonymize "u1" "c1") s).1.
Proof.
  cbv zeta. split_and!; [|by vm_compute|apply noAdmin_spec; by vm_compute].
  apply run_keeps_admin; [done|apply exampleUsers_admin].
Qed.

(** Nor does the count protect against two requests at once: both
    administrators are counted before either is demoted. *)
Theorem crossed_demotions_leave_no_admin :
  let env := exampleAuthEnv "a" 1000 in
  ∃ u1 u2, (updateChecks "c1" "u2" demotion "u1" exampleUsers).2 = Ok u2 ∧
    (updateChecks "c1" "u1" demotion "u2" exampleUsers).2 = Ok u1 ∧
    let s1 := (@updateWrite exampleLib env "c1" "u2" demotion u2 exampleUsers).1 in
    let s2 := (@updateWrite exampleLib env "c1" "u1" demotion u1 s1).1 in
    hasAdmin "c1" exampleUsers ∧ ¬ hasAdmin "c1" s2.
Proof.
  eexists _, _. split_and!; [by vm_compute..|]. cbv zeta. split; [apply exampleUsers_admin|].
  apply noAdmin_spec. by vm_compute.
Qed.

(** ** More that the requests do and do not *)

Definition hireUser : UsersReq :=
  UUpdate "c1" "u3" (noChange <| uu_vehicleId := Some (Some "v1") |>) "u1".

Lemma exampleUsers_linked : linked (fleet exampleUsers).
Proof.
  split; [intros h h' a a' H; by vm_compute in H|]. intros v d (r & Hr & Hv). cbn in Hr.
  apply lookup_singleton_Some in Hr as [_ <-]. done.
Qed.

Lemma exampleUsers_consistent : consistent (fleet exampleUsers).
Proof.
  split; [apply exampleUsers_linked|]. intros v d. split; [apply exampleUsers_linked|].
  intros (h & a & H & _). by vm_compute in H.
Qed.

Lemma exampleUsers_fresh n t : freshIds (exampleAuthEnv n t) exampleUsers.
Proof. by split. Qed.

(** The administrator gives the driver a vehicle, then VehiclesService is asked
    to remove a vehicle that does not exist. *)
Lemma assignments_follow_requests_witness :
  let s := (runExample "a" 1000 hireUser exampleUsers).1 in
  (runExample "a" 1000 hireUser exampleUsers).2 = Ok tt ∧ drives (fleet s) "v1" "d3" ∧
  linked (fleet s) ∧ consistent (fleet s) ∧
  (runFleet false (λ _ _, Throw PrismaP2025) (Some "c1") (RRemoveVehicle "c1" "v9" 2000) (fleet s)).1 = fleet s.
Proof.
  cbv zeta. set (s := (runExample "a" 1000 hireUser exampleUsers).1).
  destruct (@assignments_follow_requests exampleLib false (λ _ _, Throw PrismaP2025) (Some "c1") exampleUsers s)
    as (HL & _ & _ & HF); [apply exampleUsers_linked| |].
  - apply rtc_once. apply (@OfUsers exampleLib). apply exampleUsers_fresh.
  - destruct (@assignments_follow_requests exampleLib false (λ _ _, Throw PrismaP2025) (Some "c1") exampleUsers exampleUsers)
      as (_ & _ & HU & _); [apply exampleUsers_linked|apply rtc_refl|].
    destruct (HU (exampleAuthEnv "a" 1000) hireUser s (runExample "a" 1000 hireUser exampleUsers).2
                (exampleUsers_fresh "a" 1000)) as [_ HC]; [apply surjective_pairing|].
    split_and!; [by vm_compute|by eexists|exact HL|by apply HC, exampleUsers_consistent|].
    destruct (runFleet false (λ _ _, Throw PrismaP2025) (Some "c1") (RRemoveVehicle "c1" "v9" 2000) (fleet s))
      as [f r] eqn:E.
    destruct (HF (RRemoveVehicle "c1" "v9" 2000) f r I E) as [HR _]. apply HR.
    change (is_ok (f, r).2 = false). rewrite <- E. by vm_compute.
Defined.

Lemma password_change_witness :
  let q := UPassword "u1" (mkChangePassword "right" "Better1!" "Better1!") in
  let s' := (runExample "a" 1000 q exampleUsers).1 in
  sessionsOf exampleUsers !! "s1" ≠ None ∧ sessionsOf s' !! "s1" = None ∧ sessionsOf s' !! "s3" ≠ None ∧
  @accessRevoked (exampleAuthEnv "a" 1000) "u1" s'.
Proof.
  cbv zeta. set (q := UPassword "u1" _).
  destruct (@password_change exampleLib (exampleAuthEnv "a" 1000) q exampleUsers "u1" (exampleUser false)
    (@withPassword exampleLib (exampleAuthEnv "a" 1000) (mkChangePassword "right" "Better1!" "Better1!") (exampleUser false)))
    as (HS & [(dto & Hd & _ & HR)|(dto & cur & Hd)]); [by vm_compute..| |done].
  split_and!; [by vm_compute..|]. by apply HR.
Defined.

(** A reset by an administrator closes the sessions but, unlike the owner's
    change, refuses no access token. *)
Theorem admin_reset_keeps_access_tokens `{AuthLib} env cid id dto cur s t p :
  tokenRevoked t p (redisDb (accounts (runUsers env (UUpdate cid id dto cur) s).1)) =
  tokenRevoked t p (redisDb (accounts s)).
Proof.
  assert (HF : footprint (λ s s', redisDb (accounts s') = redisDb (accounts s)) (update env cid id dto cur)).
  { assert (HP : PreOrder (λ s s' : UsersStore, redisDb (accounts s') = redisDb (accounts s)))
      by (split; [done|intros x y z; congruence]).
    assert (Hfl : ∀ A (m : M FleetStore A), footprint (λ s s', redisDb (accounts s') = redisDb (accounts s)) (onFleet m))
      by (intros; by apply zoom_footprint).
    assert (Hl : ∀ d u, footprint (λ s s', redisDb (accounts s') = redisDb (accounts s)) (linkDriver d u))
      by (intros d u s0; unfold linkDriver; by case_match).
    assert (Hu : ∀ f, footprint (λ s s', redisDb (accounts s') = redisDb (accounts s)) (onAccounts (updateUser id f))).
    { intros f. apply zoom_footprint. intros s0. unfold updateUser. destruct (_ !! id); [|done]. by case_match. }
    assert (Hc : footprint (λ s s', redisDb (accounts s') = redisDb (accounts s)) (closeSessions id))
      by (by apply zoom_footprint).
    unfold update, updateWrite, updateDriverRecord, assignVehicle. footprint_auto; auto.
    intros s0. by rewrite <- (updateChecks_reads cid id dto cur s0). }
  cbn [runUsers]. by rewrite run_void, HF.
Qed.

(** [update] looks an address up as it was typed, then stores it in lower case:
    an address that is taken is not refused with a conflict but fails on the
    unique index. *)
Theorem typed_address_not_recognised :
  (runExample "a" 1000 (UUpdate "c1" "u3" (noChange <| uu_email := Some "b@x.mg" |>) "u1") exampleUsers).2
    = Throw (ConflictException "Email already in use") ∧
  (runExample "a" 1000 (UUpdate "c1" "u3" (noChange <| uu_email := Some "B@x.mg" |>) "u1") exampleUsers).2
    = Throw PrismaP2002.
Proof. split; by vm_compute. Qed.

(** A driver who changes his own name keeps the old one in the driver record,
    which an administrator's change would have copied. *)
Theorem own_name_not_copied :
  let name s := Fleet.dr_firstName <$> Fleet.drivers (fleet s) !! "d3" in
  name (runExample "a" 1000 (UProfile "u3" (Some "Dora") None None) exampleUsers).1 = Some "Da" ∧
  name (runExample "a" 1000 (UUpdate "c1" "u3" (noChange <| uu_firstName := Some "Dora" |>) "u1") exampleUsers).1
    = Some "Dora".
Proof. split; by vm_compute. Qed.

(** An anonymised driver keeps his name and address there. *)
Theorem anonymous_driver_still_named :
  let s := (runExample "a" 1000 (UAnonymize "u3" "c1") exampleUsers).1 in
  firstName <$> usersOf s !! "u3" = Some "[Deleted]" ∧
  (λ d, (Fleet.dr_firstName d, Fleet.dr_email d)) <$> Fleet.drivers (fleet s) !! "d3" = Some ("Da", Some "d@x.mg").
Proof. split; by vm_compute. Qed.
