(* ===== verification/FuelPrices.v ===== *)
(** * Fuel: prices per litre and their history

    The price operations of modules/fuel-consumption/fuel-consumption.service.ts
    on fuel_price_history and company_fuel_settings, and the fuel types they are
    filed under.  Requests have passed class-validator, and their dates parse. *)

From Stdlib Require Import SpecFloat.
From S2P Require Import Prelude JsString JsNum JsDate.

#[local] Open Scope string_scope.
#[local] Open Scope list_scope.
#[local] Open Scope Z_scope.

Record FuelPrice := mkPrice {
  fp_companyId : string;
  fp_fuelType : string;
  pricePerLiter : num;
  effectiveFrom : Z;
  effectiveUntil : option Z
}.

(** A row of company_fuel_settings, kept under its company. *)
Record FuelSettings := mkFuelSettings {
  anomalyThreshold : option num;
  crossCheckThreshold : option num;
  defaultFuelPrices : option (gmap string num)
}.

Record PriceStore := mkPrices {
  prices : gmap string FuelPrice;
  settings : gmap string FuelSettings
}.

Definition DEFAULT_FUEL_PRICES : gmap string num :=
  list_to_map [("essence", num_of_Z 5000); ("gasoil", num_of_Z 4900); ("diesel", num_of_Z 4900);
               ("electric", num_of_Z 0); ("hybrid", num_of_Z 3000)].

(** ** Fuel types *)

(** [.toLowerCase().normalize('NFD').replace(/[\u0300-\u036f]/g, '')] on UTF-8
    text whose letters are ASCII or Latin-1 (C3 80 to C3 BF), with combining
    marks (CC 80 to CD AF) dropped; other characters pass unchanged. *)
Definition latinBase (c : ascii) : string :=
  let n := nat_of_ascii c in
  if decide (n ∈ [128; 129; 130; 131; 132; 133; 160; 161; 162; 163; 164; 165]%nat) then "a"
  else if decide (n ∈ [135; 167]%nat) then "c"
  else if decide (n ∈ [136; 137; 138; 139; 168; 169; 170; 171]%nat) then "e"
  else if decide (n ∈ [140; 141; 142; 143; 172; 173; 174; 175]%nat) then "i"
  else if decide (n ∈ [145; 177]%nat) then "n"
  else if decide (n ∈ [146; 147; 148; 149; 150; 178; 179; 180; 181; 182]%nat) then "o"
  else if decide (n ∈ [153; 154; 155; 156; 185; 186; 187; 188]%nat) then "u"
  else if decide (n ∈ [157; 189; 191]%nat) then "y"
  else String "195"%char (String c "").

Definition isCombining (a b : ascii) : bool :=
  let n := nat_of_ascii a in let m := nat_of_ascii b in
  ((n =? 204) && (128 <=? m) && (m <=? 191))%nat || ((n =? 205) && (128 <=? m) && (m <=? 175))%nat.

Fixpoint stripAccents (s : string) : string :=
  match s with
  | String a (String b s' as rest) =>
      if isCombining a b then stripAccents s'
      else if bool_decide (a = "195"%char) then latinBase b +:+ stripAccents s'
      else String a (stripAccents rest)
  | s => s
  end.

Definition foldText (s : string) : string := stripAccents (toLowerCase s).

Definition normalizeFuelType (raw : option string) : string :=
  let s := foldText (default "essence" raw) in
  if includes "elect" s then "electric"
  else if includes "gasoil" s || includes "gazoil" s then "gasoil"
  else if includes "diesel" s then "diesel"
  else if includes "essence" s then "essence"
  else if includes "hybr" s then "hybrid"
  else "essence".

Definition normalizeFuelTypeStrict (raw : string) : M PriceStore string :=
  let s := foldText raw in
  ensure (existsb (λ k, includes k s) ["elect"; "gasoil"; "gazoil"; "diesel"; "essence"; "hybr"])
    (BadRequestException ("Unrecognized fuel type " +:+ quoted raw
       +:+ " — expected essence/diesel/gasoil/electric/hybrid (or a French display variant).")) ;;
  mret (normalizeFuelType (Some raw)).

(** ** Reading a price *)

(** [d <= until], null being no end. *)
Definition notAfter (d : Z) (until : option Z) : bool :=
  match until with Some u => d <=? u | None => true end.

(** The where clause of [getFuelPriceForDate]. *)
Definition applies (cid fuelType : string) (date : Z) (p : FuelPrice) : bool :=
  bool_decide (fp_companyId p = cid) && bool_decide (fp_fuelType p = fuelType)
  && (effectiveFrom p <=? date) && notAfter date (effectiveUntil p).

Definition defaultsOf (cid : string) (s : PriceStore) : gmap string num :=
  default DEFAULT_FUEL_PRICES (settings s !! cid ≫= defaultFuelPrices).

(** The first row by [effectiveFrom desc]. *)
Definition latestPrice (P : FuelPrice → bool) (t : gmap string FuelPrice) : option (string * FuelPrice) :=
  head (rev (sort_by (λ kv, effectiveFrom kv.2) (find_many (λ _ p, P p) t))).

Definition isZero (x : num) : bool := match x with S754_zero _ => true | _ => false end.

Definition defaultPrice (cid canonical : string) (s : PriceStore) : option num :=
  let resolved := default (num_of_Z 0) (defaultsOf cid s !! canonical) in
  if bool_decide (canonical = "electric") && isZero resolved then None else Some resolved.

Definition getFuelPriceForDate (cid : string) (fuelType : option string) (date : Z) (s : PriceStore) : option num :=
  let canonical := normalizeFuelType fuelType in
  match latestPrice (applies cid canonical date) (prices s) with
  | Some (_, price) => Some (pricePerLiter price)
  | None => defaultPrice cid canonical s
  end.

(** ** Writing prices *)

Definition updateDefaultFuelPrices (cid : string) (sanitized : gmap string num) : M PriceStore (gmap string num) :=
  existing ← gets (λ s, settings s !! cid);
  let merged := sanitized ∪ default ∅ (existing ≫= defaultFuelPrices) in
  modify (λ s, s <| settings := <[cid :=
    match existing with
    | Some x => x <| defaultFuelPrices := Some merged |>
    | None => mkFuelSettings (Some (num_of_Z 15)) (Some (num_lit 13 10)) (Some merged)
    end]> (settings s) |>) ;;
  mret merged.

(** The where clause of the overlap check for a range [from, until]. *)
Definition overlaps (cid fuelType : string) (from : Z) (until : option Z) (p : FuelPrice) : bool :=
  bool_decide (fp_companyId p = cid) && bool_decide (fp_fuelType p = fuelType)
  && notAfter (effectiveFrom p) until && notAfter from (effectiveUntil p).

Definition zeroPriceError (fuelType : string) : exn :=
  BadRequestException ("A price of 0 is only valid for fuelType " +:+ quoted "electric" +:+ " — "
    +:+ quoted fuelType +:+ " requires a positive pricePerLiter.").

Definition overlapError (fuelType : string) (p : FuelPrice) : exn :=
  BadRequestException ("Fuel price for " +:+ quoted fuelType +:+ " overlaps the existing range ["
    +:+ toISOString (effectiveFrom p) +:+ " → "
    +:+ match effectiveUntil p with Some u => toISOString u | None => "∞" end
    +:+ "]. Close or remove it before creating an overlapping price.").

Record CreateFuelPriceDto := mkCreatePrice {
  cp_fuelType : string; cp_pricePerLiter : num; cp_effectiveFrom : Z; cp_effectiveUntil : option Z
}.

(** The open price of this company and fuel that began before [from] ends then. *)
Definition closesOpen (cid fuelType : string) (from : Z) (p : FuelPrice) : bool :=
  bool_decide (fp_companyId p = cid) && bool_decide (fp_fuelType p = fuelType)
  && bool_decide (effectiveUntil p = None) && (effectiveFrom p <? from).

Definition createFuelPrice (newId cid : string) (dto : CreateFuelPriceDto) : M PriceStore FuelPrice :=
  fuelType ← normalizeFuelTypeStrict (cp_fuelType dto);
  ensure (negb (negb (bool_decide (fuelType = "electric")) && isZero (cp_pricePerLiter dto)))
    (zeroPriceError fuelType) ;;
  let from := cp_effectiveFrom dto in
  let until := cp_effectiveUntil dto in
  modify (λ s, s <| prices := update_many (λ _ p, closesOpen cid fuelType from p)
    (λ p, p <| effectiveUntil := Some (from - 1) |>) (prices s) |>) ;;
  overlapping ← gets (λ s, find_first (λ _ p, overlaps cid fuelType from until p) (prices s));
  match overlapping with
  | Some (_, p) => throw (overlapError fuelType p)
  | None =>
      let p := mkPrice cid fuelType (cp_pricePerLiter dto) from until in
      modify (λ s, s <| prices := <[newId := p]> (prices s) |>) ;;
      mret p
  end.

(** [effectiveUntil] is [None] when absent and [Some None] for null. *)
Record UpdateFuelPriceDto := mkUpdatePrice {
  up_fuelType : option string; up_pricePerLiter : option num;
  up_effectiveFrom : option Z; up_effectiveUntil : option (option Z)
}.

Definition findPrice (cid id : string) (s : PriceStore) : option FuelPrice :=
  match prices s !! id with
  | Some p => if bool_decide (fp_companyId p = cid) then Some p else None
  | None => None
  end.

Definition updateFuelPrice (cid id : string) (dto : UpdateFuelPriceDto) : M PriceStore FuelPrice :=
  found ← gets (findPrice cid id);
  match found with
  | None => throw (NotFoundException "Fuel price not found")
  | Some existing =>
      fuelType ← match up_fuelType dto with
                 | Some raw => normalizeFuelTypeStrict raw
                 | None => mret (fp_fuelType existing)
                 end;
      let from := default (effectiveFrom existing) (up_effectiveFrom dto) in
      let until := default (effectiveUntil existing) (up_effectiveUntil dto) in
      let price := default (pricePerLiter existing) (up_pricePerLiter dto) in
      ensure (negb (negb (bool_decide (fuelType = "electric")) && isZero price)) (zeroPriceError fuelType) ;;
      overlapping ← gets (λ s, find_first (λ k p, negb (bool_decide (k = id))
                                             && overlaps cid fuelType from until p) (prices s));
      match overlapping with
      | Some (_, p) => throw (overlapError fuelType p)
      | None =>
          let p := mkPrice (fp_companyId existing) fuelType price from until in
          modify (λ s, s <| prices := <[id := p]> (prices s) |>) ;;
          mret p
      end
  end.

Definition deleteFuelPrice (cid id : string) : M PriceStore unit :=
  found ← gets (findPrice cid id);
  match found with
  | None => throw (NotFoundException "Fuel price not found")
  | Some _ => modify (λ s, s <| prices := delete id (prices s) |>)
  end.
