(* ===== verification/FuelPricesProps.v ===== *)
(** * Fuel prices: correctness *)

From Stdlib Require Import SpecFloat.
From S2P Require Import Prelude JsString JsNum JsDate FuelPrices.

#[local] Open Scope string_scope.
#[local] Open Scope list_scope.
#[local] Open Scope Z_scope.

(** ** The history as a set of ranges *)

(** Two prices of one company and fuel whose ranges share an instant, or would
    if each began before it ended. *)
Definition priceOverlap (a b : FuelPrice) : Prop :=
  fp_companyId a = fp_companyId b ∧ fp_fuelType a = fp_fuelType b ∧
  notAfter (effectiveFrom a) (effectiveUntil b) = true ∧ notAfter (effectiveFrom b) (effectiveUntil a) = true.

Definition noOverlap (t : gmap string FuelPrice) : Prop := ∀ k k' a b,
  t !! k = Some a → t !! k' = Some b → priceOverlap a b → k = k'.

(** Only electricity may be free. *)
Definition priced (t : gmap string FuelPrice) : Prop := ∀ k p,
  t !! k = Some p → isZero (pricePerLiter p) = true → fp_fuelType p = "electric".

Definition historyOk (s : PriceStore) : Prop := noOverlap (prices s) ∧ priced (prices s).

Lemma notAfter_mono d u u' : (∀ x, u = Some x → ∃ x', u' = Some x' ∧ x' ≤ x) →
  notAfter d u' = true → notAfter d u = true.
Proof.
  intros H. destruct u as [x|]; [|done]. destruct (H x eq_refl) as (x' & -> & ?). cbn. lia.
Qed.

Lemma overlaps_true cid ft from until q p :
  fp_companyId q = cid → fp_fuelType q = ft → effectiveFrom q = from → effectiveUntil q = until →
  overlaps cid ft from until p = true ↔ priceOverlap q p.
Proof.
  intros <- <- <- <-. unfold overlaps, priceOverlap.
  rewrite !andb_true_iff, !bool_decide_eq_true. intuition congruence.
Qed.

Lemma priceOverlap_sym a b : priceOverlap a b → priceOverlap b a.
Proof. intros (? & ? & ? & ?). by split_and!. Qed.

Lemma noOverlap_insert k p t :
  noOverlap t → (∀ k' q, k' ≠ k → t !! k' = Some q → ¬ priceOverlap p q) → noOverlap (<[k := p]> t).
Proof.
  intros H HN k1 k2 a b Ha Hb Ho.
  destruct (decide (k1 = k)) as [->|N1], (decide (k2 = k)) as [->|N2]; [done| | |].
  - rewrite lookup_insert_eq in Ha. rewrite lookup_insert_ne in Hb by done. simplify_eq.
    by destruct (HN k2 b).
  - rewrite lookup_insert_eq in Hb. rewrite lookup_insert_ne in Ha by done. simplify_eq.
    destruct (HN k1 a); [done..|]. by apply priceOverlap_sym.
  - rewrite lookup_insert_ne in Ha, Hb by done. by apply (H k1 k2 a b).
Qed.

Lemma priced_insert k p t :
  priced t → (isZero (pricePerLiter p) = true → fp_fuelType p = "electric") → priced (<[k := p]> t).
Proof.
  intros H Hp k' q. destruct (decide (k' = k)) as [->|N].
  - rewrite lookup_insert_eq. intros [= <-]. done.
  - rewrite lookup_insert_ne by done. apply H.
Qed.

Lemma zero_guard ft x :
  negb (negb (bool_decide (ft = "electric")) && isZero x) = true → isZero x = true → ft = "electric".
Proof.
  intros HG HZ. rewrite HZ, andb_true_r, negb_involutive, bool_decide_eq_true in HG. done.
Qed.

(** ** Closing the open price *)

Definition closeBefore (cid ft : string) (from : Z) (t : gmap string FuelPrice) : gmap string FuelPrice :=
  update_many (λ _ p, closesOpen cid ft from p) (λ p, p <| effectiveUntil := Some (from - 1) |>) t.

Section Close.
Context (cid ft : string) (from : Z) (t : gmap string FuelPrice).

(** A row after the closing is a row before it, that ends sooner if at all. *)
Lemma closeBefore_row k p' :
  closeBefore cid ft from t !! k = Some p' → ∃ p, t !! k = Some p ∧
    ((closesOpen cid ft from p = true ∧ p' = p <| effectiveUntil := Some (from - 1) |>) ∨
     (closesOpen cid ft from p = false ∧ p' = p)).
Proof.
  unfold closeBefore. rewrite lookup_update_many. destruct (t !! k) as [p|]; [|done]. simpl.
  intros H. exists p. split; [done|]. destruct (closesOpen cid ft from p); simplify_eq; auto.
Qed.

Lemma closesOpen_true p :
  closesOpen cid ft from p = true ↔
  fp_companyId p = cid ∧ fp_fuelType p = ft ∧ effectiveUntil p = None ∧ effectiveFrom p < from.
Proof. unfold closesOpen. rewrite !andb_true_iff, !bool_decide_eq_true, Z.ltb_lt. tauto. Qed.

Lemma closeBefore_noOverlap : noOverlap t → noOverlap (closeBefore cid ft from t).
Proof.
  intros H k k' a b Ha Hb (E1 & E2 & O1 & O2).
  destruct (closeBefore_row _ _ Ha) as (a0 & Ha0 & CA), (closeBefore_row _ _ Hb) as (b0 & Hb0 & CB).
  assert (S : ∀ p0 p, (closesOpen cid ft from p0 = true ∧ p = p0 <| effectiveUntil := Some (from - 1) |>) ∨
     (closesOpen cid ft from p0 = false ∧ p = p0) →
     fp_companyId p = fp_companyId p0 ∧ fp_fuelType p = fp_fuelType p0 ∧ effectiveFrom p = effectiveFrom p0 ∧
     ∀ d, notAfter d (effectiveUntil p) = true → notAfter d (effectiveUntil p0) = true).
  { intros p0 p [[HC%closesOpen_true ->]|[_ ->]]; [|by split_and!].
    destruct HC as (_ & _ & E & _). destruct p0. simpl in *. subst. by split_and!. }
  destruct (S _ _ CA) as (A1 & A2 & A3 & A4), (S _ _ CB) as (B1 & B2 & B3 & B4).
  apply (H k k' a0 b0 Ha0 Hb0). split_and!; [congruence|congruence| |].
  - apply B4. congruence.
  - apply A4. congruence.
Qed.

Lemma closeBefore_priced : priced t → priced (closeBefore cid ft from t).
Proof.
  intros H k p Hp. destruct (closeBefore_row _ _ Hp) as (p0 & Hp0 & [[_ ->]|[_ ->]]); [|by apply (H k)].
  specialize (H k p0 Hp0). by destruct p0.
Qed.

(** Where ranges are disjoint, a price that still overlaps the new one shows
    that none was closed. *)
Lemma closeBefore_unless_overlap k p until :
  noOverlap t → closeBefore cid ft from t !! k = Some p → overlaps cid ft from until p = true →
  closeBefore cid ft from t = t.
Proof.
  intros H Hp HO. unfold overlaps in HO. rewrite !andb_true_iff, !bool_decide_eq_true in HO.
  destruct HO as (((E1 & E2) & _) & O).
  destruct (closeBefore_row _ _ Hp) as (p0 & Hp0 & [[_ ->]|[HN ->]]).
  { destruct p0; simpl in *. lia. }
  apply map_eq. intros k'. unfold closeBefore. rewrite lookup_update_many.
  destruct (t !! k') as [a|] eqn:Ha; [|done]. simpl. destruct (closesOpen cid ft from a) eqn:HC; [|done].
  exfalso. pose proof HC as (C1 & C2 & C3 & C4)%closesOpen_true.
  assert (k' = k) as ->.
  { apply (H k' k a p0 Ha Hp0). split_and!; [congruence|congruence| |by rewrite C3].
    destruct (effectiveUntil p0); cbn in *; [lia|done]. }
  congruence.
Qed.
End Close.

(** ** Reading *)

Lemma latestPrice_Some P t k p : latestPrice P t = Some (k, p) → t !! k = Some p ∧ P p = true.
Proof.
  unfold latestPrice. intros H. apply (elem_of_find_many (λ _ p, P p) t).
  rewrite <- (sort_by_perm (λ kv : string * FuelPrice, effectiveFrom kv.2)).
  destruct (rev (sort_by _ _)) as [|x r] eqn:E; [done|]. simpl in H. simplify_eq.
  apply list_elem_of_In, in_rev. rewrite E. by left.
Qed.

Lemma latestPrice_None P t k p : latestPrice P t = None → t !! k = Some p → P p = false.
Proof.
  unfold latestPrice. intros H Hk. apply not_true_iff_false. intros HP.
  assert (Hin : (k, p) ∈ sort_by (λ kv : string * FuelPrice, effectiveFrom kv.2) (find_many (λ _ p, P p) t)).
  { rewrite sort_by_perm. by apply elem_of_find_many. }
  apply list_elem_of_In, in_rev in Hin. by destruct (rev (sort_by _ _)).
Qed.

Lemma applies_true cid ft d p :
  applies cid ft d p = true ↔ fp_companyId p = cid ∧ fp_fuelType p = ft ∧ effectiveFrom p ≤ d ∧
    notAfter d (effectiveUntil p) = true.
Proof. unfold applies. rewrite !andb_true_iff, !bool_decide_eq_true, Z.leb_le. tauto. Qed.

Lemma notAfter_trans d d' u : d ≤ d' → notAfter d' u = true → notAfter d u = true.
Proof. destruct u; cbn; [lia|done]. Qed.

(** Two prices that apply to one instant overlap. *)
Lemma applies_overlap cid ft d a b : applies cid ft d a = true → applies cid ft d b = true → priceOverlap a b.
Proof.
  intros (A1 & A2 & A3 & A4)%applies_true (B1 & B2 & B3 & B4)%applies_true.
  split_and!; [congruence|congruence|by apply (notAfter_trans _ d)|by apply (notAfter_trans _ d)].
Qed.

Lemma price_in_force s cid fuel d k p :
  noOverlap (prices s) → prices s !! k = Some p → applies cid (normalizeFuelType fuel) d p = true →
  getFuelPriceForDate cid fuel d s = Some (pricePerLiter p).
Proof.
  intros H Hk HA. unfold getFuelPriceForDate. cbv zeta.
  destruct (latestPrice _ _) as [[k' p']|] eqn:E.
  - apply latestPrice_Some in E as [Hk' HA'].
    assert (k' = k) as -> by (apply (H k' k p' p); [done..|by eapply applies_overlap]). congruence.
  - by rewrite (latestPrice_None _ _ _ _ E Hk) in HA.
Qed.

Lemma price_by_default s cid fuel d :
  (∀ k p, prices s !! k = Some p → applies cid (normalizeFuelType fuel) d p = false) →
  getFuelPriceForDate cid fuel d s = defaultPrice cid (normalizeFuelType fuel) s.
Proof.
  intros H. unfold getFuelPriceForDate. cbv zeta. destruct (latestPrice _ _) as [[k p]|] eqn:E; [|done].
  apply latestPrice_Some in E as [Hk HA]. by rewrite (H k p Hk) in HA.
Qed.

(** The price only depends on which prices apply. *)
Lemma price_same s s' cid fuel d :
  noOverlap (prices s) → noOverlap (prices s') → settings s' = settings s →
  (∀ p, (∃ k, prices s !! k = Some p ∧ applies cid (normalizeFuelType fuel) d p = true) →
        ∃ k p', prices s' !! k = Some p' ∧ applies cid (normalizeFuelType fuel) d p' = true ∧
                pricePerLiter p' = pricePerLiter p) →
  (∀ p', (∃ k, prices s' !! k = Some p' ∧ applies cid (normalizeFuelType fuel) d p' = true) →
        ∃ k p, prices s !! k = Some p ∧ applies cid (normalizeFuelType fuel) d p = true) →
  getFuelPriceForDate cid fuel d s' = getFuelPriceForDate cid fuel d s.
Proof.
  intros H H' ES HF HB.
  destruct (latestPrice (applies cid (normalizeFuelType fuel) d) (prices s)) as [[k p]|] eqn:E.
  - apply latestPrice_Some in E as [Hk HA].
    destruct (HF p) as (k' & p' & Hk' & HA' & EP); [by exists k|].
    rewrite (price_in_force s cid fuel d k p), (price_in_force s' cid fuel d k' p') by done. by rewrite EP.
  - rewrite (price_by_default s), (price_by_default s').
    + unfold defaultPrice, defaultsOf. by rewrite ES.
    + intros k' p' Hk'. apply not_true_iff_false. intros HA'.
      destruct (HB p') as (k & p & Hk & HA); [by exists k'|].
      by rewrite (latestPrice_None _ _ _ _ E Hk) in HA.
    + intros k p Hk. by apply (latestPrice_None _ _ _ _ E Hk).
Qed.

(** ** createFuelPrice *)

Lemma normalizeStrict_run raw s :
  (∃ e, normalizeFuelTypeStrict raw s = (s, Throw e)) ∨
  normalizeFuelTypeStrict raw s = (s, Ok (normalizeFuelType (Some raw))).
Proof.
  unfold normalizeFuelTypeStrict. cbv zeta. rewrite ensure_bind.
  destruct (existsb _ _); [by right|left; by eexists].
Qed.

(** The store after a price was created. *)
Definition createdPrice (newId : string) (p : FuelPrice) (s : PriceStore) : PriceStore :=
  mkPrices (<[newId := p]> (closeBefore (fp_companyId p) (fp_fuelType p) (effectiveFrom p) (prices s))) (settings s).

Lemma createFuelPrice_outcome newId cid dto s :
  noOverlap (prices s) →
  (∃ e, createFuelPrice newId cid dto s = (s, Throw e)) ∨
  let p := mkPrice cid (normalizeFuelType (Some (cp_fuelType dto))) (cp_pricePerLiter dto)
             (cp_effectiveFrom dto) (cp_effectiveUntil dto) in
  createFuelPrice newId cid dto s = (createdPrice newId p s, Ok p) ∧
  (isZero (pricePerLiter p) = true → fp_fuelType p = "electric") ∧
  ∀ k q, prices (createdPrice newId p s) !! k = Some q → k ≠ newId → ¬ priceOverlap p q.
Proof.
  intros H. unfold createFuelPrice. rewrite bind_run.
  destruct (normalizeStrict_run (cp_fuelType dto) s) as [(e & ->)| ->]; [left; by exists e|].
  cbv zeta. set (ft := normalizeFuelType _). rewrite ensure_bind.
  destruct (negb (negb _ && _)) eqn:EZ; [|left; by eexists].
  rewrite modify_bind, gets_bind. fold (closeBefore cid ft (cp_effectiveFrom dto) (prices s)).
  set (t := closeBefore _ _ _ _). replace (prices (s <| prices := t |>)) with t by (by destruct s).
  destruct (find_first _ t) as [[k p]|] eqn:EO.
  - left. apply find_first_Some in EO as [Hk HO].
    assert (Et : t = prices s) by (by eapply closeBefore_unless_overlap).
    exists (overlapError ft p). unfold throw. rewrite Et. by destruct s.
  - right. split_and!; [destruct s; reflexivity|by apply zero_guard|].
    intros k q Hk Hne HO. cbn [createdPrice prices] in Hk. rewrite lookup_insert_ne in Hk by done.
    pose proof (find_first_None _ _ _ _ EO Hk) as F. apply not_true_iff_false in F. apply F.
    by apply (overlaps_true _ _ _ _ (mkPrice cid ft (cp_pricePerLiter dto) (cp_effectiveFrom dto) (cp_effectiveUntil dto))).
Qed.

Lemma created_historyOk newId p s :
  historyOk s → prices s !! newId = None →
  (isZero (pricePerLiter p) = true → fp_fuelType p = "electric") →
  (∀ k q, prices (createdPrice newId p s) !! k = Some q → k ≠ newId → ¬ priceOverlap p q) →
  historyOk (createdPrice newId p s).
Proof.
  intros [H1 H2] Hf HZ HN. split; cbn [createdPrice prices] in *.
  - apply noOverlap_insert; [by apply closeBefore_noOverlap|]. intros k q Hne Hq. apply (HN k); [|done].
    by rewrite lookup_insert_ne.
  - by apply priced_insert; [apply closeBefore_priced|].
Qed.

(** Before it begins, and for other companies and fuels, a new price changes
    nothing. *)
Lemma created_keeps_past newId p s cid fuel d :
  historyOk s → historyOk (createdPrice newId p s) → prices s !! newId = None →
  d < effectiveFrom p ∨ cid ≠ fp_companyId p ∨ normalizeFuelType fuel ≠ fp_fuelType p →
  getFuelPriceForDate cid fuel d (createdPrice newId p s) = getFuelPriceForDate cid fuel d s.
Proof.
  intros [H _] [H' _] Hf Hd. set (ft := normalizeFuelType fuel) in *.
  assert (HA : ∀ q q' , (closesOpen (fp_companyId p) (fp_fuelType p) (effectiveFrom p) q = true ∧
                 q' = q <| effectiveUntil := Some (effectiveFrom p - 1) |>) ∨
                (closesOpen (fp_companyId p) (fp_fuelType p) (effectiveFrom p) q = false ∧ q' = q) →
              pricePerLiter q' = pricePerLiter q ∧ (applies cid ft d q' = true ↔ applies cid ft d q = true)).
  { intros q q' [[(E1 & E2 & E3 & E4)%closesOpen_true ->]|[_ ->]]; [|done]. rewrite !applies_true.
    destruct q; simpl in *. subst. split; [done|]. split; intros (? & ? & ? & ?); split_and!; try done.
    apply Z.leb_le. destruct Hd as [?|[?|?]]; [lia|congruence|congruence]. }
  assert (HP : applies cid ft d p = true → False).
  { intros (? & ? & ? & ?)%applies_true. destruct Hd as [?|[?|?]]; [lia|congruence|congruence]. }
  apply price_same; [done|done|done| |]; cbn [createdPrice prices].
  - intros q (k & Hk & Hq).
    assert (Hne : k ≠ newId) by congruence.
    destruct (closeBefore (fp_companyId p) (fp_fuelType p) (effectiveFrom p) (prices s) !! k) as [q'|] eqn:E.
    + destruct (closeBefore_row _ _ _ _ _ _ E) as (q0 & Hq0 & HC). simplify_eq.
      destruct (HA _ _ HC) as [EP EA]. exists k, q'. rewrite lookup_insert_ne by done.
      split_and!; [done|by apply EA|done].
    + unfold closeBefore in E. by rewrite lookup_update_many, Hk in E.
  - intros q' (k & Hk & Hq'). destruct (decide (k = newId)) as [->|Hne].
    { rewrite lookup_insert_eq in Hk. simplify_eq. }
    rewrite lookup_insert_ne in Hk by done.
    destruct (closeBefore_row _ _ _ _ _ _ Hk) as (q & Hq & HC). exists k, q.
    split; [done|]. by apply (HA _ _ HC).
Qed.

(** ** The other operations *)

Lemma findPrice_Some cid id s p : findPrice cid id s = Some p → prices s !! id = Some p ∧ fp_companyId p = cid.
Proof.
  unfold findPrice. intros H. destruct (prices s !! id) as [q|] eqn:E; [|done].
  case_bool_decide; [|done]. by simplify_eq.
Qed.

Lemma updateFuelPrice_outcome cid id dto s :
  historyOk s →
  (∃ e, updateFuelPrice cid id dto s = (s, Throw e)) ∨
  ∃ s' p, updateFuelPrice cid id dto s = (s', Ok p) ∧ historyOk s'.
Proof.
  intros [H1 H2]. unfold updateFuelPrice. rewrite gets_bind.
  destruct (findPrice cid id s) as [old|] eqn:EF; [|left; by eexists].
  apply findPrice_Some in EF as [Hid Hc]. rewrite bind_run.
  assert (HT : (∃ e, match up_fuelType dto with
                     | Some raw => normalizeFuelTypeStrict raw
                     | None => mret (fp_fuelType old) end s = (s, Throw e)) ∨
               ∃ ft, match up_fuelType dto with
                     | Some raw => normalizeFuelTypeStrict raw
                     | None => mret (fp_fuelType old) end s = (s, Ok ft)).
  { destruct (up_fuelType dto) as [raw|]; [|by right; eexists].
    destruct (normalizeStrict_run raw s) as [?|?]; [by left|right; by eexists]. }
  destruct HT as [(e & ->)|(ft & ->)]; [left; by exists e|]. cbv zeta. rewrite ensure_bind.
  destruct (negb (negb _ && _)) eqn:EZ; [|left; by eexists].
  rewrite gets_bind. destruct (find_first _ _) as [[k q]|] eqn:EO; [left; by eexists|].
  right. eexists _, _. split; [reflexivity|].
  set (p := mkPrice _ _ _ _ _). replace (prices _) with (prices s) by done.
  assert (HN : ∀ k q, k ≠ id → prices s !! k = Some q → ¬ priceOverlap p q).
  { intros k q Hk Hq HO. pose proof (find_first_None _ _ _ _ EO Hq) as F. apply not_true_iff_false in F.
    apply F. rewrite bool_decide_eq_false_2 by done. cbn [negb andb].
    by apply (overlaps_true _ _ _ _ p). }
  split; destruct s; cbn in *.
  - by apply noOverlap_insert.
  - apply priced_insert; [done|]. by apply zero_guard.
Qed.

Lemma deleteFuelPrice_outcome cid id s :
  historyOk s →
  (∃ e, deleteFuelPrice cid id s = (s, Throw e)) ∨
  ∃ s', deleteFuelPrice cid id s = (s', Ok tt) ∧ historyOk s'.
Proof.
  intros [H1 H2]. unfold deleteFuelPrice. rewrite gets_bind.
  destruct (findPrice cid id s) as [p|]; [right|left; by eexists].
  eexists. split; [reflexivity|]. destruct s as [t x]. unfold historyOk. cbn in *. split.
  - intros k k' a b [_ Ha]%lookup_delete_Some [_ Hb]%lookup_delete_Some. by apply (H1 k k').
  - intros k q [_ Hq]%lookup_delete_Some. by apply (H2 k).
Qed.

Inductive PriceReq :=
  | PCreate (newId cid : string) (dto : CreateFuelPriceDto)
  | PUpdate (cid id : string) (dto : UpdateFuelPriceDto)
  | PDelete (cid id : string)
  | PDefaults (cid : string) (sanitized : gmap string num).

Definition runPrice (q : PriceReq) : M PriceStore unit :=
  match q with
  | PCreate newId cid dto => createFuelPrice newId cid dto ;; mret tt
  | PUpdate cid id dto => updateFuelPrice cid id dto ;; mret tt
  | PDelete cid id => deleteFuelPrice cid id
  | PDefaults cid m => updateDefaultFuelPrices cid m ;; mret tt
  end.

Definition freshPrice (q : PriceReq) (s : PriceStore) : Prop :=
  match q with PCreate newId _ _ => prices s !! newId = None | _ => True end.

Lemma runPrice_outcome q s :
  historyOk s → freshPrice q s →
  (∃ e, runPrice q s = (s, Throw e)) ∨ ∃ s', runPrice q s = (s', Ok tt) ∧ historyOk s'.
Proof.
  intros H HF. destruct q as [newId cid dto|cid id dto|cid id|cid m]; cbn [runPrice].
  - rewrite bind_run. destruct (createFuelPrice_outcome newId cid dto s (proj1 H)) as [(e & ->)|(-> & HZ & HN)].
    + left. by exists e.
    + right. eexists. split; [reflexivity|]. by apply created_historyOk.
  - rewrite bind_run. destruct (updateFuelPrice_outcome cid id dto s H) as [(e & ->)|(s' & p & -> & H')].
    + left. by exists e.
    + right. by exists s'.
  - by apply deleteFuelPrice_outcome.
  - right. eexists. split; [reflexivity|]. by destruct s.
Qed.

Definition priceStep (s s' : PriceStore) : Prop :=
  ∃ q, freshPrice q s ∧ s' = (runPrice q s).1.

Lemma priceSteps_ok s s' : historyOk s → rtc priceStep s s' → historyOk s'.
Proof.
  intros H HS. induction HS as [|s0 s1 s2 (q & HF & ->) _ IH]; [done|]. apply IH.
  by destruct (runPrice_outcome q s0 H HF) as [(e & ->)|(s' & -> & ?)].
Qed.

(** C40: along any sequence of price requests, the ranges of one company and
    fuel stay disjoint and no fuel but electricity is free.  So at any instant at
    most one price applies, and it is the one read; without it the default is.
    A refused request changes nothing, although the open price is ended before
    the new one is checked.  A price once created is the price of its whole
    range, and changes none before it begins, of another company or of another
    fuel. *)
Theorem price_history_sound s0 s :
  historyOk s0 → rtc priceStep s0 s →
  historyOk s ∧
  (∀ cid fuel d,
     (∃ k p, prices s !! k = Some p ∧ applies cid (normalizeFuelType fuel) d p = true ∧
        getFuelPriceForDate cid fuel d s = Some (pricePerLiter p)) ∨
     ((∀ k p, prices s !! k = Some p → applies cid (normalizeFuelType fuel) d p = false) ∧
        getFuelPriceForDate cid fuel d s = defaultPrice cid (normalizeFuelType fuel) s)) ∧
  (∀ q s' e, freshPrice q s → runPrice q s = (s', Throw e) → s' = s) ∧
  ∀ newId cid dto s' p, prices s !! newId = None → createFuelPrice newId cid dto s = (s', Ok p) →
    (∀ fuel d, normalizeFuelType fuel = normalizeFuelType (Some (cp_fuelType dto)) →
       cp_effectiveFrom dto ≤ d → notAfter d (cp_effectiveUntil dto) = true →
       getFuelPriceForDate cid fuel d s' = Some (cp_pricePerLiter dto)) ∧
    ∀ cid' fuel d,
      d < cp_effectiveFrom dto ∨ cid' ≠ cid ∨
        normalizeFuelType fuel ≠ normalizeFuelType (Some (cp_fuelType dto)) →
      getFuelPriceForDate cid' fuel d s' = getFuelPriceForDate cid' fuel d s.
Proof.
  intros H0 HS. pose proof (priceSteps_ok _ _ H0 HS) as H. split_and!; [done| | |].
  - intros cid fuel d.
    destruct (latestPrice (applies cid (normalizeFuelType fuel) d) (prices s)) as [[k p]|] eqn:E.
    + left. apply latestPrice_Some in E as [Hk HA]. exists k, p. split_and!; [done|done|].
      by apply (price_in_force _ _ _ _ k); [apply H| |].
    + right. assert (HN : ∀ k p, prices s !! k = Some p → applies cid (normalizeFuelType fuel) d p = false)
        by (intros k p Hk; by apply (latestPrice_None _ _ _ _ E Hk)).
      split; [done|by apply price_by_default].
  - intros q s' e HF HR. destruct (runPrice_outcome q s H HF) as [(e' & HE)|(s1 & HE & _)]; congruence.
  - intros newId cid dto s' p Hf HR.
    destruct (createFuelPrice_outcome newId cid dto s (proj1 H)) as [(e & HE)|(HE & HZ & HN)]; [congruence|].
    rewrite HE in HR. injection HR as <- <-.
    pose proof (created_historyOk _ _ _ H Hf HZ HN) as H'. split.
    + intros fuel d HT Hd HU. apply (price_in_force _ cid fuel d newId (mkPrice cid (normalizeFuelType (Some (cp_fuelType dto)))
        (cp_pricePerLiter dto) (cp_effectiveFrom dto) (cp_effectiveUntil dto)));
        [apply H'|apply lookup_insert_eq|].
      by apply applies_true.
    + intros cid' fuel d Hd. by apply created_keeps_past.
Qed.

(** ** A history *)

Definition noPrices : PriceStore := mkPrices ∅ ∅.
Definition price (id : string) (ar from : Z) (until : option Z) : PriceReq :=
  PCreate id "c1" (mkCreatePrice "Gazole diesel" (num_of_Z ar) from until).
Definition onePrice : PriceStore := (runPrice (price "p1" 4900 100 None) noPrices).1.
Definition dieselAt (d : Z) (s : PriceStore) : option num := getFuelPriceForDate "c1" (Some "Diesel") d s.

Lemma noPrices_ok : historyOk noPrices.
Proof. split; [intros k k' a b H|intros k p H]; by vm_compute in H. Qed.

Lemma price_history_sound_witness :
  historyOk onePrice ∧ dieselAt 150 onePrice = Some (num_of_Z 4900) ∧
  dieselAt 150 (runPrice (price "p2" 5100 200 None) onePrice).1 = dieselAt 150 onePrice ∧
  dieselAt 250 (runPrice (price "p2" 5100 200 None) onePrice).1 = Some (num_of_Z 5100).
Proof.
  destruct (price_history_sound noPrices onePrice) as (H1 & _ & _ & H4).
  - apply noPrices_ok.
  - apply rtc_once. exists (price "p1" 4900 100 None). split; [apply lookup_empty|reflexivity].
  - set (dto := mkCreatePrice "Gazole diesel" (num_of_Z 5100) 200 None).
    destruct (H4 "p2" "c1" dto (runPrice (price "p2" 5100 200 None) onePrice).1
                (mkPrice "c1" "diesel" (num_of_Z 5100) 200 None)) as [H5 H6]; [by vm_compute|by vm_compute|].
    split_and!; [exact H1|by vm_compute| |].
    + apply H6. left. simpl. lia.
    + apply (H5 (Some "Diesel") 250); [by vm_compute|simpl; lia|reflexivity].
Defined.

(** A price with an end leaves the default price after it: the open price it
    interrupts does not come back. *)
Lemma bounded_price_ends_the_open_one :
  let s := (runPrice (price "p2" 5500 200 (Some 300)) onePrice).1 in
  dieselAt 250 s = Some (num_of_Z 5500) ∧ dieselAt 400 onePrice = Some (num_of_Z 4900) ∧
  latestPrice (applies "c1" "diesel" 400) (prices s) = None.
Proof. by vm_compute. Qed.

(** A range that ends before it begins is accepted; it ends the open price and
    applies to no instant. *)
Lemma inverted_range_accepted :
  let r := runPrice (price "p2" 5500 200 (Some 150)) onePrice in
  r.2 = Ok tt ∧ ∀ d, 200 ≤ d → latestPrice (applies "c1" "diesel" d) (prices r.1) = None.
Proof.
  split; [by vm_compute|]. intros d Hd.
  destruct (latestPrice _ _) as [[k p]|] eqn:E; [|done].
  apply latestPrice_Some in E as [Hk (_ & _ & H1 & H2)%applies_true].
  assert (Ep : prices (runPrice (price "p2" 5500 200 (Some 150)) onePrice).1 =
    <["p2" := mkPrice "c1" "diesel" (num_of_Z 5500) 200 (Some 150)]>
      {["p1" := mkPrice "c1" "diesel" (num_of_Z 4900) 100 (Some 199)]}) by (vm_compute; reflexivity).
  rewrite Ep in Hk. apply lookup_insert_Some in Hk as [[_ <-]|[_ Hk]]; [cbn in *; lia|].
  apply lookup_singleton_Some in Hk as [_ <-]. cbn in *. lia.
Qed.
