(* ===== verification/FuelLogs.v ===== *)
(** * Fuel: logs, and the two detectors of anomalies

    The operations of modules/fuel-consumption/fuel-consumption.service.ts on
    fuel logs, the check of the declared kilometres against the positions
    (crossCheckFuelLogWithGps over scanVehicleTrack), the analysis of the
    consumption (queue/fuel-analysis.processor.ts) and the derived anomaly
    (common/fuel/fuel-anomaly.utils.ts).

    A recorded reason is the case it names with the figures its text prints. *)

From Stdlib Require Import SpecFloat.
From S2P Require Import Prelude JsString JsNum Geo Gps TrackingModel FuelPrices.

#[local] Open Scope string_scope.
#[local] Open Scope list_scope.
#[local] Open Scope Z_scope.

Definition FUEL_COVERAGE_MIN_FRACTION : num := num_lit 4 10.
Definition FUEL_COVERAGE_GAP_TOLERANCE_S : Z := 300.
Definition FUEL_COVERAGE_MIN_MANUAL_KM : num := num_of_Z 5.

(** The figures, in the order of the text: dates, declared and measured
    kilometres, net displacement, accuracy, percentages, ratios. *)
Inductive FuelReason :=
  | StationaryNoise (from to : Z) (gpsKm netKm avgAccuracy manualKm : num)
  | LowCoverage (percent : num) (from to : Z) (manualKm : num)
  | NoDistance (count : nat) (from to : Z) (manualKm : num)
  | NoPosition (from to : Z) (manualKm : num)
  | OverDeclared (manualKm gpsKm ratio : num)
  | UnderDeclared (manualKm gpsKm ratio : num)
  | Consumption (calculated deviation reference threshold : num).

Inductive DeviationDirection := over | under.

Record FuelLog := mkLog {
  fl_companyId : string;
  fl_vehicleId : string;
  liters : num;
  kilometers : num;
  cost : num;
  fillDate : Z;
  notes : option string;
  consumptionAnomalyFlag : bool;
  consumptionAnomalyReason : option FuelReason;
  consumptionDeviationDirection : option DeviationDirection;
  gpsAnomalyFlag : bool;
  gpsAnomalyReason : option FuelReason;
  gpsCoverageInsufficientFlag : bool;
  gpsCoverageInsufficientReason : option FuelReason;
  calculatedConsumption : option num
}.

(** A vehicle, with the user of its driver. *)
Record FuelVehicle := mkFuelVehicle {
  fv_companyId : string;
  fv_deletedAt : option Z;
  theoreticalConsumption : option num;
  fv_driverUserId : option string
}.

Inductive FuelJob := analyze (fuelLogId vehicleId companyId : string)
  | cross_check_gps (fuelLogId vehicleId companyId : string).

Inductive FuelNoteType := fuel_gps_coverage_missing | fuel_anomaly.
(** A notification: company, type, the user it is for and the log it is about. *)
Record FuelNote := mkNote { nt_companyId : string; nt_type : FuelNoteType; nt_userId : option string; nt_log : string }.

Record FuelStore := mkFuel {
  logs : gmap string FuelLog;
  fuelVehicles : gmap string FuelVehicle;
  fuelSettings : gmap string FuelSettings;
  gpsPositions : list GpsPosition;
  jobs : list FuelJob;
  notifications : list FuelNote;
  crossCheckInProgress : gset string
}.

(** ** The derived anomaly *)

Definition hasFuelAnomaly (l : FuelLog) : bool := consumptionAnomalyFlag l || gpsAnomalyFlag l.

(** The reasons joined by the code. *)
Definition getFuelAnomalyReason (l : FuelLog) : list FuelReason :=
  option_list (consumptionAnomalyReason l) ++ option_list (gpsAnomalyReason l).

Definition withDerivedAnomaly (l : FuelLog) : FuelLog * bool * list FuelReason :=
  (l, hasFuelAnomaly l, getFuelAnomalyReason l).

(** [fuelLog.update({ where: { id }, data })]. *)
Definition updateLog (id : string) (f : FuelLog → FuelLog) : M FuelStore FuelLog := λ s,
  match logs s !! id with
  | Some l => (s <| logs := <[id := f l]> (logs s) |>, Ok (f l))
  | None => (s, Throw PrismaP2025)
  end.

Definition notify (n : FuelNote) : M FuelStore unit :=
  modify (λ s, s <| notifications := notifications s ++ [n] |>).

Definition driverOf (vid : string) (s : FuelStore) : option string :=
  fuelVehicles s !! vid ≫= fv_driverUserId.

(** ** scanVehicleTrack *)

Section FuelLogs.
Context (jm : JsMath) (routeMatching : bool)
  (matchRouteDistance : list (num * num) → list num → option (num * num)).

Definition fixOf (p : GpsPosition) : StopFix :=
  mkFix (p_latitude p) (p_longitude p) (p_accuracy p) (p_speed p) (Some (p_timestamp p)).

Record TrackScan := mkScan {
  distanceMeters : num;
  coveredMs : Z;
  count : nat;
  firstTimestamp : option Z;
  lastTimestamp : option Z;
  netDisplacementMeters : num;
  avgAccuracy : num
}.

(** The variables of the loop. *)
Record ScanState := mkScanState {
  ss_distance : num;
  ss_covered : Z;
  ss_count : nat;
  ss_first : option Z;
  ss_last : option Z;
  ss_firstPoint : option (num * num);
  ss_lastPoint : option (num * num);
  ss_accuracySum : num;
  ss_accuracyCount : Z;
  ss_carry : option StopFix;
  ss_budget : Z
}.

(** The query of one page; [table] holds one row per vehicle and instant. *)
Definition trackRows (vid cid : string) (after until : Z) (table : list GpsPosition) : list GpsPosition :=
  sort_by p_timestamp
    (filter (λ p, p_vehicleId p = vid ∧ p_companyId p = cid ∧ after < p_timestamp p ∧ p_timestamp p ≤ until
                  ∧ p_suspect p = false) table).

(** [coveredMs] of consecutive fixes, each gap counting up to the tolerance. *)
Definition gapMs (a b : Z) : Z := Z.min (b - a) (FUEL_COVERAGE_GAP_TOLERANCE_S * 1000).
Fixpoint coverage (ts : list Z) : Z :=
  match ts with
  | a :: (b :: _) as rest => gapMs a b + coverage rest
  | _ => 0
  end.

Definition pageDistance (withCarry : list StopFix) (budget : Z) : num * Z :=
  if routeMatching then
    match computeRouteMatchedDistance jm matchRouteDistance withCarry budget with
    | Some r => r
    | None => (zero, budget)
    end
  else (computeFilteredDistance jm withCarry, budget).

Definition accuracyStep (acc : num * Z) (p : GpsPosition) : num * Z :=
  match p_accuracy p with Some a => (num_add acc.1 a, acc.2 + 1) | None => acc end.

Definition pointOf (p : GpsPosition) : num * num := (p_latitude p, p_longitude p).

(** The body of the loop on a page that is not empty. *)
Definition scanPage (page : list GpsPosition) (st : ScanState) : ScanState :=
  let withCarry := option_list (ss_carry st) ++ map fixOf page in
  let acc := foldl accuracyStep (ss_accuracySum st, ss_accuracyCount st) page in
  let d := pageDistance withCarry (ss_budget st) in
  {| ss_distance := num_add (ss_distance st) d.1;
     ss_covered := ss_covered st + coverage (map time withCarry);
     ss_count := ss_count st + length page;
     ss_first := match ss_first st with Some t => Some t | None => p_timestamp <$> head page end;
     ss_last := match last page with Some p => Some (p_timestamp p) | None => ss_last st end;
     ss_firstPoint := match ss_firstPoint st with Some p => Some p | None => pointOf <$> head page end;
     ss_lastPoint := match last page with Some p => Some (pointOf p) | None => ss_lastPoint st end;
     ss_accuracySum := acc.1;
     ss_accuracyCount := acc.2;
     ss_carry := match last page with Some p => Some (fixOf p) | None => ss_carry st end;
     ss_budget := d.2 |}.

Definition PAGE_SIZE : nat := Z.to_nat 20000.

(** The [for (;;)] from [cursor]; [fuel] bounds its pages. *)
Fixpoint scanLoop (fuel : nat) (pageSize : nat) (vid cid : string) (cursor until : Z)
    (table : list GpsPosition) (st : ScanState) : option ScanState :=
  match fuel with
  | O => None
  | S fuel' =>
      let page := take pageSize (trackRows vid cid cursor until table) in
      match last page with
      | None => Some st
      | Some p =>
          if (length page <? pageSize)%nat then Some (scanPage page st)
          else scanLoop fuel' pageSize vid cid (p_timestamp p) until table (scanPage page st)
      end
  end.

Definition startScan : ScanState := mkScanState zero 0 0 None None None None zero 0 None MAX_MATCH_CHUNKS.

(** What follows the loop. *)
Definition finishScan (start until : Z) (st : ScanState) : TrackScan :=
  {| distanceMeters := ss_distance st;
     coveredMs := ss_covered st
       + match ss_first st with Some t => gapMs start t | None => 0 end
       + match ss_last st with Some t => gapMs t until | None => 0 end;
     count := ss_count st;
     firstTimestamp := ss_first st;
     lastTimestamp := ss_last st;
     netDisplacementMeters :=
       match ss_firstPoint st, ss_lastPoint st with
       | Some (a, b), Some (c, d) => haversineDistance jm a b c d
       | _, _ => zero
       end;
     avgAccuracy :=
       if 0 <? ss_accuracyCount st then num_div (ss_accuracySum st) (num_of_Z (ss_accuracyCount st)) else zero |}.

(** One page per row at most, and one to see the end. *)
Definition scanVehicleTrack (vid cid : string) (start until : Z) (table : list GpsPosition) : option TrackScan :=
  finishScan start until <$> scanLoop (S (length table)) PAGE_SIZE vid cid start until table startScan.

(** ** crossCheckFuelLogWithGps *)

Definition maxOf (l : list Z) : option Z :=
  foldl (λ best t, match best with Some b => Some (Z.max b t) | None => Some t end) None l.
Definition minOf (l : list Z) : option Z :=
  foldl (λ best t, match best with Some b => Some (Z.min b t) | None => Some t end) None l.

(** The fill before this one. *)
Definition previousFill (l : FuelLog) (cid : string) (s : FuelStore) : option Z :=
  maxOf (map (λ kv, fillDate kv.2)
    (find_many (λ _ x, bool_decide (fl_vehicleId x = fl_vehicleId l) && bool_decide (fl_companyId x = cid)
                       && (fillDate x <? fillDate l)) (logs s))).

Definition firstFix (l : FuelLog) (cid : string) (s : FuelStore) : option Z :=
  minOf (map p_timestamp (filter (λ p, p_vehicleId p = fl_vehicleId l ∧ p_companyId p = cid
                                       ∧ p_timestamp p ≤ fillDate l) (gpsPositions s))).

Definition rawStart (l : FuelLog) (cid : string) (s : FuelStore) : Z :=
  match previousFill l cid s with
  | Some d => d
  | None =>
      let start := fillDate l - 30 * 24 * 60 * 60 * 1000 in
      match firstFix l cid s with
      | Some t => if start <? t then t else start
      | None => start
      end
  end.

Definition km (metres : num) : num := num_div metres (num_of_Z 1000).

Definition coverageFraction (scan : TrackScan) (span : Z) : num :=
  if 0 <? span then Math_min (num_of_Z 1) (num_div (num_of_Z (Z.max 0 (coveredMs scan))) (num_of_Z span))
  else num_of_Z 1.

Definition crossThreshold (cid : string) (s : FuelStore) : num :=
  default (num_lit 13 10) (fuelSettings s !! cid ≫= crossCheckThreshold).

Definition markUncovered (id : string) (reason : FuelReason) : M FuelStore unit :=
  updateLog id (λ l, l <| gpsCoverageInsufficientFlag := true |>
                       <| gpsCoverageInsufficientReason := Some reason |>) ;; mret tt.

(** The user is the driver's, which the code read with the log. *)
Definition fuelNote (ty : FuelNoteType) (cid id : string) (l : FuelLog) : M FuelStore unit :=
  user ← gets (driverOf (fl_vehicleId l)); notify (mkNote cid ty user id).

Definition flagGps (cid id : string) (l : FuelLog) (reason : FuelReason) : M FuelStore unit :=
  updateLog id (λ l, l <| gpsAnomalyFlag := true |> <| gpsAnomalyReason := Some reason |>) ;;
  fuelNote fuel_anomaly cid id l.

(** [l] is the log as it was read. *)
Definition crossCheckLocked (cid id : string) (l : FuelLog) : M FuelStore unit :=
  from ← gets (rawStart l cid);
  let to := fillDate l in
  scanned ← gets (λ s, scanVehicleTrack (fl_vehicleId l) cid from to (gpsPositions s));
  match scanned with
  | None => mret tt
  | Some scan =>
      let gpsKm := km (distanceMeters scan) in
      let manualKm := kilometers l in
      let netKm := km (netDisplacementMeters scan) in
      if isStationaryNoise gpsKm netKm (avgAccuracy scan) then
        if gpsCoverageInsufficientFlag l then mret tt
        else markUncovered id (StationaryNoise from to gpsKm netKm (avgAccuracy scan) manualKm)
      else
        let fraction := coverageFraction scan (to - from) in
        if (0 <? count scan)%nat
           && bool_decide (firstTimestamp scan ≠ None) && bool_decide (lastTimestamp scan ≠ None)
           && num_ltb fraction FUEL_COVERAGE_MIN_FRACTION
           && num_leb FUEL_COVERAGE_MIN_MANUAL_KM manualKm then
          if gpsCoverageInsufficientFlag l then mret tt
          else
            markUncovered id (LowCoverage (Math_round (num_mul fraction (num_of_Z 100))) from to manualKm) ;;
            fuelNote fuel_gps_coverage_missing cid id l
        else if num_leb gpsKm zero then
          if gpsCoverageInsufficientFlag l then mret tt
          else
            markUncovered id (if (0 <? count scan)%nat then NoDistance (count scan) from to manualKm
                              else NoPosition from to manualKm) ;;
            fuelNote fuel_gps_coverage_missing cid id l
        else
          (if gpsCoverageInsufficientFlag l
           then updateLog id (λ l, l <| gpsCoverageInsufficientFlag := false |>
                                     <| gpsCoverageInsufficientReason := None |>) ;; mret tt
           else mret tt) ;;
          let ratio := num_div manualKm gpsKm in
          threshold ← gets (crossThreshold cid);
          if num_ltb manualKm FUEL_COVERAGE_MIN_MANUAL_KM then mret tt
          else if num_ltb threshold ratio then flagGps cid id l (OverDeclared manualKm gpsKm ratio)
          else if num_ltb ratio (num_div (num_of_Z 1) threshold)
          then flagGps cid id l (UnderDeclared manualKm gpsKm ratio)
          else if gpsAnomalyFlag l
          then updateLog id (λ l, l <| gpsAnomalyFlag := false |> <| gpsAnomalyReason := None |>) ;; mret tt
          else mret tt
  end.

(** The guard before the lock. *)
Definition acquireCheck (id : string) (l : FuelLog) : M FuelStore bool :=
  if negb (num_ltb zero (kilometers l)) then mret false
  else
    busy ← gets (λ s, bool_decide (id ∈ crossCheckInProgress s));
    if (busy : bool) then mret false
    else modify (λ s, s <| crossCheckInProgress := {[id]} ∪ crossCheckInProgress s |>) ;; mret true.

Definition releaseCheck (id : string) (s : FuelStore) : FuelStore :=
  s <| crossCheckInProgress := crossCheckInProgress s ∖ {[id]} |>.

(** [try { ... } finally { release }]. *)
Definition releasing (id : string) (m : M FuelStore unit) : M FuelStore unit := λ s,
  let r := m s in (releaseCheck id r.1, r.2).

Definition crossCheckFuelLogWithGps (cid id : string) (l : FuelLog) : M FuelStore unit :=
  mine ← acquireCheck id l;
  if (mine : bool) then releasing id (crossCheckLocked cid id l) else mret tt.

Definition findLog (cid id : string) (s : FuelStore) : option FuelLog :=
  match logs s !! id with
  | Some l => if bool_decide (fl_companyId l = cid) then Some l else None
  | None => None
  end.

Definition runGpsCrossCheckForLog (id cid : string) : M FuelStore unit :=
  found ← gets (findLog cid id);
  match found with
  | None => mret tt
  | Some l => crossCheckFuelLogWithGps cid id l
  end.

(** ** processFuelLogAnalysis *)

(** FUEL_ANOMALY_THRESHOLD_PERCENT. *)
Context (defaultThreshold : num).

Definition referenceOf (v : option FuelVehicle) : num :=
  match v ≫= theoreticalConsumption with
  | Some t => if num_ltb zero t then t else num_of_Z 8
  | None => num_of_Z 8
  end.

Definition consumptionOf (l : FuelLog) : option num :=
  if num_ltb zero (kilometers l) then Some (num_mul (num_div (liters l) (kilometers l)) (num_of_Z 100)) else None.

Definition deviationFrom (reference calculated : num) : num :=
  num_mul (num_div (Math_abs (num_sub calculated reference)) reference) (num_of_Z 100).

Definition processFuelLogAnalysis (id cid : string) : M FuelStore unit :=
  found ← gets (findLog cid id);
  threshold ← gets (λ s, default defaultThreshold (fuelSettings s !! cid ≫= anomalyThreshold));
  match found with
  | None => mret tt
  | Some l =>
      reference ← gets (λ s, referenceOf (fuelVehicles s !! fl_vehicleId l));
      let calculated := consumptionOf l in
      let verdict :=
        match calculated with
        | Some c =>
            let deviation := deviationFrom reference c in
            if num_ltb threshold deviation
            then Some (Consumption c deviation reference threshold, if num_ltb reference c then over else under)
            else None
        | None => None
        end in
      updateLog id (λ l, l <| calculatedConsumption := calculated |>
                           <| consumptionAnomalyFlag := bool_decide (is_Some verdict) |>
                           <| consumptionAnomalyReason := fst <$> verdict |>
                           <| consumptionDeviationDirection := snd <$> verdict |>) ;;
      match verdict with
      | Some _ => fuelNote fuel_anomaly cid id l
      | None => mret tt
      end
  end.

(** ** create, update, remove *)

(** The queue 'fuel-analysis': absent, refusing jobs, or working. *)
Inductive FuelQueue := NoQueue | Failing | Working.
Context (queue : FuelQueue).

(** [add], and whether it went through. *)
Definition enqueue (j : FuelJob) : M FuelStore bool :=
  match queue with
  | Working => modify (λ s, s <| jobs := jobs s ++ [j] |>) ;; mret true
  | _ => mret false
  end.

(** [try { ... } catch { log }]. *)
Definition attempt (m : M FuelStore unit) : M FuelStore unit := try_catch m (λ _, mret tt).

Definition ownVehicle (cid vid : string) (s : FuelStore) : bool :=
  match fuelVehicles s !! vid with
  | Some v => bool_decide (fv_companyId v = cid) && bool_decide (fv_deletedAt v = None)
  | None => false
  end.

Record CreateFuelLogDto := mkCreateLog {
  cl_liters : num; cl_kilometers : num; cl_cost : num; cl_fillDate : Z; cl_vehicleId : string;
  cl_notes : option string
}.

Definition createLog (newId cid : string) (dto : CreateFuelLogDto)
    : M FuelStore (option (FuelLog * bool * list FuelReason)) :=
  own ← gets (ownVehicle cid (cl_vehicleId dto));
  ensure own (NotFoundException "Vehicle not found in your company") ;;
  let l := mkLog cid (cl_vehicleId dto) (cl_liters dto) (cl_kilometers dto) (cl_cost dto) (cl_fillDate dto)
             (cl_notes dto) false None None false None false None None in
  modify (λ s, s <| logs := <[newId := l]> (logs s) |>) ;;
  enqueue (analyze newId (cl_vehicleId dto) cid) ;;
  queued ← enqueue (cross_check_gps newId (cl_vehicleId dto) cid);
  (if (queued : bool) then mret tt else attempt (crossCheckFuelLogWithGps cid newId l)) ;;
  gets (λ s, withDerivedAnomaly <$> logs s !! newId).

(** [None] for an absent field. *)
Record UpdateFuelLogDto := mkUpdateLog {
  ul_liters : option num; ul_kilometers : option num; ul_cost : option num; ul_fillDate : option Z;
  ul_vehicleId : option string; ul_notes : option (option string)
}.

Definition changedNum (new : option num) (old : num) : bool :=
  match new with Some x => negb (num_eqb x old) | None => false end.
Definition changed {A} `{EqDecision A} (new : option A) (old : A) : bool :=
  match new with Some x => negb (bool_decide (x = old)) | None => false end.

Definition measuredChanged (dto : UpdateFuelLogDto) (l : FuelLog) : bool :=
  changedNum (ul_liters dto) (liters l) || changedNum (ul_kilometers dto) (kilometers l)
  || changed (ul_fillDate dto) (fillDate l) || changed (ul_vehicleId dto) (fl_vehicleId l).

(** The columns of the request, and the flags reset when [reset]. *)
Definition patchLog (dto : UpdateFuelLogDto) (reset : bool) (l : FuelLog) : FuelLog :=
  {| fl_companyId := fl_companyId l;
     fl_vehicleId := default (fl_vehicleId l) (ul_vehicleId dto);
     liters := default (liters l) (ul_liters dto);
     kilometers := default (kilometers l) (ul_kilometers dto);
     cost := default (cost l) (ul_cost dto);
     fillDate := default (fillDate l) (ul_fillDate dto);
     notes := default (notes l) (ul_notes dto);
     consumptionAnomalyFlag := negb reset && consumptionAnomalyFlag l;
     consumptionAnomalyReason := if reset then None else consumptionAnomalyReason l;
     consumptionDeviationDirection := consumptionDeviationDirection l;
     gpsAnomalyFlag := negb reset && gpsAnomalyFlag l;
     gpsAnomalyReason := if reset then None else gpsAnomalyReason l;
     gpsCoverageInsufficientFlag := negb reset && gpsCoverageInsufficientFlag l;
     gpsCoverageInsufficientReason := if reset then None else gpsCoverageInsufficientReason l;
     calculatedConsumption := calculatedConsumption l |}.

Definition updateFuelLog (cid id : string) (dto : UpdateFuelLogDto)
    : M FuelStore (option (FuelLog * bool * list FuelReason)) :=
  found ← gets (findLog cid id);
  match found with
  | None => throw (NotFoundException "Fuel log not found")
  | Some existing =>
      (if changed (ul_vehicleId dto) (fl_vehicleId existing)
       then own ← gets (ownVehicle cid (default "" (ul_vehicleId dto)));
            ensure own (NotFoundException "Vehicle not found in your company")
       else mret tt) ;;
      let measured := measuredChanged dto existing in
      updated ← updateLog id (patchLog dto measured);
      (if measured then
         enqueue (analyze id (fl_vehicleId updated) cid) ;;
         attempt (crossCheckFuelLogWithGps cid id updated)
       else mret tt) ;;
      gets (λ s, withDerivedAnomaly <$> logs s !! id)
  end.

Definition removeLog (cid id : string) : M FuelStore unit :=
  found ← gets (findLog cid id);
  match found with
  | None => throw (NotFoundException "Fuel log not found")
  | Some _ => modify (λ s, s <| logs := delete id (logs s) |>)
  end.

(** The worker: a cross-check that fails is logged. *)
Definition processFuelJob (j : FuelJob) : M FuelStore unit :=
  match j with
  | analyze id _ cid => processFuelLogAnalysis id cid
  | cross_check_gps id _ cid => attempt (runGpsCrossCheckForLog id cid)
  end.
End FuelLogs.
