(* ===== verification/FuelScanProps.v ===== *)
(** * scanVehicleTrack: the pages against one pass over the trace *)

From Stdlib Require Import SpecFloat.
From S2P Require Import Prelude JsString JsNum Geo Gps GpsProps TrackingModel FuelPrices FuelLogs.

#[local] Open Scope string_scope.
#[local] Open Scope list_scope.
#[local] Open Scope Z_scope.

(** ** The trace and its pages *)

(** One row per vehicle and instant: the unique constraint of gps_positions. *)
Definition distinctInstants (table : list GpsPosition) : Prop :=
  NoDup (map (λ p, (p_vehicleId p, p_timestamp p)) table).

Definition earlier (p q : GpsPosition) : Prop := p_timestamp p < p_timestamp q.

Lemma same_key table p q :
  distinctInstants table → p ∈ table → q ∈ table →
  p_vehicleId p = p_vehicleId q → p_timestamp p = p_timestamp q → p = q.
Proof.
  intros HN Hp Hq EV ET. unfold distinctInstants in HN.
  apply list_elem_of_lookup in Hp as [i Hi], Hq as [j Hj].
  assert (i = j) as ->; [|congruence].
  eapply (NoDup_lookup _ i j (p_vehicleId p, p_timestamp p) HN); rewrite list_lookup_fmap, ?Hi, ?Hj; simpl; congruence.
Qed.

Section Track.
Context (vid cid : string) (until : Z) (table : list GpsPosition) (HN : distinctInstants table).

Lemma elem_of_trackRows after p :
  p ∈ trackRows vid cid after until table ↔
  p ∈ table ∧ p_vehicleId p = vid ∧ p_companyId p = cid ∧ after < p_timestamp p ∧ p_timestamp p ≤ until
  ∧ p_suspect p = false.
Proof. unfold trackRows. rewrite sort_by_perm, list_elem_of_filter. tauto. Qed.

(** The next page's query is the rest of the trace. *)
Lemma trackRows_after start c :
  start ≤ c →
  trackRows vid cid c until table = filter (λ p, c < p_timestamp p) (trackRows vid cid start until table).
Proof.
  intros Hc. apply (StronglySorted_unique_strong (key_le p_timestamp)).
  - intros p q Hp Hq H1 H2. apply list_elem_of_filter in Hq as [_ Hq].
    apply elem_of_trackRows in Hp as (Hp & Vp & _), Hq as (Hq & Vq & _).
    unfold key_le in *. apply (same_key table); [done..|congruence|lia].
  - apply sort_by_sorted.
  - apply StronglySorted_filter, sort_by_sorted.
  - unfold trackRows. rewrite !sort_by_perm, list_filter_filter.
    apply Permutation_refl', list_filter_iff. intros p. split; intros; destruct_and?; split_and?; auto; lia.
Qed.

Lemma trackRows_strict start : StronglySorted earlier (trackRows vid cid start until table).
Proof.
  assert (HD : NoDup (trackRows vid cid start until table)).
  { unfold trackRows. rewrite sort_by_perm. apply NoDup_filter. by eapply NoDup_fmap_1. }
  assert (HS := sort_by_sorted p_timestamp (filter (λ p, p_vehicleId p = vid ∧ p_companyId p = cid
    ∧ start < p_timestamp p ∧ p_timestamp p ≤ until ∧ p_suspect p = false) table)).
  fold (trackRows vid cid start until table) in HS.
  assert (HE : ∀ p, p ∈ trackRows vid cid start until table → p ∈ table ∧ p_vehicleId p = vid)
    by (intros p Hp%elem_of_trackRows; tauto).
  revert HD HS HE. generalize (trackRows vid cid start until table) as l. intros l HD HS HE.
  induction HS as [|p l HS IH Hp]; [constructor|]. apply NoDup_cons in HD as [Hnp HD].
  constructor; [apply IH; [done|]; intros; apply HE; by right|].
  rewrite Forall_forall in *. intros q Hq. specialize (Hp q Hq). unfold key_le, earlier in *.
  destruct (decide (p_timestamp p = p_timestamp q)) as [E|]; [|lia]. exfalso. apply Hnp.
  destruct (HE p ltac:(by left)), (HE q ltac:(by right)).
  by rewrite (same_key table p q) by (done || congruence).
Qed.

Lemma strict_after l p r :
  StronglySorted earlier (l ++ p :: r) → filter (λ q, p_timestamp p < p_timestamp q) (l ++ p :: r) = r.
Proof.
  induction l as [|x l IH]; simpl.
  - intros HS. inversion HS as [|?? HS' Hr]; subst. rewrite filter_cons, decide_False by lia.
    by apply filter_all.
  - intros HS. inversion HS as [|?? HS' Hx]; subst. rewrite filter_cons, decide_False; [auto|].
    rewrite Forall_app, Forall_cons in Hx. destruct Hx as (_ & Hx & _). unfold earlier in Hx. lia.
Qed.

Context (jm : JsMath) (rm : bool) (osrm : list (num * num) → list num → option (num * num)).

(** The loop visits the trace page after page, and always ends. *)
Lemma scanLoop_pages pageSize fuel : ∀ start st,
  (0 < pageSize)%nat → (length (trackRows vid cid start until table) < fuel)%nat →
  ∃ pages, concat pages = trackRows vid cid start until table ∧
    Forall (λ pg, pg ≠ [] ∧ length pg ≤ pageSize)%nat pages ∧
    scanLoop jm rm osrm fuel pageSize vid cid start until table st
    = Some (foldl (λ st pg, scanPage jm rm osrm pg st) st pages).
Proof.
  induction fuel as [|fuel IH]; intros start st Hn Hf; [lia|]. cbn [scanLoop]. cbv zeta.
  set (track := trackRows vid cid start until table) in *.
  destruct (last (take pageSize track)) as [p|] eqn:EL.
  - destruct (Nat.ltb_spec (length (take pageSize track)) pageSize) as [Hs|Hs].
    + exists [take pageSize track]. simpl. rewrite app_nil_r.
      assert (Hge : (length track ≤ pageSize)%nat) by (rewrite length_take in Hs; lia).
      split_and!; [by apply take_ge| |done]. constructor; [|constructor].
      split; [by intros E; rewrite E in EL|rewrite length_take; lia].
    + apply last_Some in EL as [l0 EL].
      assert (ET : track = l0 ++ p :: drop pageSize track).
      { rewrite <- (take_drop pageSize track) at 1. rewrite EL, <- app_assoc. done. }
      assert (Hp : p ∈ track) by (rewrite ET, elem_of_app; right; by left).
      assert (Hd : trackRows vid cid (p_timestamp p) until table = drop pageSize track).
      { rewrite (trackRows_after start); [|apply elem_of_trackRows in Hp; lia]. fold track.
        rewrite ET at 1. apply strict_after. rewrite <- ET. apply trackRows_strict. }
      destruct (IH (p_timestamp p) (scanPage jm rm osrm (take pageSize track) st) Hn) as (pages & HC & HF & HR).
      { rewrite Hd, length_drop. rewrite length_take in Hs. lia. }
      exists (take pageSize track :: pages). rewrite HR. split_and!; [|constructor; [|done]|done].
      * cbn [concat]. by rewrite HC, Hd, take_drop.
      * split; [|rewrite length_take; lia]. intros E. rewrite E in EL. by destruct l0.
  - apply last_None in EL. exists []. split_and!; [|constructor|done]. simpl.
    destruct pageSize; [lia|]. by destruct track.
Qed.
End Track.

(** ** What the pages add up to *)

Lemma coverage_app l x r : coverage (l ++ x :: r) = coverage (l ++ [x]) + coverage (x :: r).
Proof.
  induction l as [|a l IH]; [done|]. destruct l as [|b l]; [simpl; lia|].
  change (gapMs a b + coverage ((b :: l) ++ x :: r) = gapMs a b + coverage ((b :: l) ++ [x]) + coverage (x :: r)).
  rewrite IH. lia.
Qed.

Section Pages.
Context (jm : JsMath) (rm : bool) (osrm : list (num * num) → list num → option (num * num)).

(** The pages as they are measured: each opens on the last fix of the one
    before. *)
Fixpoint chunksFrom (carry : option StopFix) (pages : list (list GpsPosition)) : list (list StopFix) :=
  match pages with
  | [] => []
  | pg :: pages' =>
      (option_list carry ++ map fixOf pg)
      :: chunksFrom (match last pg with Some p => Some (fixOf p) | None => carry end) pages'
  end.

(** The distance of the chunks, in order, within one budget. *)
Definition chunksDistance (acc : num * Z) (chunks : list (list StopFix)) : num * Z :=
  foldl (λ acc c, let d := pageDistance jm rm osrm c acc.2 in (num_add acc.1 d.1, d.2)) acc chunks.

Definition pagesOf (st : ScanState) (pages : list (list GpsPosition)) : ScanState :=
  foldl (λ st pg, scanPage jm rm osrm pg st) st pages.

Lemma segments_snoc_cons l x r : segments (l ++ x :: r) = segments (l ++ [x]) ++ segments (x :: r).
Proof.
  induction l as [|a l IH]; [done|]. destruct l as [|b l]; [done|].
  change ((a, b) :: segments ((b :: l) ++ x :: r) = (a, b) :: segments ((b :: l) ++ [x]) ++ segments (x :: r)).
  by rewrite IH.
Qed.

Lemma chunks_segments pages : ∀ carry, Forall (λ pg, pg ≠ []) pages →
  flat_map segments (chunksFrom carry pages) = segments (option_list carry ++ map fixOf (concat pages)).
Proof.
  induction pages as [|pg pages IH]; intros carry HF.
  { simpl. rewrite app_nil_r. by destruct carry. }
  inversion HF as [|?? Hne HF']; subst. destruct (exists_last Hne) as (l & p & ->).
  cbn [chunksFrom flat_map concat]. rewrite last_snoc, IH by done. cbn [option_list].
  rewrite !map_app, <- !app_assoc. cbn [map app]. rewrite 2!(app_assoc (option_list carry)).
  symmetry. apply segments_snoc_cons.
Qed.

(** The state after the pages, column by column. *)
Lemma pagesOf_spec pages : ∀ st, Forall (λ pg, pg ≠ []) pages →
  let track := concat pages in
  let st' := pagesOf st pages in
  ss_count st' = (ss_count st + length track)%nat ∧
  ss_first st' = match ss_first st with Some t => Some t | None => p_timestamp <$> head track end ∧
  ss_last st' = match last track with Some p => Some (p_timestamp p) | None => ss_last st end ∧
  ss_firstPoint st' = match ss_firstPoint st with Some p => Some p | None => pointOf <$> head track end ∧
  ss_lastPoint st' = match last track with Some p => Some (pointOf p) | None => ss_lastPoint st end ∧
  (ss_accuracySum st', ss_accuracyCount st') = foldl accuracyStep (ss_accuracySum st, ss_accuracyCount st) track ∧
  ss_covered st' = ss_covered st + coverage (map time (option_list (ss_carry st) ++ map fixOf track)) ∧
  (ss_distance st', ss_budget st') = chunksDistance (ss_distance st, ss_budget st) (chunksFrom (ss_carry st) pages).
Proof.
  induction pages as [|pg pages IH]; intros st HF; cbv zeta.
  { simpl. rewrite app_nil_r. split_and!; try done.
    - by destruct (ss_first st).
    - by destruct (ss_firstPoint st).
    - destruct (ss_carry st); simpl; lia. }
  inversion HF as [|?? Hne HF']; subst.
  destruct (IH (scanPage jm rm osrm pg st) HF') as (H1 & H2 & H3 & H4 & H5 & H6 & H7 & H8).
  destruct (exists_last Hne) as (l & p & E).
  assert (EL : last pg = Some p) by (rewrite E; apply last_snoc).
  cbn [pagesOf foldl concat] in *. fold (pagesOf (scanPage jm rm osrm pg st) pages) in *.
  split_and!.
  - rewrite H1, length_app. cbn [scanPage ss_count]. lia.
  - rewrite H2, head_app. cbn [scanPage ss_first]. destruct (ss_first st); [done|]. by destruct pg.
  - rewrite H3, last_app. cbn [scanPage ss_last]. rewrite EL. by destruct (last (concat pages)).
  - rewrite H4, head_app. cbn [scanPage ss_firstPoint]. destruct (ss_firstPoint st); [done|]. by destruct pg.
  - rewrite H5, last_app. cbn [scanPage ss_lastPoint]. rewrite EL. by destruct (last (concat pages)).
  - rewrite H6, foldl_app. cbn [scanPage ss_accuracySum ss_accuracyCount]. by rewrite <- surjective_pairing.
  - rewrite H7. cbn [scanPage ss_covered ss_carry]. rewrite EL. cbn [option_list app].
    rewrite E, !map_app, <- !app_assoc. cbn [map app]. rewrite 2!(app_assoc (map time (option_list _))).
    rewrite (coverage_app _ (time (fixOf p)) (map time (map fixOf (concat pages)))). apply Zplus_assoc_reverse.
  - rewrite H8. cbn [scanPage ss_distance ss_budget ss_carry chunksFrom]. by rewrite EL.
Qed.
End Pages.

(** The time covered between two instants by the fixes of a trace. *)
Definition coveredBetween (start until : Z) (track : list GpsPosition) : Z :=
  match track with [] => 0 | _ => coverage (start :: map p_timestamp track ++ [until]) end.

Definition meanAccuracy (track : list GpsPosition) : num :=
  let acc := foldl accuracyStep (zero, 0) track in
  if 0 <? acc.2 then num_div acc.1 (num_of_Z acc.2) else zero.

Lemma covered_ends start until p l q r :
  p :: l = r ++ [q] →
  coverage (start :: (p :: l) ++ [until]) = coverage (p :: l) + gapMs start p + gapMs q until.
Proof.
  intros E. change (gapMs start p + coverage ((p :: l) ++ [until]) = coverage (p :: l) + gapMs start p + gapMs q until).
  rewrite E, <- app_assoc. cbn [app]. rewrite coverage_app. change (coverage [q; until]) with (gapMs q until + 0). lia.
Qed.

Section Scan.
Context (jm : JsMath) (rm : bool) (osrm : list (num * num) → list num → option (num * num)).

(** C38: the scan of a trace, read by pages of any size, always ends, and does
    not depend on the pages: it counts every position that is not suspect, once,
    with the first and the last instant, the covered time, the displacement and
    the mean accuracy of the whole trace.  The pages are measured in chunks that
    open on the last fix of the page before, and the segments of these are those
    of the trace, none lost and none twice. *)
Theorem scan_pages_exact pageSize vid cid start until table :
  distinctInstants table → (0 < pageSize)%nat →
  let track := trackRows vid cid start until table in
  ∃ st chunks,
    scanLoop jm rm osrm (S (length table)) pageSize vid cid start until table startScan = Some st ∧
    let scan := finishScan jm start until st in
    count scan = length track ∧
    firstTimestamp scan = p_timestamp <$> head track ∧
    lastTimestamp scan = p_timestamp <$> last track ∧
    coveredMs scan = coveredBetween start until track ∧
    netDisplacementMeters scan =
      match head track, last track with
      | Some p, Some q => haversineDistance jm (p_latitude p) (p_longitude p) (p_latitude q) (p_longitude q)
      | _, _ => zero
      end ∧
    avgAccuracy scan = meanAccuracy track ∧
    distanceMeters scan = (chunksDistance jm rm osrm (zero, MAX_MATCH_CHUNKS) chunks).1 ∧
    flat_map segments chunks = segments (map fixOf track) ∧
    Forall (λ c, length c ≤ S pageSize)%nat chunks.
Proof.
  intros HN Hn. cbv zeta. set (track := trackRows vid cid start until table).
  destruct (scanLoop_pages vid cid until table HN jm rm osrm pageSize (S (length table)) start startScan Hn)
    as (pages & HC & HF & HR).
  { unfold trackRows. rewrite sort_by_perm. pose proof (length_filter (λ p, p_vehicleId p = vid ∧ p_companyId p = cid
      ∧ start < p_timestamp p ∧ p_timestamp p ≤ until ∧ p_suspect p = false) table). lia. }
  fold track in HC.
  assert (HF' : Forall (λ pg, pg ≠ []) pages) by (eapply Forall_impl; [exact HF|]; simpl; tauto).
  destruct (pagesOf_spec jm rm osrm pages startScan HF') as (H1 & H2 & H3 & H4 & H5 & H6 & H7 & H8).
  rewrite HC in *. fold (pagesOf jm rm osrm startScan pages) in HR. set (st := pagesOf _ _ _ _ _) in *.
  exists st, (chunksFrom None pages). split; [exact HR|]. cbn in H1, H2, H3, H4, H5, H6, H7, H8.
  unfold finishScan. cbn. split_and!.
  - done.
  - done.
  - rewrite H3. by destruct (last track).
  - rewrite H2, H3, H7. unfold coveredBetween. rewrite map_map.
    destruct track as [|p l]; [done|]. cbn [head fmap option_fmap option_map].
    destruct (exists_last (l := p :: l)) as (r & q & E); [done|].
    assert (EL : last (p :: l) = Some q) by (rewrite E; apply last_snoc). rewrite EL.
    cbn [map]. rewrite (covered_ends start until (p_timestamp p) (map p_timestamp l) (p_timestamp q) (map p_timestamp r)); [done|].
    change (map p_timestamp (p :: l) = map p_timestamp r ++ [p_timestamp q]). by rewrite E, map_app.
  - rewrite H4, H5. destruct track as [|p l]; [done|]. cbn [head fmap option_fmap option_map pointOf].
    by destruct (last (p :: l)).
  - unfold meanAccuracy. by rewrite <- H6.
  - by rewrite <- H8.
  - rewrite chunks_segments by done. by rewrite HC.
  - clear -HF. assert (H : ∀ c, Forall (λ c, length c ≤ S pageSize)%nat (chunksFrom c pages)).
    { induction HF as [|pg pages [_ HL] _ IH]; intros c; [constructor|]. constructor; [|apply IH].
      rewrite length_app, length_map. destruct c; simpl; lia. }
    apply H.
Qed.
End Scan.

(** ** A drive *)

Definition fixAt (t lat : Z) : GpsPosition :=
  mkPosition (num_lit lat 100) (num_lit 475 10) None None None (Some (num_of_Z 8)) false t "c1" None "v1" None phone [].
Definition drive : list GpsPosition := [fixAt 120000 100; fixAt 240000 101; fixAt 360000 102; fixAt 480000 103; fixAt 600000 104].

Lemma drive_distinct : distinctInstants drive.
Proof. unfold distinctInstants. apply (bool_decide_unpack _). by vm_compute. Qed.

Lemma scan_pages_exact_witness : ∃ st,
  scanLoop coarseMath false (λ _ _, None) 6 2 "v1" "c1" 0 720000 drive startScan = Some st ∧ ss_count st = 5%nat.
Proof.
  destruct (scan_pages_exact coarseMath false (λ _ _, None) 2 "v1" "c1" 0 720000 drive) as (st & chunks & H1 & H2 & _).
  - apply drive_distinct.
  - lia.
  - exists st. split; [exact H1|exact H2].
Defined.
