(* ===== verification/FuelLogsProps.v ===== *)
(** * Fuel logs: correctness of the two detectors *)

From Stdlib Require Import SpecFloat.
From S2P Require Import Prelude JsString JsNum Geo Gps GpsProps TrackingModel FuelPrices FuelLogs FuelScanProps.

#[local] Open Scope string_scope.
#[local] Open Scope list_scope.
#[local] Open Scope Z_scope.

(** ** The verdict of the GPS check *)

Inductive Verdict :=
  | Unverifiable (reason : FuelReason) (notified : bool)
  | TooShort
  | Accused (reason : FuelReason)
  | Agrees.

(** The distance is the noise of a vehicle that stands. *)
Definition noisy (scan : TrackScan) : bool :=
  isStationaryNoise (km (distanceMeters scan)) (km (netDisplacementMeters scan)) (avgAccuracy scan).

(** The fixes there are cover too little of the period. *)
Definition uncovered (l : FuelLog) (scan : TrackScan) (from : Z) : bool :=
  (0 <? count scan)%nat
  && bool_decide (firstTimestamp scan ≠ None) && bool_decide (lastTimestamp scan ≠ None)
  && num_ltb (coverageFraction scan (fillDate l - from)) FUEL_COVERAGE_MIN_FRACTION
  && num_leb FUEL_COVERAGE_MIN_MANUAL_KM (kilometers l).

Definition motionless (scan : TrackScan) : bool := num_leb (km (distanceMeters scan)) zero.

Definition tooShort (l : FuelLog) : bool := num_ltb (kilometers l) FUEL_COVERAGE_MIN_MANUAL_KM.

Definition ratioOf (l : FuelLog) (scan : TrackScan) : num := num_div (kilometers l) (km (distanceMeters scan)).

Definition verdictOf (l : FuelLog) (scan : TrackScan) (from : Z) (threshold : num) : Verdict :=
  let gpsKm := km (distanceMeters scan) in
  if noisy scan
  then Unverifiable (StationaryNoise from (fillDate l) gpsKm (km (netDisplacementMeters scan))
                       (avgAccuracy scan) (kilometers l)) false
  else if uncovered l scan from
  then Unverifiable (LowCoverage (Math_round (num_mul (coverageFraction scan (fillDate l - from)) (num_of_Z 100)))
                       from (fillDate l) (kilometers l)) true
  else if motionless scan
  then Unverifiable (if (0 <? count scan)%nat then NoDistance (count scan) from (fillDate l) (kilometers l)
                     else NoPosition from (fillDate l) (kilometers l)) true
  else if tooShort l then TooShort
  else if num_ltb threshold (ratioOf l scan) then Accused (OverDeclared (kilometers l) gpsKm (ratioOf l scan))
  else if num_ltb (ratioOf l scan) (num_div (num_of_Z 1) threshold)
  then Accused (UnderDeclared (kilometers l) gpsKm (ratioOf l scan))
  else Agrees.

Definition setCoverage (b : bool) (r : option FuelReason) (l : FuelLog) : FuelLog :=
  l <| gpsCoverageInsufficientFlag := b |> <| gpsCoverageInsufficientReason := r |>.
Definition setAnomaly (b : bool) (r : option FuelReason) (l : FuelLog) : FuelLog :=
  l <| gpsAnomalyFlag := b |> <| gpsAnomalyReason := r |>.

(** What the check writes to the row, [l] being the log as it was read. *)
Definition settle (l : FuelLog) (v : Verdict) (row : FuelLog) : FuelLog :=
  let cleared := if gpsCoverageInsufficientFlag l then setCoverage false None row else row in
  match v with
  | Unverifiable r _ => if gpsCoverageInsufficientFlag l then row else setCoverage true (Some r) row
  | TooShort => cleared
  | Accused r => setAnomaly true (Some r) cleared
  | Agrees => if gpsAnomalyFlag l then setAnomaly false None cleared else cleared
  end.

Definition announcements (cid id : string) (user : option string) (l : FuelLog) (v : Verdict) : list FuelNote :=
  match v with
  | Unverifiable _ true =>
      if gpsCoverageInsufficientFlag l then [] else [mkNote cid fuel_gps_coverage_missing user id]
  | Accused _ => [mkNote cid fuel_anomaly user id]
  | _ => []
  end.

(** A row rewritten and messages sent. *)
Definition written (id : string) (f : FuelLog → FuelLog) (ns : list FuelNote) (s : FuelStore) : FuelStore :=
  s <| logs := alter f id (logs s) |> <| notifications := notifications s ++ ns |>.

Lemma written_ext id f g ns s row :
  logs s !! id = Some row → f row = g row → written id f ns s = written id g ns s.
Proof.
  intros Hr E. unfold written.
  assert (EA : alter f id (logs s) = alter g id (logs s)); [|by rewrite EA].
  apply map_eq. intros k. destruct (decide (k = id)) as [->|Hne].
  - rewrite !lookup_alter_eq, Hr. simpl. by rewrite E.
  - by rewrite !lookup_alter_ne.
Qed.

Lemma written_nil id s : written id (λ l, l) [] s = s.
Proof.
  unfold written. rewrite alter_id by done. rewrite app_nil_r. by destruct s.
Qed.

Lemma written_written id f g ns ms s :
  written id g ms (written id f ns s) = written id (λ l, g (f l)) (ns ++ ms) s.
Proof.
  assert (EA : alter g id (alter f id (logs s)) = alter (λ l, g (f l)) id (logs s))
    by apply (alter_alter_eq g f).
  unfold written. rewrite <- EA. destruct s. cbn. by rewrite app_assoc.
Qed.

Lemma written_lookup id f ns s : logs (written id f ns s) !! id = f <$> logs s !! id.
Proof. destruct s. cbn. apply lookup_alter_eq. Qed.

Lemma updateLog_run id f row s :
  logs s !! id = Some row → updateLog id f s = (written id f [] s, Ok (f row)).
Proof.
  intros Hr. unfold updateLog, written. rewrite Hr, app_nil_r.
  assert (EA : <[id := f row]> (logs s) = alter f id (logs s)); [|rewrite EA; by destruct s].
  apply map_eq. intros k. destruct (decide (k = id)) as [->|Hne].
  - by rewrite lookup_insert_eq, lookup_alter_eq, Hr.
  - by rewrite lookup_insert_ne, lookup_alter_ne.
Qed.

Lemma fuelNote_run ty cid id l s :
  fuelNote ty cid id l s = (written id (λ l, l) [mkNote cid ty (driverOf (fl_vehicleId l) s) id] s, Ok tt).
Proof.
  unfold fuelNote, notify. rewrite gets_bind. unfold modify. f_equal.
  unfold written. rewrite alter_id by done. by destruct s.
Qed.

Lemma written_driver id f ns s v : driverOf v (written id f ns s) = driverOf v s.
Proof. by destruct s. Qed.
Lemma written_threshold id f ns s cid : crossThreshold cid (written id f ns s) = crossThreshold cid s.
Proof. by destruct s. Qed.

Section Detectors.
Context (jm : JsMath) (rm : bool) (osrm : list (num * num) → list num → option (num * num))
  (defaultThreshold : num) (queue : FuelQueue).

Definition scanFor (cid : string) (l : FuelLog) (s : FuelStore) : option TrackScan :=
  scanVehicleTrack jm rm osrm (fl_vehicleId l) cid (rawStart l cid s) (fillDate l) (gpsPositions s).

Lemma mark_run id r row s :
  logs s !! id = Some row → markUncovered id r s = (written id (setCoverage true (Some r)) [] s, Ok tt).
Proof. intros Hr. unfold markUncovered. by rewrite (bind_step _ _ _ _ _ (updateLog_run _ _ _ _ Hr)). Qed.

Lemma mark_note_run cid id r l row s :
  logs s !! id = Some row →
  (markUncovered id r ;; fuelNote fuel_gps_coverage_missing cid id l) s =
  (written id (setCoverage true (Some r)) [mkNote cid fuel_gps_coverage_missing (driverOf (fl_vehicleId l) s) id] s, Ok tt).
Proof.
  intros Hr. rewrite (bind_step _ _ _ _ _ (mark_run _ _ _ _ Hr)), fuelNote_run, written_written, written_driver. done.
Qed.

Lemma flagGps_run cid id l r row s :
  logs s !! id = Some row →
  flagGps cid id l r s =
  (written id (setAnomaly true (Some r)) [mkNote cid fuel_anomaly (driverOf (fl_vehicleId l) s) id] s, Ok tt).
Proof.
  intros Hr. unfold flagGps. rewrite (bind_step _ _ _ _ _ (updateLog_run _ _ _ _ Hr)), fuelNote_run,
    written_written, written_driver. done.
Qed.

(** The check is its verdict, written to the row and announced. *)
Lemma crossCheckLocked_run cid id l row scan s :
  logs s !! id = Some row → scanFor cid l s = Some scan →
  let v := verdictOf l scan (rawStart l cid s) (crossThreshold cid s) in
  crossCheckLocked jm rm osrm cid id l s
  = (written id (settle l v) (announcements cid id (driverOf (fl_vehicleId l) s) l v) s, Ok tt).
Proof.
  intros Hr HS. cbv zeta. unfold crossCheckLocked. rewrite gets_bind. cbv zeta. rewrite gets_bind.
  unfold scanFor in HS. rewrite HS. unfold verdictOf, noisy.
  fold (uncovered l scan (rawStart l cid s)). fold (motionless scan). fold (tooShort l). fold (ratioOf l scan).
  destruct (isStationaryNoise _ _ _); [|destruct (uncovered _ _ _); [|destruct (motionless scan)]].
  1-3: cbv zeta; unfold announcements; destruct (gpsCoverageInsufficientFlag l) eqn:EF;
    [rewrite (written_ext _ (settle l _) (λ l, l) _ _ _ Hr) by (unfold settle; rewrite EF; reflexivity);
     by rewrite written_nil
    |rewrite (written_ext _ (settle l _) (setCoverage true (Some _)) _ _ _ Hr)
       by (unfold settle; rewrite EF; reflexivity)].
  - by apply (mark_run _ _ row).
  - by apply (mark_note_run _ _ _ _ row).
  - by apply (mark_note_run _ _ _ _ row).
  - set (clear := if gpsCoverageInsufficientFlag l then setCoverage false None else λ l, l).
    assert (HC : (if gpsCoverageInsufficientFlag l
        then updateLog id (λ l, l <| gpsCoverageInsufficientFlag := false |>
                                  <| gpsCoverageInsufficientReason := None |>) ;; mret tt
        else mret tt : M FuelStore unit) s = (written id clear [] s, Ok tt)).
    { unfold clear. destruct (gpsCoverageInsufficientFlag l); [|by rewrite written_nil].
      by rewrite (bind_step _ _ _ _ _ (updateLog_run _ _ _ _ Hr)). }
    rewrite (bind_step _ _ _ _ _ HC). cbv zeta. rewrite gets_bind, written_threshold. clear HC.
    assert (Hr' : logs (written id clear [] s) !! id = Some (clear row)) by (by rewrite written_lookup, Hr).
    assert (ES : ∀ v, settle l v row = match v with
        | Unverifiable r _ => settle l v row | TooShort => clear row
        | Accused r => setAnomaly true (Some r) (clear row)
        | Agrees => if gpsAnomalyFlag l then setAnomaly false None (clear row) else clear row end).
    { intros []; unfold settle, clear; by destruct (gpsCoverageInsufficientFlag l). }
    destruct (tooShort l); [|destruct (num_ltb (crossThreshold cid s) _); [|destruct (num_ltb (ratioOf l scan) _)]].
    + by rewrite (written_ext _ (settle l TooShort) clear _ _ _ Hr (ES TooShort)).
    + rewrite (flagGps_run _ _ _ _ _ _ Hr'), written_written, written_driver.
      by rewrite (written_ext _ (settle l (Accused _)) (λ r, setAnomaly true (Some _) (clear r)) _ _ _ Hr (ES (Accused _))).
    + rewrite (flagGps_run _ _ _ _ _ _ Hr'), written_written, written_driver.
      by rewrite (written_ext _ (settle l (Accused _)) (λ r, setAnomaly true (Some _) (clear r)) _ _ _ Hr (ES (Accused _))).
    + destruct (gpsAnomalyFlag l) eqn:EA.
      * rewrite (bind_step _ _ _ _ _ (updateLog_run _ _ _ _ Hr')), written_written.
        rewrite (written_ext _ (settle l Agrees) (λ r, setAnomaly false None (clear r)) _ _ _ Hr); [done|].
        rewrite (ES Agrees). by rewrite ?EA.
      * rewrite (written_ext _ (settle l Agrees) clear _ _ _ Hr); [done|]. rewrite (ES Agrees). by rewrite ?EA.
Qed.
(** ** The check of a stored log *)

(** The positions cannot contradict the declared kilometres. *)
Definition unverifiable (l : FuelLog) (scan : TrackScan) (from : Z) : bool :=
  noisy scan || uncovered l scan from || motionless scan.

(** The declared kilometres are out of proportion to the measured ones. *)
Definition outOfTolerance (threshold ratio : num) : bool :=
  num_ltb threshold ratio || num_ltb ratio (num_div (num_of_Z 1) threshold).

(** Everything but the four columns of the GPS check. *)
Definition sameButGps (l l' : FuelLog) : Prop :=
  fl_companyId l' = fl_companyId l ∧ fl_vehicleId l' = fl_vehicleId l ∧ liters l' = liters l ∧
  kilometers l' = kilometers l ∧ cost l' = cost l ∧ fillDate l' = fillDate l ∧ notes l' = notes l ∧
  consumptionAnomalyFlag l' = consumptionAnomalyFlag l ∧
  consumptionAnomalyReason l' = consumptionAnomalyReason l ∧
  consumptionDeviationDirection l' = consumptionDeviationDirection l ∧
  calculatedConsumption l' = calculatedConsumption l.

Lemma settle_columns l v row : sameButGps row (settle l v row).
Proof.
  unfold sameButGps, settle, setCoverage, setAnomaly.
  destruct v, (gpsCoverageInsufficientFlag l), (gpsAnomalyFlag l), row; by split_and!.
Qed.

Lemma verdict_flags l scan from threshold :
  let l' := settle l (verdictOf l scan from threshold) l in
  gpsCoverageInsufficientFlag l' = unverifiable l scan from ∧
  gpsAnomalyFlag l' =
    (if unverifiable l scan from || tooShort l then gpsAnomalyFlag l
     else outOfTolerance threshold (ratioOf l scan)).
Proof.
  unfold verdictOf, unverifiable, outOfTolerance. cbv zeta.
  destruct (noisy scan), (uncovered l scan from), (motionless scan), (tooShort l),
    (num_ltb threshold (ratioOf l scan)), (num_ltb (ratioOf l scan) (num_div (num_of_Z 1) threshold));
    unfold settle, setCoverage, setAnomaly;
    destruct (gpsCoverageInsufficientFlag l) eqn:E1, (gpsAnomalyFlag l) eqn:E2;
    destruct l; simpl in *; subst; by split.
Qed.

Lemma verdict_announced cid id user l scan from threshold :
  announcements cid id user l (verdictOf l scan from threshold) =
  if noisy scan then []
  else if unverifiable l scan from
  then (if gpsCoverageInsufficientFlag l then [] else [mkNote cid fuel_gps_coverage_missing user id])
  else if negb (tooShort l) && outOfTolerance threshold (ratioOf l scan)
  then [mkNote cid fuel_anomaly user id] else [].
Proof.
  unfold verdictOf, unverifiable, outOfTolerance. cbv zeta.
  by destruct (noisy scan), (uncovered l scan from), (motionless scan), (tooShort l),
    (num_ltb threshold (ratioOf l scan)), (num_ltb (ratioOf l scan) (num_div (num_of_Z 1) threshold)).
Qed.

Lemma scanFor_total cid l s : distinctInstants (gpsPositions s) → is_Some (scanFor cid l s).
Proof.
  intros HN. unfold scanFor, scanVehicleTrack.
  destruct (scanLoop_pages (fl_vehicleId l) cid (fillDate l) (gpsPositions s) HN jm rm osrm PAGE_SIZE
              (S (length (gpsPositions s))) (rawStart l cid s) startScan) as (pages & _ & _ & ->).
  - unfold PAGE_SIZE. lia.
  - unfold trackRows. rewrite sort_by_perm.
    pose proof (length_filter (λ p, p_vehicleId p = fl_vehicleId l ∧ p_companyId p = cid
      ∧ rawStart l cid s < p_timestamp p ∧ p_timestamp p ≤ fillDate l ∧ p_suspect p = false) (gpsPositions s)). lia.
  - by eexists.
Qed.

Lemma findLog_Some cid id s l : findLog cid id s = Some l → logs s !! id = Some l.
Proof. unfold findLog. intros H. destruct (logs s !! id) as [x|]; [|done]. case_bool_decide; congruence. Qed.

Lemma lock_released id f ns s : id ∉ crossCheckInProgress s →
  releaseCheck id (written id f ns (s <| crossCheckInProgress := {[id]} ∪ crossCheckInProgress s |>)) = written id f ns s.
Proof.
  intros HI. assert (E : ({[id]} ∪ crossCheckInProgress s) ∖ {[id]} = crossCheckInProgress s) by set_solver.
  destruct s as [x1 x2 x3 x4 x5 x6 x7]. unfold releaseCheck, written. cbn in *. by rewrite E.
Qed.

Lemma written_row id f ns s l : logs s !! id = Some l →
  written id f ns s = s <| logs := <[id := f l]> (logs s) |> <| notifications := notifications s ++ ns |>.
Proof.
  intros Hr. unfold written. assert (E : <[id := f l]> (logs s) = alter f id (logs s)); [|by rewrite E].
  apply map_eq. intros k. destruct (decide (k = id)) as [->|Hne].
  - by rewrite lookup_insert_eq, lookup_alter_eq, Hr.
  - by rewrite lookup_insert_ne, lookup_alter_ne.
Qed.

Lemma crossCheck_run cid id l scan s :
  logs s !! id = Some l → scanFor cid l s = Some scan →
  num_ltb zero (kilometers l) = true → id ∉ crossCheckInProgress s →
  let v := verdictOf l scan (rawStart l cid s) (crossThreshold cid s) in
  crossCheckFuelLogWithGps jm rm osrm cid id l s
  = (written id (settle l v) (announcements cid id (driverOf (fl_vehicleId l) s) l v) s, Ok tt).
Proof.
  intros Hr HS HK HI. cbv zeta. unfold crossCheckFuelLogWithGps, acquireCheck. rewrite HK. cbn [negb].
  rewrite bind_run, gets_bind, bool_decide_eq_false_2 by done. rewrite modify_bind. cbn [mret M_ret].
  unfold releasing. cbv zeta. set (s1 := s <| crossCheckInProgress := _ |>).
  assert (E : rawStart l cid s1 = rawStart l cid s ∧ crossThreshold cid s1 = crossThreshold cid s ∧
              driverOf (fl_vehicleId l) s1 = driverOf (fl_vehicleId l) s) by (by destruct s).
  destruct E as (E1 & E2 & E3).
  rewrite (crossCheckLocked_run cid id l l scan s1); [|by destruct s|unfold scanFor; rewrite E1; by destruct s].
  rewrite E1, E2, E3. cbn [fst snd]. f_equal. by apply lock_released.
Qed.

(** ** The two detectors together *)

Lemma maxOf_spec l : match maxOf l with Some m => m ∈ l ∧ Forall (λ x, x ≤ m) l | None => l = [] end.
Proof.
  unfold maxOf. induction l as [|x l IH] using rev_ind; [done|]. rewrite foldl_app. simpl.
  destruct (foldl _ _ l) as [m|] eqn:E.
  - destruct IH as [H1 H2]. split.
    + rewrite elem_of_app, list_elem_of_singleton. destruct (Z.max_spec m x) as [[? ->]|[? ->]]; auto.
    + apply Forall_app. split; [eapply Forall_impl; [exact H2|]; simpl; lia|]. constructor; [lia|constructor].
  - subst l. simpl. split; [left|]. constructor; [lia|constructor].
Qed.

Lemma maxOf_ext l l' : (∀ x, x ∈ l ↔ x ∈ l') → maxOf l = maxOf l'.
Proof.
  intros H. pose proof (maxOf_spec l) as S1. pose proof (maxOf_spec l') as S2.
  destruct (maxOf l) as [m|], (maxOf l') as [m'|].
  - destruct S1 as [I1 F1], S2 as [I2 F2]. rewrite Forall_forall in F1, F2.
    f_equal. apply H, F2 in I1. apply H, F1 in I2. lia.
  - destruct S1 as [I1 _]. subst l'. apply H in I1. by apply not_elem_of_nil in I1.
  - destruct S2 as [I2 _]. subst l. apply H in I2. by apply not_elem_of_nil in I2.
  - done.
Qed.

(** A change of a log that keeps its vehicle, company and date. *)
Definition keepsFill (f : FuelLog → FuelLog) : Prop := ∀ l,
  fl_vehicleId (f l) = fl_vehicleId l ∧ fl_companyId (f l) = fl_companyId l ∧ fillDate (f l) = fillDate l.

Lemma written_rawStart id f ns s cid l : keepsFill f → rawStart l cid (written id f ns s) = rawStart l cid s.
Proof.
  intros HK.
  assert (EP : previousFill l cid (written id f ns s) = previousFill l cid s).
  { unfold previousFill. apply maxOf_ext. intros x.
    replace (logs (written id f ns s)) with (alter f id (logs s)) by (by destruct s).
    rewrite !list_elem_of_fmap. split.
    - intros ((k & y) & -> & Hk). apply elem_of_find_many in Hk as [Hk HP].
      rewrite lookup_alter_Some in Hk. destruct Hk as [(<- & y0 & Hk & ->)|[Hne Hk]].
      + destruct (HK y0) as (E1 & E2 & E3). exists (id, y0). split; [done|]. apply elem_of_find_many.
        split; [done|]. by rewrite <- E1, <- E2, <- E3.
      + exists (k, y). split; [done|]. by apply elem_of_find_many.
    - intros ((k & y) & -> & Hk). apply elem_of_find_many in Hk as [Hk HP].
      destruct (decide (k = id)) as [->|Hne].
      + destruct (HK y) as (E1 & E2 & E3). exists (id, f y). split; [done|]. apply elem_of_find_many.
        rewrite lookup_alter_eq, Hk. split; [done|]. by rewrite E1, E2, E3.
      + exists (k, y). split; [done|]. apply elem_of_find_many. by rewrite lookup_alter_ne. }
  unfold rawStart. rewrite EP. by destruct s.
Qed.

Lemma written_scan id f ns s cid l : keepsFill f → scanFor cid l (written id f ns s) = scanFor cid l s.
Proof. intros HK. unfold scanFor. rewrite written_rawStart by done. by destruct s. Qed.

(** What the analysis of the consumption writes, from the row it reads. *)
Definition analysed (s : FuelStore) (cid : string) (l : FuelLog) : option (FuelReason * DeviationDirection) :=
  let reference := referenceOf (fuelVehicles s !! fl_vehicleId l) in
  let threshold := default defaultThreshold (fuelSettings s !! cid ≫= anomalyThreshold) in
  match consumptionOf l with
  | Some c =>
      let deviation := deviationFrom reference c in
      if num_ltb threshold deviation
      then Some (Consumption c deviation reference threshold, if num_ltb reference c then over else under)
      else None
  | None => None
  end.

Definition setConsumption (c : option num) (v : option (FuelReason * DeviationDirection)) (l : FuelLog) : FuelLog :=
  l <| calculatedConsumption := c |>
    <| consumptionAnomalyFlag := bool_decide (is_Some v) |>
    <| consumptionAnomalyReason := fst <$> v |>
    <| consumptionDeviationDirection := snd <$> v |>.

Lemma analysis_run cid id l s :
  findLog cid id s = Some l →
  processFuelLogAnalysis defaultThreshold id cid s =
  (written id (setConsumption (consumptionOf l) (analysed s cid l))
     (match analysed s cid l with
      | Some _ => [mkNote cid fuel_anomaly (driverOf (fl_vehicleId l) s) id]
      | None => [] end) s, Ok tt).
Proof.
  intros HL. unfold processFuelLogAnalysis. rewrite gets_bind, gets_bind, HL, gets_bind. cbv zeta.
  fold (analysed s cid l).
  rewrite (bind_step _ _ _ _ _ (updateLog_run _ _ _ _ (findLog_Some _ _ _ _ HL))).
  destruct (analysed s cid l); [|done].
  by rewrite fuelNote_run, written_written, written_driver.
Qed.

Lemma settle_setConsumption l v c w row :
  settle l v (setConsumption c w row) = setConsumption c w (settle l v row).
Proof.
  unfold settle, setCoverage, setAnomaly, setConsumption.
  by destruct v, (gpsCoverageInsufficientFlag l), (gpsAnomalyFlag l), row.
Qed.

(** The analysis of the consumption and the GPS check of one log, on whatever
    copy of it the check works, leave the same logs in either order: neither
    undoes what the other wrote. *)
Theorem detectors_commute cid id l row s :
  distinctInstants (gpsPositions s) → findLog cid id s = Some row →
  let check := crossCheckLocked jm rm osrm cid id l in
  let analysis := processFuelLogAnalysis defaultThreshold id cid in
  logs (check (analysis s).1).1 = logs (analysis (check s).1).1 ∧
  notifications (check (analysis s).1).1 ≡ₚ notifications (analysis (check s).1).1.
Proof.
  intros HN HL. cbv zeta. destruct (scanFor_total cid l s HN) as [scan HS].
  pose proof (findLog_Some _ _ _ _ HL) as Hr.
  rewrite (analysis_run cid id row s HL). rewrite (crossCheckLocked_run cid id l row scan s Hr HS).
  cbn [fst]. set (v := verdictOf l scan (rawStart l cid s) (crossThreshold cid s)).
  set (f := setConsumption _ _). set (ns := match analysed s cid row with Some _ => _ | None => _ end).
  set (ms := announcements _ _ _ _ v). set (g := settle l v).
  assert (Kf : keepsFill f) by (intros x; destruct x; by split_and!).
  rewrite (crossCheckLocked_run cid id l (f row) scan (written id f ns s));
    [|by rewrite written_lookup, Hr|by rewrite written_scan].
  rewrite written_rawStart, written_threshold, written_driver by done. fold v ms g.
  destruct (settle_columns l v row) as (C1 & C2 & C3 & C4 & _). fold g in C1, C2, C3, C4.
  rewrite (analysis_run cid id (g row) (written id g ms s)).
  2: { unfold findLog in *. rewrite written_lookup, Hr. simpl. rewrite Hr in HL. rewrite C1. by case_bool_decide. }
  assert (EA : analysed (written id g ms s) cid (g row) = analysed s cid row).
  { unfold analysed, consumptionOf. rewrite C2, C3, C4. by destruct s. }
  assert (EC : consumptionOf (g row) = consumptionOf row) by (unfold consumptionOf; by rewrite C3, C4).
  rewrite EA, EC, C2, written_driver. fold f ns. cbn [fst]. rewrite !written_written. split.
  - transitivity (logs (written id (λ x, f (g x)) (ns ++ ms) s)); [|by destruct s].
    f_equal. apply (written_ext _ _ _ _ _ row Hr). apply settle_setConsumption.
  - destruct s. cbn. by rewrite (Permutation_app_comm ns ms).
Qed.
End Detectors.

(** ** A fill *)

Definition logOf (declared : Z) : FuelLog :=
  mkLog "c1" "v1" (num_of_Z 20) (num_of_Z declared) (num_of_Z 98000) 720000 None
    false None None false None false None None.
Definition oneFill (declared : Z) (ps : list GpsPosition) : FuelStore :=
  mkFuel {["f1" := logOf declared]} {["v1" := mkFuelVehicle "c1" None (Some (num_of_Z 10)) (Some "u1")]}
    ∅ ps [] [] ∅.
Definition checkF1 : M FuelStore unit := runGpsCrossCheckForLog coarseMath false (λ _ _, None) "f1" "c1".


(** A vehicle whose only position opens the period is told to have none: the
    period begins at that position and the scan after it. *)
Lemma first_fix_not_scanned :
  let s' := (checkF1 (oneFill 100 [fixAt 120000 100])).1 in
  (gpsCoverageInsufficientReason <$> logs s' !! "f1") = Some (Some (NoPosition 120000 720000 (num_of_Z 100))).
Proof. by vm_compute. Qed.

(** A correction during a check: it is stored, its own check finds the lock
    taken, and the running check then accuses the corrected log of the
    kilometres it declared before. *)
Lemma correction_judged_by_old_figure :
  let l := logOf 5000 in
  let locked := (acquireCheck "f1" l (oneFill 5000 drive)).1 in
  let dto := mkUpdateLog None (Some (num_of_Z 4)) None None None None in
  let corrected := (updateFuelLog coarseMath false (λ _ _, None) NoQueue "c1" "f1" dto locked).1 in
  let s' := releaseCheck "f1" (crossCheckLocked coarseMath false (λ _ _, None) "c1" "f1" l corrected).1 in
  (kilometers <$> logs s' !! "f1") = Some (num_of_Z 4) ∧
  (gpsAnomalyFlag <$> logs s' !! "f1") = Some true ∧
  (gpsAnomalyFlag <$> logs (checkF1 (oneFill 4 drive)).1 !! "f1") = Some false.
Proof. by vm_compute. Qed.

(** A correction resets the flag and the reason of the consumption, not its
    direction, which stays until the queue analyses the log again. *)
Lemma direction_outlives_its_flag :
  let s := (processFuelLogAnalysis (num_of_Z 15) "f1" "c1" (oneFill 100 [])).1 in
  let dto := mkUpdateLog None (Some (num_of_Z 200)) None None None None in
  let l' := logs (updateFuelLog coarseMath false (λ _ _, None) NoQueue "c1" "f1" dto s).1 !! "f1" in
  (consumptionAnomalyFlag <$> l') = Some false ∧ (consumptionDeviationDirection <$> l') = Some (Some over).
Proof. by vm_compute. Qed.
