(* ===== verification/Notifications.v ===== *)
(** * Notifications, alerts and digests

    NotificationsService (modules/notifications/notifications.service.ts),
    AlertsService (modules/alerts/alerts.service.ts) and DigestService
    (modules/digest/digest.service.ts), which share the table notifications.
    Rows are kept in the order of their creation.  The e-mail of a critical
    notification is not awaited: it is a call kept in [pendingMails], run later by
    [sendCriticalEmail].  EmailService.send never throws. *)

From S2P Require Import Prelude JsString JsDate Redis.

#[local] Open Scope string_scope.
#[local] Open Scope list_scope.
#[local] Open Scope Z_scope.

Inductive NotificationType :=
  | delivery_status | fuel_anomaly | fuel_gps_coverage_missing | maintenance_due | system_
  | speed_alert | prolonged_stop | delay_alert | device_offline | geofence_event | location_mismatch.
#[export] Instance NotificationType_eq_dec : EqDecision NotificationType.
Proof. solve_decision. Defined.

Inductive NotificationPriority := low | medium | high | critical.
#[export] Instance NotificationPriority_eq_dec : EqDecision NotificationPriority.
Proof. solve_decision. Defined.

Record Notification := mkNotification {
  nt_id : string;
  nt_companyId : string;
  nt_type : NotificationType;
  nt_priority : NotificationPriority;
  nt_title : string;
  nt_message : string;
  nt_link : option string;
  nt_userId : option string;
  nt_deliveryId : option string;
  nt_digestOnly : bool;
  nt_digestSentAt : option Z;
  nt_readAt : option Z;
  nt_createdAt : Z;
  nt_resolved : bool;
  nt_resolvedAt : option Z;
  nt_resolvedById : option string;
  nt_resolutionComment : option string
}.

(** The argument of [create]. *)
Record NotificationData := mkNotificationData {
  d_type : NotificationType;
  d_priority : NotificationPriority;
  d_title : string;
  d_message : string;
  d_link : option string;
  d_userId : option string;
  d_deliveryId : option string;
  d_digestOnly : option bool
}.

(** The columns of a user that are read here. *)
Record Member := mkMember {
  mb_companyId : string;
  mb_email : string;
  mb_staff : bool;  (** admin or dispatcher *)
  mb_isActive : bool
}.

(** What the digest of a company reports about its notifications. *)
Record DigestCounts := mkDigestCounts {
  dg_critical : list Notification;
  dg_high : list Notification;
  dg_medium : list Notification;
  dg_low : list Notification;
  dg_total : Z
}.

Inductive MailText := Urgent (subject html : string) | Digest (counts : DigestCounts).

Record NoticeStore := mkNotices {
  rows : list Notification;
  created : nat;  (** rows ever created: the next [@default(uuid())] *)
  emitted : list (string * Notification);  (** room, payload of 'notification' *)
  pendingMails : list (string * Notification * NotificationData);
  mails : list (string * MailText);
  members : gmap string Member;
  assignedDrivers : gmap string string;  (** delivery.assignedDriverId, a user *)
  companies : list string;
  noticeRedis : RedisDb
}.

Record NoticeEnv := mkNoticeEnv {
  uuid : nat → string;
  nt_now : Z;
  serverUp : bool;  (** [gateway.server]: undefined in the worker process *)
  mailUrl : string;  (** [emailService['appUrl'] || ...] *)
  redisLink : RedisLink;
  instance : string
}.

Definition update_rows (P : Notification → bool) (f : Notification → Notification) : M NoticeStore Z := λ s,
  (s <| rows := map (λ n, if P n then f n else n) (rows s) |>,
   Ok (Z.of_nat (length (filter (λ n, P n = true) (rows s))))).
Definition delete_rows (P : Notification → bool) : M NoticeStore Z := λ s,
  (s <| rows := filter (λ n, P n = false) (rows s) |>,
   Ok (Z.of_nat (length (filter (λ n, P n = true) (rows s))))).
Definition rows_where (P : Notification → bool) (s : NoticeStore) : list Notification :=
  filter (λ n, P n = true) (rows s).
Definition row_of (id : string) (s : NoticeStore) : option Notification :=
  head (rows_where (λ n, bool_decide (nt_id n = id)) s).
Definition newestFirst : list Notification → list Notification := sort_by (λ n, - nt_createdAt n).

(** [{ companyId, ...(userId ? { OR: [{ userId }, { userId: null }] } : {}) }] *)
Definition visible (cid : string) (userId : option string) (n : Notification) : bool :=
  bool_decide (nt_companyId n = cid)
  && (negb (truthy userId) || bool_decide (nt_userId n = userId) || bool_decide (nt_userId n = None)).

Section NotificationsService.
Context (env : NoticeEnv).

(** [findAll] of notifications.service.ts; [limit] has been through normalizePagination. *)
Definition findAll (cid : string) (userId : option string) (limit : Z) (s : NoticeStore) : list Notification :=
  take (Z.to_nat limit) (newestFirst (rows_where (visible cid userId) s)).

(** The answer of [markRead] and [remove] when nothing matched. *)
Definition noMatch (id : string) : M NoticeStore Z :=
  existing ← gets (row_of id);
  match existing with
  | Some _ => throw (ForbiddenException "Notification belongs to another user")
  | None => throw (NotFoundException "Notification not found")
  end.

Definition markRead (id cid : string) (userId : option string) : M NoticeStore Z :=
  count ← update_rows (λ n, bool_decide (nt_id n = id) && visible cid userId n)
            (λ n, n <| nt_readAt := Some (nt_now env) |>);
  if count =? 0 then noMatch id else mret count.

Definition markAllRead (cid : string) (userId : option string) : M NoticeStore Z :=
  update_rows (λ n, visible cid userId n && bool_decide (nt_readAt n = None))
    (λ n, n <| nt_readAt := Some (nt_now env) |>).

Definition remove (id cid : string) (userId : option string) : M NoticeStore Z :=
  count ← delete_rows (λ n, bool_decide (nt_id n = id) && visible cid userId n);
  if count =? 0 then noMatch id else mret count.

Definition removeAll (cid : string) (userId : option string) : M NoticeStore Z :=
  delete_rows (visible cid userId).

Definition countUnread (cid : string) (userId : option string) (s : NoticeStore) : Z :=
  Z.of_nat (length (rows_where (λ n, visible cid userId n && bool_decide (nt_readAt n = None)) s)).

Definition newRow (cid : string) (data : NotificationData) (k : nat) : Notification :=
  {| nt_id := uuid env k; nt_companyId := cid; nt_type := d_type data; nt_priority := d_priority data;
     nt_title := d_title data; nt_message := d_message data; nt_link := d_link data;
     nt_userId := d_userId data; nt_deliveryId := d_deliveryId data;
     nt_digestOnly := default false (d_digestOnly data); nt_digestSentAt := None; nt_readAt := None;
     nt_createdAt := nt_now env; nt_resolved := false; nt_resolvedAt := None; nt_resolvedById := None;
     nt_resolutionComment := None |}.

Definition shouldSendImmediately (data : NotificationData) : bool :=
  negb (default false (d_digestOnly data))
  && (bool_decide (d_priority data = critical) || bool_decide (d_priority data = high)).

(** [this.gateway.server?.to(room).emit('notification', notification)] *)
Definition emitTo (room : string) (n : Notification) : M NoticeStore unit :=
  modify (λ s, if serverUp env then s <| emitted ::= λ l, l ++ [(room, n)] |> else s).

Definition create (cid : string) (data : NotificationData) : M NoticeStore Notification :=
  k ← gets created;
  let n := newRow cid data k in
  modify (λ s, s <| rows ::= λ l, l ++ [n] |> <| created ::= S |>) ;;
  (if shouldSendImmediately data then
     emitTo ("company:" +:+ cid) n ;;
     (if truthy (d_userId data) then emitTo ("user:" +:+ default "" (d_userId data)) n else mret tt) ;;
     if bool_decide (d_priority data = critical)
     then modify (λ s, s <| pendingMails ::= λ l, l ++ [(cid, n, data)] |>)
     else mret tt
   else mret tt) ;;
  mret n.

End NotificationsService.

(** ** The e-mail of a critical notification *)

Definition escapeChar (c : ascii) : string :=
  if Ascii.eqb c "&"%char then "&amp;"
  else if Ascii.eqb c "<"%char then "&lt;"
  else if Ascii.eqb c ">"%char then "&gt;"
  else if Nat.eqb (nat_of_ascii c) 34 then "&quot;"
  else if Nat.eqb (nat_of_ascii c) 39 then "&#39;"
  else String c "".

(** [escapeHtml]: the five replacements, in one pass since '&' is replaced first. *)
Fixpoint escapeHtml (s : string) : string :=
  match s with
  | "" => ""
  | String c s' => escapeChar c +:+ escapeHtml s'
  end.

Definition attribute (name value : string) : string := " " +:+ name +:+ "=" +:+ quoted value.
Definition styled (tag style text : string) : string :=
  "<" +:+ tag +:+ attribute "style" style +:+ ">" +:+ text +:+ "</" +:+ tag +:+ ">".

Definition criticalHtml (appUrl : string) (n : Notification) : string :=
  "
      <div" +:+ attribute "style" "font-family:sans-serif;max-width:480px;margin:0 auto;padding:24px" +:+ ">
        " +:+ styled "h2" "color:#111827" (escapeHtml (nt_title n)) +:+ "
        " +:+ styled "p" "color:#6b7280;line-height:1.5" (escapeHtml (nt_message n)) +:+ "
        " +:+ (if truthy (escapeHtml <$> (if truthy (nt_link n) then nt_link n else None))
               then "<a" +:+ attribute "href" (appUrl +:+ escapeHtml (default "" (nt_link n)))
                    +:+ attribute "style" "display:inline-block;padding:12px 24px;background:#dc2626;color:#fff;text-decoration:none;border-radius:8px;font-weight:600;margin:16px 0"
                    +:+ ">Voir les détails</a>"
               else "") +:+ "
      </div>".

(** [sendCriticalEmail], when its turn comes. *)
Definition sendCriticalEmail (env : NoticeEnv) (cid : string) (n : Notification) (data : NotificationData)
    (s : NoticeStore) : NoticeStore :=
  let mail e := (e, Urgent ("[URGENT] " +:+ nt_title n) (criticalHtml (mailUrl env) n)) in
  let targetEmail := if truthy (d_userId data) then mb_email <$> members s !! default "" (d_userId data) else None in
  if truthy targetEmail then s <| mails ::= λ l, l ++ [mail (default "" targetEmail)] |>
  else if negb (truthy (d_userId data)) then
    let admins := find_many (λ _ u, bool_decide (mb_companyId u = cid) && mb_staff u && mb_isActive u) (members s) in
    s <| mails ::= λ l, l ++ map (λ u, mail (mb_email u.2))
                              (filter (λ u, String.eqb (mb_email u.2) "" = false) admins) |>
  else s.

(** One pending call runs. *)
Definition runPendingMail (env : NoticeEnv) (s : NoticeStore) : NoticeStore :=
  match pendingMails s with
  | [] => s
  | (cid, n, data) :: rest => sendCriticalEmail env cid n data (s <| pendingMails := rest |>)
  end.

(** ** Purge *)

Definition days (k : Z) : Z := k * 24 * 60 * 60 * 1000.

Definition before (cutoff : Z) (t : option Z) : bool :=
  match t with Some x => x <? cutoff | None => false end.

(** A scheduled task under its lock. *)
Definition underCronLock (env : NoticeEnv) (name : string) (m : M NoticeStore unit) : M NoticeStore unit := λ s,
  let '(db, got) := acquireCronLock (redisLink env) (instance env) name 3600 (nt_now env) (noticeRedis s) in
  let s := s <| noticeRedis := db |> in
  if got then m s else (s, Ok tt).

Definition purgeOldReadNotifications (env : NoticeEnv) : M NoticeStore unit :=
  underCronLock env "notifications.purgeOldRead"
    (let cutoff := nt_now env - days 90 in
     _ ← delete_rows (λ n, before cutoff (nt_readAt n) || before cutoff (nt_resolvedAt n)); mret tt).

(** ** AlertsService *)

Inductive Period := Today | Week | Month | All.

(** The start of the period; [None] for none and 'all'. *)
Definition periodStart (now : Z) (p : option Period) : option Z :=
  match p with
  | Some Today => Some (MakeDate (Day now) 0)
  | Some Week => Some (now - 7 * 24 * 60 * 60 * 1000)
  | Some Month => Some (now - 30 * 24 * 60 * 60 * 1000)
  | Some All | None => None
  end.
Definition since (now : Z) (p : option Period) (n : Notification) : bool :=
  match periodStart now p with Some t => t <=? nt_createdAt n | None => true end.

Record AlertsQuery := mkAlertsQuery {
  q_page : option Z;
  q_limit : option Z;
  q_types : list NotificationType;
  q_priorities : list NotificationPriority;
  q_resolved : option bool;
  q_deliveryId : option string;
  q_period : option Period
}.

Definition alertWhere (now : Z) (cid : string) (q : AlertsQuery) (driverUserId : option string) (s : NoticeStore)
    (n : Notification) : bool :=
  bool_decide (nt_companyId n = cid)
  && (negb (truthy driverUserId) || bool_decide (nt_userId n = driverUserId)
      || bool_decide (nt_deliveryId n ≫= (λ d, assignedDrivers s !! d) = driverUserId))
  && (match q_types q with
      | [] => negb (bool_decide (nt_type n = delivery_status))
      | l => bool_decide (nt_type n ∈ l)
      end)
  && (match q_priorities q with [] => true | l => bool_decide (nt_priority n ∈ l) end)
  && (match q_resolved q with Some b => Bool.eqb (nt_resolved n) b | None => true end)
  && (negb (truthy (q_deliveryId q)) || bool_decide (nt_deliveryId n = q_deliveryId q))
  && since now (q_period q) n.

(** [findAll] of alerts.service.ts: the page and the total. *)
Definition findAlerts (now : Z) (cid : string) (q : AlertsQuery) (driverUserId : option string) (s : NoticeStore)
    : list Notification * Z :=
  let page := default 1 (q_page q) in
  let limit := default 20 (q_limit q) in
  let found := newestFirst (rows_where (alertWhere now cid q driverUserId s) s) in
  (take (Z.to_nat limit) (drop (Z.to_nat ((page - 1) * limit)) found), Z.of_nat (length found)).

Definition resolve (env : NoticeEnv) (cid id userId : string) (comment : option string) : M NoticeStore unit :=
  found ← gets (λ s, head (rows_where (λ n, bool_decide (nt_id n = id) && bool_decide (nt_companyId n = cid)) s));
  match found with
  | None => throw (NotFoundException "Notification not found")
  | Some _ =>
      _ ← update_rows (λ n, bool_decide (nt_id n = id))
            (λ n, n <| nt_resolved := true |> <| nt_resolvedAt := Some (nt_now env) |>
                    <| nt_resolvedById := Some userId |> <| nt_resolutionComment := comment |>);
      mret tt
  end.

(** [stats]: the unresolved alerts by priority and type, and the count of the
    period before. *)
Record AlertStats := mkAlertStats {
  st_total : Z;
  st_byPriority : list (NotificationPriority * Z);
  st_byType : list (NotificationType * Z);
  st_prevTotal : option Z
}.

(** [groupBy({ by, _count })]: the groups that are not empty. *)
Definition group_by {K} `{EqDecision K} (key : Notification → K) (l : list Notification) : list (K * Z) :=
  map (λ k, (k, Z.of_nat (length (filter (λ n, key n = k) l)))) (remove_dups (map key l)).

Definition stats (now : Z) (cid : string) (period : option Period) (s : NoticeStore) : AlertStats :=
  let open_ n := bool_decide (nt_companyId n = cid) && negb (nt_resolved n)
                 && negb (bool_decide (nt_type n = delivery_status)) in
  let found := rows_where (λ n, open_ n && since now period n) s in
  let between a b := Some (Z.of_nat (length (rows_where (λ n, open_ n && (a <=? nt_createdAt n)
                                                              && (nt_createdAt n <? b)) s))) in
  {| st_total := Z.of_nat (length found); st_byPriority := group_by nt_priority found;
     st_byType := group_by nt_type found;
     st_prevTotal := match period with
                     | Some Week => between (now - 14 * 24 * 60 * 60 * 1000) (now - 7 * 24 * 60 * 60 * 1000)
                     | Some Month => between (now - 60 * 24 * 60 * 60 * 1000) (now - 30 * 24 * 60 * 60 * 1000)
                     | _ => None
                     end |}.

(** ** DigestService *)

Definition digestible (cid : string) (from : Z) (n : Notification) : bool :=
  bool_decide (nt_companyId n = cid) && (from <=? nt_createdAt n) && bool_decide (nt_digestSentAt n = None)
  && (nt_digestOnly n || bool_decide (nt_priority n = medium) || bool_decide (nt_priority n = low)).

(** [getDigestNotifications], for the whole company. *)
Definition getDigestNotifications (cid : string) (from : Z) (s : NoticeStore) : DigestCounts :=
  let notifications := newestFirst (rows_where (digestible cid from) s) in
  let of_ p := filter (λ n, nt_priority n = p) notifications in
  {| dg_critical := of_ critical; dg_high := of_ high; dg_medium := of_ medium; dg_low := of_ low;
     dg_total := Z.of_nat (length notifications) |}.

Definition digested (c : DigestCounts) : list Notification :=
  dg_critical c ++ dg_high c ++ dg_medium c ++ dg_low c.

(** The body of the loop of [sendDigest]; the figures on deliveries and fuel of
    the e-mail are left out. *)
Definition digestCompany (env : NoticeEnv) (from : Z) (cid : string) : M NoticeStore unit :=
  grouped ← gets (getDigestNotifications cid from);
  modify (λ s, s <| mails ::= λ l, l ++ map (λ u, (mb_email u.2, Digest grouped))
    (find_many (λ _ u, bool_decide (mb_companyId u = cid) && mb_staff u && mb_isActive u) (members s)) |>) ;;
  let ids := map nt_id (digested grouped) in
  if negb (bool_decide (ids = [])) then
    _ ← update_rows (λ n, bool_decide (nt_id n ∈ ids)) (λ n, n <| nt_digestSentAt := Some (nt_now env) |>);
    mret tt
  else mret tt.

Definition sendDigest (env : NoticeEnv) (daysBack : Z) : M NoticeStore unit :=
  let from := nt_now env - days daysBack in
  cs ← gets companies;
  for_each (λ cid, try_catch (digestCompany env from cid) (λ _, mret tt)) cs.

Definition sendWeeklyDigest (env : NoticeEnv) : M NoticeStore unit := underCronLock env "digest.weekly" (sendDigest env 7).
Definition sendDailyDigest (env : NoticeEnv) : M NoticeStore unit := underCronLock env "digest.daily" (sendDigest env 1).
