(* ===== verification/NotificationsProps.v ===== *)
(** * Notifications: isolation, digests, the alerts cleared by anybody *)

From S2P Require Import Prelude JsString JsDate Redis Notifications.

#[local] Open Scope string_scope.
#[local] Open Scope list_scope.
#[local] Open Scope Z_scope.

(** ** Requests *)

(** The operations of the three services that change the table. *)
Inductive NoticeStep :=
  | SMarkRead (id cid : string) (userId : option string)
  | SMarkAllRead (cid : string) (userId : option string)
  | SRemove (id cid : string) (userId : option string)
  | SRemoveAll (cid : string) (userId : option string)
  | SCreate (cid : string) (data : NotificationData)
  | SResolve (cid id userId : string) (comment : option string)
  | SMail
  | SPurge
  | SDaily
  | SWeekly.

Definition noticeStep (env : NoticeEnv) (q : NoticeStep) : M NoticeStore unit :=
  match q with
  | SMarkRead id cid u => _ ← markRead env id cid u; mret tt
  | SMarkAllRead cid u => _ ← markAllRead env cid u; mret tt
  | SRemove id cid u => _ ← remove id cid u; mret tt
  | SRemoveAll cid u => _ ← removeAll cid u; mret tt
  | SCreate cid data => _ ← create env cid data; mret tt
  | SResolve cid id u comment => resolve env cid id u comment
  | SMail => modify (runPendingMail env)
  | SPurge => purgeOldReadNotifications env
  | SDaily => sendDailyDigest env
  | SWeekly => sendWeeklyDigest env
  end.

(** The company and user a request speaks for. *)
Definition speaker (q : NoticeStep) : option (string * option string) :=
  match q with
  | SMarkRead _ cid u | SMarkAllRead cid u | SRemove _ cid u | SRemoveAll cid u => Some (cid, u)
  | SResolve cid _ _ _ => Some (cid, None)
  | _ => None
  end.

Section Rows.
Implicit Types (P Q : Notification → bool) (l : list Notification).

Lemma filter_map_outside P Q (f : Notification → Notification) l :
  (∀ n, n ∈ l → P n = true → Q n = false ∧ Q (f n) = false) →
  filter (λ n, Q n = true) (map (λ n, if P n then f n else n) l) = filter (λ n, Q n = true) l.
Proof.
  induction l as [|n l IH]; intros H; [done|]. cbn [map]. rewrite !filter_cons.
  specialize (IH (λ m Hm, H m (proj2 (elem_of_cons _ _ _) (or_intror Hm)))).
  destruct (P n) eqn:E; [|case_decide; [f_equal|]; exact IH].
  destruct (H n) as [H1 H2]; [left|done|]. rewrite !decide_False by congruence. done.
Qed.

Lemma filter_delete_outside P Q l :
  (∀ n, P n = true → Q n = false) →
  filter (λ n, Q n = true) (filter (λ n, P n = false) l) = filter (λ n, Q n = true) l.
Proof.
  intros H. rewrite list_filter_filter. apply list_filter_iff. intros n. split; [intros [? ?]; tauto|].
  intros HQ. split; [done|]. destruct (P n) eqn:E; [|done]. by rewrite (H n E) in HQ.
Qed.

End Rows.

Lemma store_same_rows s : s <| rows := rows s |> = s.
Proof. by destruct s. Qed.

Definition updated (P : Notification → bool) (f : Notification → Notification) (s : NoticeStore) : NoticeStore :=
  s <| rows := map (λ n, if P n then f n else n) (rows s) |>.
Definition deleted (P : Notification → bool) (s : NoticeStore) : NoticeStore :=
  s <| rows := filter (λ n, P n = false) (rows s) |>.

Lemma update_rows_run P f s : update_rows P f s = (updated P f s, Ok (Z.of_nat (length (rows_where P s)))).
Proof. done. Qed.
Lemma delete_rows_run P s : delete_rows P s = (deleted P s, Ok (Z.of_nat (length (rows_where P s)))).
Proof. done. Qed.

Lemma rows_where_nil P s : rows_where P s = [] → ∀ n, n ∈ rows s → P n = false.
Proof.
  intros H n Hn. destruct (P n) eqn:E; [|done]. exfalso.
  apply (not_elem_of_nil n). rewrite <- H. by apply list_elem_of_filter.
Qed.

Lemma updated_none P f s : rows_where P s = [] → updated P f s = s.
Proof.
  intros H. pose proof (rows_where_nil P s H) as HP. unfold updated.
  assert (E : map (λ n, if P n then f n else n) (rows s) = rows s).
  { clear H. induction (rows s) as [|n l IH]; [done|]. cbn [map].
    rewrite HP by left. f_equal. apply IH. intros m Hm. apply HP. by right. }
  rewrite E. apply store_same_rows.
Qed.
Lemma deleted_none P s : rows_where P s = [] → deleted P s = s.
Proof.
  intros H. unfold deleted. rewrite filter_all; [apply store_same_rows|].
  apply Forall_forall, (rows_where_nil P s H).
Qed.

Lemma noMatch_throws id s : ∃ e, noMatch id s = (s, Throw e).
Proof. unfold noMatch. rewrite gets_bind. case_match; eauto. Qed.

(** The shape shared by [markRead] and [remove]. *)
Lemma counted_run id P (m : M NoticeStore Z) (s' s : NoticeStore) :
  m s = (s', Ok (Z.of_nat (length (rows_where P s)))) → (rows_where P s = [] → s' = s) →
  ((count ← m; if count =? 0 then noMatch id else mret count) s
   = (s', Ok (Z.of_nat (length (rows_where P s)))) ∧ rows_where P s ≠ [])
  ∨ (rows_where P s = []
     ∧ ∃ e, (count ← m; if count =? 0 then noMatch id else mret count) s = (s, Throw e)).
Proof.
  intros Hm HN. rewrite bind_run, Hm. cbv beta iota. destruct (rows_where P s) as [|n l]; [right|left].
  - rewrite HN by done. split; [done|apply noMatch_throws].
  - rewrite (proj2 (Z.eqb_neq _ _)) by (cbn [length]; lia). done.
Qed.

Definition aimedAt (id cid : string) (u : option string) (n : Notification) : bool :=
  bool_decide (nt_id n = id) && visible cid u n.

Lemma markRead_run env id cid u s :
  let P := aimedAt id cid u in
  (markRead env id cid u s = (updated P (λ n, n <| nt_readAt := Some (nt_now env) |>) s,
                              Ok (Z.of_nat (length (rows_where P s)))) ∧ rows_where P s ≠ [])
  ∨ (rows_where P s = [] ∧ ∃ e, markRead env id cid u s = (s, Throw e)).
Proof.
  intros P. unfold markRead. refine (counted_run id P _ _ s (update_rows_run _ _ s) _). apply updated_none.
Qed.

Lemma remove_run id cid u s :
  let P := aimedAt id cid u in
  (remove id cid u s = (deleted P s, Ok (Z.of_nat (length (rows_where P s)))) ∧ rows_where P s ≠ [])
  ∨ (rows_where P s = [] ∧ ∃ e, remove id cid u s = (s, Throw e)).
Proof.
  intros P. unfold remove. refine (counted_run id P _ _ s (delete_rows_run _ s) _). apply deleted_none.
Qed.

(** ** Ids and digests, along any run *)

(** The ids the digests sent to an address reported. *)
Definition reported (e : string) (l : list (string * MailText)) : list string :=
  l ≫= λ m, match m with
            | (to, Digest c) => if bool_decide (to = e) then map nt_id (digested c) else []
            | _ => []
            end.

Lemma reported_app e l1 l2 : reported e (l1 ++ l2) = reported e l1 ++ reported e l2.
Proof. apply bind_app. Qed.

(** A notification that [create] did not push. *)
Definition unpushed (n : Notification) : Prop :=
  nt_digestOnly n = true ∨ nt_priority n = medium ∨ nt_priority n = low.

Definition emails_unique (t : gmap string Member) : Prop :=
  ∀ k1 k2 m1 m2, t !! k1 = Some m1 → t !! k2 = Some m2 → mb_email m1 = mb_email m2 → k1 = k2.

Section Invariant.
Context (U : nat → string).

Record noticesOk (s : NoticeStore) : Prop := {
  ok_ids : NoDup (nt_id <$> rows s);
  ok_issued : ∀ n, n ∈ rows s → ∃ k, (k < created s)%nat ∧ nt_id n = U k;
  ok_once : ∀ e, NoDup (reported e (mails s));
  ok_reported : ∀ e id, id ∈ reported e (mails s) →
    (∃ k, (k < created s)%nat ∧ id = U k) ∧ ∀ n, n ∈ rows s → nt_id n = id → nt_digestSentAt n ≠ None;
  ok_unpushed : ∀ e c, (e, Digest c) ∈ mails s → Forall unpushed (digested c);
  ok_emails : emails_unique (members s)
}.

Definition keeps_ok (s s' : NoticeStore) : Prop := noticesOk s → noticesOk s'.
#[local] Instance keeps_ok_preorder : PreOrder keeps_ok.
Proof. split; unfold keeps_ok; [by intros s|intros s1 s2 s3; auto]. Qed.

Lemma updated_ok P f s :
  (∀ n, nt_id (f n) = nt_id n) → (∀ n, nt_digestSentAt n ≠ None → nt_digestSentAt (f n) ≠ None) →
  keeps_ok s (updated P f s).
Proof.
  intros Hid Hsent HI.
  assert (Hin : ∀ n', n' ∈ rows (updated P f s) → ∃ n, n ∈ rows s ∧ nt_id n' = nt_id n
    ∧ (nt_digestSentAt n ≠ None → nt_digestSentAt n' ≠ None)).
  { intros n' Hn'. apply list_elem_of_In, in_map_iff in Hn' as (n & <- & Hn%list_elem_of_In). exists n.
    split; [done|]. destruct (P n); auto. }
  constructor; [|intros n' Hn'|apply (ok_once _ HI)|intros e id Hr|apply (ok_unpushed _ HI)|apply (ok_emails _ HI)].
  - assert (nt_id <$> rows (updated P f s) = nt_id <$> rows s) as ->; [|apply (ok_ids _ HI)].
    cbn. rewrite <- list_fmap_compose. apply list_fmap_ext. intros i n _. unfold compose. by destruct (P n).
  - destruct (Hin n' Hn') as (n & Hn & -> & _). by apply (ok_issued _ HI).
  - destruct (ok_reported _ HI e id Hr) as [Hk Hs]. split; [done|]. intros n' Hn' E.
    destruct (Hin n' Hn') as (n & Hn & E' & Hm). apply Hm, (Hs n); congruence.
Qed.

Lemma deleted_ok P s : keeps_ok s (deleted P s).
Proof.
  intros HI.
  assert (Hin : ∀ n, n ∈ rows (deleted P s) → n ∈ rows s) by (intros n Hn%list_elem_of_filter; tauto).
  constructor; [|intros n Hn|apply (ok_once _ HI)|intros e id Hr|apply (ok_unpushed _ HI)|apply (ok_emails _ HI)].
  - eapply sublist_NoDup; [apply (ok_ids _ HI)|]. apply fmap_sublist, sublist_filter.
  - by apply (ok_issued _ HI), Hin.
  - destruct (ok_reported _ HI e id Hr) as [Hk Hs]. split; [done|]. intros n Hn. by apply Hs, Hin.
Qed.

Lemma counted_ok id P (m : M NoticeStore Z) s' s :
  m s = (s', Ok (Z.of_nat (length (rows_where P s)))) → (rows_where P s = [] → s' = s) → keeps_ok s s' →
  keeps_ok s ((count ← m; if count =? 0 then noMatch id else mret count) s).1.
Proof.
  intros Hm HN HK. destruct (counted_run id P m s' s Hm HN) as [[-> _]|[_ [e ->]]]; [done|apply reflexivity].
Qed.

(** Nothing but the table and the reported ids matters. *)
Lemma same_ok s s' :
  rows s' = rows s → created s' = created s → members s' = members s →
  (∀ e, reported e (mails s') = reported e (mails s)) → (∀ e c, (e, Digest c) ∈ mails s' → (e, Digest c) ∈ mails s) →
  keeps_ok s s'.
Proof.
  intros H1 H2 H3 H4 H5 [Hi Hk Ho Hr Hp He].
  constructor; rewrite ?H1, ?H2, ?H3;
    [done..|intros e; by rewrite H4|intros e id; rewrite H4; apply Hr|eauto|done].
Qed.

Hypothesis U_inj : ∀ i j, U i = U j → i = j.

Lemma inserted_ok n s : nt_id n = U (created s) →
  keeps_ok s (s <| rows ::= λ l, l ++ [n] |> <| created ::= S |>).
Proof.
  intros Hn [Hi Hk Ho Hr Hp He].
  assert (Hfresh : ∀ m k, nt_id m = U k → (k < created s)%nat → nt_id m ≠ nt_id n).
  { intros m k E Hlt E'. rewrite E, Hn in E'. apply U_inj in E'. lia. }
  constructor; cbn.
  - rewrite fmap_app. apply NoDup_app. split_and!; [done| |apply NoDup_singleton].
    intros x Hx%list_elem_of_fmap Hx'%list_elem_of_singleton. destruct Hx as (m & -> & Hm).
    destruct (Hk m Hm) as (k & Hlt & E). by apply (Hfresh m k).
  - intros m [Hm|Hm%list_elem_of_singleton]%elem_of_app.
    + destruct (Hk m Hm) as (k & Hlt & E). exists k. split; [lia|done].
    + subst. exists (created s). split; [lia|done].
  - done.
  - intros e id Hid. destruct (Hr e id Hid) as [(k & Hlt & ->) Hs]. split; [exists k; split; [lia|done]|].
    intros m [Hm|Hm%list_elem_of_singleton]%elem_of_app E; [by apply Hs|]. subst.
    exfalso. rewrite Hn in E. apply U_inj in E. lia.
  - done.
  - done.
Qed.

(** *** Digests *)

Lemma digested_perm cid from s :
  digested (getDigestNotifications cid from s) ≡ₚ rows_where (digestible cid from) s.
Proof.
  unfold digested, getDigestNotifications, newestFirst. cbn.
  trans (sort_by (λ n, - nt_createdAt n) (rows_where (digestible cid from) s)); [|apply sort_by_perm].
  induction (sort_by _ _) as [|n l IH]; [done|]. rewrite !filter_cons.
  destruct (nt_priority n); repeat first [rewrite decide_True by done | rewrite decide_False by done];
    cbn [app]; rewrite <- ?Permutation_middle; by rewrite IH.
Qed.

Lemma reported_digest e g (l : list (string * Member)) :
  NoDup (map (λ u, mb_email u.2) l) →
  reported e (map (λ u, (mb_email u.2, Digest g)) l) = [] ∨
  reported e (map (λ u, (mb_email u.2, Digest g)) l) = map nt_id (digested g).
Proof.
  assert (HN : ∀ l', e ∉ map (λ u : string * Member, mb_email u.2) l' →
    reported e (map (λ u, (mb_email u.2, Digest g)) l') = []).
  { induction l' as [|u l' IH]; [done|]. cbn. rewrite not_elem_of_cons. intros [H1 H2].
    rewrite bool_decide_eq_false_2 by congruence. by apply IH. }
  induction l as [|u l IH]; [by left|]. cbn. intros [H1 H2]%NoDup_cons. case_bool_decide as E.
  - right. specialize (HN l). unfold reported in HN. rewrite HN by (by rewrite <- E). apply app_nil_r.
  - by apply IH.
Qed.

Lemma staff_emails (P : string → Member → bool) (t : gmap string Member) :
  emails_unique t → NoDup (map (λ u, mb_email u.2) (find_many P t)).
Proof.
  intros He. pose proof (find_many_NoDup P t) as HD. revert HD.
  assert (HI : ∀ u, u ∈ find_many P t → t !! u.1 = Some u.2)
    by (intros [k m] Hu; apply elem_of_find_many in Hu; tauto).
  revert HI. induction (find_many P t) as [|u l IH]; intros HI; cbn; [constructor|].
  intros [H1 H2]%NoDup_cons. constructor; [|apply IH; [|done]; intros; apply HI; by right].
  intros (v & E & Hv)%list_elem_of_fmap. apply H1.
  assert (u.1 = v.1) as ->; [|by apply list_elem_of_fmap_2].
  eapply (He _ _ u.2 v.2); [apply HI; left|apply HI; by right|done].
Qed.

Lemma digestCompany_ok env from cid : footprint keeps_ok (digestCompany env from cid).
Proof.
  intros s HI. unfold digestCompany. rewrite gets_bind, modify_bind. cbv zeta.
  set (g := getDigestNotifications cid from s).
  assert (Hg : ∀ id, id ∈ map nt_id (digested g) ↔ ∃ n, n ∈ rows s ∧ nt_id n = id ∧ digestible cid from n = true).
  { intros id. unfold g. rewrite (fmap_Permutation nt_id _ _ (digested_perm cid from s) : map _ _ ≡ₚ _).
    rewrite list_elem_of_fmap. unfold rows_where. setoid_rewrite list_elem_of_filter. naive_solver. }
  assert (HD : NoDup (map nt_id (digested g))).
  { unfold g. rewrite (fmap_Permutation nt_id _ _ (digested_perm cid from s) : map _ _ ≡ₚ _).
    eapply sublist_NoDup; [apply (ok_ids _ HI)|]. apply fmap_sublist, sublist_filter. }
  set (who := find_many _ (members s)). set (s1 := s <| mails ::= _ |>).
  assert (HW := staff_emails (λ _ u, bool_decide (mb_companyId u = cid) && mb_staff u && mb_isActive u) _ (ok_emails _ HI)).
  fold who in HW.
  assert (Hrep : ∀ e, reported e (mails s1) = reported e (mails s) ∨
    reported e (mails s1) = reported e (mails s) ++ map nt_id (digested g)).
  { intros e. change (mails s1) with (mails s ++ map (λ u, (mb_email u.2, Digest g)) who). rewrite reported_app.
    destruct (reported_digest e g who HW) as [-> | ->]; [left; apply app_nil_r|by right]. }
  assert (Hun : ∀ e c, (e, Digest c) ∈ mails s1 → Forall unpushed (digested c)).
  { intros e c [Hm|Hm]%elem_of_app; [by apply (ok_unpushed _ HI e)|].
    apply list_elem_of_In, in_map_iff in Hm as (u & [= _ <-] & _). apply Forall_forall. intros n Hn.
    unfold g in Hn. rewrite (digested_perm cid from s) in Hn. apply list_elem_of_filter in Hn as [Hn _].
    unfold digestible in Hn. apply andb_prop in Hn as [_ Hn]. unfold unpushed.
    rewrite !orb_true_iff, !bool_decide_eq_true in Hn. tauto. }
  set (f := λ n, n <| nt_digestSentAt := Some (nt_now env) |>).
  set (P := λ n, bool_decide (nt_id n ∈ map nt_id (digested g))).
  assert (HU : noticesOk (updated P f s1)).
  { pose proof (updated_ok P f s (λ _, eq_refl) (λ _ _, ltac:(done)) HI) as HU.
    constructor; [apply (ok_ids _ HU)|apply (ok_issued _ HU)| | | |apply (ok_emails _ HU)].
    - intros e. change (mails (updated P f s1)) with (mails s1). destruct (Hrep e) as [-> | ->]; [apply (ok_once _ HI)|].
      apply NoDup_app. split_and!; [apply (ok_once _ HI)| |done]. intros id Hr (n & Hn & E & Hd)%Hg.
      destruct (ok_reported _ HI e id Hr) as [_ Hs]. apply (Hs n Hn E).
      unfold digestible in Hd. apply andb_prop in Hd as [Hd _]. apply andb_prop in Hd as [_ Hd].
      by apply bool_decide_eq_true in Hd.
    - intros e id Hr. change (mails (updated P f s1)) with (mails s1) in Hr.
      assert (Hcase : id ∈ reported e (mails s) ∨ id ∈ map nt_id (digested g))
        by (destruct (Hrep e) as [E|E]; rewrite E in Hr; [by left|by apply elem_of_app in Hr]).
      destruct Hcase as [Ho|Hnew].
      + destruct (ok_reported _ HU e id Ho) as [Hk Hs]. by split.
      + pose proof (proj1 (Hg id) Hnew) as (n & Hn & <- & _). split; [by apply (ok_issued _ HI)|].
        intros n' Hn' E. apply list_elem_of_In, in_map_iff in Hn' as (m & <- & Hm).
        assert (EP : P m = true).
        { apply bool_decide_eq_true. destruct (P m) eqn:EP; [by apply bool_decide_eq_true in EP|].
          by rewrite <- E in Hnew. }
        by rewrite EP.
    - exact Hun. }
  case_bool_decide as Hnil; cbn [negb].
  - constructor; [apply (ok_ids _ HI)|apply (ok_issued _ HI)| | |exact Hun|apply (ok_emails _ HI)];
      intros e; change (mails ((mret tt : M NoticeStore unit) s1).1) with (mails s1);
      (assert (Er : reported e (mails s1) = reported e (mails s)) by
        (destruct (Hrep e) as [E|E]; [exact E|rewrite Hnil, app_nil_r in E; exact E]));
      rewrite Er; [apply (ok_once _ HI)|apply (ok_reported _ HI)].
  - exact HU.
Qed.

(** *** Every operation *)

Lemma emitTo_ok env room n : footprint keeps_ok (emitTo env room n).
Proof. intros s. unfold emitTo. cbn. destruct (serverUp env); [|apply reflexivity]. by apply same_ok. Qed.

Lemma create_ok env cid data : uuid env = U → footprint keeps_ok (create env cid data).
Proof.
  intros HU s HI. unfold create. rewrite gets_bind, modify_bind. cbv zeta.
  set (n := newRow env cid data (created s)).
  pose proof (inserted_ok n s (f_equal (λ u, u (created s)) HU) HI) as H1. revert H1.
  generalize (s <| rows ::= λ l, l ++ [n] |> <| created ::= S |>). intros s1 H1.
  refine ((_ : footprint keeps_ok _) s1 H1). clear H1.
  pose proof (emitTo_ok env) as HE. footprint_auto; auto. by apply same_ok.
Qed.

Lemma urgent_reported e (l : list (string * MailText)) :
  Forall (λ m, match m.2 with Urgent _ _ => True | Digest _ => False end) l → reported e l = [].
Proof. unfold reported. induction 1 as [|[to [t h|c]] l Hm _ IH]; [done|exact IH|done]. Qed.

Lemma sendCriticalEmail_run env cid n data s :
  ∃ l, Forall (λ m : string * MailText, match m.2 with Urgent _ _ => True | Digest _ => False end) l
       ∧ sendCriticalEmail env cid n data s = s <| mails ::= λ l0, l0 ++ l |>.
Proof.
  unfold sendCriticalEmail. cbv zeta. destruct (truthy (if truthy _ then _ else _)).
  - eexists. split; [|reflexivity]. by repeat constructor.
  - destruct (negb _); [|exists []; split; [constructor|destruct s; unfold set; cbn; by rewrite app_nil_r]].
    eexists. split; [|reflexivity]. apply Forall_forall.
    intros m Hm%list_elem_of_In. apply in_map_iff in Hm as (u & <- & _). exact I.
Qed.

Lemma runPendingMail_ok env s : keeps_ok s (runPendingMail env s).
Proof.
  unfold runPendingMail. destruct (pendingMails s) as [|[[cid n] data] rest]; [apply reflexivity|].
  destruct (sendCriticalEmail_run env cid n data (s <| pendingMails := rest |>)) as (l & Hl & ->).
  apply same_ok; [done..|intros e|].
  { match goal with |- reported e ?m = _ => change m with (mails s ++ l) end.
    by rewrite reported_app, (urgent_reported e l Hl), app_nil_r. }
  intros e c [Hm|Hm]%elem_of_app; [done|]. rewrite Forall_forall in Hl. by apply Hl in Hm.
Qed.

Lemma underCronLock_ok env name m : footprint keeps_ok m → footprint keeps_ok (underCronLock env name m).
Proof.
  intros Hm s HI. unfold underCronLock. destruct (acquireCronLock _ _ _ _ _ _) as [db got]. cbv zeta.
  assert (H1 : noticesOk (s <| noticeRedis := db |>)) by (by apply (same_ok s)).
  destruct got; [by apply Hm|done].
Qed.

Lemma sendDigest_ok env k : footprint keeps_ok (sendDigest env k).
Proof. unfold sendDigest. footprint_auto. apply digestCompany_ok. Qed.

Lemma update_rows_ok P f :
  (∀ n, nt_id (f n) = nt_id n) → (∀ n, nt_digestSentAt n ≠ None → nt_digestSentAt (f n) ≠ None) →
  footprint keeps_ok (update_rows P f).
Proof. intros H1 H2 s. rewrite update_rows_run. by apply updated_ok. Qed.
Lemma delete_rows_ok P : footprint keeps_ok (delete_rows P).
Proof. intros s. rewrite delete_rows_run. apply deleted_ok. Qed.
Lemma noMatch_ok id : footprint keeps_ok (noMatch id).
Proof. unfold noMatch. footprint_auto. Qed.
#[local] Hint Resolve delete_rows_ok noMatch_ok digestCompany_ok sendDigest_ok : footprint.
#[local] Hint Extern 3 (footprint keeps_ok (update_rows _ _)) => (apply update_rows_ok; [done|done]) : footprint.

Lemma noticeStep_ok env q : uuid env = U → footprint keeps_ok (noticeStep env q).
Proof.
  intros HU. destruct q; cbn [noticeStep];
    unfold markRead, markAllRead, remove, removeAll, resolve, purgeOldReadNotifications, sendDailyDigest, sendWeeklyDigest.
  all: try (apply underCronLock_ok).
  all: pose proof (create_ok env) as HC; footprint_auto; auto.
  apply runPendingMail_ok.
Qed.
End Invariant.

Definition runNotices (l : list (NoticeEnv * NoticeStep)) (s : NoticeStore) : NoticeStore :=
  foldl (λ s q, (noticeStep q.1 q.2 s).1) s l.

Lemma runNotices_ok U l s : (∀ i j, U i = U j → i = j) → Forall (λ q, uuid q.1 = U) l →
  noticesOk U s → noticesOk U (runNotices l s).
Proof.
  intros HU Hl. revert s. induction Hl as [|[env q] l Hq _ IH]; intros s HI; [done|]. cbn.
  apply IH. by apply (noticeStep_ok U HU env q).
Qed.

(** ** What a digest contains *)

(** [x] is a row still to be digested for its company. *)
Definition waiting (cid : string) (from : Z) (x : Notification) (s : NoticeStore) : Prop :=
  x ∈ rows s ∧ digestible cid from x = true.

Definition mailsGrow (s s' : NoticeStore) : Prop := members s' = members s ∧ ∃ l, mails s' = mails s ++ l.
#[local] Instance mailsGrow_preorder : PreOrder mailsGrow.
Proof.
  split; [intros s; split; [done|exists []; by rewrite app_nil_r]|].
  intros s1 s2 s3 [E1 [l1 H1]] [E2 [l2 H2]]. split; [congruence|]. exists (l1 ++ l2). by rewrite H2, H1, app_assoc.
Qed.

Lemma digestCompany_mails env from cid s :
  let s' := (digestCompany env from cid s).1 in
  members s' = members s ∧
  mails s' = mails s ++ map (λ u, (mb_email u.2, Digest (getDigestNotifications cid from s)))
    (find_many (λ _ u, bool_decide (mb_companyId u = cid) && mb_staff u && mb_isActive u) (members s)).
Proof. cbv zeta. unfold digestCompany. rewrite gets_bind, modify_bind. cbv zeta. by case_bool_decide. Qed.

Lemma NoDup_key {A B} (f : A → B) l x y : NoDup (f <$> l) → x ∈ l → y ∈ l → f x = f y → x = y.
Proof.
  induction l as [|z l IH]; [intros _ []%elem_of_nil|]. cbn. intros [Hz Hl]%NoDup_cons.
  intros [->|Hx]%elem_of_cons [->|Hy]%elem_of_cons E; [done| | |by apply IH];
    exfalso; apply Hz; [rewrite E|rewrite <- E]; by apply list_elem_of_fmap_2.
Qed.

(** The digest of another company leaves the row as it is. *)
Lemma digestCompany_other env from cid c x s :
  NoDup (nt_id <$> rows s) → c ≠ cid → waiting cid from x s → waiting cid from x (digestCompany env from c s).1.
Proof.
  intros HN Hc [Hx Hd]. split; [|done].
  unfold digestCompany. rewrite gets_bind, modify_bind. cbv zeta.
  assert (Hid : nt_id x ∉ map nt_id (digested (getDigestNotifications c from s))).
  { intros (n & E & Hn)%list_elem_of_fmap. rewrite (digested_perm c from s) in Hn.
    apply list_elem_of_filter in Hn as [Hdn Hn].
    assert (n = x) as -> by (eapply NoDup_key; eauto).
    unfold digestible in Hd, Hdn. rewrite !andb_true_iff, !bool_decide_eq_true in Hd, Hdn.
    destruct Hd as [[[E1 _] _] _], Hdn as [[[E2 _] _] _]. congruence. }
  case_bool_decide; [done|]. cbn [negb].
  apply list_elem_of_In, in_map_iff. exists x. split; [|by apply list_elem_of_In].
  by rewrite bool_decide_eq_false_2.
Qed.

Lemma sendDigest_complete U env k s x cid :
  noticesOk U s → cid ∈ companies s → waiting cid (nt_now env - days k) x s →
  let s' := (sendDigest env k s).1 in
  ∀ key m, members s !! key = Some m → mb_companyId m = cid → mb_staff m = true → mb_isActive m = true →
  ∃ c, (mb_email m, Digest c) ∈ mails s' ∧ x ∈ digested c.
Proof.
  intros HI Hc Hw s' key m Hm H1 H2 H3. subst s'. unfold sendDigest. rewrite gets_bind. cbv zeta.
  set (from := nt_now env - days k) in *. set (body := λ c, try_catch (digestCompany env from c) (λ _, mret tt)).
  assert (Hb : ∀ c s0, ∃ s1, body c s0 = (s1, Ok tt) ∧ s1 = (digestCompany env from c s0).1).
  { intros c s0. unfold body, try_catch. destruct (digestCompany env from c s0) as [s1 [[]|e]]; eauto. }
  assert (Hg : ∀ l s0, mailsGrow s0 (for_each body l s0).1).
  { intros l. apply (footprint_for_each mailsGrow). intros c _ s0. destruct (Hb c s0) as (s1 & -> & ->).
    destruct (digestCompany_mails env from c s0) as [E1 E2]. split; [exact E1|]. eexists. exact E2. }
  revert Hc. generalize (companies s) as l. intros l. revert s HI Hw Hm.
  induction l as [|c l IH]; [intros ? _ _ _ Hn; by apply elem_of_nil in Hn|]. intros s HI Hw Hm Hin. cbn [for_each].
  destruct (Hb c s) as (s1 & Es & E1). rewrite bind_run, Es. cbv beta iota.
  destruct (digestCompany_mails env from c s) as [EM EL]. rewrite <- E1 in EM, EL.
  destruct (decide (c = cid)) as [->|Hne].
  - exists (getDigestNotifications cid from s). split.
    + destruct (Hg l s1) as [_ [l' ->]]. apply elem_of_app. left. rewrite EL. apply elem_of_app. right.
      apply list_elem_of_In, in_map_iff. exists (key, m). split; [done|]. apply list_elem_of_In, elem_of_find_many.
      split; [done|]. by rewrite bool_decide_eq_true_2, H2, H3.
    + rewrite (digested_perm cid from s). destruct Hw. by apply list_elem_of_filter.
  - apply IH; [subst s1; exact (digestCompany_ok U env from c s HI)| |by rewrite EM|apply elem_of_cons in Hin as [?|?]; [congruence|done]].
    subst s1. by apply digestCompany_other; [apply (ok_ids _ _ HI)|..].
Qed.


(** ** Isolation *)

Definition outside (cid : string) (u : option string) (n : Notification) : bool := negb (visible cid u n).

(** Only the rows the speaker sees may differ. *)
Definition confined (cid : string) (u : option string) (s s' : NoticeStore) : Prop :=
  s' = s <| rows := rows s' |> ∧ rows_where (outside cid u) s' = rows_where (outside cid u) s.

Lemma confined_refl cid u s : confined cid u s s.
Proof. split; [by rewrite store_same_rows|done]. Qed.

Lemma confined_updated cid u P f s :
  (∀ n, P n = true → visible cid u n = true) → (∀ n, visible cid u (f n) = visible cid u n) →
  confined cid u s (updated P f s).
Proof.
  intros HP Hf. split; [done|]. unfold rows_where. cbn [rows updated].
  apply (filter_map_outside P (outside cid u) f). intros n _ Hn. unfold outside. rewrite Hf, HP by done. done.
Qed.

Lemma confined_deleted cid u P s :
  (∀ n, P n = true → visible cid u n = true) → confined cid u s (deleted P s).
Proof.
  intros HP. split; [done|]. apply (filter_delete_outside P (outside cid u)). intros n Hn. unfold outside. by rewrite HP.
Qed.

Lemma aimedAt_visible id cid u n : aimedAt id cid u n = true → visible cid u n = true.
Proof. unfold aimedAt. intros [_ H]%andb_prop. done. Qed.

Lemma rows_where_in P s n : n ∈ rows_where P s ↔ n ∈ rows s ∧ P n = true.
Proof. unfold rows_where. rewrite list_elem_of_filter. tauto. Qed.

Lemma resolve_run env cid id u comment s :
  NoDup (nt_id <$> rows s) →
  (∃ e, resolve env cid id u comment s = (s, Throw e)) ∨
  (∃ n f, n ∈ rows s ∧ nt_id n = id ∧ nt_companyId n = cid ∧ (∀ m, visible cid None (f m) = visible cid None m) ∧
    resolve env cid id u comment s = (updated (λ m, bool_decide (nt_id m = id)) f s, Ok tt)).
Proof.
  intros HN. unfold resolve. rewrite gets_bind. destruct (head _) as [n|] eqn:E; [right|left; by eexists].
  apply head_Some_elem_of, rows_where_in in E as [Hn [H1 H2]%andb_prop].
  apply bool_decide_eq_true in H1, H2. eexists n, _. split_and!; [done..| |reflexivity]. done.
Qed.

(** An operation on behalf of a user changes only the notifications of the
    company that are addressed to that user or to nobody in particular; those of
    other companies and of other users stay as they are, and a refused operation
    changes nothing at all.  Resolving an alert stays within the company.  What the
    lists return are such notifications, and a driver's alerts are addressed to the
    driver or about a delivery assigned to the driver. *)
Theorem notice_isolation env q cid u s : NoDup (nt_id <$> rows s) → speaker q = Some (cid, u) →
  confined cid u s (noticeStep env q s).1 ∧
  (∀ e, (noticeStep env q s).2 = Throw e → (noticeStep env q s).1 = s) ∧
  (∀ limit n, n ∈ findAll cid u limit s → n ∈ rows s ∧ visible cid u n = true) ∧
  (∀ now query d n, truthy (Some d) = true → n ∈ (findAlerts now cid query (Some d) s).1 →
     nt_companyId n = cid ∧ (nt_userId n = Some d ∨ ∃ del, nt_deliveryId n = Some del ∧ assignedDrivers s !! del = Some d)).
Proof.
  intros HN Hq.
  assert (HC : confined cid u s (noticeStep env q s).1 ∧
    (∀ e, (noticeStep env q s).2 = Throw e → (noticeStep env q s).1 = s)); [|split_and!; [apply HC..| |]].
  - destruct q as [id c v|c v|id c v|c v| |c id v comment| | | |]; try discriminate; injection Hq as <- <-;
      cbn [noticeStep]; rewrite ?bind_run.
    + destruct (markRead_run env id c v s) as [[-> _]|[_ [e ->]]]; cbn; (split; [|done]); [|apply confined_refl].
      apply confined_updated; [apply aimedAt_visible|done].
    + unfold markAllRead. rewrite update_rows_run. cbn. split; [|done]. apply confined_updated; [|done].
      intros n [H _]%andb_prop. done.
    + destruct (remove_run id c v s) as [[-> _]|[_ [e ->]]]; cbn; (split; [|done]); [|apply confined_refl].
      apply confined_deleted, aimedAt_visible.
    + unfold removeAll. rewrite delete_rows_run. cbn. split; [|done]. by apply confined_deleted.
    + destruct (resolve_run env c id v comment s HN) as [[e ->]|(n & f & Hn & Hid & Hc & Hf & ->)]; cbn;
        (split; [|done]); [apply confined_refl|].
      split; [done|]. unfold rows_where. cbn [rows updated]. revert Hf HN Hn Hid Hc. clear. intros Hf HN Hn Hid Hc.
      apply (filter_map_outside (λ m, bool_decide (nt_id m = id)) (outside c None) f). intros m Hm E%bool_decide_eq_true.
      assert (m = n) as -> by (eapply NoDup_key; eauto; congruence).
      unfold outside. rewrite Hf. unfold visible. by rewrite bool_decide_eq_true_2.
  - intros limit n Hn%subseteq_take. unfold newestFirst in Hn. rewrite sort_by_perm in Hn. by apply rows_where_in in Hn.
  - intros now query d n Ht Hn. unfold findAlerts in Hn. cbn [fst] in Hn.
    apply subseteq_take, subseteq_drop in Hn. unfold newestFirst in Hn. rewrite sort_by_perm in Hn.
    apply rows_where_in in Hn as [_ Hn]. unfold alertWhere in Hn. rewrite Ht in Hn.
    rewrite !andb_true_iff, !orb_true_iff, !bool_decide_eq_true in Hn.
    destruct Hn as [[[[[[Hc [[Hd|Hd]|Hd]] _] _] _] _] _]; [done|by split; [|left]|].
    split; [done|right]. destruct (nt_deliveryId n) as [del|]; [|done]. by exists del.
Qed.

(** ** Examples *)

Definition exampleUuid : nat → string := λ k, pretty k.
Lemma exampleUuid_inj i j : exampleUuid i = exampleUuid j → i = j.
Proof. apply (inj pretty). Qed.

Definition at_ (t : Z) : NoticeEnv := mkNoticeEnv exampleUuid t true "https://app" RedisAbsent "a".

Definition noNotices : NoticeStore :=
  {| rows := []; created := 0; emitted := []; pendingMails := []; mails := [];
     members := <["u1" := mkMember "c1" "a@x.mg" true true]>
                 (<["d1" := mkMember "c1" "d@x.mg" false true]> ∅);
     assignedDrivers := ∅; companies := ["c1"]; noticeRedis := ∅ |}.

Definition notice (p : NotificationPriority) (user : option string) : NotificationData :=
  mkNotificationData maintenance_due p "Vidange" "Vidange" None user None None.

Lemma noNotices_ok : noticesOk exampleUuid noNotices.
Proof.
  constructor; cbn.
  - constructor.
  - intros n Hn. by apply elem_of_nil in Hn.
  - intros e. constructor.
  - intros e id Hid. by apply elem_of_nil in Hid.
  - intros e c Hc. by apply elem_of_nil in Hc.
  - intros k1 k2 m1 m2. rewrite !lookup_insert_Some, lookup_empty. naive_solver.
Qed.

(** A Thursday afternoon, the daily digest of 20:00, the weekly one of Monday. *)
Definition thursday : Z := days 10.
Definition exampleWeek : list (NoticeEnv * NoticeStep) :=
  [(at_ thursday, SCreate "c1" (notice medium None)); (at_ thursday, SCreate "c1" (notice high None));
   (at_ (thursday + 1000), SDaily); (at_ (thursday + days 4), SWeekly)].


Definition oneAlert : NoticeStore := run_state (create (at_ 0) "c1" (notice high None)) noNotices.

Lemma notice_isolation_witness :
  let q := SRemoveAll "c2" (Some "d1") in
  speaker q = Some ("c2", Some "d1") ∧ confined "c2" (Some "d1") oneAlert (noticeStep (at_ 0) q oneAlert).1.
Proof.
  cbv zeta. split; [done|]. refine (proj1 (notice_isolation (at_ 0) (SRemoveAll "c2" (Some "d1")) "c2" (Some "d1") oneAlert _ eq_refl)).
  apply NoDup_singleton.
Defined.

(** A driver deletes the unresolved alert of the whole company, which his list of
    alerts does not even show him. *)
Theorem anyone_clears_alerts :
  (findAlerts 0 "c1" (mkAlertsQuery None None [] [] None None None) (Some "d1") oneAlert).2 = 0 ∧
  (stats 0 "c1" None oneAlert).(st_total) = 1 ∧
  (stats 0 "c1" None (noticeStep (at_ 5) (SRemoveAll "c1" (Some "d1")) oneAlert).1).(st_total) = 0.
Proof. split_and!; by vm_compute. Qed.

(** What a daily digest reported is missing from the weekly one, which announces
    the whole week. *)
Theorem weekly_digest_skips_daily :
  let s := runNotices (take 3 exampleWeek) noNotices in
  dg_total (getDigestNotifications "c1" (thursday + days 4 - days 7) (runNotices (take 2 exampleWeek) noNotices)) = 1 ∧
  dg_total (getDigestNotifications "c1" (thursday + days 4 - days 7) s) = 0.
Proof. split; by vm_compute. Qed.

(** *** The HTML of the e-mail *)

Definition htmlSafe (c : ascii) : bool :=
  negb (Ascii.eqb c "<"%char || Ascii.eqb c ">"%char || Nat.eqb (nat_of_ascii c) 34 || Nat.eqb (nat_of_ascii c) 39).

Lemma allChars_append f s1 s2 : allChars f s1 → allChars f s2 → allChars f (s1 +:+ s2).
Proof.
  unfold allChars. intros H1 H2. induction s1 as [|c s1 IH]; [done|]. cbn in *.
  inversion H1; subst. constructor; auto.
Qed.

(** Nothing a user typed opens a tag or leaves an attribute of the e-mail. *)
Theorem escapeHtml_safe s : allChars htmlSafe (escapeHtml s).
Proof.
  induction s as [|c s IH]; [constructor|]. cbn [escapeHtml]. apply allChars_append; [|exact IH].
  unfold escapeChar. destruct c as [[] [] [] [] [] [] [] []]; repeat constructor.
Qed.
