(* ===== verification/Maintenance.v ===== *)
(** * modules/vehicle-maintenance: VehicleMaintenanceService

    The maintenance rules of the vehicles and the nightly check that turns a rule
    that is due into a notification.  Kilometres are binary64 numbers, dates are
    time values; an interval so long that the due date leaves the range of Date
    makes it invalid, as in the code. *)

From Stdlib Require Import SpecFloat.
From S2P Require Import Prelude JsString JsNum JsDate Redis Fleet Notifications.

#[local] Open Scope string_scope.
#[local] Open Scope list_scope.
#[local] Open Scope Z_scope.

Definition WARNING_KM_THRESHOLD : Z := 500.
Definition WARNING_DAYS_THRESHOLD : Z := 14.

Inductive MaintenanceStatus := ok | upcoming | overdue.
#[export] Instance MaintenanceStatus_eq_dec : EqDecision MaintenanceStatus.
Proof. solve_decision. Defined.

Record Schedule := mkSchedule {
  ms_companyId : string;
  ms_vehicleId : string;
  ms_label : string;
  ms_type : string;
  ms_intervalKm : option Z;
  ms_intervalMonths : option Z;
  ms_isActive : bool;
  ms_createdAt : Z
}.

Record MaintenanceRecord := mkRecord { mr_vehicleId : string; mr_type : string; mr_date : Z }.
Record DailyReport := mkReport { rp_vehicleId : string; rp_reportDate : Z; rp_distanceKm : num }.

Record MaintenanceStore := mkMaintenance {
  schedules : gmap string Schedule;
  fleet : FleetStore;
  records : list MaintenanceRecord;
  reports : list DailyReport;
  notices : NoticeStore
}.

Definition onNotices {A} : M NoticeStore A → M MaintenanceStore A := zoom notices (λ n s, s <| notices := n |>).

Record CreateMaintenanceScheduleDto := mkCreateSchedule {
  cm_label : string;
  cm_type : string;
  cm_intervalKm : option Z;
  cm_intervalMonths : option Z
}.

(** [None] for an absent field, [Some None] for null. *)
Record UpdateMaintenanceScheduleDto := mkUpdateSchedule {
  um_label : option string;
  um_type : option string;
  um_intervalKm : option (option Z);
  um_intervalMonths : option (option Z);
  um_isActive : option bool
}.

(** A number that is neither null nor 0. *)
Definition truthyZ (o : option Z) : bool := match o with Some z => negb (z =? 0) | None => false end.

Definition intervalMissing : exn :=
  BadRequestException "Précisez un intervalle en kilomètres et/ou en mois (au moins un des deux)".

(** [assertVehicleInCompany] *)
Definition assertVehicleInCompany (cid vid : string) : M MaintenanceStore Vehicle :=
  v ← gets (λ s, findVehicle cid vid (fleet s));
  match v with Some v => mret v | None => throw (NotFoundException "Vehicle not found") end.

(** [create]; [id] is the new row's. *)
Definition create (now : Z) (id cid vid : string) (dto : CreateMaintenanceScheduleDto) : M MaintenanceStore Schedule :=
  _ ← assertVehicleInCompany cid vid;
  ensure (truthyZ (cm_intervalKm dto) || truthyZ (cm_intervalMonths dto)) intervalMissing ;;
  let row := {| ms_companyId := cid; ms_vehicleId := vid; ms_label := cm_label dto; ms_type := cm_type dto;
                ms_intervalKm := cm_intervalKm dto; ms_intervalMonths := cm_intervalMonths dto;
                ms_isActive := true; ms_createdAt := now |} in
  modify (λ s, s <| schedules ::= <[id := row]> |>) ;; mret row.

Definition findSchedule (cid id : string) (s : MaintenanceStore) : option Schedule :=
  match schedules s !! id with
  | Some r => if bool_decide (ms_companyId r = cid) then Some r else None
  | None => None
  end.

Definition update (cid id : string) (dto : UpdateMaintenanceScheduleDto) : M MaintenanceStore Schedule :=
  existing ← gets (findSchedule cid id);
  match existing with
  | None => throw (NotFoundException "Maintenance schedule not found")
  | Some x =>
      let nextIntervalKm := default (ms_intervalKm x) (um_intervalKm dto) in
      let nextIntervalMonths := default (ms_intervalMonths x) (um_intervalMonths dto) in
      ensure (truthyZ nextIntervalKm || truthyZ nextIntervalMonths) intervalMissing ;;
      let row := x <| ms_label := default (ms_label x) (um_label dto) |>
                   <| ms_type := default (ms_type x) (um_type dto) |>
                   <| ms_intervalKm := nextIntervalKm |> <| ms_intervalMonths := nextIntervalMonths |>
                   <| ms_isActive := default (ms_isActive x) (um_isActive dto) |> in
      modify (λ s, s <| schedules ::= <[id := row]> |>) ;; mret row
  end.

Definition remove (cid id : string) : M MaintenanceStore unit :=
  existing ← gets (findSchedule cid id);
  match existing with
  | None => throw (NotFoundException "Maintenance schedule not found")
  | Some _ => modify (λ s, s <| schedules ::= delete id |>)
  end.

(** ** Status *)

(** The date of the latest record of the vehicle and type. *)
Definition lastRecordDate (vid type : string) (s : MaintenanceStore) : option Z :=
  mr_date <$> last (sort_by mr_date (filter (λ r, mr_vehicleId r = vid ∧ mr_type r = type) (records s))).

Definition getReferenceDate (vid type : string) (scheduleCreatedAt : Z) (s : MaintenanceStore) : Z :=
  default scheduleCreatedAt (lastRecordDate vid type s).

(** The sum the database makes of the distances of the days after [since]. *)
Definition getKmSince (vid : string) (since : Z) (s : MaintenanceStore) : num :=
  foldl (λ sum r, num_add sum (rp_distanceKm r)) (num_of_Z 0)
    (filter (λ r, rp_vehicleId r = vid ∧ since < rp_reportDate r) (reports s)).

(** A time value after [setMonth]: NaN out of the range of Date. *)
Definition TimeClip (t : Z) : option Z := if Z.abs t <=? 8640000000000000 then Some t else None.

(** [Math.ceil(ms / 86_400_000)] *)
Definition daysCeil (ms : Z) : Z := - (- ms / msPerDay).

(** Remaining days: [None] for null, [Some None] for NaN. *)
Definition daysBelow (limit : Z) (d : option (option Z)) : bool :=
  match d with Some (Some n) => n <=? limit | _ => false end.
Definition kmBelow (limit : Z) (k : option num) : bool :=
  match k with Some x => num_leb x (num_of_Z limit) | None => false end.

Definition computeStatus (kmRemaining : option num) (daysRemaining : option (option Z)) : MaintenanceStatus :=
  if kmBelow 0 kmRemaining || daysBelow 0 daysRemaining then overdue
  else if kmBelow WARNING_KM_THRESHOLD kmRemaining || daysBelow WARNING_DAYS_THRESHOLD daysRemaining then upcoming
  else ok.

Record ScheduleStatus := mkStatus {
  ss_id : string;
  ss_schedule : Schedule;
  ss_vehicleLabel : string;
  ss_referenceDate : Z;
  ss_kmSinceService : option num;
  ss_kmRemaining : option num;
  ss_nextDueDate : option (option Z);
  ss_daysRemaining : option (option Z);
  ss_status : MaintenanceStatus
}.

Definition vehicleLabel (v : Vehicle) : string :=
  brand v +:+ " " +:+ model v +:+ " (" +:+ licensePlate v +:+ ")".

Definition withStatus (now : Z) (id : string) (r : Schedule) (label : string) (s : MaintenanceStore) : ScheduleStatus :=
  let referenceDate := getReferenceDate (ms_vehicleId r) (ms_type r) (ms_createdAt r) s in
  let kmSinceService := if truthyZ (ms_intervalKm r) then Some (getKmSince (ms_vehicleId r) referenceDate s) else None in
  let kmRemaining := match ms_intervalKm r, kmSinceService with
                     | Some n, Some km =>
                         Some (num_div (Math_round (num_mul (num_sub (num_of_Z n) km) (num_of_Z 10))) (num_of_Z 10))
                     | _, _ => None
                     end in
  let nextDueDate := if truthyZ (ms_intervalMonths r)
                     then Some (TimeClip (addMonths referenceDate (default 0 (ms_intervalMonths r)))) else None in
  let daysRemaining := option_map (option_map (λ t, daysCeil (t - now))) nextDueDate in
  {| ss_id := id; ss_schedule := r; ss_vehicleLabel := label; ss_referenceDate := referenceDate;
     ss_kmSinceService := kmSinceService; ss_kmRemaining := kmRemaining; ss_nextDueDate := nextDueDate;
     ss_daysRemaining := daysRemaining; ss_status := computeStatus kmRemaining daysRemaining |}.

(** [findMany({ where, orderBy: { createdAt: 'desc' } })] *)
Definition schedulesWhere (P : Schedule → bool) (s : MaintenanceStore) : list (string * Schedule) :=
  sort_by (λ kv, - ms_createdAt kv.2) (find_many (λ _ r, P r) (schedules s)).

Definition findAllForVehicle (now : Z) (cid vid : string) : M MaintenanceStore (list ScheduleStatus) :=
  v ← assertVehicleInCompany cid vid;
  gets (λ s, map (λ kv, withStatus now kv.1 kv.2 (vehicleLabel v) s)
    (schedulesWhere (λ r, bool_decide (ms_companyId r = cid) && bool_decide (ms_vehicleId r = vid)) s)).

(** The label of the vehicle a rule includes, deleted or not. *)
Definition includedLabel (r : Schedule) (s : MaintenanceStore) : string :=
  match vehicles (fleet s) !! ms_vehicleId r with Some v => vehicleLabel v | None => "" end.

(** The comparison of [sort]: overdue first. *)
Definition urgency (x : ScheduleStatus) : Z := if bool_decide (ss_status x = overdue) then 0 else 1.

Definition findDueSoon (now : Z) (cid : string) (s : MaintenanceStore) : list ScheduleStatus :=
  sort_by urgency
    (filter (λ x, ss_status x ≠ ok)
       (map (λ kv, withStatus now kv.1 kv.2 (includedLabel kv.2 s) s)
          (schedulesWhere (λ r, bool_decide (ms_companyId r = cid) && ms_isActive r) s))).

(** ** The nightly check *)

Definition linkOf (id : string) : string := "/vehicles?maintenanceScheduleId=" +:+ id.

(** An alert of the rule that nobody has resolved. *)
Definition openAlert (cid id : string) (n : Notification) : bool :=
  bool_decide (nt_companyId n = cid) && bool_decide (nt_type n = maintenance_due)
  && negb (nt_resolved n) && bool_decide (nt_link n = Some (linkOf id)).

Definition kmPart (x : num) : string :=
  if num_leb x (num_of_Z 0) then "dépassé de " +:+ num_toString (Math_abs x) +:+ " km"
  else "dans " +:+ num_toString x +:+ " km".
Definition daysPart (d : option Z) : string :=
  match d with
  | Some n => if n <=? 0 then "dépassé de " +:+ string_of_Z (Z.abs n) +:+ " j" else "dans " +:+ string_of_Z n +:+ " j"
  | None => "dans NaN j"
  end.
(** [parts.join(', ')] *)
Definition joined (parts : list string) : string := String.concat ", " parts.

Definition alertData (item : ScheduleStatus) : NotificationData :=
  let late := bool_decide (ss_status item = overdue) in
  let label := ms_label (ss_schedule item) in
  let parts := option_list (option_map kmPart (ss_kmRemaining item)) ++ option_list (option_map daysPart (ss_daysRemaining item)) in
  {| d_type := maintenance_due;
     d_priority := if late then high else medium;
     d_title := "Entretien " +:+ (if late then "en retard" else "à prévoir") +:+ " : " +:+ label;
     d_message := ss_vehicleLabel item +:+ " — " +:+ label +:+ " (" +:+ joined parts +:+ ")";
     d_link := Some (linkOf (ss_id item)); d_userId := None; d_deliveryId := None; d_digestOnly := None |}.

(** The body of the inner loop. *)
Definition checkItem (env : NoticeEnv) (cid : string) (item : ScheduleStatus) : M MaintenanceStore unit :=
  existingAlert ← gets (λ s, head (rows_where (openAlert cid (ss_id item)) (notices s)));
  match existingAlert with
  | Some _ => mret tt
  | None => _ ← onNotices (Notifications.create env cid (alertData item)); mret tt
  end.

Definition checkCompany (env : NoticeEnv) (cid : string) : M MaintenanceStore unit :=
  due ← gets (findDueSoon (nt_now env) cid);
  for_each (checkItem env cid) due.

Definition checkCompanies (env : NoticeEnv) : M MaintenanceStore unit :=
  cs ← gets (λ s, companies (notices s));
  for_each (λ cid, try_catch (checkCompany env cid) (λ _, mret tt)) cs.

Definition checkDueMaintenances (env : NoticeEnv) : M MaintenanceStore unit := λ s,
  let '(db, got) := acquireCronLock (redisLink env) (instance env) "maintenance.checkDueMaintenances" 3600
                      (nt_now env) (noticeRedis (notices s)) in
  let s := s <| notices := (notices s) <| noticeRedis := db |> |> in
  if got then checkCompanies env s else (s, Ok tt).
