(* ===== verification/MaintenanceProps.v ===== *)
(** * Vehicle maintenance: when a rule is due and what the nightly check announces *)

From Stdlib Require Import SpecFloat.
From S2P Require Import Prelude JsString JsNum JsDate Redis Fleet Notifications Maintenance.

#[local] Open Scope string_scope.
#[local] Open Scope list_scope.
#[local] Open Scope Z_scope.

(** ** The nightly check *)

(** What an alert says, its own id left out. *)
Record AlertContent := mkContent {
  ac_company : string; ac_type : NotificationType; ac_priority : NotificationPriority;
  ac_title : string; ac_message : string; ac_link : option string; ac_resolved : bool; ac_createdAt : Z
}.
Definition content (n : Notification) : AlertContent :=
  mkContent (nt_companyId n) (nt_type n) (nt_priority n) (nt_title n) (nt_message n) (nt_link n)
    (nt_resolved n) (nt_createdAt n).
Definition alertOf (now : Z) (cid : string) (item : ScheduleStatus) : AlertContent :=
  let d := alertData item in
  mkContent cid (d_type d) (d_priority d) (d_title d) (d_message d) (d_link d) false now.

(** The due rules of a company nobody is warned of. *)
Definition unannounced (N : NoticeStore) (cid : string) (due : list ScheduleStatus) : list ScheduleStatus :=
  filter (λ item, rows_where (openAlert cid (ss_id item)) N = []) due.

Lemma filter_iff_in {A} (P Q : A → Prop) `{∀ x, Decision (P x), ∀ x, Decision (Q x)} (l : list A) :
  (∀ x, x ∈ l → P x ↔ Q x) → filter P l = filter Q l.
Proof.
  induction l as [|x l IH]; intros HPQ; [done|]. rewrite !filter_cons.
  rewrite IH by (intros y Hy; apply HPQ; by right). assert (HX := HPQ x (proj2 (elem_of_cons _ _ _) (or_introl eq_refl))).
  repeat case_decide; tauto.
Qed.

Lemma linkOf_inj i j : linkOf i = linkOf j → i = j.
Proof. unfold linkOf. intros H. by repeat injection H as H. Qed.

(** [N'] is [N] with rows added. *)
Definition announced (N N' : NoticeStore) (added : list AlertContent) : Prop :=
  companies N' = companies N ∧ noticeRedis N' = noticeRedis N ∧
  ∃ ns, rows N' = rows N ++ ns ∧ map content ns = added.

Lemma announced_nil N : announced N N [].
Proof. split_and!; [done..|]. exists []. by rewrite app_nil_r. Qed.

Lemma announced_trans N1 N2 N3 a b : announced N1 N2 a → announced N2 N3 b → announced N1 N3 (a ++ b).
Proof.
  intros (E1 & E1' & ns1 & H1 & <-) (E2 & E2' & ns2 & H2 & <-). split_and!; [congruence..|].
  exists (ns1 ++ ns2). by rewrite H2, H1, app_assoc, map_app.
Qed.

Lemma create_announces env cid d N :
  ∃ N' n, Notifications.create env cid d N = (N', Ok n) ∧
    announced N N' [mkContent cid (d_type d) (d_priority d) (d_title d) (d_message d) (d_link d) false (nt_now env)].
Proof.
  unfold Notifications.create. rewrite gets_bind, modify_bind. cbv zeta.
  set (n := newRow env cid d (created N)).
  set (N1 := N <| rows ::= λ l, l ++ [n] |> <| created ::= S |>).
  assert (H1 : announced N N1 [content n]) by (split_and!; [done..|]; by exists [n]).
  assert (HE : ∀ M' room, announced N M' [content n] →
    ∃ M'', emitTo env room n M' = (M'', Ok tt) ∧ announced N M'' [content n]).
  { intros M' room HM. unfold emitTo, modify. eexists. split; [reflexivity|]. by destruct (serverUp env). }
  destruct (shouldSendImmediately d); [|by eexists _, _; split; [reflexivity|]].
  rewrite !bind_run. destruct (HE N1 ("company:" +:+ cid) H1) as (N2 & -> & H2). cbv beta iota.
  rewrite bind_run.
  assert (H3 : ∃ N3, (if truthy (d_userId d) then emitTo env ("user:" +:+ default "" (d_userId d)) n else mret tt) N2
    = (N3, Ok tt) ∧ announced N N3 [content n])
    by (destruct (truthy _); [by apply HE|by eexists _; split; [reflexivity|]]).
  destruct H3 as (N3 & -> & H3). cbv beta iota.
  case_bool_decide; eexists _, _; (split; [reflexivity|exact H3]).
Qed.

(** An alert of another rule or company does not announce this one. *)
Lemma openAlert_other N N' cid id added :
  announced N N' added → Forall (λ c, ac_company c ≠ cid ∨ ac_link c ≠ Some (linkOf id)) added →
  rows_where (openAlert cid id) N' = rows_where (openAlert cid id) N.
Proof.
  intros (_ & _ & ns & H & <-) Hf. unfold rows_where. rewrite H, filter_app.
  rewrite (filter_none _ ns); [apply app_nil_r|].
  apply Forall_forall. intros n Hn Ho. rewrite Forall_forall in Hf.
  assert (Hc : content n ∈ map content ns) by (apply list_elem_of_In, in_map; by apply list_elem_of_In).
  unfold openAlert in Ho. rewrite !andb_true_iff, !bool_decide_eq_true in Ho.
  destruct (Hf _ Hc) as [H1|H1]; cbn in H1; tauto.
Qed.

Section Check.
Context (env : NoticeEnv) (s : MaintenanceStore).

Definition at_notices (N : NoticeStore) : MaintenanceStore := s <| notices := N |>.

Lemma findDueSoon_notices now cid N : findDueSoon now cid (at_notices N) = findDueSoon now cid s.
Proof. done. Qed.

Lemma checkItem_run cid item N :
  let added := if bool_decide (rows_where (openAlert cid (ss_id item)) N = []) then [alertOf (nt_now env) cid item] else [] in
  ∃ N', checkItem env cid item (at_notices N) = (at_notices N', Ok tt) ∧ announced N N' added.
Proof.
  unfold checkItem. rewrite gets_bind. cbn [notices at_notices].
  change (notices (at_notices N)) with N. destruct (rows_where _ N) as [|n l]; cbn.
  - destruct (create_announces env cid (alertData item) N) as (N' & n & E & H). exists N'. split; [|exact H].
    rewrite bind_run. unfold onNotices, zoom. change (notices (at_notices N)) with N. by rewrite E.
  - exists N. split; [done|apply announced_nil].
Qed.

Lemma checkItems_run cid due : NoDup (map ss_id due) → ∀ N,
  ∃ N', for_each (checkItem env cid) due (at_notices N) = (at_notices N', Ok tt) ∧
        announced N N' (map (alertOf (nt_now env) cid) (unannounced N cid due)).
Proof.
  induction due as [|x due IH]; intros HD N; [exists N; split; [done|apply announced_nil]|].
  cbn [map] in HD. apply NoDup_cons in HD as [Hx HD]. cbn [for_each]. rewrite bind_run.
  destruct (checkItem_run cid x N) as (N1 & -> & H1). cbv beta iota.
  destruct (IH HD N1) as (N2 & -> & H2). exists N2. split; [done|].
  assert (Hsame : unannounced N1 cid due = unannounced N cid due).
  { unfold unannounced. apply filter_iff_in. intros y Hy.
    rewrite (openAlert_other N N1 cid (ss_id y) _ H1); [done|].
    case_bool_decide; [|constructor]. constructor; [|constructor]. right. intros E.
    change (Some (linkOf (ss_id x)) = Some (linkOf (ss_id y))) in E. apply (inj Some), linkOf_inj in E. apply Hx. rewrite E. by apply list_elem_of_fmap_2. }
  rewrite Hsame in H2. unfold unannounced. rewrite filter_cons.
  case_bool_decide; [rewrite decide_True by done|rewrite decide_False by done];
    exact (announced_trans _ _ _ _ _ H1 H2).
Qed.
End Check.

(** ** Which rules are due *)

Lemma schedulesWhere_in P s k r : (k, r) ∈ schedulesWhere P s ↔ schedules s !! k = Some r ∧ P r = true.
Proof. unfold schedulesWhere. rewrite sort_by_perm. apply elem_of_find_many. Qed.

Lemma findDueSoon_in now cid s x :
  x ∈ findDueSoon now cid s ↔
  ∃ id r, schedules s !! id = Some r ∧ ms_companyId r = cid ∧ ms_isActive r = true ∧
          x = withStatus now id r (includedLabel r s) s ∧ ss_status x ≠ ok.
Proof.
  unfold findDueSoon. rewrite sort_by_perm, list_elem_of_filter. split.
  - intros [Hne Hx]. apply list_elem_of_In, in_map_iff in Hx as ([id r] & <- & Hin%list_elem_of_In).
    apply schedulesWhere_in in Hin as [Hl [Hc Ha]%andb_prop]. apply bool_decide_eq_true in Hc. by exists id, r.
  - intros (id & r & Hl & Hc & Ha & -> & Hne). split; [done|]. apply list_elem_of_In, in_map_iff. exists (id, r).
    split; [done|]. apply list_elem_of_In, schedulesWhere_in. by rewrite bool_decide_eq_true_2.
Qed.

Lemma findDueSoon_ids now cid s : NoDup (map ss_id (findDueSoon now cid s)).
Proof.
  unfold findDueSoon.
  rewrite (fmap_Permutation ss_id _ _ (sort_by_perm urgency _) : map _ _ ≡ₚ _).
  eapply sublist_NoDup; [|apply (fmap_sublist ss_id), sublist_filter].
  rewrite <- list_fmap_compose.
  assert (HN : NoDup (schedulesWhere (λ r, bool_decide (ms_companyId r = cid) && ms_isActive r) s).*1).
  { unfold schedulesWhere. rewrite (sort_by_perm _ _). apply find_many_NoDup. }
  exact HN.
Qed.

(** A due date is passed, or at most two weeks away, exactly when the days say so. *)
Lemma daysCeil_le ms k : daysCeil ms ≤ k ↔ ms ≤ k * msPerDay.
Proof. unfold daysCeil, msPerDay. Z.to_euclidean_division_equations; lia. Qed.

Lemma month_rule_status now id r label s months due :
  ms_intervalKm r = None → ms_intervalMonths r = Some months → months ≠ 0 →
  TimeClip (addMonths (getReferenceDate (ms_vehicleId r) (ms_type r) (ms_createdAt r) s) months) = Some due →
  ss_status (withStatus now id r label s) =
    (if due <=? now then overdue
     else if due <=? now + WARNING_DAYS_THRESHOLD * msPerDay then upcoming else ok).
Proof.
  intros H1 H2 H3 H4. unfold withStatus. rewrite H1, H2. cbn [truthyZ]. rewrite (proj2 (Z.eqb_neq _ _) H3).
  cbn [negb ss_status]. change (default 0 (Some months)) with months. rewrite H4. unfold computeStatus. cbn [option_map kmBelow daysBelow orb].
  assert (E : ∀ k, (daysCeil (due - now) <=? k) = (due <=? now + k * msPerDay)).
  { intros k. pose proof (daysCeil_le (due - now) k). destruct (Z.leb_spec (daysCeil (due - now)) k),
      (Z.leb_spec due (now + k * msPerDay)); lia. }
  rewrite !E. by replace (now + 0 * msPerDay) with now by lia.
Qed.

Section Run.
Context (env : NoticeEnv) (s : MaintenanceStore).
Notation now := (nt_now env).

Definition dueAlerts (N : NoticeStore) (cid : string) : list AlertContent :=
  map (alertOf now cid) (unannounced N cid (findDueSoon now cid s)).

Lemma dueAlerts_company N cid : Forall (λ c, ac_company c = cid) (dueAlerts N cid).
Proof. apply Forall_forall. intros c Hc. apply list_elem_of_In, in_map_iff in Hc as (x & <- & _). done. Qed.

Lemma checkCompanies_run cs : NoDup cs → ∀ N,
  ∃ N', for_each (λ cid, try_catch (checkCompany env cid) (λ _, mret tt)) cs (at_notices s N) = (at_notices s N', Ok tt) ∧
        announced N N' (cs ≫= dueAlerts N).
Proof.
  induction cs as [|cid cs IH]; intros HD N; [exists N; split; [done|apply announced_nil]|].
  apply NoDup_cons in HD as [Hc HD]. cbn [for_each]. rewrite bind_run. unfold try_catch at 1, checkCompany at 1.
  rewrite gets_bind, findDueSoon_notices.
  destruct (checkItems_run env s cid (findDueSoon now cid s) (findDueSoon_ids _ _ _) N) as (N1 & -> & H1). cbv beta iota.
  destruct (IH HD N1) as (N2 & -> & H2). exists N2. split; [done|].
  assert (Hsame : cs ≫= dueAlerts N1 = cs ≫= dueAlerts N).
  { clear -Hc H1. induction cs as [|c cs IH]; [done|]. apply not_elem_of_cons in Hc as [Hne Hc].
    cbn. rewrite IH by done. f_equal. unfold dueAlerts, unannounced. f_equal. apply filter_iff_in. intros y _.
    rewrite (openAlert_other N N1 c (ss_id y) _ H1); [done|].
    eapply Forall_impl; [apply (dueAlerts_company N cid)|]. intros a Ha. left. cbn in Ha. congruence. }
  rewrite Hsame in H2. cbn. exact (announced_trans _ _ _ _ _ H1 H2).
Qed.
End Run.

Lemma added_openAlert N N' added cid now item :
  announced N N' added → alertOf now cid item ∈ added → rows_where (openAlert cid (ss_id item)) N' ≠ [].
Proof.
  intros (_ & _ & ns & H & <-) Hin. apply list_elem_of_In, in_map_iff in Hin as (n & E & Hn).
  assert (Ho : openAlert cid (ss_id item) n = true).
  { unfold openAlert. injection E as E1 E2 E3 E4 E5 E6 E7 E8. rewrite E1, E2, E6, E7.
    unfold alertData. cbn [d_type d_link]. by rewrite !bool_decide_eq_true_2. }
  intros HN. apply (not_elem_of_nil n). rewrite <- HN. apply list_elem_of_filter. split; [done|].
  rewrite H. apply elem_of_app. right. by apply list_elem_of_In.
Qed.

Lemma announced_keeps N N' added cid id :
  announced N N' added → rows_where (openAlert cid id) N ≠ [] → rows_where (openAlert cid id) N' ≠ [].
Proof.
  intros (_ & _ & ns & H & _) HN. unfold rows_where. rewrite H, filter_app. intros [E _]%app_eq_nil. by apply HN.
Qed.

Definition alertKey (c : AlertContent) : string * option string := (ac_company c, ac_link c).

Lemma dueAlerts_keys env s N cs : NoDup cs → NoDup (map alertKey (cs ≫= dueAlerts env s N)).
Proof.
  induction 1 as [|cid cs Hc _ IH]; [constructor|]. cbn. change (map alertKey (?a ++ ?b)) with (alertKey <$> (a ++ b)).
  rewrite map_app. apply NoDup_app. split_and!; [|intros k Hk Hk'|exact IH].
  - unfold dueAlerts. rewrite map_map. change (NoDup ((λ x, (cid, Some (linkOf (ss_id x)))) <$> unannounced N cid (findDueSoon (nt_now env) cid s))).
    unfold unannounced. eapply sublist_NoDup; [|apply fmap_sublist, sublist_filter].
    pose proof (findDueSoon_ids (nt_now env) cid s) as HD. revert HD.
    induction (findDueSoon _ _ _) as [|x l IHl]; [constructor|]. cbn. intros [Hx Hl]%NoDup_cons.
    constructor; [|by apply IHl]. intros (y & E & Hy)%list_elem_of_fmap. apply Hx.
    apply (f_equal snd) in E. cbn [snd] in E. apply (inj Some), linkOf_inj in E. rewrite E. by apply list_elem_of_fmap_2.
  - apply list_elem_of_In, in_map_iff in Hk as (c & <- & Hc1%list_elem_of_In).
    apply list_elem_of_In, in_map_iff in Hk' as (c' & E & Hc2%list_elem_of_In).
    pose proof (dueAlerts_company env s N cid) as HF. rewrite Forall_forall in HF. apply HF in Hc1.
    apply list_elem_of_bind in Hc2 as (cid' & Hc2 & Hcid').
    pose proof (dueAlerts_company env s N cid') as HF'. rewrite Forall_forall in HF'. apply HF' in Hc2.
    apply (f_equal fst) in E. cbn in E. congruence.
Qed.

(** The check as one function of what it reads. *)
Lemma check_run env s db :
  NoDup (companies (notices s)) →
  acquireCronLock (redisLink env) (instance env) "maintenance.checkDueMaintenances" 3600 (nt_now env)
    (noticeRedis (notices s)) = (db, true) →
  ∃ N', checkDueMaintenances env s = (at_notices s N', Ok tt) ∧ companies N' = companies (notices s) ∧
    ∃ ns, rows N' = rows (notices s) ++ ns ∧
          map content ns = companies (notices s) ≫= dueAlerts env s (notices s).
Proof.
  intros HD HL. unfold checkDueMaintenances. rewrite HL. cbv zeta beta iota. unfold checkCompanies. rewrite gets_bind.
  set (N0 := (notices s) <| noticeRedis := db |>).
  change (s <| notices := N0 |>) with (at_notices s N0).
  change (companies (notices (at_notices s N0))) with (companies (notices s)).
  destruct (checkCompanies_run env s (companies (notices s)) HD N0) as (N' & E & HC & _ & ns & HR & HM).
  exists N'. split; [exact E|]. split; [exact HC|]. by exists ns.
Qed.

(** C23: the nightly check completes and creates exactly one notification for each
    active rule of a company that is due (at most 500 km or 14 days left, or past)
    and has no unresolved alert, with the priority and text of its state, and
    touches neither the other notifications nor the rules; then every due rule has
    an unresolved alert, no rule got two, and a second check at that time adds
    nothing. *)
Theorem maintenance_alerted env s db : NoDup (companies (notices s)) →
  acquireCronLock (redisLink env) (instance env) "maintenance.checkDueMaintenances" 3600 (nt_now env)
    (noticeRedis (notices s)) = (db, true) →
  ∃ N' ns, checkDueMaintenances env s = (at_notices s N', Ok tt) ∧
    rows N' = rows (notices s) ++ ns ∧
    map content ns = companies (notices s) ≫= dueAlerts env s (notices s) ∧
    NoDup (map alertKey (map content ns)) ∧
    (∀ cid id r, cid ∈ companies (notices s) → schedules s !! id = Some r → ms_companyId r = cid →
       ms_isActive r = true → ss_status (withStatus (nt_now env) id r (includedLabel r s) s) ≠ ok →
       rows_where (openAlert cid id) N' ≠ []) ∧
    rows (notices (checkCompanies env (at_notices s N')).1) = rows N'.
Proof.
  intros HD HL. destruct (check_run env s db HD HL) as (N' & E & HC & ns & HR & HM).
  assert (HA : announced ((notices s) <| noticeRedis := noticeRedis N' |>) N'
    (companies (notices s) ≫= dueAlerts env s (notices s))) by (split_and!; [done..|]; by exists ns).
  assert (Hdue : ∀ cid x, cid ∈ companies (notices s) → x ∈ findDueSoon (nt_now env) cid s →
    rows_where (openAlert cid (ss_id x)) N' ≠ []).
  { intros cid x Hc Hx. destruct (decide (rows_where (openAlert cid (ss_id x)) (notices s) = [])) as [Hn|Hn].
    - refine (added_openAlert _ N' _ cid (nt_now env) x HA _). apply list_elem_of_bind. exists cid. split; [|done].
      apply list_elem_of_In, in_map, list_elem_of_In. by apply list_elem_of_filter.
    - exact (announced_keeps _ N' _ cid (ss_id x) HA Hn). }
  exists N', ns. split_and!; [exact E|exact HR|exact HM| | |].
  - rewrite HM. by apply dueAlerts_keys.
  - intros cid id r Hc Hl Hcid Ha Hst. apply (Hdue cid (withStatus (nt_now env) id r (includedLabel r s) s) Hc).
    apply findDueSoon_in. by exists id, r.
  - unfold checkCompanies. rewrite gets_bind. change (companies (notices (at_notices s N'))) with (companies N').
    rewrite HC. destruct (checkCompanies_run env s _ HD N') as (N2 & -> & _ & _ & ns2 & HR2 & HM2). cbn.
    assert (companies (notices s) ≫= dueAlerts env s N' = []) as HZ.
    { clear -Hdue. revert Hdue. induction (companies (notices s)) as [|c cs IH]; intros Hdue; [done|]. cbn.
      rewrite IH by (intros; apply Hdue; [by right|done]). unfold dueAlerts, unannounced.
      rewrite filter_none; [done|]. apply Forall_forall. intros x Hx. apply Hdue; [left|done]. }
    rewrite HZ in HM2. apply map_eq_nil in HM2. subst ns2. by rewrite app_nil_r in HR2.
Qed.

(** ** The rules *)

Definition ruleOk (r : Schedule) : Prop := truthyZ (ms_intervalKm r) || truthyZ (ms_intervalMonths r) = true.

Inductive RuleRequest :=
  | RCreate (now : Z) (id vid : string) (dto : CreateMaintenanceScheduleDto)
  | RUpdate (id : string) (dto : UpdateMaintenanceScheduleDto)
  | RRemove (id : string).

Definition ruleStep (cid : string) (q : RuleRequest) : M MaintenanceStore unit :=
  match q with
  | RCreate now id vid dto => _ ← create now id cid vid dto; mret tt
  | RUpdate id dto => _ ← update cid id dto; mret tt
  | RRemove id => remove cid id
  end.

(** A request on the rules of a company leaves every rule with an interval to
    count, changes no rule of another company nor anything else than the rule it
    names, and changes nothing when it is refused. *)
Theorem rules_keep_an_interval cid q s :
  (∀ id r, schedules s !! id = Some r → ruleOk r) →
  (match q with RCreate _ id _ _ => schedules s !! id = None | _ => True end) →
  let '(s', r) := ruleStep cid q s in
  (∀ id r, schedules s' !! id = Some r → ruleOk r) ∧
  s' = s <| schedules := schedules s' |> ∧
  (∀ id r, ms_companyId r ≠ cid → schedules s' !! id = Some r ↔ schedules s !! id = Some r) ∧
  (∀ e, r = Throw e → s' = s).
Proof.
  intros HI Hf.
  assert (Hsame : s = s <| schedules := schedules s |>) by (by destruct s).
  assert (Hins : ∀ id row, ruleOk row → ms_companyId row = cid →
    (∀ x, schedules s !! id = Some x → ms_companyId x = cid) →
    let s' := s <| schedules ::= <[id := row]> |> in
    (∀ k r, schedules s' !! k = Some r → ruleOk r) ∧ s' = s <| schedules := schedules s' |> ∧
    (∀ k r, ms_companyId r ≠ cid → schedules s' !! k = Some r ↔ schedules s !! k = Some r)).
  { intros id row Hr Hc Hx s'. cbn. split_and!; [|done|].
    - intros k r [[_ <-]|[_ Hk]]%lookup_insert_Some; [done|eauto].
    - intros k r Hne. rewrite lookup_insert_Some. split; [intros [[_ <-]|[_ Hk]]; congruence|].
      intros Hk. right. split; [|done]. intros <-. by apply Hne, Hx. }
  destruct q as [t id vid dto|id dto|id]; cbn [ruleStep].
  - unfold create, assertVehicleInCompany. rewrite !bind_run. unfold gets at 1. cbv beta iota.
    destruct (findVehicle _ _ _); cbn; [|done].
    destruct (truthyZ _ || truthyZ _) eqn:E; cbn; [|done].
    destruct (Hins id {| ms_companyId := cid; ms_vehicleId := vid; ms_label := cm_label dto; ms_type := cm_type dto;
      ms_intervalKm := cm_intervalKm dto; ms_intervalMonths := cm_intervalMonths dto; ms_isActive := true;
      ms_createdAt := t |} E eq_refl) as (H1 & H2 & H3); [intros x Hx; congruence|]. by split_and!.
  - unfold update. rewrite bind_run, gets_bind. unfold findSchedule.
    destruct (schedules s !! id) as [x|] eqn:Ex; [|done]. case_bool_decide as Hc; [|done].
    cbv zeta. rewrite ensure_bind. destruct (truthyZ _ || truthyZ _) eqn:E; [|done].
    rewrite modify_bind. match goal with |- context [<[id := ?row]>] => destruct (Hins id row E Hc) as (H1 & H2 & H3) end;
      [congruence|]. by split_and!.
  - unfold remove. rewrite gets_bind. unfold findSchedule.
    destruct (schedules s !! id) as [x|] eqn:Ex; [|done]. case_bool_decide as Hc; [|done]. cbn. split_and!; [|done| |done].
    + intros k r [_ Hk]%lookup_delete_Some. eauto.
    + intros k r Hne. rewrite lookup_delete_Some. split; [tauto|]. intros Hk. split; [|done]. congruence.
Qed.

(** ** Examples *)

Definition jan1 : Z := 1767225600000.  (* 2026-01-01 *)
Definition nightEnv (t : Z) : NoticeEnv := mkNoticeEnv (λ k, pretty k) t false "https://app" RedisAbsent "a".
Definition lorry : Vehicle :=
  mkVehicle "c1" "Hino" "300" 2020 "1234 TAB" None "diesel" None true phone None None.
Definition oilChange : Schedule := mkSchedule "c1" "v1" "Vidange" "vidange" (Some 5000) (Some 6) true jan1.

Definition garage (driven : Z) : MaintenanceStore :=
  {| schedules := <["r1" := oilChange]> ∅; fleet := mkFleet {["v1" := lorry]} ∅ ∅ ∅ [];
     records := []; reports := [mkReport "v1" (jan1 + msPerDay) (num_of_Z driven)];
     notices := {| rows := []; created := 0; emitted := []; pendingMails := []; mails := []; members := ∅;
                   assignedDrivers := ∅; companies := ["c1"]; noticeRedis := ∅ |} |}.

Definition night (t : Z) (s : MaintenanceStore) : MaintenanceStore := (checkDueMaintenances (nightEnv t) s).1.
Definition messages (s : MaintenanceStore) : list (NotificationPriority * string) :=
  map (λ n, (nt_priority n, nt_message n)) (rows (notices s)).

Example messages_written :
  messages (night (jan1 + 40 * msPerDay) (garage 4650)) = [(medium, "Hino 300 (1234 TAB) — Vidange (dans 350 km, dans 141 j)")] ∧
  messages (night (jan1 + 40 * msPerDay) (garage 4000)) = [] ∧
  messages (night (jan1 + 190 * msPerDay) (garage 5020))
    = [(high, "Hino 300 (1234 TAB) — Vidange (dépassé de 20 km, dépassé de 9 j)")].
Proof. split_and!; by vm_compute. Qed.

Lemma maintenance_alerted_witness :
  ∃ N' ns, checkDueMaintenances (nightEnv (jan1 + 40 * msPerDay)) (garage 4650) = (at_notices (garage 4650) N', Ok tt) ∧
    rows N' = rows (notices (garage 4650)) ++ ns ∧ rows_where (openAlert "c1" "r1") N' ≠ [].
Proof.
  destruct (maintenance_alerted (nightEnv (jan1 + 40 * msPerDay)) (garage 4650) ∅) as (N' & ns & H1 & H2 & _ & _ & H5 & _).
  - apply NoDup_singleton.
  - reflexivity.
  - exists N', ns. split_and!; [exact H1|exact H2|].
    apply (H5 "c1" "r1" oilChange); [by left|exact (lookup_insert_eq _ _ _)|reflexivity..|by vm_compute].
Defined.

Lemma rules_keep_an_interval_witness :
  let q := RUpdate "r1" (mkUpdateSchedule None None (Some None) None None) in
  let q' := RUpdate "r1" (mkUpdateSchedule None None (Some None) (Some None) None) in
  ms_intervalKm <$> schedules (ruleStep "c1" q (garage 0)).1 !! "r1" = Some None ∧
  is_ok (ruleStep "c1" q' (garage 0)).2 = false ∧
  ∀ id r, schedules (ruleStep "c1" q (garage 0)).1 !! id = Some r → ruleOk r.
Proof.
  cbv zeta. split_and!; [by vm_compute..|].
  pose proof (rules_keep_an_interval "c1" (RUpdate "r1" (mkUpdateSchedule None None (Some None) None None)) (garage 0)) as H.
  destruct (ruleStep _ _ _) as [s' r]. apply H; [|exact I].
  change (∀ id r, (<["r1" := oilChange]> (∅ : gmap string Schedule)) !! id = Some r → ruleOk r).
  intros id x [[_ <-]|[_ Hx]]%lookup_insert_Some; [done|]. by rewrite lookup_empty in Hx.
Defined.

(** An alert that was resolved comes back the night after, although nothing
    changed: the count starts from a record of maintenance, which no operation of
    the program creates. *)
Theorem resolved_alert_returns :
  let s1 := night (jan1 + 190 * msPerDay) (garage 5020) in
  let s2 := (onNotices (resolve (nightEnv (jan1 + 190 * msPerDay + 3600000)) "c1" "0" "u1" None) s1).1 in
  length (rows (notices s1)) = 1%nat ∧
  map nt_resolved (rows (notices s2)) = [true] ∧
  map nt_resolved (rows (notices (night (jan1 + 191 * msPerDay) s2))) = [true; false].
Proof. split_and!; by vm_compute. Qed.

(** A rule announced in advance is not announced again when it is overdue: the
    alert of priority high is never made while the first one is open. *)
Theorem overdue_not_announced :
  let s1 := night (jan1 + 170 * msPerDay) (garage 1000) in
  messages s1 = [(medium, "Hino 300 (1234 TAB) — Vidange (dans 4000 km, dans 11 j)")] ∧
  messages (night (jan1 + 300 * msPerDay) s1) = messages s1.
Proof. split; by vm_compute. Qed.

(** A vehicle that was removed is still announced. *)
Theorem removed_vehicle_announced :
  let s := (garage 5020) <| fleet := mkFleet {["v1" := lorry <| deletedAt := Some jan1 |>]} ∅ ∅ ∅ [] |> in
  length (messages (night (jan1 + 190 * msPerDay) s)) = 1%nat ∧
  (findAllForVehicle jan1 "c1" "v1" s).2 = Throw (NotFoundException "Vehicle not found").
Proof. split; by vm_compute. Qed.
