(* ===== verification/Companies.v ===== *)
(** * modules/companies and the purge of deleted companies

    CompaniesService (companies.service.ts): settings, deletion, the nightly
    scheduling of purges; CompanyPurgeProcessor (queue/company-purge.processor.ts).
    Accounts are those of AuthModel.v, drivers and vehicles those of Fleet.v.  An
    [updateMany] that breaks a unique index throws P2002 and writes nothing. *)

From S2P Require Import Prelude JsString JsDate JsNum Redis AuthModel Fleet.

#[local] Open Scope string_scope.
#[local] Open Scope list_scope.
#[local] Open Scope Z_scope.

Record CompanyRow := mkCompanyRow {
  cy_name : string;
  cy_email : option string;
  cy_phone : option string;
  cy_address : option string;
  cy_logoUrl : option string;
  cy_deletedAt : option Z
}.

Record BillingSettings := mkBillingSettings {
  bs_billingEmail : option string;
  bs_billingAddress : option string;
  bs_billingTaxId : option string
}.

Record FuelUnitSettings := mkFuelUnitSettings { fs_unit : string; fs_anomalyThreshold : num }.

Record CompanyStore := mkCompanyStore {
  cs_companies : gmap string CompanyRow;
  cs_settings : gmap string BillingSettings;  (** companySettings, by company *)
  cs_fuelSettings : gmap string FuelUnitSettings;
  cs_users : gmap string AuthModel.User;
  cs_avatars : gmap string string;  (** user.avatarUrl *)
  cs_fleet : FleetStore;
  cs_reportNames : gmap string (string * string);  (** dailyFuelReport: company, driverName *)
  cs_purgeJobs : list (string * Z);  (** queue 'company-purge': company, attempts made *)
  cs_redis : RedisDb
}.

(** Fields left out are [None]. *)
Record UpdateCompanySettingsDto := mkUpdateSettings {
  uc_name : option string;
  uc_billingEmail : option string;
  uc_billingAddress : option string;
  uc_billingTaxId : option string;
  uc_logoUrl : option string;
  uc_email : option string;
  uc_phone : option string;
  uc_address : option string
}.
Record UpdateCompanyFuelSettingsDto := mkUpdateFuelSettings {
  uf_unit : option string;
  uf_anomalyThreshold : option num
}.

Definition findCompany (cid : string) : M CompanyStore CompanyRow :=
  found ← gets (λ s, cs_companies s !! cid);
  match found with Some c => mret c | None => throw (NotFoundException "Company not found") end.

Definition defaultFuelSettings : FuelUnitSettings := mkFuelUnitSettings "liters" (num_of_Z 15).

(** [upsert({ where, update, create })] *)
Definition upsert {A} (k : string) (f : A → A) (new : A) (t : gmap string A) : gmap string A :=
  match t !! k with Some a => <[k := f a]> t | None => <[k := new]> t end.

Definition getSettings (cid : string)
    : M CompanyStore (CompanyRow * option BillingSettings * option FuelUnitSettings) :=
  _ ← findCompany cid;
  modify (λ s, s <| cs_settings ::= upsert cid (λ x, x) (mkBillingSettings None None None) |>) ;;
  modify (λ s, s <| cs_fuelSettings ::= upsert cid (λ x, x) defaultFuelSettings |>) ;;
  c ← findCompany cid;
  gets (λ s, (c, cs_settings s !! cid, cs_fuelSettings s !! cid)).

(** A field of a dto replaces the column when it is there. *)
Definition overwrite {A} (new old : option A) : option A := match new with Some _ => new | None => old end.

Definition updateSettings (cid : string) (dto : UpdateCompanySettingsDto) :=
  _ ← findCompany cid;
  modify (λ s, s <| cs_companies ::= alter (λ c,
    c <| cy_name := default (cy_name c) (uc_name dto) |> <| cy_email ::= overwrite (uc_email dto) |>
      <| cy_phone ::= overwrite (uc_phone dto) |> <| cy_address ::= overwrite (uc_address dto) |>
      <| cy_logoUrl ::= overwrite (uc_logoUrl dto) |>) cid |>) ;;
  modify (λ s, s <| cs_settings ::= upsert cid
    (λ x, mkBillingSettings (overwrite (uc_billingEmail dto) (bs_billingEmail x))
            (overwrite (uc_billingAddress dto) (bs_billingAddress x)) (overwrite (uc_billingTaxId dto) (bs_billingTaxId x)))
    (mkBillingSettings (uc_billingEmail dto) (uc_billingAddress dto) (uc_billingTaxId dto)) |>) ;;
  getSettings cid.

Definition updateFuelSettings (cid : string) (dto : UpdateCompanyFuelSettingsDto) :=
  _ ← findCompany cid;
  let set_ x := mkFuelUnitSettings (default (fs_unit x) (uf_unit dto))
                  (default (fs_anomalyThreshold x) (uf_anomalyThreshold dto)) in
  modify (λ s, s <| cs_fuelSettings ::= upsert cid set_ (set_ defaultFuelSettings) |>) ;;
  getSettings cid.

Definition deleteCompany (now : Z) (cid confirmationName : string) : M CompanyStore unit :=
  c ← findCompany cid;
  ensure (String.eqb (cy_name c) confirmationName) (BadRequestException "Company name confirmation does not match") ;;
  modify (λ s, s <| cs_companies ::= alter (λ c, c <| cy_deletedAt := Some now |>) cid |>).

(** [assertOwnCompany] of companies.controller.ts, before each handler. *)
Definition assertOwnCompany (companyId paramId : string) : M CompanyStore unit :=
  ensure (String.eqb paramId companyId) (NotFoundException "Company not found").

(** ** Scheduling *)

Section Purge.
Context (PURGE_GRACE_DAYS : Z).

Definition graceMs : Z := PURGE_GRACE_DAYS * 24 * 60 * 60 * 1000.

Definition graceOver (now : Z) (c : CompanyRow) : bool :=
  match cy_deletedAt c with Some t => t <=? now - graceMs | None => false end.

Definition schedulePendingPurges (link : RedisLink) (instance : string) (now : Z) : M CompanyStore unit := λ s,
  let '(db, got) := acquireCronLock link instance "companies.schedulePendingPurges" 3600 now (cs_redis s) in
  let s := s <| cs_redis := db |> in
  if got then
    for_each (λ kv : string * CompanyRow, modify (λ s, s <| cs_purgeJobs ::= λ l, l ++ [(kv.1, 0)] |>))
      (find_many (λ _ c, graceOver now c) (cs_companies s)) s
  else (s, Ok tt).

(** ** CompanyPurgeProcessor *)

Definition redactedEmail (cid : string) : string := "redacted-" +:+ cid +:+ "@deleted.local".
Definition redactUser (cid : string) (u : AuthModel.User) : AuthModel.User :=
  u <| email := redactedEmail cid |> <| firstName := "[Deleted]" |> <| lastName := "[Deleted]" |>
    <| AuthModel.phone := None |> <| AuthModel.isActive := false |> <| legacyRefreshTokenHash := None |>
    <| resetTokenHash := None |> <| resetTokenId := None |> <| resetTokenExpiry := None |>
    <| googleId := None |> <| totpSecret := None |> <| totpEnabled := false |>
    <| passwordHash := "[DELETED]" |>.
Definition deletedLicense (cid : string) : string := "DRV-DELETED-" +:+ sliceTo 8 cid.
Definition redactDriver (cid : string) (d : Driver) : Driver :=
  d <| dr_firstName := "[Deleted]" |> <| dr_lastName := "[Deleted]" |> <| dr_email := None |>
    <| dr_phone := None |> <| dr_licenseNumber := deletedLicense cid |>.
Definition redactVehicle (v : Vehicle) : Vehicle :=
  v <| Fleet.isActive := false |> <| vin := None |> <| traccarDeviceId := None |>.

(** users_email_key. *)
Definition emailsDistinct (t : gmap string AuthModel.User) : bool :=
  bool_decide (NoDup (map (λ kv, email kv.2) (map_to_list t))).
(** drivers_company_id_license_number_key, on the drivers not removed. *)
Definition licensesDistinct (t : gmap string Driver) : bool :=
  bool_decide (NoDup (map (λ kv, (dr_companyId kv.2, dr_licenseNumber kv.2))
    (find_many (λ _ d, bool_decide (dr_deletedAt d = None)) t))).

Definition ofCompany (cid : string) : string → AuthModel.User → bool :=
  λ _ u, bool_decide (AuthModel.companyId u = cid).

Definition purgeUsers (cid : string) : M CompanyStore unit := λ s,
  let t := update_many (ofCompany cid) (redactUser cid) (cs_users s) in
  if emailsDistinct t
  then (s <| cs_users := t |>
          <| cs_avatars ::= delete_many (λ id _, match cs_users s !! id with Some u => ofCompany cid id u | None => false end) |>,
        Ok tt)
  else (s, Throw PrismaP2002).
Definition purgeDrivers (cid : string) : M CompanyStore unit := λ s,
  let t := update_many (λ _ d, bool_decide (dr_companyId d = cid)) (redactDriver cid) (drivers (cs_fleet s)) in
  if licensesDistinct t then (s <| cs_fleet ::= (λ f, f <| drivers := t |>) |>, Ok tt) else (s, Throw PrismaP2002).
Definition purgeVehicles (cid : string) : M CompanyStore unit :=
  modify (λ s, s <| cs_fleet ::= (λ f, f <| vehicles ::= update_many (λ _ v, bool_decide (Fleet.companyId v = cid)) redactVehicle |>) |>).
Definition purgeRow (cid : string) : M CompanyStore unit :=
  modify (λ s, s <| cs_companies ::= alter (λ c,
    c <| cy_name := "[Deleted]" |> <| cy_email := None |> <| cy_phone := None |> <| cy_address := None |>
      <| cy_logoUrl := None |>) cid |>).

(** [process] *)
Definition processPurge (now : Z) (cid : string) : M CompanyStore unit :=
  company ← gets (λ s, cs_companies s !! cid);
  match company ≫= cy_deletedAt with
  | None => mret tt
  | Some deletedAt =>
      if now - deletedAt <? graceMs then mret tt
      else transaction (purgeUsers cid ;; purgeDrivers cid ;; purgeVehicles cid ;; purgeRow cid)
  end.

(** [defaultJobOptions] of queue.module.ts. *)
Definition purgeAttempts : Z := 3.

(** The oldest job of the queue runs; when it throws it is tried again until its
    attempts are used up. *)
Definition runPurgeJob (now : Z) : M CompanyStore unit := λ s,
  match cs_purgeJobs s with
  | [] => (s, Ok tt)
  | (cid, n) :: rest =>
      match processPurge now cid (s <| cs_purgeJobs := rest |>) with
      | (s', Ok _) => (s', Ok tt)
      | (s', Throw e) =>
          (if n + 1 <? purgeAttempts then s' <| cs_purgeJobs ::= λ l, l ++ [(cid, n + 1)] |> else s', Throw e)
      end
  end.
End Purge.
