(* ===== verification/CompaniesProps.v ===== *)
(** * Companies: the purge of personal data, exactly *)

From S2P Require Import Prelude JsString JsDate JsNum Redis AuthModel Fleet Companies.

#[local] Open Scope string_scope.
#[local] Open Scope list_scope.
#[local] Open Scope Z_scope.

(** ** Unique indexes *)

(** Two rows agree on a key only when they are the same. *)
Definition distinctBy {A K} (P : A → Prop) (key : A → K) (t : gmap string A) : Prop :=
  ∀ i j a b, t !! i = Some a → t !! j = Some b → P a → P b → key a = key b → i = j.

Lemma NoDup_fmap_distinct {A K} (key : A → K) (l : list (string * A)) : NoDup l.*1 →
  NoDup (map (λ kv, key kv.2) l) ↔
  (∀ i j a b, (i, a) ∈ l → (j, b) ∈ l → key a = key b → i = j).
Proof.
  induction l as [|[k x] l IH]; cbn; [split; [by intros _ ?????%elem_of_nil|constructor]|].
  intros [Hk HN]%NoDup_cons. specialize (IH HN). rewrite NoDup_cons, IH. split.
  - intros [Hx HD] i j a b [Ha|Ha]%elem_of_cons [Hb|Hb]%elem_of_cons E; simplify_eq; [done| | |by eapply HD];
      exfalso; apply Hx; [rewrite E|rewrite <- E];
      first [by apply (list_elem_of_fmap_2 (λ kv : string * A, key kv.2) l (j, b))
            |by apply (list_elem_of_fmap_2 (λ kv : string * A, key kv.2) l (i, a))].
  - intros HD. split.
    + intros ([j b] & E & Hb)%list_elem_of_fmap. apply Hk.
      assert (k = j) as -> by (eapply HD; [by left|by right|done]).
      by apply (list_elem_of_fmap_2 fst l (j, b)).
    + intros i j a b Ha Hb. apply HD; by right.
Qed.

Lemma emailsDistinct_spec t : emailsDistinct t = true ↔ distinctBy (λ _, True) email t.
Proof.
  unfold emailsDistinct, distinctBy. rewrite bool_decide_eq_true, NoDup_fmap_distinct by apply NoDup_fst_map_to_list.
  setoid_rewrite elem_of_map_to_list. naive_solver.
Qed.

Lemma licensesDistinct_spec t :
  licensesDistinct t = true ↔
  distinctBy (λ d, dr_deletedAt d = None) (λ d, (dr_companyId d, dr_licenseNumber d)) t.
Proof.
  unfold licensesDistinct, distinctBy.
  rewrite bool_decide_eq_true, (NoDup_fmap_distinct (λ d, (dr_companyId d, dr_licenseNumber d)))
    by apply find_many_NoDup.
  split; intros H i j a b.
  - intros Hi Hj Ha Hb. apply (H i j a b); apply elem_of_find_many; by rewrite bool_decide_eq_true.
  - intros [Hi Ha%bool_decide_eq_true]%elem_of_find_many [Hj Hb%bool_decide_eq_true]%elem_of_find_many.
    by apply (H i j a b).
Qed.

(** ** The purge *)

Section Purge.
Context (days : Z).

(** The users of a company; its drivers not removed. *)
Definition usersOf (cid : string) (s : CompanyStore) : list (string * AuthModel.User) :=
  find_many (ofCompany cid) (cs_users s).
Definition driversOf (cid : string) (s : CompanyStore) : list (string * Driver) :=
  find_many (λ _ d, bool_decide (dr_companyId d = cid) && bool_decide (dr_deletedAt d = None)) (drivers (cs_fleet s)).

(** At most one element. *)
Definition atMostOne {A} (l : list A) : Prop := (length l ≤ 1)%nat.

Record tablesOk (cid : string) (s : CompanyStore) : Prop := {
  tk_emails : distinctBy (λ _, True) email (cs_users s);
  tk_licenses : distinctBy (λ d, dr_deletedAt d = None) (λ d, (dr_companyId d, dr_licenseNumber d)) (drivers (cs_fleet s));
  (* nobody else has taken the address the purge writes *)
  tk_free : ∀ i u, cs_users s !! i = Some u → AuthModel.companyId u ≠ cid → email u ≠ redactedEmail cid
}.

Lemma atMostOne_spec {A} (P : string → A → bool) (t : gmap string A) :
  atMostOne (find_many P t) ↔ ∀ i j a b, t !! i = Some a → t !! j = Some b → P i a = true → P j b = true → i = j.
Proof.
  pose proof (find_many_NoDup P t) as HN. split.
  - intros H i j a b Ha Hb Pa Pb.
    assert (H1 : (i, a) ∈ find_many P t) by (by apply elem_of_find_many).
    assert (H2 : (j, b) ∈ find_many P t) by (by apply elem_of_find_many).
    unfold atMostOne in H. destruct (find_many P t) as [|x [|y l]]; [by apply elem_of_nil in H1| |cbn in H; lia].
    apply list_elem_of_singleton in H1, H2. congruence.
  - intros H. unfold atMostOne.
    destruct (find_many P t) as [|[i a] [|[j b] l]] eqn:E; [cbn; lia|cbn; lia|exfalso].
    assert (H1 : (i, a) ∈ find_many P t) by (rewrite E; left).
    assert (H2 : (j, b) ∈ find_many P t) by (rewrite E; right; left).
    apply elem_of_find_many in H1 as [], H2 as []. assert (i = j) by eauto. subst.
    try rewrite E in HN. cbn in HN. apply NoDup_cons in HN as [HN _]. apply HN. left.
Qed.

Lemma purged_emails cid s : tablesOk cid s →
  emailsDistinct (update_many (ofCompany cid) (redactUser cid) (cs_users s)) = true ↔ atMostOne (usersOf cid s).
Proof.
  intros [He _ Hf]. rewrite emailsDistinct_spec. unfold usersOf. rewrite atMostOne_spec.
  assert (HL : ∀ i u, update_many (ofCompany cid) (redactUser cid) (cs_users s) !! i = Some u ↔
    ∃ v, cs_users s !! i = Some v ∧ u = if ofCompany cid i v then redactUser cid v else v).
  { intros i u. rewrite lookup_update_many. destruct (cs_users s !! i) as [v|]; cbn; naive_solver. }
  split.
  - intros HD i j a b Ha Hb Pa Pb. apply (HD i j (redactUser cid a) (redactUser cid b)); [| |done..].
    + apply HL. exists a. by rewrite Pa.
    + apply HL. exists b. by rewrite Pb.
  - intros HO i j a b (a' & Ha & ->)%HL (b' & Hb & ->)%HL _ _.
    assert (HP : ∀ k v, ofCompany cid k v = false → AuthModel.companyId v ≠ cid)
      by (intros k v Hv; by apply bool_decide_eq_false in Hv).
    destruct (ofCompany cid i a') eqn:Pa, (ofCompany cid j b') eqn:Pb; cbn; intros E.
    + by apply (HO i j a' b').
    + exfalso. apply (Hf j b' Hb (HP _ _ Pb)). done.
    + exfalso. by apply (Hf i a' Ha (HP _ _ Pa)).
    + by apply (He i j a' b').
Qed.

Lemma purged_licenses cid s : tablesOk cid s →
  licensesDistinct (update_many (λ _ d, bool_decide (dr_companyId d = cid)) (redactDriver cid) (drivers (cs_fleet s))) = true
  ↔ atMostOne (driversOf cid s).
Proof.
  intros [_ Hl _]. rewrite licensesDistinct_spec. unfold driversOf. rewrite atMostOne_spec.
  set (P := λ (_ : string) d, bool_decide (dr_companyId d = cid)).
  assert (HL : ∀ i u, update_many P (redactDriver cid) (drivers (cs_fleet s)) !! i = Some u ↔
    ∃ v, drivers (cs_fleet s) !! i = Some v ∧ u = if P i v then redactDriver cid v else v).
  { intros i u. rewrite lookup_update_many. destruct (drivers (cs_fleet s) !! i) as [v|]; cbn; naive_solver. }
  split.
  - intros HD i j a b Ha Hb [Pa Da%bool_decide_eq_true]%andb_prop [Pb Db%bool_decide_eq_true]%andb_prop.
    apply (HD i j (redactDriver cid a) (redactDriver cid b)); [| |done|done|].
    + apply HL. exists a. unfold P. by rewrite Pa.
    + apply HL. exists b. unfold P. by rewrite Pb.
    + apply bool_decide_eq_true in Pa, Pb. cbn. congruence.
  - intros HO i j a b (a' & Ha & ->)%HL (b' & Hb & ->)%HL Da Db. unfold P in *.
    case_bool_decide as Pa; case_bool_decide as Pb; cbn in *; intros E.
    + apply (HO i j a' b'); [done|done| |]; by rewrite !bool_decide_eq_true_2.
    + congruence.
    + congruence.
    + by apply (Hl i j a' b').
Qed.

(** No personal datum is left in the rows of the company. *)
Record erased (cid : string) (s : CompanyStore) : Prop := {
  er_users : ∀ i u, cs_users s !! i = Some u → AuthModel.companyId u = cid →
    email u = redactedEmail cid ∧ firstName u = "[Deleted]" ∧ lastName u = "[Deleted]" ∧ AuthModel.phone u = None ∧
    googleId u = None ∧ totpSecret u = None ∧ passwordHash u = "[DELETED]" ∧ AuthModel.isActive u = false ∧
    cs_avatars s !! i = None;
  er_drivers : ∀ i d, drivers (cs_fleet s) !! i = Some d → dr_companyId d = cid →
    dr_firstName d = "[Deleted]" ∧ dr_lastName d = "[Deleted]" ∧ dr_email d = None ∧ dr_phone d = None ∧
    dr_licenseNumber d = deletedLicense cid;
  er_vehicles : ∀ i v, vehicles (cs_fleet s) !! i = Some v → Fleet.companyId v = cid → vin v = None ∧ traccarDeviceId v = None;
  er_company : ∀ c, cs_companies s !! cid = Some c →
    cy_name c = "[Deleted]" ∧ cy_email c = None ∧ cy_phone c = None ∧ cy_address c = None ∧ cy_logoUrl c = None
}.

(** The rows of the other companies are the same. *)
Record othersSame (cid : string) (s s' : CompanyStore) : Prop := {
  os_users : ∀ i u, AuthModel.companyId u ≠ cid → cs_users s' !! i = Some u ↔ cs_users s !! i = Some u;
  os_avatars : ∀ i u, cs_users s !! i = Some u → AuthModel.companyId u ≠ cid → cs_avatars s' !! i = cs_avatars s !! i;
  os_drivers : ∀ i d, dr_companyId d ≠ cid → drivers (cs_fleet s') !! i = Some d ↔ drivers (cs_fleet s) !! i = Some d;
  os_vehicles : ∀ i v, Fleet.companyId v ≠ cid → vehicles (cs_fleet s') !! i = Some v ↔ vehicles (cs_fleet s) !! i = Some v;
  os_companies : ∀ i, i ≠ cid → cs_companies s' !! i = cs_companies s !! i
}.

(** A redaction that keeps the company leaves the other companies alone. *)
Lemma update_many_other {A} (co : A → string) cid (f : A → A) t i a :
  (∀ x, co (f x) = co x) → co a ≠ cid →
  update_many (λ _ x, bool_decide (co x = cid)) f t !! i = Some a ↔ t !! i = Some a.
Proof.
  intros Hf Ha. rewrite lookup_update_many. destruct (t !! i) as [x|]; cbn; [|done].
  case_bool_decide as E; [|done]. split; intros [= <-]; exfalso; apply Ha; [by rewrite Hf|done].
Qed.

Lemma update_many_own {A} (co : A → string) cid (f : A → A) t i a :
  (∀ x, co (f x) = co x) → co a = cid →
  update_many (λ _ x, bool_decide (co x = cid)) f t !! i = Some a → ∃ x, t !! i = Some x ∧ co x = cid ∧ a = f x.
Proof.
  intros Hf Ha. rewrite lookup_update_many. destruct (t !! i) as [x|]; cbn; [|done].
  case_bool_decide as E; intros [= <-]; [by exists x|done].
Qed.

Definition purgedStore (cid : string) (s : CompanyStore) : CompanyStore :=
  s <| cs_users ::= update_many (ofCompany cid) (redactUser cid) |>
    <| cs_avatars ::= delete_many (λ id _, match cs_users s !! id with Some u => ofCompany cid id u | None => false end) |>
    <| cs_fleet ::= (λ f, f <| drivers ::= update_many (λ _ d, bool_decide (dr_companyId d = cid)) (redactDriver cid) |>
                            <| vehicles ::= update_many (λ _ v, bool_decide (Fleet.companyId v = cid)) redactVehicle |>) |>
    <| cs_companies ::= alter (λ c, c <| cy_name := "[Deleted]" |> <| cy_email := None |> <| cy_phone := None |>
                                      <| cy_address := None |> <| cy_logoUrl := None |>) cid |>.

Lemma purgedStore_erased cid s : erased cid (purgedStore cid s).
Proof.
  constructor.
  - intros i u Hu Hc. apply (update_many_own AuthModel.companyId cid (redactUser cid)) in Hu as (x & Hx & Hxc & ->); [|done..].
    split_and!; [done..|]. unfold purgedStore. cbn. rewrite lookup_delete_many, Hx. unfold ofCompany.
    rewrite bool_decide_eq_true_2 by done. by destruct (cs_avatars s !! i).
  - intros i d Hd Hc. apply (update_many_own dr_companyId cid (redactDriver cid)) in Hd as (x & _ & _ & ->); done.
  - intros i v Hv Hc. apply (update_many_own Fleet.companyId cid redactVehicle) in Hv as (x & _ & _ & ->); done.
  - intros c Hc. change (alter (λ c, c <| cy_name := "[Deleted]" |> <| cy_email := None |> <| cy_phone := None |>
      <| cy_address := None |> <| cy_logoUrl := None |>) cid (cs_companies s) !! cid = Some c) in Hc.
    rewrite lookup_alter_eq in Hc. by destruct (cs_companies s !! cid); simplify_eq/=.
Qed.

Lemma purgedStore_others cid s : othersSame cid s (purgedStore cid s).
Proof.
  constructor.
  - intros i u Hu. by apply (update_many_other AuthModel.companyId cid (redactUser cid)).
  - intros i u Hi Hu. unfold purgedStore. cbn. rewrite lookup_delete_many, Hi. unfold ofCompany.
    rewrite bool_decide_eq_false_2 by done. by destruct (cs_avatars s !! i).
  - intros i d Hd. by apply (update_many_other dr_companyId cid (redactDriver cid)).
  - intros i v Hv. by apply (update_many_other Fleet.companyId cid redactVehicle).
  - intros i Hi. by apply lookup_alter_ne.
Qed.

End Purge.

(** ** Scheduling and requests *)

Lemma queue_jobs (l : list (string * CompanyRow)) s :
  for_each (λ kv : string * CompanyRow, modify (λ s, s <| cs_purgeJobs ::= λ l, l ++ [(kv.1, 0)] |>)) l s
  = (s <| cs_purgeJobs ::= λ j, j ++ map (λ kv, (kv.1, 0)) l |>, Ok tt).
Proof.
  revert s. induction l as [|kv l IH]; intros s; cbn [for_each].
  - destruct s as [a b c d e f g jobs r].
    change ((mkCompanyStore a b c d e f g jobs r, Ok tt) = (mkCompanyStore a b c d e f g (jobs ++ []) r, Ok tt)).
    by rewrite app_nil_r.
  - rewrite modify_bind, IH. destruct s as [a b c d e f g jobs r].
    change ((mkCompanyStore a b c d e f g ((jobs ++ [(kv.1, 0)]) ++ map (λ kv, (kv.1, 0)) l) r, Ok tt)
      = (mkCompanyStore a b c d e f g (jobs ++ (kv.1, 0) :: map (λ kv, (kv.1, 0)) l) r, Ok tt)).
    by rewrite <- app_assoc.
Qed.

(** The night queues one job for each company whose grace period is over, and for
    no other. *)
Theorem schedule_exact days link inst now s db :
  acquireCronLock link inst "companies.schedulePendingPurges" 3600 now (cs_redis s) = (db, true) →
  ∃ l, schedulePendingPurges days link inst now s
       = (s <| cs_redis := db |> <| cs_purgeJobs ::= λ j, j ++ map (λ cid, (cid, 0)) l |>, Ok tt) ∧
    NoDup l ∧
    ∀ cid, cid ∈ l ↔ ∃ c t, cs_companies s !! cid = Some c ∧ cy_deletedAt c = Some t ∧ t + graceMs days ≤ now.
Proof.
  intros HL. unfold schedulePendingPurges. rewrite HL. cbv zeta. rewrite queue_jobs.
  exists (find_many (λ _ c, graceOver days now c) (cs_companies s)).*1.
  split; [|split; [apply find_many_NoDup|]].
  - assert (EM : ∀ l : list (string * CompanyRow), map (λ kv, (kv.1, 0)) l = map (λ cid : string, (cid, 0)) l.*1)
      by (intros l; induction l as [|x l IHl]; [done|cbn; by f_equal]).
    cbn [cs_companies]. by rewrite EM.
  - intros cid. rewrite list_elem_of_fmap. split.
    + intros ([k c] & -> & [Hc He]%elem_of_find_many). cbn. unfold graceOver in He.
      destruct (cy_deletedAt c) as [t|] eqn:Et; [|done]. apply Z.leb_le in He. exists c, t. split_and!; [done..|lia].
    + intros (c & t & Hc & Et & Ht). exists (cid, c). split; [done|]. apply elem_of_find_many. split; [done|].
      unfold graceOver. rewrite Et. apply Z.leb_le. lia.
Qed.

Lemma schedule_exact_witness :
  let s := mkCompanyStore (<["c1" := mkCompanyRow "Vola" None None None None (Some 0)]> ∅) ∅ ∅ ∅ ∅ (mkFleet ∅ ∅ ∅ ∅ []) ∅ [] ∅ in
  ∃ l, (schedulePendingPurges 30 RedisAbsent "a" (86400000 * 31) s).2 = Ok tt ∧ NoDup l ∧ "c1" ∈ l.
Proof.
  cbv zeta. set (s := mkCompanyStore _ _ _ _ _ _ _ _ _).
  destruct (schedule_exact 30 RedisAbsent "a" (86400000 * 31) s ∅ eq_refl) as (l & H1 & H2 & H3).
  exists l. split_and!; [by rewrite H1|done|]. apply H3. eexists _, 0. split_and!; [exact (lookup_insert_eq _ _ _)|done|].
  unfold graceMs. lia.
Defined.

Inductive CompanyRequest :=
  | CGetSettings
  | CUpdateSettings (dto : UpdateCompanySettingsDto)
  | CUpdateFuel (dto : UpdateCompanyFuelSettingsDto)
  | CDelete (now : Z) (confirmationName : string).

(** The handlers of companies.controller.ts. *)
Definition companyRequest (companyId paramId : string) (q : CompanyRequest) : M CompanyStore unit :=
  assertOwnCompany companyId paramId ;;
  match q with
  | CGetSettings => _ ← getSettings companyId; mret tt
  | CUpdateSettings dto => _ ← updateSettings companyId dto; mret tt
  | CUpdateFuel dto => _ ← updateFuelSettings companyId dto; mret tt
  | CDelete now name => deleteCompany now companyId name
  end.

(** Only the company [cid] and its settings differ. *)
Definition ownCompany (cid : string) (s s' : CompanyStore) : Prop :=
  (∀ i, i ≠ cid → cs_companies s' !! i = cs_companies s !! i ∧ cs_settings s' !! i = cs_settings s !! i ∧
                  cs_fuelSettings s' !! i = cs_fuelSettings s !! i) ∧
  cs_users s' = cs_users s ∧ cs_fleet s' = cs_fleet s ∧ cs_purgeJobs s' = cs_purgeJobs s.
#[local] Instance ownCompany_preorder cid : PreOrder (ownCompany cid).
Proof.
  split; [by intros s|]. intros s1 s2 s3 (H1 & E1 & E2 & E3) (H2 & F1 & F2 & F3).
  split_and!; [|congruence..]. intros i Hi. destruct (H1 i Hi) as (-> & -> & ->) || idtac.
  destruct (H1 i Hi) as (A1 & A2 & A3), (H2 i Hi) as (B1 & B2 & B3). split_and!; congruence.
Qed.

Lemma upsert_other {A} k (f : A → A) new t i : i ≠ k → upsert k f new t !! i = t !! i.
Proof. intros Hi. unfold upsert. case_match; by apply lookup_insert_ne. Qed.

Lemma own_companies cid f : footprint (ownCompany cid) (modify (λ s, s <| cs_companies ::= alter f cid |>)).
Proof. intros s. split_and!; [|done..]. intros i Hi. split_and!; [by apply lookup_alter_ne|done..]. Qed.
Lemma own_settings cid f new : footprint (ownCompany cid) (modify (λ s, s <| cs_settings ::= upsert cid f new |>)).
Proof. intros s. split_and!; [|done..]. intros i Hi. split_and!; [done|by apply upsert_other|done]. Qed.
Lemma own_fuel cid f new : footprint (ownCompany cid) (modify (λ s, s <| cs_fuelSettings ::= upsert cid f new |>)).
Proof. intros s. split_and!; [|done..]. intros i Hi. split_and!; [done..|by apply upsert_other]. Qed.
#[local] Hint Resolve own_companies own_settings own_fuel : footprint.

(** No company is marked deleted or restored. *)
Definition keepsDeletion (s s' : CompanyStore) : Prop :=
  ∀ i, cy_deletedAt <$> cs_companies s' !! i = cy_deletedAt <$> cs_companies s !! i.
#[local] Instance keepsDeletion_preorder : PreOrder keepsDeletion.
Proof. split; [done|]. intros s1 s2 s3 H1 H2 i. by rewrite H2, H1. Qed.
Lemma keepsDeletion_same s s' : cs_companies s' = cs_companies s → keepsDeletion s s'.
Proof. intros E i. by rewrite E. Qed.
Lemma keepsDeletion_update cid f s : (∀ c, cy_deletedAt (f c) = cy_deletedAt c) →
  keepsDeletion s (s <| cs_companies ::= alter f cid |>).
Proof.
  intros Hf i. cbn. destruct (decide (i = cid)) as [->|Hi]; [|by rewrite lookup_alter_ne].
  rewrite lookup_alter_eq. by destruct (cs_companies s !! cid); cbn; rewrite ?Hf.
Qed.

(** A request of an administrator reaches no company but his own, and a
    company is only marked deleted by its administrator who typed its name. *)
Theorem company_requests_confined companyId paramId q s :
  let s' := (companyRequest companyId paramId q s).1 in
  ownCompany companyId s s' ∧
  (paramId ≠ companyId → s' = s) ∧
  (∀ c c', cs_companies s !! companyId = Some c → cs_companies s' !! companyId = Some c' →
     cy_deletedAt c' ≠ cy_deletedAt c → ∃ now, q = CDelete now (cy_name c) ∧ paramId = companyId ∧ cy_deletedAt c' = Some now).
Proof.
  cbv zeta. split; [|split].
  - assert (HF : footprint (ownCompany companyId) (companyRequest companyId paramId q)); [|apply HF].
    unfold companyRequest, assertOwnCompany, updateSettings, updateFuelSettings, getSettings, deleteCompany, findCompany.
    repeat first [apply own_companies | apply own_settings | apply own_fuel | footprint_step].
  - intros Hne. unfold companyRequest, assertOwnCompany. rewrite ensure_bind.
    destruct (String.eqb_spec paramId companyId); done.
  - intros c c' Hc. unfold companyRequest, assertOwnCompany. rewrite ensure_bind.
    destruct (String.eqb_spec paramId companyId) as [->|]; [|intros H Hd; cbn in H; congruence].
    destruct q as [| | |now name].
    4: { unfold deleteCompany, findCompany. rewrite bind_run, gets_bind, Hc. cbn [fst snd mret M_ret]. cbv beta iota.
      unfold mret, M_ret. rewrite ensure_bind. destruct (String.eqb_spec (cy_name c) name) as [<-|]; [|intros H Hd; cbn in H; congruence].
      cbn. rewrite lookup_alter_eq, Hc. cbn. intros [= <-] _. by exists now. }
    all: intros H Hd; exfalso; apply Hd.
    all: match type of H with cs_companies (?m ?x).1 !! _ = _ => assert (HF : footprint keepsDeletion m) end.
    1, 3, 5: unfold updateSettings, updateFuelSettings, getSettings, findCompany; footprint_auto;
      first [by apply keepsDeletion_update | by apply keepsDeletion_same].
    all: specialize (HF s companyId); rewrite H, Hc in HF; cbn in HF; congruence.
Qed.

(** ** Examples *)

Definition account (e cid : string) : AuthModel.User :=
  mkUser e "hash" "Aina" "R" (Some "034") admin cid true None false None None None None None None.

Definition deletedAt0 : gmap string CompanyRow := <["c1" := mkCompanyRow "Vola" (Some "v@x.mg") None None None (Some 0)]> ∅.
Definition withAccounts (t : gmap string AuthModel.User) : CompanyStore :=
  mkCompanyStore deletedAt0 ∅ ∅ t ∅ (mkFleet ∅ ∅ ∅ ∅ []) {["rep1" := ("c1", "Da R")]} [] ∅.
Definition oneAccount : CompanyStore := withAccounts (<["u1" := account "a@x.mg" "c1"]> (<["u9" := account "z@x.mg" "c2"]> ∅)).
Definition twoAccounts : CompanyStore := withAccounts (<["u1" := account "a@x.mg" "c1"]> (<["u2" := account "b@x.mg" "c1"]> ∅)).

(** The night of day [d], and the three attempts of the queue. *)
Definition nightOf (d : Z) (s : CompanyStore) : CompanyStore :=
  let now := d * 86400000 in
  let job s := (runPurgeJob 30 now s).1 in
  job (job (job (schedulePendingPurges 30 RedisAbsent "a" now s).1)).

Lemma oneAccount_ok : tablesOk "c1" oneAccount.
Proof.
  constructor.
  - apply emailsDistinct_spec. by vm_compute.
  - apply licensesDistinct_spec. by vm_compute.
  - change (∀ i u, (<["u1" := account "a@x.mg" "c1"]> (<["u9" := account "z@x.mg" "c2"]> ∅) : gmap string AuthModel.User) !! i = Some u →
      AuthModel.companyId u ≠ "c1" → email u ≠ redactedEmail "c1").
    intros i u. rewrite !lookup_insert_Some, lookup_empty.
    intros [[_ <-]|[_ [[_ <-]|[_ H]]]] Hc; [by destruct Hc|by vm_compute|done].
Qed.


(** A company with two accounts is never purged: its data stay, and each night
    tries again in vain. *)
Theorem two_accounts_never_purged :
  let email_of k (s : CompanyStore) := email <$> cs_users s !! k in
  email_of "u1" (nightOf 31 oneAccount) = Some (redactedEmail "c1") ∧
  let s := nightOf 33 (nightOf 32 (nightOf 31 twoAccounts)) in
  email_of "u1" s = Some "a@x.mg" ∧ email_of "u2" s = Some "b@x.mg" ∧
  cy_email <$> cs_companies s !! "c1" = Some (Some "v@x.mg").
Proof. cbv zeta. split_and!; by vm_compute. Qed.

(** The names of drivers in the daily fuel reports outlive a purge that succeeds,
    and the purged company is queued again every night. *)
Theorem report_names_survive_purge :
  let s := nightOf 31 oneAccount in
  cs_reportNames s !! "rep1" = Some ("c1", "Da R") ∧
  cs_purgeJobs (schedulePendingPurges 30 RedisAbsent "a" (86400000 * 32) s).1 = [("c1", 0)].
Proof. cbv zeta. split; by vm_compute. Qed.
