(* ===== verification/PlatformAdmin.v ===== *)
(** * modules/platform-admin: PlatformAdminService (platform-admin.service.ts)

    The operators of the platform: their login with its lockouts and second
    factor, their refresh token with its grace period in Redis, the switch that
    disables a tenant, and impersonation with its kill-switch.  Users, companies
    and the keys of Redis are those of AuthModel.v; a set of Redis is a list with
    its expiry.  The lists and metrics of the back-office only read. *)

From S2P Require Import Prelude JsString Redis AuthModel Auth.

#[local] Open Scope string_scope.
#[local] Open Scope list_scope.
#[local] Open Scope Z_scope.

Record AdminRow := mkAdminRow {
  ar_email : string;
  ar_passwordHash : string;
  ar_firstName : string;
  ar_lastName : string;
  ar_totpSecret : option string;
  ar_totpEnabled : bool;
  ar_isActive : bool;
  ar_refreshTokenHash : option string
}.

Inductive AuditEvent :=
  | AuditLogin | AuditLogin2faRequired | AuditLoginSuccess
  | AuditTenantToggle (companyId : string) (activated : bool)
  | AuditImpersonate (companyId userId : string).

Record PlatformStore := mkPlatform {
  admins : gmap string AdminRow;
  tenants : AuthStore;
  impersonations : gmap string (list string * Z);  (** impersonation:active:<adminId>, with its expiry *)
  platformAudit : list (string * AuditEvent);
  tenantAudit : list (string * string * string)  (** company, user, admin *)
}.

Definition onTenants {A} : M AuthStore A → M PlatformStore A := zoom tenants (λ t s, s <| tenants := t |>).

Record AdminTokens := mkAdminTokens { at_access : string; at_refresh : string; at_tempToken : option string }.
Record ImpersonationToken := mkImpersonation { im_accessToken : string; im_user : TokenUser }.

Definition IMPERSONATION_TTL_SECONDS : Z := 30 * 60.

Section PlatformAdminService.
Context `{AuthLib} (env : AuthEnv).

Definition adminLoginFailKey (e : string) : string :=
  "admin_login_fail:" +:+ sliceTo 32 (sha256hex (normalizeEmail e)).
Definition adminTwoFaFailKey (id : string) : string := "admin_2fa_fail:" +:+ id.

Definition checkAdminLoginLockout (e : string) : M PlatformStore unit :=
  locked ← gets (λ s, lockedOut env (adminLoginFailKey e) loginFailMaxAttempts (tenants s));
  ensure (negb locked) (UnauthorizedException "Too many failed login attempts. Please try again later.").
Definition recordAdminLoginFailure (e : string) : M PlatformStore unit :=
  onTenants (recordFailure env (adminLoginFailKey e)).
Definition clearAdminLoginFailures (e : string) : M PlatformStore unit :=
  onTenants (clearFailures env (adminLoginFailKey e)).

Definition checkAdmin2faLockout (id : string) : M PlatformStore unit :=
  locked ← gets (λ s, lockedOut env (adminTwoFaFailKey id) twoFaFailMaxAttempts (tenants s));
  ensure (negb locked) (UnauthorizedException "Too many invalid 2FA codes. Please try again later.").
Definition recordAdmin2faFailure (id : string) : M PlatformStore unit :=
  onTenants (recordFailure env (adminTwoFaFailKey id)).
Definition clearAdmin2faFailures (id : string) : M PlatformStore unit :=
  onTenants (clearFailures env (adminTwoFaFailKey id)).

Definition adminUsedKey (j : string) : string := "admin:2fa:temp:used:" +:+ j.
Definition consumeAdminTempToken (j : option string) : M PlatformStore bool :=
  match j, redisLink env with
  | Some x, RedisUp =>
      if truthy j then onTenants (λ s,
        let '(db, ok) := redis_setnx (now env) (adminUsedKey x) "1" 360 (redisDb s) in
        (s <| redisDb := db |>, Ok ok))
      else mret true
  | _, _ => mret true
  end.

Definition auditAdmin (id : string) (e : AuditEvent) : M PlatformStore unit :=
  modify (λ s, s <| platformAudit ::= λ l, l ++ [(id, e)] |>).

(** [platformAdmin.update({ where: { id }, data })] *)
Definition updateAdmin (id : string) (f : AdminRow → AdminRow) : M PlatformStore unit := λ s,
  match admins s !! id with
  | None => (s, Throw PrismaP2025)
  | Some a => (s <| admins ::= <[id := f a]> |>, Ok tt)
  end.

(** ** Tokens *)

Definition adminPayload (id : string) (a : AdminRow) : JwtPayload :=
  {| sub := id; jp_email := ar_email a; jp_role := "super_admin"; jp_companyId := None;
     jp_firstName := ar_firstName a; jp_lastName := ar_lastName a; jp_type := Some "platform_admin";
     jp_scope := None; jp_impersonatedBy := None; jp_sessionId := None; jti := None;
     iat := Some (now env / 1000) |}.

(** [generateTokens] of an administrator. *)
Definition generateAdminTokens (id : string) (a : AdminRow) : M PlatformStore AdminTokens :=
  let access := jwtSign (JWT_ACCESS_SECRET env) (accessExpiration env) (now env) (adminPayload id a) in
  let refresh := jwtSign (JWT_REFRESH_SECRET env) (refreshExpiration env) (now env) (adminPayload id a) in
  updateAdmin id (λ r, r <| ar_refreshTokenHash := Some (bcryptHash (salt env) refresh) |>) ;;
  mret (mkAdminTokens access refresh None).

(** ** Login *)

Definition adminByEmail (e : string) (s : PlatformStore) : option (string * AdminRow) :=
  find_first (λ _ a, bool_decide (ar_email a = e)) (admins s).

Definition adminLogin (e0 password : string) : M PlatformStore AdminTokens :=
  let e := normalizeEmail e0 in
  checkAdminLoginLockout e ;;
  found ← gets (adminByEmail e);
  match found with
  | None => throw (UnauthorizedException "Invalid credentials")
  | Some (id, a) =>
      if negb (ar_isActive a) then throw (UnauthorizedException "Invalid credentials")
      else if negb (bcryptCompare password (ar_passwordHash a)) then
        recordAdminLoginFailure e ;; throw (UnauthorizedException "Invalid credentials")
      else
        clearAdminLoginFailures e ;;
        if negb (ar_totpEnabled a) then
          auditAdmin id AuditLogin ;;
          generateAdminTokens id a
        else
          auditAdmin id AuditLogin2faRequired ;;
          mret (mkAdminTokens "" "" (Some (jwtSign (tempSecret env) tempTokenExpiration (now env) (tempPayload env id))))
  end.

(** The temporary token of the first step. *)
Definition tempSubject (token : string) : M PlatformStore JwtPayload :=
  match jwtVerify (tempSecret env) (now env) token with
  | None => throw (UnauthorizedException "Invalid or expired temporary token")
  | Some p =>
      ensure (bool_decide (jp_scope p = Some "2fa_pending")) (UnauthorizedException "Invalid token scope") ;;
      mret p
  end.

(** What [verify2fa] and [verify2faSetupAndLogin] share: the code, then the token
    that may only be used once. *)
Definition checkAdminCode (id secret code : string) (j : option string) : M PlatformStore unit :=
  checkAdmin2faLockout id ;;
  if negb (totpVerify secret (now env) code) then
    recordAdmin2faFailure id ;; throw (UnauthorizedException "Invalid 2FA code")
  else
    fresh ← consumeAdminTempToken j;
    ensure fresh (UnauthorizedException
      "This verification step has already been completed. Please log in again.") ;;
    clearAdmin2faFailures id.

Definition verify2fa (tempToken code : string) : M PlatformStore AdminTokens :=
  p ← tempSubject tempToken;
  found ← gets (λ s, admins s !! sub p);
  match found with
  | Some a =>
      ensure (ar_isActive a && ar_totpEnabled a && truthy (ar_totpSecret a))
        (UnauthorizedException "Admin not found or 2FA not enabled") ;;
      checkAdminCode (sub p) (default "" (ar_totpSecret a)) code (jti p) ;;
      auditAdmin (sub p) AuditLoginSuccess ;;
      generateAdminTokens (sub p) a
  | None => throw (UnauthorizedException "Admin not found or 2FA not enabled")
  end.

Definition verify2faSetupAndLogin (tempToken code : string) : M PlatformStore AdminTokens :=
  p ← tempSubject tempToken;
  found ← gets (λ s, admins s !! sub p);
  match found with
  | Some a =>
      ensure (ar_isActive a) (UnauthorizedException "Admin not found") ;;
      ensure (truthy (ar_totpSecret a)) (UnauthorizedException "2FA not set up. Please reconnect.") ;;
      checkAdminCode (sub p) (default "" (ar_totpSecret a)) code (jti p) ;;
      (if negb (ar_totpEnabled a) then updateAdmin (sub p) (λ r, r <| ar_totpEnabled := true |>) else mret tt) ;;
      auditAdmin (sub p) AuditLoginSuccess ;;
      generateAdminTokens (sub p) (a <| ar_totpEnabled := true |>)
  | None => throw (UnauthorizedException "Admin not found")
  end.

(** ** Second factor of the account *)

(** The rows a method works on: [findUnique], refused when absent. *)
Definition adminOr (id msg : string) : M PlatformStore AdminRow :=
  found ← gets (λ s, admins s !! id);
  match found with Some a => mret a | None => throw (UnauthorizedException msg) end.

(** [secret] is what TotpService.generateSecret draws. *)
Definition generate2fa (id secret : string) : M PlatformStore unit :=
  a ← adminOr id "Admin not found";
  ensure (negb (ar_totpEnabled a)) (UnauthorizedException "2FA already enabled. Disable it first to regenerate.") ;;
  updateAdmin id (λ r, r <| ar_totpSecret := Some secret |>).

Definition verify2faSetup (id code : string) : M PlatformStore unit :=
  a ← adminOr id "2FA not set up";
  ensure (truthy (ar_totpSecret a)) (UnauthorizedException "2FA not set up") ;;
  ensure (totpVerify (default "" (ar_totpSecret a)) (now env) code) (UnauthorizedException "Invalid 2FA token") ;;
  updateAdmin id (λ r, r <| ar_totpEnabled := true |>).

Definition disable2fa (id code : string) : M PlatformStore unit :=
  a ← adminOr id "2FA is not enabled";
  ensure (ar_totpEnabled a) (UnauthorizedException "2FA is not enabled") ;;
  ensure (totpVerify (default "" (ar_totpSecret a)) (now env) code) (UnauthorizedException "Invalid 2FA token") ;;
  updateAdmin id (λ r, r <| ar_totpEnabled := false |> <| ar_totpSecret := None |>).

(** ** Accounts *)

Definition setupAdmin (e password first last : string) : M PlatformStore unit :=
  existing ← gets (adminByEmail e);
  match existing with
  | Some _ => throw (ConflictException "A super-admin with this email already exists")
  | None =>
      let row := mkAdminRow e (bcryptHash (salt env) password) first last None false true None in
      modify (λ s, s <| admins ::= <[newId env "platform_admins" := row]> |>)
  end.

Definition adminTtl : Z := accessTokenTtlSeconds (JWT_ACCESS_EXPIRATION env).

Definition changeAdminPassword (id current new : string) : M PlatformStore unit :=
  a ← adminOr id "Admin not found";
  ensure (bcryptCompare current (ar_passwordHash a)) (UnauthorizedException "Current password is incorrect") ;;
  updateAdmin id (λ r, r <| ar_passwordHash := bcryptHash (salt env) new |> <| ar_refreshTokenHash := None |>) ;;
  onTenants (revokeUserAccessTokens env id adminTtl).

(** ** Refresh and logout *)

Definition prevKey (id : string) : string := "admin:refresh:prev:" +:+ id.

Definition refreshSession (token : option string) : M PlatformStore AdminTokens :=
  ensure (truthy token) (UnauthorizedException "Refresh token not found") ;;
  let tok := default "" token in
  match jwtVerify (JWT_REFRESH_SECRET env) (now env) tok with
  | None => throw invalidRefresh
  | Some p =>
      ensure (bool_decide (jp_type p = Some "platform_admin")) invalidRefresh ;;
      found ← gets (λ s, admins s !! sub p);
      match found with
      | None => throw invalidRefresh
      | Some a =>
          ensure (ar_isActive a && truthy (ar_refreshTokenHash a)) invalidRefresh ;;
          let hash := default "" (ar_refreshTokenHash a) in
          prev ← gets (λ s, match redisLink env with
                            | RedisUp => redis_get (now env) (prevKey (sub p)) (redisDb (tenants s))
                            | _ => None
                            end);
          if negb (bcryptCompare tok hash) && negb (matchesHash tok prev) then
            updateAdmin (sub p) (λ r, r <| ar_refreshTokenHash := None |>) ;;
            throw (UnauthorizedException "Refresh token reuse detected — session revoked")
          else
            onTenants (redisBestEffort env (redis_set (now env) (prevKey (sub p)) hash 30)) ;;
            generateAdminTokens (sub p) a
      end
  end.

(** [SMEMBERS] of the impersonations of an administrator. *)
Definition activeImpersonations (id : string) (s : PlatformStore) : list string :=
  match impersonations s !! id with Some (l, ex) => if now env <? ex then l else [] | None => [] end.

Definition revokeActiveImpersonations (id : string) : M PlatformStore unit :=
  match redisLink env with
  | RedisUp =>
      ids ← gets (activeImpersonations id);
      for_each (λ sid, onTenants (revokeSessionAccessTokens env sid IMPERSONATION_TTL_SECONDS)) ids ;;
      modify (λ s, s <| impersonations ::= delete id |>)
  | _ => mret tt
  end.

(** [logout] *)
Definition adminLogout (id : string) : M PlatformStore unit :=
  updateAdmin id (λ r, r <| ar_refreshTokenHash := None |>) ;;
  onTenants (revokeUserAccessTokens env id adminTtl) ;;
  revokeActiveImpersonations id.

(** ** Tenants *)

Definition toggleTenantStatus (cid adminId : string) : M PlatformStore bool :=
  found ← gets (λ s, companies (tenants s) !! cid);
  match found with
  | None => throw (UnauthorizedException "Tenant not found")
  | Some c =>
      let isCurrentlyDeleted := bool_decide (is_Some (co_deletedAt c)) in
      onTenants (modify (λ t, t <| companies ::=
        <[cid := c <| co_deletedAt := if isCurrentlyDeleted then None else Some (now env) |>]> |>)) ;;
      (if negb isCurrentlyDeleted then
         onTenants (modify (λ t, t <| users ::= update_many
           (λ _ u, bool_decide (companyId u = cid) && bool_decide (deletedAt u = None))
           (λ u, u <| deletedAt := Some (now env) |>) |>))
       else mret tt) ;;
      auditAdmin adminId (AuditTenantToggle cid isCurrentlyDeleted) ;;
      mret isCurrentlyDeleted
  end.

Definition impersonationPayload (uid : string) (u : User) (adminId : string) : JwtPayload :=
  {| sub := uid; jp_email := email u; jp_role := role_string (role u); jp_companyId := Some (companyId u);
     jp_firstName := firstName u; jp_lastName := lastName u; jp_type := Some "user"; jp_scope := None;
     jp_impersonatedBy := Some adminId; jp_sessionId := Some (randomUUID env); jti := None;
     iat := Some (now env / 1000) |}.

(** [SADD] and [EXPIRE]. *)
Definition trackImpersonation (adminId sid : string) : M PlatformStore unit :=
  match redisLink env with
  | RedisUp => modify (λ s, s <| impersonations ::=
      <[adminId := (activeImpersonations adminId s ++ [sid], now env + IMPERSONATION_TTL_SECONDS * 1000)]> |>)
  | _ => mret tt
  end.

Definition impersonate (cid adminId : string) : M PlatformStore ImpersonationToken :=
  company ← gets (λ s, companies (tenants s) !! cid);
  ensure (match company with Some c => bool_decide (co_deletedAt c = None) | None => false end)
    (UnauthorizedException "Tenant not found or disabled") ;;
  found ← gets (λ s, find_first (λ _ u, bool_decide (companyId u = cid) && bool_decide (role u = admin)
                                         && bool_decide (deletedAt u = None)) (users (tenants s)));
  match found with
  | None => throw (UnauthorizedException "No admin found for this tenant")
  | Some (uid, u) =>
      trackImpersonation adminId (randomUUID env) ;;
      auditAdmin adminId (AuditImpersonate cid uid) ;;
      modify (λ s, s <| tenantAudit ::= λ l, l ++ [(cid, uid, adminId)] |>) ;;
      mret (mkImpersonation
        (jwtSign (JWT_ACCESS_SECRET env) "30m" (now env) (impersonationPayload uid u adminId)) (tokenUser uid u))
  end.

End PlatformAdminService.
