(* ===== verification/PlatformAdminProps.v ===== *)
(** * Platform administration: what a logout ends, and what a switch leaves *)

From S2P Require Import Prelude JsString Redis AuthModel Auth AuthProps AuthExample AuthSessionProps PlatformAdmin.

#[local] Open Scope string_scope.
#[local] Open Scope list_scope.
#[local] Open Scope Z_scope.

Inductive PlatformStep :=
  | PLogin (e password : string)
  | PVerify2fa (tempToken code : string)
  | PSetup2fa (tempToken code : string)
  | PGenerate2fa (id secret : string)
  | PVerifySetup (id code : string)
  | PDisable2fa (id code : string)
  | PSetupAdmin (e password first last : string)
  | PChangePassword (id current new : string)
  | PRefresh (token : option string)
  | PLogout (id : string)
  | PToggle (cid adminId : string)
  | PImpersonate (cid adminId : string).

Section Steps.
Context `{AuthLib}.

Definition platformStep (env : AuthEnv) (q : PlatformStep) : M PlatformStore unit :=
  match q with
  | PLogin e pw => _ ← adminLogin env e pw; mret tt
  | PVerify2fa t c => _ ← verify2fa env t c; mret tt
  | PSetup2fa t c => _ ← verify2faSetupAndLogin env t c; mret tt
  | PGenerate2fa id secret => generate2fa id secret
  | PVerifySetup id c => verify2faSetup env id c
  | PDisable2fa id c => disable2fa env id c
  | PSetupAdmin e pw f l => setupAdmin env e pw f l
  | PChangePassword id c n => changeAdminPassword env id c n
  | PRefresh t => _ ← refreshSession env t; mret tt
  | PLogout id => adminLogout env id
  | PToggle cid a => _ ← toggleTenantStatus env cid a; mret tt
  | PImpersonate cid a => _ ← impersonate env cid a; mret tt
  end.

Definition runPlatform (l : list (AuthEnv * PlatformStep)) (s : PlatformStore) : PlatformStore :=
  foldl (λ s q, (platformStep q.1 q.2 s).1) s l.

(** ** Impersonation *)

Definition TTL : Z := IMPERSONATION_TTL_SECONDS * 1000.

Definition sessionEntry (sid : string) (s : PlatformStore) : option Entry :=
  redisDb (tenants s) !! revokedSessionKey sid.

(** The operation neither adds nor ends an impersonation. *)
Definition quiet (s s' : PlatformStore) : Prop :=
  impersonations s' = impersonations s ∧ ∀ sid, sessionEntry sid s' = sessionEntry sid s.
#[local] Instance quiet_preorder : PreOrder quiet.
Proof.
  split; [by intros s|]. intros s1 s2 s3 [H1 H2] [H3 H4].
  split; [congruence|intros sid; by rewrite H4].
Qed.

Lemma zoom_quiet {A} (m : M AuthStore A) :
  footprint (λ t t', ∀ sid, redisDb t' !! revokedSessionKey sid = redisDb t !! revokedSessionKey sid) m →
  footprint quiet (onTenants m).
Proof.
  intros Hm s. unfold onTenants, zoom. specialize (Hm (tenants s)). destruct (m (tenants s)) as [t r].
  cbn in *. split; [done|exact Hm].
Qed.

Lemma bestEffort_quiet env f :
  (∀ db sid, f db !! revokedSessionKey sid = db !! revokedSessionKey sid) → footprint quiet (onTenants (redisBestEffort env f)).
Proof.
  intros Hf. apply zoom_quiet. intros t sid. unfold redisBestEffort. destruct (redisLink env); cbn; [done..|apply Hf].
Qed.

Lemma failKey_quiet key sid (c : ascii) rest : key = String c rest → c ≠ "r"%char → key ≠ revokedSessionKey sid.
Proof. intros -> Hc. unfold revokedSessionKey. intros E. injection E as E _. by apply Hc. Qed.

Lemma recordFailure_quiet env key : (∀ sid, key ≠ revokedSessionKey sid) → footprint quiet (onTenants (recordFailure env key)).
Proof.
  intros Hk. unfold recordFailure. apply bestEffort_quiet. intros db sid. unfold redis_incr. cbv zeta beta.
  case_match; unfold redis_expire; rewrite ?lookup_insert_eq; repeat case_match; by rewrite ?lookup_insert_ne.
Qed.
Lemma clearFailures_quiet env key : (∀ sid, key ≠ revokedSessionKey sid) → footprint quiet (onTenants (clearFailures env key)).
Proof. intros Hk. unfold clearFailures. apply bestEffort_quiet. intros db sid. by apply lookup_delete_ne. Qed.

Lemma updateAdmin_quiet id f : footprint quiet (updateAdmin id f).
Proof. intros s. unfold updateAdmin. by case_match. Qed.
Lemma auditAdmin_quiet id e : footprint quiet (auditAdmin id e).
Proof. intros s. done. Qed.
Lemma revokeUser_quiet env id ttl : footprint quiet (onTenants (revokeUserAccessTokens env id ttl)).
Proof.
  unfold revokeUserAccessTokens, revokeKey. apply bestEffort_quiet. intros db sid.
  unfold redis_set. apply lookup_insert_ne. unfold revokedUserKey, revokedSessionKey. intros E. by injection E.
Qed.
Lemma loginKey_other e sid : adminLoginFailKey e ≠ revokedSessionKey sid.
Proof. by eapply failKey_quiet. Qed.
Lemma twoFaKey_other id sid : adminTwoFaFailKey id ≠ revokedSessionKey sid.
Proof. by eapply failKey_quiet. Qed.

Lemma consume_quiet env j : footprint quiet (consumeAdminTempToken env j).
Proof.
  unfold consumeAdminTempToken. destruct j as [x|]; [|by footprint_auto]. destruct (redisLink env); footprint_auto.
  apply zoom_quiet. intros t sid. unfold redis_setnx. destruct (redis_exists _ _ _); cbn; [done|]. apply lookup_insert_ne.
  by eapply failKey_quiet.
Qed.

Create HintDb quiet.
#[local] Hint Resolve updateAdmin_quiet auditAdmin_quiet revokeUser_quiet consume_quiet : footprint.
#[local] Hint Extern 2 (footprint quiet (recordAdminLoginFailure _ _)) =>
  (apply recordFailure_quiet, loginKey_other) : footprint.
#[local] Hint Extern 2 (footprint quiet (clearAdminLoginFailures _ _)) =>
  (apply clearFailures_quiet, loginKey_other) : footprint.
#[local] Hint Extern 2 (footprint quiet (recordAdmin2faFailure _ _)) =>
  (apply recordFailure_quiet, twoFaKey_other) : footprint.
#[local] Hint Extern 2 (footprint quiet (clearAdmin2faFailures _ _)) =>
  (apply clearFailures_quiet, twoFaKey_other) : footprint.
#[local] Hint Extern 2 (footprint quiet (onTenants (modify _))) => (apply zoom_quiet; by intros ?) : footprint.

Lemma checkCode_quiet env id secret code j : footprint quiet (checkAdminCode env id secret code j).
Proof. unfold checkAdminCode, checkAdmin2faLockout. footprint_auto. Qed.
Lemma generateTokens_quiet env id a : footprint quiet (generateAdminTokens env id a).
Proof. unfold generateAdminTokens. cbv zeta. footprint_auto. Qed.
Lemma tempSubject_quiet env t : footprint quiet (tempSubject env t).
Proof. unfold tempSubject. footprint_auto. Qed.
#[local] Hint Resolve checkCode_quiet generateTokens_quiet tempSubject_quiet : footprint.

Lemma step_quiet env q :
  match q with PLogout _ | PImpersonate _ _ => True | _ => footprint quiet (platformStep env q) end.
Proof.
  destruct q; cbn [platformStep]; try exact I;
    unfold adminLogin, checkAdminLoginLockout, verify2fa, verify2faSetupAndLogin, generate2fa, verify2faSetup,
      disable2fa, setupAdmin, changeAdminPassword, refreshSession, toggleTenantStatus, adminOr; cbv zeta; footprint_auto.
  - by intros.
  - apply bestEffort_quiet. intros db sid. unfold redis_set. apply lookup_insert_ne. by eapply failKey_quiet.
Qed.

(** *** An impersonation, from its token to its end *)

Section Impersonation.
Context (a sid : string) (t : Z).

(** In the set that a logout goes through. *)
Definition tracked (s : PlatformStore) : Prop :=
  ∃ L ex, impersonations s !! a = Some (L, ex) ∧ sid ∈ L ∧ t + TTL ≤ ex.
(** Refused by its session key, until its token has expired. *)
Definition ended (s : PlatformStore) : Prop :=
  ∃ t0, t ≤ t0 ∧ 0 ≤ t0 ∧
    sessionEntry sid s = Some (mkEntry (string_of_Z (cutoffSeconds t0)) (Some (t0 + TTL))).

Definition followed (c : Z) (s : PlatformStore) : Prop := c < t + TTL → tracked s ∨ ended s.

Lemma quiet_tracked s s' : quiet s s' → tracked s → tracked s'.
Proof. intros [E _] (L & ex & H1 & H2). exists L, ex. by rewrite E. Qed.
Lemma quiet_ended s s' : quiet s s' → ended s → ended s'.
Proof. intros [_ E] (t0 & H1 & H2 & H3). exists t0. by rewrite E. Qed.

(** [SADD] and [EXPIRE] of another impersonation. *)
Lemma track_keeps env b x s : redisLink env = RedisUp → now env < t + TTL → t ≤ now env →
  (tracked s → tracked (trackImpersonation env b x s).1) ∧ (ended s → ended (trackImpersonation env b x s).1).
Proof.
  intros HR Hc Ht. unfold trackImpersonation. rewrite HR. cbn. split; [|done].
  intros (L & ex & H1 & H2 & H3). unfold tracked. cbn. destruct (decide (b = a)) as [->|Hne].
  - rewrite lookup_insert_eq. eexists _, _. split; [reflexivity|]. split; [|unfold TTL; lia].
    unfold activeImpersonations. rewrite H1, (proj2 (Z.ltb_lt _ _)) by lia. apply elem_of_app. by left.
  - exists L, ex. by rewrite lookup_insert_ne.
Qed.

Lemma revokeAll_run env sids s : redisLink env = RedisUp →
  ∃ db, for_each (λ x, onTenants (revokeSessionAccessTokens env x IMPERSONATION_TTL_SECONDS)) sids s
    = (s <| tenants := (tenants s) <| redisDb := db |> |>, Ok tt) ∧
  ∀ x, db !! revokedSessionKey x = if bool_decide (x ∈ sids)
       then Some (mkEntry (string_of_Z (cutoffSeconds (now env))) (Some (now env + TTL)))
       else redisDb (tenants s) !! revokedSessionKey x.
Proof.
  intros HR. revert s. induction sids as [|y sids IH]; intros s; cbn [for_each].
  - exists (redisDb (tenants s)). split; [|done]. destruct s as [? [] ? ? ?]. done.
  - rewrite bind_run. unfold onTenants at 1, zoom at 1, revokeSessionAccessTokens at 1, revokeKey at 1, redisBestEffort at 1.
    rewrite HR. unfold modify at 1. cbv beta iota zeta.
    set (s1 := s <| tenants := _ |>). destruct (IH s1) as (db & -> & Hdb). exists db. split; [done|].
    intros x. rewrite Hdb.
    assert (Ey : redisDb (tenants s1) !! revokedSessionKey x = if bool_decide (x = y)
      then Some (mkEntry (string_of_Z (cutoffSeconds (now env))) (Some (now env + TTL)))
      else redisDb (tenants s) !! revokedSessionKey x).
    { unfold s1. cbn. unfold redis_set. case_bool_decide as E.
      - subst y. rewrite lookup_insert_eq. done.
      - apply lookup_insert_ne. unfold revokedSessionKey. intros E'. by repeat injection E' as E'. }
    rewrite Ey. destruct (decide (x ∈ sids)) as [Hin|Hin].
    + by rewrite !bool_decide_eq_true_2 by (by right || done).
    + rewrite (bool_decide_eq_false_2 (x ∈ sids)) by done. destruct (decide (x = y)) as [->|Hne].
      * by rewrite !bool_decide_eq_true_2 by (by left || done).
      * rewrite !bool_decide_eq_false_2; [done| |done]. by intros [?|?]%elem_of_cons.
Qed.

(** A logout reaches every impersonation tracked for the administrator. *)
Lemma logout_run env b s : redisLink env = RedisUp → is_Some (admins s !! b) →
  let s' := (adminLogout env b s).1 in
  impersonations s' = delete b (impersonations s) ∧
  ∀ x, sessionEntry x s' = if bool_decide (x ∈ activeImpersonations env b s)
    then Some (mkEntry (string_of_Z (cutoffSeconds (now env))) (Some (now env + TTL)))
    else sessionEntry x s.
Proof.
  intros HR [r Hr] s'.
  assert (HL : ∃ s2 db, s' = (s2 <| tenants := (tenants s2) <| redisDb := db |> |>) <| impersonations ::= delete b |> ∧
    quiet s s2 ∧ ∀ x, db !! revokedSessionKey x = if bool_decide (x ∈ activeImpersonations env b s)
      then Some (mkEntry (string_of_Z (cutoffSeconds (now env))) (Some (now env + TTL))) else sessionEntry x s).
  { subst s'. unfold adminLogout. rewrite bind_run. unfold updateAdmin at 1. rewrite Hr. cbv beta iota.
    set (s1 := s <| admins ::= _ |>). rewrite bind_run.
    pose proof (revokeUser_quiet env b (adminTtl env) s1) as HQ.
    destruct (onTenants (revokeUserAccessTokens env b (adminTtl env)) s1) as [s2 [[]|e]] eqn:Es2; cbn [fst] in HQ.
    2: { exfalso. unfold onTenants, zoom, revokeUserAccessTokens, revokeKey, redisBestEffort in Es2.
      rewrite HR in Es2. discriminate. }
    cbv beta iota. unfold revokeActiveImpersonations. rewrite HR, gets_bind, bind_run.
    destruct (revokeAll_run env (activeImpersonations env b s2) s2 HR) as (db & -> & Hdb).
    exists s2, db. split; [reflexivity|]. split; [exact HQ|]. destruct HQ as [E1 E2].
    assert (Ea : activeImpersonations env b s2 = activeImpersonations env b s)
      by (unfold activeImpersonations; by rewrite E1).
    intros x. rewrite Hdb, Ea. case_bool_decide; [done|apply E2]. }
  clearbody s'. destruct HL as (s2 & db & -> & [E1 _] & Hdb). split; [|exact Hdb].
  change (delete b (impersonations s2) = delete b (impersonations s)). by rewrite E1.
Qed.

Lemma logout_missing env b s : admins s !! b = None → (adminLogout env b s).1 = s.
Proof. intros H1. unfold adminLogout. rewrite bind_run. unfold updateAdmin. by rewrite H1. Qed.

Lemma logout_keeps env b s : redisLink env = RedisUp → t ≤ now env → 0 ≤ now env → now env < t + TTL →
  let s' := (adminLogout env b s).1 in
  (tracked s → if decide (b = a ∧ is_Some (admins s !! b)) then ended s' else tracked s' ∨ ended s') ∧
  (ended s → ended s').
Proof.
  intros HR Ht H0 Hc s'. destruct (admins s !! b) as [r|] eqn:Hr.
  2: { assert (E : s' = s) by (by apply logout_missing). rewrite E.
    split; [|done]. rewrite decide_False by (intros [_ [? ?]]; done). by left. }
  destruct (logout_run env b s HR (mk_is_Some _ _ Hr)) as [E1 E2]. fold s' in E1, E2.
  assert (Hend : sid ∈ activeImpersonations env b s → ended s').
  { intros Hin. exists (now env). split; [done|]. split; [done|]. rewrite E2. by rewrite bool_decide_eq_true_2. }
  split.
  - intros (L & ex & H1 & H2 & H3). destruct (decide (b = a ∧ _)) as [[-> _]|Hn].
    + apply Hend. unfold activeImpersonations. by rewrite H1, (proj2 (Z.ltb_lt _ _)) by lia.
    + left. exists L, ex. split; [|done]. rewrite E1. rewrite lookup_delete_ne; [done|]. intros ->. by apply Hn.
  - intros He. destruct (decide (sid ∈ activeImpersonations env b s)) as [Hin|Hin]; [by apply Hend|].
    destruct He as (t0 & H1 & H2 & H3). exists t0. split; [done|]. split; [done|].
    rewrite E2. by rewrite bool_decide_eq_false_2.
Qed.

Lemma impersonate_follows env cid b s : redisLink env = RedisUp → t ≤ now env → now env < t + TTL →
  let s' := (platformStep env (PImpersonate cid b) s).1 in
  (tracked s → tracked s') ∧ (ended s → ended s').
Proof.
  intros HR Ht Hc s'. subst s'. cbn [platformStep]. rewrite bind_run. unfold impersonate. rewrite gets_bind, ensure_bind.
  destruct (match companies (tenants s) !! cid with Some _ => _ | None => _ end); [|done].
  rewrite gets_bind. destruct (find_first _ _) as [[uid u]|]; [|done].
  pose proof (track_keeps env b (randomUUID env) s HR Hc Ht) as HK. rewrite bind_run.
  destruct (trackImpersonation env b (randomUUID env) s) as [s1 [[]|e]]; cbn [fst] in HK; exact HK.
Qed.

Lemma step_follows env q s : redisLink env = RedisUp → t ≤ now env → 0 ≤ now env →
  followed (now env) s → followed (now env) (platformStep env q s).1.
Proof.
  intros HR Ht H0 HF Hc. specialize (HF Hc).
  assert (HQ : quiet s (platformStep env q s).1 → tracked (platformStep env q s).1 ∨ ended (platformStep env q s).1).
  { intros HQ. destruct HF as [HF|HF]; [left; by eapply quiet_tracked|right; by eapply quiet_ended]. }
  pose proof (step_quiet env q) as HS. destruct q as [| | | | | | | | |b| |cid b]; try exact (HQ (HS s)).
  - cbn [platformStep]. destruct (logout_keeps env b s HR Ht H0 Hc) as [H1 H2]. destruct HF as [HF|HF]; [|right; by apply H2].
    specialize (H1 HF). case_decide; [by right|done].
  - destruct (impersonate_follows env cid b s HR Ht Hc) as [H1 H2]. destruct HF; [left|right]; auto.
Qed.

(** A run whose clock starts at [c] and never goes back. *)
Fixpoint timed (c : Z) (l : list (AuthEnv * PlatformStep)) : Prop :=
  match l with
  | [] => True
  | (env, _) :: l' => c ≤ now env ∧ redisLink env = RedisUp ∧ timed (now env) l'
  end.
Fixpoint clockAfter (c : Z) (l : list (AuthEnv * PlatformStep)) : Z :=
  match l with [] => c | (env, _) :: l' => clockAfter (now env) l' end.

Lemma followed_later c c' s : c ≤ c' → followed c s → followed c' s.
Proof. unfold followed. intros H1 HF H2. apply HF. lia. Qed.

Lemma run_follows l : ∀ c s, t ≤ c → 0 ≤ c → timed c l → followed c s →
  followed (clockAfter c l) (runPlatform l s) ∧ c ≤ clockAfter c l.
Proof.
  induction l as [|[env q] l IH]; intros c s Ht H0 HT HF; [split; [done|cbn; lia]|].
  destruct HT as (Hc & HR & HT). cbn.
  destruct (IH (now env) (platformStep env q s).1) as [H1 H2]; [lia|lia|done| |split; [done|lia]].
  apply step_follows; [done|lia|lia|]. by eapply followed_later.
Qed.

Lemma step_ends env q s : redisLink env = RedisUp → t ≤ now env → 0 ≤ now env →
  (now env < t + TTL → ended s) → now env < t + TTL → ended (platformStep env q s).1.
Proof.
  intros HR Ht H0 HE Hc. specialize (HE Hc).
  pose proof (step_quiet env q) as HS. destruct q as [| | | | | | | | |b| |cid b]; try exact (quiet_ended _ _ (HS s) HE).
  - by apply (logout_keeps env b s).
  - by apply (impersonate_follows env cid b s).
Qed.

Lemma run_ends l : ∀ c s, t ≤ c → 0 ≤ c → timed c l → (c < t + TTL → ended s) →
  clockAfter c l < t + TTL → ended (runPlatform l s).
Proof.
  induction l as [|[env q] l IH]; intros c s Ht H0 HT HE; [exact HE|].
  destruct HT as (Hc & HR & HT). cbn. apply IH; [lia|lia|done|].
  apply step_ends; [done|lia|lia|]. intros Hlt. apply HE. lia.
Qed.
End Impersonation.
Lemma impersonate_tracked env cid a s s1 tok : redisLink env = RedisUp →
  impersonate env cid a s = (s1, Ok tok) →
  tracked a (randomUUID env) (now env) s1 ∧
  ∃ uid u, im_accessToken tok = jwtSign (JWT_ACCESS_SECRET env) "30m" (now env) (impersonationPayload env uid u a) ∧
    users (tenants s) !! uid = Some u ∧ companyId u = cid ∧ role u = admin ∧ deletedAt u = None ∧
    (∃ c, companies (tenants s) !! cid = Some c ∧ co_deletedAt c = None).
Proof.
  intros HR. unfold impersonate. rewrite gets_bind, ensure_bind.
  destruct (companies (tenants s) !! cid) as [c|] eqn:Ec; [|done]. case_bool_decide as Hd; [|done].
  rewrite gets_bind. destruct (find_first _ _) as [[uid u]|] eqn:Ef; [|done].
  apply find_first_Some in Ef as [Hu Hp]. rewrite !andb_true_iff, !bool_decide_eq_true in Hp. destruct Hp as [[Hp1 Hp2] Hp3].
  unfold trackImpersonation. rewrite HR, modify_bind. cbn. intros [= <- <-]. split.
  - eexists _, _. cbn. rewrite lookup_insert_eq. split; [reflexivity|]. split; [|unfold TTL; lia].
    apply elem_of_app. right. by apply list_elem_of_singleton.
  - exists uid, u. cbn. by eauto 10.
Qed.

Lemma runPlatform_app l1 l2 s : runPlatform (l1 ++ l2) s = runPlatform l2 (runPlatform l1 s).
Proof. apply foldl_app. Qed.

Lemma timed_app l1 l2 c : timed c (l1 ++ l2) → timed c l1 ∧ timed (clockAfter c l1) l2.
Proof. revert c. induction l1 as [|[env q] l1 IH]; intros c HT; [done|]. cbn in *. destruct HT as (? & ? & HT). split_and!; [done..| |]; by apply IH. Qed.

Lemma ended_revoked sid t s u p : ended sid t s → 1000 ≤ t → t ≤ u < t + TTL →
  sid ≠ "" → iat p = Some (t / 1000) → jp_sessionId p = Some sid → tokenRevoked u p (redisDb (tenants s)) = true.
Proof.
  intros (t0 & H1 & H2 & H3) Ht Hu Hs Hi Hp. unfold tokenRevoked. rewrite Hi, Hp.
  pose proof (Z.div_mod t 1000). pose proof (Z.mod_pos_bound t 1000).
  assert (1 ≤ t / 1000) by (apply Z.div_le_lower_bound; lia).
  rewrite (proj2 (Z.eqb_neq _ _)) by lia. cbn [negb andb].
  assert (truthy (Some sid) = true) as -> by (by apply truthy_Some). cbn [andb].
  rewrite orb_true_iff. right. unfold revokedBy, redis_get. unfold sessionEntry in H3. rewrite H3. unfold live. cbn [e_expires e_value].
  rewrite (proj2 (Z.ltb_lt _ _)) by lia. unfold cutoffSeconds.
  assert (0 ≤ t0 / 1000) by (by apply Z.div_pos). assert (t / 1000 ≤ t0 / 1000) by (apply Z.div_le_mono; lia).
  assert (string_of_Z (t0 / 1000 + 1) = pretty (Z.to_N (t0 / 1000 + 1))) as ->.
  { unfold string_of_Z. by destruct (t0 / 1000 + 1) eqn:E; try lia. }
  rewrite pretty_nonempty, counter_pretty by lia. cbn [negb andb]. apply Z.ltb_lt. lia.
Qed.

End Steps.

(** ** The switch of a tenant *)

(** Disabling a tenant then enabling it again leaves each of its accounts marked
    deleted: the company is open and nobody can enter it. *)
Theorem reenabled_tenant_has_no_account `{AuthLib} env1 env2 cid a s s1 s2 b1 b2 :
  toggleTenantStatus env1 cid a s = (s1, Ok b1) → b1 = false →
  toggleTenantStatus env2 cid a s1 = (s2, Ok b2) →
  b2 = true ∧ (∃ c, companies (tenants s2) !! cid = Some c ∧ co_deletedAt c = None) ∧
  (∀ id u, users (tenants s2) !! id = Some u → companyId u = cid → deletedAt u ≠ None) ∧
  (∀ env b, is_ok (impersonate env cid b s2).2 = false).
Proof.
  intros H1 -> H2.
  assert (HT : ∀ env s s' b, toggleTenantStatus env cid a s = (s', Ok b) →
    ∃ c, companies (tenants s) !! cid = Some c ∧ b = bool_decide (is_Some (co_deletedAt c)) ∧
      companies (tenants s') !! cid = Some (c <| co_deletedAt := if b then None else Some (now env) |>) ∧
      users (tenants s') = if b then users (tenants s) else
        update_many (λ _ u, bool_decide (companyId u = cid) && bool_decide (deletedAt u = None))
           (λ u, u <| deletedAt := Some (now env) |>) (users (tenants s))).
  { clear. intros env s s' b. unfold toggleTenantStatus. rewrite gets_bind.
    destruct (companies (tenants s) !! cid) as [c|] eqn:Ec; [|done]. cbv zeta.
    case_bool_decide as HD; cbn; intros [= <- <-]; exists c; cbn; rewrite lookup_insert_eq; (split_and!; first [exact Ec|reflexivity|by rewrite bool_decide_eq_true_2|by rewrite bool_decide_eq_false_2]). }
  apply HT in H1 as (c1 & Hc1 & Hb1 & Hc1' & Hu1). apply HT in H2 as (c2 & Hc2 & Hb2 & Hc2' & Hu2).
  rewrite Hc1' in Hc2. injection Hc2 as <-. cbn in Hb2. subst b2.
  assert (Hdel : ∀ id u, users (tenants s2) !! id = Some u → companyId u = cid → deletedAt u ≠ None).
  { intros id u. rewrite Hu2, Hu1, lookup_update_many. destruct (users (tenants s) !! id) as [v|]; [|done]. cbn.
    destruct (bool_decide (companyId v = cid)) eqn:E1; cbn [andb];
      [destruct (bool_decide (deletedAt v = None)) eqn:E2|]; intros [= <-] Hc; [done| |].
    - by apply bool_decide_eq_false in E2.
    - by apply bool_decide_eq_false in E1. }
  split_and!; [done|eexists; split; [exact Hc2'|done]|exact Hdel|].
  intros env b. unfold impersonate. rewrite gets_bind, ensure_bind, Hc2'. cbn.
  rewrite gets_bind. destruct (find_first _ _) as [[uid u]|] eqn:Ef; [|done]. exfalso.
  apply find_first_Some in Ef as [Hu Hp]. rewrite !andb_true_iff, !bool_decide_eq_true in Hp.
  exact (Hdel uid u Hu (proj1 (proj1 Hp)) (proj2 Hp)).
Qed.

(** ** Examples *)

Definition operator : AdminRow := mkAdminRow "op@pistio.mg" "h:right" "Op" "R" None false true None.
Definition platform0 : PlatformStore :=
  mkPlatform (<["op" := operator]> ∅) (exampleAuthStore false) ∅ [] [].
Notation exEnv := exampleAuthEnv.

Definition impersonated : PlatformStore :=
  (@impersonate exampleLib (exEnv "i" 100000) "c1" "op" platform0).1.


(** *** Findings *)

Definition runExampleAdmin (q : PlatformStep) (t : Z) (s : PlatformStore) : PlatformStore * result unit :=
  @platformStep exampleLib (exEnv (pretty t) t) q s.
Definition adminToken (t : Z) (s : PlatformStore) : string :=
  match (@adminLogin exampleLib (exEnv (pretty t) t) "op@pistio.mg" "right" s).2 with Ok r => at_refresh r | Throw _ => "" end.

(** A refresh token replaced by another login more than 30 s ago is accepted:
    bcrypt compares the beginning of the tokens of an administrator, which is the
    same, so that no reuse is ever detected. *)
Theorem superseded_admin_token_accepted :
  let tok := adminToken 1000000 platform0 in
  let s1 := (runExampleAdmin (PLogin "op@pistio.mg" "right") 1000000 platform0).1 in
  let s2 := (runExampleAdmin (PLogin "op@pistio.mg" "right") 1100000 s1).1 in
  tok ≠ adminToken 1100000 s1 ∧
  redis_get 1200000 (prevKey "op") (redisDb (tenants s2)) = None ∧
  (runExampleAdmin (PRefresh (Some tok)) 1200000 s2).2 = Ok tt.
Proof. cbv zeta. split_and!; by vm_compute. Qed.

(** An administrator created with a capital letter in the address can never sign
    in. *)
Theorem typed_admin_address_never_signs_in :
  let s := (runExampleAdmin (PSetupAdmin "Ana@x.mg" "right" "Ana" "R") 1000000 platform0).1 in
  bool_decide (adminByEmail "Ana@x.mg" s = None) = false ∧
  (runExampleAdmin (PLogin "Ana@x.mg" "right") 1000001 s).2 = Throw (UnauthorizedException "Invalid credentials") ∧
  (runExampleAdmin (PLogin "ana@x.mg" "right") 1000002 s).2 = Throw (UnauthorizedException "Invalid credentials").
Proof. cbv zeta. split_and!; by vm_compute. Qed.

(** Fifteen wrong passwords lock an address that exists and only that: the sixteenth
    answer tells the two apart. *)
Definition guess (e : string) (n : nat) : PlatformStore :=
  Nat.iter n (λ s, (runExampleAdmin (PLogin e "wrong") 1000000 s).1) platform0.
Theorem lockout_reveals_addresses :
  (runExampleAdmin (PLogin "op@pistio.mg" "wrong") 1000001 (guess "op@pistio.mg" 15)).2
    = Throw (UnauthorizedException "Too many failed login attempts. Please try again later.") ∧
  (runExampleAdmin (PLogin "no@pistio.mg" "wrong") 1000001 (guess "no@pistio.mg" 15)).2
    = Throw (UnauthorizedException "Invalid credentials").
Proof. split; by vm_compute. Qed.

(** An administrator whose password is changed because it leaked loses his tokens,
    not the impersonations opened with them. *)
Theorem impersonation_survives_password_change :
  let s := (runExampleAdmin (PChangePassword "op" "right" "Better1!") 160000 impersonated).1 in
  let p := impersonationPayload (exEnv "i" 100000) "u1" (exampleUser false) "op" in
  tokenRevoked 170000 p (redisDb (tenants s)) = false ∧
  tokenRevoked 170000 (adminPayload (exEnv "i" 100000) "op" operator) (redisDb (tenants s)) = true ∧
  tokenRevoked 170000 p (redisDb (tenants (runExampleAdmin (PLogout "op") 160000 impersonated).1)) = true.
Proof. cbv zeta. split_and!; by vm_compute. Qed.

Lemma reenabled_tenant_has_no_account_witness :
  let s1 := (runExampleAdmin (PToggle "c1" "op") 1000 platform0).1 in
  let s2 := (runExampleAdmin (PToggle "c1" "op") 2000 s1).1 in
  ∀ id u, users (tenants s2) !! id = Some u → companyId u = "c1" → deletedAt u ≠ None.
Proof.
  cbv zeta.
  destruct (@toggleTenantStatus (exEnv (pretty 1000) 1000) "c1" "op" platform0) as [s1 r1] eqn:E1.
  destruct (@toggleTenantStatus (exEnv (pretty 2000) 2000) "c1" "op" s1) as [s2 r2] eqn:E2.
  assert (H1 : r1 = Ok false) by (pose proof (f_equal snd E1) as H; vm_compute in H; by symmetry).
  assert (Hs1 : s1 = (@toggleTenantStatus (exEnv (pretty 1000) 1000) "c1" "op" platform0).1) by (by rewrite E1).
  assert (H2 : r2 = Ok true) by (pose proof (f_equal snd E2) as H; rewrite Hs1 in H; vm_compute in H; by symmetry).
  subst r1 r2.
  pose proof (@reenabled_tenant_has_no_account exampleLib _ _ "c1" "op" platform0 s1 s2 false true E1 eq_refl E2) as (_ & _ & H & _).
  unfold runExampleAdmin. cbn [platformStep]. rewrite !bind_run, E1. cbn [fst mret M_ret]. unfold mret, M_ret. cbn [fst].
  rewrite E2. exact H.
Defined.
