(* ===== verification/VehicleMap.v ===== *)
(** * Frontend: the vehicles on the live map

    features/map/vehicleMap.ts (the entries of the map and what is displayed of
    them), features/map/animationTiming.ts, features/map/markerMotion.ts,
    services/tracking/deadReckoning.ts and the decision of AnimatedMarker in
    RealTimeMap.tsx to hold a marker in place.

    A timestamp is its time value, [None] when the text is no date; the server
    sends the texts of [toISOString]. *)

From Stdlib Require Import SpecFloat.
From S2P Require Import Prelude JsString JsNum Geo.

#[local] Open Scope string_scope.
#[local] Open Scope list_scope.
#[local] Open Scope Z_scope.

Definition Stamp : Type := option Z.

Inductive VehicleStatus := moving | static | offline.
#[export] Instance VehicleStatus_eq_dec : EqDecision VehicleStatus.
Proof. solve_decision. Defined.

Record VehicleData := mkVehicleData {
  vd_id : string;
  vd_lat : num;
  vd_lng : num;
  vd_rawLat : option num;
  vd_rawLng : option num;
  vd_name : string;
  vd_speed : option num;
  vd_heading : option num;
  vd_accuracy : option num;
  vd_timestamp : Stamp;
  vd_status : VehicleStatus;
  vd_eta : option string;
  vd_routeDistance : option num;
  vd_routeDuration : option num;
  vd_confidence : option num;
  vd_vehicleId : string;
  vd_deliveryId : option string;
  vd_suspect : bool;
  vd_lastMovingAt : option Stamp;
  vd_receivedAt : option Stamp
}.

Record PositionUpdateInput := mkUpdate {
  pu_vehicleId : string;
  pu_driverId : option string;
  pu_driverName : option string;
  pu_latitude : num;
  pu_longitude : num;
  pu_displayLatitude : option num;
  pu_displayLongitude : option num;
  pu_speed : option num;
  pu_heading : option num;
  pu_accuracy : option num;
  pu_suspect : bool;
  pu_confidence : option num;
  pu_timestamp : Stamp;
  pu_deliveryId : option string
}.

Record LivePositionInput := mkLive {
  lp_vehicleId : string;
  lp_driverName : option string;
  lp_latitude : num;
  lp_longitude : num;
  lp_displayLatitude : option num;
  lp_displayLongitude : option num;
  lp_speed : option num;
  lp_heading : option num;
  lp_accuracy : option num;
  lp_suspect : option bool;
  lp_timestamp : Stamp;
  lp_deliveryId : option string;
  lp_minutesAgo : option num;
  lp_receivedAt : option Stamp
}.

Notation VehicleTable := (gmap string VehicleData).

Definition FALLBACK_DRIVER_NAME : string := "Véhicule sans chauffeur assigné".
Definition OFFLINE_TIMEOUT_MIN : Z := 15.
Definition STATUS_STATIC_DEBOUNCE_MS : Z := 12000.
Definition STALE_UPDATE_RESET_MS : Z := 10 * 60000.
Definition RAW_POSITION_DIVERGENCE_M : Z := 20.
Definition STATIONARY_SPEED_MS : num := num_lit 5 10.
Definition STALE_MOVEMENT_MS : Z := 120000.
Definition CLOCK_LAG_MAX_MS : Z := 5 * 60000.
Definition SIGNAL_LOST_MS : Z := 60000.

(** ** Display *)

(** [rawPositionDiverges]; [haversineDistanceM] is the function of Geo.v. *)
Definition rawPositionDiverges (jm : JsMath) (lat lng rawLat rawLng : option num) : bool :=
  match lat, lng, rawLat, rawLng with
  | Some a, Some b, Some c, Some d => num_ltb (num_of_Z RAW_POSITION_DIVERGENCE_M) (haversineDistance jm a b c d)
  | _, _, _, _ => false
  end.

Definition isMovingSpeed (speedMs : option num) : bool :=
  match speedMs with Some v => num_ltb STATIONARY_SPEED_MS v | None => false end.

Definition formatVehicleSpeed (speedMs : option num) : string :=
  match speedMs with
  | Some v => if isMovingSpeed speedMs then num_toFixed 1 (num_mul v (num_lit 36 10)) +:+ " km/h" else "À l'arrêt"
  | None => "À l'arrêt"
  end.

(** The timestamp whose age counts: the reception, unless the fix is too old for it. *)
Definition freshnessTimestamp (timestamp : Stamp) (receivedAt : option Stamp) : Stamp :=
  match receivedAt, timestamp with
  | Some (Some r), Some t => let lag := r - t in if (lag <? 0) || (CLOCK_LAG_MAX_MS <? lag) then timestamp else Some r
  | _, _ => timestamp
  end.

Definition effectiveStatus (status : VehicleStatus) (timestamp : Stamp) (now : Z) : VehicleStatus :=
  match status, timestamp with
  | offline, _ | _, None => status
  | _, Some t =>
      let ageMs := now - t in
      if OFFLINE_TIMEOUT_MIN * 60000 <? ageMs then offline
      else if bool_decide (status = moving) && (STALE_MOVEMENT_MS <? ageMs) then static
      else status
  end.

(** [None] for null, [Some None] for NaN. *)
Definition signalLostSinceMs (timestamp : option Stamp) (now : Z) : option (option Z) :=
  match timestamp with
  | None => None
  | Some None => Some None
  | Some (Some t) =>
      let age := now - t in
      if age <=? SIGNAL_LOST_MS then None
      else if OFFLINE_TIMEOUT_MIN * 60000 <? age then None
      else Some (Some age)
  end.

Definition liveSpeedLabel (speedMs : option num) (status : VehicleStatus) (timestamp : Stamp) (now : Z) : string :=
  if bool_decide (effectiveStatus status timestamp now ≠ moving) then "À l'arrêt" else formatVehicleSpeed speedMs.

Record FollowReference := mkFollow { fr_id : string; fr_lat : num; fr_lng : num }.

Definition shouldFollowRecenter (prev : option FollowReference) (id : string) (lat lng : num) : bool :=
  match prev with
  | None => true
  | Some p => if negb (String.eqb (fr_id p) id) then true else negb (num_eqb (fr_lat p) lat) || negb (num_eqb (fr_lng p) lng)
  end.

(** ** The entries *)

(** A number that is neither absent, 0 nor NaN. *)
Definition truthyNum (o : option num) : bool :=
  match o with Some x => negb (isNaN x) && negb (num_eqb x (num_of_Z 0)) | None => false end.

Definition confidenceOf (accuracy : option num) : num :=
  if truthyNum accuracy
  then Math_max (num_lit 1 10) (num_sub (num_of_Z 1) (num_div (default (num_of_Z 0) accuracy) (num_of_Z 50)))
  else num_of_Z 1.

(** An update older than the entry by less than the reset. *)
Definition staleFor (v : VehicleData) (u : PositionUpdateInput) : bool :=
  match pu_timestamp u, vd_timestamp v with
  | Some a, Some b => let dt := a - b in (dt <? 0) && (- STALE_UPDATE_RESET_MS <? dt)
  | _, _ => false
  end.

Definition nextStatus (existing : option VehicleData) (u : PositionUpdateInput) : VehicleStatus :=
  if isMovingSpeed (pu_speed u) then moving
  else match existing with
       | Some v =>
           if bool_decide (vd_status v = moving) then
             match vd_lastMovingAt v with
             | Some (Some l) =>
                 match pu_timestamp u with
                 | Some t => if t - l <? STATUS_STATIC_DEBOUNCE_MS then moving else static
                 | None => static
                 end
             | _ => static
             end
           else static
       | None => static
       end.

(** [driverName || FALLBACK_DRIVER_NAME] *)
Definition nameOr (n : option string) : string := if truthy n then default "" n else FALLBACK_DRIVER_NAME.

Section Merge.
Context (now : Z).

Definition reliableEntry (existing : option VehicleData) (u : PositionUpdateInput) (eta : option string) : VehicleData :=
  {| vd_id := pu_vehicleId u;
     vd_lat := default (pu_latitude u) (pu_displayLatitude u);
     vd_lng := default (pu_longitude u) (pu_displayLongitude u);
     vd_rawLat := Some (pu_latitude u); vd_rawLng := Some (pu_longitude u);
     vd_name := nameOr (pu_driverName u); vd_speed := pu_speed u; vd_heading := pu_heading u;
     vd_accuracy := pu_accuracy u; vd_timestamp := pu_timestamp u; vd_status := nextStatus existing u; vd_eta := eta;
     vd_routeDistance := None; vd_routeDuration := None;
     vd_confidence := Some (default (confidenceOf (pu_accuracy u)) (pu_confidence u));
     vd_vehicleId := pu_vehicleId u; vd_deliveryId := pu_deliveryId u; vd_suspect := false;
     vd_lastMovingAt := if isMovingSpeed (pu_speed u) then Some (pu_timestamp u) else existing ≫= vd_lastMovingAt;
     vd_receivedAt := Some (Some now) |}.

Definition suspectEntry (v : VehicleData) (u : PositionUpdateInput) : VehicleData :=
  v <| vd_rawLat := Some (pu_latitude u) |> <| vd_rawLng := Some (pu_longitude u) |>
    <| vd_speed := pu_speed u |> <| vd_heading := pu_heading u |> <| vd_accuracy := pu_accuracy u |>
    <| vd_timestamp := pu_timestamp u |> <| vd_receivedAt := Some (Some now) |> <| vd_suspect := true |>.

Definition mergePositionUpdate (etaFor : option (PositionUpdateInput → option string)) (prev : VehicleTable)
    (u : PositionUpdateInput) : VehicleTable :=
  let key := pu_vehicleId u in
  let existing := prev !! key in
  if match existing with Some v => staleFor v u | None => false end then prev
  else if pu_suspect u then
    match existing with
    | None => prev
    | Some v => <[key := suspectEntry v u]> prev
    end
  else <[key := reliableEntry existing u (etaFor ≫= λ f, f u)]> prev.
End Merge.

Definition bootstrapEntry (etaFor : option (LivePositionInput → option string)) (p : LivePositionInput) : VehicleData :=
  let minutesOld := default (num_of_Z 0) (lp_minutesAgo p) in
  {| vd_id := lp_vehicleId p;
     vd_lat := default (lp_latitude p) (lp_displayLatitude p);
     vd_lng := default (lp_longitude p) (lp_displayLongitude p);
     vd_rawLat := Some (lp_latitude p); vd_rawLng := Some (lp_longitude p);
     vd_name := nameOr (lp_driverName p); vd_speed := lp_speed p; vd_heading := lp_heading p;
     vd_accuracy := lp_accuracy p; vd_timestamp := lp_timestamp p;
     vd_status := if num_ltb (num_of_Z OFFLINE_TIMEOUT_MIN) minutesOld then offline
                  else if isMovingSpeed (lp_speed p) then moving else static;
     vd_eta := etaFor ≫= (λ f, f p);
     vd_routeDistance := None; vd_routeDuration := None; vd_confidence := Some (confidenceOf (lp_accuracy p));
     vd_vehicleId := lp_vehicleId p; vd_deliveryId := lp_deliveryId p; vd_suspect := default false (lp_suspect p);
     vd_lastMovingAt := None; vd_receivedAt := lp_receivedAt p |}.

Definition mergeBootstrapPositions (etaFor : option (LivePositionInput → option string)) (prev : VehicleTable)
    (positions : list LivePositionInput) : VehicleTable :=
  foldl (λ next p,
    if String.eqb (lp_vehicleId p) "" || bool_decide (is_Some (next !! lp_vehicleId p)) then next
    else <[lp_vehicleId p := bootstrapEntry etaFor p]> next) prev positions.

(** ** animationTiming.ts *)

Definition MAX_ANIMATION_MS : Z := 20000.
Definition GAP_ANIMATION_MS : Z := 45000.
Definition FALLBACK_ANIMATION_MS : Z := 600.

(** [None] for null; a [Stamp] of [None] is NaN. *)
Definition computeAnimationDuration (prevTs currTs : option Stamp) : Z :=
  match prevTs, currTs with
  | Some (Some a), Some (Some b) =>
      let delta := b - a in
      if negb (0 <? delta) then FALLBACK_ANIMATION_MS
      else if GAP_ANIMATION_MS <? delta then FALLBACK_ANIMATION_MS
      else Z.min delta MAX_ANIMATION_MS
  | _, _ => FALLBACK_ANIMATION_MS
  end.

(** ** markerMotion.ts *)

Record LatLng := mkLatLng { ll_lat : num; ll_lng : num }.

Definition M_PER_DEG : num := num_of_Z 111320.
Definition MAX_BACKWARD_HOLD_M : num := num_of_Z 40.
Definition BACKWARD_EPSILON_M : num := num_of_Z 2.
Definition MIN_TRAVEL_M : num := num_of_Z 4.
Definition MAX_CONSECUTIVE_HOLDS : Z := 3.
Definition MAX_DEAD_RECKON_DISTANCE_M : num := num_of_Z 30.

(** [-x] *)
Definition num_opp (x : num) : num :=
  match x with
  | S754_zero s => S754_zero (negb s) | S754_infinity s => S754_infinity (negb s)
  | S754_nan => S754_nan | S754_finite s m e => S754_finite (negb s) m e
  end.

Section Motion.
Context (jm : JsMath).

(** [vecM] *)
Definition vecM (a b : LatLng) : num * num :=
  let cos := Math_cos jm (num_div (num_mul (ll_lat a) Math_PI) (num_of_Z 180)) in
  (num_mul (num_mul (num_sub (ll_lng b) (ll_lng a)) M_PER_DEG) cos,
   num_mul (num_sub (ll_lat b) (ll_lat a)) M_PER_DEG).

Definition isBackwardJitter (prevReal lastReal : option LatLng) (current next : LatLng) (maxBackM : num) : bool :=
  match prevReal, lastReal with
  | Some p, Some l =>
      let travel := vecM p l in
      let travelLen := Math_hypot jm travel.1 travel.2 in
      if num_ltb travelLen MIN_TRAVEL_M then false
      else
        let step := vecM current next in
        let proj := num_div (num_add (num_mul step.1 travel.1) (num_mul step.2 travel.2)) travelLen in
        num_ltb proj (num_opp BACKWARD_EPSILON_M) && num_leb (num_opp proj) maxBackM
  | _, _ => false
  end.

Definition deadReckonHorizonMs (speedMs maxMs : num) : num :=
  if negb (num_ltb (num_of_Z 0) speedMs) || negb (num_ltb (num_of_Z 0) maxMs) then num_of_Z 0
  else Math_min maxMs (Math_round (num_mul (num_div MAX_DEAD_RECKON_DISTANCE_M speedMs) (num_of_Z 1000))).

(** ** deadReckoning.ts *)

Record DeadReckoningState := mkReckoning { dk_lat : num; dk_lng : num; dk_speed : num; dk_heading : num; dk_timestamp : num }.

Definition predictPosition (s : DeadReckoningState) (t : num) : LatLng :=
  let elapsedSec := Math_max (num_of_Z 0) (num_div (num_sub t (dk_timestamp s)) (num_of_Z 1000)) in
  if num_leb elapsedSec (num_of_Z 0) || num_leb (dk_speed s) (num_of_Z 0) then mkLatLng (dk_lat s) (dk_lng s)
  else
    let distanceM := num_mul (dk_speed s) elapsedSec in
    let headingRad := num_div (num_mul (dk_heading s) Math_PI) (num_of_Z 180) in
    let dLat := num_div (num_mul distanceM (Math_cos jm headingRad)) M_PER_DEG in
    let dLng := num_div (num_mul distanceM (Math_sin jm headingRad))
                  (num_mul M_PER_DEG (Math_cos jm (num_div (num_mul (dk_lat s) Math_PI) (num_of_Z 180)))) in
    mkLatLng (num_add (dk_lat s) dLat) (num_add (dk_lng s) dLng).

Definition MAX_DEAD_RECKON_MS : num := num_of_Z 15000.

Definition maxDeadReckonTime (speed : num) : num :=
  if num_leb speed (num_of_Z 0) then num_of_Z 0
  else Math_min MAX_DEAD_RECKON_MS
         (Math_max (num_of_Z 1000) (num_add (num_mul speed (num_of_Z 2000)) (num_of_Z 2000))).

(** The position and whether it is extrapolated. *)
Definition resolveDeadReckonedPosition (s : DeadReckoningState) (drElapsedMs maxDrMs : num) : LatLng * bool :=
  if num_ltb maxDrMs drElapsedMs then (mkLatLng (dk_lat s) (dk_lng s), false)
  else (predictPosition (s <| dk_timestamp := num_of_Z 0 |>) drElapsedMs, true).

(** ** AnimatedMarker: the refs of the guard against going back *)

Record MarkerRefs := mkRefs {
  mk_from : option LatLng;  (** where the marker is *)
  mk_prevReal : option LatLng;
  mk_lastReal : option LatLng;
  mk_holdCount : Z
}.

Definition isNewFix (r : MarkerRefs) (next : LatLng) : bool :=
  match mk_lastReal r with
  | None => true
  | Some l => negb (num_eqb (ll_lat l) (ll_lat next)) || negb (num_eqb (ll_lng l) (ll_lng next))
  end.

(** The effect run on a position: whether the marker is held, and the refs. *)
Definition onVehiclePosition (disableAnimation : bool) (r : MarkerRefs) (next : LatLng) : bool * MarkerRefs :=
  if isNewFix r next then
    let holdBackward :=
      match mk_from r with
      | Some cur => negb disableAnimation && (mk_holdCount r <? MAX_CONSECUTIVE_HOLDS)
                    && isBackwardJitter (mk_prevReal r) (mk_lastReal r) cur next MAX_BACKWARD_HOLD_M
      | None => false
      end in
    (holdBackward, r <| mk_holdCount := if holdBackward then mk_holdCount r + 1 else 0 |>
                     <| mk_prevReal := mk_lastReal r |> <| mk_lastReal := Some next |>)
  else (false, r).
End Motion.
