(* ===== verification/VehicleMapProps.v ===== *)
(** * Frontend: the live map shows the newest fix, whatever the order of arrival *)

From Stdlib Require Import SpecFloat.
From S2P Require Import Prelude JsString JsNum Geo VehicleMap.

#[local] Open Scope string_scope.
#[local] Open Scope list_scope.
#[local] Open Scope Z_scope.

(** ** What one update may change *)

Section Updates.
Context (etaFor : option (PositionUpdateInput → option string)).

Notation merge now := (mergePositionUpdate now etaFor).

(** [v'] differs from [v] by nothing that places or names the marker. *)
Definition sameMarker (v v' : VehicleData) : Prop :=
  vd_id v' = vd_id v ∧ vd_vehicleId v' = vd_vehicleId v ∧ vd_lat v' = vd_lat v ∧ vd_lng v' = vd_lng v ∧
  vd_name v' = vd_name v ∧ vd_status v' = vd_status v ∧ vd_lastMovingAt v' = vd_lastMovingAt v ∧
  vd_deliveryId v' = vd_deliveryId v.

Lemma merge_other now m u k : k ≠ pu_vehicleId u → merge now m u !! k = m !! k.
Proof.
  intros Hk. unfold mergePositionUpdate. repeat case_match; try done; by apply lookup_insert_ne.
Qed.

(** The three outcomes of an update for its vehicle. *)
Lemma merge_own now m u :
  let k := pu_vehicleId u in
  (∃ v, m !! k = Some v ∧ staleFor v u = true ∧ merge now m u = m) ∨
  (pu_suspect u = true ∧ merge now m u !! k = (λ v, suspectEntry now v u) <$> m !! k) ∨
  (pu_suspect u = false ∧ merge now m u !! k = Some (reliableEntry now (m !! k) u (etaFor ≫= λ f, f u))).
Proof.
  cbv zeta. unfold mergePositionUpdate. destruct (m !! pu_vehicleId u) as [v|] eqn:Ev.
  - destruct (staleFor v u) eqn:Es; [left; by exists v|right].
    destruct (pu_suspect u); [left; split; [done|]|right; split; [done|]]; by rewrite lookup_insert_eq.
  - right. destruct (pu_suspect u); [left|right]; (split; [done|]); [by rewrite Ev|by rewrite lookup_insert_eq].
Qed.

(** ** The newest fix *)

(** The update displayed after a run: the latest of those with the greatest time. *)
Definition newer (acc : option (Z * PositionUpdateInput)) (x : Z * PositionUpdateInput) : option (Z * PositionUpdateInput) :=
  match acc with
  | Some a => if x.1 <? a.1 then acc else Some x
  | None => Some x
  end.
Definition newest (l : list (Z * PositionUpdateInput)) : option (Z * PositionUpdateInput) := foldl newer None l.

(** The entry displays the update [u] of time [t]. *)
Definition displays (v : VehicleData) (x : Z * PositionUpdateInput) : Prop :=
  let u := x.2 in
  vd_timestamp v = Some x.1 ∧ vd_lat v = default (pu_latitude u) (pu_displayLatitude u) ∧
  vd_lng v = default (pu_longitude u) (pu_displayLongitude u) ∧ vd_rawLat v = Some (pu_latitude u) ∧
  vd_rawLng v = Some (pu_longitude u) ∧ vd_speed v = pu_speed u ∧ vd_heading v = pu_heading u ∧
  vd_accuracy v = pu_accuracy u ∧ vd_name v = nameOr (pu_driverName u) ∧ vd_deliveryId v = pu_deliveryId u ∧
  vd_suspect v = false.

(** Arrivals: the browser's clock, the time of the fix, the update. *)
Definition Arrival : Type := Z * (Z * PositionUpdateInput).
Definition runArrivals (l : list Arrival) (m : VehicleTable) : VehicleTable :=
  foldl (λ m a, merge a.1 m a.2.2) m l.
Definition timedArrival (a : Arrival) : Prop := pu_timestamp a.2.2 = Some a.2.1.

(** The reliable updates of a vehicle, in the order of arrival. *)
Definition fixesOf (k : string) (l : list Arrival) : list (Z * PositionUpdateInput) :=
  filter (λ x, pu_vehicleId x.2 = k) l.*2.

Lemma newest_snoc l x : newest (l ++ [x]) = newer (newest l) x.
Proof. unfold newest. by rewrite foldl_app. Qed.

Lemma newest_spec l : match newest l with
  | Some x => x ∈ l ∧ ∀ y, y ∈ l → y.1 ≤ x.1
  | None => l = []
  end.
Proof.
  induction l as [|x l IH] using rev_ind; [done|]. rewrite newest_snoc. destruct (newest l) as [a|]; cbn [newer].
  - destruct IH as [Ha IH]. destruct (Z.ltb_spec x.1 a.1); (split; [set_solver|]);
      (intros y [Hy|Hy]%elem_of_app; [specialize (IH y Hy)|apply list_elem_of_singleton in Hy; subst y]; lia).
  - subst l. cbn. split; [set_solver|]. intros y Hy. apply list_elem_of_singleton in Hy. subst y. lia.
Qed.

Lemma run_snoc l a m : runArrivals (l ++ [a]) m = merge a.1 (runArrivals l m) a.2.2.
Proof. unfold runArrivals. by rewrite foldl_app. Qed.

Lemma run_newest k l : ∀ m, m !! k = None →
  Forall timedArrival l → Forall (λ a, pu_suspect a.2.2 = false) l →
  (∀ x y, x ∈ fixesOf k l → y ∈ fixesOf k l → x.1 - y.1 < STALE_UPDATE_RESET_MS) →
  match newest (fixesOf k l) with
  | Some x => ∃ v, runArrivals l m !! k = Some v ∧ displays v x
  | None => runArrivals l m !! k = None
  end.
Proof.
  induction l as [|a l IH] using rev_ind; intros m Hm Ht Hs Hd; [done|].
  apply Forall_app in Ht as [Ht Hta], Hs as [Hs Hsa]. apply Forall_inv in Hta, Hsa.
  assert (Hf : fixesOf k (l ++ [a]) = fixesOf k l ++ (if decide (pu_vehicleId a.2.2 = k) then [a.2] else [])).
  { unfold fixesOf. rewrite fmap_app, filter_app. f_equal. }
  specialize (IH m Hm Ht Hs). rewrite run_snoc. set (m1 := runArrivals l m) in *. rewrite Hf in Hd |- *.
  assert (Hd' : ∀ x y, x ∈ fixesOf k l → y ∈ fixesOf k l → x.1 - y.1 < STALE_UPDATE_RESET_MS).
  { intros x y Hx Hy. apply Hd; apply elem_of_app; by left. }
  specialize (IH Hd'). destruct (decide (pu_vehicleId a.2.2 = k)) as [Hk|Hk].
  2: { rewrite app_nil_r. rewrite merge_other by done. exact IH. }
  rewrite newest_snoc. pose proof (newest_spec (fixesOf k l)) as HN. unfold timedArrival in Hta.
  pose proof (merge_own a.1 m1 a.2.2) as HM. cbv zeta in HM. rewrite Hk in HM.
  destruct (newest (fixesOf k l)) as [x|]; cbn [newer].
  - destruct IH as (v & Hv & HD), HN as [Hx _]. destruct HM as [(v' & Hv' & Hst & ->)|[[Hsu _]|[_ E]]]; [|congruence|].
    + rewrite Hv in Hv'. injection Hv' as <-. unfold staleFor in Hst. rewrite Hta, (proj1 HD) in Hst.
      apply andb_prop in Hst as [Hst%Z.ltb_lt _]. rewrite (proj2 (Z.ltb_lt a.2.1 x.1)) by lia. by exists v.
    + assert (Hle : x.1 ≤ a.2.1).
      { destruct (Z.le_gt_cases x.1 a.2.1) as [|Hlt]; [done|exfalso].
        assert (Hst : staleFor v a.2.2 = true).
        { unfold staleFor. rewrite Hta, (proj1 HD). specialize (Hd x a.2).
          rewrite andb_true_iff, !Z.ltb_lt. split; [lia|].
          assert (x.1 - a.2.1 < STALE_UPDATE_RESET_MS) by (apply Hd; set_solver). lia. }
        unfold mergePositionUpdate in E. rewrite Hk, Hv, Hst in E. rewrite Hv in E. injection E as E.
        destruct HD as (HT & _). rewrite E in HT. cbn in HT. congruence || (rewrite Hta in HT; injection HT as HT; lia). }
      rewrite (proj2 (Z.ltb_ge _ _)) by done. eexists. split; [exact E|]. by split_and!.
  - destruct HM as [(v' & Hv' & _)|[[Hsu _]|[_ E]]]; [congruence|congruence|].
    eexists. split; [exact E|]. by split_and!.
Qed.

(** ** Suspect fixes and loads do not move a marker *)

#[local] Instance sameMarker_preorder : PreOrder sameMarker.
Proof.
  split; [by intros v; split_and!|]. unfold sameMarker. intros a b c (?&?&?&?&?&?&?&?) (?&?&?&?&?&?&?&?).
  split_and!; congruence.
Qed.

Lemma suspect_merge now m u k v : pu_suspect u = true → m !! k = Some v →
  ∃ v', merge now m u !! k = Some v' ∧ sameMarker v v'.
Proof.
  intros Hs Hv. destruct (decide (k = pu_vehicleId u)) as [->|Hk].
  - destruct (merge_own now m u) as [(v' & _ & _ & ->)|[[_ E]|[Hr _]]]; [by exists v| |congruence].
    rewrite Hv in E. eexists. split; [exact E|]. by split_and!.
  - exists v. by rewrite merge_other.
Qed.

Lemma suspect_run l : ∀ m k v, Forall (λ a, pu_suspect a.2.2 = true) l → m !! k = Some v →
  ∃ v', runArrivals l m !! k = Some v' ∧ sameMarker v v'.
Proof.
  induction l as [|a l IH] using rev_ind; intros m k v Hs Hv; [by exists v|].
  apply Forall_app in Hs as [Hs Ha%Forall_inv]. destruct (IH m k v Hs Hv) as (v1 & H1 & S1).
  rewrite run_snoc. destruct (suspect_merge a.1 _ a.2.2 k v1 Ha H1) as (v2 & H2 & S2).
  exists v2. split; [done|]. by etrans.
Qed.

Lemma suspect_creates_nothing l : ∀ m k, Forall (λ a, pu_suspect a.2.2 = true) l → m !! k = None →
  runArrivals l m !! k = None.
Proof.
  induction l as [|a l IH] using rev_ind; intros m k Hs Hv; [done|].
  apply Forall_app in Hs as [Hs Ha%Forall_inv]. specialize (IH m k Hs Hv). rewrite run_snoc.
  destruct (decide (k = pu_vehicleId a.2.2)) as [->|Hk]; [|by rewrite merge_other].
  destruct (merge_own a.1 (runArrivals l m) a.2.2) as [(v' & _ & _ & ->)|[[_ ->]|[Hr _]]]; [done|by rewrite IH|congruence].
Qed.

Lemma bootstrap_keeps etaB ps : ∀ m k v, m !! k = Some v → mergeBootstrapPositions etaB m ps !! k = Some v.
Proof.
  induction ps as [|p ps IH]; intros m k v Hv; [done|]. apply IH.
  case_match eqn:E; [done|]. apply orb_false_iff in E as [_ E%bool_decide_eq_false].
  rewrite lookup_insert_ne; [done|]. intros <-. by destruct E; exists v.
Qed.


(** ** Keys *)

Definition keyed (m : VehicleTable) : Prop := map_Forall (λ k v, vd_vehicleId v = k ∧ vd_id v = k) m.

(** The table is keyed by the vehicle, never by its driver. *)
Lemma keyed_merge now m u : keyed m → keyed (merge now m u).
Proof.
  intros Hm. unfold mergePositionUpdate. repeat case_match; try done; apply map_Forall_insert_2; try done.
  by match goal with H : m !! _ = Some _ |- _ => apply (Hm _ _ H) end.
Qed.

Lemma keyed_bootstrap etaB ps : ∀ m, keyed m → keyed (mergeBootstrapPositions etaB m ps).
Proof.
  induction ps as [|p ps IH]; intros m Hm; [done|]. apply IH. case_match; [done|]. by apply map_Forall_insert_2.
Qed.
End Updates.

(** ** The badge degrades with time and never recovers by itself *)

Definition rank (s : VehicleStatus) : Z := match s with moving => 2 | static => 1 | offline => 0 end.

Lemma badge_only_degrades status timestamp now now' : now ≤ now' →
  rank (effectiveStatus status timestamp now') ≤ rank (effectiveStatus status timestamp now).
Proof.
  intros Hn. destruct timestamp as [t|]; [|by destruct status].
  unfold effectiveStatus, OFFLINE_TIMEOUT_MIN, STALE_MOVEMENT_MS.
  destruct status; try done; cbn [rank bool_decide andb]; cbv zeta;
    repeat first [case_bool_decide | match goal with |- context[?a <? ?b] => destruct (Z.ltb_spec a b) end];
    cbn in *; first [done|lia].
Qed.

(** Silent for fifteen minutes: offline, without the warning of a lost signal and without a speed. *)
Lemma silence_is_offline status t now v : 15 * 60000 < now - t →
  effectiveStatus status (Some t) now = offline ∧ signalLostSinceMs (Some (Some t)) now = None ∧
  liveSpeedLabel v status (Some t) now = "À l'arrêt".
Proof.
  intros Ht. assert (E : effectiveStatus status (Some t) now = offline).
  { unfold effectiveStatus, OFFLINE_TIMEOUT_MIN. destruct status; try done; cbv zeta; by rewrite (proj2 (Z.ltb_lt _ _) Ht). }
  split_and!; [done| |unfold liveSpeedLabel; by rewrite E].
  unfold signalLostSinceMs, SIGNAL_LOST_MS, OFFLINE_TIMEOUT_MIN. cbv zeta. case_match; [done|]. by rewrite (proj2 (Z.ltb_lt _ _) Ht).
Qed.

(** An animation takes the time between two fixes, at most 20 s, or 0.6 s where that time says nothing. *)
Lemma animation_bounded prevTs currTs :
  let d := computeAnimationDuration prevTs currTs in
  d = FALLBACK_ANIMATION_MS ∨
  (∃ a b, prevTs = Some (Some a) ∧ currTs = Some (Some b) ∧ 0 < d ≤ MAX_ANIMATION_MS ∧ d ≤ b - a ≤ GAP_ANIMATION_MS).
Proof.
  cbv zeta. unfold computeAnimationDuration. destruct prevTs as [[a|]|], currTs as [[b|]|]; try by left.
  cbv zeta. destruct (Z.ltb_spec 0 (b - a)); [|by left]. destruct (Z.ltb_spec GAP_ANIMATION_MS (b - a)); [by left|].
  right. exists a, b. unfold MAX_ANIMATION_MS in *. split_and!; try done; cbn [negb]; lia.
Qed.

(** ** A held marker is let go *)

Section Holds.
Context (jm : JsMath) (disableAnimation : bool).

(** The positions of a vehicle one after the other, and which were held; [mk_from]
    is where the animation has brought the marker when the position comes. *)
Fixpoint runFixes (r : MarkerRefs) (l : list (option LatLng * LatLng)) : list bool * MarkerRefs :=
  match l with
  | [] => ([], r)
  | (cur, next) :: l =>
      let (held, r1) := onVehiclePosition jm disableAnimation (r <| mk_from := cur |>) next in
      let (hs, r2) := runFixes r1 l in (held :: hs, r2)
  end.

Lemma hold_step r cur next : 0 ≤ mk_holdCount r ≤ MAX_CONSECUTIVE_HOLDS →
  let (held, r') := onVehiclePosition jm disableAnimation (r <| mk_from := cur |>) next in
  0 ≤ mk_holdCount r' ≤ MAX_CONSECUTIVE_HOLDS ∧
  (held = true → mk_holdCount r' = mk_holdCount r + 1).
Proof.
  intros Hr. unfold onVehiclePosition. destruct (isNewFix _ _); [|by split]. cbn -[MAX_CONSECUTIVE_HOLDS isBackwardJitter andb].
  destruct cur as [cur|]; [|cbn; unfold MAX_CONSECUTIVE_HOLDS; lia].
  destruct (_ && isBackwardJitter _ _ _ _ _ _) eqn:Eh; cbn; [|unfold MAX_CONSECUTIVE_HOLDS; lia].
  apply andb_prop in Eh as [[_ Eh%Z.ltb_lt]%andb_prop _]. cbn in Eh. lia.
Qed.

Lemma held_run_bounded l : ∀ r, 0 ≤ mk_holdCount r ≤ MAX_CONSECUTIVE_HOLDS →
  Forall (eq true) (runFixes r l).1 → Z.of_nat (length l) ≤ MAX_CONSECUTIVE_HOLDS - mk_holdCount r.
Proof.
  induction l as [|[cur next] l IH]; intros r Hr; [cbn; lia|]. cbn [runFixes].
  pose proof (hold_step r cur next Hr) as HS. destruct (onVehiclePosition _ _ _ _) as [held r1].
  specialize (IH r1 (proj1 HS)). destruct (runFixes r1 l) as [hs r2]. cbn. intros [<- Hhs]%Forall_cons.
  specialize (IH Hhs). destruct HS as [_ HS]. specialize (HS eq_refl). lia.
Qed.

(** Of any four positions in a row at least one moves the marker: it is never frozen. *)
Theorem marker_never_frozen r l : 0 ≤ mk_holdCount r ≤ MAX_CONSECUTIVE_HOLDS → (4 ≤ length l)%nat →
  Exists (eq false) (runFixes r l).1.
Proof.
  intros Hr Hl. destruct (decide (Exists (eq false) (runFixes r l).1)) as [|Hno]; [done|exfalso].
  assert (HF : Forall (eq true) (runFixes r l).1).
  { apply Forall_forall. intros b Hb. destruct b; [done|]. destruct Hno. apply Exists_exists. by exists false. }
  apply held_run_bounded in HF; [|done]. unfold MAX_CONSECUTIVE_HOLDS in *. lia.
Qed.
End Holds.

(** ** An example: three fixes of a van, the newest second, and a fix of another van *)

Definition exampleFix (k : string) (lat : Z) (t : Z) (suspect : bool) : PositionUpdateInput :=
  mkUpdate k None (Some "Rado") (num_of_Z lat) (num_of_Z 47) None None (Some (num_of_Z 8)) None (Some (num_of_Z 10))
    suspect None (Some t) None.

Definition exampleArrivals : list Arrival :=
  [(100000, (90000, exampleFix "van-1" 1 90000 false)); (130000, (125000, exampleFix "van-1" 3 125000 false));
   (131000, (99000, exampleFix "van-2" 9 99000 false)); (132000, (110000, exampleFix "van-1" 2 110000 false))].

