(* ===== verification/DailyReports.v ===== *)
(** * Fuel: the daily reports and the driving scores

    generateDailyReports and the recomputation after a delivery
    (modules/fuel-consumption/fuel-consumption.service.ts,
    queue/fuel-analysis.processor.ts), and DriverScoreService
    (modules/driver-score/driver-score.service.ts), which reads the reports.

    A report is kept under its unique index, driver, vehicle and date.  The
    table of positions is in the order of the ties of a query. *)

From Stdlib Require Import SpecFloat.
From S2P Require Import Prelude JsString JsNum JsDate Geo Gps Redis TrackingModel FuelPrices FuelLogs.

#[local] Open Scope string_scope.
#[local] Open Scope list_scope.
#[local] Open Scope Z_scope.

Definition MAX_POSITIONS_PER_DAILY_REPORT : nat := Z.to_nat 60000.

Inductive GpsDataQuality := sufficient | insufficient | suspicious.
#[export] Instance GpsDataQuality_eq_dec : EqDecision GpsDataQuality.
Proof. solve_decision. Defined.

Record DailyFuelReport := mkReport {
  rp_driverName : string;
  rp_vehiclePlate : string;
  rp_fuelType : string;
  rp_distanceKm : num;
  rp_gpsDataQuality : GpsDataQuality;
  rp_consumptionLPer100Km : num;
  rp_estimatedCost : num;
  rp_pricePerLiterUsed : option num;
  rp_companyId : string
}.

(** The columns of drivers and vehicles that the reports read. *)
Record ReportDriver := mkReportDriver {
  rd_companyId : string;
  rd_firstName : string;
  rd_lastName : string;
  rd_isActive : bool;
  rd_deletedAt : option Z;
  rd_vehicleId : option string
}.

Record ReportVehicle := mkReportVehicle {
  rv_companyId : string;
  rv_licensePlate : string;
  rv_fuelType : string;
  rv_theoreticalConsumption : option num;
  rv_isActive : bool;
  rv_deletedAt : option Z
}.

Record DriverScore := mkScore {
  sc_companyId : string;
  sc_score : num;
  sc_speedingEvents : Z;
  sc_harshEvents : Z;
  sc_distanceKm : num
}.

(** Driver, vehicle, date. *)
Definition ReportKey : Type := string * string * Z.

Record ReportStore := mkReportStore {
  companies : list string;
  reportDrivers : gmap string ReportDriver;
  reportVehicles : gmap string ReportVehicle;
  trace : list GpsPosition;
  priceStore : PriceStore;
  speedAlertThreshold : gmap string num;  (** company_settings *)
  reports : gmap ReportKey DailyFuelReport;
  scores : gmap ReportKey DriverScore;
  updates : list (string * ReportKey);  (** 'fuelReport' updates broadcast to a company *)
  reportCache : RedisDb
}.

(** ** Days *)

(** [getMadagascarDayBounds], of both services. *)
Definition getMadagascarDayBounds (date : Z) : Z * Z :=
  (MakeDate (Day date - 1) (21 * 3600000), MakeDate (Day date) (20 * 3600000 + 59 * 60000 + 59 * 1000 + 999)).

(** [Date.UTC(y, m, d)] of the date's UTC calendar day. *)
Definition utcDay (date : Z) : Z := MakeDate (Day date) 0.

Definition inDay (date : Z) (p : GpsPosition) : bool :=
  let (start, end_) := getMadagascarDayBounds date in (start <=? p_timestamp p) && (p_timestamp p <=? end_).

(** ** One report *)

Section Reports.
Context (jm : JsMath) (routeMatching : bool)
  (matchRouteDistance : list (num * num) → list num → option (num * num)).

Definition hundredths (x : num) : num := num_div (Math_round (num_mul x (num_of_Z 100))) (num_of_Z 100).

Definition averageAccuracy (l : list StopFix) : num :=
  let accuracies := omap (M:=list) Gps.accuracy l in
  match accuracies with
  | [] => num_of_Z 0
  | _ => num_div (foldl num_add (num_of_Z 0) accuracies) (num_of_Z (Z.of_nat (length accuracies)))
  end.

(** The distance of a group of positions and what it is worth. *)
Definition groupDistance (l : list StopFix) : num * GpsDataQuality :=
  if (length l <? 2)%nat then (num_of_Z 0, insufficient)
  else
    let computedKm := hundredths (km (pageDistance jm routeMatching matchRouteDistance l MAX_MATCH_CHUNKS).1) in
    if negb (num_leb (num_lit 1 10) computedKm) then (num_of_Z 0, insufficient)
    else
      let withTs := filter (λ p, Gps.timestamp p ≠ None) l in
      match withTs, last withTs with
      | first :: _ :: _, Some lst =>
          let netKm := km (haversineDistance jm (Gps.latitude first) (Gps.longitude first) (Gps.latitude lst) (Gps.longitude lst)) in
          (computedKm, if isStationaryNoise computedKm netKm (averageAccuracy l) then suspicious else sufficient)
      | _, _ => (computedKm, sufficient)
      end.

Definition consumptionUsed (v : ReportVehicle) : num :=
  match rv_theoreticalConsumption v with
  | Some c => if num_truthy c then c else num_of_Z 8
  | None => num_of_Z 8
  end.

Definition plateOf (v : ReportVehicle) : string :=
  if String.eqb (rv_licensePlate v) "" then "N/A" else rv_licensePlate v.

(** The row of a group, as it is created. *)
Definition reportOf (cid driverName : string) (targetDate : Z) (prices_ : PriceStore) (v : ReportVehicle)
    (l : list StopFix) : DailyFuelReport :=
  let (distanceKm, quality) := groupDistance l in
  let consumption := consumptionUsed v in
  let price := getFuelPriceForDate cid (Some (normalizeFuelType (Some (rv_fuelType v)))) targetDate prices_ in
  {| rp_driverName := driverName; rp_vehiclePlate := plateOf v;
     rp_fuelType := normalizeFuelType (Some (rv_fuelType v));
     rp_distanceKm := distanceKm; rp_gpsDataQuality := quality; rp_consumptionLPer100Km := consumption;
     rp_estimatedCost :=
       match price with
       | Some p => hundredths (num_mul (num_div (num_mul distanceKm consumption) (num_of_Z 100)) p)
       | None => num_of_Z 0
       end;
     rp_pricePerLiterUsed := price; rp_companyId := cid |}.

Definition upsertDailyReportForVehicleGroup (did driverName cid : string) (targetDate : Z) (vid : string)
    (l : list StopFix) (s : ReportStore) : ReportStore :=
  match reportVehicles s !! vid with
  | None => s
  | Some v =>
      let key := (did, vid, utcDay targetDate) in
      let row := reportOf cid driverName targetDate (priceStore s) v l in
      let row := match reports s !! key with
                 | Some old => row <| rp_driverName := rp_driverName old |> <| rp_companyId := rp_companyId old |>
                 | None => row
                 end in
      s <| reports := <[key := row]> (reports s) |> <| updates := updates s ++ [(cid, key)] |>
  end.

(** ** The positions of a driver, of a vehicle *)

(** [findMany({ where, orderBy: { timestamp: 'asc' }, take })]. *)
Definition dayPositions (P : GpsPosition → bool) (cid : string) (date : Z) (s : ReportStore) : list GpsPosition :=
  take MAX_POSITIONS_PER_DAILY_REPORT
    (sort_by p_timestamp
       (filter (λ p, P p = true ∧ p_companyId p = cid ∧ p_suspect p = false ∧ inDay date p = true) (trace s))).

(** [byVehicle]: a Map from the vehicle to its positions, in the order of their first one. *)
Fixpoint pushGroup (vid : string) (p : GpsPosition) (groups : list (string * list GpsPosition))
    : list (string * list GpsPosition) :=
  match groups with
  | [] => [(vid, [p])]
  | (k, l) :: groups => if String.eqb k vid then (k, l ++ [p]) :: groups else (k, l) :: pushGroup vid p groups
  end.
Definition groupByVehicle (l : list GpsPosition) : list (string * list GpsPosition) :=
  foldl (λ groups p, pushGroup (p_vehicleId p) p groups) [] l.

(** [`${firstName} ${lastName}`] *)
Definition fullName (d : ReportDriver) : string := rd_firstName d +:+ " " +:+ rd_lastName d.

Definition generateDailyReportForDriver (did : string) (d : ReportDriver) (cid : string) (targetDate : Z)
    (s : ReportStore) : ReportStore :=
  foldl (λ s g, upsertDailyReportForVehicleGroup did (fullName d) cid targetDate g.1 (map fixOf g.2) s) s
    (groupByVehicle (dayPositions (λ p, bool_decide (p_driverId p = Some did)) cid targetDate s)).

(** The driver of the vehicle's last position that has one, or [current]. *)
Definition reportDriverId (l : list GpsPosition) (current : option string) : option string :=
  match head (filter (λ p, truthy (p_driverId p) = true) (rev l)) with
  | Some p => p_driverId p
  | None => current
  end.

(** The positions attributed to the report of the vehicle: those without driver,
    those of its driver and those of drivers that are not active. *)
Definition inScope (active : list string) (rid : string) (p : GpsPosition) : bool :=
  match p_driverId p with
  | None => true
  | Some x => bool_decide (x = rid) || negb (bool_decide (x ∈ active))
  end.

Definition generateDailyReportForVehicle (active : list string) (vid cid : string) (targetDate : Z)
    (current : option string) (s : ReportStore) : ReportStore :=
  let l := dayPositions (λ p, bool_decide (p_vehicleId p = vid)) cid targetDate s in
  match l with
  | [] => s
  | _ =>
      let rid := reportDriverId l current in
      if truthy rid then
        let rid := default "" rid in
        let name := match reportDrivers s !! rid with Some d => fullName d | None => " " end in
        upsertDailyReportForVehicleGroup rid name cid targetDate vid
          (map fixOf (filter (λ p, inScope active rid p = true) l)) s
      else s
  end.

(** ** The passes of a company *)

Definition activeDriver (cid : string) (d : ReportDriver) : bool :=
  bool_decide (rd_companyId d = cid) && bool_decide (rd_deletedAt d = None) && rd_isActive d.
Definition activeVehicle (cid : string) (v : ReportVehicle) : bool :=
  bool_decide (rv_companyId v = cid) && bool_decide (rv_deletedAt v = None) && rv_isActive v.

(** The relation [vehicle.driver]; [driver.vehicleId] is unique. *)
Definition driverOfVehicle (vid : string) (s : ReportStore) : option string :=
  fst <$> find_first (λ _ d, bool_decide (rd_vehicleId d = Some vid)) (reportDrivers s).

Definition hasPositions (vid cid : string) (date : Z) (s : ReportStore) : bool :=
  existsb (λ p, bool_decide (p_vehicleId p = vid) && bool_decide (p_companyId p = cid)
                && negb (p_suspect p) && inDay date p) (trace s).

Definition generateDailyReportForCompany (cid : string) (date : Z) (s : ReportStore) : ReportStore :=
  let targetDate := utcDay date in
  let drivers := find_many (λ _ d, activeDriver cid d) (reportDrivers s) in
  let active := drivers.*1 in
  let s := foldl (λ s kd, generateDailyReportForDriver kd.1 kd.2 cid targetDate s) s drivers in
  let unassigned := find_many (λ vid v, activeVehicle cid v && bool_decide (driverOfVehicle vid s = None))
                      (reportVehicles s) in
  let s := foldl (λ s kv, generateDailyReportForVehicle active kv.1 cid targetDate None s) s unassigned in
  let assigned := find_many (λ vid v, activeVehicle cid v && bool_decide (driverOfVehicle vid s ≠ None))
                    (reportVehicles s) in
  foldl (λ s kv,
    if hasPositions kv.1 cid targetDate s
    then generateDailyReportForVehicle active kv.1 cid targetDate (driverOfVehicle kv.1 s) s
    else s) s assigned.

Definition generateDailyReports (link : RedisLink) (instanceId : string) (now : Z) (s : ReportStore) : ReportStore :=
  let (db, acquired) := acquireCronLock link instanceId "fuel.generateDailyReports" 3600 now (reportCache s) in
  let s := s <| reportCache := db |> in
  if acquired then foldl (λ s cid, generateDailyReportForCompany cid now s) s (companies s) else s.

(** On demand; [date] is [None] when absent and [Some None] for a text that is no date. *)
Definition generateDailyReportForCompanyOnDemand (cid raw : string) (date : option (option Z)) (now : Z)
    : M ReportStore unit :=
  match date with
  | None => modify (generateDailyReportForCompany cid now)
  | Some (Some d) => modify (generateDailyReportForCompany cid d)
  | Some None => throw (BadRequestException ("Invalid date: " +:+ quoted raw +:+ " is not a valid date"))
  end.

Definition generateDailyReportForSingleDriver (cid did : string) (date : option Z) (now : Z) (s : ReportStore)
    : ReportStore :=
  let targetDate := default now date in
  match reportDrivers s !! did with
  | Some d =>
      if bool_decide (rd_companyId d = cid) && bool_decide (rd_deletedAt d = None)
      then generateDailyReportForDriver did d cid targetDate s
      else s
  | None => s
  end.

(** The job a delivered delivery queues, at the time of the delivery. *)
Definition processDriverReport (cid did : string) (date : option Z) (now : Z) (s : ReportStore) : ReportStore :=
  generateDailyReportForSingleDriver cid did date now s.

(** ** Driving scores *)

Definition SPEEDING_PENALTY_PER_EVENT : num := num_of_Z 2.
Definition SPEEDING_PENALTY_CAP : num := num_of_Z 30.
Definition HARSH_PENALTY_PER_EVENT : num := num_of_Z 1.
Definition HARSH_PENALTY_CAP : num := num_of_Z 30.
Definition HARSH_ACCEL_THRESHOLD_KMH_PER_S : num := num_of_Z 8.
Definition HARSH_EVENT_MAX_GAP_S : num := num_of_Z 5.
Definition NORMALIZATION_STEP_KM : num := num_of_Z 100.
Definition MIN_DISTANCE_FOR_NORMALIZATION_KM : num := num_of_Z 20.
Definition MAX_POSITIONS_PER_SCORE : nat := Z.to_nat 60000.

Definition kmh (ms : num) : num := num_mul ms (num_lit 36 10).

Definition speeding (threshold : num) (p : GpsPosition) : bool :=
  match p_speed p with Some v => num_ltb threshold (kmh v) | None => false end.

Definition harsh (prev cur : GpsPosition) : bool :=
  match p_speed prev, p_speed cur with
  | Some a, Some b =>
      let dtS := secs (p_timestamp cur - p_timestamp prev) in
      if num_leb dtS (num_of_Z 0) || num_ltb HARSH_EVENT_MAX_GAP_S dtS then false
      else num_leb HARSH_ACCEL_THRESHOLD_KMH_PER_S (num_div (kmh (Math_abs (num_sub b a))) dtS)
  | _, _ => false
  end.

Fixpoint harshCount (l : list GpsPosition) : Z :=
  match l with
  | prev :: (cur :: _) as rest => (if harsh prev cur then 1 else 0) + harshCount rest
  | _ => 0
  end.

Definition computeEvents (l : list GpsPosition) (threshold : option num) : Z * Z :=
  (match threshold with
   | Some t => if num_truthy t then Z.of_nat (length (filter (λ p, speeding t p = true) l)) else 0
   | None => 0
   end, harshCount l).

Definition computePenalty (events : Z) (distanceKm perEvent cap : num) : num :=
  if events =? 0 then num_of_Z 0
  else
    let normalized := if num_leb MIN_DISTANCE_FOR_NORMALIZATION_KM distanceKm
                      then num_div (num_of_Z events) (num_div distanceKm NORMALIZATION_STEP_KM)
                      else num_of_Z events in
    Math_min cap (num_mul normalized perEvent).

Definition computeScore (speedingEvents harshEvents : Z) (distanceKm : num) : num :=
  Math_max (num_of_Z 0)
    (Math_round (num_sub (num_sub (num_of_Z 100)
                            (computePenalty speedingEvents distanceKm SPEEDING_PENALTY_PER_EVENT SPEEDING_PENALTY_CAP))
                   (computePenalty harshEvents distanceKm HARSH_PENALTY_PER_EVENT HARSH_PENALTY_CAP))).

Definition scoreReport (cid : string) (targetDate now : Z) (s : ReportStore)
    (report : ReportKey * DailyFuelReport) : ReportStore :=
  let '((did, vid, _), r) := report in
  if num_leb (rp_distanceKm r) (num_of_Z 0) then s
  else
    let l := take MAX_POSITIONS_PER_SCORE
               (sort_by p_timestamp
                  (filter (λ p, p_vehicleId p = vid ∧ p_companyId p = cid ∧ p_suspect p = false ∧ inDay now p = true)
                     (trace s))) in
    let (speedingEvents, harshEvents) := computeEvents l (speedAlertThreshold s !! cid) in
    let key := (did, vid, targetDate) in
    let row := mkScore (match scores s !! key with Some old => sc_companyId old | None => cid end)
                 (computeScore speedingEvents harshEvents (rp_distanceKm r)) speedingEvents harshEvents (rp_distanceKm r) in
    s <| scores := <[key := row]> (scores s) |>.

Definition scoreCompany (now : Z) (s : ReportStore) (cid : string) : ReportStore :=
  let targetDate := utcDay now in
  let dayReports := filter (λ kr, rp_companyId kr.2 = cid ∧ kr.1.2 = targetDate) (map_to_list (reports s)) in
  foldl (scoreReport cid targetDate now) s dayReports.

Definition generateDailyScores (link : RedisLink) (instanceId : string) (now : Z) (s : ReportStore) : ReportStore :=
  let (db, acquired) := acquireCronLock link instanceId "driverScore.generateDailyScores" 3600 now (reportCache s) in
  let s := s <| reportCache := db |> in
  if acquired then foldl (scoreCompany now) s (companies s) else s.

(** [getScoreSummary]: the averages of each driver over some days. *)
Record DriverScoreSummary := mkSummary {
  avgScore : num;
  daysScored : Z;
  sumDistanceKm : num;
  sumSpeedingEvents : Z;
  sumHarshEvents : Z
}.

(** [agg]; the field [avgScore] holds the total here. *)
Definition addScore (agg : gmap string DriverScoreSummary) (row : string * DriverScore) : gmap string DriverScoreSummary :=
  let (did, sc) := row in
  let entry := default (mkSummary (num_of_Z 0) 0 (num_of_Z 0) 0 0) (agg !! did) in
  <[did := mkSummary (num_add (avgScore entry) (sc_score sc)) (daysScored entry + 1)
             (num_add (sumDistanceKm entry) (sc_distanceKm sc))
             (sumSpeedingEvents entry + sc_speedingEvents sc) (sumHarshEvents entry + sc_harshEvents sc)]> agg.

Definition summaryOf (entry : DriverScoreSummary) : DriverScoreSummary :=
  entry <| avgScore := Math_round (num_div (avgScore entry) (num_of_Z (daysScored entry))) |>
        <| sumDistanceKm := num_div (Math_round (num_mul (sumDistanceKm entry) (num_of_Z 10))) (num_of_Z 10) |>.

Definition getScoreSummary (cid : string) (from to : Z) (s : ReportStore) : gmap string DriverScoreSummary :=
  let rows := filter (λ kr, sc_companyId kr.2 = cid ∧ from ≤ kr.1.2 ∧ kr.1.2 ≤ to) (map_to_list (scores s)) in
  summaryOf <$> foldl (λ agg kr, addScore agg (kr.1.1.1, kr.2)) ∅ rows.
End Reports.
