(* ===== verification/DailyReportsProps.v ===== *)
(** * Fuel: what the daily reports and the driving scores promise

    After the nightly run each position of a vehicle counts in exactly one
    report; the recomputation after a delivery, an earlier run of the same day
    and the scores of a shared vehicle do not keep to that. *)

From Stdlib Require Import SpecFloat.
From S2P Require Import Prelude JsString JsNum JsDate Geo Gps Redis TrackingModel FuelPrices FuelLogs DailyReports.

#[local] Open Scope string_scope.
#[local] Open Scope list_scope.
#[local] Open Scope Z_scope.

Lemma few_positions n : (n ≤ 100)%nat → (n ≤ MAX_POSITIONS_PER_DAILY_REPORT)%nat.
Proof. unfold MAX_POSITIONS_PER_DAILY_REPORT. lia. Qed.

#[local] Opaque MAX_POSITIONS_PER_DAILY_REPORT.

(** ** Sorting and filtering commute *)

Section Stable.
Context {A : Type} (key : A → Z) (P : A → Prop) `{∀ x, Decision (P x)}.

Lemma insert_by_before x l : Forall (λ y, key x < key y) l → insert_by key x l = x :: l.
Proof. destruct 1 as [|y l Hy _]; [done|]. cbn. by rewrite (proj2 (Z.ltb_lt _ _) Hy). Qed.

Lemma filter_insert_by x l : StronglySorted (key_le key) l →
  filter P (insert_by key x l) = if decide (P x) then insert_by key x (filter P l) else filter P l.
Proof.
  induction 1 as [|y l Hs IH Hy]; cbn [insert_by]; [rewrite filter_cons; by case_decide|].
  destruct (Z.ltb_spec (key x) (key y)) as [Hlt|Hge].
  - rewrite filter_cons. case_decide as Hx; [|done]. symmetry. apply insert_by_before.
    apply Forall_forall. intros z Hz. apply list_elem_of_filter in Hz as [_ Hz].
    apply elem_of_cons in Hz as [->|Hz]; [done|]. rewrite Forall_forall in Hy. specialize (Hy z Hz). unfold key_le in Hy. lia.
  - rewrite !filter_cons, IH. do 2 case_decide; try done. cbn. by rewrite (proj2 (Z.ltb_ge _ _) Hge).
Qed.

Lemma filter_sort_by l : filter P (sort_by key l) = sort_by key (filter P l).
Proof.
  unfold sort_by. assert (Hs : StronglySorted (key_le key) []) by constructor.
  change (@nil A) with (filter P []) at 2. revert Hs. generalize (@nil A).
  induction l as [|x l IH]; intros acc Hs; [done|]. cbn [foldl]. rewrite IH by (by apply insert_by_sorted).
  rewrite filter_insert_by, filter_cons by done. by case_decide.
Qed.
End Stable.

(** ** Groups by vehicle *)

Definition ofVehicle (vid : string) (l : list GpsPosition) : list GpsPosition := filter (λ p, p_vehicleId p = vid) l.

Lemma pushGroup_keys vid p groups :
  (pushGroup vid p groups).*1 = groups.*1 ++ (if decide (vid ∈ groups.*1) then [] else [vid]).
Proof.
  induction groups as [|[k l] groups IH]; [done|]. cbn [pushGroup].
  destruct (String.eqb_spec k vid) as [->|Hk].
  - cbn. rewrite decide_True by set_solver. by rewrite app_nil_r.
  - rewrite !fmap_cons. cbn [fst app]. rewrite IH. f_equal. f_equal.
    destruct (decide (vid ∈ groups.*1)); [by rewrite decide_True by set_solver|by rewrite decide_False by set_solver].
Qed.

Lemma pushGroup_elem vid p groups k g : NoDup groups.*1 → (k, g) ∈ pushGroup vid p groups ↔
  (k ≠ vid ∧ (k, g) ∈ groups) ∨
  (k = vid ∧ ((∃ l, (vid, l) ∈ groups ∧ g = l ++ [p]) ∨ (vid ∉ groups.*1 ∧ g = [p]))).
Proof.
  induction groups as [|[k' l'] groups IH]; intros Hnd.
  - cbn. rewrite list_elem_of_singleton. split; [intros [= -> ->]; right; split; [done|right; set_solver]|].
    intros [[_ Hin]|[-> [(l & Hin & _)|[_ ->]]]]; [by apply elem_of_nil in Hin|by apply elem_of_nil in Hin|done].
  - apply NoDup_cons in Hnd as [Hk' Hnd]. specialize (IH Hnd). cbn [pushGroup]. cbn in Hk'.
    assert (HK : ∀ k l, (k, l) ∈ groups → k ∈ groups.*1).
    { intros k0 l0 H0. apply list_elem_of_fmap. by exists (k0, l0). }
    destruct (String.eqb_spec k' vid) as [->|Hne]; cbn; setoid_rewrite elem_of_cons.
    + split.
      * intros [[= -> ->]|Hin]; [right; split; [done|]; left; exists l'; by split; [left|]|].
        left. split; [|by right]. intros ->. by apply HK in Hin.
      * intros [[Hk [Heq|Hin]]|[-> [(l & [Heq|Hin] & ->)|[Hno _]]]]; simplify_eq.
        all: try naive_solver.
    + rewrite IH. split.
      * intros [[= -> ->]|[[Hk Hin]|[-> [(l & Hin & ->)|[Hno ->]]]]].
        -- left. split; [done|by left].
        -- left. split; [done|by right].
        -- right. split; [done|]. left. exists l. split; [by right|done].
        -- right. split; [done|]. right. split; [cbn; set_solver|done].
      * intros [[Hk [Heq|Hin]]|[-> [(l & [Heq|Hin] & ->)|[Hno ->]]]]; simplify_eq.
        -- by left.
        -- right. by left.
        -- right. right. split; [done|]. left. by exists l.
        -- right. right. split; [done|]. right. cbn in Hno. split; [set_solver|done].
Qed.

Lemma groupByVehicle_snoc l p : groupByVehicle (l ++ [p]) = pushGroup (p_vehicleId p) p (groupByVehicle l).
Proof. unfold groupByVehicle. by rewrite foldl_app. Qed.

Lemma groupByVehicle_spec l :
  NoDup (groupByVehicle l).*1 ∧ (∀ k g, (k, g) ∈ groupByVehicle l ↔ g = ofVehicle k l ∧ g ≠ []).
Proof.
  induction l as [|p l [Hnd IH]] using rev_ind.
  { split; [constructor|]. intros k g. cbn. split; [by intros ?%elem_of_nil|]. by intros [-> ?]. }
  rewrite groupByVehicle_snoc. split.
  - rewrite pushGroup_keys. case_decide; [by rewrite app_nil_r|]. apply NoDup_app.
    split_and!; [done| |apply NoDup_singleton]. intros x Hx ->%list_elem_of_singleton. done.
  - intros k g. rewrite pushGroup_elem by done. unfold ofVehicle in *. rewrite filter_app, filter_cons, filter_nil.
    assert (Hno : p_vehicleId p ∉ (groupByVehicle l).*1 ↔ filter (λ q, p_vehicleId q = p_vehicleId p) l = []).
    { split.
      - intros Hn. destruct (filter _ l) as [|q r] eqn:E; [done|]. destruct Hn. apply list_elem_of_fmap.
        exists (p_vehicleId p, q :: r). split; [done|]. apply IH. by rewrite E.
      - intros E [[k0 g0] [Hk0 Hin]]%list_elem_of_fmap. apply IH in Hin as [-> Hne]. destruct Hne. cbn in Hk0. by rewrite <- Hk0. }
    destruct (decide (p_vehicleId p = k)) as [<-|Hk].
    + split; [|intros [-> _]].
      * intros [[? _]|[_ [(g0 & Hin & ->)|[Hn ->]]]]; [done| |].
        -- apply IH in Hin as [-> _]. split; [done|]. by destruct (filter _ l).
        -- apply Hno in Hn. by rewrite Hn.
      * right. split; [done|]. destruct (filter _ l) as [|q r] eqn:E; [right; split; [by apply Hno|done]|].
        left. exists (q :: r). split; [|done]. apply IH. by rewrite E.
    + rewrite app_nil_r, IH. split; [|intros [? ?]; left; by split]. intros [[_ ?]|[-> _]]; done.
Qed.

(** ** What a run may write *)

(** The tables the reports are made of. *)
Definition sameTables (s s' : ReportStore) : Prop :=
  companies s' = companies s ∧ reportDrivers s' = reportDrivers s ∧ reportVehicles s' = reportVehicles s ∧
  trace s' = trace s ∧ priceStore s' = priceStore s ∧ speedAlertThreshold s' = speedAlertThreshold s.

#[export] Instance sameTables_equiv : Equivalence sameTables.
Proof.
  split; [by intros s; split_and!|by intros a b (?&?&?&?&?&?); split_and!|].
  intros a b c (?&?&?&?&?&?) (?&?&?&?&?&?). split_and!; congruence.
Qed.

(** Everything but the two columns an update leaves alone. *)
Definition sameFigures (r r' : DailyFuelReport) : Prop :=
  rp_vehiclePlate r = rp_vehiclePlate r' ∧ rp_fuelType r = rp_fuelType r' ∧ rp_distanceKm r = rp_distanceKm r' ∧
  rp_gpsDataQuality r = rp_gpsDataQuality r' ∧ rp_consumptionLPer100Km r = rp_consumptionLPer100Km r' ∧
  rp_estimatedCost r = rp_estimatedCost r' ∧ rp_pricePerLiterUsed r = rp_pricePerLiterUsed r'.

Lemma foldl_same {X V} (f : ReportStore → X → ReportStore) (obs : ReportStore → V) xs s :
  (∀ s x, sameTables s (f s x)) → (∀ s x, x ∈ xs → obs (f s x) = obs s) →
  sameTables s (foldl f s xs) ∧ obs (foldl f s xs) = obs s.
Proof.
  intros Hf. revert s. induction xs as [|x xs IH]; intros s Ho; [done|]. cbn.
  destruct (IH (f s x)) as [HT HO]; [intros; apply Ho; by right|].
  split; [by etrans; [apply Hf|]|]. rewrite HO. apply Ho. by left.
Qed.

(** In a loop whose turns have names of their own, one turn decides what is observed of its name. *)
Lemma foldl_once {X V K} (f : ReportStore → X → ReportStore) (nm : X → K) (obs : ReportStore → V) xs x s :
  NoDup (map nm xs) → x ∈ xs → (∀ s y, sameTables s (f s y)) → (∀ s y, nm y ≠ nm x → obs (f s y) = obs s) →
  ∃ s1, sameTables s s1 ∧ obs s1 = obs s ∧ obs (foldl f s xs) = obs (f s1 x).
Proof.
  intros Hnd (l1 & l2 & ->)%list_elem_of_split Hf Ho. rewrite map_app in Hnd. cbn in Hnd.
  apply NoDup_app in Hnd as (_ & H1 & H2). apply NoDup_cons in H2 as [H2 _].
  destruct (foldl_same f obs l1 s Hf) as [HT1 HO1].
  { intros t y Hy. apply Ho. intros E. destruct (H1 (nm y)); [by apply list_elem_of_fmap_2|]. rewrite E. by left. }
  destruct (foldl_same f obs l2 (f (foldl f s l1) x) Hf) as [HT2 HO2].
  { intros t y Hy. apply Ho. intros E. apply H2. rewrite <- E. by apply list_elem_of_fmap_2. }
  exists (foldl f s l1). split_and!; [done|done|]. by rewrite foldl_app.
Qed.

Section Runs.
Context (jm : JsMath) (routeMatching : bool)
  (matchRouteDistance : list (num * num) → list num → option (num * num)).

Notation report := (reportOf jm routeMatching matchRouteDistance).
Notation upsert := (upsertDailyReportForVehicleGroup jm routeMatching matchRouteDistance).
Notation forDriver := (generateDailyReportForDriver jm routeMatching matchRouteDistance).
Notation forVehicle := (generateDailyReportForVehicle jm routeMatching matchRouteDistance).
Notation forCompany := (generateDailyReportForCompany jm routeMatching matchRouteDistance).

(** The report under [key] has the figures of the positions [l] of the vehicle [v]. *)
Definition reportShows (s : ReportStore) (key : ReportKey) (cid : string) (targetDate : Z) (v : ReportVehicle)
    (l : list GpsPosition) : Prop :=
  ∃ r, reports s !! key = Some r ∧ sameFigures r (report cid "" targetDate (priceStore s) v (map fixOf l)).

Lemma report_name cid n n' T P v l : sameFigures (report cid n T P v l) (report cid n' T P v l).
Proof. unfold reportOf. destruct (groupDistance _ _ _ l). by split_and!. Qed.

Lemma upsert_tables did n cid T vid l s : sameTables s (upsert did n cid T vid l s).
Proof. unfold upsertDailyReportForVehicleGroup. by case_match; split_and!. Qed.

Lemma upsert_other_report did n cid T vid l s key : key ≠ (did, vid, utcDay T) →
  reports (upsert did n cid T vid l s) !! key = reports s !! key.
Proof.
  intros Hk. unfold upsertDailyReportForVehicleGroup. destruct (reportVehicles s !! vid); [|done].
  cbn -[reportOf utcDay]. by apply lookup_insert_ne.
Qed.

Lemma upsert_own did n cid T vid l s v : reportVehicles s !! vid = Some v →
  reportShows (upsert did n cid T vid (map fixOf l) s) (did, vid, utcDay T) cid T v l.
Proof.
  intros Hv. unfold reportShows, upsertDailyReportForVehicleGroup. rewrite Hv. cbn -[reportOf utcDay].
  rewrite lookup_insert_eq. eexists. split; [done|].
  pose proof (report_name cid n "" T (priceStore s) v (map fixOf l)) as (?&?&?&?&?&?&?).
  by destruct (reports s !! _); split_and!.
Qed.

Lemma dayPositions_same P cid T s s' : sameTables s s' → dayPositions P cid T s' = dayPositions P cid T s.
Proof. intros (?&?&?&E&?). unfold dayPositions. by rewrite E. Qed.

Lemma shows_same s s' key cid T v l : reports s' !! key = reports s !! key → sameTables s s' →
  reportShows s key cid T v l → reportShows s' key cid T v l.
Proof. intros Hr (?&?&?&?&HP&?) (r & Hrow & Hfig). exists r. by rewrite Hr, HP. Qed.

(** ** The pass over the drivers *)

Definition drivenBy (did : string) (p : GpsPosition) : bool := bool_decide (p_driverId p = Some did).

Lemma forDriver_tables did d cid T s : sameTables s (forDriver did d cid T s).
Proof.
  unfold generateDailyReportForDriver. apply (foldl_same _ (λ _, tt)); [|done]. intros. apply upsert_tables.
Qed.

Lemma forDriver_other did d cid T s key : key.1.1 ≠ did →
  reports (forDriver did d cid T s) !! key = reports s !! key.
Proof.
  intros Hk. unfold generateDailyReportForDriver. apply (foldl_same _ (λ s, reports s !! key)).
  - intros. apply upsert_tables.
  - intros. apply upsert_other_report. by intros ->.
Qed.

Lemma forDriver_own did d cid T s vid v : reportVehicles s !! vid = Some v →
  let l := ofVehicle vid (dayPositions (drivenBy did) cid T s) in
  let s' := forDriver did d cid T s in
  (l = [] → reports s' !! (did, vid, utcDay T) = reports s !! (did, vid, utcDay T)) ∧
  (l ≠ [] → reportShows s' (did, vid, utcDay T) cid T v l).
Proof.
  intros Hv l s'. destruct (groupByVehicle_spec (dayPositions (drivenBy did) cid T s)) as [Hnd HG].
  split; intros Hl; unfold s', generateDailyReportForDriver.
  - apply (foldl_same _ (λ s, reports s !! (did, vid, utcDay T))); [intros; apply upsert_tables|].
    intros t [k g] Hin. apply upsert_other_report. apply HG in Hin as [-> Hne]. intros [= <-]. by apply Hne.
  - destruct (foldl_once (λ s g, upsert did (fullName d) cid T g.1 (map fixOf g.2) s) fst
      (λ t, reports t !! (did, vid, utcDay T)) (groupByVehicle (dayPositions (drivenBy did) cid T s)) (vid, l) s)
      as (s1 & HT & _ & HO).
    + exact Hnd.
    + by apply HG.
    + intros. apply upsert_tables.
    + intros t [k g] Hk. apply upsert_other_report. cbn in *. congruence.
    + assert (Hv1 : reportVehicles s1 !! vid = Some v) by (destruct HT as (_&_&E&_); by rewrite E).
      pose proof (upsert_own did (fullName d) cid T vid l s1 v Hv1) as (r & H1 & H2).
      exists r. unfold drivenBy in HO. rewrite <- H1. split; [exact HO|].
      destruct (forDriver_tables did d cid T s) as (_&_&_&_&HP&_).
      destruct (upsert_tables did (fullName d) cid T vid (map fixOf l) s1) as (_&_&_&_&HP1&_).
      destruct HT as (_&_&_&_&HP2&_). rewrite HP1, HP2 in H2. unfold generateDailyReportForDriver in HP. by rewrite HP.
Qed.

(** ** The passes over the vehicles *)

Definition onVehicle (vid : string) (p : GpsPosition) : bool := bool_decide (p_vehicleId p = vid).

Lemma forVehicle_tables active vid cid T cur s : sameTables s (forVehicle active vid cid T cur s).
Proof. unfold generateDailyReportForVehicle. repeat case_match; first [done|apply upsert_tables]. Qed.

Lemma forVehicle_other active vid cid T cur s key :
  key.1.2 ≠ vid ∨ reportDriverId (dayPositions (onVehicle vid) cid T s) cur ≠ Some key.1.1 →
  reports (forVehicle active vid cid T cur s) !! key = reports s !! key.
Proof.
  intros Hk. unfold generateDailyReportForVehicle. fold (onVehicle vid).
  destruct (dayPositions (onVehicle vid) cid T s) as [|p l] eqn:E; [done|]. rewrite <- E.
  destruct (truthy (reportDriverId _ cur)) eqn:Et; [|done]. apply upsert_other_report. intros ->. cbn in Hk. rewrite <- E in Hk.
  destruct (reportDriverId _ cur); [by destruct Hk|done].
Qed.

Lemma forVehicle_own active vid cid T cur s v rid : reportVehicles s !! vid = Some v →
  let l := dayPositions (onVehicle vid) cid T s in
  l ≠ [] → reportDriverId l cur = Some rid → rid ≠ "" →
  reportShows (forVehicle active vid cid T cur s) (rid, vid, utcDay T) cid T v
    (filter (λ p, inScope active rid p = true) l).
Proof.
  intros Hv l Hl Hr Hne. unfold generateDailyReportForVehicle. fold (onVehicle vid). fold l.
  destruct l as [|p l'] eqn:E; [done|]. rewrite Hr.
  assert (Ht : truthy (Some rid) = true) by (unfold truthy; by rewrite bool_decide_eq_false_2).
  rewrite Ht. by apply upsert_own.
Qed.

(** ** The passes of a company *)

Definition activeDrivers (cid : string) (s : ReportStore) : list string :=
  (find_many (λ _ d, activeDriver cid d) (reportDrivers s)).*1.

(** The driver in whose report a position counts: its own where active, else the vehicle's. *)
Definition ownerOf (active : list string) (rid : string) (p : GpsPosition) : string :=
  match p_driverId p with
  | Some x => if bool_decide (x ∈ active) then x else rid
  | None => rid
  end.

Lemma inScope_owner active rid (l : list GpsPosition) :
  filter (λ p, inScope active rid p = true) l = filter (λ p, ownerOf active rid p = rid) l.
Proof.
  apply list_filter_iff. intros p. unfold inScope, ownerOf. destruct (p_driverId p) as [x|]; [|done].
  destruct (decide (x ∈ active)) as [Hx|Hx].
  - rewrite !(bool_decide_eq_true_2 (x ∈ active)) by done. cbn. rewrite orb_false_r. apply bool_decide_eq_true.
  - rewrite !(bool_decide_eq_false_2 (x ∈ active)) by done. cbn. by rewrite orb_true_r.
Qed.

Lemma other_owner active rid did (l : list GpsPosition) : did ≠ rid →
  filter (λ p, ownerOf active rid p = did) l = if decide (did ∈ active) then filter (λ p, p_driverId p = Some did) l else [].
Proof.
  intros Hd. case_decide as Ha.
  - apply list_filter_iff. intros p. unfold ownerOf. destruct (p_driverId p) as [x|]; [|split; [by intros <-|done]].
    case_bool_decide as Hx; [split; [by intros ->|by intros [= ->]]|]. split; [by intros <-|]. intros [= ->]. done.
  - apply filter_none, Forall_forall. intros p _. unfold ownerOf. repeat case_match; try (intros <-; done).
    case_bool_decide; intros <-; done.
Qed.

(** The rows the query of a day finds, when there are no more than it takes. *)
Definition dayRows (P : GpsPosition → bool) (cid : string) (T : Z) (s : ReportStore) : list GpsPosition :=
  filter (λ p, P p = true ∧ p_companyId p = cid ∧ p_suspect p = false ∧ inDay T p = true) (trace s).

Lemma dayPositions_all P cid T s : (length (dayRows P cid T s) ≤ MAX_POSITIONS_PER_DAILY_REPORT)%nat →
  dayPositions P cid T s = sort_by p_timestamp (dayRows P cid T s).
Proof. intros Hl. unfold dayPositions. fold (dayRows P cid T s). apply take_ge. by rewrite sort_by_perm. Qed.

Lemma own_rows did vid cid T s :
  (length (dayRows (drivenBy did) cid T s) ≤ MAX_POSITIONS_PER_DAILY_REPORT)%nat →
  (length (dayRows (onVehicle vid) cid T s) ≤ MAX_POSITIONS_PER_DAILY_REPORT)%nat →
  ofVehicle vid (dayPositions (drivenBy did) cid T s) =
  filter (λ p, p_driverId p = Some did) (dayPositions (onVehicle vid) cid T s).
Proof.
  intros H1 H2. rewrite !dayPositions_all by done. unfold ofVehicle. rewrite !filter_sort_by. f_equal.
  unfold dayRows. rewrite !list_filter_filter. apply list_filter_iff. intros p. unfold drivenBy, onVehicle.
  rewrite !bool_decide_eq_true. tauto.
Qed.

Lemma driver_pass cid T s vid v did : reportVehicles s !! vid = Some v →
  let drivers := find_many (λ _ d, activeDriver cid d) (reportDrivers s) in
  let l := ofVehicle vid (dayPositions (drivenBy did) cid T s) in
  let s' := foldl (λ s kd, forDriver kd.1 kd.2 cid T s) s drivers in
  sameTables s s' ∧
  (did ∉ activeDrivers cid s ∨ l = [] → reports s' !! (did, vid, utcDay T) = reports s !! (did, vid, utcDay T)) ∧
  (did ∈ activeDrivers cid s → l ≠ [] → reportShows s' (did, vid, utcDay T) cid T v l).
Proof.
  intros Hv drivers l s'. set (key := (did, vid, utcDay T)).
  set (F := λ s (kd : string * ReportDriver), forDriver kd.1 kd.2 cid T s) in *.
  assert (HF : ∀ s kd, sameTables s (F s kd)) by (intros t kd; exact (forDriver_tables kd.1 kd.2 cid T t)).
  assert (HT : sameTables s s') by exact (proj1 (foldl_same F (λ _, tt) _ s HF (λ _ _ _, eq_refl))).
  split; [done|]. destruct (decide (did ∈ activeDrivers cid s)) as [Ha|Ha].
  - assert (Hd := Ha). apply list_elem_of_fmap in Hd as ([k d] & -> & Hin).
    destruct (foldl_once F fst (λ s, reports s !! key) drivers (k, d) s) as (s1 & HT1 & HO1 & HO); [|done|done| |].
    { apply find_many_NoDup. }
    { intros t [k' d'] Hk. apply (forDriver_other k' d' cid T t key). cbn in *. congruence. }
    assert (Hv1 : reportVehicles s1 !! vid = Some v) by (destruct HT1 as (_&_&E&_); by rewrite E).
    destruct (forDriver_own k d cid T s1 vid v Hv1) as [He Hn]. rewrite (dayPositions_same _ _ _ _ _ HT1) in He, Hn.
    fold s' in HO. split.
    + intros [|Hl]; [done|]. rewrite HO, <- HO1. by apply He.
    + intros _ Hl. specialize (Hn Hl). eapply (shows_same (F s1 (k, d))); [exact HO| |exact Hn].
      etrans; [symmetry; apply HF|]. etrans; [symmetry; exact HT1|exact HT].
  - destruct (foldl_same F (λ s, reports s !! key) drivers s HF) as [_ HO].
    { intros t [k d] Hin. apply (forDriver_other k d cid T t key). cbn. intros <-. apply Ha, list_elem_of_fmap. by exists (did, d). }
    split; [by intros _|done].
Qed.

Lemma no_positions vid cid T s : hasPositions vid cid T s = false → dayPositions (onVehicle vid) cid T s = [].
Proof.
  intros E. assert (Hr : dayRows (onVehicle vid) cid T s = []).
  { apply filter_none, Forall_forall. intros p Hp (HP & Hc & Hs & Hd).
    assert (Hex : hasPositions vid cid T s = true); [|congruence].
    apply existsb_exists. exists p. split; [by apply list_elem_of_In|].
    unfold onVehicle in HP. rewrite HP, Hs, Hd. by rewrite bool_decide_eq_true_2. }
  unfold dayPositions. fold (dayRows (onVehicle vid) cid T s). rewrite Hr. apply firstn_nil.
Qed.

(** One of the two passes over the vehicles treats each active vehicle, and it does so once. *)
Lemma vehicle_passes cid T active s vid v did : reportVehicles s !! vid = Some v → activeVehicle cid v = true →
  let s2 := foldl (λ s kv, forVehicle active kv.1 cid T None s) s
              (find_many (λ vid v, activeVehicle cid v && bool_decide (driverOfVehicle vid s = None)) (reportVehicles s)) in
  let s3 := foldl (λ s kv,
      if hasPositions kv.1 cid T s then forVehicle active kv.1 cid T (driverOfVehicle kv.1 s) s else s) s2
      (find_many (λ vid v, activeVehicle cid v && bool_decide (driverOfVehicle vid s2 ≠ None)) (reportVehicles s2)) in
  let key := (did, vid, utcDay T) in
  sameTables s s3 ∧
  ∃ t, sameTables s t ∧ reports t !! key = reports s !! key ∧
       reports s3 !! key = reports (forVehicle active vid cid T (driverOfVehicle vid s) t) !! key.
Proof.
  intros Hv Hav s2 s3 key.
  set (F2 := λ s (kv : string * ReportVehicle), forVehicle active kv.1 cid T None s) in *.
  assert (HF2 : ∀ s kv, sameTables s (F2 s kv)) by (intros t kv; exact (forVehicle_tables active kv.1 cid T None t)).
  assert (HT2 : sameTables s s2) by exact (proj1 (foldl_same F2 (λ _, tt) _ s HF2 (λ _ _ _, eq_refl))).
  set (F3 := λ (s : ReportStore) (kv : string * ReportVehicle), if hasPositions kv.1 cid T s then forVehicle active kv.1 cid T (driverOfVehicle kv.1 s) s else s) in *.
  assert (HF3 : ∀ s kv, sameTables s (F3 s kv)) by (intros t kv; unfold F3; case_match; [apply forVehicle_tables|done]).
  assert (HT3 : sameTables s2 s3) by exact (proj1 (foldl_same F3 (λ _, tt) _ s2 HF3 (λ _ _ _, eq_refl))).
  assert (HD : ∀ t k, sameTables s t → driverOfVehicle k t = driverOfVehicle k s).
  { intros t k (_&E&_). unfold driverOfVehicle. by rewrite E. }
  assert (HE : ∀ t k, sameTables s t →
    F3 t k = forVehicle active k.1 cid T (driverOfVehicle k.1 s) t).
  { intros t k Ht. unfold F3. rewrite (HD t _ Ht). destruct (hasPositions k.1 cid T t) eqn:E; [done|].
    unfold generateDailyReportForVehicle. fold (onVehicle k.1). by rewrite no_positions. }
  assert (HT : sameTables s s3) by exact (transitivity HT2 HT3). split; [done|].
  destruct (driverOfVehicle vid s) as [cur|] eqn:Ed.
  - destruct (foldl_once F3 fst (λ s, reports s !! key)
      (find_many (λ vid v, activeVehicle cid v && bool_decide (driverOfVehicle vid s2 ≠ None)) (reportVehicles s2))
      (vid, v) s2) as (t & Ht & HO1 & HO); [apply find_many_NoDup| |exact HF3| |].
    { apply elem_of_find_many. rewrite (proj1 (proj2 (proj2 HT2))). split; [done|].
      rewrite Hav, (HD s2 _ HT2), Ed. cbn [andb]. by apply bool_decide_eq_true_2. }
    { intros t [k w] Hk. unfold F3. case_match; [|done]. apply (forVehicle_other active k cid T _ t key).
      left. cbn in *. congruence. }
    assert (Hst : sameTables s t) by exact (transitivity HT2 Ht).
    exists t. split_and!; [done| |].
    + rewrite HO1. apply (foldl_same F2 (λ s, reports s !! key) _ s HF2).
      intros u [k w] Hin. apply (forVehicle_other active k cid T None u key). left. cbn. intros <-.
      apply elem_of_find_many in Hin as [_ Hin]. rewrite Ed in Hin. apply andb_prop in Hin as [_ Hin].
      by apply bool_decide_eq_true in Hin.
    + rewrite (HE t (vid, v) Hst) in HO. cbn [fst] in HO. rewrite Ed in HO. exact HO.
  - destruct (foldl_once F2 fst (λ s, reports s !! key)
      (find_many (λ vid v, activeVehicle cid v && bool_decide (driverOfVehicle vid s = None)) (reportVehicles s))
      (vid, v) s) as (t & Ht & HO1 & HO); [apply find_many_NoDup| |exact HF2| |].
    { apply elem_of_find_many. split; [done|]. rewrite Hav, Ed. cbn [andb]. by apply bool_decide_eq_true_2. }
    { intros t [k w] Hk. apply (forVehicle_other active k cid T None t key). left. cbn in *. congruence. }
    exists t. split_and!; [done|done|]. etrans; [|exact HO].
    apply (foldl_same F3 (λ s, reports s !! key) _ s2 HF3). intros u [k w] Hin. unfold F3. case_match; [|done].
    apply (forVehicle_other active k cid T _ u key). left. cbn. intros <-.
    apply elem_of_find_many in Hin as [_ Hin]. rewrite (HD s2), Ed in Hin by done. apply andb_prop in Hin as [_ Hin].
    by apply bool_decide_eq_true in Hin.
Qed.

Lemma utcDay_utcDay date : utcDay (utcDay date) = utcDay date.
Proof.
  unfold utcDay, MakeDate, Day, msPerDay. rewrite Z.add_0_r, Z.add_0_r, Z.div_mul by done. done.
Qed.

(** The driver of a report has a position of the vehicle in it, unless there is none at all. *)
Lemma reportDriver_owns active l cur rid : "" ∉ active → l ≠ [] → reportDriverId l cur = Some rid →
  filter (λ p, ownerOf active rid p = rid) l ≠ [].
Proof.
  intros Ha Hl Hr E. assert (HN : ∀ p, p ∈ l → ownerOf active rid p ≠ rid).
  { intros p Hp Ho. assert (Hin : p ∈ filter (λ p, ownerOf active rid p = rid) l) by by apply list_elem_of_filter.
    rewrite E in Hin. by apply elem_of_nil in Hin. }
  unfold reportDriverId in Hr. destruct (filter _ (rev l)) as [|p r] eqn:Ef.
  - destruct l as [|p l]; [done|]. apply (HN p); [by left|]. unfold ownerOf.
    destruct (p_driverId p) as [x|] eqn:Ex; [|done]. rewrite bool_decide_eq_false_2; [done|]. intros Hx.
    assert (Hin : p ∈ filter (λ p, truthy (p_driverId p) = true) (rev (p :: l))).
    { apply list_elem_of_filter. rewrite Ex. split; [cbn; rewrite bool_decide_eq_false_2; [done|]; by intros ->|].
      apply list_elem_of_In, in_rev. rewrite rev_involutive. by left. }
    rewrite Ef in Hin. by apply elem_of_nil in Hin.
  - assert (Hp : p ∈ rev l).
    { assert (Hin : p ∈ p :: r) by left. rewrite <- Ef in Hin. by apply list_elem_of_filter in Hin as [_ ?]. }
    apply (HN p); [by apply list_elem_of_In, in_rev, list_elem_of_In|]. cbn in Hr. unfold ownerOf. rewrite Hr.
    by case_bool_decide.
Qed.

End Runs.

(** ** The day of an instant *)

(** The day of an instant holds it unless it falls between 21:00 and midnight UTC. *)
Lemma day_holds_instant date :
  (getMadagascarDayBounds date).1 ≤ date ≤ (getMadagascarDayBounds date).2 ↔ TimeWithinDay date < 21 * 3600000.
Proof.
  unfold getMadagascarDayBounds, MakeDate, Day, TimeWithinDay, msPerDay. cbn [fst snd].
  pose proof (Z.div_mod date 86400000). pose proof (Z.mod_pos_bound date 86400000). lia.
Qed.

(** ** Driving scores *)

Definition scoredPositions (vid cid : string) (now : Z) (s : ReportStore) : list GpsPosition :=
  take MAX_POSITIONS_PER_SCORE
    (sort_by p_timestamp
       (filter (λ p, p_vehicleId p = vid ∧ p_companyId p = cid ∧ p_suspect p = false ∧ inDay now p = true) (trace s))).

(** The scores of a company's day: a row for each report with a distance, whose
    events are all those of the vehicle's day. *)
Lemma scoreReport_tables cid T now s kr : sameTables s (scoreReport cid T now s kr).
Proof.
  destruct kr as [[[did vid] D] r]. unfold scoreReport. case_match; [done|].
  destruct (computeEvents _ _). by split_and!.
Qed.

Lemma scoreReport_other cid T now s kr key : (kr.1.1, T) ≠ key → scores (scoreReport cid T now s kr) !! key = scores s !! key.
Proof.
  destruct kr as [[[did vid] D] r]. unfold scoreReport. intros Hk. case_match; [done|].
  destruct (computeEvents _ _). by apply lookup_insert_ne.
Qed.

Theorem scores_exact now s cid did vid r :
  let T := utcDay now in
  reports s !! (did, vid, T) = Some r → rp_companyId r = cid → num_leb (rp_distanceKm r) (num_of_Z 0) = false →
  ∃ sc, scores (scoreCompany now s cid) !! (did, vid, T) = Some sc ∧
    (sc_speedingEvents sc, sc_harshEvents sc) =
      computeEvents (scoredPositions vid cid now s) (speedAlertThreshold s !! cid) ∧
    sc_score sc = computeScore (sc_speedingEvents sc) (sc_harshEvents sc) (rp_distanceKm r) ∧
    sc_distanceKm sc = rp_distanceKm r.
Proof.
  intros T Hr Hc Hd. unfold scoreCompany.
  destruct (foldl_once (scoreReport cid T now) (λ kr, kr.1.1) (λ s, scores s !! (did, vid, T))
    (filter (λ kr, rp_companyId kr.2 = cid ∧ kr.1.2 = T) (map_to_list (reports s))) ((did, vid, T), r) s)
    as (s1 & HT & _ & HO).
  - apply NoDup_fmap_2_strong; [|apply NoDup_filter, NoDup_map_to_list].
    intros [[k1 D1] r1] [[k2 D2] r2] [[_ H1] Hin1]%list_elem_of_filter [[_ H2] Hin2]%list_elem_of_filter Hk.
    cbn in H1, H2, Hk. apply elem_of_map_to_list in Hin1, Hin2. rewrite Hk, H1 in Hin1. rewrite H2 in Hin2.
    rewrite Hin1 in Hin2. injection Hin2 as ->. by rewrite Hk, H1, H2.
  - apply list_elem_of_filter. split; [done|]. by apply elem_of_map_to_list.
  - apply scoreReport_tables.
  - intros t kr Hk. apply scoreReport_other. cbn in Hk. by intros [= E].
  - destruct HT as (_&_&_&HTr&_&HTs). revert HO. unfold scoreReport at 2. rewrite Hd, HTr, HTs.
    fold (scoredPositions vid cid now s). destruct (computeEvents _ _) as [sp ha] eqn:Ee. intros HO.
    eexists. split; [etrans; [exact HO|]; apply lookup_insert_eq|]. done.
Qed.

(** ** Examples: a van that drives 300 m every ten seconds *)

Definition exDay : Z := 86400000 * 20000.
Definition exPosition (did : option string) (i : Z) : GpsPosition :=
  mkPosition (num_lit (-189000 + 27 * i) 10000) (num_lit 475 10) (Some (num_of_Z 30)) None None (Some (num_of_Z 5)) false
    (exDay + i * 10000) "co" None "van" did physical_tracker [].

Definition exVan : ReportVehicle := mkReportVehicle "co" "1234 TBA" "Gasoil" (Some (num_of_Z 10)) true None.
Definition exDriver (name : string) (vid : option string) : ReportDriver := mkReportDriver "co" name "R." true None vid.

(** Two drivers, the first one assigned to the van, and a price that changes at noon. *)
Definition exReports (l : list GpsPosition) : ReportStore :=
  mkReportStore ["co"] {["rado" := exDriver "Rado" (Some "van"); "soa" := exDriver "Soa" None]} {["van" := exVan]} l
    (mkPrices {["p1" := mkPrice "co" "gasoil" (num_of_Z 4000) 0 (Some (exDay + 12 * 3600000 - 1));
                "p2" := mkPrice "co" "gasoil" (num_of_Z 5000) (exDay + 12 * 3600000) None]} ∅)
    {["co" := num_of_Z 80]} ∅ ∅ [] ∅.

Notation exCompany := (generateDailyReportForCompany coarseMath false (λ _ _, None) "co").
Notation exRecompute := (processDriverReport coarseMath false (λ _ _, None) "co" "rado").

(** Kilometres and cost of the day's report of a driver. *)
Definition exReport (did : string) (s : ReportStore) : option (num * num) :=
  (λ r, (rp_distanceKm r, rp_estimatedCost r)) <$> reports s !! (did, "van", exDay).

(** Four fixes without driver, then three of the van's driver. *)
Definition exOrphans : list GpsPosition := map (exPosition None) [0; 1; 2; 3].
Definition exMorning : ReportStore := exReports (exOrphans ++ map (exPosition (Some "rado")) [4; 5; 6]).


(** A delivery that ends after the nightly run takes the kilometres without driver out of the report. *)
Lemma recompute_drops_orphans :
  let night := exCompany (exDay + 22 * 3600000) exMorning in
  let after := exRecompute (Some (exDay + 23 * 3600000)) (exDay + 23 * 3600000) night in
  (fst <$> exReport "rado" night) = Some (num_lit 18 10) ∧ (fst <$> exReport "rado" after) = Some (num_lit 6 10).
Proof. split; vm_compute; reflexivity. Qed.

(** A run at noon gives the fixes without driver to the van's driver; another
    driver then takes the van, and the nightly run counts them in both reports. *)
Lemma earlier_run_counts_twice :
  let noon := exCompany (exDay + 9 * 3600000) (exReports exOrphans) in
  let evening := noon <| trace := exOrphans ++ map (exPosition (Some "soa")) [4; 5; 6] |> in
  let night := exCompany (exDay + 22 * 3600000) evening in
  (fst <$> exReport "rado" night) = Some (num_lit 9 10) ∧ (fst <$> exReport "soa" night) = Some (num_lit 18 10).
Proof. split; vm_compute; reflexivity. Qed.

(** The nightly run prices the day as of midnight, the recomputation as of the delivery. *)
Lemma recompute_prices_the_hour :
  let s := exReports (map (exPosition (Some "rado")) [0; 1; 2; 3]) in
  let night := exCompany (exDay + 22 * 3600000) s in
  let after := exRecompute (Some (exDay + 15 * 3600000)) (exDay + 15 * 3600000) s in
  exReport "rado" night = Some (num_lit 9 10, num_of_Z 360) ∧ exReport "rado" after = Some (num_lit 9 10, num_of_Z 450).
Proof. split; vm_compute; reflexivity. Qed.

(** Two drivers share the van; the fast fixes of one are events of both. *)
Lemma score_blames_both :
  let s := exReports (map (exPosition (Some "rado")) [0; 1; 2; 3]
                      ++ map (λ p, p <| p_speed := Some (num_of_Z 5) |>) (map (exPosition (Some "soa")) [4; 5; 6])) in
  let night := scoreCompany (exDay + 23 * 3600000) (exCompany (exDay + 22 * 3600000) s) "co" in
  (sc_speedingEvents <$> scores night !! ("rado", "van", exDay)) = Some 4 ∧
  (sc_speedingEvents <$> scores night !! ("soa", "van", exDay)) = Some 4.
Proof. split; vm_compute; reflexivity. Qed.
