(* ===== verification/Trips.v ===== *)
(** * Tracking: trips, signal gaps and coverage

    The reports of TrackingService (modules/tracking/tracking.service.ts) on the
    positions of a delivery and of a vehicle's day: computeCoverage,
    getTripReport, getVehicleTrip, getTrackingReliability.  The gaps a report lists are
    the pairs of consecutive fixes further apart than the threshold of the source, and
    the coverage counts the same gaps; a vehicle that sent nothing is called
    excellent. *)

From Stdlib Require Import SpecFloat.
From S2P Require Import Prelude JsString JsNum JsDate Geo Gps TrackingModel.

#[local] Open Scope string_scope.
#[local] Open Scope list_scope.
#[local] Open Scope Z_scope.

(** [Number] of the environment's values; NaN where the text is no number. *)
Record TripConfig := mkTripConfig { gapPhoneMin : num; gapTrackerMin : num }.

Definition positive (x : num) : bool := isFinite x && num_ltb zero x.

Definition getGapThresholdSec (c : TripConfig) (source : PositionSource) : num :=
  let (raw, fallback) :=
    match source with
    | physical_tracker => (gapTrackerMin c, num_of_Z 5)
    | phone => (gapPhoneMin c, num_of_Z 3)
    end in
  num_mul (if positive raw then raw else fallback) (num_of_Z 60).

(** ** Coverage *)

Record Coverage := mkCoverage { coveragePct : num; totalSec : num; coveredSec : num; gapCount : Z }.

(** [Math.round(x * 10) / 10] of a percentage computed per thousand. *)
Definition pctOf (covered total : num) : num :=
  num_div (Math_round (num_mul (num_div covered total) (num_of_Z 1000))) (num_of_Z 10).

(** The consecutive fixes further apart than the threshold. *)
Definition isGap (gapThresholdSec : num) (a b : Z) : bool := num_ltb gapThresholdSec (secs (b - a)).

Fixpoint uncovered (gapThresholdSec : num) (acc : num * Z) (ts : list Z) : num * Z :=
  match ts with
  | a :: (b :: _) as rest =>
      uncovered gapThresholdSec
        (if isGap gapThresholdSec a b then (num_add acc.1 (secs (b - a)), acc.2 + 1) else acc) rest
  | _ => acc
  end.

Definition fullCoverage : Coverage := mkCoverage (num_of_Z 100) zero zero 0.

Definition computeCoverage (ts : list Z) (gapThresholdSec : num) : Coverage :=
  if (length ts <? 2)%nat then fullCoverage
  else
    let sorted := sort_by id ts in
    match sorted, last sorted with
    | first :: _, Some lst =>
        let total := Math_max zero (secs (lst - first)) in
        if num_leb total zero then fullCoverage
        else
          let (un, gaps) := uncovered gapThresholdSec (zero, 0) sorted in
          let covered := Math_max zero (num_sub total un) in
          mkCoverage (if num_ltb zero total then pctOf covered total else num_of_Z 100) total covered gaps
    | _, _ => fullCoverage
    end.

(** ** The figures of a trip *)

Record SignalGap := mkGap {
  fromTimestamp : Z;
  toTimestamp : Z;
  gapDurationSec : num;
  fromPoint : num * num;
  toPoint : num * num
}.

Definition pointAt (p : GpsPosition) : num * num := (p_latitude p, p_longitude p).
Definition gapOf (prev curr : GpsPosition) : SignalGap :=
  mkGap (p_timestamp prev) (p_timestamp curr) (Math_round (secs (p_timestamp curr - p_timestamp prev)))
    (pointAt prev) (pointAt curr).

Fixpoint signalGaps (gapThresholdSec : num) (l : list GpsPosition) : list SignalGap :=
  match l with
  | prev :: (curr :: _) as rest =>
      (if isGap gapThresholdSec (p_timestamp prev) (p_timestamp curr) then [gapOf prev curr] else [])
      ++ signalGaps gapThresholdSec rest
  | _ => []
  end.

(** A fix at which the vehicle starts again. *)
Definition startsAgain (prev curr : GpsPosition) : bool :=
  match p_speed prev, p_speed curr with
  | Some a, Some b => num_ltb a STOP_SPEED_THRESHOLD_MS && num_leb STOP_SPEED_THRESHOLD_MS b
  | _, _ => false
  end.
Fixpoint stopCount (l : list GpsPosition) : Z :=
  match l with
  | prev :: (curr :: _) as rest => (if startsAgain prev curr then 1 else 0) + stopCount rest
  | _ => 0
  end.

Definition avgSpeedKmh (l : list GpsPosition) : num :=
  let moving := filter (λ v, num_ltb STOP_SPEED_THRESHOLD_MS v = true) (map (λ p, default zero (p_speed p)) l) in
  match moving with
  | [] => zero
  | _ =>
      let avg := num_div (foldl num_add zero moving) (num_of_Z (Z.of_nat (length moving))) in
      num_div (Math_round (num_mul (num_mul avg (num_lit 36 10)) (num_of_Z 10))) (num_of_Z 10)
  end.

Definition durationOf (l : list GpsPosition) : num :=
  match l, last l with
  | first :: _, Some lst => Math_round (secs (p_timestamp lst - p_timestamp first))
  | _, _ => zero
  end.

(** [{ meters: Math.round(d), kilometers: Math.round(d / 10) / 100 }] *)
Definition distanceOf (d : num) : num * num :=
  (Math_round d, num_div (Math_round (num_div d (num_of_Z 10))) (num_of_Z 100)).

Definition stopFix (p : GpsPosition) : StopFix :=
  mkFix (p_latitude p) (p_longitude p) (p_accuracy p) (p_speed p) (Some (p_timestamp p)).

(** ** Tables *)

Record TripDelivery := mkTripDelivery {
  td_companyId : string;
  td_vehicleId : option string;
  td_closed : bool;  (** delivered or failed *)
  td_createdAt : Z;
  td_completedAt : option Z;
  td_deletedAt : option Z
}.

Record TripVehicle := mkTripVehicle {
  tv_companyId : string;
  tv_licensePlate : string;
  tv_positionSource : PositionSource;
  tv_deletedAt : option Z
}.

Record TripStore := mkTrips {
  tripDeliveries : gmap string TripDelivery;
  tripVehicles : gmap string TripVehicle;
  tripPositions : list GpsPosition
}.

Section Trips.
Context (jm : JsMath) (config : TripConfig).

(** [getAllPositionsByDelivery] *)
Definition getAllPositionsByDelivery (did cid : string) (excludeSuspect : bool) (s : TripStore) : list GpsPosition :=
  sort_by p_timestamp
    (filter (λ p, p_deliveryId p = Some did ∧ td_companyId <$> tripDeliveries s !! did = Some cid
                  ∧ excludeSuspect && p_suspect p = false) (tripPositions s)).

Definition calculateDistance (did cid : string) (s : TripStore) : num * num :=
  let l := getAllPositionsByDelivery did cid true s in
  if (length l <? 2)%nat then (zero, zero) else distanceOf (computeFilteredDistance jm (map stopFix l)).

Record TripFigures := mkTripFigures {
  tr_totalDistance : num * num;
  tr_avgSpeedKmh : num;
  tr_totalDurationSec : num;
  tr_stopCount : Z;
  tr_positionCount : nat;
  tr_signalGaps : list SignalGap;
  tr_trackingCoveragePct : num
}.
Definition signalInterrupted (r : TripFigures) : bool := negb (bool_decide (tr_signalGaps r = [])).

Definition uniqueDrivers (l : list GpsPosition) : list string :=
  remove_dups (filter (λ d, d ≠ "") (omap p_driverId l)).

(** The figures and [uniqueDriverCount]. *)
Definition emptyReport : TripFigures * nat := (mkTripFigures (zero, zero) zero zero 0 0 [] (num_of_Z 100), O).

Definition sourceOfVehicle (vid : option string) (s : TripStore) : PositionSource :=
  match vid ≫= λ v, tripVehicles s !! v with Some v => tv_positionSource v | None => phone end.

(** [None]: the NotFoundException of [getDeliveryInfo]. *)
Definition getTripReport (did cid : string) (s : TripStore) : option (TripFigures * nat) :=
  match tripDeliveries s !! did with
  | Some d =>
      if bool_decide (td_companyId d = cid) then
        let l := getAllPositionsByDelivery did cid true s in
        match l with
        | [] => Some emptyReport
        | _ =>
            let gapSec := getGapThresholdSec config (sourceOfVehicle (td_vehicleId d) s) in
            Some (mkTripFigures (calculateDistance did cid s) (avgSpeedKmh l) (durationOf l) (stopCount l) (length l)
                    (signalGaps gapSec l) (coveragePct (computeCoverage (map p_timestamp l) gapSec)),
                  length (uniqueDrivers l))
        end
      else None
  | None => None
  end.

(** ** The day of a vehicle *)

(** The bounds of [getVehicleTrip]; [base] is midnight UTC of the date asked for, or now. *)
Definition tripDay (base : Z) : Z * Z :=
  (MakeDate (Day base - 1) (21 * 3600000), MakeDate (Day base) (20 * 3600000 + 59 * 60000 + 59 * 1000 + 999)).

Record TripStop := mkTripStop { ts_point : num * num; ts_from : Z; ts_to : Z; ts_durationSec : num }.

Record VehicleTrip := mkVehicleTrip {
  vt_date : Z;
  vt_positions : list StopFix;
  vt_stops : list TripStop;
  vt_report : TripFigures
}.

Definition tripRows (vid : string) (base : Z) (s : TripStore) : list GpsPosition :=
  sort_by p_timestamp
    (filter (λ p, p_vehicleId p = vid ∧ p_suspect p = false ∧ (tripDay base).1 ≤ p_timestamp p
                  ∧ p_timestamp p ≤ (tripDay base).2) (tripPositions s)).

Definition stopOf (rows : list GpsPosition) (w : StopWindow) : TripStop :=
  let at_ i := match rows !! i with Some p => p_timestamp p | None => 0 end in
  mkTripStop (w_latitude w, w_longitude w) (at_ (startIndex w)) (at_ (endIndex w)) (Math_round (durationSec w)).

(** [base] is [None] for a text that is no date. *)
Definition getVehicleTrip (vid cid : string) (base : option Z) (s : TripStore) : result VehicleTrip :=
  match tripVehicles s !! vid with
  | Some v =>
      if bool_decide (tv_companyId v = cid) && bool_decide (tv_deletedAt v = None) then
        match base with
        | None => Throw (BadRequestException "Invalid date")
        | Some base =>
            let rows := tripRows vid base s in
            let gapSec := getGapThresholdSec config (tv_positionSource v) in
            let enough := negb (length rows <? 2)%nat in
            Ok (mkVehicleTrip (MakeDate (Day base) 0)
                  (collapseStationaryWindows jm (map stopFix rows))
                  (map (stopOf rows) (detectStopWindows jm (map stopFix rows)))
                  (mkTripFigures
                     (distanceOf (if enough then computeFilteredDistance jm (map stopFix rows) else zero))
                     (if enough then avgSpeedKmh rows else zero) (if enough then durationOf rows else zero)
                     (if enough then stopCount rows else 0) (length rows) (if enough then signalGaps gapSec rows else [])
                     (coveragePct (computeCoverage (map p_timestamp rows) gapSec))))
        end
      else Throw (NotFoundException "Vehicle not found or access denied")
  | None => Throw (NotFoundException "Vehicle not found or access denied")
  end.

(** ** Reliability over a period *)

Record Reliability := mkReliability {
  rl_deliveries : Z;
  rl_totalSec : num;
  rl_coveredSec : num;
  rl_gaps : Z;
  rl_positions : Z;
  rl_lastCompletedAt : option Z
}.
Definition noReliability : Reliability := mkReliability 0 zero zero 0 0 None.

Definition laterOf (a b : option Z) : option Z :=
  match a, b with
  | Some x, Some y => if y <? x then Some x else Some y
  | Some x, None => Some x
  | None, _ => b
  end.

(** One delivery of the vehicle [vid]. *)
Definition addDelivery (gapSec : num) (completedAt : option Z) (ts : list Z) (agg : Reliability) : Reliability :=
  let c := computeCoverage ts gapSec in
  mkReliability (rl_deliveries agg + 1) (num_add (rl_totalSec agg) (totalSec c)) (num_add (rl_coveredSec agg) (coveredSec c))
    (rl_gaps agg + gapCount c) (rl_positions agg + Z.of_nat (length ts)) (laterOf completedAt (rl_lastCompletedAt agg)).

Definition deliveryTimes (vid did : string) (s : TripStore) : list Z :=
  map p_timestamp
    (sort_by p_timestamp
       (filter (λ p, p_vehicleId p = vid ∧ p_deliveryId p = Some did ∧ p_suspect p = false) (tripPositions s))).

Definition reliabilityStep (s : TripStore) (byVehicle : gmap string Reliability) (kd : string * TripDelivery)
    : gmap string Reliability :=
  match td_vehicleId kd.2 with
  | Some vid =>
      if String.eqb vid "" then byVehicle
      else
        let gapSec := getGapThresholdSec config (sourceOfVehicle (Some vid) s) in
        <[vid := addDelivery gapSec (td_completedAt kd.2) (deliveryTimes vid kd.1 s)
                   (default noReliability (byVehicle !! vid))]> byVehicle
  | None => byVehicle
  end.

Definition reliabilityOf (cid : string) (days now : Z) (s : TripStore) : gmap string Reliability :=
  let since := now - days * 86400000 in
  foldl (reliabilityStep s) ∅
    (find_many (λ _ d, bool_decide (td_companyId d = cid) && bool_decide (td_deletedAt d = None) && td_closed d
                       && (since <=? td_createdAt d)) (tripDeliveries s)).

Definition coverageOf (r : Reliability) : num :=
  if num_ltb zero (rl_totalSec r) then pctOf (rl_coveredSec r) (rl_totalSec r) else num_of_Z 100.

Definition coverageLabel (pct : num) : string :=
  if num_leb (num_of_Z 98) pct then "excellent"
  else if num_leb (num_of_Z 90) pct then "bon"
  else if num_leb (num_of_Z 75) pct then "moyen" else "faible".

(** The rows: vehicle, figures, percentage and label; the report sorts them by percentage. *)
Definition getTrackingReliability (cid : string) (days now : Z) (s : TripStore)
    : list (string * Reliability * num * string) :=
  map (λ kr, (kr.1, kr.2, coverageOf kr.2, coverageLabel (coverageOf kr.2))) (map_to_list (reliabilityOf cid days now s)).
End Trips.

(** ** What the reports promise *)

(** ** A stable sort keeps what is sorted *)

Lemma insert_by_last {A} (key : A → Z) x l : Forall (λ y, key y ≤ key x) l → insert_by key x l = l ++ [x].
Proof.
  induction 1 as [|y l Hy _ IH]; [done|]. cbn. by rewrite (proj2 (Z.ltb_ge _ _) Hy), IH.
Qed.

Lemma sort_by_of_sorted {A} (key : A → Z) l : StronglySorted (key_le key) l → sort_by key l = l.
Proof.
  induction l as [|x l IH] using rev_ind; intros Hs; [done|]. unfold sort_by. rewrite foldl_app. cbn.
  fold (sort_by key l). assert (Hl : StronglySorted (key_le key) l ∧ Forall (λ y, key y ≤ key x) l).
  { clear IH. induction l as [|y l IH]; [by split; constructor|]. apply StronglySorted_inv in Hs as [Hs Hy].
    destruct (IH Hs) as [H1 H2]. apply Forall_app in Hy as [Hy Hyx%Forall_inv]. split; constructor; done. }
  destruct Hl as [Hl Hx]. rewrite IH by done. by apply insert_by_last.
Qed.

(** ** Gaps *)

Section Gaps.
Context (g : num).

(** The gaps of a list, by position. *)
Lemma signalGaps_elem l x : x ∈ signalGaps g l ↔
  ∃ i a b, l !! i = Some a ∧ l !! S i = Some b ∧ isGap g (p_timestamp a) (p_timestamp b) = true ∧ x = gapOf a b.
Proof.
  induction l as [|a [|b l] IH].
  - split; [by intros ?%elem_of_nil|]. by intros (i & a & b & Hi & _).
  - split; [by intros ?%elem_of_nil|]. by intros ([|i] & a' & b & _ & Hi & _).
  - change (signalGaps g (a :: b :: l)) with
      ((if isGap g (p_timestamp a) (p_timestamp b) then [gapOf a b] else []) ++ signalGaps g (b :: l)).
    rewrite elem_of_app, IH. split.
    + intros [Hx|(i & c & d & Hc & Hd & Hg & ->)].
      * destruct (isGap g (p_timestamp a) (p_timestamp b)) eqn:E; [|by apply elem_of_nil in Hx].
        apply list_elem_of_singleton in Hx as ->. by exists O, a, b.
      * exists (S i), c, d. done.
    + intros ([|i] & c & d & Hc & Hd & Hg & ->); cbn in Hc, Hd.
      * injection Hc as <-. injection Hd as <-. left. rewrite Hg. by left.
      * right. by exists i, c, d.
Qed.

Lemma uncovered_count l : ∀ acc, (uncovered g acc (map p_timestamp l)).2 = acc.2 + Z.of_nat (length (signalGaps g l)).
Proof.
  induction l as [|a [|b l] IH]; intros acc; [cbn; lia|cbn; lia|].
  change (signalGaps g (a :: b :: l)) with
    ((if isGap g (p_timestamp a) (p_timestamp b) then [gapOf a b] else []) ++ signalGaps g (b :: l)).
  change (uncovered g acc (map p_timestamp (a :: b :: l))) with
    (uncovered g (if isGap g (p_timestamp a) (p_timestamp b)
                  then (num_add acc.1 (secs (p_timestamp b - p_timestamp a)), acc.2 + 1) else acc) (map p_timestamp (b :: l))).
  rewrite IH, length_app. destruct (isGap _ _ _); cbn [fst snd length]; lia.
Qed.

(** The coverage of a trip that lasts counts the gaps the report lists. *)
Lemma coverage_counts_gaps l first lst : StronglySorted (key_le p_timestamp) l → (2 ≤ length l)%nat →
  head l = Some first → last l = Some lst →
  num_leb (Math_max zero (secs (p_timestamp lst - p_timestamp first))) zero = false →
  gapCount (computeCoverage (map p_timestamp l) g) = Z.of_nat (length (signalGaps g l)).
Proof.
  intros Hs Hl Hf Hlst Ht. unfold computeCoverage. rewrite (proj2 (Nat.ltb_ge _ _)) by (by rewrite length_map).
  rewrite sort_by_of_sorted.
  2: { clear -Hs. induction Hs as [|a l _ IH Ha]; cbn; constructor; [done|]. apply Forall_map.
       eapply Forall_impl; [exact Ha|]. done. }
  destruct l as [|a l]; [done|]. injection Hf as ->.
  assert (El : last (map p_timestamp (first :: l)) = Some (p_timestamp lst)).
  { change (map p_timestamp (first :: l)) with (p_timestamp <$> first :: l). by rewrite fmap_last, Hlst. }
  cbn [map] in *. rewrite El, Ht. pose proof (uncovered_count (first :: l) (zero, 0)) as HU. cbn [map] in HU.
  destruct (uncovered g (zero, 0) _) as [un gaps]. cbn in HU |- *. lia.
Qed.
End Gaps.

(** ** The report of a delivery and of a day *)

Section Reports.
Context (jm : JsMath) (config : TripConfig).

(** The gaps of the day of a vehicle: the pairs of consecutive fixes further apart
    than the threshold of its source. *)
Theorem vehicle_gaps_exact vid cid base s trip x : getVehicleTrip jm config vid cid base s = Ok trip →
  x ∈ tr_signalGaps (vt_report trip) ↔
  ∃ v b i p q, tripVehicles s !! vid = Some v ∧ base = Some b ∧ tripRows vid b s !! i = Some p ∧
    tripRows vid b s !! S i = Some q ∧
    isGap (getGapThresholdSec config (tv_positionSource v)) (p_timestamp p) (p_timestamp q) = true ∧ x = gapOf p q.
Proof.
  unfold getVehicleTrip. destruct (tripVehicles s !! vid) as [v|] eqn:Ev; [|done].
  destruct (_ && _); [|done]. destruct base as [b|]; [|done]. intros [= <-]. cbn [vt_report tr_signalGaps].
  assert (E : (if negb (length (tripRows vid b s) <? 2)%nat
               then signalGaps (getGapThresholdSec config (tv_positionSource v)) (tripRows vid b s) else []) =
              signalGaps (getGapThresholdSec config (tv_positionSource v)) (tripRows vid b s)).
  { destruct (tripRows vid b s) as [|p [|q l]]; done. }
  rewrite E, signalGaps_elem. split.
  - intros (i & p & q & Hp & Hq & Hg & ->). by exists v, b, i, p, q.
  - intros (v' & b' & i & p & q & [= <-] & [= <-] & Hp & Hq & Hg & ->). by exists i, p, q.
Qed.

(** Nothing of another company is reported. *)
Lemma trip_of_own_company did cid s r : getTripReport jm config did cid s = Some r →
  td_companyId <$> tripDeliveries s !! did = Some cid.
Proof.
  unfold getTripReport. destruct (tripDeliveries s !! did) as [d|]; [|done]. case_bool_decide; [|done]. cbn. by subst.
Qed.

(** The day asked for today holds the present moment only before 21:00 UTC. *)
Lemma trip_day_holds_now now : (tripDay now).1 ≤ now ≤ (tripDay now).2 ↔ TimeWithinDay now < 21 * 3600000.
Proof.
  unfold tripDay, MakeDate, Day, TimeWithinDay, msPerDay. cbn [fst snd].
  pose proof (Z.div_mod now 86400000). pose proof (Z.mod_pos_bound now 86400000). lia.
Qed.

(** A delivery of a van that sent nothing at all. *)
Lemma silence_is_excellent :
  let s := mkTrips {["d1" := mkTripDelivery "co" (Some "van") true 1000 (Some 2000) None]}
             {["van" := mkTripVehicle "co" "1234 TBA" phone None]} [] in
  (λ r, (r.1.1.1, r.1.2, r.2)) <$> getTrackingReliability config "co" 30 3000 s = [("van", num_of_Z 100, "excellent")].
Proof. reflexivity. Qed.
End Reports.
