(* ===== verification/SilenceMonitor.v ===== *)
(** * Tracking: the monitor of silent vehicles

    checkSilentVehicles and getTrackingSilences of TrackingService
    (modules/tracking/tracking.service.ts), on the cache of CacheService: the
    cooldown of the alerts and the journal of the silences.  The thresholds are
    whole minutes; a time in minutes is compared in milliseconds. *)

From Stdlib Require Import SpecFloat.
From stdpp Require Import relations.
From S2P Require Import Prelude JsString JsNum JsDate Redis TrackingModel Tracking.

#[local] Open Scope string_scope.
#[local] Open Scope list_scope.
#[local] Open Scope Z_scope.

Definition SILENCE_CHECK_INTERVAL_MS : Z := 60000.
Definition NEVER_CONNECTED_GRACE_MS : Z := 30 * 60 * 1000.
Definition SILENCE_JOURNAL_TTL_S : Z := 24 * 3600.

(** A vehicle with its driver, the deliveries it has assigned or in progress, and its time of creation. *)
Record WatchedVehicle := mkWatched {
  wv_companyId : string;
  wv_licensePlate : string;
  wv_isActive : bool;
  wv_deletedAt : option Z;
  wv_positionSource : PositionSource;
  wv_createdAt : Z;
  wv_driver : option (option string * bool);  (** its user, active and not deleted *)
  wv_activeDeliveries : list string
}.

(** What the alert says. *)
Inductive SilenceKind := NeverHeard | SilentSince (minutes_ : Z) (lastPosition : Z).

Record SilenceAlert := mkSilenceAlert {
  sa_at : Z;
  sa_companyId : string;
  sa_vehicleId : string;
  sa_kind : SilenceKind;
  sa_deliveryId : option string;
  sa_userId : option string
}.

Record MonitorStore := mkMonitor {
  watched : gmap string WatchedVehicle;
  heard : list GpsPosition;
  alertCache : RedisDb;
  silenceAlerts : list SilenceAlert
}.

(** [Number(env)] in whole minutes, where it is a positive number. *)
Record SilenceConfig := mkSilenceConfig { silenceTrackerMin : option Z; silencePhoneMin : option Z }.

Definition getSilenceThresholdMin (c : SilenceConfig) (source : PositionSource) : Z :=
  let '(value, fallback) :=
    match source with physical_tracker => (silenceTrackerMin c, 10) | phone => (silencePhoneMin c, 5) end in
  match value with Some v => if 0 <? v then v else fallback | None => fallback end.

Definition cooldownKey (vid : string) : string := "silence_alert:" +:+ vid.
Definition silenceJournalKey (vid : string) : string := "tracking_silence:" +:+ vid.

Definition onAlertCache (f : RedisDb → RedisDb) (s : MonitorStore) : MonitorStore :=
  s <| alertCache := f (alertCache s) |>.

(** [invalidate(`${prefix}*`)] *)
Definition invalidatePrefix (prefix_ : string) (db : RedisDb) : RedisDb :=
  delete_many (λ k _, String.prefix prefix_ k) db.

Section Monitor.
Context (config : SilenceConfig).

Definition lastHeard (vid : string) (s : MonitorStore) : option GpsPosition := latest (ofVehicle vid) (heard s).

(** [notified ? continue : set(cooldown) ; create(alert)] *)
Definition alertOnce (now ttl : Z) (vid : string) (v : WatchedVehicle) (kind : SilenceKind) (s : MonitorStore)
    : MonitorStore :=
  match redis_get now (cooldownKey vid) (alertCache s) with
  | Some _ => s
  | None =>
      (onAlertCache (redis_set now (cooldownKey vid) "1" ttl) s)
        <| silenceAlerts := silenceAlerts s ++
             [mkSilenceAlert now (wv_companyId v) vid kind (head (wv_activeDeliveries v)) (wv_driver v ≫= fst)] |>
  end.

(** The body of the loop. *)
Definition checkVehicle (now : Z) (s : MonitorStore) (kv : string * WatchedVehicle) : MonitorStore :=
  let (vid, v) := kv in
  let thresholdMin := getSilenceThresholdMin config (wv_positionSource v) in
  match lastHeard vid s with
  | None =>
      if now - wv_createdAt v <? NEVER_CONNECTED_GRACE_MS then s
      else alertOnce now (thresholdMin * 60) vid v NeverHeard s
  | Some p =>
      let elapsed := now - p_timestamp p in
      if elapsed <=? thresholdMin * 60000 then onAlertCache (invalidatePrefix (silenceJournalKey vid)) s
      else
        let s :=
          match redis_get now (silenceJournalKey vid) (alertCache s) with
          | Some _ => s
          | None => onAlertCache (redis_set now (silenceJournalKey vid) (toISOString now) SILENCE_JOURNAL_TTL_S) s
          end in
        alertOnce now (Z.max 300 (thresholdMin * 60)) vid v (SilentSince ((2 * elapsed + 60000) / 120000) (p_timestamp p)) s
  end.

Definition toWatch (v : WatchedVehicle) : bool :=
  wv_isActive v && bool_decide (wv_deletedAt v = None)
  && match wv_driver v with Some (_, active) => active | None => false end
  && negb (bool_decide (wv_activeDeliveries v = [])).

Definition checkSilentVehicles (now : Z) (s : MonitorStore) : MonitorStore :=
  foldl (checkVehicle now) s (find_many (λ _ v, toWatch v) (watched s)).

(** ** The view of the administrators *)

(** [classifyTrackerSilenceCause]; no stored telemetry is the empty list. *)
Inductive SilenceCause := PowerCut | BatteryCritical | NoTelemetry | NetworkOrHardware.

Definition classifyTrackerSilenceCause (attributes : list (string * Attribute)) : SilenceCause :=
  let power := numAttribute "power" attributes in
  let battery := numAttribute "battery" attributes in
  if match power with Some x => num_leb x (num_lit 5 10) | None => false end then PowerCut
  else if match battery with Some x => num_ltb (num_of_Z 0) x && num_leb x (num_of_Z 20) | None => false end
  then BatteryCritical
  else if bool_decide (power = None) && bool_decide (battery = None) then NoTelemetry
  else NetworkOrHardware.

Record SilenceRow := mkSilenceRow {
  sr_vehicleId : string;
  sr_source : PositionSource;
  sr_silenceMs : option Z;
  sr_thresholdMin : Z;
  sr_inSilence : bool;
  sr_neverConnected : bool;
  sr_silenceStartedAt : option string;
  sr_probableSilenceCause : option SilenceCause
}.

Definition silenceRow (now : Z) (s : MonitorStore) (kv : string * WatchedVehicle) : SilenceRow :=
  let (vid, v) := kv in
  let thresholdMin := getSilenceThresholdMin config (wv_positionSource v) in
  let lastPos := lastHeard vid s in
  let elapsed := (λ p, now - p_timestamp p) <$> lastPos in
  mkSilenceRow vid (wv_positionSource v) elapsed thresholdMin
    (match elapsed with Some e => thresholdMin * 60000 <? e | None => false end)
    (bool_decide (elapsed = None))
    (redis_get now (silenceJournalKey vid) (alertCache s))
    (match wv_positionSource v, lastPos with
     | physical_tracker, Some p => Some (classifyTrackerSilenceCause (p_attributes p))
     | _, _ => None
     end).

(** The rows; the code then sorts them, the longest silence first. *)
Definition getTrackingSilences (cid : string) (now : Z) (s : MonitorStore) : list SilenceRow :=
  map (silenceRow now s)
    (find_many (λ _ v, bool_decide (wv_companyId v = cid) && wv_isActive v && bool_decide (wv_deletedAt v = None)
                       && match wv_driver v with Some (_, active) => active | None => false end) (watched s)).
End Monitor.

(** ** What the monitor promises

    Every silent vehicle with work to do is reported, and not again before its
    cooldown has passed, whatever positions, assignments and checks come in
    between; the period of grace is counted from the wrong event. *)

Section Monitor.
Context (config : SilenceConfig).

Notation threshold := (getSilenceThresholdMin config).
Notation check := (checkSilentVehicles config).

Lemma threshold_positive src : 0 < threshold src.
Proof.
  unfold getSilenceThresholdMin. destruct src; [destruct (silencePhoneMin config) as [v|]|destruct (silenceTrackerMin config) as [v|]];
    try lia; destruct (Z.ltb_spec 0 v); lia.
Qed.

(** The shortest and the longest cooldown, in milliseconds. *)
Definition shortest : Z := Z.min (threshold phone) (threshold physical_tracker) * 60000.
Definition longest : Z := Z.max 300000 (Z.max (threshold phone) (threshold physical_tracker) * 60000).

Lemma cooldown_range src ttl : ttl = threshold src * 60 ∨ ttl = Z.max 300 (threshold src * 60) →
  shortest ≤ ttl * 1000 ≤ longest.
Proof.
  pose proof (threshold_positive phone). pose proof (threshold_positive physical_tracker).
  unfold shortest, longest. destruct src; intros [->| ->]; lia.
Qed.

(** The store as seen from one vehicle: its alerts against its cooldown. *)
Record watchOk (now : Z) (s : MonitorStore) : Prop := {
  alerts_past : ∀ a, a ∈ silenceAlerts s → sa_at a ≤ now;
  alerts_cool : ∀ a t, a ∈ silenceAlerts s → now ≤ t → t < sa_at a + shortest →
    redis_get t (cooldownKey (sa_vehicleId a)) (alertCache s) ≠ None;
  alerts_spaced : ∀ i j a b, silenceAlerts s !! i = Some a → silenceAlerts s !! j = Some b → (i < j)%nat →
    sa_vehicleId a = sa_vehicleId b → sa_at a + shortest ≤ sa_at b;
  cooldown_alerted : ∀ vid t v, now ≤ t → redis_get t (cooldownKey vid) (alertCache s) = Some v →
    ∃ a, a ∈ silenceAlerts s ∧ sa_vehicleId a = vid ∧ t < sa_at a + longest
}.

Lemma cooldown_inj v w : cooldownKey v = cooldownKey w → v = w.
Proof. unfold cooldownKey. cbn. intros E. repeat injection E as E. done. Qed.
Lemma cooldown_not_journal v w : cooldownKey v ≠ silenceJournalKey w.
Proof. unfold cooldownKey, silenceJournalKey. cbn. done. Qed.

(** Only the cooldowns and the alerts matter. *)
Lemma watchOk_same now now' s s' : now ≤ now' → silenceAlerts s' = silenceAlerts s →
  (∀ t vid, redis_get t (cooldownKey vid) (alertCache s') = redis_get t (cooldownKey vid) (alertCache s)) →
  watchOk now s → watchOk now' s'.
Proof.
  intros Hn Ha Hc [H1 H2 H3 H4]. split; rewrite Ha.
  - intros a Hin. specialize (H1 a Hin). lia.
  - intros a t Hin Ht Hl. rewrite Hc. apply H2; [done|lia|done].
  - exact H3.
  - intros vid t v Ht Hg. rewrite Hc in Hg. apply (H4 vid t v); [lia|done].
Qed.

Lemma alertOnce_ok now ttl vid v kind s : shortest ≤ ttl * 1000 ≤ longest → watchOk now s →
  watchOk now (alertOnce now ttl vid v kind s).
Proof.
  intros Ht [H1 H2 H3 H4]. unfold alertOnce. destruct (redis_get now (cooldownKey vid) (alertCache s)) as [w|] eqn:Eg; [done|].
  assert (Hnew : ∀ a, a ∈ silenceAlerts s → sa_vehicleId a = vid → sa_at a + shortest ≤ now).
  { intros a Ha Hv. destruct (Z.le_gt_cases (sa_at a + shortest) now) as [|Hlt]; [done|].
    destruct (H2 a now Ha); [lia|done|]. by rewrite Hv. }
  split; cbn -[redis_set redis_get shortest longest].
  - intros a [Ha| ->%list_elem_of_singleton]%elem_of_app; [by apply H1|done].
  - intros a t [Ha| ->%list_elem_of_singleton]%elem_of_app Hge Hlt.
    + destruct (decide (sa_vehicleId a = vid)) as [Hv|Hv]; [specialize (Hnew a Ha Hv); lia|].
      rewrite redis_get_set_ne; [by apply H2|]. intros E. by apply cooldown_inj in E.
    + cbn -[redis_set redis_get shortest] in *. rewrite redis_get_set, (proj2 (Z.ltb_lt _ _)); [done|lia].
  - intros i j a b Hi Hj Hij Hv. apply lookup_app_Some in Hj as [Hj|[Hj Hb]].
    + rewrite lookup_app_l in Hi by (apply lookup_lt_Some in Hj; lia). by apply (H3 i j).
    + apply list_lookup_singleton_Some in Hb as [Hb0 <-]. cbn -[shortest] in *. apply lookup_app_Some in Hi as [Hi|[Hi _]]; [|lia].
      apply Hnew; [by apply list_elem_of_lookup_2 in Hi|done].
  - intros vid' t w Hge Hg. destruct (decide (vid' = vid)) as [->|Hv].
    + rewrite redis_get_set in Hg. destruct (Z.ltb_spec t (now + ttl * 1000)); [|done].
      eexists. split; [apply elem_of_app; right; by apply list_elem_of_singleton|]. cbn -[longest]. split; [done|lia].
    + rewrite redis_get_set_ne in Hg by (intros E; by apply cooldown_inj in E).
      destruct (H4 vid' t w Hge Hg) as (a & Ha & Hva & Hta). exists a. split; [apply elem_of_app; by left|done].
Qed.

Lemma journal_keeps_cooldowns t vid vid' now s :
  redis_get t (cooldownKey vid)
    (alertCache (match redis_get now (silenceJournalKey vid') (alertCache s) with
                 | Some _ => s
                 | None => onAlertCache (redis_set now (silenceJournalKey vid') (toISOString now) SILENCE_JOURNAL_TTL_S) s
                 end)) = redis_get t (cooldownKey vid) (alertCache s).
Proof.
  case_match; [done|]. cbn -[redis_set redis_get]. apply redis_get_set_ne. apply cooldown_not_journal.
Qed.

Lemma invalidate_keeps_cooldowns t vid vid' db :
  redis_get t (cooldownKey vid) (invalidatePrefix (silenceJournalKey vid') db) = redis_get t (cooldownKey vid) db.
Proof.
  unfold redis_get, invalidatePrefix. rewrite lookup_delete_many. by destruct (db !! cooldownKey vid).
Qed.

Lemma checkVehicle_ok now s kv : watchOk now s → watchOk now (checkVehicle config now s kv).
Proof.
  destruct kv as [vid v]. intros Hs. unfold checkVehicle. destruct (lastHeard vid s) as [p|].
  - case_match.
    + apply (watchOk_same now now s); [done|done| |exact Hs]. intros. apply invalidate_keeps_cooldowns.
    + apply alertOnce_ok; [apply (cooldown_range (wv_positionSource v)); by right|].
      apply (watchOk_same now now s); [done|by case_match| |exact Hs]. intros. apply journal_keeps_cooldowns.
  - case_match; [done|]. apply alertOnce_ok; [|done]. apply (cooldown_range (wv_positionSource v)). by left.
Qed.

Lemma check_ok now s : watchOk now s → watchOk now (check now s).
Proof.
  unfold checkSilentVehicles. generalize (find_many (λ _ v, toWatch v) (watched s)). intros l. revert s.
  induction l as [|kv l IH]; intros s Hs; [done|]. cbn. by apply IH, checkVehicle_ok.
Qed.

(** ** Who is reported *)

(** The vehicle is silent, or has never been heard of and is no longer new. *)
Definition silentAt (now : Z) (vid : string) (v : WatchedVehicle) (s : MonitorStore) : Prop :=
  match lastHeard vid s with
  | Some p => threshold (wv_positionSource v) * 60000 < now - p_timestamp p
  | None => NEVER_CONNECTED_GRACE_MS ≤ now - wv_createdAt v
  end.

Definition coolingDown (now : Z) (vid : string) (s : MonitorStore) : Prop :=
  is_Some (redis_get now (cooldownKey vid) (alertCache s)).

Lemma alertOnce_cools now ttl vid v kind s : 0 < ttl → coolingDown now vid (alertOnce now ttl vid v kind s).
Proof.
  intros Ht. unfold coolingDown, alertOnce. destruct (redis_get now (cooldownKey vid) (alertCache s)) eqn:E; [by rewrite E|].
  cbn -[redis_set redis_get]. rewrite redis_get_set, (proj2 (Z.ltb_lt _ _)); [done|lia].
Qed.

Lemma alertOnce_keeps now ttl vid vid' v kind s : coolingDown now vid' s → coolingDown now vid' (alertOnce now ttl vid v kind s).
Proof.
  intros Hc. unfold coolingDown, alertOnce in *. destruct (redis_get now (cooldownKey vid) (alertCache s)) eqn:E; [done|].
  cbn -[redis_set redis_get]. rewrite redis_get_set_ne; [done|]. intros ->%cooldown_inj. rewrite E in Hc. by destruct Hc.
Qed.

Lemma checkVehicle_same now s kv :
  heard (checkVehicle config now s kv) = heard s ∧ watched (checkVehicle config now s kv) = watched s.
Proof. destruct kv. unfold checkVehicle, alertOnce. repeat case_match; done. Qed.

Lemma checkVehicle_keeps_cooldown now s kv vid : coolingDown now vid s → coolingDown now vid (checkVehicle config now s kv).
Proof.
  destruct kv as [vid' v]. intros Hc. unfold checkVehicle. destruct (lastHeard vid' s) as [p|].
  - case_match.
    + unfold coolingDown in *. cbn -[redis_get]. by rewrite invalidate_keeps_cooldowns.
    + apply alertOnce_keeps. unfold coolingDown in *. by rewrite journal_keeps_cooldowns.
  - case_match; [done|]. by apply alertOnce_keeps.
Qed.

Lemma checkVehicle_cools now s vid v : silentAt now vid v s → coolingDown now vid (checkVehicle config now s (vid, v)).
Proof.
  pose proof (threshold_positive (wv_positionSource v)). unfold silentAt, checkVehicle.
  destruct (lastHeard vid s) as [p|]; intros Hs.
  - rewrite (proj2 (Z.leb_gt _ _)) by done. apply alertOnce_cools. lia.
  - rewrite (proj2 (Z.ltb_ge _ _)) by done. apply alertOnce_cools. lia.
Qed.

Lemma checkAll_cools now l : ∀ s vid v, (vid, v) ∈ l → silentAt now vid v s →
  coolingDown now vid (foldl (checkVehicle config now) s l).
Proof.
  assert (HK : ∀ l s vid, coolingDown now vid s → coolingDown now vid (foldl (checkVehicle config now) s l)).
  { clear l. induction l as [|kv l IH]; intros s vid Hc; [done|]. cbn. by apply IH, checkVehicle_keeps_cooldown. }
  induction l as [|kv l IH]; intros s vid v Hin Hs; [by apply elem_of_nil in Hin|].
  apply elem_of_cons in Hin as [<-|Hin]; cbn; [by apply HK, checkVehicle_cools|]. apply (IH _ vid v Hin).
  unfold silentAt, lastHeard in *. by rewrite (proj1 (checkVehicle_same now s kv)).
Qed.

Lemma alertOnce_adds now ttl vid v kind s a : a ∈ silenceAlerts (alertOnce now ttl vid v kind s) →
  a ∈ silenceAlerts s ∨ (sa_at a = now ∧ sa_vehicleId a = vid ∧ sa_companyId a = wv_companyId v).
Proof.
  unfold alertOnce. case_match; [by left|]. cbn. intros [Ha| ->%list_elem_of_singleton]%elem_of_app; [by left|by right].
Qed.

Lemma checkVehicle_adds now s vid v a : a ∈ silenceAlerts (checkVehicle config now s (vid, v)) →
  a ∈ silenceAlerts s ∨ (silentAt now vid v s ∧ sa_at a = now ∧ sa_vehicleId a = vid ∧ sa_companyId a = wv_companyId v).
Proof.
  unfold checkVehicle, silentAt. destruct (lastHeard vid s) as [p|].
  - destruct (Z.leb_spec (now - p_timestamp p) (threshold (wv_positionSource v) * 60000)); [by left|].
    intros Ha. apply alertOnce_adds in Ha as [Ha|Ha]; [|by right]. left. by case_match.
  - destruct (Z.ltb_spec (now - wv_createdAt v) NEVER_CONNECTED_GRACE_MS); [by left|].
    intros Ha. apply alertOnce_adds in Ha as [Ha|Ha]; [by left|by right].
Qed.

Lemma checkAll_adds now l : ∀ s a, a ∈ silenceAlerts (foldl (checkVehicle config now) s l) →
  a ∈ silenceAlerts s ∨ ∃ vid v, (vid, v) ∈ l ∧ silentAt now vid v s ∧ sa_at a = now ∧ sa_vehicleId a = vid ∧
    sa_companyId a = wv_companyId v.
Proof.
  induction l as [|[vid v] l IH]; intros s a Ha; [by left|]. cbn [foldl] in Ha. apply IH in Ha as [Ha|(w & x & Hin & Hs & Hr)].
  - apply checkVehicle_adds in Ha as [Ha|Ha]; [by left|]. right. exists vid, v. split; [by left|done].
  - right. exists w, x. split; [by right|]. split; [|done].
    unfold silentAt, lastHeard in *. by rewrite (proj1 (checkVehicle_same now s (vid, v))) in Hs.
Qed.

(** ** Runs *)

(** A check, or anything else that happens: positions, assignments, deliveries. *)
Inductive monitorStep : Z * MonitorStore → Z * MonitorStore → Prop :=
  | tick now now' s : now ≤ now' → monitorStep (now, s) (now', check now' s)
  | world now now' s w h : now ≤ now' → monitorStep (now, s) (now', s <| watched := w |> <| heard := h |>).

Definition freshMonitor (s : MonitorStore) : Prop :=
  silenceAlerts s = [] ∧ ∀ vid, alertCache s !! cooldownKey vid = None.

Lemma monitor_run_ok x y : rtc monitorStep x y → watchOk x.1 x.2 → watchOk y.1 y.2.
Proof.
  induction 1 as [|x y z Hs _ IH]; [done|]. intros Hx. apply IH. destruct Hs as [now now' s Hn|now now' s w h Hn]; cbn in *.
  - apply check_ok. by apply (watchOk_same now now' s).
  - by apply (watchOk_same now now' s).
Qed.

(** C33: whatever positions, assignments and checks come in between, two alerts on
    the same vehicle are never closer than the threshold of silence; and a check
    leaves every watched vehicle that is silent at that moment with an alert within the last
    cooldown, alerts no other vehicle, and each alert goes to the company of its vehicle. *)
Theorem silence_reported t0 s0 now s now' : freshMonitor s0 → rtc monitorStep (t0, s0) (now, s) → now ≤ now' →
  (∀ i j a b, silenceAlerts s !! i = Some a → silenceAlerts s !! j = Some b → (i < j)%nat →
     sa_vehicleId a = sa_vehicleId b → sa_at a + shortest ≤ sa_at b) ∧
  (∀ vid v, watched s !! vid = Some v → toWatch v = true → silentAt now' vid v s →
     ∃ a, a ∈ silenceAlerts (check now' s) ∧ sa_vehicleId a = vid ∧ sa_at a ≤ now' < sa_at a + longest) ∧
  (∀ a, a ∈ silenceAlerts (check now' s) → a ∈ silenceAlerts s ∨
     ∃ v, watched s !! sa_vehicleId a = Some v ∧ toWatch v = true ∧ silentAt now' (sa_vehicleId a) v s ∧
          sa_at a = now' ∧ sa_companyId a = wv_companyId v).
Proof.
  intros [Ha Hc] Hrun Hn. assert (H0 : watchOk t0 s0).
  { split; rewrite ?Ha.
    - intros a Hin. by apply elem_of_nil in Hin.
    - intros a t Hin. by apply elem_of_nil in Hin.
    - by intros i j a b Hi.
    - intros vid t v _. unfold redis_get. by rewrite Hc. }
  pose proof (monitor_run_ok _ _ Hrun H0) as Hs. cbn in Hs.
  assert (Hs' : watchOk now' s) by by apply (watchOk_same now now' s).
  pose proof (check_ok now' s Hs') as Hk. split_and!; [apply Hs| |].
  - intros vid v Hv Hw Hsil. assert (Hcool : coolingDown now' vid (check now' s)).
    { unfold checkSilentVehicles. apply (checkAll_cools _ _ _ vid v); [by apply elem_of_find_many|done]. }
    destruct Hcool as [w Hg]. destruct (cooldown_alerted _ _ Hk vid now' w) as (a & Hin & Hav & Ht); [lia|done|].
    exists a. split_and!; [done|done|by apply (alerts_past _ _ Hk)|done].
  - intros a Hin. unfold checkSilentVehicles in Hin. apply checkAll_adds in Hin as [Hin|(vid & v & Hin & Hsil & Hat & <- & Hco)]; [by left|].
    apply elem_of_find_many in Hin as [Hv Hw]. right. by exists v.
Qed.
End Monitor.

(** ** Examples *)

Definition exMonitorConfig : SilenceConfig := mkSilenceConfig None None.
Definition exWatched (createdAt : Z) : WatchedVehicle :=
  mkWatched "co" "1234 TBA" true None phone createdAt (Some (Some "u1", true)) ["d1"].
Definition exFix (t : Z) : GpsPosition :=
  mkPosition (num_of_Z 0) (num_of_Z 0) None None None None false t "co" None "van" None phone [].
Definition exMonitor : MonitorStore := mkMonitor {["van" := exWatched 0]} [exFix 1000000] ∅ [].

Lemma silence_reported_witness :
  ∃ a, a ∈ silenceAlerts (checkSilentVehicles exMonitorConfig 2000000 exMonitor) ∧ sa_vehicleId a = "van" ∧
    sa_at a ≤ 2000000 < sa_at a + longest exMonitorConfig.
Proof.
  destruct (silence_reported exMonitorConfig 1000000 exMonitor 1500000 exMonitor 2000000) as (_ & H & _).
  - by split.
  - apply rtc_once. exact (world exMonitorConfig 1000000 1500000 exMonitor (watched exMonitor) (heard exMonitor) ltac:(done)).
  - done.
  - apply (H "van" (exWatched 0)); reflexivity.
Defined.

(** A vehicle of an older fleet, assigned its first delivery just now, is
    reported at the next check: the grace runs from its creation. *)
Lemma new_assignment_without_grace :
  let month := 30 * 86400000 in
  let s := mkMonitor {["van" := exWatched 0]} [] ∅ [] in
  silenceAlerts (checkSilentVehicles exMonitorConfig month s) = [mkSilenceAlert month "co" "van" NeverHeard (Some "d1") (Some "u1")].
Proof. reflexivity. Qed.
