(* ===== verification/TrackingRelay.v ===== *)
(** * Tracking: positions by SMS, the positions of the map, the archive

    ingestSmsRelayPosition, getLivePositions, archivePositionsBefore and its
    variant for all companies (modules/tracking/tracking.service.ts).  A position
    relayed by SMS goes through savePosition of Tracking.v: it is stored for the vehicle
    of a driver of the company with that number or not at all.  A row of the map shows
    the newest fix of its vehicle and, where that fix is suspect, the last reliable
    place; the archive keeps two days and moves every older row once. *)

From Stdlib Require Import SpecFloat.
From S2P Require Import Prelude JsString JsNum Geo Gps TrackingModel Tracking TrackingProps.

#[local] Open Scope string_scope.
#[local] Open Scope list_scope.
#[local] Open Scope Z_scope.

(** The columns of a driver that the relay reads beyond those of TrackingModel.v. *)
Record Contact := mkContact {
  ct_phone : option string;
  ct_isActive : bool;
  ct_deletedAt : option Z;
  ct_firstName : string;
  ct_lastName : string
}.

(** A row of gps_positions_archive: the columns company, source and attributes do not exist there. *)
Record ArchivedPosition := mkArchived {
  ar_latitude : num;
  ar_longitude : num;
  ar_speed : option num;
  ar_heading : option num;
  ar_altitude : option num;
  ar_accuracy : option num;
  ar_suspect : bool;
  ar_timestamp : Z;
  ar_deliveryId : option string;
  ar_vehicleId : string;
  ar_driverId : option string
}.

Record RelayTables := mkRelay {
  track : TrackingStore;
  contacts : gmap string Contact;  (** by driver *)
  archived : list ArchivedPosition
}.

(** ** SMS relay *)

(** [raw.replace(/\D/g, '')] *)
Fixpoint digitsOnly (s : string) : string :=
  match s with
  | EmptyString => EmptyString
  | String c s' => if isDigit c then String c (digitsOnly s') else digitsOnly s'
  end.

(** [digits.slice(-9)] *)
Definition normalizePhoneTail (raw : string) : string :=
  let digits := digitsOnly raw in
  let n := String.length digits in
  String.substring (n - 9) 9 digits.

Record SmsRelayPositionDto := mkSms {
  sms_senderPhone : string;
  sms_latitude : num;
  sms_longitude : num;
  sms_accuracy : option num;
  sms_timestamp : Z
}.

Inductive SmsStatus := sms_ok | no_driver_match | rejected.
#[export] Instance SmsStatus_eq_dec : EqDecision SmsStatus.
Proof. solve_decision. Defined.

(** The where clause of the candidates. *)
Definition smsCandidate (cid : string) (s : RelayTables) (id : string) (d : Driver) : bool :=
  match contacts s !! id with
  | Some c => bool_decide (dr_companyId d = cid) && bool_decide (ct_deletedAt c = None) && ct_isActive c
              && bool_decide (is_Some (ct_phone c)) && bool_decide (is_Some (dr_vehicleId d))
  | None => false
  end.

Definition hasTail (tail_ : string) (s : RelayTables) (id : string) : bool :=
  match contacts s !! id ≫= ct_phone with
  | Some p => negb (String.eqb p "") && String.eqb (normalizePhoneTail p) tail_
  | None => false
  end.

Definition smsDriver (cid senderPhone : string) (s : RelayTables) : option (string * Driver) :=
  find (λ kd, hasTail (normalizePhoneTail senderPhone) s kd.1) (find_many (smsCandidate cid s) (drivers (track s))).

Section Relay.
Context (jm : JsMath).

Definition smsPosition (dto : SmsRelayPositionDto) (vid : string) : UpdatePositionDto :=
  {| latitude := sms_latitude dto; longitude := sms_longitude dto; speed := None; heading := None;
     altitude := None; accuracy := sms_accuracy dto; timestamp := sms_timestamp dto; deliveryId := None;
     vehicleId := vid |}.

Definition ingestSmsRelayPosition (cid : string) (dto : SmsRelayPositionDto) (s : RelayTables) : RelayTables * SmsStatus :=
  if (String.length (normalizePhoneTail (sms_senderPhone dto)) <? 9)%nat then (s, no_driver_match)
  else
    match smsDriver cid (sms_senderPhone dto) s with
    | None => (s, no_driver_match)
    | Some (id, d) =>
        if truthy (dr_vehicleId d) then
          let (t, saved) :=
            savePosition jm (Some id) (smsPosition dto (default "" (dr_vehicleId d))) (Some cid) phone
              [("viaSms", AttrBool true)] (track s) in
          (s <| track := t |>, if bool_decide (is_Some saved) then sms_ok else rejected)
        else (s, no_driver_match)
    end.

(** ** The positions of the map *)

Record LiveRow := mkLiveRow {
  lr_vehicleId : string;
  lr_position : GpsPosition;
  lr_driverName : string;
  lr_displayLatitude : num;
  lr_displayLongitude : num;
  lr_minutesAgo : num
}.

(** The anchor is asked for where the last fix is suspect, at rest or without speed. *)
Definition wantsAnchor (p : GpsPosition) : bool :=
  p_suspect p || match p_speed p with None => true | Some v => num_ltb v (num_lit 5 10) end.

(** [lastGoodByVehicle], filled for the vehicles whose last fix is suspect. *)
Definition lastGood (s : RelayTables) (vid : string) (p : GpsPosition) : option GpsPosition :=
  if p_suspect p then latest (λ q, ofVehicle vid q && negb (p_suspect q)) (positions (track s)) else None.

(** The name of the driver of the position, where active. *)
Definition liveDriverName (s : RelayTables) (driverId : option string) : string :=
  match driverId ≫= λ id, contacts s !! id with
  | Some c =>
      if bool_decide (ct_deletedAt c = None) && ct_isActive c
         && negb (String.eqb (ct_firstName c) "") && negb (String.eqb (ct_lastName c) "")
      then ct_firstName c +:+ " " +:+ ct_lastName c
      else "Véhicule sans chauffeur assigné"
  | None => "Véhicule sans chauffeur assigné"
  end.

Definition liveRow (now : Z) (s : RelayTables) (vid : string) (p : GpsPosition) : LiveRow :=
  let anchor := if wantsAnchor p then computeAnchorByVehicle jm now (track s) vid else None in
  let good := lastGood s vid p in
  mkLiveRow vid p (liveDriverName s (p_driverId p))
    (match anchor with Some a => a.1 | None => match good with Some q => p_latitude q | None => p_latitude p end end)
    (match anchor with Some a => a.2 | None => match good with Some q => p_longitude q | None => p_longitude p end end)
    (minutes (now - p_timestamp p)).

Definition getLivePositions (cid : string) (now : Z) (s : RelayTables) : list LiveRow :=
  omap (λ kv, liveRow now s kv.1 <$> latest (ofVehicle kv.1) (positions (track s)))
    (find_many (λ _ v, bool_decide (vh_companyId v = cid) && bool_decide (vh_deletedAt v = None) && vh_isActive v)
       (vehicles (track s))).
End Relay.

(** ** The archive *)

Definition archiveRow (p : GpsPosition) : ArchivedPosition :=
  {| ar_latitude := p_latitude p; ar_longitude := p_longitude p; ar_speed := p_speed p; ar_heading := p_heading p;
     ar_altitude := p_altitude p; ar_accuracy := p_accuracy p; ar_suspect := p_suspect p;
     ar_timestamp := p_timestamp p; ar_deliveryId := p_deliveryId p; ar_vehicleId := p_vehicleId p;
     ar_driverId := p_driverId p |}.

(** DELETE ... RETURNING, then INSERT; the number of rows. *)
Definition archiveWhere (P : GpsPosition → bool) (s : RelayTables) : RelayTables * Z :=
  let moved := filter (λ p, P p = true) (positions (track s)) in
  (s <| track := (track s) <| positions := filter (λ p, P p = false) (positions (track s)) |> |>
     <| archived := archived s ++ map archiveRow moved |>, Z.of_nat (length moved)).

Definition tooRecent (date now : Z) : bool := now - 48 * 60 * 60 * 1000 <? date.

Definition archivePositionsBefore (date : Z) (cid : string) (now : Z) (s : RelayTables) : RelayTables * Z :=
  if tooRecent date now then (s, 0)
  else archiveWhere (λ p, bool_decide (p_companyId p = cid) && (p_timestamp p <? date)) s.

Definition archiveAllCompaniesPositionsBefore (date now : Z) (s : RelayTables) : RelayTables * Z :=
  if tooRecent date now then (s, 0) else archiveWhere (λ p, p_timestamp p <? date) s.

(** ** What is attributed, shown and kept *)

(** ** Phone numbers *)

Lemma digitsOnly_app a b : digitsOnly (a +:+ b) = digitsOnly a +:+ digitsOnly b.
Proof.
  induction a as [|c a IH]; [done|]. change (String c a +:+ b) with (String c (a +:+ b)). simpl.
  rewrite IH. by destruct (isDigit c).
Qed.

Lemma substring_app_r a b n m : String.substring (String.length a + n) m (a +:+ b) = String.substring n m b.
Proof. induction a as [|c a IH]; [done|]. exact IH. Qed.

Lemma length_append a b : String.length (a +:+ b) = (String.length a + String.length b)%nat.
Proof. induction a as [|c a IH]; [done|]. change (String c a +:+ b) with (String c (a +:+ b)). simpl. by rewrite IH. Qed.

(** The nine digits do not depend on what is written before them, nor on spaces. *)
Lemma tail_ignores_prefix prefix_ raw : (9 ≤ String.length (digitsOnly raw))%nat →
  normalizePhoneTail (prefix_ +:+ raw) = normalizePhoneTail raw.
Proof.
  intros Hl. unfold normalizePhoneTail. rewrite digitsOnly_app, length_append.
  replace (String.length (digitsOnly prefix_) + String.length (digitsOnly raw) - 9)%nat
    with (String.length (digitsOnly prefix_) + (String.length (digitsOnly raw) - 9))%nat by lia.
  apply substring_app_r.
Qed.

Lemma smsDriver_Some cid phone_ s id d : smsDriver cid phone_ s = Some (id, d) →
  drivers (track s) !! id = Some d ∧ smsCandidate cid s id d = true ∧ hasTail (normalizePhoneTail phone_) s id = true.
Proof.
  unfold smsDriver. intros H. apply find_some in H as [Hin Ht].
  apply list_elem_of_In, elem_of_find_many in Hin as [Hd Hc]. done.
Qed.

Section Relay.
Context (jm : JsMath).

Lemma savePosition_stores did dto cid src attrs s s' row :
  savePosition jm did dto cid src attrs s = (s', Some row) →
  p_vehicleId row = vehicleId dto ∧ p_driverId row = did ∧ p_latitude row = latitude dto ∧
  p_longitude row = longitude dto ∧ p_timestamp row = timestamp dto ∧ p_source row = src ∧ p_attributes row = attrs.
Proof.
  unfold savePosition. cbv zeta. repeat case_match; intros [= _ <-]; done.
Qed.

(** A relayed position is stored for the vehicle of an active driver of the
    company whose number ends as the sender's; otherwise nothing is stored. *)
Theorem sms_attributed cid dto s s' st : cid ≠ "" → ingestSmsRelayPosition jm cid dto s = (s', st) →
  match st with
  | sms_ok => ∃ id d c vid v row,
      drivers (track s) !! id = Some d ∧ dr_companyId d = cid ∧ dr_vehicleId d = Some vid ∧
      contacts s !! id = Some c ∧ ct_isActive c = true ∧ ct_deletedAt c = None ∧
      normalizePhoneTail <$> ct_phone c = Some (normalizePhoneTail (sms_senderPhone dto)) ∧
      vehicles (track s) !! vid = Some v ∧ vh_companyId v = cid ∧ vh_isActive v = true ∧ vh_positionSource v = phone ∧
      positions (track s') = positions (track s) ++ [row] ∧ p_vehicleId row = vid ∧ p_driverId row = Some id ∧
      p_latitude row = sms_latitude dto ∧ p_longitude row = sms_longitude dto ∧ p_timestamp row = sms_timestamp dto
  | _ => positions (track s') = positions (track s)
  end.
Proof.
  intros Hne. unfold ingestSmsRelayPosition. destruct (_ <? 9)%nat; [by intros [= <- <-]|].
  destruct (smsDriver cid (sms_senderPhone dto) s) as [[id d]|] eqn:Ed; [|by intros [= <- <-]].
  destruct (truthy (dr_vehicleId d)) eqn:Et; [|by intros [= <- <-]].
  destruct (dr_vehicleId d) as [vid|] eqn:Evd; [|done]. cbn [default].
  destruct (savePosition _ _ _ _ _ _ _) as [t saved] eqn:Es. intros [= <- <-].
  destruct (savePosition_guarded _ _ _ _ _ _ _ _ _ Es) as (_ & HP & HA & _).
  destruct saved as [row|]; cbn; [|by rewrite app_nil_r in HP].
  apply smsDriver_Some in Ed as (Hd & Hc & Hh). unfold smsCandidate, hasTail in Hc, Hh.
  destruct (contacts s !! id) as [c|] eqn:Ec; [|done]. cbn in Hh.
  repeat (apply andb_prop in Hc as [Hc ?H]). rewrite bool_decide_eq_true in *.
  destruct (ct_phone c) as [p|] eqn:Ep; [|done]. apply andb_prop in Hh as [_ Hh%String.eqb_eq].
  apply savePosition_stores in Es as (R1 & R2 & R3 & R4 & R5 & R6 & _).
  apply Forall_inv in HA. destruct HA as (v & Hv & Hact & _ & Hsrc & Hco & _). cbn in Hco.
  destruct Hco as [Hco _]; [by apply negb_true_iff, bool_decide_eq_false_2|]. injection Hco as Hco.
  exists id, d, c, vid, v, row. cbn in R1. rewrite R1 in Hv. rewrite R6 in Hsrc.
  split_and!; try done; [rewrite Ep; cbn; by rewrite Hh|by apply Hsrc].
Qed.

(** ** The positions of the map *)

(** One row for each active vehicle of the company that ever sent a position, and it shows its newest fix. *)
Theorem live_rows cid now s :
  NoDup (map lr_vehicleId (getLivePositions jm cid now s)) ∧
  (∀ r, r ∈ getLivePositions jm cid now s →
     (∃ v, vehicles (track s) !! lr_vehicleId r = Some v ∧ vh_companyId v = cid ∧ vh_isActive v = true ∧ vh_deletedAt v = None) ∧
     p_vehicleId (lr_position r) = lr_vehicleId r ∧ lr_position r ∈ positions (track s) ∧
     ∀ q, q ∈ positions (track s) → p_vehicleId q = lr_vehicleId r → p_timestamp q ≤ p_timestamp (lr_position r)).
Proof.
  unfold getLivePositions. set (vs := find_many _ _).
  assert (Hnd : NoDup vs.*1) by apply find_many_NoDup.
  assert (HE : ∀ r, r ∈ omap (λ kv, liveRow jm now s kv.1 <$> latest (ofVehicle kv.1) (positions (track s))) vs →
    ∃ kv p, kv ∈ vs ∧ latest (ofVehicle kv.1) (positions (track s)) = Some p ∧ r = liveRow jm now s kv.1 p).
  { intros r (kv & Hkv & Hr)%list_elem_of_omap. destruct (latest _ _) as [p|] eqn:El; [|done].
    injection Hr as <-. by exists kv, p. }
  split.
  - clearbody vs. revert Hnd HE. induction vs as [|kv vs IH]; intros Hnd HE; [constructor|].
    rewrite fmap_cons in Hnd. apply NoDup_cons in Hnd as [Hk Hnd]. cbn [omap list_omap].
    destruct (latest (ofVehicle kv.1) _) as [p|] eqn:El; cbn.
    2: { apply IH; [done|]. intros r Hr. destruct (HE r) as (x & q & Hx & Hq); [by cbn; rewrite El|].
         apply list_elem_of_omap in Hr as (y & Hy & Hr). destruct (latest (ofVehicle y.1) _) as [w|] eqn:Ew; [|done].
         injection Hr as <-. by exists y, w. }
    constructor.
    + intros (r & Hr & Hin)%list_elem_of_fmap. apply list_elem_of_omap in Hin as (y & Hy & Hin).
      destruct (latest (ofVehicle y.1) _) as [w|]; [|done]. injection Hin as <-. cbn in Hr. destruct Hk. rewrite Hr.
      by apply list_elem_of_fmap_2.
    + apply IH; [done|]. intros r Hr. apply list_elem_of_omap in Hr as (y & Hy & Hr).
      destruct (latest (ofVehicle y.1) _) as [w|] eqn:Ew; [|done]. injection Hr as <-. by exists y, w.
  - intros r Hr. apply HE in Hr as ([vid v] & p & Hin & Hp & ->). cbn [fst lr_vehicleId lr_position liveRow] in *.
    apply elem_of_find_many in Hin as [Hv Hok]. apply andb_prop in Hok as [[Hc Hd]%andb_prop Ha].
    rewrite bool_decide_eq_true in Hc. rewrite bool_decide_eq_true in Hd. apply latest_Some in Hp as (H1 & H2 & H3).
    unfold ofVehicle in H2. rewrite bool_decide_eq_true in H2.
    split_and!; [by exists v|done|done|]. intros q Hq Hqv. apply H3; [done|]. unfold ofVehicle. by rewrite bool_decide_eq_true.
Qed.

(** A suspect fix does not place the marker where the vehicle has a reliable one. *)
Lemma suspect_is_not_shown now s vid p q : p_suspect p = true → q ∈ positions (track s) → p_vehicleId q = vid →
  p_suspect q = false →
  let r := liveRow jm now s vid p in
  (∃ a, computeAnchorByVehicle jm now (track s) vid = Some a ∧ lr_displayLatitude r = a.1 ∧ lr_displayLongitude r = a.2) ∨
  (∃ g, g ∈ positions (track s) ∧ p_vehicleId g = vid ∧ p_suspect g = false ∧
        lr_displayLatitude r = p_latitude g ∧ lr_displayLongitude r = p_longitude g).
Proof.
  intros Hp Hq Hv Hg. unfold liveRow, wantsAnchor, lastGood. rewrite Hp. cbn.
  destruct (computeAnchorByVehicle jm now (track s) vid) as [a|]; [left; by exists a|right].
  destruct (latest _ _) as [g|] eqn:El.
  - apply latest_Some in El as (H1 & H2 & _). apply andb_prop in H2 as [H2 H3]. exists g.
    unfold ofVehicle in H2. rewrite bool_decide_eq_true in H2. apply negb_true_iff in H3. by split_and!.
  - pose proof (latest_None _ _ q El Hq) as HN. unfold ofVehicle in HN. by rewrite Hg, bool_decide_eq_true_2 in HN.
Qed.
End Relay.

(** ** The archive *)

Lemma split_by {A} (P : A → bool) l : l ≡ₚ filter (λ p, P p = false) l ++ filter (λ p, P p = true) l.
Proof.
  induction l as [|p l IH]; [done|]. rewrite !filter_cons.
  destruct (P p); [rewrite decide_False, decide_True by done|rewrite decide_True, decide_False by done; cbn; by rewrite <- IH].
  by rewrite <- Permutation_middle, <- IH.
Qed.

(** Each row that goes is in the archive, in order, and is counted; the rows of the
    last two days and those of the other companies stay. *)
Theorem archive_exact date cid now s : let '(s', n) := archivePositionsBefore date cid now s in
  ∃ moved, positions (track s) ≡ₚ positions (track s') ++ moved ∧ archived s' = archived s ++ map archiveRow moved ∧
    n = Z.of_nat (length moved) ∧
    Forall (λ p, p_companyId p = cid ∧ p_timestamp p < date ∧ p_timestamp p < now - 48 * 60 * 60 * 1000) moved ∧
    (date ≤ now - 48 * 60 * 60 * 1000 → Forall (λ p, p_companyId p = cid → date ≤ p_timestamp p) (positions (track s'))).
Proof.
  unfold archivePositionsBefore, tooRecent. destruct (Z.ltb_spec (now - 48 * 60 * 60 * 1000) date) as [Hd|Hd].
  { exists []. split_and!; [by rewrite app_nil_r|by rewrite app_nil_r|done|done|lia]. }
  unfold archiveWhere. set (P := λ p, bool_decide (p_companyId p = cid) && (p_timestamp p <? date)).
  exists (filter (λ p, P p = true) (positions (track s))).
  split_and!; [|done|done| |].
  - apply (split_by P).
  - apply Forall_forall. intros p [Hp _]%list_elem_of_filter. apply andb_prop in Hp as [Hc Ht%Z.ltb_lt].
    rewrite bool_decide_eq_true in Hc. split_and!; [done|done|lia].
  - intros _. cbn. apply Forall_forall. intros p [Hp _]%list_elem_of_filter Hc. unfold P in Hp.
    rewrite bool_decide_eq_true_2 in Hp by done. by apply Z.ltb_ge in Hp.
Qed.

(** ** Examples *)

Definition exPos (t : Z) (suspect : bool) : GpsPosition :=
  mkPosition (num_of_Z (-19)) (num_of_Z 47) None None None None suspect t "co" None "van" None phone [].

(** A vehicle whose only fix is suspect is drawn on that fix. *)
Lemma only_suspect_is_shown :
  let s := mkRelay (mkTracking {["van" := mkVehicle "co" true None phone]} ∅ ∅ ∅ ∅ [exPos 1000 true] [] ∅ ∅ noMetrics [] []) ∅ [] in
  (λ r, (p_suspect (lr_position r), lr_displayLatitude r, lr_displayLongitude r)) <$> getLivePositions coarseMath "co" 2000 s =
  [(true, num_of_Z (-19), num_of_Z 47)].
Proof. vm_compute. reflexivity. Qed.

(** Three ways to write one number. *)
Lemma one_number : normalizePhoneTail "034 12 345 67" = "341234567" ∧
  normalizePhoneTail "+261 34 12 345 67" = "341234567" ∧ normalizePhoneTail "0026134-1234567" = "341234567".
Proof. by vm_compute. Qed.
