(* ===== verification/FuelSummary.v ===== *)
(** * Fuel: the summary by period and the diagnostics of a day

    getConsumptionStats, getPeriodSummary with its calendar (mgMidnight,
    periodKeyStart, enumeratePeriods), getDailyReports and getGpsDiagnostics of
    modules/fuel-consumption/fuel-consumption.service.ts, on the tables of
    FuelLogs.v and DailyReports.v.

    The buckets of a summary are the days, weeks, months or years of Madagascar;
    each counts the points of its period, every point of the window is counted
    in one bucket, as long as the window holds at most four hundred periods. *)

From Stdlib Require Import SpecFloat.
From S2P Require Import Prelude JsString JsNum JsDate Geo Gps TrackingModel FuelPrices FuelLogs DailyReports DailyReportsProps.

#[local] Open Scope string_scope.
#[local] Open Scope list_scope.
#[local] Open Scope Z_scope.

(** A date of a query: its text and the instant it reads as. *)
Definition DateText : Type := string * option Z.

Definition parseDateOrThrow (raw : DateText) (fieldName : string) : result Z :=
  match raw.2 with
  | Some d => Ok d
  | None => Throw (BadRequestException ("Invalid " +:+ fieldName +:+ ": " +:+ quoted raw.1 +:+ " is not a valid date"))
  end.

(** An absent date and the empty text are the same to the code. *)
Definition given (d : option DateText) : option DateText :=
  match d with Some raw => if String.eqb raw.1 "" then None else d | None => None end.

(** ** Totals of the fuel logs *)

Definition sumOf {A} (f : A → num) (l : list A) : num := foldl (λ acc x, num_add acc (f x)) zero l.

Record ConsumptionStats := mkStats {
  cs_totalLiters : num;
  cs_totalKilometers : num;
  cs_totalCost : num;
  cs_averageConsumption : num;
  cs_anomalies : list (FuelLog * bool * list FuelReason);
  cs_logCount : nat
}.

Definition getConsumptionStats (cid : string) (vehicleId : option string) (s : FuelStore) : ConsumptionStats :=
  let l := sort_by fillDate
             (map snd (find_many (λ _ l, bool_decide (fl_companyId l = cid)
                                         && (negb (truthy vehicleId) || bool_decide (Some (fl_vehicleId l) = vehicleId)))
                         (logs s))) in
  let totalLiters := sumOf liters l in
  let totalKm := sumOf kilometers l in
  mkStats totalLiters totalKm (sumOf cost l)
    (if num_ltb zero totalKm then num_mul (num_div totalLiters totalKm) (num_of_Z 100) else zero)
    (map withDerivedAnomaly (filter (λ x, hasFuelAnomaly x = true) l)) (length l).

(** ** The calendar of Madagascar *)

Inductive GroupBy := day | week | month | year.
#[export] Instance GroupBy_eq_dec : EqDecision GroupBy.
Proof. solve_decision. Defined.

Definition MAX_BUCKETS (g : GroupBy) : nat :=
  match g with day => 92 | week => 53 | month => 24 | year => 12 end.

Definition MG_OFFSET_MS : Z := 3 * 60 * 60 * 1000.

Definition mgMidnight (y m d : Z) : Z := MakeDate (MakeDay y m d) 0 - MG_OFFSET_MS.

(** [getUTCDay]: 0 is Sunday. *)
Definition WeekDay (t : Z) : Z := (Day t + 4) mod 7.

Definition pad (n : Z) : string := pad_zeros 2 (string_of_Z n).
Definition localMarker (y m d : Z) : string := string_of_Z y +:+ "-" +:+ pad (m + 1) +:+ "-" +:+ pad d.

Record PeriodBounds := mkPeriod { pr_key : string; pr_start : Z; pr_end : Z; pr_localStart : string }.

Definition periodKeyStart (g : GroupBy) (d : Z) : PeriodBounds :=
  let local := d + MG_OFFSET_MS in
  let y := YearFromTime local in
  let m := MonthFromTime local in
  let dt := DateFromTime local in
  match g with
  | year => mkPeriod (string_of_Z y) (mgMidnight y 0 1) (mgMidnight (y + 1) 0 1) (localMarker y 0 1)
  | month =>
      mkPeriod (string_of_Z y +:+ "-" +:+ pad (m + 1)) (mgMidnight y m 1) (mgMidnight y (m + 1) 1) (localMarker y m 1)
  | week =>
      let mondayOffset := (WeekDay local + 6) mod 7 in
      let start := mgMidnight y m (dt - mondayOffset) in
      let sl := start + MG_OFFSET_MS in
      let mk := localMarker (YearFromTime sl) (MonthFromTime sl) (DateFromTime sl) in
      mkPeriod mk start (mgMidnight y m (dt - mondayOffset + 7)) mk
  | day =>
      let mk := localMarker y m dt in
      mkPeriod mk (mgMidnight y m dt) (mgMidnight y m (dt + 1)) mk
  end.

Fixpoint periodsFrom (fuel : nat) (g : GroupBy) (cursor : PeriodBounds) (to : Z) : list PeriodBounds :=
  match fuel with
  | O => []
  | S fuel =>
      if pr_start cursor <=? to then cursor :: periodsFrom fuel g (periodKeyStart g (pr_end cursor)) to else []
  end.

Definition enumeratePeriods (g : GroupBy) (from to : Z) : list PeriodBounds :=
  periodsFrom 400 g (periodKeyStart g from) to.

(** ** The summary *)

Inductive SummarySource := source_logs | source_gps.
#[export] Instance SummarySource_eq_dec : EqDecision SummarySource.
Proof. solve_decision. Defined.

Record SummaryQuery := mkQuery {
  q_groupBy : option GroupBy;
  q_source : option SummarySource;
  q_vehicleId : option string;
  q_from : option DateText;
  q_to : option DateText
}.

(** A fuel log or a daily report. *)
Record Point := mkPoint { ts : Z; pt_liters : num; pt_km : num; pt_cost : num; pt_anomaly : bool }.

(** [setUTCDate], [setUTCMonth], [setUTCFullYear] *)
Definition defaultFrom (g : GroupBy) (to : Z) : Z :=
  match g with
  | day => to - 30 * msPerDay
  | week => to - 7 * 12 * msPerDay
  | month => addMonths to (-11)
  | year => MakeDate (MakeDay (YearFromTime to - 4) (MonthFromTime to) (DateFromTime to)) (TimeWithinDay to)
  end.

Definition summaryWindow (q : SummaryQuery) (now : Z) : result (Z * Z) :=
  let g := default month (q_groupBy q) in
  match match given (q_to q) with Some raw => parseDateOrThrow raw "to" | None => Ok now end with
  | Throw e => Throw e
  | Ok to =>
      match given (q_from q) with
      | None => Ok (defaultFrom g to, to)
      | Some raw =>
          match parseDateOrThrow raw "from" with
          | Throw e => Throw e
          | Ok from => if to <? from then Throw (BadRequestException "`from` doit être antérieur à `to`") else Ok (from, to)
          end
      end
  end.

(** The periods, the start of the window and whether it was narrowed. *)
Definition clampPeriods (g : GroupBy) (from to : Z) : list PeriodBounds * Z * bool :=
  let periods := enumeratePeriods g from to in
  if (MAX_BUCKETS g <? length periods)%nat then
    let kept := drop (length periods - MAX_BUCKETS g) periods in
    (kept, match kept with p :: _ => pr_start p | [] => from end, true)
  else (periods, from, false).

Definition ofQuery (cid : string) (vehicleId : option string) (from to : Z) (rowCompany rowVehicle : string) (t : Z) : bool :=
  bool_decide (rowCompany = cid) && (from <=? t) && (t <=? to)
  && (negb (truthy vehicleId) || bool_decide (Some rowVehicle = vehicleId)).

Definition windowLogs (cid : string) (vehicleId : option string) (from to : Z) (s : FuelStore) : list FuelLog :=
  sort_by fillDate
    (map snd (find_many (λ _ l, ofQuery cid vehicleId from to (fl_companyId l) (fl_vehicleId l) (fillDate l)) (logs s))).

Definition windowReports (cid : string) (vehicleId : option string) (from to : Z) (r : ReportStore)
    : list (ReportKey * DailyFuelReport) :=
  sort_by (λ kr, kr.1.2)
    (filter (λ kr, ofQuery cid vehicleId from to (rp_companyId kr.2) kr.1.1.2 kr.1.2 = true) (map_to_list (reports r))).

Definition pointOfLog (l : FuelLog) : Point := mkPoint (fillDate l) (liters l) (kilometers l) (cost l) (hasFuelAnomaly l).
Definition pointOfReport (kr : ReportKey * DailyFuelReport) : Point :=
  mkPoint kr.1.2 (num_div (num_mul (rp_distanceKm kr.2) (rp_consumptionLPer100Km kr.2)) (num_of_Z 100))
    (rp_distanceKm kr.2) (rp_estimatedCost kr.2) (bool_decide (rp_gpsDataQuality kr.2 = suspicious)).

Definition resolveSource (cid : string) (q : SummaryQuery) (from to : Z) (s : FuelStore) : SummarySource :=
  match q_source q with
  | Some src => src
  | None =>
      if 0 <? count_where (λ _ l, ofQuery cid (q_vehicleId q) from to (fl_companyId l) (fl_vehicleId l) (fillDate l)) (logs s)
      then source_logs else source_gps
  end.

Definition pointsOf (src : SummarySource) (cid : string) (vehicleId : option string) (from to : Z) (s : FuelStore)
    (r : ReportStore) : list Point :=
  match src with
  | source_logs => map pointOfLog (windowLogs cid vehicleId from to s)
  | source_gps => map pointOfReport (windowReports cid vehicleId from to r)
  end.

(** [new Set(...).size], on numbers. *)
Definition distinctCount (l : list num) : nat :=
  length (foldl (λ seen x, if existsb (num_eqb x) seen then seen else seen ++ [x]) [] l).

Definition mixedSettingsOf (l : list DailyFuelReport) : bool :=
  let contributing := filter (λ r, num_ltb zero (rp_distanceKm r) = true) l in
  (1 <? distinctCount (map rp_consumptionLPer100Km contributing))%nat
  || (1 <? distinctCount (filter (λ p, num_ltb zero p = true) (omap rp_pricePerLiterUsed contributing)))%nat.

Record Agg := mkAgg { liters_ : num; km_ : num; cost_ : num; logCount_ : Z; anomalyCount_ : Z }.
Definition empty : Agg := mkAgg zero zero zero 0 0.

Definition addPoint (a : Agg) (pt : Point) : Agg :=
  mkAgg (num_add (liters_ a) (pt_liters pt)) (num_add (km_ a) (pt_km pt)) (num_add (cost_ a) (pt_cost pt))
    (logCount_ a + 1) (if pt_anomaly pt then anomalyCount_ a + 1 else anomalyCount_ a).

(** [byKey], a Map. *)
Definition aggregate (g : GroupBy) (periods : list PeriodBounds) (points : list Point) : gmap string Agg :=
  foldl (λ byKey pt, let k := pr_key (periodKeyStart g (ts pt)) in
                     <[k := addPoint (default empty (byKey !! k)) pt]> byKey)
    (foldl (λ byKey p, <[pr_key p := empty]> byKey) ∅ periods) points.

(** The figures shown of an aggregate. *)
Record Figures := mkFigures {
  totalLiters : num;
  totalKm : num;
  totalCost : num;
  avgConsumption : option num;
  costPerKm : option num;
  logCount : Z;
  anomalyCount : Z
}.
Definition figuresOf (a : Agg) : Figures :=
  let perKm x := if num_ltb zero (km_ a) then Some x else None in
  mkFigures (hundredths (liters_ a)) (hundredths (km_ a)) (Math_round (cost_ a))
    (perKm (hundredths (num_mul (num_div (liters_ a) (km_ a)) (num_of_Z 100))))
    (perKm (Math_round (num_div (cost_ a) (km_ a)))) (logCount_ a) (anomalyCount_ a).

Record Bucket := mkBucket { b_period : PeriodBounds; b_figures : Figures }.
Definition bucketStart (b : Bucket) : string := pr_localStart (b_period b) +:+ "T00:00:00.000Z".
Definition bucketEnd (b : Bucket) : string := toISOString (pr_end (b_period b)).

Record PeriodSummary := mkPeriodSummary {
  ps_groupBy : GroupBy;
  ps_source : SummarySource;
  ps_mixedSettings : bool;
  ps_from : Z;
  ps_to : Z;
  ps_clamped : bool;
  ps_buckets : list Bucket;
  ps_totals : Figures
}.
Definition activePeriodCount (r : PeriodSummary) : nat :=
  length (filter (λ b, 0 < logCount (b_figures b)) (ps_buckets r)).

(** The totals: liters, km and cost by [reduce], the anomalies by [filter]. *)
Definition totalsOf (points : list Point) : Figures :=
  figuresOf (mkAgg (sumOf pt_liters points) (sumOf pt_km points) (sumOf pt_cost points) (Z.of_nat (length points))
               (Z.of_nat (length (filter (λ p, pt_anomaly p = true) points)))).

Definition getPeriodSummary (cid : string) (q : SummaryQuery) (now : Z) (s : FuelStore) (r : ReportStore)
    : result PeriodSummary :=
  match summaryWindow q now with
  | Throw e => Throw e
  | Ok (from, to) =>
      let g := default month (q_groupBy q) in
      let '(periods, from, clamped) := clampPeriods g from to in
      let source := resolveSource cid q from to s in
      let points := pointsOf source cid (q_vehicleId q) from to s r in
      let mixed := match source with
                   | source_gps => mixedSettingsOf (map snd (windowReports cid (q_vehicleId q) from to r))
                   | source_logs => false
                   end in
      let byKey := aggregate g periods points in
      Ok (mkPeriodSummary g source mixed from to clamped
            (map (λ p, mkBucket p (figuresOf (default empty (byKey !! pr_key p)))) periods) (totalsOf points))
  end.

(** ** The daily reports listed, and the diagnostics of a day *)

Definition getDailyReports (cid : string) (reportDate : option DateText) (r : ReportStore)
    : result (list (ReportKey * DailyFuelReport)) :=
  let find P := sort_by (λ kr, - kr.1.2)
                  (filter (λ kr : ReportKey * DailyFuelReport, rp_companyId kr.2 = cid ∧ P kr.1.2 = true)
                     (map_to_list (reports r))) in
  match given reportDate with
  | None => Ok (find (λ _, true))
  | Some raw =>
      match parseDateOrThrow raw "reportDate" with
      | Ok d => Ok (find (λ t, (d <=? t) && (t <? d + msPerDay)))
      | Throw e => Throw e
      end
  end.

Definition dateUtcWindow (date : Z) : Z * Z := (utcDay date, utcDay date + 24 * 60 * 60 * 1000).

(** What the reports of the day add up to, for a vehicle. *)
Record ReportSum := mkReportSum { rs_distanceKm : num; rs_fuelType : option string; rs_pricePerLiterUsed : option num }.

Definition addReport (m : gmap string ReportSum) (kr : ReportKey * DailyFuelReport) : gmap string ReportSum :=
  let vid := kr.1.1.2 in
  let prev := m !! vid in
  <[vid := mkReportSum (num_add (default zero (rs_distanceKm <$> prev)) (rp_distanceKm kr.2))
             (Some (rp_fuelType kr.2))
             (match rp_pricePerLiterUsed kr.2 with Some p => Some p | None => prev ≫= rs_pricePerLiterUsed end)]> m.

Definition reportByVehicle (cid : string) (targetDate : Z) (r : ReportStore) : gmap string ReportSum :=
  let (gte, lt_) := dateUtcWindow targetDate in
  foldl addReport ∅
    (filter (λ kr, rp_companyId kr.2 = cid ∧ gte ≤ kr.1.2 ∧ kr.1.2 < lt_) (map_to_list (reports r))).

Record VehicleDiag := mkDiag {
  vd_vehicleId : string;
  vd_vehiclePlate : string;
  vd_driver : option (string * string);  (** id and name *)
  vd_fuelType : option string;
  vd_vehicleFuelTypeRaw : option string;
  vd_theoreticalConsumption : option num;
  vd_report : option ReportSum;
  vd_fixCount : nat;
  vd_validCount : nat;
  vd_suspectCount : nat;
  vd_spanSec : num;
  vd_avgGapSec : num;
  vd_maxGapSec : num;
  vd_longGapCount : nat;
  vd_coveragePercent : num;
  vd_rawDistanceKm : num;
  vd_filteredDistanceKm : num;
  vd_accuracyMin : option num;
  vd_accuracyMax : option num;
  vd_accuracyAvg : option num;
  vd_speedMaxMs : option num;
  vd_movingCount : nat;
  vd_speedReportedCount : nat
}.

Definition tenths (x : num) : num := num_div (Math_round (num_mul x (num_of_Z 10))) (num_of_Z 10).

(** [l.length ? Math.max(...l) : null], [Math.min], the average *)
Definition extremum (f : num → num → num) (l : list num) : option num :=
  match l with [] => None | x :: l => Some (foldl f x l) end.
Definition average (l : list num) : option num :=
  match l with [] => None | _ => Some (num_div (sumOf id l) (num_of_Z (Z.of_nat (length l)))) end.

(** [f] of each pair of neighbours. *)
Fixpoint pairwise {A B} (f : A → A → B) (l : list A) : list B :=
  match l with a :: (b :: _) as rest => f a b :: pairwise f rest | _ => [] end.

Section Diagnostics.
Context (jm : JsMath).

Definition vehicleDiag (cid : string) (byReport : gmap string ReportSum) (r : ReportStore)
    (kg : string * list GpsPosition) : VehicleDiag :=
  let (vid, group) := kg in
  let valid := filter (λ p, p_suspect p = false) group in
  let rawKm := sumOf id (pairwise (λ a b, km (haversineDistance jm (p_latitude a) (p_longitude a)
                                                (p_latitude b) (p_longitude b))) valid) in
  let filteredKm := km (computeFilteredDistance jm (map fixOf valid)) in
  let spanSec := match valid, last valid with
                 | a :: _ :: _, Some b => secs (p_timestamp b - p_timestamp a)
                 | _, _ => zero
                 end in
  let gaps := pairwise (λ a b, secs (p_timestamp b - p_timestamp a)) valid in
  let coveredGapSec := sumOf (λ g, Math_min g (num_of_Z 300)) gaps in
  let accuracies := omap p_accuracy valid in
  let speeds := omap p_speed valid in
  let driver := reportDriverId group None ≫= λ did,
                  reportDrivers r !! did ≫= λ d, if bool_decide (rd_companyId d = cid) then Some (did, fullName d) else None in
  let vehicle := reportVehicles r !! vid ≫= λ v, if bool_decide (rv_companyId v = cid) then Some v else None in
  {| vd_vehicleId := vid;
     vd_vehiclePlate := default "N/A" (rv_licensePlate <$> vehicle);
     vd_driver := driver;
     vd_fuelType := (λ v, normalizeFuelType (Some (rv_fuelType v))) <$> vehicle;
     vd_vehicleFuelTypeRaw := rv_fuelType <$> vehicle;
     vd_theoreticalConsumption := vehicle ≫= rv_theoreticalConsumption;
     vd_report := byReport !! vid;
     vd_fixCount := length group;
     vd_validCount := length valid;
     vd_suspectCount := length group - length valid;
     vd_spanSec := Math_round spanSec;
     vd_avgGapSec := Math_round (default zero (average gaps));
     vd_maxGapSec := Math_round (default zero (extremum Math_max gaps));
     vd_longGapCount := length (filter (λ g, num_ltb (num_of_Z 60) g = true) gaps);
     vd_coveragePercent :=
       if num_ltb zero spanSec
       then Math_min (num_of_Z 100) (Math_round (num_mul (num_div coveredGapSec spanSec) (num_of_Z 100)))
       else zero;
     vd_rawDistanceKm := hundredths rawKm;
     vd_filteredDistanceKm := hundredths filteredKm;
     vd_accuracyMin := extremum Math_min accuracies;
     vd_accuracyMax := extremum Math_max accuracies;
     vd_accuracyAvg := tenths <$> average accuracies;
     vd_speedMaxMs := tenths <$> extremum Math_max speeds;
     vd_movingCount := length (filter (λ v, num_ltb (num_of_Z 1) v = true) speeds);
     vd_speedReportedCount := length speeds |}.

Record Diagnostics := mkDiagnostics {
  dg_date : Z;
  dg_bounds : Z * Z;
  dg_totalPositions : nat;
  dg_unattributedPositions : nat;
  dg_vehicles : list VehicleDiag
}.

Definition getGpsDiagnostics (cid : string) (date : option DateText) (now : Z) (r : ReportStore) : result Diagnostics :=
  match match given date with Some raw => parseDateOrThrow raw "date" | None => Ok now end with
  | Throw e => Throw e
  | Ok targetDate =>
      let positions := sort_by p_timestamp (filter (λ p, p_companyId p = cid ∧ inDay targetDate p = true) (trace r)) in
      let attributed := filter (λ p, p_vehicleId p ≠ "") positions in
      Ok (mkDiagnostics targetDate (getMadagascarDayBounds targetDate) (length positions)
            (length positions - length attributed)
            (map (vehicleDiag cid (reportByVehicle cid targetDate r) r) (groupByVehicle attributed)))
  end.
End Diagnostics.

(** ** Properties of the calendar *)

Lemma civil_day t : MakeDay (YearFromTime t) (MonthFromTime t) (DateFromTime t) = Day t.
Proof.
  pose proof (monthOf_range (isLeapYear (YearFromTime t)) (DayWithinYear t)) as Hm. change (monthOf _ _) with (MonthFromTime t) in Hm.
  unfold MakeDay, DateFromTime. rewrite Z.div_small, Z.mod_small by lia. rewrite Z.add_0_r. unfold DayWithinYear. lia.
Qed.

Lemma MakeDay_shift y m d k : MakeDay y m (d + k) = MakeDay y m d + k.
Proof. unfold MakeDay. lia. Qed.

Lemma YearFromDay_unique y d : DayFromYear y ≤ d < DayFromYear (y + 1) → YearFromDay d = y.
Proof.
  assert (Hmono : ∀ a b, a ≤ b → DayFromYear a ≤ DayFromYear b).
  { intros a b. unfold DayFromYear. Z.to_euclidean_division_equations. lia. }
  intros H. pose proof (YearFromDay_spec d) as Hy. destruct (Z.lt_trichotomy (YearFromDay d) y) as [Hlt|[->|Hlt]]; [|done|].
  - specialize (Hmono (YearFromDay d + 1) y). lia.
  - specialize (Hmono (y + 1) (YearFromDay d)). lia.
Qed.

Lemma monthStart_mono leap a b : 0 ≤ a ≤ 11 → 0 ≤ b ≤ 11 → a < b → monthStart leap (a + 1) ≤ monthStart leap b.
Proof. intros Ha Hb. month_case Ha; month_case Hb; destruct leap; cbv [monthStart Z.add Pos.add Pos.succ]; lia. Qed.

Lemma monthOf_unique leap m d : 0 ≤ m ≤ 11 → 0 ≤ d < monthStart leap 12 → monthStart leap m ≤ d < monthStart leap (m + 1) →
  monthOf leap d = m.
Proof.
  intros Hm Hd H. destruct (monthOf_spec leap d Hd) as (Hr & Hl & Hu).
  destruct (Z.lt_trichotomy (monthOf leap d) m) as [Hlt|[->|Hlt]]; [|done|].
  - pose proof (monthStart_mono leap (monthOf leap d) m). lia.
  - pose proof (monthStart_mono leap m (monthOf leap d)). lia.
Qed.

(** The local day, and the first day of its period and of the next one. *)
Definition localDay (t : Z) : Z := Day (t + MG_OFFSET_MS).

Definition firstDay (g : GroupBy) (d : Z) : Z :=
  let y := YearFromDay d in
  match g with
  | day => d
  | week => d - (d + 3) mod 7
  | month => DayFromYear y + monthStart (isLeapYear y) (monthOf (isLeapYear y) (d - DayFromYear y))
  | year => DayFromYear y
  end.
Definition nextDay (g : GroupBy) (d : Z) : Z :=
  let y := YearFromDay d in
  match g with
  | day => d + 1
  | week => d - (d + 3) mod 7 + 7
  | month => DayFromYear y + monthStart (isLeapYear y) (monthOf (isLeapYear y) (d - DayFromYear y) + 1)
  | year => DayFromYear (y + 1)
  end.

Lemma dayOfYear_range d : 0 ≤ d - DayFromYear (YearFromDay d) < monthStart (isLeapYear (YearFromDay d)) 12.
Proof. pose proof (YearFromDay_spec d) as H. rewrite DayFromYear_succ in H. cbn [monthStart]. lia. Qed.

Lemma firstDay_le g d : firstDay g d ≤ d < nextDay g d.
Proof.
  destruct g; cbn [firstDay nextDay].
  - lia.
  - pose proof (Z.mod_pos_bound (d + 3) 7). lia.
  - pose proof (monthOf_spec _ _ (dayOfYear_range d)). lia.
  - apply YearFromDay_spec.
Qed.

(** The shortest periods, in days. *)
Definition shortestDays (g : GroupBy) : Z := match g with day => 1 | week => 7 | month => 28 | year => 365 end.

Lemma period_length g d : firstDay g d + shortestDays g ≤ nextDay g d.
Proof.
  destruct g; cbn [firstDay nextDay shortestDays]; [lia|lia| |rewrite DayFromYear_succ; case_match; lia].
  pose proof (monthOf_range (isLeapYear (YearFromDay d)) (d - DayFromYear (YearFromDay d))) as Hm.
  pose proof (daysInMonth_range (isLeapYear (YearFromDay d)) _ Hm) as HR. unfold daysInMonth in HR. lia.
Qed.

Lemma month_of_month d e : firstDay month d ≤ e < nextDay month d →
  YearFromDay e = YearFromDay d ∧
  monthOf (isLeapYear (YearFromDay d)) (e - DayFromYear (YearFromDay d))
  = monthOf (isLeapYear (YearFromDay d)) (d - DayFromYear (YearFromDay d)).
Proof.
  cbn [firstDay nextDay]. set (y := YearFromDay d). set (m := monthOf _ _). intros H.
  assert (Hm : 0 ≤ m ≤ 11) by apply monthOf_range.
  assert (H0 : 0 ≤ monthStart (isLeapYear y) m) by (clear H; clearbody m; month_case Hm; destruct (isLeapYear y); done).
  assert (H12 : monthStart (isLeapYear y) (m + 1) ≤ monthStart (isLeapYear y) 12)
    by (clear H; clearbody m; month_case Hm; destruct (isLeapYear y); done).
  assert (E12 : monthStart (isLeapYear y) 12 = 365 + (if isLeapYear y then 1 else 0)) by reflexivity.
  assert (Hy : YearFromDay e = y) by (apply YearFromDay_unique; rewrite DayFromYear_succ; lia).
  split; [done|]. apply monthOf_unique; lia.
Qed.

(** Every field of a period depends on the local day only. *)
Lemma year_local t : YearFromTime (t + MG_OFFSET_MS) = YearFromDay (localDay t).
Proof. done. Qed.
Lemma month_local t :
  MonthFromTime (t + MG_OFFSET_MS)
  = monthOf (isLeapYear (YearFromDay (localDay t))) (localDay t - DayFromYear (YearFromDay (localDay t))).
Proof. done. Qed.

Definition midnightOf (d : Z) : Z := MakeDate d 0 - MG_OFFSET_MS.

Lemma localDay_midnight d : localDay (midnightOf d) = d.
Proof. unfold localDay, midnightOf, MakeDate, Day, msPerDay, MG_OFFSET_MS. Z.to_euclidean_division_equations. lia. Qed.

Lemma midnight_local d t : midnightOf d ≤ t ↔ d ≤ localDay t.
Proof. unfold midnightOf, localDay, MakeDate, Day, msPerDay, MG_OFFSET_MS. Z.to_euclidean_division_equations. lia. Qed.

Lemma monday t : (WeekDay t + 6) mod 7 = (Day t + 3) mod 7.
Proof. unfold WeekDay. rewrite Zplus_mod_idemp_l. replace (Day t + 4 + 6) with (Day t + 3 + 1 * 7) by lia. apply Z_mod_plus_full. Qed.

Lemma period_bounds g t : pr_start (periodKeyStart g t) = midnightOf (firstDay g (localDay t)) ∧
  pr_end (periodKeyStart g t) = midnightOf (nextDay g (localDay t)).
Proof.
  pose proof (civil_day (t + MG_OFFSET_MS)) as Hc. change (Day (t + MG_OFFSET_MS)) with (localDay t) in Hc.
  unfold midnightOf. destruct g; cbv beta delta [periodKeyStart] zeta; cbn [pr_start pr_end firstDay nextDay]; unfold mgMidnight.
  - by rewrite MakeDay_shift, Hc.
  - rewrite monday. change (Day (t + MG_OFFSET_MS)) with (localDay t).
    revert Hc. generalize (DateFromTime (t + MG_OFFSET_MS)) (MonthFromTime (t + MG_OFFSET_MS)) (YearFromTime (t + MG_OFFSET_MS)).
    intros dt m y Hc. generalize ((localDay t + 3) mod 7). intros x.
    change (dt - x) with (dt + - x). rewrite !MakeDay_shift, Hc. done.
  - rewrite month_local, year_local. set (y := YearFromDay _). set (m := monthOf _ _).
    assert (Hm : 0 ≤ m ≤ 11) by apply monthOf_range. unfold MakeDay. rewrite Z.div_small, Z.mod_small by lia.
    rewrite Z.add_0_r. split; [f_equal; f_equal; lia|]. destruct (decide (m = 11)) as [->|Hne].
    + change ((11 + 1) / 12) with 1. change ((11 + 1) mod 12) with 0. rewrite DayFromYear_succ. cbn [monthStart]. f_equal. f_equal.
      change (11 + 1) with 12. cbn [monthStart]. destruct (isLeapYear y), (isLeapYear (y + 1)); lia.
    + rewrite Z.div_small, Z.mod_small by lia. rewrite Z.add_0_r. f_equal. f_equal. lia.
  - rewrite year_local. unfold MakeDay. cbn [monthStart Z.div Z.modulo]. rewrite !Z.add_0_r. split; f_equal; f_equal; cbn; lia.
Qed.

Lemma date_local t :
  let d := localDay t in
  let leap := isLeapYear (YearFromDay d) in
  DateFromTime (t + MG_OFFSET_MS) = d - DayFromYear (YearFromDay d) - monthStart leap (monthOf leap (d - DayFromYear (YearFromDay d))) + 1.
Proof. done. Qed.

Lemma week_record v : periodKeyStart week v =
  let sl := pr_start (periodKeyStart week v) + MG_OFFSET_MS in
  let mk := localMarker (YearFromTime sl) (MonthFromTime sl) (DateFromTime sl) in
  mkPeriod mk (pr_start (periodKeyStart week v)) (pr_end (periodKeyStart week v)) mk.
Proof. cbv beta delta [periodKeyStart] zeta iota. cbn [pr_start pr_end]. reflexivity. Qed.

(** A week is known by its first day. *)
Lemma period_week t u : firstDay week (localDay u) = firstDay week (localDay t) → periodKeyStart week u = periodKeyStart week t.
Proof.
  intros E. destruct (period_bounds week t) as [St Et], (period_bounds week u) as [Su Eu].
  assert (E' : nextDay week (localDay u) = nextDay week (localDay t)) by (cbn [firstDay nextDay] in *; lia).
  rewrite E' in Eu. rewrite <- Et in Eu. rewrite E in Su. rewrite <- St in Su. clear St Et E E'.
  rewrite (week_record u), Su, Eu. symmetry. apply week_record.
Qed.

(** An instant lies in its period. *)
Lemma period_holds g t : pr_start (periodKeyStart g t) ≤ t < pr_end (periodKeyStart g t).
Proof.
  destruct (period_bounds g t) as [-> ->]. pose proof (firstDay_le g (localDay t)). pose proof (midnight_local (firstDay g (localDay t)) t).
  pose proof (midnight_local (nextDay g (localDay t)) t). lia.
Qed.

(** Two instants of one period have the same one. *)
Lemma period_same g t u : pr_start (periodKeyStart g t) ≤ u < pr_end (periodKeyStart g t) →
  periodKeyStart g u = periodKeyStart g t.
Proof.
  destruct (period_bounds g t) as [-> ->]. intros [H1 H2].
  assert (H : firstDay g (localDay t) ≤ localDay u < nextDay g (localDay t)).
  { rewrite midnight_local in H1. split; [done|]. apply Z.lt_nge. rewrite <- midnight_local. lia. }
  clear H1 H2. destruct g.
  - cbn [firstDay nextDay] in H. assert (E : localDay u = localDay t) by lia.
    cbv beta delta [periodKeyStart] zeta iota. by rewrite !date_local, !month_local, !year_local, E.
  - apply period_week. cbn [firstDay nextDay] in *. Z.to_euclidean_division_equations. lia.
  - apply month_of_month in H as [Hy Hm]. cbv beta delta [periodKeyStart] zeta iota. by rewrite !month_local, !year_local, Hy, Hm.
  - assert (E : YearFromDay (localDay u) = YearFromDay (localDay t)) by (by apply YearFromDay_unique).
    cbv beta delta [periodKeyStart] zeta iota. by rewrite !year_local, E.
Qed.

(** ** Keys *)

Lemma append_inj a : ∀ a' s s', String.length s = String.length s' → a +:+ s = a' +:+ s' → a = a' ∧ s = s'.
Proof.
  assert (HL : ∀ x y, String.length (x +:+ y) = (String.length x + String.length y)%nat).
  { induction x as [|c x IH]; intros y; cbn; [done|]. by rewrite <- IH. }
  induction a as [|c a IH]; intros [|c' a'] s s' Hl E.
  - done.
  - exfalso. change (s = String c' (a' +:+ s')) in E. subst s. cbn in Hl. rewrite HL in Hl. lia.
  - exfalso. change (String c (a +:+ s) = s') in E. subst s'. cbn in Hl. rewrite HL in Hl. lia.
  - change (String c (a +:+ s) = String c' (a' +:+ s')) in E. injection E as -> E. by destruct (IH a' s s' Hl E) as [-> ->].
Qed.

Lemma pad_spec n : 0 ≤ n < 32 → String.length (pad n) = 2%nat ∧ digitsValue (pad n) = n.
Proof.
  intros Hn. assert (HF : Forall (λ n, String.length (pad n) = 2%nat ∧ digitsValue (pad n) = n) (seqZ 0 32)).
  { apply (bool_decide_unpack _). vm_compute. exact I. }
  rewrite Forall_forall in HF. apply HF. apply elem_of_seqZ. lia.
Qed.

Lemma pad_inj n n' : 0 ≤ n < 32 → 0 ≤ n' < 32 → pad n = pad n' → n = n'.
Proof. intros Hn Hn' E. destruct (pad_spec n Hn) as [_ H], (pad_spec n' Hn') as [_ H']. by rewrite <- H, <- H', E. Qed.

Lemma dashed_inj a a' n n' : 0 ≤ n < 32 → 0 ≤ n' < 32 → a +:+ "-" +:+ pad n = a' +:+ "-" +:+ pad n' → a = a' ∧ n = n'.
Proof.
  intros Hn Hn' E. apply append_inj in E as [-> E].
  - split; [done|]. apply (pad_inj n n' Hn Hn'). by apply (inj (String.append "-")).
  - change (S (String.length (pad n)) = S (String.length (pad n'))). by rewrite (proj1 (pad_spec n Hn)), (proj1 (pad_spec n' Hn')).
Qed.

Lemma append_assoc_string a b c : (a +:+ b) +:+ c = a +:+ b +:+ c.
Proof. induction a as [|x a IH]; [done|]. change (String x ((a +:+ b) +:+ c) = String x (a +:+ b +:+ c)). by rewrite IH. Qed.

Lemma localMarker_inj y m d y' m' d' : 0 ≤ m ≤ 11 → 0 ≤ m' ≤ 11 → 1 ≤ d ≤ 31 → 1 ≤ d' ≤ 31 →
  localMarker y m d = localMarker y' m' d' → y = y' ∧ m = m' ∧ d = d'.
Proof.
  unfold localMarker. intros Hm Hm' Hd Hd' E.
  assert (E' : (string_of_Z y +:+ "-" +:+ pad (m + 1)) +:+ "-" +:+ pad d = (string_of_Z y' +:+ "-" +:+ pad (m' + 1)) +:+ "-" +:+ pad d')
    by (rewrite !append_assoc_string; exact E).
  apply dashed_inj in E' as [E1 ->]; [|lia..]. apply dashed_inj in E1 as [E1 E2]; [|lia..].
  unfold string_of_Z in E1. apply (inj pretty) in E1. split_and!; [done|lia|done].
Qed.

Lemma civil_ranges t : 0 ≤ MonthFromTime t ≤ 11 ∧ 1 ≤ DateFromTime t ≤ 31.
Proof.
  assert (Hm : 0 ≤ MonthFromTime t ≤ 11) by apply monthOf_range. split; [done|].
  pose proof (DayWithinYear_range t) as Hy. pose proof (daysInMonth_range (isLeapYear (YearFromTime t)) _ Hm) as HR. unfold daysInMonth in HR.
  destruct (monthOf_spec (isLeapYear (YearFromTime t)) (DayWithinYear t)) as (_ & H1 & H2); [exact Hy|].
  change (monthOf _ _) with (MonthFromTime t) in H1, H2. unfold DateFromTime. lia.
Qed.

(** The fields of the other periods, from the date. *)
Definition periodOfDate (g : GroupBy) (y m dt : Z) : PeriodBounds :=
  match g with
  | year => mkPeriod (string_of_Z y) (mgMidnight y 0 1) (mgMidnight (y + 1) 0 1) (localMarker y 0 1)
  | month => mkPeriod (string_of_Z y +:+ "-" +:+ pad (m + 1)) (mgMidnight y m 1) (mgMidnight y (m + 1) 1) (localMarker y m 1)
  | _ => mkPeriod (localMarker y m dt) (mgMidnight y m dt) (mgMidnight y m (dt + 1)) (localMarker y m dt)
  end.

Lemma period_of_date g t : g ≠ week →
  periodKeyStart g t = periodOfDate g (YearFromTime (t + MG_OFFSET_MS)) (MonthFromTime (t + MG_OFFSET_MS)) (DateFromTime (t + MG_OFFSET_MS)).
Proof. intros Hg. destruct g; [reflexivity|done|reflexivity..]. Qed.

Lemma date_key_inj g y m d y' m' d' : g ≠ week → 0 ≤ m ≤ 11 → 0 ≤ m' ≤ 11 → 1 ≤ d ≤ 31 → 1 ≤ d' ≤ 31 →
  pr_key (periodOfDate g y m d) = pr_key (periodOfDate g y' m' d') → periodOfDate g y m d = periodOfDate g y' m' d'.
Proof.
  intros Hg Hm Hm' Hd Hd'. destruct g; cbn [periodOfDate pr_key]; [|done|..]; intros E.
  - by apply localMarker_inj in E as (-> & -> & ->).
  - apply dashed_inj in E as [Ey Em]; [|lia..]. unfold string_of_Z in Ey. apply (inj pretty) in Ey as ->.
    by assert (m = m') as -> by lia.
  - unfold string_of_Z in E. by apply (inj pretty) in E as ->.
Qed.

Lemma week_key_inj t u : pr_key (periodKeyStart week t) = pr_key (periodKeyStart week u) →
  firstDay week (localDay t) = firstDay week (localDay u).
Proof.
  rewrite (week_record t), (week_record u). rewrite (proj1 (period_bounds week t)), (proj1 (period_bounds week u)).
  cbv zeta. cbn [pr_key]. intros E. apply localMarker_inj in E as (Ey & Em & Ed); [|apply civil_ranges..].
  rewrite <- (localDay_midnight (firstDay week (localDay t))), <- (localDay_midnight (firstDay week (localDay u))).
  unfold localDay at 1 3. by rewrite <- !civil_day, Ey, Em, Ed.
Qed.

Lemma key_inj g t u : pr_key (periodKeyStart g t) = pr_key (periodKeyStart g u) → periodKeyStart g t = periodKeyStart g u.
Proof.
  intros E. destruct (decide (g = week)) as [->|Hg]; [by apply period_week, week_key_inj|].
  destruct (civil_ranges (t + MG_OFFSET_MS)), (civil_ranges (u + MG_OFFSET_MS)).
  rewrite !period_of_date in E |- * by done. by apply date_key_inj.
Qed.

(** ** The periods of a window *)

Definition holds (p : PeriodBounds) (t : Z) : Prop := pr_start p ≤ t < pr_end p.
#[export] Instance holds_dec p t : Decision (holds p t).
Proof. unfold holds. apply _. Defined.

Section Periods.
Context (g : GroupBy).
Implicit Types (l : list PeriodBounds).

Definition ordered : list PeriodBounds → Prop := StronglySorted (λ a b, pr_end a ≤ pr_start b).
Definition isPeriod (p : PeriodBounds) : Prop := ∃ x, p = periodKeyStart g x.

Lemma holds_period p t : isPeriod p → holds p t ↔ periodKeyStart g t = p.
Proof.
  intros [x ->]. split; [apply period_same|]. intros <-. apply period_holds.
Qed.

Lemma next_start t : pr_start (periodKeyStart g (pr_end (periodKeyStart g t))) = pr_end (periodKeyStart g t).
Proof.
  set (e := pr_end (periodKeyStart g t)). pose proof (period_holds g e) as He. pose proof (period_holds g t) as Ht. fold e in Ht.
  destruct (decide (pr_start (periodKeyStart g e) = e)) as [|Hne]; [done|exfalso].
  assert (E1 : periodKeyStart g (e - 1) = periodKeyStart g e) by (apply period_same; lia).
  assert (E2 : periodKeyStart g (e - 1) = periodKeyStart g t) by (apply period_same; fold e; lia).
  rewrite <- E1, E2 in He. fold e in He. lia.
Qed.

Lemma shortest_period t : pr_start (periodKeyStart g t) + shortestDays g * msPerDay ≤ pr_end (periodKeyStart g t).
Proof.
  destruct (period_bounds g t) as [-> ->]. pose proof (period_length g (localDay t)). unfold midnightOf, MakeDate, msPerDay. lia.
Qed.

Lemma periodsFrom_elem fuel to : ∀ t p, p ∈ periodsFrom fuel g (periodKeyStart g t) to →
  isPeriod p ∧ pr_start (periodKeyStart g t) ≤ pr_start p ≤ to.
Proof.
  induction fuel as [|fuel IH]; intros t p Hp; cbn in Hp; [by apply elem_of_nil in Hp|].
  destruct (Z.leb_spec (pr_start (periodKeyStart g t)) to); [|by apply elem_of_nil in Hp].
  apply elem_of_cons in Hp as [->|Hp]; [split; [by eexists|lia]|].
  apply IH in Hp as [H1 H2]. split; [done|]. rewrite next_start in H2. pose proof (period_holds g t). lia.
Qed.

Lemma periodsFrom_ordered fuel to : ∀ t, ordered (periodsFrom fuel g (periodKeyStart g t) to).
Proof.
  induction fuel as [|fuel IH]; intros t; cbn; [constructor|]. case_match; [|constructor].
  constructor; [apply IH|]. apply Forall_forall. intros p Hp%periodsFrom_elem. rewrite next_start in Hp. lia.
Qed.

Lemma periodsFrom_adjacent fuel to : ∀ t i a b, periodsFrom fuel g (periodKeyStart g t) to !! i = Some a →
  periodsFrom fuel g (periodKeyStart g t) to !! S i = Some b → pr_end a = pr_start b.
Proof.
  induction fuel as [|fuel IH]; intros t i a b; cbn; [done|]. case_match; [|done].
  destruct i as [|i]; cbn; [|apply IH]. intros [= <-]. destruct fuel as [|fuel]; cbn; [done|]. case_match; [|done].
  intros [= <-]. by rewrite next_start.
Qed.

Lemma periodsFrom_covers fuel to x : ∀ t, pr_start (periodKeyStart g t) ≤ x ≤ to →
  x < pr_start (periodKeyStart g t) + Z.of_nat fuel * (shortestDays g * msPerDay) →
  periodKeyStart g x ∈ periodsFrom fuel g (periodKeyStart g t) to.
Proof.
  induction fuel as [|fuel IH]; intros t Hx Hf; [lia|]. cbn [periodsFrom]. rewrite (proj2 (Z.leb_le _ _)) by lia.
  destruct (Z.lt_ge_cases x (pr_end (periodKeyStart g t))).
  - rewrite (period_same g t x) by lia. by left.
  - right. pose proof (shortest_period t). apply IH; rewrite next_start; lia.
Qed.

(** Every instant of a window of at most 399 of the shortest periods. *)
Lemma enumerate_covers from to x : to - from ≤ 399 * (shortestDays g * msPerDay) → from ≤ x ≤ to →
  periodKeyStart g x ∈ enumeratePeriods g from to.
Proof.
  intros Hw Hx. unfold enumeratePeriods. pose proof (period_holds g from) as Hf. change 400%nat with (S 399).
  remember 399%nat as n eqn:En. cbn [periodsFrom]. rewrite (proj2 (Z.leb_le _ _)) by lia.
  destruct (Z.lt_ge_cases x (pr_end (periodKeyStart g from))).
  - rewrite (period_same g from x) by lia. by left.
  - right. apply periodsFrom_covers; rewrite next_start; [lia|]. subst n. lia.
Qed.
End Periods.

(** ** Aggregation *)

Lemma aggregate_lookup g k points : ∀ m : gmap string Agg,
  default empty (foldl (λ byKey pt, <[pr_key (periodKeyStart g (ts pt)) :=
                                       addPoint (default empty (byKey !! pr_key (periodKeyStart g (ts pt)))) pt]> byKey) m points !! k)
  = foldl addPoint (default empty (m !! k)) (filter (λ pt, pr_key (periodKeyStart g (ts pt)) = k) points).
Proof.
  induction points as [|pt points IH]; intros m; [done|]. cbn [foldl]. rewrite IH, filter_cons.
  destruct (decide (pr_key (periodKeyStart g (ts pt)) = k)) as [<-|Hne]; [by rewrite lookup_insert_eq|by rewrite lookup_insert_ne].
Qed.

Lemma initial_empty k periods : ∀ m : gmap string Agg, default empty (m !! k) = empty →
  default empty (foldl (λ byKey p, <[pr_key p := empty]> byKey) m periods !! k) = empty.
Proof.
  induction periods as [|p periods IH]; intros m Hm; [done|]. cbn [foldl]. apply IH.
  destruct (decide (pr_key p = k)) as [<-|Hne]; [by rewrite lookup_insert_eq|by rewrite lookup_insert_ne].
Qed.

Lemma aggregate_sums points : ∀ a, foldl addPoint a points =
  mkAgg (foldl (λ x pt, num_add x (pt_liters pt)) (liters_ a) points) (foldl (λ x pt, num_add x (pt_km pt)) (km_ a) points)
    (foldl (λ x pt, num_add x (pt_cost pt)) (cost_ a) points) (logCount_ a + Z.of_nat (length points))
    (anomalyCount_ a + Z.of_nat (length (filter (λ p, pt_anomaly p = true) points))).
Proof.
  induction points as [|pt points IH]; intros a; cbn [foldl length]; [destruct a; cbn; f_equal; lia|].
  rewrite IH, filter_cons. cbn [addPoint liters_ km_ cost_ logCount_ anomalyCount_].
  f_equal; [lia|]. destruct (pt_anomaly pt); [rewrite decide_True by done|rewrite decide_False by done]; cbn [length]; lia.
Qed.

(** A bucket shows the totals of the points of its period. *)
Lemma bucket_figures g periods points p : isPeriod g p →
  figuresOf (default empty (aggregate g periods points !! pr_key p)) = totalsOf (filter (λ pt, holds p (ts pt)) points).
Proof.
  intros Hp. unfold aggregate. rewrite aggregate_lookup, initial_empty by done. rewrite aggregate_sums. unfold totalsOf, sumOf.
  rewrite (list_filter_iff _ (λ pt, holds p (ts pt))); [done|].
  intros pt. rewrite (holds_period g p (ts pt) Hp). destruct Hp as [x ->]. split; [apply key_inj|by intros ->].
Qed.

(** ** Counting over disjoint periods *)

Lemma ordered_before l p t : ordered l → Forall (λ q, t < pr_start q) l → p ∈ l → ¬ holds p t.
Proof. intros _ HF Hp [H _]. rewrite Forall_forall in HF. specialize (HF p Hp). lia. Qed.

Lemma ordered_lookup l i j a b : ordered l → l !! i = Some a → l !! j = Some b → (i < j)%nat → pr_end a ≤ pr_start b.
Proof.
  intros Hl. revert i j. induction Hl as [|p l Hl IH HF]; intros i j Hi Hj Hij; [done|].
  destruct j as [|j]; [lia|]. destruct i as [|i]; cbn in *.
  - injection Hi as ->. rewrite Forall_forall in HF. apply HF. by apply list_elem_of_lookup_2 in Hj.
  - apply (IH i j); [done|done|lia].
Qed.

Lemma one_holder l t i j a b : ordered l → l !! i = Some a → l !! j = Some b → holds a t → holds b t → i = j.
Proof.
  unfold holds. intros Hl Hi Hj Ha Hb. destruct (Nat.lt_trichotomy i j) as [H|[H|H]]; [|done|].
  - pose proof (ordered_lookup _ _ _ _ _ Hl Hi Hj H). lia.
  - pose proof (ordered_lookup _ _ _ _ _ Hl Hj Hi H). lia.
Qed.

Lemma sum_Z_cons x l : sum_Z (x :: l) = x + sum_Z l.
Proof. done. Qed.

Lemma sum_Z_map_add {A} (f h : A → Z) l : sum_Z (map (λ x, f x + h x) l) = sum_Z (map f l) + sum_Z (map h l).
Proof. induction l as [|x l IH]; [done|]. cbn [map]. rewrite !sum_Z_cons, IH. lia. Qed.

Lemma count_one l t p : ordered l → p ∈ l → holds p t → sum_Z (map (λ q, if decide (holds q t) then 1 else 0) l) = 1.
Proof.
  induction l as [|q l IH]; intros Hl Hp Ht; [by apply elem_of_nil in Hp|].
  pose proof (StronglySorted_inv Hl) as [Hl' HF]. cbn [map]. rewrite sum_Z_cons, Forall_forall in *. apply elem_of_cons in Hp as [->|Hp].
  - rewrite decide_True by done. assert (E : sum_Z (map (λ q, if decide (holds q t) then 1 else 0) l) = 0); [|lia].
    clear IH Hl Hl'. induction l as [|r l IH]; [done|]. cbn [map]. rewrite decide_False.
    + rewrite sum_Z_cons, Z.add_0_l. apply IH. intros x Hx. apply HF. by right.
    + intros [H _]. specialize (HF r (list_elem_of_here _ _)). destruct Ht. lia.
  - rewrite decide_False; [rewrite Z.add_0_l; by apply IH|]. intros [_ H]. specialize (HF p Hp). destruct Ht. lia.
Qed.

Lemma count_all l (points : list Point) (P : Point → Prop) `{∀ x, Decision (P x)} : ordered l →
  (∀ pt, pt ∈ points → ∃ p, p ∈ l ∧ holds p (ts pt)) →
  sum_Z (map (λ p, Z.of_nat (length (filter P (filter (λ pt, holds p (ts pt)) points)))) l) = Z.of_nat (length (filter P points)).
Proof.
  intros Hl. induction points as [|pt points IH]; intros HC.
  - cbn. clear. induction l as [|p l IH]; [done|]. cbn [map]. rewrite sum_Z_cons, IH. done.
  - assert (HC' : ∀ x, x ∈ points → ∃ p, p ∈ l ∧ holds p (ts x)) by (intros x Hx; apply HC; by right).
    specialize (IH HC'). destruct (HC pt (list_elem_of_here _ _)) as (p & Hp & Hh). pose proof (count_one l _ p Hl Hp Hh) as H1.
    transitivity (sum_Z (map (λ q, (if decide (P pt) then (if decide (holds q (ts pt)) then 1 else 0) else 0) +
      Z.of_nat (length (filter P (filter (λ x, holds q (ts x)) points)))) l)).
    + f_equal. apply map_ext. intros q. rewrite !filter_cons. destruct (decide (holds q (ts pt))); rewrite ?filter_cons; repeat case_decide; cbn [length]; lia.
    + rewrite filter_cons. transitivity ((if decide (P pt) then 1 else 0) + Z.of_nat (length (filter P points))); [|case_decide; cbn [length]; lia].
      rewrite (sum_Z_map_add (λ q, if decide (P pt) then (if decide (holds q (ts pt)) then 1 else 0) else 0)), IH. f_equal.
      destruct (decide (P pt)); [exact H1|]. clear. induction l as [|q l IHl]; [done|]. cbn [map]. by rewrite sum_Z_cons, IHl.
Qed.

(** ** The summary *)

Lemma enumerate_head g from to p : enumeratePeriods g from to !! 0%nat = Some p → p = periodKeyStart g from.
Proof.
  unfold enumeratePeriods. change 400%nat with (S 399). generalize 399%nat. intros n. cbn [periodsFrom].
  case_match; [|done]. by intros [= <-].
Qed.

Lemma ordered_drop l : ordered l → ∀ k, ordered (drop k l).
Proof. induction 1 as [|p l Hl IH HF]; intros [|k]; cbn; [constructor..|by constructor|apply IH]. Qed.

Lemma clamp_ok g from to periods from' clamped : clampPeriods g from to = (periods, from', clamped) →
  ordered periods ∧ Forall (isPeriod g) periods ∧
  (∀ i a b, periods !! i = Some a → periods !! S i = Some b → pr_end a = pr_start b) ∧
  (length periods ≤ MAX_BUCKETS g)%nat ∧ (clamped = false → from' = from) ∧
  (to - from ≤ 399 * (shortestDays g * msPerDay) → ∀ x, from' ≤ x ≤ to → periodKeyStart g x ∈ periods).
Proof.
  set (l := enumeratePeriods g from to).
  assert (HO : ordered l) by apply periodsFrom_ordered.
  assert (HP : Forall (isPeriod g) l) by (apply Forall_forall; intros p Hp; by apply periodsFrom_elem in Hp as [Hp _]).
  assert (HA : ∀ i a b, l !! i = Some a → l !! S i = Some b → pr_end a = pr_start b) by apply periodsFrom_adjacent.
  assert (HH : ∀ p, l !! 0%nat = Some p → p = periodKeyStart g from) by apply enumerate_head.
  assert (HE : to - from ≤ 399 * (shortestDays g * msPerDay) → ∀ x, from ≤ x ≤ to → periodKeyStart g x ∈ l)
    by (intros Hw x Hx; by apply enumerate_covers).
  unfold clampPeriods. fold l. clearbody l. destruct (Nat.ltb_spec (MAX_BUCKETS g) (length l)) as [Hlong|Hshort].
  - set (k := (length l - MAX_BUCKETS g)%nat). assert (Hk : (1 ≤ k < length l)%nat) by (unfold k; destruct g; cbn in *; lia).
    intros [= <- <- <-].
    assert (HD : ∀ i, drop k l !! i = l !! (k + i)%nat) by (intros i; apply lookup_drop).
    split_and!.
    + by apply ordered_drop.
    + by apply Forall_drop.
    + intros i a b. rewrite !HD. replace (k + S i)%nat with (S (k + i)) by lia. apply HA.
    + rewrite length_drop. unfold k. lia.
    + done.
    + intros Hw x Hx. destruct (drop k l) as [|p0 kept] eqn:Ek; [apply (f_equal length) in Ek; rewrite length_drop in Ek; cbn in Ek; lia|].
      assert (Hp0 : l !! k = Some p0) by (rewrite <- (Nat.add_0_r k), <- HD; done).
      assert (Hfirst : l !! 0%nat = Some (periodKeyStart g from)).
      { destruct (lookup_lt_is_Some_2 l 0) as [p Hp]; [lia|]. by rewrite Hp, (HH _ Hp). }
      pose proof (ordered_lookup _ _ _ _ _ HO Hfirst Hp0) as Hlt. pose proof (period_holds g from) as Hf.
      assert (Hin : periodKeyStart g x ∈ l) by (apply HE; lia).
      rewrite <- (take_drop k l), Ek in Hin. apply elem_of_app in Hin as [Hin|Hin]; [exfalso|done].
      apply list_elem_of_lookup in Hin as [i Hi]. apply lookup_take_Some in Hi as [Hi Hik].
      pose proof (ordered_lookup _ _ _ _ _ HO Hi Hp0 Hik). pose proof (period_holds g x). lia.
  - intros [= <- <- <-]. by split_and!.
Qed.

Lemma ofQuery_window cid vid from to c v t : ofQuery cid vid from to c v t = true → from ≤ t ≤ to.
Proof. unfold ofQuery. intros [[[_ H1]%andb_prop H2]%andb_prop _]%andb_prop. lia. Qed.

Lemma points_window src cid vid from to s r pt : pt ∈ pointsOf src cid vid from to s r → from ≤ ts pt ≤ to.
Proof.
  destruct src; cbn [pointsOf]; intros (x & -> & Hx)%list_elem_of_fmap.
  - unfold windowLogs in Hx. rewrite sort_by_perm in Hx. apply list_elem_of_fmap in Hx as ([k l] & -> & Hx).
    apply elem_of_find_many in Hx as [_ Hx]. by apply ofQuery_window in Hx.
  - unfold windowReports in Hx. rewrite sort_by_perm in Hx. apply list_elem_of_filter in Hx as [Hx _]. by apply ofQuery_window in Hx.
Qed.

(** C37: the summary of a window of at most 399 of the shortest periods accounts for every
    record of the window: its buckets are consecutive periods, no more than the maximum, and every
    instant from its start to its end lies in exactly one of them; the figures of a bucket
    are the totals of the records dated in its period; the counts of the
    buckets add up to those of the totals. *)
Theorem summary_exact cid q now s r from to : summaryWindow q now = Ok (from, to) →
  let g := default month (q_groupBy q) in
  to - from ≤ 399 * (shortestDays g * msPerDay) →
  ∃ rep, getPeriodSummary cid q now s r = Ok rep ∧
    let points := pointsOf (ps_source rep) cid (q_vehicleId q) (ps_from rep) to s r in
    let buckets := ps_buckets rep in
    ps_totals rep = totalsOf points ∧
    (∀ b, b ∈ buckets → b_figures b = totalsOf (filter (λ pt, holds (b_period b) (ts pt)) points)) ∧
    (∀ t, ps_from rep ≤ t ≤ to → ∃ i b, buckets !! i = Some b ∧ holds (b_period b) t ∧
       ∀ j b', buckets !! j = Some b' → holds (b_period b') t → j = i) ∧
    (∀ i a b, buckets !! i = Some a → buckets !! S i = Some b → pr_end (b_period a) = pr_start (b_period b)) ∧
    sum_Z (map (λ b, logCount (b_figures b)) buckets) = logCount (ps_totals rep) ∧
    sum_Z (map (λ b, anomalyCount (b_figures b)) buckets) = anomalyCount (ps_totals rep) ∧
    (length buckets ≤ MAX_BUCKETS g)%nat ∧ (ps_clamped rep = false → ps_from rep = from).
Proof.
  intros Hwin g Hw. unfold getPeriodSummary. rewrite Hwin. fold g. destruct (clampPeriods g from to) as [[periods from'] clamped] eqn:Ec.
  destruct (clamp_ok _ _ _ _ _ _ Ec) as (HO & HP & HA & HL & Hfrom & Hcov). specialize (Hcov Hw). eexists. split; [done|].
  cbn [ps_source ps_from ps_buckets ps_totals ps_clamped]. set (points := pointsOf _ _ _ _ _ _ _).
  assert (HB : map (λ p, mkBucket p (figuresOf (default empty (aggregate g periods points !! pr_key p)))) periods
               = map (λ p, mkBucket p (totalsOf (filter (λ pt, holds p (ts pt)) points))) periods).
  { apply map_ext_in. intros p Hp%list_elem_of_In. rewrite Forall_forall in HP. by rewrite (bucket_figures g) by auto. }
  rewrite HB. clear HB.
  assert (HC : ∀ pt, pt ∈ points → ∃ p, p ∈ periods ∧ holds p (ts pt)).
  { intros pt Hpt%points_window. exists (periodKeyStart g (ts pt)). split; [by apply Hcov|apply period_holds]. }
  split_and!; [done| | | | | |by rewrite length_map|done].
  - intros b (p & -> & _)%list_elem_of_fmap. done.
  - intros t Ht. destruct (proj1 (list_elem_of_lookup _ _) (Hcov t Ht)) as [i Hi]. exists i. eexists.
    rewrite list_lookup_fmap, Hi. split_and!; [done|apply period_holds|]. intros j b'. rewrite list_lookup_fmap.
    destruct (periods !! j) as [p|] eqn:Ej; [|done]. intros [= <-] Hh. apply (one_holder _ t _ _ _ _ HO Ej Hi Hh). apply period_holds.
  - intros i a b. rewrite !list_lookup_fmap. destruct (periods !! i) as [p|] eqn:Ei; [|done]. destruct (periods !! S i) as [p'|] eqn:Ej; [|done].
    intros [= <-] [= <-]. by apply (HA i).
  - rewrite map_map. pose proof (count_all periods points (λ _, True) HO HC) as H. rewrite (filter_all (λ _, True)) in H by by apply Forall_true.
    transitivity (sum_Z (map (λ p, Z.of_nat (length (filter (λ _ : Point, True) (filter (λ pt, holds p (ts pt)) points)))) periods)); [|exact H].
    f_equal. apply map_ext. intros p. cbn [b_figures totalsOf figuresOf logCount logCount_]. by rewrite (filter_all (λ _, True)) by by apply Forall_true.
  - rewrite map_map. exact (count_all periods points (λ p, pt_anomaly p = true) HO HC).
Qed.

Definition exSummaryLog (t : Z) : FuelLog :=
  mkLog "co" "van" (num_of_Z 40) (num_of_Z 500) (num_of_Z 200000) t None false None None false None false None None.
Definition exSummaryStore (t : Z) : FuelStore := mkFuel {["l1" := exSummaryLog t]} ∅ ∅ [] [] [] ∅.
Definition exNoReports : ReportStore := exReports [].
Definition exQuery (g : GroupBy) (from to : option Z) : SummaryQuery :=
  mkQuery (Some g) (Some source_logs) None ((λ t, ("from", Some t)) <$> from) ((λ t, ("to", Some t)) <$> to).
Definition atUtc (y m d : Z) : Z := MakeDate (MakeDay y m d) 0.

Lemma summary_exact_witness :
  ∃ rep, getPeriodSummary "co" (exQuery week None None) (atUtc 2026 5 15) (exSummaryStore (atUtc 2026 5 2)) exNoReports = Ok rep ∧
    sum_Z (map (λ b, logCount (b_figures b)) (ps_buckets rep)) = 1.
Proof.
  destruct (summary_exact "co" (exQuery week None None) (atUtc 2026 5 15) (exSummaryStore (atUtc 2026 5 2)) exNoReports
              (atUtc 2026 5 15 - 84 * msPerDay) (atUtc 2026 5 15)) as (rep & Hr & _ & _ & _ & _ & Hsum & _); [reflexivity|vm_compute; discriminate|].
  exists rep. split; [exact Hr|]. rewrite Hsum. revert Hr. vm_compute. by intros [= <-].
Defined.

(** Two years by day: four hundred days are enumerated from the start, the last 92 of
    those are kept, and the log of the last day is in the totals and in no bucket. *)
Lemma recent_days_dropped :
  match getPeriodSummary "co" (exQuery day (Some (atUtc 2024 0 1)) (Some (atUtc 2026 0 1))) (atUtc 2026 0 1)
          (exSummaryStore (atUtc 2025 11 31)) exNoReports with
  | Ok rep => (logCount (ps_totals rep), sum_Z (map (λ b, logCount (b_figures b)) (ps_buckets rep)),
               pr_key ∘ b_period <$> last (ps_buckets rep))
  | Throw _ => (0, 0, None)
  end = (1, 0, Some "2025-02-03").
Proof. vm_compute. reflexivity. Qed.

(** Without dates the window of the months begins on the day of today eleven months
    ago: a log of the first days of the first month shown is not in it. *)
Lemma first_month_is_partial :
  match getPeriodSummary "co" (exQuery month None None) (atUtc 2026 2 20) (exSummaryStore (atUtc 2025 3 5)) exNoReports with
  | Ok rep => (logCount (ps_totals rep), (λ b, (pr_key (b_period b), bool_decide (holds (b_period b) (atUtc 2025 3 5)))) <$> head (ps_buckets rep))
  | Throw _ => (1, None)
  end = (0, Some ("2025-04", true)).
Proof. vm_compute. reflexivity. Qed.

(** ** The diagnostics *)

Lemma pushGroup_total vid p groups :
  sum_list_with (length ∘ snd) (pushGroup vid p groups) = S (sum_list_with (length ∘ snd) groups).
Proof.
  induction groups as [|[k l] groups IH]; [done|]. cbn [pushGroup]. case_match; cbn in *; [rewrite length_app; cbn; lia|rewrite IH; lia].
Qed.

Lemma groups_total l : sum_list_with (length ∘ snd) (groupByVehicle l) = length l.
Proof.
  induction l as [|p l IH] using rev_ind; [done|]. rewrite groupByVehicle_snoc, pushGroup_total, IH, length_app. cbn. lia.
Qed.

(** The diagnostics of a day account for every position of the company: the vehicles
    are distinct, each is credited with exactly its positions of the day, valid or suspect, and those
    of the vehicles and the unattributed ones are all there are. *)
Theorem diagnostics_account jm cid date now r d : getGpsDiagnostics jm cid date now r = Ok d →
  NoDup (map vd_vehicleId (dg_vehicles d)) ∧
  (∀ v, v ∈ dg_vehicles d →
     let l := filter (λ p, p_vehicleId p = vd_vehicleId v ∧ p_companyId p = cid ∧ inDay (dg_date d) p = true) (trace r) in
     vd_fixCount v = length l ∧ vd_validCount v = length (filter (λ p, p_suspect p = false) l) ∧
     (vd_validCount v + vd_suspectCount v = vd_fixCount v)%nat) ∧
  (sum_list_with vd_fixCount (dg_vehicles d) + dg_unattributedPositions d = dg_totalPositions d)%nat.
Proof.
  unfold getGpsDiagnostics. destruct (match given date with Some raw => _ | None => _ end) as [t|]; [|done]. intros [= <-].
  set (l0 := filter _ (trace r)). set (att := filter _ (sort_by p_timestamp l0)).
  destruct (groupByVehicle_spec att) as [Hnd HG]. cbn [dg_vehicles dg_date dg_unattributedPositions dg_totalPositions].
  assert (Hatt : (length att ≤ length (sort_by p_timestamp l0))%nat) by apply length_filter.
  set (mk := vehicleDiag _ _ _ _). split_and!.
  - rewrite map_map. replace (map _ (groupByVehicle att)) with (groupByVehicle att).*1; [done|]. apply map_ext. by intros [k grp].
  - intros v ([k grp] & -> & Hin)%list_elem_of_fmap. cbn [mk vehicleDiag vd_vehicleId vd_fixCount vd_validCount vd_suspectCount].
    apply HG in Hin as [-> Hne]. assert (Hk : k ≠ "").
    { intros ->. apply Hne. unfold DailyReportsProps.ofVehicle, att. rewrite list_filter_filter. apply filter_none, Forall_forall. intros p _ [??]. done. }
    assert (HE : DailyReportsProps.ofVehicle k att ≡ₚ filter (λ p, p_vehicleId p = k ∧ p_companyId p = cid ∧ inDay t p = true) (trace r)).
    { unfold DailyReportsProps.ofVehicle, att. rewrite list_filter_filter, sort_by_perm. unfold l0. rewrite list_filter_filter.
      erewrite list_filter_iff; [done|]. intros p. naive_solver. }
    split_and!; [by rewrite HE|by rewrite HE|]. pose proof (length_filter (λ p, p_suspect p = false) (DailyReportsProps.ofVehicle k att)). lia.
  - assert (HS : sum_list_with vd_fixCount (map mk (groupByVehicle att)) = sum_list_with (length ∘ snd) (groupByVehicle att)).
    { generalize (groupByVehicle att). induction l as [|[k grp] l IH]; [done|]. cbn [map sum_list_with]. rewrite IH. done. }
    rewrite HS, groups_total. lia.
Qed.
